(* ===== verification/_CoqProject ===== *)
-Q . S2P
Prelude.v
Effects.v
Uint256.v
MerkleTree.v
Stream.v
Serializer.v
SerializerLaws.v
SerializerTheorems.v
Protocol.v
BloomFilter.v
Trie.v
TrieSize.v
PatriciaTrie.v
PatriciaTrieTheorems.v
Account.v
Transaction.v
Block.v
Wire.v
MptNode.v
Mpt.v
MptLaws.v
MptHash.v
MptTheorems.v
AccountTrie.v
Ledger.v
LedgerLaws.v
LedgerSpec.v
LedgerTheorems.v
LedgerNonces.v
LedgerSupply.v
LedgerRollback.v
LedgerScenarios.v
Settings.v
Packaging.v
PackagingTheorems.v
PackagingSpends.v
PackagingScenarios.v
LevelDB.v
Ecc.v
BlockStore.v
BlockStoreTheorems.v
Application.v
ApplicationTheorems.v
TimerTree.v
TimerWheel.v
TimerWheelTheorems.v
TimerWheelRuns.v
LedgerStore.v
LedgerStoreTheorems.v
NetNode.v
Pieces.v
Reassembly.v
Packets.v
Middleware.v
Invoker.v
SubReactor.v
SubReactorLaws.v
SubReactorTheorems.v
Turns.v
SubReactorScenarios.v
Reactor.v
Exchange.v
ExchangeTheorems.v
Registry.v
RegistryTheorems.v
ArgParse.v
P2P.v
RemoteCall.v
InvokerTheorems.v
TransmitterEvent.v
Transmitter.v
TransmitterLaws.v
TransmitterTheorems.v
TransmitterScenarios.v
LinkReactor.v
ThreadPool.v
ThreadPoolTheorems.v
ThreadPoolRuns.v
ConcurrentPool.v
ConcurrentPoolTheorems.v
