(* ===== verification/Prelude.v ===== *)
(** * muse-chain: a verification library

    muse-chain is a node of a block chain: it keeps accounts and their assets in a Merkle
    Patricia trie, checks and packages blocks of transactions, stores them in LevelDB, and
    talks to other programs over a remote procedure call protocol of its own on UDP.  This
    library models its code under [src/include] and proves what it promises, and where it
    breaks its promises.

    ** How the program is put together

    - [application] starts a node: it reads the settings and the keys, makes the genesis
      block or reads the state a node was left in, and owns the database interface.
    - [interface_db] has two halves.  [connector_account] is the ledger: it checks block
      bodies, inserts blocks in the account tree with a list of operations that undo them,
      packages the next body and writes what changed.  [connector_block] keeps blocks, the
      headers and the queues of what waits for a block.
    - Both use the data classes (transactions, affairs, blocks, accounts), the Merkle tree
      of a body, the bloom filter of its assets, and the Merkle Patricia trie.
    - The serializer writes data for the disk and for the wire.
    - The RPC: a client cuts a message in pieces; the main reactor of a server gives the
      datagrams of a peer to a sub reactor; it puts the message together and commits it to
      a thread pool, whose task sends it through the services (compression, router) to a
      registered method, and the answer goes back in pieces.  Two sorts of timers serve it.

    ** The files

    Shared: [Prelude] (bytes, words, lists, lookups, their tactics and hints), [Effects]
    (the monad of states, exceptions and undefined behaviour).

    Data: [Uint256] (uint256.hpp), [Account] (account.cpp, receipt.cpp), [Transaction]
    (transaction.cpp), [Block] (affair.cpp, block*.cpp), [Trie] and [TrieSize] (Trie.hpp),
    [PatriciaTrie] (patricia_trie.cpp) with [PatriciaTrieTheorems], [BloomFilter],
    [MerkleTree].

    Serializer: [Stream] is the state of the two readers and of the writer, [Serializer] has
    one definition per overload, with the class [Serializable] in the part of overload
    resolution, and [SerializerLaws] is the contract ([encode] is the wire format) that
    every overload keeps; [SerializerTheorems] has the types the overloads make up as codes
    ([wire_type]), each with its overload, and the round trip for all of them; [Wire] is for
    the classes of the chain.

    Account tree: [MptNode] and [Mpt] are the trie (merkle_patricia_trie.hpp); [MptLaws],
    [MptHash], [MptTheorems] prove that it is a finite map with a canonical root hash.
    [AccountTrie] is the interface the ledger uses, with its laws, and the instance.

    Ledger: [Ledger] is connector_account.cpp over that interface; [LedgerLaws],
    [LedgerSpec] the specification on finite maps and the refinement; [LedgerTheorems],
    [LedgerNonces], [LedgerSupply], [LedgerRollback], [LedgerScenarios] what follows;
    [Packaging] and its theorems the packaging of a body; [LevelDB] the database as a class
    with its documented laws, [LedgerStore] and [BlockStore] what is written there.

    Node: [Settings], [Ecc] (ecc_secp256k1.cpp over a class for OpenSSL), [Application];
    [ArgParse] (argparse.hpp, and the command line of main.cpp), [NetNode] (the records of
    nodes and of the configuration of the network) and [P2P] (p2p_router.cpp, and main.cpp
    up to its first use of the ledger).

    Timers: [TimerTree], [TimerWheel] with [TimerWheelTheorems] and [TimerWheelRuns].

    RPC: [Protocol] (the header of 26 bytes), [Pieces] (reqeust.hpp, response.hpp,
    response_data.hpp), [Reassembly], [Packets] (what each end sends), [Middleware],
    [Invoker] (the synchronous client, over a class of networks), [SubReactor] (a state
    with one operation per function of sub_reactor.cpp, and a turn of its loop), [Reactor]
    (the main reactor over a list of sub reactors), [Registry] (methods, router and
    [Client::call]); [SubReactorLaws], [SubReactorTheorems], [Turns],
    [SubReactorScenarios], [InvokerTheorems], [RegistryTheorems] their theorems;
    [Exchange] puts client, network and server together, and [ExchangeTheorems] and
    [RemoteCall] follow a call from end to end.  [TransmitterEvent] and [Transmitter] are
    the asynchronous client (transmitter_event.hpp, transmitter.cpp), with
    [TransmitterLaws], [TransmitterTheorems] and [TransmitterScenarios]; [LinkReactor] the
    calls of the server (transmitter_link_reactor.cpp).  [ThreadPool] is pool.cpp as a
    machine of threads whose steps a schedule interleaves; [ThreadPoolTheorems] and
    [ThreadPoolRuns] are about every schedule.  [ConcurrentPool], with its
    theorems, is concurrent_pool.cpp over a class for its queue, and the task with its
    future (executor_token.h).

    ** What the theorems show

    - Refinement and equivalence: the trie is a map ([mpt_simulates_map]) whose root hash
      depends on the map alone; the ledger simulates its specification on maps over any
      sequence of operations ([ledger_refines_spec]); a remote call is the call of the
      method where the method is ([remote_call]); the compressed trie of strings is a
      multiset of words ([patricia_refines_multiset]).
    - Invariants of reachable states: the chain of a ledger that is not rolled back, the
      supply of every asset when the outputs of each payment add up, the nonces of a
      block, what a packaged body spends, what confirmed blocks leave on disk;
      the function of an asynchronous call is called at most once ([answered_once]); no
      schedule of the thread pools loses or repeats a task ([pool_accounting],
      [core_accounting]), and none of the second pool is undefined when tasks are
      committed one by one and once and [close] waits for the calls that are under way.
    - Round trips: every type of the serializer through either reader
      ([serialize_roundtrip]), blocks over the wire and through the database, the rollback of
      blocks that establish assets ([total_rollback_restores]; not of those that debit an
      account: [append_not_undone]).
    - Errors and bounds: what is thrown and what it leaves behind, which datagram does what,
      in which ticks of the wheel a timeout runs.
    - Termination and liveness: loops with a bound, calls that end and those that do not
      ([unanswered_call], [response_delivered]), pools that drain and close ([pool_drains],
      [close_returns]).
    - What the command line gives the program ([main_reads]), what the start of a node
      needs, and what it has touched when it fails ([start_needs]).
    - Where the code does not do what it means to, a theorem says so of the model, with a
      run of it as its witness: [payment_replayed], [packaging_spins],
      [response_used_after_free], [queue_blocked], [forgotten_call_waits],
      [late_packet_spins], [close_can_hang], [accepted_task_stranded],
      [close_races] and others.

    ** Conventions

    Integers are [Z] with their wrap-around written out ([u16], [u32], [u64]); bytes are
    [Z] below 256; a [std::string] is a list of them.  The byte order of the host is the
    class [Host].  An access outside an object is [None] or [Undefined], never a value.
    Third-party code is a class whose laws are its documentation: [HashHandler] and
    [OpenSSL], [LevelDB], [Zlib], the memory [Pool], the sockets ([Network]).  Pointers to
    shared objects are keys into the store that has them, where sharing matters: accounts
    in the trie, timers in the wheel, blocks of the pool, keys of a node.  Operations are
    atomic: locks are not modelled, and the operations of several threads are taken in
    some order.  [ThreadPool] and [ConcurrentPool] are the exception: there a step is what
    a thread does between two accesses to what it shares, and the mutex and the condition
    are part of the state; of the memory that is not atomic, [ConcurrentPool] keeps track of
    the threads that [close] and a caller may both join or replace, and of the tasks that two
    workers may both take.

    Loops that are not structural have fuel.  A loop along a key of the trie has the number
    of its subscripts, [get_hash] the number of nodes, the Merkle tree the number of
    leaves, and theorems exclude that these run out.  Packaging and the client
    take their fuel as an argument: a theorem says which is enough
    ([packaging_ends], where it bounds the passes and the turns of each pass, [remote_call] with 65536, [silent_call_ends] with 3) and another when
    none is.

    ** Not modelled

    Threads and locks outside the pools; weaker memory than sequential consistency; sockets,
    epoll, starting and stopping (system calls); OpenSSL's own computations, PEM files and
    the other ciphers (encryption/rsa_handler.cpp, ecc_sm2_handler.cpp), which only call it;
    LevelDB and the reading of the tree back from it, which is why the start of the program
    ends before the ledger is opened; the parser of the JSON configuration; the reward calculator of
    consensus/, which is floating point; what is logged (that the log is opened is, over a
    parameter for spdlog) and the other utilities; the
    vendored libraries under dependency/ (LevelDB, the lock-free queue and others); tests and examples. *)
From Stdlib Require Import ZArith Lia.
From stdpp Require Export base gmap sets list strings numbers sorting.

Declare Scope muse_scope.
Delimit Scope muse_scope with muse.
#[global] Open Scope Z_scope.

(** ** Machine integers *)

(** [wrap w z] is [z] stored in an unsigned integer of [w] bits. *)
Definition wrap (w z : Z) : Z := z mod 2 ^ w.

Abbreviation u8 := (wrap 8).
Abbreviation u16 := (wrap 16).
Abbreviation u32 := (wrap 32).
Abbreviation u64 := (wrap 64).

(** [swrap w z] is [z] stored in a two's complement integer of [w] bits. *)
Definition swrap (w z : Z) : Z :=
  if wrap w z <? 2 ^ (w - 1) then wrap w z else wrap w z - 2 ^ w.

Definition is_uint (w z : Z) : Prop := 0 <= z < 2 ^ w.

Lemma wrap_range w z : 0 <= w -> is_uint w (wrap w z).
Proof. intros. apply Z.mod_pos_bound. lia. Qed.

Lemma wrap_small w z : is_uint w z -> wrap w z = z.
Proof. intros. by apply Z.mod_small. Qed.

Lemma wrap_wrap w z : 0 <= w -> wrap w (wrap w z) = wrap w z.
Proof. intros. apply wrap_small, wrap_range; lia. Qed.

Lemma wrap_add_l w a b : wrap w (wrap w a + b) = wrap w (a + b).
Proof. apply Zplus_mod_idemp_l. Qed.

Lemma wrap_add_r w a b : wrap w (a + wrap w b) = wrap w (a + b).
Proof. apply Zplus_mod_idemp_r. Qed.

Lemma Z_to_nat_pow2 k : Z.to_nat (2 ^ Z.of_nat k) = (2 ^ k)%nat.
Proof. change 2 with (Z.of_nat 2) at 1. by rewrite <-Z2Nat.inj_pow, Nat2Z.id. Qed.

(** ** Fallible computations *)

Inductive res (E A : Type) : Type :=
| Ok (a : A)
| Err (e : E).
Arguments Ok {E A} a.
Arguments Err {E A} e.

#[global] Instance res_ret {E} : MRet (res E) := fun A a => Ok a.
#[global] Instance res_bind {E} : MBind (res E) := fun A B f m =>
  match m with Ok a => f a | Err e => Err e end.

Definition is_ok {E A} (r : res E A) : bool :=
  match r with Ok _ => true | Err _ => false end.

Lemma res_bind_ok {E A B} (f : A -> res E B) m b :
  m ≫= f = Ok b -> exists a, m = Ok a /\ f a = Ok b.
Proof. destruct m; simpl; [eauto | discriminate]. Qed.

(** ** Lists *)
Lemma Forall_zip_with_all {A B C} (P : C -> Prop) (f : A -> B -> C) l k :
  (forall x y, P (f x y)) -> Forall P (zip_with f l k).
Proof. intros Hf. revert k; induction l; intros []; simpl; constructor; auto. Qed.

Lemma forallb_Forall {A} (f : A -> bool) (P : A -> Prop) l :
  (forall x, f x = true -> P x) -> forallb f l = true -> Forall P l.
Proof. intros Hf Hl. rewrite forallb_forall in Hl. apply Forall_forall. intros x Hx%list_elem_of_In. auto. Qed.

(** Induction two elements at a time. *)
Lemma list_pair_ind {A} (P : list A -> Prop) :
  P [] -> (forall x, P [x]) -> (forall x y l, P l -> P (x :: y :: l)) -> forall l, P l.
Proof.
  intros H0 H1 H2 l. assert (P l /\ forall x, P (x :: l)) as [? _]; [|done].
  induction l as [|x l [IH1 IH2]]; split; auto.
Qed.

(** ** Byte strings

    A byte is an integer in [0, 256); [std::string], buffers and byte
    arrays are lists of bytes. *)
Abbreviation bytes := (list Z).

Definition byte_ok (b : Z) : Prop := is_uint 8 b.
Definition bytes_ok (l : bytes) : Prop := Forall byte_ok l.

(** A character literal as a byte. *)
Definition byte_of_ascii (c : Ascii.ascii) : Z := Z.of_N (Ascii.N_of_ascii c).
Fixpoint bytes_of_string (s : string) : bytes :=
  match s with
  | EmptyString => []
  | String c s => byte_of_ascii c :: bytes_of_string s
  end.
Notation "'b!' s" := (bytes_of_string s%string) (at level 9, s at level 9) : muse_scope.
#[global] Open Scope muse_scope.

Lemma byte_of_ascii_ok c : byte_ok (byte_of_ascii c).
Proof.
  unfold byte_ok, is_uint, byte_of_ascii.
  pose proof (Ascii.N_ascii_bounded c). lia.
Qed.

Lemma bytes_of_string_ok s : bytes_ok (bytes_of_string s).
Proof. induction s; constructor; [apply byte_of_ascii_ok|done]. Qed.

(** Little-endian encoding of an integer in [n] bytes. *)
Fixpoint le_encode (n : nat) (z : Z) : bytes :=
  match n with
  | O => []
  | S n => z mod 256 :: le_encode n (z / 256)
  end.

Fixpoint le_decode (l : bytes) : Z :=
  match l with
  | [] => 0
  | b :: l => b + 256 * le_decode l
  end.

Lemma le_encode_length n z : length (le_encode n z) = n.
Proof. revert z; induction n; intros; simpl; auto. Qed.

Lemma le_encode_ok n z : bytes_ok (le_encode n z).
Proof.
  revert z; induction n as [|n IH]; intros; simpl; constructor.
  - apply Z.mod_pos_bound. lia.
  - apply IH.
Qed.

Lemma le_decode_encode n z :
  le_decode (le_encode n z) = wrap (8 * Z.of_nat n) z.
Proof.
  unfold wrap. revert z; induction n as [|n IH]; intros z; cbn [le_encode le_decode].
  { by rewrite Z.mod_1_r. }
  rewrite IH. replace (8 * Z.of_nat (S n)) with (8 + 8 * Z.of_nat n) by lia.
  rewrite Z.pow_add_r by lia. change (2 ^ 8) with 256.
  symmetry. rewrite Z.rem_mul_r; lia.
Qed.

Lemma le_encode_decode l : bytes_ok l -> le_encode (length l) (le_decode l) = l.
Proof.
  induction 1 as [|b l Hb _ IH]; simpl; auto.
  unfold byte_ok, is_uint in Hb. change (2 ^ 8) with 256 in Hb.
  assert (b + 256 * le_decode l = le_decode l * 256 + b) as -> by lia.
  rewrite Z.add_comm, Z.mod_add, Z.mod_small by lia.
  rewrite Z.div_add, Z.div_small by lia. by rewrite Z.add_0_l, IH.
Qed.

Lemma le_decode_bound l : bytes_ok l -> is_uint (8 * Z.of_nat (length l)) (le_decode l).
Proof.
  unfold is_uint. induction 1 as [|b l Hb _ IH]; cbn [le_decode length]; [simpl; lia|].
  unfold byte_ok, is_uint in Hb. change (2 ^ 8) with 256 in Hb.
  replace (8 * Z.of_nat (S (length l))) with (8 + 8 * Z.of_nat (length l)) by lia.
  rewrite Z.pow_add_r by lia. change (2 ^ 8) with 256. lia.
Qed.

Lemma le_encode_wrap n z : le_encode n (wrap (8 * Z.of_nat n) z) = le_encode n z.
Proof.
  rewrite <-le_decode_encode.
  rewrite <-(le_encode_length n z) at 1.
  apply le_encode_decode, le_encode_ok.
Qed.

(** ** Ranges of a byte buffer *)

Definition slice (off n : nat) (l : bytes) : bytes := take n (drop off l).

Lemma slice_drop off n l : slice off n l ++ drop (off + n) l = drop off l.
Proof. unfold slice. rewrite <-drop_drop. apply take_drop. Qed.

Lemma slice_length off n l : (off + n <= length l)%nat -> length (slice off n l) = n.
Proof. intros. unfold slice. rewrite length_take, length_drop. lia. Qed.

Lemma slice_ok off n l : bytes_ok l -> bytes_ok (slice off n l).
Proof. intros. by apply Forall_take, Forall_drop. Qed.

(** [std::memcpy(&l[off], d, sizeof d)] inside the buffer. *)
Definition put (off : nat) (d l : bytes) : bytes :=
  take off l ++ d ++ drop (off + length d) l.

Lemma put_length off d l : (off + length d <= length l)%nat -> length (put off d l) = length l.
Proof. intros. unfold put. rewrite !length_app, length_take, length_drop. lia. Qed.

Lemma slice_put_same off n d l :
  length d = n -> (off + n <= length l)%nat -> slice off n (put off d l) = d.
Proof.
  intros <- H. unfold slice, put. rewrite drop_app_length' by (rewrite length_take; lia).
  by rewrite take_app_length.
Qed.

Lemma slice_put_other off n off' d l :
  (off' + length d <= length l)%nat -> (off + n <= off' \/ off' + length d <= off)%nat ->
  slice off n (put off' d l) = slice off n l.
Proof.
  intros H [Ho|Ho]; unfold slice, put.
  - rewrite drop_app_le by (rewrite length_take; lia).
    rewrite take_app_le by (rewrite length_drop, length_take; lia).
    rewrite skipn_firstn_comm, take_take. f_equal. lia.
  - rewrite drop_app_ge by (rewrite length_take; lia).
    rewrite drop_app_ge by (rewrite length_take; lia). rewrite drop_drop.
    rewrite length_take. do 2 f_equal. lia.
Qed.

Lemma put_ok off d l : bytes_ok d -> bytes_ok l -> bytes_ok (put off d l).
Proof.
  intros Hd Hl. unfold put. repeat apply Forall_app_2; [by apply Forall_take|done|by apply Forall_drop].
Qed.

(** ** Byte order of the host *)
Inductive ByteSequence := BigEndian | LittleEndian.
#[global] Instance ByteSequence_eq_dec : EqDecision ByteSequence.
Proof. solve_decision. Defined.

(** The bytes of an [n]-byte integer in the memory of a host. *)
Definition mem_encode (host : ByteSequence) (n : nat) (z : Z) : bytes :=
  match host with LittleEndian => le_encode n z | BigEndian => reverse (le_encode n z) end.
Definition mem_decode (host : ByteSequence) (l : bytes) : Z :=
  match host with LittleEndian => le_decode l | BigEndian => le_decode (reverse l) end.

Lemma bytes_ok_reverse l : bytes_ok l -> bytes_ok (reverse l).
Proof. unfold bytes_ok. by rewrite Forall_reverse. Qed.

Lemma mem_encode_length host n z : length (mem_encode host n z) = n.
Proof. destruct host; simpl; rewrite ?length_reverse; apply le_encode_length. Qed.

Lemma mem_encode_ok host n z : bytes_ok (mem_encode host n z).
Proof. destruct host; simpl; auto using bytes_ok_reverse, le_encode_ok. Qed.

Lemma mem_decode_encode host n z :
  mem_decode host (mem_encode host n z) = wrap (8 * Z.of_nat n) z.
Proof. destruct host; simpl; rewrite ?reverse_involutive; apply le_decode_encode. Qed.

(** ** Hint databases and tactics *)
Create HintDb muse discriminated.
Create Rewrite HintDb muse_len.
#[export] Hint Resolve le_encode_ok mem_encode_ok bytes_ok_reverse byte_of_ascii_ok
  bytes_of_string_ok : muse.
#[export] Hint Rewrite le_encode_length mem_encode_length @length_app @length_reverse
  @length_replicate @length_insert @length_take @length_drop @length_zip_with : muse_len.

(** Solve a goal on the length of byte strings. *)
Ltac len := cbn [length app] in *; autorewrite with muse_len in *; cbn [length app] in *; lia.

(** Case analysis on the binds and the tests of a hypothesis [H]. *)
Ltac inv_bind H :=
  let a := fresh "a" in let Ha := fresh "Ha" in
  apply res_bind_ok in H as (a & Ha & H).
