(* ===== verification/Effects.v ===== *)
(** * Effects

    The monad of the stateful parts: a state with exceptions.  An exception leaves the
    state as it is when it is thrown, a [catch(...)] goes on from there, and undefined
    behaviour is an outcome of its own. *)
From S2P Require Import Prelude.

(** ** Exceptions *)
Inductive db_error_code :=
| asset_already_exist | account_no_exist | atomic_operation_failed | invalid_account_address
| leveldb_pointer_is_nullptr
| invalid_patricia_merkle_tree_root_hash | root_hash_of_the_MPT_cannot_be_restored.

(** [StdException]: any exception of the standard library, and the [std::logic_error]s
    that [ReactorException] and [ClientException] are. *)
Inductive exn := ChainDb (e : db_error_code) | StdException.

(** ** Computations *)
Inductive outcome (S A : Type) :=
| Ret (a : A) (s : S)
| Throw (e : exn) (s : S)
| Undefined.
Arguments Ret {S A}.
Arguments Throw {S A}.
Arguments Undefined {S A}.

Definition M (S A : Type) := S -> outcome S A.

#[global] Instance M_ret {S} : MRet (M S) := fun A a s => Ret a s.
#[global] Instance M_bind {S} : MBind (M S) := fun A B f m s =>
  match m s with
  | Ret a s => f a s
  | Throw e s => Throw e s
  | Undefined => Undefined
  end.

Definition throw {S A} (e : exn) : M S A := fun s => Throw e s.
Definition undefined {S A} : M S A := fun _ => Undefined.
Definition get_state {S} : M S S := fun s => Ret s s.
Definition modify_state {S} (f : S -> S) : M S unit := fun s => Ret tt (f s).

(** [try { m } catch(...)]: what was thrown, or the value. *)
Definition attempt {S A} (m : M S A) : M S (exn + A) := fun s =>
  match m s with
  | Ret a s => Ret (inr a) s
  | Throw e s => Ret (inl e) s
  | Undefined => Undefined
  end.
Definition try_catch {S A} (m : M S A) (handler : exn -> M S A) : M S A :=
  r ← attempt m; match r with inr a => mret a | inl e => handler e end.

Fixpoint for_each {S A} (f : A -> M S unit) (l : list A) : M S unit :=
  match l with
  | [] => mret tt
  | x :: l => f x ;; for_each f l
  end.

(** ** Runs *)
Lemma ret_bind {S A B} (m : M S A) (f : A -> M S B) b s s' :
  (m ≫= f) s = Ret b s' -> exists a s1, m s = Ret a s1 /\ f a s1 = Ret b s'.
Proof. unfold mbind, M_bind. destruct (m s) as [a s1| |]; [eauto|done..]. Qed.

Lemma run_bind {S A B} (m : M S A) (f : A -> M S B) s a s' : m s = Ret a s' -> (m ≫= f) s = f a s'.
Proof. intros E. unfold mbind, M_bind. by rewrite E. Qed.
Lemma run_bind_assoc {S A B C} (m : M S A) (f : A -> M S B) (g : B -> M S C) s :
  ((m ≫= f) ≫= g) s = (m ≫= fun a => f a ≫= g) s.
Proof. unfold mbind, M_bind. by destruct (m s). Qed.

(** One operation of a run; one whose run is known. *)
Ltac step := rewrite ?run_bind_assoc; erewrite run_bind by reflexivity.
Ltac run H := rewrite ?run_bind_assoc; rewrite (run_bind _ _ _ _ _ H).
