(* ===== verification/Uint256.v ===== *)
(** * 256-bit values: [src/include/db/uint256.hpp], [src/include/encryption/hash_handler.cpp]

    [base_binary<256>] is an array of 32 bytes.  The two hash functions of
    OpenSSL that the chain uses are the operations of the class [HashHandler],
    whose laws are the documented output sizes. *)
From S2P Require Import Prelude.

(** ** The digests of OpenSSL (code outside the repository)

    [EVP_Digest] writes 32 bytes for SHA3-256 and 16 bytes for MD5. *)
Class HashHandler := {
  sha3_256 : bytes -> bytes;
  md5 : bytes -> bytes;
  sha3_256_length l : length (sha3_256 l) = 32%nat;
  sha3_256_ok l : bytes_ok (sha3_256 l);
  md5_length l : length (md5 l) = 16%nat;
  md5_ok l : bytes_ok (md5 l);
}.

(** ** Data *)
Definition Width : nat := 32.

Record uint256 := Uint { data : bytes }.

Definition uint256_wf (x : uint256) : Prop :=
  length (data x) = Width /\ bytes_ok (data x).

#[global] Instance uint256_eq_dec : EqDecision uint256.
Proof. solve_decision. Defined.
#[global] Instance uint256_countable : Countable uint256.
Proof. apply (inj_countable data (fun l => Some (Uint l))). by intros []. Defined.
#[global] Instance uint256_inhabited : Inhabited uint256 := populate (Uint (replicate Width 0)).

(** ** Errors *)
Inductive uint256_error :=
| InvalidArgument            (** std::invalid_argument *)
| OutOfRange                 (** std::out_of_range *)
| AssertFailed               (** a failed assert *)
| UndefinedRead.             (** a read past the end of the array *)

(** ** Constructors *)

(** [base_binary(uint8_t v)]: every byte is [v] ([v] is converted to uint8_t). *)
Definition uint256_fill (v : Z) : uint256 := Uint (replicate Width (u8 v)).

(** [base_binary()]: the array is value-initialised. *)
Definition uint256_zero : uint256 := Uint (replicate Width 0).

(** [base_binary(const char*, uint32_t)] and the [unsigned char] overload. *)
Definition uint256_of_buffer (_data : bytes) (data_length : Z) : res uint256_error uint256 :=
  if decide (data_length = Z.of_nat Width) then
    if decide (length _data < Width)%nat then Err UndefinedRead
    else Ok (Uint (take Width _data))
  else Err AssertFailed.

(** The classification of a character in the "C" locale and its value. *)
Definition isdigit (c : Z) : bool := (48 <=? c) && (c <=? 57).
Definition islower (c : Z) : bool := (97 <=? c) && (c <=? 122).
Definition isupper (c : Z) : bool := (65 <=? c) && (c <=? 90).

Definition hex_value (c : Z) : res uint256_error Z :=
  val ← (if isdigit c then Ok (c - 48)
         else if islower c then Ok (c - 97 + 10)
         else if isupper c then Ok (c - 65 + 10)
         else Err InvalidArgument);
  if 16 <=? val then Err InvalidArgument else Ok val.

(** The loop over the digits.  [mem] is the array being filled (its initial
    contents are indeterminate), [half] counts the nibbles written. *)
Fixpoint hex_loop (vch : bytes) (half : nat) (mem : bytes) : res uint256_error (nat * bytes) :=
  match vch with
  | [] => Ok (half, mem)
  | c :: vch =>
      val ← hex_value c;
      let byte_place := Nat.div2 half in
      let old := default 0 (mem !! byte_place) in
      let mem' :=
        if Nat.even half then <[byte_place := Z.lor (Z.land old 0) (u8 (Z.shiftl val 4))]> mem
        else <[byte_place := Z.lor old val]> mem in
      hex_loop vch (S half) mem'
  end.

(** [for (i = half/2; i < Width; ++i) data[i] = 0] *)
Definition clear_from (i : nat) (mem : bytes) : bytes :=
  take i mem ++ replicate (length mem - i) 0.

Definition parse_digits (vch mem : bytes) : res uint256_error uint256 :=
  '(half, mem) ← hex_loop vch 0 mem;
  Ok (Uint (clear_from (Nat.div2 half) mem)).

(** [base_binary(const std::string&, bool)]: digits without prefix. *)
Definition uint256_of_digits (mem vch : bytes) : res uint256_error uint256 :=
  if decide (Width * 2 < length vch)%nat then Err InvalidArgument
  else parse_digits vch mem.

(** [base_binary(const std::string&)]: digits behind "0x". *)
Definition uint256_of_string (mem vch : bytes) : res uint256_error uint256 :=
  if decide (length vch <= 2)%nat then Err InvalidArgument
  else if decide (vch !! 0%nat ≠ Some 48 \/ vch !! 1%nat ≠ Some 120) then Err InvalidArgument
  else if decide (Width * 2 < length vch - 2)%nat then Err InvalidArgument
  else parse_digits (drop 2 vch) mem.

(** ** Operators *)

(** [std::memcmp]: the sign of the first difference. *)
Fixpoint memcmp (a b : bytes) : Z :=
  match a, b with
  | x :: a, y :: b => if x <? y then -1 else if y <? x then 1 else memcmp a b
  | _, _ => 0
  end.

Definition uint256_Compare (a b : uint256) : Z := memcmp (data a) (data b).
Definition uint256_eqb (a b : uint256) : bool := uint256_Compare a b =? 0.
Definition uint256_neqb (a b : uint256) : bool := negb (uint256_Compare a b =? 0).
Definition uint256_ltb (a b : uint256) : bool := uint256_Compare a b <? 0.

(** [operator+]: byte by byte, each sum stored in a [uint8_t] (no carry). *)
Definition uint256_add (a b : uint256) : uint256 :=
  Uint (zip_with (fun x y => u8 (x + y)) (data a) (data b)).

(** [operator[]]: the guard is [pos > Width], so [pos = Width] reads past the array. *)
Definition uint256_at (x : uint256) (pos : nat) : res uint256_error Z :=
  if decide (Width < pos)%nat then Err OutOfRange
  else match data x !! pos with Some b => Ok b | None => Err UndefinedRead end.

(** [hash_handler::convert_to_hex] *)
Definition hex_chars : bytes := b! "0123456789abcdef".
Definition hex_char (i : Z) : Z := default 0 (hex_chars !! Z.to_nat i).
Definition convert_to_hex (l : bytes) : bytes :=
  l ≫= fun b => [hex_char (Z.land (Z.shiftr b 4) 15); hex_char (Z.land b 15)].

Definition get_hex (x : uint256) : bytes := convert_to_hex (data x).

Section Hashing.
Context {H : HashHandler}.

(** [get_sha3_256]: the digest of the 32 bytes, as a [base_binary<256>]. *)
Definition get_sha3_256 (x : uint256) : uint256 := Uint (sha3_256 (data x)).

(** [encryption::get_hash_base()->get_hash(p, len, out.get_data())] *)
Definition hash_bytes (l : bytes) : uint256 := Uint (sha3_256 l).
End Hashing.

Declare Scope uint256_scope.
Delimit Scope uint256_scope with U.
Infix "+" := uint256_add : uint256_scope.
#[global] Open Scope uint256_scope.
#[global] Open Scope Z_scope.

(** * Theory *)

Lemma uint256_eq a b : data a = data b -> a = b.
Proof. destruct a, b; simpl; congruence. Qed.

Lemma uint256_fill_wf v : uint256_wf (uint256_fill v).
Proof.
  split; [apply length_replicate|]. apply Forall_replicate, wrap_range. lia.
Qed.

Lemma uint256_zero_wf : uint256_wf uint256_zero.
Proof. split; [done|]. apply Forall_replicate. done. Qed.

Lemma get_sha3_256_wf {H : HashHandler} x : uint256_wf (get_sha3_256 x).
Proof. split; [apply sha3_256_length | apply sha3_256_ok]. Qed.

Lemma hash_bytes_wf {H : HashHandler} l : uint256_wf (hash_bytes l).
Proof. split; [apply sha3_256_length | apply sha3_256_ok]. Qed.

Lemma uint256_add_wf a b : uint256_wf a -> uint256_wf b -> uint256_wf (a + b)%U.
Proof.
  intros [La _] [Lb _]. split; simpl.
  - rewrite length_zip_with. lia.
  - apply Forall_zip_with_all. intros. apply wrap_range. lia.
Qed.

#[export] Hint Resolve uint256_fill_wf uint256_zero_wf get_sha3_256_wf hash_bytes_wf
  uint256_add_wf : muse.

Lemma zip_u8_comm a b :
  zip_with (fun x y => u8 (x + y)) a b = zip_with (fun x y => u8 (x + y)) b a.
Proof.
  revert b; induction a as [|x a IH]; intros [|y b]; simpl; auto.
  by rewrite (Z.add_comm x y), IH.
Qed.

Lemma uint256_add_comm a b : (a + b = b + a)%U.
Proof. apply uint256_eq, zip_u8_comm. Qed.

Lemma uint256_add_assoc a b c : ((a + b) + c = a + (b + c))%U.
Proof.
  apply uint256_eq. unfold uint256_add. simpl. generalize (data a), (data b), (data c).
  intros la; induction la as [|x la IH]; intros [|y lb] [|z lc]; simpl; auto.
  rewrite wrap_add_l, wrap_add_r, IH. do 2 f_equal. lia.
Qed.

(** The inverse of a value for [uint256_add]. *)
Definition uint256_opp (a : uint256) : uint256 := Uint (map (fun x => u8 (- x)) (data a)).

Lemma uint256_opp_wf a : uint256_wf a -> uint256_wf (uint256_opp a).
Proof.
  intros [La _]. split; simpl; [by rewrite length_map|].
  apply Forall_forall. intros x Hx. apply list_elem_of_fmap in Hx as (y & -> & _).
  apply wrap_range. lia.
Qed.

Lemma uint256_add_0_r a : uint256_wf a -> (a + uint256_zero)%U = a.
Proof.
  intros [La Ha]. apply uint256_eq. unfold uint256_add, uint256_zero. simpl data at 2.
  rewrite <-La. clear La. unfold bytes_ok in Ha.
  induction Ha as [|x l Hx _ IH]; simpl; auto.
  rewrite Z.add_0_r, wrap_small by done. by f_equal.
Qed.

Lemma uint256_add_opp a b :
  uint256_wf a -> uint256_wf b -> (a + (b + uint256_opp a))%U = b.
Proof.
  intros [La _] [Lb Hb]. apply uint256_eq. unfold uint256_add, uint256_opp. simpl.
  assert (length (data a) = length (data b)) as E by congruence.
  clear La Lb. unfold bytes_ok in Hb. revert E Hb.
  generalize (data a), (data b). intros l; induction l as [|x l IH]; intros [|y l'] E Hb;
    simpl in *; try lia; auto.
  apply Forall_cons in Hb as [Hy Hb]. f_equal; [|apply IH; auto].
  rewrite wrap_add_r, Z.add_assoc, wrap_add_r.
  replace (x + y + - x) with y by lia. by apply wrap_small.
Qed.

(** [memcmp] on arrays of one length. *)
Lemma memcmp_eq a b : length a = length b -> memcmp a b = 0 <-> a = b.
Proof.
  revert b; induction a as [|x a IH]; intros [|y b] E; simpl in *; try lia; [done|].
  destruct (Z.ltb_spec x y); [split; [lia|intros [=]; lia]|].
  destruct (Z.ltb_spec y x); [split; [lia|intros [=]; lia]|].
  rewrite IH by lia. split; [intros ->; f_equal; lia | by intros [=]].
Qed.

Lemma uint256_eqb_eq a b :
  uint256_wf a -> uint256_wf b -> uint256_eqb a b = bool_decide (a = b).
Proof.
  intros [La _] [Lb _]. unfold uint256_eqb, uint256_Compare.
  pose proof (memcmp_eq (data a) (data b)) as Hm. rewrite La, Lb in Hm.
  case_bool_decide as Hab.
  - subst. apply Z.eqb_eq, Hm; auto.
  - apply Z.eqb_neq. intros E. apply Hab, uint256_eq, Hm; auto.
Qed.

Lemma uint256_eqb_refl a : uint256_eqb a a = true.
Proof.
  apply Z.eqb_eq. unfold uint256_Compare. by apply memcmp_eq.
Qed.

(** ** Hexadecimal text *)

Lemma hex_value_char i : 0 <= i < 16 -> hex_value (hex_char i) = Ok i.
Proof.
  intros Hi. assert (i ∈ seqZ 0 16) as Hin by (apply elem_of_seqZ; lia).
  assert (Forall (fun i => hex_value (hex_char i) = Ok i) (seqZ 0 16)) as HF.
  { repeat (constructor; [reflexivity|]). constructor. }
  rewrite Forall_forall in HF. auto.
Qed.

(** The bytes of a list of nibbles; a last odd nibble is dropped. *)
Fixpoint pack_nibbles (ns : list Z) : bytes :=
  match ns with
  | hi :: lo :: ns => Z.lor (Z.shiftl hi 4) lo :: pack_nibbles ns
  | _ => []
  end.

Lemma pack_nibbles_length ns : length (pack_nibbles ns) = Nat.div2 (length ns).
Proof. induction ns using list_pair_ind; simpl; auto. Qed.

Definition nibble (i : Z) : Prop := is_uint 4 i.

Lemma nibble_shift i : nibble i -> u8 (Z.shiftl i 4) = Z.shiftl i 4.
Proof.
  intros Hi. unfold nibble, is_uint in Hi. apply wrap_small. unfold is_uint.
  rewrite Z.shiftl_mul_pow2 by lia. simpl in *. lia.
Qed.

Lemma hex_loop_pair c1 c2 n1 n2 vch k mem :
  hex_value c1 = Ok n1 -> hex_value c2 = Ok n2 -> nibble n1 ->
  (k < length mem)%nat ->
  hex_loop (c1 :: c2 :: vch) (2 * k) mem
  = hex_loop vch (2 * S k) (<[k := Z.lor (Z.shiftl n1 4) n2]> mem).
Proof.
  intros E1 E2 Hn Hk. cbn [hex_loop]. rewrite E1, E2. cbn [mbind res_bind].
  rewrite Nat.div2_double, Nat.even_succ.
  replace (Nat.even (2 * k)) with true by (symmetry; apply Nat.even_spec; by exists k).
  replace (Nat.odd (2 * k)) with false
    by (symmetry; apply not_true_iff_false; rewrite Nat.odd_spec; intros [m ?]; lia).
  rewrite Nat.div2_succ_double, Z.land_0_r, Z.lor_0_l, nibble_shift by done.
  rewrite list_lookup_insert_eq by done. simpl default.
  rewrite list_insert_insert_eq. f_equal; lia.
Qed.

Lemma clear_from_insert k i v mem :
  (k <= i)%nat -> clear_from k (<[i := v]> mem) = clear_from k mem.
Proof. intros. unfold clear_from. by rewrite take_insert_ge, length_insert. Qed.

Lemma parse_loop vch ns k mem :
  Forall2 (fun c n => hex_value c = Ok n /\ nibble n) vch ns ->
  (2 * k + length ns <= 2 * length mem)%nat ->
  ('(half, mem') ← hex_loop vch (2 * k) mem; Ok (clear_from (Nat.div2 half) mem')) =
  Ok (take k mem ++ pack_nibbles ns
      ++ replicate (length mem - k - length (pack_nibbles ns)) 0).
Proof.
  intros HF. revert k mem. revert vch HF.
  induction ns as [|n1|n1 n2 ns IH] using list_pair_ind; intros vch HF k mem Hlen.
  - apply Forall2_nil_inv_r in HF as ->. cbn [hex_loop mbind res_bind pack_nibbles].
    rewrite Nat.div2_double. simpl. by rewrite Nat.sub_0_r.
  - apply Forall2_cons_inv_r in HF as (c1 & l & [E1 H1] & Hl & ->).
    apply Forall2_nil_inv_r in Hl as ->. cbn [hex_loop]. rewrite E1.
    cbn [mbind res_bind pack_nibbles].
    replace (Nat.even (2 * k)) with true by (symmetry; apply Nat.even_spec; by exists k).
    rewrite Nat.div2_succ_double, Nat.div2_double, clear_from_insert by lia.
    simpl. by rewrite Nat.sub_0_r.
  - apply Forall2_cons_inv_r in HF as (c1 & l & [E1 H1] & Hl & ->).
    apply Forall2_cons_inv_r in Hl as (c2 & l' & [E2 H2] & Hl' & ->).
    simpl length in Hlen.
    rewrite (hex_loop_pair _ _ _ _ _ _ _ E1 E2) by (done || lia).
    rewrite IH by (rewrite ?length_insert; auto; lia). rewrite length_insert.
    erewrite take_S_r by (apply list_lookup_insert_eq; lia).
    rewrite take_insert_ge by lia. rewrite <-app_assoc. cbn [pack_nibbles length app].
    do 4 f_equal. f_equal. lia.
Qed.

(** What [base_binary(const std::string&, bool)] computes for up to 64 digits:
    the bytes of the complete pairs, then zeros. *)
Lemma uint256_of_digits_spec mem vch ns :
  length mem = Width -> (length vch <= 64)%nat ->
  Forall2 (fun c n => hex_value c = Ok n /\ nibble n) vch ns ->
  uint256_of_digits mem vch
  = Ok (Uint (pack_nibbles ns ++ replicate (Width - Nat.div2 (length ns)) 0)).
Proof.
  intros Hm Hv HF. unfold uint256_of_digits, parse_digits.
  rewrite decide_False by (unfold Width; lia).
  pose proof (parse_loop vch ns 0 mem HF) as HP.
  apply Forall2_length in HF. rewrite Hm in HP. unfold Width in HP.
  specialize (HP ltac:(lia)). change (2 * 0)%nat with 0%nat in HP.
  destruct (hex_loop vch 0 mem) as [[half mem']|]; simpl in *; [|done].
  injection HP as ->. by rewrite pack_nibbles_length.
Qed.

Lemma get_hex_nibbles l :
  bytes_ok l -> exists ns,
    Forall2 (fun c n => hex_value c = Ok n /\ nibble n) (convert_to_hex l) ns
    /\ pack_nibbles ns = l /\ length ns = (2 * length l)%nat.
Proof.
  induction 1 as [|b l Hb _ (ns & HF & HP & HL)].
  { exists []. repeat split; constructor. }
  assert (forall i, nibble (Z.land i 15)) as Hland.
  { intros i. unfold nibble, is_uint. change 15 with (Z.ones 4).
    rewrite Z.land_ones by lia. apply Z.mod_pos_bound. lia. }
  exists (Z.land (Z.shiftr b 4) 15 :: Z.land b 15 :: ns). repeat split.
  - change (convert_to_hex (b :: l)) with
      (hex_char (Z.land (Z.shiftr b 4) 15) :: hex_char (Z.land b 15) :: convert_to_hex l).
    constructor; [split; [apply hex_value_char, Hland | apply Hland]|].
    constructor; [split; [apply hex_value_char, Hland | apply Hland]|]. done.
  - cbn [pack_nibbles]. rewrite HP. f_equal.
    change 15 with (Z.ones 4). rewrite !Z.land_ones, Z.shiftr_div_pow2 by lia.
    unfold byte_ok, is_uint in Hb. change (2 ^ 8) with 256 in Hb. change (2 ^ 4) with 16.
    assert (0 <= b / 16 < 16) by (split; [apply Z.div_pos | apply Z.div_lt_upper_bound]; lia).
    rewrite (Z.mod_small (b / 16)) by lia.
    rewrite Z.shiftl_mul_pow2 by lia. change (2 ^ 4) with 16.
    assert (Z.land (b / 16 * 16) (b mod 16) = 0) as Hl.
    { change 16 with (2 ^ 4). rewrite <-Z.land_ones, <-Z.shiftl_mul_pow2 by lia.
      apply Z.bits_inj'. intros j Hj. rewrite !Z.land_spec, Z.shiftl_spec, Z.bits_0 by lia.
      destruct (Z.lt_ge_cases j 4).
      - by rewrite Z.testbit_neg_r by lia.
      - by rewrite Z.ones_spec_high, !andb_false_r by lia. }
    pose proof (Z.add_lor_land (b / 16 * 16) (b mod 16)).
    pose proof (Z.div_mod b 16). lia.
  - simpl. lia.
Qed.

(** A concrete digest for the witnesses: the 32 low bytes of a polynomial in
    the input bytes. *)
Definition toy_digest (n : nat) (l : bytes) : bytes :=
  le_encode n (foldl (fun h b => h * 16777619 + b + 1) 2166136261 l).
Definition toy_HashHandler : HashHandler.
Proof.
  refine {| sha3_256 := toy_digest 32; md5 := toy_digest 16 |}; intros;
    first [apply le_encode_length | apply le_encode_ok].
Defined.

(** A value with the bytes 0, 1, ..., 31 and one with all bytes 7. *)
Definition sample_uint256 : uint256 := Uint (seqZ 0 32).

Lemma sample_uint256_wf : uint256_wf sample_uint256.
Proof.
  split; [reflexivity|]. apply Forall_forall. intros x Hx.
  apply elem_of_seqZ in Hx. unfold byte_ok, is_uint. lia.
Defined.

(** * Properties *)

(** Printing then parsing is the identity: the text of [get_hex] read back
    by either string constructor is the value printed, whatever the
    uninitialised array contained. *)
Theorem uint256_hex_roundtrip (x : uint256) (mem : bytes)
  (Hx : uint256_wf x) (Hm : length mem = Width) :
  uint256_of_digits mem (get_hex x) = Ok x
  /\ uint256_of_string mem (b! "0x" ++ get_hex x) = Ok x.
Proof.
  destruct Hx as [Hl Hb].
  destruct (get_hex_nibbles _ Hb) as (ns & HF & HP & HL).
  assert (length (get_hex x) = 64%nat) as Hg.
  { unfold get_hex. apply Forall2_length in HF. rewrite HF, HL, Hl. reflexivity. }
  assert (uint256_of_digits mem (get_hex x) = Ok x) as E.
  { rewrite (uint256_of_digits_spec mem _ ns) by (unfold get_hex in *; auto; lia).
    rewrite HP, HL, Hl. simpl. rewrite app_nil_r. by destruct x. }
  split; [exact E|]. rewrite <-E. unfold uint256_of_string, uint256_of_digits.
  change (drop 2 (b! "0x" ++ get_hex x)) with (get_hex x). rewrite length_app, Hg.
  reflexivity.
Qed.

Lemma uint256_hex_roundtrip_witness :
  uint256_of_digits (replicate 32 255) (get_hex sample_uint256) = Ok sample_uint256
  /\ uint256_of_string (replicate 32 255) (b! "0x" ++ get_hex sample_uint256)
     = Ok sample_uint256.
Proof.
  apply (uint256_hex_roundtrip sample_uint256 (replicate 32 255));
    [exact sample_uint256_wf | reflexivity].
Defined.

(** A string with an odd number of digits loses its last digit: appending
    one more valid digit to an even number of them does not change the value,
    so "0xabc" and "0xab" are the same 256-bit value. *)
Theorem uint256_odd_digit_lost (mem vch : bytes) (c n : Z)
  (Hm : length mem = Width)
  (Hv : Forall (fun c => exists n, hex_value c = Ok n /\ nibble n) vch)
  (He : Nat.Even (length vch)) (Hl : (length vch < 64)%nat)
  (Hc : hex_value c = Ok n) (Hn : nibble n) :
  uint256_of_digits mem (vch ++ [c]) = uint256_of_digits mem vch.
Proof.
  assert (exists ns, Forall2 (fun c n => hex_value c = Ok n /\ nibble n) vch ns)
    as (ns & HF).
  { clear -Hv. induction Hv as [|c l (n & Hn) _ (ns & IH)]; eexists; constructor; eauto. }
  assert (length ns = length vch) as Hlen by (symmetry; eapply Forall2_length; eauto).
  rewrite (uint256_of_digits_spec mem (vch ++ [c]) (ns ++ [n])).
  - rewrite (uint256_of_digits_spec mem vch ns) by (done || lia).
    rewrite length_app, Hlen. destruct He as [k Hk]. rewrite Hk. simpl length.
    rewrite Nat.add_1_r, Nat.div2_succ_double, Nat.div2_double.
    assert (pack_nibbles (ns ++ [n]) = pack_nibbles ns) as ->; [|done].
    rewrite Hk in Hlen. clear -Hlen. revert k Hlen.
    induction ns as [|x|x y ns IH] using list_pair_ind; intros [|k] Hk; simpl in *; try lia; auto.
    f_equal. apply (IH k). lia.
  - done.
  - rewrite length_app. simpl. destruct He. lia.
  - apply Forall2_app; auto.
Qed.

Lemma uint256_odd_digit_lost_witness :
  uint256_of_digits (replicate 32 9) (b! "ab" ++ [99])
  = uint256_of_digits (replicate 32 9) (b! "ab").
Proof.
  apply (uint256_odd_digit_lost (replicate 32 9) (b! "ab") 99 12); try reflexivity.
  - repeat constructor; eexists; (split; [reflexivity|]); split; vm_compute; done.
  - exists 1%nat. reflexivity.
  - simpl. lia.
  - split; vm_compute; done.
Defined.
