(* ===== verification/MerkleTree.v ===== *)
(** * Merkle trees over transaction hashes: [src/include/db/merkle_tree.cpp]

    The three [get_merkle_root] overloads (vector, queue, list), the proof
    generator and the proof verifier.  Loops carry fuel, and running out of it
    is an error the theorems exclude. *)
From S2P Require Import Prelude Uint256.

Inductive merkle_error :=
| MerkleFuel            (** a loop did not finish within its fuel *)
| MerkleAssert          (** [assert((size & (size - 1)) == 0)] failed *)
| MerkleUB.             (** [front()] of an empty container *)

(** ** Padding *)

(** The [while (n > 0)] loop of [distance_power_of_2_n]. *)
Fixpoint distance_loop (fuel : nat) (n distance : Z) : option Z :=
  match fuel with
  | O => None
  | S fuel =>
      if 0 <? n then distance_loop fuel (Z.shiftr n 1) (u32 (distance * 2))
      else Some distance
  end.

(** [distance_power_of_2_n]: a 32-bit argument needs at most 33 loop tests. *)
Definition distance_power_of_2_n (n : Z) : res merkle_error Z :=
  if n =? 0 then Ok (-1)
  else if Z.land n (u32 (n - 1)) =? 0 then Ok 0
  else match distance_loop 33 n 1 with
       | Some distance => Ok (swrap 32 (distance - n))
       | None => Err MerkleFuel
       end.

Section Merkle.
Context {H : HashHandler}.

(** [(lft + rgt).get_sha3_256()] *)
Definition node_hash (lft rgt : uint256) : uint256 := get_sha3_256 (lft + rgt)%U.

(** [distance_power_of_2_n(collection.size())] and the loop that appends
    [distance] copies of the last element (the size is narrowed to 32 bits). *)
Definition pad_collection (collection : list uint256) : res merkle_error (list uint256) :=
  distance ← distance_power_of_2_n (u32 (Z.of_nat (length collection)));
  Ok (if 0 <? distance
      then collection ++ replicate (Z.to_nat distance) (default uint256_zero (last collection))
      else collection).

(** *** The recursive version *)

(** The [for (i = 0; i < size; i += 2)] loop: an odd last element is skipped. *)
Fixpoint intermediate_level (collection : list uint256) : list uint256 :=
  match collection with
  | lft :: rgt :: rest => node_hash lft rgt :: intermediate_level rest
  | _ => []
  end.

Fixpoint get_merkle_root_worker (fuel : nat) (collection : list uint256)
  : res merkle_error uint256 :=
  match fuel with
  | O => Err MerkleFuel
  | S fuel =>
      match collection with
      | [] => Ok (uint256_fill 0)
      | [x] => Ok x
      | _ => get_merkle_root_worker fuel (intermediate_level collection)
      end
  end.

(** [get_merkle_root(std::vector<uint256>&)]: the root, and the caller's
    vector, which the call leaves padded. *)
Definition get_merkle_root_vector (collection : list uint256)
  : res merkle_error (uint256 * list uint256) :=
  match collection with
  | [] => Ok (uint256_fill 0, collection)
  | [x] => Ok (x, collection)
  | _ =>
      collection ← pad_collection collection;
      if Z.land (Z.of_nat (length collection)) (Z.of_nat (length collection) - 1) =? 0
      then root ← get_merkle_root_worker (S (length collection)) collection;
           Ok (root, collection)
      else Err MerkleAssert
  end.

(** *** The iterative versions *)

(** [while (!store_queue.empty())]: pop two, push their hash. *)
Fixpoint queue_level (store_queue level : list uint256) : res merkle_error (list uint256) :=
  match store_queue with
  | [] => Ok level
  | [_] => Err MerkleUB
  | lft :: rgt :: store_queue => queue_level store_queue (level ++ [node_hash lft rgt])
  end.

Fixpoint queue_loop (fuel : nat) (store_queue : list uint256) : res merkle_error uint256 :=
  match fuel with
  | O => Err MerkleFuel
  | S fuel =>
      if decide (1 < length store_queue)%nat then
        level ← queue_level store_queue []; queue_loop fuel level
      else match store_queue with x :: _ => Ok x | [] => Err MerkleUB end
  end.

(** [get_merkle_root(std::queue<uint256>&&)] *)
Definition get_merkle_root_queue (store_queue : list uint256) : res merkle_error uint256 :=
  match store_queue with
  | [] => Ok (uint256_fill 0)
  | [x] => Ok x
  | _ => store_queue ← pad_collection store_queue;
         queue_loop (S (length store_queue)) store_queue
  end.

(** The level loop of the list version ([front]/[pop_front]/[emplace_back]). *)
Fixpoint list_level (collection level : list uint256) : res merkle_error (list uint256) :=
  match collection with
  | [] => Ok level
  | lft :: collection =>
      match collection with
      | [] => Err MerkleUB
      | rgt :: collection => list_level collection (level ++ [node_hash lft rgt])
      end
  end.

Fixpoint list_loop (fuel : nat) (collection : list uint256) : res merkle_error uint256 :=
  match fuel with
  | O => Err MerkleFuel
  | S fuel =>
      if decide (1 < length collection)%nat then
        level ← list_level collection []; list_loop fuel level
      else match collection with x :: _ => Ok x | [] => Err MerkleUB end
  end.

(** [get_merkle_root(std::list<uint256>&&)] *)
Definition get_merkle_root_list (collection : list uint256) : res merkle_error uint256 :=
  match collection with
  | [] => Ok (uint256_fill 0)
  | [x] => Ok x
  | _ => collection ← pad_collection collection;
         list_loop (S (length collection)) collection
  end.

(** *** Proofs *)

(** One level of [get_merkle_proof]: [tx_hash] and [proof] are updated by the
    pairs that contain the current [tx_hash]. *)
Fixpoint proof_level (collection level : list uint256) (tx_hash : uint256)
  (proof : list uint256) : res merkle_error (list uint256 * uint256 * list uint256) :=
  match collection with
  | [] => Ok (level, tx_hash, proof)
  | [_] => Err MerkleUB
  | lft :: rgt :: collection =>
      let insert := node_hash lft rgt in
      let '(tx_hash, proof) :=
        if uint256_eqb lft tx_hash then (insert, proof ++ [rgt])
        else if uint256_eqb rgt tx_hash then (insert, proof ++ [lft])
        else (tx_hash, proof) in
      proof_level collection (level ++ [insert]) tx_hash proof
  end.

Fixpoint proof_loop (fuel : nat) (collection : list uint256) (tx_hash : uint256)
  (proof : list uint256) : res merkle_error (list uint256) :=
  match fuel with
  | O => Err MerkleFuel
  | S fuel =>
      if decide (1 < length collection)%nat then
        '(level, tx_hash, proof) ← proof_level collection [] tx_hash proof;
        proof_loop fuel level tx_hash proof
      else match last collection with Some top => Ok (proof ++ [top]) | None => Err MerkleUB end
  end.

Definition get_merkle_proof (tx_hash : uint256) (collection : list uint256) (index : Z)
  : res merkle_error (list uint256) :=
  match collection with
  | [] => Ok []
  | [x] => Ok [get_sha3_256 x]
  | _ =>
      if (index <? 0) || (Z.of_nat (length collection) <=? index) then Ok []
      else collection ← pad_collection collection;
           proof_loop (S (length collection)) collection tx_hash []
  end.

(** [merkle_proof_verify] *)
Definition merkle_proof_verify (proof : list uint256) (tx_hash root : uint256) : bool :=
  match proof with
  | [] => false
  | [_] => uint256_eqb tx_hash root
  | _ =>
      if uint256_neqb (default uint256_zero (last proof)) root then false
      else uint256_eqb (foldl node_hash tx_hash (take (length proof - 1) proof)) root
  end.
End Merkle.

(** * Theory *)

(** ** The padding distance *)

Lemma land_pred_zero n : 0 < n -> Z.land n (n - 1) = 0 -> n = 2 ^ Z.log2 n.
Proof.
  intros Hn H0. destruct (Z.log2_spec n Hn) as [Hlo Hhi].
  destruct (decide (n = 2 ^ Z.log2 n)) as [|Hne]; [done|exfalso].
  assert (Z.log2 (n - 1) = Z.log2 n) as E.
  { apply Z.log2_unique; [apply Z.log2_nonneg | lia]. }
  assert (Z.testbit (Z.land n (n - 1)) (Z.log2 n) = true) as Hb.
  { rewrite Z.land_spec, Z.bit_log2 by done. rewrite <-E at 1.
    rewrite Z.bit_log2; [done|]. pose proof (Z.log2_nonneg n).
    assert (1 <= 2 ^ Z.log2 n) by (change 1 with (2 ^ 0); apply Z.pow_le_mono_r; lia).
    lia. }
  by rewrite H0, Z.bits_0 in Hb.
Qed.

Lemma land_pow2_pred k : 0 <= k -> Z.land (2 ^ k) (2 ^ k - 1) = 0.
Proof.
  intros Hk. replace (2 ^ k - 1) with (Z.ones k) by (rewrite Z.ones_equiv; lia).
  rewrite Z.land_ones by done. apply Z.mod_same. apply Z.pow_nonzero; lia.
Qed.

(** The number of bits of [n]. *)
Definition nbits (n : Z) : Z := if n =? 0 then 0 else Z.log2 n + 1.

Lemma nbits_half n : 0 < n -> nbits n = 1 + nbits (Z.shiftr n 1).
Proof.
  intros Hn. unfold nbits. destruct (Z.eqb_spec n 0); [lia|].
  assert (Z.shiftr n 1 = n / 2) as E by (rewrite Z.shiftr_div_pow2 by lia; done).
  pose proof (Z.div_mod n 2 ltac:(lia)). pose proof (Z.mod_pos_bound n 2 ltac:(lia)).
  destruct (Z.eqb_spec (Z.shiftr n 1) 0) as [E0|E0].
  - assert (n = 1) as ->; [|done]. lia.
  - rewrite Z.log2_shiftr by lia. enough (0 < Z.log2 n) by lia.
    apply Z.log2_pos. lia.
Qed.

Lemma distance_loop_spec fuel n d :
  0 <= n -> nbits n < Z.of_nat fuel ->
  distance_loop fuel n (u32 d) = Some (u32 (d * 2 ^ nbits n)).
Proof.
  revert n d. induction fuel as [|fuel IH]; intros n d Hn Hf.
  { unfold nbits in Hf. pose proof (Z.log2_nonneg n). destruct (n =? 0); lia. }
  cbn [distance_loop]. destruct (Z.ltb_spec 0 n).
  - assert (u32 (u32 d * 2) = u32 (d * 2)) as -> by (apply Zmult_mod_idemp_l).
    rewrite (nbits_half n) in Hf |- * by done.
    assert (0 <= nbits (Z.shiftr n 1)).
    { unfold nbits. pose proof (Z.log2_nonneg (Z.shiftr n 1)). destruct (_ =? 0); lia. }
    rewrite IH; [|apply Z.shiftr_nonneg; lia|lia].
    rewrite Z.pow_add_r by lia. do 2 f_equal. lia.
  - assert (n = 0) as -> by lia. cbn. by rewrite Z.mul_1_r.
Qed.

Lemma distance_power_of_2_n_pow2 n :
  0 < n < 2 ^ 32 -> n = 2 ^ Z.log2 n -> distance_power_of_2_n n = Ok 0.
Proof.
  intros Hn E. unfold distance_power_of_2_n. destruct (Z.eqb_spec n 0); [lia|].
  rewrite wrap_small by (unfold is_uint; lia).
  rewrite E at 1 2. rewrite land_pow2_pred by apply Z.log2_nonneg. done.
Qed.

Lemma distance_power_of_2_n_other n :
  0 < n < 2 ^ 32 -> n ≠ 2 ^ Z.log2 n ->
  distance_power_of_2_n n = Ok (2 ^ (Z.log2 n + 1) - n) /\ n < 2 ^ (Z.log2 n + 1).
Proof.
  intros Hn Hne. pose proof (Z.log2_spec n ltac:(lia)) as [Hlo Hhi].
  pose proof (Z.log2_nonneg n). assert (Z.log2 n < 32) by (apply Z.log2_lt_pow2; lia).
  split; [|rewrite Z.add_1_r; lia].
  unfold distance_power_of_2_n. destruct (Z.eqb_spec n 0); [lia|].
  rewrite wrap_small by (unfold is_uint; lia).
  destruct (Z.eqb_spec (Z.land n (n - 1)) 0) as [E|_].
  { by apply land_pred_zero in E; [|lia]. }
  change 1 with (u32 1) at 1. rewrite distance_loop_spec; [|lia|].
  2:{ unfold nbits. destruct (n =? 0); lia. }
  unfold nbits. destruct (Z.eqb_spec n 0); [lia|]. rewrite Z.mul_1_l. f_equal.
  rewrite Z.add_1_r in *. unfold swrap, wrap.
  rewrite Zminus_mod_idemp_l.
  assert (2 ^ Z.succ (Z.log2 n) <= 2 ^ 32) by (apply Z.pow_le_mono_r; lia).
  assert (2 ^ Z.log2 n * 2 = 2 ^ Z.succ (Z.log2 n)) by (rewrite Z.pow_succ_r; lia).
  rewrite Z.mod_small by lia. rewrite (proj2 (Z.ltb_lt _ _)); [done|].
  change (2 ^ 32) with (2 ^ (32 - 1) * 2) in *. lia.
Qed.

(** The number of leaves of the padded tree: the least power of two not below [n]. *)
Lemma distance_power_of_2_n_spec n :
  0 < n < 2 ^ 32 -> exists d, distance_power_of_2_n n = Ok d /\ 0 <= d
    /\ n + d = 2 ^ Z.log2_up n.
Proof.
  intros Hn. destruct (decide (n = 2 ^ Z.log2 n)) as [E|Hne].
  - exists 0. split; [by apply distance_power_of_2_n_pow2|]. split; [done|].
    rewrite Z.add_0_r. rewrite E at 2. by rewrite Z.log2_up_pow2; [|apply Z.log2_nonneg].
  - destruct (distance_power_of_2_n_other n Hn Hne) as [E Hlt].
    exists (2 ^ (Z.log2 n + 1) - n). split; [done|]. split; [lia|].
    replace (Z.log2_up n) with (Z.log2 n + 1); [lia|].
    symmetry. pose proof (Z.log2_nonneg n).
    destruct (Z.log2_spec n ltac:(lia)). rewrite Z.add_1_r in *.
    apply Z.log2_up_unique; [lia|]. rewrite Z.pred_succ. lia.
Qed.

Lemma log2_up_not_pow2 n :
  n < 2 ^ 31 -> 0 < n -> n ≠ 2 ^ Z.log2 n ->
  n < 2 ^ Z.log2_up n < 2 ^ 32.
Proof.
  intros Hn H0 Hne.
  destruct (distance_power_of_2_n_other n ltac:(lia) Hne) as [E1 Hlt].
  destruct (distance_power_of_2_n_spec n ltac:(lia)) as (d & E2 & _ & <-).
  rewrite E1 in E2. injection E2 as <-.
  assert (Z.log2 n < 31) by (apply Z.log2_lt_pow2; lia).
  assert (2 ^ (Z.log2 n + 1) <= 2 ^ 31) by (apply Z.pow_le_mono_r; lia). lia.
Qed.

(** ** Levels *)
Section Theory.
Context {H : HashHandler}.
Implicit Types (c : list uint256) (x : uint256).

Lemma node_hash_comm x y : node_hash x y = node_hash y x.
Proof. unfold node_hash. by rewrite uint256_add_comm. Qed.

Lemma intermediate_level_length c : length (intermediate_level c) = Nat.div2 (length c).
Proof. induction c using list_pair_ind; simpl; auto. Qed.

Lemma queue_level_even c acc :
  Nat.Even (length c) -> queue_level c acc = Ok (acc ++ intermediate_level c).
Proof.
  revert acc. induction c as [|x|x y c IH] using list_pair_ind; intros acc He.
  - simpl. by rewrite app_nil_r.
  - destruct He as [k Hk]. simpl in Hk. lia.
  - cbn [queue_level intermediate_level]. rewrite IH, <-app_assoc; [done|].
    destruct He as [k Hk]. exists (k - 1)%nat. simpl in Hk. lia.
Qed.

Lemma list_level_queue c acc : list_level c acc = queue_level c acc.
Proof.
  revert acc. induction c as [|x|x y c IH] using list_pair_ind; intros acc; [done..|].
  cbn [list_level queue_level]. apply IH.
Qed.

Lemma list_loop_queue fuel c : list_loop fuel c = queue_loop fuel c.
Proof.
  revert c. induction fuel as [|fuel IH]; intros c; cbn [list_loop queue_loop]; [done|].
  case_decide; [|done]. rewrite list_level_queue. destruct (queue_level c []); [apply IH|done].
Qed.

Lemma pow2_even k c : length c = (2 ^ S k)%nat -> Nat.Even (length c).
Proof. intros ->. exists (2 ^ k)%nat. simpl. lia. Qed.

Lemma pow2_half k c :
  length c = (2 ^ S k)%nat -> length (intermediate_level c) = (2 ^ k)%nat.
Proof.
  intros E. rewrite intermediate_level_length, E.
  replace (2 ^ S k)%nat with (2 * 2 ^ k)%nat by (simpl; lia). apply Nat.div2_double.
Qed.

Lemma pow2_gt1 k c : length c = (2 ^ S k)%nat -> (1 < length c)%nat.
Proof. intros ->. pose proof (Nat.pow_nonzero 2 k). simpl. lia. Qed.

(** The abstract specification: the root of a perfect binary tree. *)
Fixpoint tree_root (k : nat) c : uint256 :=
  match k with
  | O => default uint256_zero (head c)
  | S k => node_hash (tree_root k (take (2 ^ k) c)) (tree_root k (drop (2 ^ k) c))
  end.

Lemma intermediate_take n c :
  intermediate_level (take (2 * n) c) = take n (intermediate_level c).
Proof.
  revert c. induction n as [|n IH]; intros c; [done|].
  replace (2 * S n)%nat with (S (S (2 * n))) by lia.
  destruct c as [|x [|y c]]; try done. cbn [take intermediate_level]. by rewrite IH.
Qed.

Lemma intermediate_drop n c :
  intermediate_level (drop (2 * n) c) = drop n (intermediate_level c).
Proof.
  revert c. induction n as [|n IH]; intros c; [done|].
  replace (2 * S n)%nat with (S (S (2 * n))) by lia.
  destruct c as [|x [|y c]]; try done. cbn [drop intermediate_level]. by rewrite IH.
Qed.

Lemma tree_root_level k c :
  length c = (2 ^ S k)%nat -> tree_root (S k) c = tree_root k (intermediate_level c).
Proof.
  revert c. induction k as [|k IH]; intros c E.
  - destruct c as [|x [|y [|]]]; simpl in E; try lia. done.
  - change (tree_root (S (S k)) c) with
      (node_hash (tree_root (S k) (take (2 ^ S k) c)) (tree_root (S k) (drop (2 ^ S k) c))).
    rewrite (IH (take _ _)), (IH (drop _ _)).
    + replace (2 ^ S k)%nat with (2 * 2 ^ k)%nat by (simpl; lia).
      rewrite intermediate_take, intermediate_drop. reflexivity.
    + rewrite length_drop, E. simpl. lia.
    + rewrite length_take, E. simpl. lia.
Qed.

Lemma worker_tree k c fuel :
  length c = (2 ^ k)%nat -> (k < fuel)%nat ->
  get_merkle_root_worker fuel c = Ok (tree_root k c).
Proof.
  revert c fuel. induction k as [|k IH]; intros c [|fuel] E Hf; try lia.
  - destruct c as [|x [|]]; simpl in E; try lia. done.
  - pose proof (pow2_gt1 _ _ E). rewrite tree_root_level by done.
    rewrite <-(IH (intermediate_level c) fuel (pow2_half _ _ E) ltac:(lia)).
    destruct c as [|x [|y c]]; simpl in *; try lia; done.
Qed.

Lemma queue_loop_tree k c fuel :
  length c = (2 ^ k)%nat -> (k < fuel)%nat -> queue_loop fuel c = Ok (tree_root k c).
Proof.
  revert c fuel. induction k as [|k IH]; intros c [|fuel] E Hf; try lia;
    cbn [queue_loop].
  - destruct c as [|x [|]]; simpl in E; try lia. done.
  - rewrite decide_True by eauto using pow2_gt1.
    rewrite queue_level_even by eauto using pow2_even. cbn [mbind res_bind app].
    rewrite tree_root_level by done. apply IH; [by apply pow2_half | lia].
Qed.

(** *** Padding *)
Definition pad_amount c : nat :=
  Z.to_nat (2 ^ Z.log2_up (Z.of_nat (length c))) - length c.

(** The padded leaves: the last one repeated up to a power of two. *)
Definition padded c : list uint256 :=
  c ++ replicate (pad_amount c) (default uint256_zero (last c)).

Lemma pad_collection_spec c :
  0 < Z.of_nat (length c) < 2 ^ 32 -> pad_collection c = Ok (padded c).
Proof.
  intros Hn. unfold pad_collection. rewrite wrap_small by (unfold is_uint; lia).
  destruct (distance_power_of_2_n_spec _ Hn) as (d & -> & Hd & E).
  cbn [mbind res_bind]. unfold padded, pad_amount. rewrite <-E.
  replace (Z.to_nat (Z.of_nat (length c) + d) - length c)%nat with (Z.to_nat d) by lia.
  destruct (Z.ltb_spec 0 d); [done|]. replace d with 0 by lia.
  by rewrite app_nil_r.
Qed.

Definition depth c : nat := Z.to_nat (Z.log2_up (Z.of_nat (length c))).

Lemma padded_length c : c ≠ [] -> length (padded c) = (2 ^ depth c)%nat.
Proof.
  intros Hc. assert (0 < Z.of_nat (length c)) by (destruct c; simpl; [done|lia]).
  unfold padded, pad_amount, depth. rewrite length_app, length_replicate.
  pose proof (Z.log2_up_nonneg (Z.of_nat (length c))).
  assert (Z.of_nat (length c) <= 2 ^ Z.log2_up (Z.of_nat (length c))).
  { destruct (decide (length c = 1%nat)) as [->|]; [done|].
    apply Z.log2_up_spec. lia. }
  assert (Z.to_nat (2 ^ Z.log2_up (Z.of_nat (length c)))
          = (2 ^ Z.to_nat (Z.log2_up (Z.of_nat (length c))))%nat) as E; [|lia].
  apply Nat2Z.inj. rewrite Z2Nat.inj_pow, !Z2Nat.id by lia. done.
Qed.

Lemma pow2_fuel k : (k < S (2 ^ k))%nat.
Proof. pose proof (Nat.pow_gt_lin_r 2 k). lia. Qed.

Lemma depth_pos c : (2 <= length c)%nat -> exists k, depth c = S k.
Proof.
  intros Hc. unfold depth. pose proof (Z.log2_up_pos (Z.of_nat (length c))).
  exists (Z.to_nat (Z.log2_up (Z.of_nat (length c))) - 1)%nat. lia.
Qed.

(** The root of a collection: the root of its padded tree. *)
Definition root_spec c : uint256 := tree_root (depth c) (padded c).

Lemma root_list_spec c :
  (2 <= length c)%nat -> Z.of_nat (length c) < 2 ^ 32 ->
  get_merkle_root_list c = Ok (root_spec c).
Proof.
  intros H2 Hn. destruct c as [|x [|y c']] eqn:Ec; simpl in H2; try lia.
  cbn [get_merkle_root_list]. rewrite <-Ec in *.
  rewrite pad_collection_spec by (subst; simpl in *; lia). cbn [mbind res_bind].
  rewrite list_loop_queue. apply queue_loop_tree.
  - apply padded_length. by subst.
  - rewrite padded_length by by subst. apply pow2_fuel.
Qed.

(** *** Proof generation *)
Lemma proof_level_spec c acc tx proof tx0 :
  Nat.Even (length c) -> Forall uint256_wf c -> uint256_wf tx ->
  foldl node_hash tx0 proof = tx -> (tx ∈ acc \/ tx ∈ c) ->
  exists tx' proof',
    proof_level c acc tx proof = Ok (acc ++ intermediate_level c, tx', proof')
    /\ foldl node_hash tx0 proof' = tx' /\ tx' ∈ acc ++ intermediate_level c
    /\ uint256_wf tx'.
Proof.
  revert acc tx proof.
  induction c as [|x|x y c IH] using list_pair_ind; intros acc tx proof He Hc Htx HP Hin.
  - exists tx, proof. cbn. rewrite app_nil_r. repeat split; auto; try apply Htx.
    destruct Hin as [|Hin]; [done|by apply not_elem_of_nil in Hin].
  - destruct He as [k Hk]. simpl in Hk. lia.
  - assert (Nat.Even (length c)) as He'.
    { destruct He as [k Hk]. exists (k - 1)%nat. simpl in Hk. lia. }
    apply Forall_cons in Hc as [Hx Hc]. apply Forall_cons in Hc as [Hy Hc].
    cbn [proof_level intermediate_level].
    replace (acc ++ node_hash x y :: intermediate_level c)
      with ((acc ++ [node_hash x y]) ++ intermediate_level c) by (by rewrite <-app_assoc).
    rewrite !uint256_eqb_eq by done.
    case_bool_decide as Ex; [|case_bool_decide as Ey].
    + apply IH; try done; [apply get_sha3_256_wf | by rewrite foldl_snoc, HP, Ex | set_solver].
    + apply IH; try done; [apply get_sha3_256_wf | | set_solver].
      by rewrite foldl_snoc, HP, Ey, node_hash_comm.
    + apply IH; try done. set_solver.
Qed.

Lemma intermediate_wf c : Forall uint256_wf (intermediate_level c).
Proof.
  induction c using list_pair_ind; simpl; constructor; auto. apply get_sha3_256_wf.
Qed.

Lemma proof_loop_spec k c tx proof tx0 fuel :
  length c = (2 ^ k)%nat -> (k < fuel)%nat -> Forall uint256_wf c -> uint256_wf tx ->
  foldl node_hash tx0 proof = tx -> tx ∈ c ->
  exists proof', proof_loop fuel c tx proof = Ok (proof' ++ [tree_root k c])
    /\ foldl node_hash tx0 proof' = tree_root k c.
Proof.
  revert c tx proof fuel. induction k as [|k IH]; intros c tx proof [|fuel] E Hf Hc Htx HP Hin;
    try lia; cbn [proof_loop].
  - destruct c as [|x [|]]; simpl in E; try lia. cbn.
    exists proof. apply list_elem_of_singleton in Hin as ->. done.
  - rewrite decide_True by eauto using pow2_gt1.
    destruct (proof_level_spec c [] tx proof tx0) as (tx' & proof' & -> & HP' & Hin' & Hw);
      eauto using pow2_even. cbn [mbind res_bind]. rewrite tree_root_level by done.
    eapply IH; eauto using pow2_half, intermediate_wf. lia.
Qed.

Lemma padded_wf c : Forall uint256_wf c -> Forall uint256_wf (padded c).
Proof.
  intros Hc. unfold padded. apply Forall_app. split; [done|]. apply Forall_replicate.
  destruct (last c) eqn:E; simpl; [|apply uint256_zero_wf].
  rewrite Forall_forall in Hc. apply Hc. by apply last_Some_elem_of.
Qed.

Lemma verify_app proof tx root :
  foldl node_hash tx proof = root -> merkle_proof_verify (proof ++ [root]) tx root = true.
Proof.
  intros E. unfold merkle_proof_verify. destruct proof as [|p proof].
  { simpl in *. subst. apply uint256_eqb_refl. }
  cbn [app]. destruct (proof ++ [root]) eqn:En; [by destruct proof|]. rewrite <-En.
  change (p :: proof ++ [root]) with ((p :: proof) ++ [root]). rewrite last_snoc.
  cbn [default from_option id]. unfold uint256_neqb.
  change (uint256_Compare root root =? 0) with (uint256_eqb root root).
  rewrite uint256_eqb_refl. cbn [negb].
  rewrite length_app, Nat.add_sub, take_app_length, E. apply uint256_eqb_refl.
Qed.

Lemma root_spec_single x : root_spec [x] = x.
Proof. done. Qed.

Lemma root_queue_spec c : c ≠ [] -> Z.of_nat (length c) < 2 ^ 32 ->
  get_merkle_root_queue c = Ok (root_spec c).
Proof.
  intros Hne Hlen. destruct c as [|x [|y c']] eqn:Ec; [done|done|]. rewrite <-Ec in *.
  rewrite <-root_list_spec by (subst; simpl in *; lia).
  assert (get_merkle_root_queue c = (c ← pad_collection c; queue_loop (S (length c)) c))
    as -> by by subst.
  assert (get_merkle_root_list c = (c ← pad_collection c; list_loop (S (length c)) c))
    as -> by by subst.
  destruct (pad_collection c); cbn [mbind res_bind]; [symmetry; apply list_loop_queue|done].
Qed.

(** The proof of a leaf is accepted against the root. *)
Lemma merkle_proof_root c tx index : Z.of_nat (length c) < 2 ^ 32 -> Forall uint256_wf c ->
  tx ∈ c -> 0 <= index < Z.of_nat (length c) ->
  exists proof, get_merkle_proof tx c index = Ok proof
    /\ merkle_proof_verify proof tx (root_spec c) = true.
Proof.
  intros Hlen Hwf Hin Hidx.
  destruct c as [|x [|y c']] eqn:Ec; [by apply not_elem_of_nil in Hin| |].
  { apply list_elem_of_singleton in Hin as ->. exists [get_sha3_256 x]. split; [done|]. apply uint256_eqb_refl. }
  rewrite <-Ec in *. assert (2 <= length c)%nat by (subst; simpl; lia).
  assert (c ≠ []) by by subst.
  destruct (proof_loop_spec (depth c) (padded c) tx [] tx (S (length (padded c))))
    as (proof & E & HP); auto using padded_length, padded_wf.
  { rewrite padded_length by done. apply pow2_fuel. }
  { by apply (Forall_forall uint256_wf c). }
  { unfold padded. set_solver. }
  exists (proof ++ [root_spec c]). split; [|by apply verify_app].
  assert (get_merkle_proof tx c index =
    (if (index <? 0) || (Z.of_nat (length c) <=? index) then Ok []
     else c ← pad_collection c; proof_loop (S (length c)) c tx [])) as -> by by subst.
  rewrite (proj2 (Z.ltb_ge _ _)), (proj2 (Z.leb_gt _ _)) by lia. cbn [orb].
  rewrite pad_collection_spec by lia. exact E.
Qed.

(** Verification reads the transaction hash only through its sum with the
    first element of the proof. *)
Lemma verify_sum p q rest tx tx' root :
  rest ≠ [] -> (tx + p)%U = (tx' + q)%U ->
  merkle_proof_verify (p :: rest) tx root = merkle_proof_verify (q :: rest) tx' root.
Proof.
  intros Hr E. destruct rest as [|r rest]; [done|]. unfold merkle_proof_verify.
  change (last (p :: r :: rest)) with (last (r :: rest)).
  change (last (q :: r :: rest)) with (last (r :: rest)).
  case_match; [done|]. cbn [length Nat.sub take foldl].
  unfold node_hash at 2 4. by rewrite E.
Qed.
End Theory.

(** * Properties *)
Section Properties.
Context {H : HashHandler}.

(** The recursive, the queue and the list version of [get_merkle_root]
    terminate, pass their assertion, never read an empty container and
    compute one value: the root of the perfect binary tree over the leaves
    padded with copies of the last one up to the next power of two. *)
Theorem merkle_roots_agree (c : list uint256)
  (Hne : c ≠ []) (Hlen : Z.of_nat (length c) < 2 ^ 32) :
  get_merkle_root_vector c = Ok (tree_root (depth c) (padded c), padded c)
  /\ get_merkle_root_queue c = Ok (tree_root (depth c) (padded c))
  /\ get_merkle_root_list c = Ok (tree_root (depth c) (padded c))
  /\ length (padded c) = (2 ^ depth c)%nat.
Proof.
  pose proof (padded_length c Hne) as HP.
  destruct c as [|x [|y c']] eqn:Ec; [done|done|]. rewrite <-Ec in *.
  assert (2 <= length c)%nat by (subst; simpl; lia).
  split; [|split; [|split; [by apply root_list_spec | done]]].
  - assert (get_merkle_root_vector c =
      (collection ← pad_collection c;
       if Z.land (Z.of_nat (length collection)) (Z.of_nat (length collection) - 1) =? 0
       then root ← get_merkle_root_worker (S (length collection)) collection;
            Ok (root, collection)
       else Err MerkleAssert)) as -> by by subst.
    rewrite pad_collection_spec by lia. cbn [mbind res_bind].
    rewrite HP, Z2Nat.inj_pow, land_pow2_pred by lia. cbn [Z.eqb].
    rewrite (worker_tree (depth c)) by (done || apply pow2_fuel). done.
  - apply root_queue_spec; [by subst|done].
Qed.

(** C37: completeness of Merkle proofs: for every transaction hash among the
    leaves, [get_merkle_proof] returns a proof that [merkle_proof_verify]
    accepts against the root [get_merkle_root] computes.  No assumption is
    made on the digest: it holds even with collisions. *)
Theorem merkle_proof_complete (c : list uint256) (tx : uint256) (index : Z)
  (Hlen : Z.of_nat (length c) < 2 ^ 32) (Hwf : Forall uint256_wf c)
  (Hin : tx ∈ c) (Hidx : 0 <= index < Z.of_nat (length c)) :
  exists proof root,
    get_merkle_proof tx c index = Ok proof
    /\ get_merkle_root_list c = Ok root
    /\ merkle_proof_verify proof tx root = true.
Proof.
  assert (c ≠ []) by (intros ->; by apply not_elem_of_nil in Hin).
  destruct (merkle_proof_root c tx index) as (proof & E & Hv); [done..|].
  exists proof, (root_spec c). split; [done|]. split; [|done].
  destruct c as [|x [|y c']]; [done|by rewrite root_spec_single|]. apply root_list_spec; [simpl; lia|done].
Qed.

(** Proofs are not sound: leaves enter the digest through a byte-wise sum,
    so any accepted proof with at least one sibling can be turned into an
    accepted proof of an arbitrary other transaction hash against the same
    root, by solving for the sibling. *)
Theorem merkle_proof_forgeable (p : uint256) (rest : list uint256)
  (tx root forged : uint256)
  (Hrest : rest ≠ []) (Hp : uint256_wf p) (Htx : uint256_wf tx) (Hf : uint256_wf forged)
  (Hok : merkle_proof_verify (p :: rest) tx root = true) :
  exists q, uint256_wf q /\ merkle_proof_verify (q :: rest) forged root = true.
Proof.
  exists ((tx + p) + uint256_opp forged)%U. split.
  { apply uint256_add_wf; [by apply uint256_add_wf | by apply uint256_opp_wf]. }
  rewrite <-(verify_sum p _ rest tx); [done..|].
  symmetry. apply uint256_add_opp; [done | by apply uint256_add_wf].
Qed.

(** The root does not determine the leaves: appending to a collection the
    copies of its last hash that padding would add gives a longer block body
    with the same root. *)
Theorem merkle_root_padding_collision (c : list uint256)
  (Hlen : Z.of_nat (length c) < 2 ^ 31) (Hne : (2 <= length c)%nat)
  (Hpow : Z.of_nat (length c) ≠ 2 ^ Z.log2 (Z.of_nat (length c))) :
  exists c', (length c < length c')%nat /\ get_merkle_root_list c' = get_merkle_root_list c.
Proof.
  assert (c ≠ []) by (intros ->; simpl in Hne; lia).
  assert (depth (padded c) = depth c) as Hd.
  { unfold depth at 1. rewrite padded_length by done.
    rewrite Z2Nat.inj_pow, Z.log2_up_pow2 by lia. lia. }
  assert (padded (padded c) = padded c) as HP.
  { unfold padded at 1, pad_amount. rewrite padded_length by done.
    rewrite Z2Nat.inj_pow, Z.log2_up_pow2, Z_to_nat_pow2, Nat.sub_diag by lia.
    apply app_nil_r. }
  assert (Z.of_nat (length c) < Z.of_nat (length (padded c)) < 2 ^ 32).
  { rewrite padded_length by done. rewrite Z2Nat.inj_pow.
    unfold depth. rewrite Z2Nat.id by apply Z.log2_up_nonneg.
    apply log2_up_not_pow2; [done|lia|done]. }
  exists (padded c). split; [lia|].
  rewrite !root_list_spec by lia. unfold root_spec. by rewrite Hd, HP.
Qed.

Lemma sample_leaves_wf n : Forall uint256_wf (map uint256_fill (seqZ 0 n)).
Proof.
  apply Forall_forall. intros x Hx. apply list_elem_of_fmap in Hx as (y & -> & _).
  apply uint256_fill_wf.
Defined.
End Properties.

(** ** Witnesses: three, five and six leaves under the toy digest *)
Definition sample_leaves (n : Z) : list uint256 := map uint256_fill (seqZ 0 n).

Lemma merkle_roots_agree_witness :
  let H := toy_HashHandler in
  get_merkle_root_vector (sample_leaves 5)
    = Ok (tree_root (depth (sample_leaves 5)) (padded (sample_leaves 5)), padded (sample_leaves 5))
  /\ get_merkle_root_queue (sample_leaves 5)
    = Ok (tree_root (depth (sample_leaves 5)) (padded (sample_leaves 5)))
  /\ get_merkle_root_list (sample_leaves 5)
    = Ok (tree_root (depth (sample_leaves 5)) (padded (sample_leaves 5)))
  /\ length (padded (sample_leaves 5)) = (2 ^ depth (sample_leaves 5))%nat.
Proof.
  intros H. apply (merkle_roots_agree (sample_leaves 5)); vm_compute; congruence.
Defined.

Lemma merkle_proof_complete_witness :
  let H := toy_HashHandler in
  exists proof root,
    get_merkle_proof (uint256_fill 4) (sample_leaves 5) 4 = Ok proof
    /\ get_merkle_root_list (sample_leaves 5) = Ok root
    /\ merkle_proof_verify proof (uint256_fill 4) root = true.
Proof.
  intros H. apply (merkle_proof_complete (sample_leaves 5) (uint256_fill 4) 4).
  - vm_compute. reflexivity.
  - apply sample_leaves_wf.
  - apply list_elem_of_lookup. exists 4%nat. reflexivity.
  - simpl. lia.
Defined.

Lemma merkle_proof_forgeable_witness :
  let H := toy_HashHandler in
  exists q, uint256_wf q /\
    merkle_proof_verify
      [q; node_hash (uint256_fill 2) (uint256_fill 2);
       node_hash (node_hash (uint256_fill 0) (uint256_fill 1))
         (node_hash (uint256_fill 2) (uint256_fill 2))]
      (uint256_fill 77)
      (node_hash (node_hash (uint256_fill 0) (uint256_fill 1))
         (node_hash (uint256_fill 2) (uint256_fill 2))) = true.
Proof.
  intros H.
  apply (merkle_proof_forgeable (uint256_fill 0)
    [node_hash (uint256_fill 2) (uint256_fill 2);
     node_hash (node_hash (uint256_fill 0) (uint256_fill 1))
       (node_hash (uint256_fill 2) (uint256_fill 2))]
    (uint256_fill 1)); try apply uint256_fill_wf; [done|].
  vm_compute. reflexivity.
Defined.

Lemma merkle_root_padding_collision_witness :
  let H := toy_HashHandler in
  exists c', (length (sample_leaves 3) < length c')%nat
    /\ get_merkle_root_list c' = get_merkle_root_list (sample_leaves 3).
Proof.
  intros H. apply (merkle_root_padding_collision (sample_leaves 3)); vm_compute;
    try lia; congruence.
Defined.
