(* ===== verification/Stream.v ===== *)
(** * Byte streams: the state of [src/include/serializer]

    [BinarySerializer] (an owned, growing buffer) and [BinaryDeserializeView]
    (a borrowed pointer and a size) with their positions, the exceptions of
    [util.h], and the state-and-error monad the overloads are written in. *)
From S2P Require Import Prelude.

(** ** Exceptions and tags ([util.h]) *)
Inductive ErrorNumber :=
| DataTypeError | InsufficientRemainingMemory | TheStringLengthExceedsTheLimit
| IllegalStringLength | TheBytesCountExceedsTheLimit | IllegalBytesCount
| ReadIllegalBytesCount | TheVectorCountExceedsTheLimit | IllegalVectorCount
| TheListCountExceedsTheLimit | IllegalListCount | TheMapKVCountExceedsTheLimit
| IllegalMapKVCount | TheTupleCountExceedsTheLimit | IllegalTupleCount
| IllegalParameterTupleCount | TheHashMapKVCountExceedsTheLimit | IllegalHashMapKVCount
| ErrorReadingSubElements | TheSetSizeExceedsTheLimit | IllegalSetCount
| NoDataToStoreInFile | TheArrayCountExceedsTheLimit | IllegalArrayCount.

Inductive BinaryDataType :=
| BOOL | INT16 | INT32 | INT64 | UINT16 | UINT32 | UINT64 | FLOAT | DOUBLE | CHAR | STRING
| BYTES | UBYTES | VECTOR | LIST | MAP | TUPLE | HASHMAP | SET | MUSECLASS | ARRAY | UINT8.

(** The value of an enumerator, declared as consecutive chars from 0. *)
Definition tag_byte (t : BinaryDataType) : Z :=
  match t with
  | BOOL => 0 | INT16 => 1 | INT32 => 2 | INT64 => 3 | UINT16 => 4 | UINT32 => 5 | UINT64 => 6
  | FLOAT => 7 | DOUBLE => 8 | CHAR => 9 | STRING => 10 | BYTES => 11 | UBYTES => 12
  | VECTOR => 13 | LIST => 14 | MAP => 15 | TUPLE => 16 | HASHMAP => 17 | SET => 18
  | MUSECLASS => 19 | ARRAY => 20 | UINT8 => 21
  end.

Definition MUSE_DEFAULT_CAPACITY : Z := 32.
Definition MUSE_MAX_STRING_LENGTH : Z := 1048576.
Definition MUSE_MAX_BYTE_COUNT : Z := 65536.
Definition MUSE_MAX_COUNT : Z := 16777216.   (** vector, list, map, set and array *)
Definition MUSE_MAX_TUPLE_COUNT : Z := 64.

(** What a call can end in besides a value: a [BinarySerializerException], an
    access outside the buffer (undefined behaviour), or a loop that never ends. *)
Inductive stream_error :=
| Throw (n : ErrorNumber)
| OutOfBounds
| Diverges.

(** ** The monad *)
Definition R (S A : Type) : Type := S -> res stream_error A * S.

#[global] Instance R_ret {S} : MRet (R S) := fun A a s => (Ok a, s).
#[global] Instance R_bind {S} : MBind (R S) := fun A B f m s =>
  match m s with
  | (Ok a, s') => f a s'
  | (Err e, s') => (Err e, s')
  end.

Definition modify {S} (f : S -> S) : R S unit := fun s => (Ok tt, f s).
Definition fail {S A} (e : stream_error) : R S A := fun s => (Err e, s).
Definition throw {S A} (n : ErrorNumber) : R S A := fail (Throw n).

(** [try { m } catch (...) { restore; throw; }]: undefined behaviour is not caught. *)
Definition on_exception {S A} (m : R S A) (restore : S -> S) : R S A := fun s =>
  match m s with
  | (Err (Throw n), s') => (Err (Throw n), restore s')
  | r => r
  end.

(** ** The host *)
Class Host := host_order : ByteSequence.

(** [getByteSequence]: the first byte of 0x01234567 in memory. *)
Definition getByteSequence {h : Host} : ByteSequence :=
  if decide (mem_encode host_order 4 19088743 !! 0%nat = Some 1) then BigEndian else LittleEndian.

Lemma getByteSequence_host {h : Host} : getByteSequence = host_order.
Proof. unfold getByteSequence. by destruct h. Qed.

(** An [n]-byte object read from a little-endian stream: on a big-endian host
    its bytes are reversed in place. *)
Definition from_stream {h : Host} (n : nat) (raw : Z) : Z :=
  match getByteSequence with
  | BigEndian => mem_decode host_order (reverse (mem_encode host_order n raw))
  | LittleEndian => raw
  end.

(** ** Readable sources *)

(** What the reading overloads use of [BinarySerializer] and [BinaryDeserializeView]:
    the bytes behind the pointer, the size they compare with, and the position. *)
Class ByteSource (S : Type) := {
  src_data : S -> bytes;
  src_size : S -> Z;
  src_pos : S -> Z;
  src_seek : Z -> S -> S;
}.

Class ByteSourceLaws (S : Type) {B : ByteSource S} : Prop := {
  seek_data p s : src_data (src_seek p s) = src_data s;
  seek_size p s : src_size (src_seek p s) = src_size s;
  seek_pos p s : src_pos (src_seek p s) = p;
  seek_seek p q s : src_seek p (src_seek q s) = src_seek p s;
  seek_id s : src_seek (src_pos s) s = s;
}.

Section Reading.
Context {h : Host} {S : Type} {B : ByteSource S}.

Definition getReadPosition : R S Z := fun s => (Ok (src_pos s), s).
Definition byteCount : R S Z := fun s => (Ok (src_size s), s).
Definition setReadPosition (p : Z) : R S unit := fun s => (Ok tt, src_seek p s).

(** [size - position], a [size_t]. *)
Definition remaining : R S Z := fun s => (Ok (u64 (src_size s - src_pos s)), s).

(** The [n] bytes from the current position. *)
Definition peek (n : nat) : R S bytes := fun s =>
  if decide (0 <= src_pos s /\ src_pos s + Z.of_nat n <= Z.of_nat (length (src_data s)))
  then (Ok (take n (drop (Z.to_nat (src_pos s)) (src_data s))), s)
  else (Err OutOfBounds, s).

Definition advance (n : Z) : R S unit := fun s => (Ok tt, src_seek (src_pos s + n) s).

(** An unsigned integer of [n] bytes, without moving. *)
Definition peek_uint (n : nat) : R S Z :=
  l ← peek n; mret (from_stream n (mem_decode host_order l)).

(** The private [read(char*, len)]. *)
Definition read (len : nat) : R S (option bytes) :=
  p ← getReadPosition; n ← byteCount;
  if n <? u64 (p + Z.of_nat len) then mret None
  else l ← peek len; _ ← advance (swrap 32 (Z.of_nat len)); mret (Some l).

(** [MUSE_PREVENT_BOUNDARY] *)
Definition prevent_boundary : R S unit :=
  p ← getReadPosition; n ← byteCount;
  if u64 p =? n then throw InsufficientRemainingMemory else mret tt.

(** [if (byteStream[readPosition] != (char)BinaryDataType::T) throw ...] *)
Definition check_tag (t : BinaryDataType) : R S unit :=
  b ← peek 1;
  if decide (b = [tag_byte t]) then mret tt else throw DataTypeError.

(** [checkDataTypeRightForward] *)
Definition checkDataTypeRightForward (dt : BinaryDataType) : R S bool :=
  _ ← prevent_boundary;
  b ← peek 1;
  if decide (b = [tag_byte dt]) then _ ← advance 1; mret true else mret false.
End Reading.

(** ** BinarySerializer *)
Record BinarySerializer := {
  byteStream : bytes;
  capacity : Z;           (** of the vector *)
  readPosition : Z;
}.

#[global] Instance BinarySerializer_source : ByteSource BinarySerializer := {
  src_data := byteStream;
  src_size s := Z.of_nat (length (byteStream s));
  src_pos := readPosition;
  src_seek p s := {| byteStream := byteStream s; capacity := capacity s; readPosition := p |};
}.

#[global] Instance BinarySerializer_laws : ByteSourceLaws BinarySerializer.
Proof. split; intros; by repeat match goal with s : BinarySerializer |- _ => destruct s end. Qed.

(** [BinarySerializer()] and [clear()]. *)
Definition BinarySerializer_new : BinarySerializer :=
  {| byteStream := []; capacity := MUSE_DEFAULT_CAPACITY; readPosition := 0 |}.
Definition clear (s : BinarySerializer) : BinarySerializer :=
  {| byteStream := []; capacity := MUSE_DEFAULT_CAPACITY; readPosition := 0 |}.
Definition reset (s : BinarySerializer) : BinarySerializer := src_seek 0 s.

(** The move constructor: the new serializer and the one moved from, whose
    vector is left without storage. *)
Definition BinarySerializer_move (other : BinarySerializer) : BinarySerializer * BinarySerializer :=
  (other, {| byteStream := []; capacity := 0; readPosition := 0 |}).

(** [expansion]: [while ((cap - hasSize) < len) cap = cap * 2;].  For a capacity
    of at least one, [hasSize + len] doublings are enough. *)
Fixpoint expansion_loop (fuel : nat) (cap hasSize len : Z) : option Z :=
  match fuel with
  | O => None
  | Datatypes.S fuel =>
      if cap - hasSize <? len then expansion_loop fuel (cap * 2) hasSize len else Some cap
  end.

Definition expansion (len : Z) : R BinarySerializer unit := fun s =>
  let hasSize := Z.of_nat (length (byteStream s)) in
  if capacity s - hasSize <? len then
    match expansion_loop (Datatypes.S (Z.to_nat (hasSize + len))) (capacity s) hasSize len with
    | Some cap => (Ok tt, {| byteStream := byteStream s; capacity := Z.max (capacity s) cap;
                             readPosition := readPosition s |})
    | None => (Err Diverges, s)
    end
  else (Ok tt, s).

(** [write(data, len)] for the [len] bytes [data] *)
Definition write (data : bytes) : R BinarySerializer unit :=
  if decide (data = []) then mret tt
  else (_ ← expansion (Z.of_nat (length data));
       modify (fun s => {| byteStream := byteStream s ++ data; capacity := capacity s;
                           readPosition := readPosition s |})).

(** [if (byteSequence == BigEndian) std::reverse(last - n, last)] *)
Definition to_little_endian {h : Host} (n : nat) : R BinarySerializer unit := fun s =>
  match getByteSequence with
  | LittleEndian => (Ok tt, s)
  | BigEndian =>
      let k := (length (byteStream s) - n)%nat in
      (Ok tt, {| byteStream := take k (byteStream s) ++ reverse (drop k (byteStream s));
                 capacity := capacity s; readPosition := readPosition s |})
  end.

(** ** BinaryDeserializeView *)
Record BinaryDeserializeView := {
  view_stream : option bytes;      (** the pointer; [None] is [nullptr] *)
  byteStreamSize : Z;
  view_position : Z;
}.

#[global] Instance View_source : ByteSource BinaryDeserializeView := {
  src_data v := default [] (view_stream v);
  src_size := byteStreamSize;
  src_pos := view_position;
  src_seek p v := {| view_stream := view_stream v; byteStreamSize := byteStreamSize v;
                     view_position := p |};
}.

#[global] Instance View_laws : ByteSourceLaws BinaryDeserializeView.
Proof.
  split; intros; by repeat match goal with s : BinaryDeserializeView |- _ => destruct s end.
Qed.

Definition View_default : BinaryDeserializeView :=
  {| view_stream := None; byteStreamSize := 0; view_position := 0 |}.
Definition View_new (_byteStream : bytes) (_byteStreamSize : Z) : BinaryDeserializeView :=
  {| view_stream := Some _byteStream; byteStreamSize := _byteStreamSize; view_position := 0 |}.
Definition View_reset_bytestream (v : BinaryDeserializeView) (_byteStream : bytes)
  (_byteStreamSize : Z) : BinaryDeserializeView := View_new _byteStream _byteStreamSize.
(** [clear]: the size is kept. *)
Definition View_clear (v : BinaryDeserializeView) : BinaryDeserializeView :=
  {| view_stream := None; byteStreamSize := byteStreamSize v; view_position := 0 |}.
(** The move constructor keeps the size of the view moved from; move assignment
    resets it. *)
Definition View_move (other : BinaryDeserializeView)
  : BinaryDeserializeView * BinaryDeserializeView := (other, View_clear other).
Definition View_move_assign (this other : BinaryDeserializeView)
  : BinaryDeserializeView * BinaryDeserializeView := (other, View_default).
Definition View_reset (v : BinaryDeserializeView) : BinaryDeserializeView := src_seek 0 v.
