(* ===== verification/Serializer.v ===== *)
(** * The serializer overloads: [binarySerializer.h/.cpp], [binaryDeserializeView.hpp/.cpp]

    One definition per overload of [input] and [output].  The type class
    [Serializable] plays the part of C++ overload resolution: a template over
    [T] is an instance over a [Serializable T].  The reading overloads are
    written once against [ByteSource] and instantiated at both readers. *)
From stdpp Require Import lexico.
From S2P Require Import Prelude Stream.

(** ** Types *)

(** Multi-byte scalars, told apart by their type index as C++ tells them apart
    by overload.  Floating-point values are their bit patterns. *)
Inductive scalar := S_int16 | S_int32 | S_int64 | S_uint16 | S_uint32 | S_uint64 | S_float | S_double.

Definition scalar_tag (k : scalar) : BinaryDataType :=
  match k with
  | S_int16 => INT16 | S_int32 => INT32 | S_int64 => INT64 | S_uint16 => UINT16
  | S_uint32 => UINT32 | S_uint64 => UINT64 | S_float => FLOAT | S_double => DOUBLE
  end.
Definition scalar_size (k : scalar) : nat :=
  match k with
  | S_int16 | S_uint16 => 2 | S_int32 | S_uint32 | S_float => 4 | S_int64 | S_uint64 | S_double => 8
  end.
Definition scalar_signed (k : scalar) : bool :=
  match k with S_int16 | S_int32 | S_int64 => true | _ => false end.
Definition scalar_bits (k : scalar) : Z := 8 * Z.of_nat (scalar_size k).

Record num (k : scalar) := Num { num_val : Z }.
Arguments Num {k} _.
Arguments num_val {k} _.
#[global] Instance num_eq_dec k : EqDecision (num k).
Proof. solve_decision. Defined.
#[global] Instance num_countable k : Countable (num k).
Proof. apply (inj_countable num_val (fun z => Some (Num z))). by intros []. Defined.

(** The value an object of type [k] holds for an unsigned pattern. *)
Definition scalar_value (k : scalar) (raw : Z) : Z :=
  if scalar_signed k then swrap (scalar_bits k) raw else wrap (scalar_bits k) raw.

Record cchar := CChar { cchar_byte : Z }.           (** char *)
Record uchar := UChar { uchar_val : Z }.            (** unsigned char *)
Record cstring := Str { str_bytes : bytes }.        (** std::string *)
Record clist (A : Type) := CList { clist_elems : list A }.       (** std::list *)
Arguments CList {A} _.
Arguments clist_elems {A} _.
Record arr (N : nat) (A : Type) := Arr { arr_elems : list A }.   (** std::array<A, N> *)
Arguments Arr {N A} _.
Arguments arr_elems {N A} _.

(** ** Overload resolution *)
Class Serializable (A : Type) := {
  input : A -> R BinarySerializer unit;
  output : forall {S} {B : ByteSource S}, A -> R S A;   (** the old value of the reference *)
  default_value : A;                                  (** [T v;] *)
  copy_ctor : A -> A;                                 (** [T(const T&)] and copy assignment *)
}.

(** [outputArgs]/[inputArgs] and the index sequences of the tuple helpers: a pack
    of arguments is a nested pair. *)
Class ArgPack (A : Type) := {
  inputArgs : A -> R BinarySerializer unit;
  outputArgs : forall {S} {B : ByteSource S}, A -> R S A;
  pack_count : nat;
  default_pack : A;
  copy_pack : A -> A;
}.

#[global] Instance pack_nil : ArgPack unit := {
  inputArgs _ := mret tt; outputArgs _ _ _ := mret tt; pack_count := 0; default_pack := tt;
  copy_pack _ := tt;
}.
#[global] Instance pack_cons {A B} `{Serializable A, ArgPack B} : ArgPack (A * B) := {
  inputArgs '(value, args) := _ ← input value; inputArgs args;
  outputArgs _ _ '(value, args) := v ← output value; vs ← outputArgs args; mret (v, vs);
  pack_count := Datatypes.S (pack_count (A := B));
  default_pack := (default_value, default_pack);
  copy_pack '(value, args) := (copy_ctor value, copy_pack args);
}.

Section Overloads.
Context {h : Host}.

(** ** input *)

Definition write_tag (t : BinaryDataType) : R BinarySerializer unit := write [tag_byte t].

Definition input_bool (value : bool) : R BinarySerializer unit :=
  _ ← write_tag BOOL; write [if value then 1 else 0].

Definition input_char (value : cchar) : R BinarySerializer unit :=
  _ ← write_tag CHAR; write [cchar_byte value].

Definition input_uchar (value : uchar) : R BinarySerializer unit :=
  _ ← write_tag UINT8; write [uchar_val value].

(** [MUSE_CONVERT_TO_LITTLE_ENDIAN] in the eight multi-byte overloads *)
Definition input_num {k} (value : num k) : R BinarySerializer unit :=
  _ ← write_tag (scalar_tag k);
  _ ← write (mem_encode host_order (scalar_size k) (num_val value));
  to_little_endian (scalar_size k).

(** A [uint32_t] length followed by the byte-order correction. *)
Definition write_uint32 (len : Z) : R BinarySerializer unit :=
  _ ← write (mem_encode host_order 4 len); to_little_endian 4.

Definition input_string (value : cstring) : R BinarySerializer unit :=
  let len := u32 (Z.of_nat (length (str_bytes value))) in
  if MUSE_MAX_STRING_LENGTH <? len then throw TheStringLengthExceedsTheLimit
  else
    _ ← write_tag STRING;
    _ ← write_uint32 len;
    write (take (Z.to_nat len) (str_bytes value)).

(** [input(const char*, len)]: the buffer holds [len] bytes. *)
Definition input_buffer (t : BinaryDataType) (value : bytes) : R BinarySerializer unit :=
  let len := Z.of_nat (length value) in
  if MUSE_MAX_BYTE_COUNT <? len then throw TheBytesCountExceedsTheLimit
  else
    _ ← write_tag t;
    _ ← write_uint32 len;
    write value.
Definition input_chars : bytes -> R BinarySerializer unit := input_buffer BYTES.
Definition input_uchars : bytes -> R BinarySerializer unit := input_buffer UBYTES.

(** [write((char * )&elementCount, sizeof(uint32_t))] of a [size_t]: the first four
    bytes of the eight in memory, then the byte-order correction. *)
Definition write_size (elementCount : Z) : R BinarySerializer unit :=
  _ ← write (take 4 (mem_encode host_order 8 elementCount)); to_little_endian 4.

Fixpoint input_all {A} `{Serializable A} (l : list A) : R BinarySerializer unit :=
  match l with
  | [] => mret tt
  | x :: l => _ ← input x; input_all l
  end.

Definition input_vector {A} `{Serializable A} (value : list A) : R BinarySerializer unit :=
  _ ← write_tag VECTOR;
  let elementCount := Z.of_nat (length value) in
  if MUSE_MAX_COUNT <? elementCount then throw TheVectorCountExceedsTheLimit
  else _ ← write_size elementCount; input_all value.

Definition input_array {N A} `{Serializable A} (value : arr N A) : R BinarySerializer unit :=
  _ ← write_tag ARRAY;
  _ ← write_uint32 (u32 (Z.of_nat N));
  input_all (arr_elems value).

Definition input_list {A} `{Serializable A} (value : clist A) : R BinarySerializer unit :=
  _ ← write_tag LIST;
  let elementCount := Z.of_nat (length (clist_elems value)) in
  if MUSE_MAX_COUNT <? elementCount then throw TheListCountExceedsTheLimit
  else _ ← write_size elementCount; input_all (clist_elems value).

Fixpoint input_pairs {K V} `{Serializable K, Serializable V} (l : list (K * V))
  : R BinarySerializer unit :=
  match l with
  | [] => mret tt
  | (k, v) :: l => _ ← input k; _ ← input v; input_pairs l
  end.
End Overloads.

(** The order of a red-black tree's keys, [operator<]. *)
Class KeyOrder (K : Type) := {
  key_le : relation K;
  key_le_dec : RelDecision key_le;
  key_le_total : Total key_le;
  key_le_trans : Transitive key_le;
}.
#[export] Existing Instances key_le_dec key_le_total key_le_trans.

#[global] Instance num_order k : KeyOrder (num k).
Proof.
  refine {| key_le a b := num_val a <= num_val b |}.
  - intros a b. apply _.
  - intros a b. lia.
  - intros a b c. lia.
Defined.

(** [operator<] of strings compares their bytes one by one. *)
#[global] Instance cstring_eq_dec : EqDecision cstring.
Proof. solve_decision. Defined.
#[global] Instance cstring_countable : Countable cstring.
Proof. apply (inj_countable str_bytes (fun l => Some (Str l))). by intros []. Defined.

#[global] Instance cstring_order : KeyOrder cstring.
Proof.
  refine {| key_le a b := ~ lexico (str_bytes b) (str_bytes a) |}.
  - intros a b. destruct (trichotomyT lexico (str_bytes b) (str_bytes a)) as [[Hl|E]|Hl].
    + right. by intros [].
    + left. rewrite E. apply irreflexivity, _.
    + left. intros Hl'. by apply (irreflexivity lexico (str_bytes b)), (transitivity Hl').
  - intros a b. destruct (trichotomyT lexico (str_bytes b) (str_bytes a)) as [[Hl|E]|Hl].
    + right. intros Hl'. by apply (irreflexivity lexico (str_bytes b)), (transitivity Hl).
    + right. rewrite E. apply irreflexivity, _.
    + left. intros Hl'. by apply (irreflexivity lexico (str_bytes b)), (transitivity Hl').
  - intros a b c Hab Hbc Hca. destruct (trichotomyT lexico (str_bytes b) (str_bytes a)) as [[Hl|E]|Hl]; [done| |].
    + apply Hbc. by rewrite E.
    + apply Hbc. by trans (str_bytes a).
Defined.

Definition entry_le {K V} `{KeyOrder K} (a b : K * V) : Prop := key_le a.1 b.1.
#[global] Instance entry_le_dec {K V} `{KeyOrder K} : RelDecision (entry_le (K := K) (V := V)).
Proof. intros a b. unfold entry_le. apply _. Defined.

(** The entries of a [std::map] and the members of a [std::set] in iteration order. *)
Definition map_entries {K V} `{Countable K, KeyOrder K} (m : gmap K V) : list (K * V) :=
  merge_sort entry_le (map_to_list m).
Definition set_members {K} `{Countable K, KeyOrder K} (s : gset K) : list K :=
  merge_sort key_le (elements s).

(** [std::unordered_map], visited in the order of the implementation. *)
Record hmap (K V : Type) `{Countable K} := HMap { hmap_map : gmap K V }.
Arguments HMap {K V _ _} _.
Arguments hmap_map {K V _ _} _.
Class HashOrder (K V : Type) `{Countable K} := {
  hash_entries : gmap K V -> list (K * V);
  hash_entries_perm m : Permutation (hash_entries m) (map_to_list m);
}.

Section Containers.
Context {h : Host}.

Definition input_map {K V} `{Countable K, KeyOrder K, Serializable K, Serializable V}
  (value : gmap K V) : R BinarySerializer unit :=
  _ ← write_tag MAP;
  let elementCount := Z.of_nat (size value) in
  if MUSE_MAX_COUNT <? elementCount then throw TheMapKVCountExceedsTheLimit
  else _ ← write_size elementCount; input_pairs (map_entries value).

Definition input_unordered_map {K V} `{HashOrder K V, Serializable K, Serializable V}
  (value : hmap K V) : R BinarySerializer unit :=
  _ ← write_tag HASHMAP;
  let elementCount := Z.of_nat (size (hmap_map value)) in
  if MUSE_MAX_COUNT <? elementCount then throw TheHashMapKVCountExceedsTheLimit
  else _ ← write_size elementCount; input_pairs (hash_entries (hmap_map value)).

Definition input_set {K} `{Countable K, KeyOrder K, Serializable K}
  (value : gset K) : R BinarySerializer unit :=
  _ ← write_tag SET;
  let elementCount := Z.of_nat (size value) in
  if MUSE_MAX_COUNT <? elementCount then throw TheSetSizeExceedsTheLimit
  else _ ← write_size elementCount; input_all (set_members value).

Definition input_tuple {A} `{ArgPack A} (tpl : A) : R BinarySerializer unit :=
  _ ← write_tag TUPLE;
  let tupleSize := u16 (Z.of_nat (pack_count (A := A))) in
  if MUSE_MAX_TUPLE_COUNT <? tupleSize then throw TheTupleCountExceedsTheLimit
  else
    _ ← write (mem_encode host_order 2 tupleSize);
    _ ← to_little_endian 2;
    inputArgs tpl.

(** ** output *)
Context {S : Type} {B : ByteSource S}.

(** [MUSE_CHECK_LEGITIMACY(TYPENAME, realName)] *)
Definition check_legitimacy (t : BinaryDataType) (n : nat) : R S unit :=
  left ← remaining;
  if left <? 1 + Z.of_nat n then throw InsufficientRemainingMemory else check_tag t.

(** The byte behind the tag: [byteStream[++readPosition]; ++readPosition]. *)
Definition next_byte : R S Z :=
  _ ← advance 1; l ← peek 1; _ ← advance 1; mret (default 0 (head l)).

Definition output_bool : R S bool :=
  _ ← check_legitimacy BOOL 1; b ← next_byte; mret (negb (b =? 0)).

Definition output_char : R S cchar :=
  _ ← check_legitimacy CHAR 1; b ← next_byte; mret (CChar b).

Definition output_uchar : R S uchar :=
  _ ← check_legitimacy UINT8 1; b ← next_byte; mret (UChar b).

Definition output_num {k} : R S (num k) :=
  _ ← check_legitimacy (scalar_tag k) (scalar_size k);
  _ ← advance 1;
  raw ← peek_uint (scalar_size k);
  _ ← advance (Z.of_nat (scalar_size k));
  mret (Num (scalar_value k raw)).

(** [readPosition = defaultPosition; throw ...] *)
Definition restore_throw {A} (defaultPosition : Z) (e : ErrorNumber) : R S A :=
  _ ← setReadPosition defaultPosition; throw e.

(** The common head of the length-prefixed overloads: the position before the
    tag and the checked length. *)
Definition read_count (t : BinaryDataType) (n : nat) (max : Z) (illegal : ErrorNumber)
  : R S (Z * Z) :=
  _ ← prevent_boundary;
  _ ← check_tag t;
  defaultPosition ← getReadPosition;
  _ ← advance 1;
  leftSize ← remaining;
  if leftSize <? Z.of_nat n then restore_throw defaultPosition InsufficientRemainingMemory
  else
    count ← peek_uint n;
    if max <? count then restore_throw defaultPosition illegal
    else mret (defaultPosition, count).

(** The body of a string or buffer: the remaining space is measured from
    [defaultPosition], the position of the tag. *)
Definition read_payload (defaultPosition len : Z) : R S bytes :=
  _ ← advance 4;
  total ← byteCount;
  if u64 (total - defaultPosition) <? len
  then restore_throw defaultPosition InsufficientRemainingMemory
  else l ← peek (Z.to_nat len); _ ← advance len; mret l.

Definition output_string : R S cstring :=
  '(defaultPosition, stringLength) ← read_count STRING 4 MUSE_MAX_STRING_LENGTH IllegalStringLength;
  l ← read_payload defaultPosition stringLength;
  mret (Str l).

(** [output(char*, len)]: a length mismatch throws without restoring the position. *)
Definition output_buffer (t : BinaryDataType) (len : Z) : R S bytes :=
  '(defaultPosition, stringLength) ← read_count t 4 MUSE_MAX_BYTE_COUNT IllegalBytesCount;
  if negb (stringLength =? len) then throw ReadIllegalBytesCount
  else read_payload defaultPosition stringLength.
Definition output_chars : Z -> R S bytes := output_buffer BYTES.
Definition output_uchars : Z -> R S bytes := output_buffer UBYTES.

(** [for (i = 0; i < n; i++) { T v; output(v); value.emplace_back(v); }]: the
    element stored is a copy of the one read. *)
Fixpoint output_all {A} `{Serializable A} (n : nat) : R S (list A) :=
  match n with
  | O => mret []
  | Datatypes.S n => v ← output default_value; vs ← output_all n; mret (copy_ctor v :: vs)
  end.

(** The element loop in its [try] block. *)
Definition read_elements {A} (defaultPosition : Z) (body : R S A) : R S A :=
  _ ← advance 4; on_exception body (src_seek defaultPosition).

Definition output_vector {A} `{Serializable A} : R S (list A) :=
  '(defaultPosition, vectorSize) ← read_count VECTOR 4 MUSE_MAX_COUNT IllegalVectorCount;
  read_elements defaultPosition (output_all (Z.to_nat vectorSize)).

Definition output_list {A} `{Serializable A} : R S (clist A) :=
  '(defaultPosition, listSize) ← read_count LIST 4 MUSE_MAX_COUNT IllegalListCount;
  l ← read_elements defaultPosition (output_all (Z.to_nat listSize));
  mret (CList l).

(** [for (i = 0; i < arraySize; i++) output(value[i])]: the array is overwritten
    in place, and an index past its end is undefined. *)
Fixpoint output_in_place {A} `{Serializable A} (value : list A) (i n : nat) : R S (list A) :=
  match n with
  | O => mret value
  | Datatypes.S n =>
      match value !! i with
      | None => fail OutOfBounds
      | Some old => v ← output old; output_in_place (<[i := v]> value) (Datatypes.S i) n
      end
  end.

Definition output_array {N A} `{Serializable A} (value : arr N A) : R S (arr N A) :=
  '(defaultPosition, arraySize) ← read_count ARRAY 4 MUSE_MAX_COUNT IllegalVectorCount;
  l ← read_elements defaultPosition (output_in_place (arr_elems value) 0 (Z.to_nat arraySize));
  mret (Arr l).

(** [value[k] = v] for each pair read *)
Fixpoint output_pairs {K V} `{Countable K, Serializable K, Serializable V}
  (n : nat) (value : gmap K V) : R S (gmap K V) :=
  match n with
  | O => mret value
  | Datatypes.S n =>
      k ← output default_value; v ← output default_value;
      output_pairs n (<[copy_ctor k := copy_ctor v]> value)
  end.

Definition output_map {K V} `{Countable K, Serializable K, Serializable V} : R S (gmap K V) :=
  '(defaultPosition, mapKVSize) ← read_count MAP 4 MUSE_MAX_COUNT IllegalMapKVCount;
  read_elements defaultPosition (output_pairs (Z.to_nat mapKVSize) ∅).

Definition output_unordered_map {K V} `{Countable K, Serializable K, Serializable V}
  : R S (hmap K V) :=
  '(defaultPosition, mapKVSize) ← read_count HASHMAP 4 MUSE_MAX_COUNT IllegalHashMapKVCount;
  m ← read_elements defaultPosition (output_pairs (Z.to_nat mapKVSize) ∅);
  mret (HMap m).

(** [value.emplace(v)] for each member read *)
Fixpoint output_members {K} `{Countable K, Serializable K} (n : nat) (value : gset K)
  : R S (gset K) :=
  match n with
  | O => mret value
  | Datatypes.S n => v ← output default_value; output_members n ({[copy_ctor v]} ∪ value)
  end.

Definition output_set {K} `{Countable K, Serializable K} : R S (gset K) :=
  '(defaultPosition, setSize) ← read_count SET 4 MUSE_MAX_COUNT IllegalSetCount;
  read_elements defaultPosition (output_members (Z.to_nat setSize) ∅).

Definition output_tuple {A} `{ArgPack A} (tpl : A) : R S A :=
  '(defaultPosition, tupleSize) ← read_count TUPLE 2 MUSE_MAX_TUPLE_COUNT IllegalTupleCount;
  if negb (tupleSize =? Z.of_nat (pack_count (A := A)))
  then restore_throw defaultPosition IllegalParameterTupleCount
  else _ ← advance 2; on_exception (outputArgs tpl) (src_seek defaultPosition).
End Containers.

(** ** User classes: [MUSE_IBinarySerializable(...)] *)
Section Classes.
Context {h : Host}.

Definition muse_serialize {A} `{ArgPack A} (fields : A) : R BinarySerializer unit :=
  _ ← write_tag MUSECLASS; inputArgs fields.

Definition muse_deserialize {A} `{ArgPack A} {S} {B : ByteSource S} (fields : A) : R S A :=
  p ← getReadPosition; n ← byteCount;
  if u64 p =? n then throw InsufficientRemainingMemory
  else
    result ← checkDataTypeRightForward MUSECLASS;
    if negb result then throw DataTypeError else outputArgs fields.
End Classes.

(** [std::tuple] and classes as argument types of the overload set. *)
Record tuple (A : Type) := Tuple { tuple_fields : A }.
Arguments Tuple {A} _.
Arguments tuple_fields {A} _.
Record museclass (A : Type) := MuseClass { class_fields : A }.
Arguments MuseClass {A} _.
Arguments class_fields {A} _.

(** [input(const std::tuple<>&)] and [output(std::tuple<>&)] do nothing. *)
Definition input_tuple_empty (tpl : unit) : R BinarySerializer unit := mret tt.
Definition output_tuple_empty {S} (tpl : unit) : R S unit := mret tt.

(** ** The overload set as instances *)
Section Instances.
Context {h : Host}.

#[global] Instance ser_bool : Serializable bool :=
  { input := input_bool; output _ _ _ := output_bool; default_value := false; copy_ctor v := v }.
#[global] Instance ser_char : Serializable cchar :=
  { input := input_char; output _ _ _ := output_char; default_value := CChar 0; copy_ctor v := v }.
#[global] Instance ser_uchar : Serializable uchar :=
  { input := input_uchar; output _ _ _ := output_uchar; default_value := UChar 0; copy_ctor v := v }.
#[global] Instance ser_num k : Serializable (num k) :=
  { input := input_num; output _ _ _ := output_num; default_value := Num 0; copy_ctor v := v }.
#[global] Instance ser_string : Serializable cstring :=
  { input := input_string; output _ _ _ := output_string; default_value := Str []; copy_ctor v := v }.
#[global] Instance ser_vector {A} `{Serializable A} : Serializable (list A) :=
  { input := input_vector; output _ _ _ := output_vector; default_value := [];
    copy_ctor := map copy_ctor }.
#[global] Instance ser_list {A} `{Serializable A} : Serializable (clist A) :=
  { input := input_list; output _ _ _ := output_list; default_value := CList [];
    copy_ctor l := CList (map copy_ctor (clist_elems l)) }.
#[global] Instance ser_array {N A} `{Serializable A} : Serializable (arr N A) :=
  { input := input_array; output _ _ := output_array;
    default_value := Arr (replicate N default_value);
    copy_ctor a := Arr (map copy_ctor (arr_elems a)) }.
#[global] Instance ser_map {K V} `{Countable K, KeyOrder K, Serializable K, Serializable V}
  : Serializable (gmap K V) :=
  { input := input_map; output _ _ _ := output_map; default_value := ∅;
    copy_ctor m := copy_ctor <$> m }.
#[global] Instance ser_unordered_map {K V} `{HashOrder K V, Serializable K, Serializable V}
  : Serializable (hmap K V) :=
  { input := input_unordered_map; output _ _ _ := output_unordered_map;
    default_value := HMap ∅; copy_ctor m := HMap (copy_ctor <$> hmap_map m) }.
#[global] Instance ser_set {K} `{Countable K, KeyOrder K, Serializable K}
  : Serializable (gset K) :=
  { input := input_set; output _ _ _ := output_set; default_value := ∅; copy_ctor s := s }.
#[global] Instance ser_tuple_empty : Serializable (tuple unit) :=
  { input v := input_tuple_empty (tuple_fields v);
    output _ _ v := l ← output_tuple_empty (tuple_fields v); mret (Tuple l);
    default_value := Tuple tt; copy_ctor v := v }.
#[global] Instance ser_tuple {A B} `{Serializable A, ArgPack B} : Serializable (tuple (A * B)) :=
  { input v := input_tuple (tuple_fields v);
    output _ _ v := l ← output_tuple (tuple_fields v); mret (Tuple l);
    default_value := Tuple default_pack; copy_ctor v := Tuple (copy_pack (tuple_fields v)) }.
#[global] Instance ser_class {A} `{ArgPack A} : Serializable (museclass A) :=
  { input v := muse_serialize (class_fields v);
    output _ _ v := l ← muse_deserialize (class_fields v); mret (MuseClass l);
    default_value := MuseClass default_pack;
    copy_ctor v := MuseClass (copy_pack (class_fields v)) }.
End Instances.

(** ** BinaryDeserializeView: the reading overloads over its own pointer and size *)
Section View.
Context {h : Host}.
Abbreviation V := (R BinaryDeserializeView).
Definition View_read : nat -> V (option bytes) := read.
Definition View_checkDataTypeRightForward : BinaryDataType -> V bool := checkDataTypeRightForward.
Definition View_output_bool : V bool := output_bool.
Definition View_output_char : V cchar := output_char.
Definition View_output_uchar : V uchar := output_uchar.
Definition View_output_num {k} : V (num k) := output_num.
Definition View_output_string : V cstring := output_string.
Definition View_output_chars : Z -> V bytes := output_chars.
Definition View_output_uchars : Z -> V bytes := output_uchars.
Definition View_output_vector {A} `{Serializable A} : V (list A) := output_vector.
Definition View_output_array {N A} `{Serializable A} : arr N A -> V (arr N A) := output_array.
Definition View_output_list {A} `{Serializable A} : V (clist A) := output_list.
Definition View_output_set {K} `{Countable K, Serializable K} : V (gset K) := output_set.
Definition View_output_map {K V'} `{Countable K, Serializable K, Serializable V'}
  : V (gmap K V') := output_map.
Definition View_output_unordered_map {K V'} `{Countable K, Serializable K, Serializable V'}
  : V (hmap K V') := output_unordered_map.
Definition View_output_tuple {A} `{ArgPack A} : A -> V A := output_tuple.
End View.

