(* ===== verification/SerializerLaws.v ===== *)
(** * The wire format, and the round trip of the serializer

    [SerializerLaws] states what an overload pair promises: [encode] is the
    abstract wire format, [input] appends exactly [encode v], and [output]
    consumes exactly [encode v] and returns [v], from either reader.  Every
    container overload keeps the promise of its element type. *)
From S2P Require Import Prelude Stream Serializer.

(** ** Writing *)

(** A serializer whose vector has storage. *)
Definition writable (s : BinarySerializer) : Prop :=
  1 <= capacity s /\ Z.of_nat (length (byteStream s)) <= capacity s.

(** [s'] is [s] with [l] appended. *)
Definition appended (s : BinarySerializer) (l : bytes) (s' : BinarySerializer) : Prop :=
  byteStream s' = byteStream s ++ l /\ readPosition s' = readPosition s /\ writable s'.

Definition writes (m : R BinarySerializer unit) (l : bytes) : Prop :=
  forall s, writable s -> exists s', m s = (Ok tt, s') /\ appended s l s'.

Lemma bind_ok {S A B} (m : R S A) (f : A -> R S B) s a s' :
  m s = (Ok a, s') -> (m ≫= f) s = f a s'.
Proof. intros E. unfold mbind, R_bind. by rewrite E. Qed.

Lemma bind_err {S A B} (m : R S A) (f : A -> R S B) s e s' :
  m s = (Err e, s') -> (m ≫= f) s = (Err e, s').
Proof. intros E. unfold mbind, R_bind. by rewrite E. Qed.

Lemma expansion_loop_ok n cap sz len :
  1 <= cap -> sz + len <= cap * 2 ^ Z.of_nat n ->
  exists cap', expansion_loop (Datatypes.S n) cap sz len = Some cap'
    /\ len <= cap' - sz /\ cap <= cap'.
Proof.
  revert cap. induction n as [|n IH]; intros cap Hc Hf;
    change (expansion_loop (Datatypes.S ?k) cap sz len) with
      (if cap - sz <? len then expansion_loop k (cap * 2) sz len else Some cap);
    (destruct (Z.ltb_spec (cap - sz) len); [|eauto with lia]).
  { simpl in Hf. lia. }
  rewrite Nat2Z.inj_succ, Z.pow_succ_r in Hf by lia.
  destruct (IH (cap * 2)) as (cap' & -> & ? & ?); [lia..|]. exists cap'. split; [done|lia].
Qed.

Lemma expansion_ok s len :
  writable s -> 0 <= len -> exists cap,
    expansion len s = (Ok tt, {| byteStream := byteStream s; capacity := cap;
                                 readPosition := readPosition s |})
    /\ Z.of_nat (length (byteStream s)) + len <= cap /\ 1 <= cap.
Proof.
  intros [H1 H2] Hlen. unfold expansion.
  destruct (Z.ltb_spec (capacity s - Z.of_nat (length (byteStream s))) len).
  - destruct (expansion_loop_ok (Z.to_nat (Z.of_nat (length (byteStream s)) + len))
      (capacity s) (Z.of_nat (length (byteStream s))) len) as (cap & -> & ? & ?); [done| |].
    + assert (Z.of_nat (length (byteStream s)) + len
        < 2 ^ (Z.of_nat (length (byteStream s)) + len)) by (apply Z.pow_gt_lin_r; lia).
      rewrite Z2Nat.id by lia. nia.
    + eexists. split; [reflexivity|]. lia.
  - exists (capacity s). destruct s; simpl in *. split; [done|]. lia.
Qed.

Lemma write_writes l : writes (write l) l.
Proof.
  intros s Hs. unfold write. case_decide as Hl.
  { subst. exists s. split; [done|]. unfold appended. by rewrite app_nil_r. }
  destruct (expansion_ok s (Z.of_nat (length l)) Hs) as (cap & E & Hc & H1); [lia|].
  rewrite (bind_ok _ _ _ _ _ E). eexists. split; [reflexivity|].
  split; [done|split; [done|]]. split; simpl; [done|]. rewrite length_app. lia.
Qed.

Lemma writes_bind m k l1 l2 : writes m l1 -> writes k l2 -> writes (_ ← m; k) (l1 ++ l2).
Proof.
  intros Hm Hk s Hs. destruct (Hm s Hs) as (s1 & E1 & B1 & P1 & W1).
  destruct (Hk s1 W1) as (s2 & E2 & B2 & P2 & W2). exists s2.
  rewrite (bind_ok _ _ _ _ _ E1). split; [done|]. split; [|split; [congruence|done]].
  by rewrite B2, B1, app_assoc.
Qed.

Lemma writes_ret : writes (mret tt) [].
Proof.
  intros s Hs. exists s. split; [done|]. unfold appended. by rewrite app_nil_r.
Qed.

Section Writing.
Context {h : Host}.

(** A scalar written and then byte-swapped on a big-endian host. *)
Lemma swapped_writes n z : writes (_ ← write (mem_encode host_order n z); to_little_endian n) (le_encode n z).
Proof.
  intros s Hs. destruct (write_writes (mem_encode host_order n z) s Hs) as (s' & E & B1 & P1 & W1).
  rewrite (bind_ok _ _ _ _ _ E). unfold to_little_endian. rewrite getByteSequence_host.
  destruct host_order; simpl in *; eexists; (split; [reflexivity|]); unfold appended; simpl;
    (split; [|split; [done|]]).
  - rewrite B1, length_app, length_reverse, le_encode_length, Nat.add_sub.
    rewrite take_app_length, drop_app_length. by rewrite reverse_involutive.
  - destruct W1 as [W1 W2]. split; simpl; [done|].
    rewrite length_app, length_reverse, <-length_app, take_drop. done.
  - done.
  - by destruct s'.
Qed.

Lemma size_writes z :
  host_order = LittleEndian -> writes (write_size z) (le_encode 4 z).
Proof.
  intros E s Hs. unfold write_size, to_little_endian. rewrite getByteSequence_host, E.
  change (take 4 (mem_encode LittleEndian 8 z)) with (le_encode 4 z).
  destruct (write_writes (le_encode 4 z) s Hs) as (s' & E1 & Ha).
  rewrite (bind_ok _ _ _ _ _ E1). eauto.
Qed.
End Writing.

(** ** Reading *)
Section Reading.
Context {S : Type} {B : ByteSource S} {L : ByteSourceLaws S}.

(** The unread bytes of [s] are [l]. *)
Definition at_bytes (l : bytes) (s : S) : Prop :=
  0 <= src_pos s /\ src_size s = Z.of_nat (length (src_data s)) /\ src_size s < 2 ^ 64
  /\ src_pos s <= src_size s /\ drop (Z.to_nat (src_pos s)) (src_data s) = l.

Definition skip (n : Z) (s : S) : S := src_seek (src_pos s + n) s.

Lemma skip_skip m n s : skip n (skip m s) = skip (m + n) s.
Proof. unfold skip. rewrite seek_seek, seek_pos. f_equal. lia. Qed.

Lemma skip_0 s : skip 0 s = s.
Proof. unfold skip. rewrite Z.add_0_r. apply seek_id. Qed.

Lemma seek_skip n s : src_seek (src_pos s) (skip n s) = s.
Proof. unfold skip. by rewrite seek_seek, seek_id. Qed.

Lemma at_bytes_length l s :
  at_bytes l s -> Z.of_nat (length l) = src_size s - src_pos s.
Proof. intros (H0 & H1 & _ & H2 & <-). rewrite length_drop. lia. Qed.

Lemma at_bytes_skip l1 l2 s :
  at_bytes (l1 ++ l2) s -> at_bytes l2 (skip (Z.of_nat (length l1)) s).
Proof.
  intros Ha. pose proof (at_bytes_length _ _ Ha) as HL.
  destruct Ha as (H0 & H1 & H2 & H3 & H4). unfold skip.
  rewrite length_app in HL. unfold at_bytes.
  rewrite seek_pos, seek_size, seek_data. repeat split; try lia.
  rewrite Z2Nat.inj_add, Nat2Z.id, <-drop_drop, H4 by lia. apply drop_app_length.
Qed.

Lemma at_bytes_cons b l s : at_bytes (b :: l) s -> at_bytes l (skip 1 s).
Proof. apply (at_bytes_skip [b]). Qed.

Lemma advance_eq n s : advance n s = (Ok tt, skip n s).
Proof. done. Qed.

Lemma peek_at n l1 l2 s :
  at_bytes (l1 ++ l2) s -> length l1 = n -> peek n s = (Ok l1, s).
Proof.
  intros Ha <-. pose proof (at_bytes_length _ _ Ha) as HL. rewrite length_app in HL.
  destruct Ha as (H0 & H1 & H2 & H3 & H4). unfold peek.
  rewrite decide_True by lia. by rewrite H4, take_app_length.
Qed.

Lemma remaining_at l s : at_bytes l s -> remaining s = (Ok (Z.of_nat (length l)), s).
Proof.
  intros Ha. unfold remaining. rewrite <-(at_bytes_length _ _ Ha).
  destruct Ha as (H0 & H1 & H2 & H3 & <-). rewrite wrap_small; [done|].
  unfold is_uint. rewrite length_drop. lia.
Qed.

Lemma prevent_boundary_at b l s : at_bytes (b :: l) s -> prevent_boundary s = (Ok tt, s).
Proof.
  intros Ha. pose proof (at_bytes_length _ _ Ha) as HL. simpl in HL.
  destruct Ha as (H0 & H1 & H2 & H3 & _). unfold prevent_boundary.
  unfold mbind, R_bind, getReadPosition, byteCount.
  rewrite wrap_small by (unfold is_uint; lia).
  by rewrite (proj2 (Z.eqb_neq _ _)) by lia.
Qed.

Lemma check_tag_at t l s : at_bytes (tag_byte t :: l) s -> check_tag t s = (Ok tt, s).
Proof.
  intros Ha. unfold check_tag.
  erewrite bind_ok by (by apply (peek_at 1 [tag_byte t] l)).
  by rewrite decide_True.
Qed.

Context {h : Host}.

Lemma from_stream_decode n l :
  length l = n -> bytes_ok l -> from_stream n (mem_decode host_order l) = le_decode l.
Proof.
  intros Hl Hok. unfold from_stream. rewrite getByteSequence_host.
  destruct host_order; simpl; [|done].
  subst n. rewrite reverse_involutive.
  rewrite <-(length_reverse l), le_encode_decode by (by apply bytes_ok_reverse).
  by rewrite reverse_involutive.
Qed.

Lemma peek_uint_at n z rest s :
  at_bytes (le_encode n z ++ rest) s -> is_uint (8 * Z.of_nat n) z ->
  peek_uint n s = (Ok z, s).
Proof.
  intros Ha Hz. unfold peek_uint.
  erewrite bind_ok by (apply (peek_at n _ rest); [done | apply le_encode_length]).
  unfold mret, R_ret.
  rewrite from_stream_decode by (apply le_encode_length || apply le_encode_ok).
  by rewrite le_decode_encode, wrap_small.
Qed.
End Reading.

(** ** The promise of an overload pair *)

(** Reading [m] at bytes [l] gives [v] and moves behind [l]. *)
Definition reads {S} `{ByteSource S} {A} (m : R S A) (l : bytes) (v : A) : Prop :=
  forall rest s, at_bytes (l ++ rest) s -> m s = (Ok v, skip (Z.of_nat (length l)) s).

Class SerializerLaws (A : Type) `{Serializable A} := {
  ser_wf : A -> Prop;                 (** the values the overload accepts *)
  ser_old : A -> Prop;                (** the objects a reference may hold before reading *)
  encode : A -> bytes;                (** the wire format *)
  default_old : ser_old default_value;
  wf_old v : ser_wf v -> ser_old v;
  input_writes v : ser_wf v -> writes (input v) (encode v);
  output_reads {S} `{ByteSourceLaws S} old v :
    ser_wf v -> ser_old old -> reads (output (S := S) old) (encode v) v;
}.

Class PackLaws (A : Type) `{ArgPack A} := {
  pack_wf : A -> Prop;
  pack_old : A -> Prop;
  encode_pack : A -> bytes;
  default_pack_old : pack_old default_pack;
  wf_pack_old v : pack_wf v -> pack_old v;
  inputArgs_writes v : pack_wf v -> writes (inputArgs v) (encode_pack v);
  outputArgs_reads {S} `{ByteSourceLaws S} old v :
    pack_wf v -> pack_old old -> reads (outputArgs (S := S) old) (encode_pack v) v;
}.

Section Reads.
Context {S : Type} {B : ByteSource S} {L : ByteSourceLaws S}.

Lemma reads_ret {A} (v : A) : reads (S := S) (mret v) [] v.
Proof. intros rest s _. by rewrite skip_0. Qed.

Lemma reads_bind {A C} (m : R S A) (k : A -> R S C) l1 l2 v w :
  reads m l1 v -> reads (k v) l2 w -> reads (m ≫= k) (l1 ++ l2) w.
Proof.
  intros Hm Hk rest s Ha. rewrite <-app_assoc in Ha.
  erewrite bind_ok by (by eapply Hm). rewrite (Hk rest).
  - by rewrite skip_skip, length_app, Nat2Z.inj_add.
  - by apply at_bytes_skip.
Qed.

Lemma reads_map {A C} (m : R S A) (f : A -> C) l v :
  reads m l v -> reads (x ← m; mret (f x)) l (f v).
Proof. intros Hm. rewrite <-(app_nil_r l). eapply reads_bind; [done|apply reads_ret]. Qed.

Lemma reads_on_exception {A} (m : R S A) f l v : reads m l v -> reads (on_exception m f) l v.
Proof. intros Hm rest s Ha. unfold on_exception. by rewrite (Hm rest s Ha). Qed.

Lemma reads_advance l : reads (S := S) (advance (Z.of_nat (length l))) l tt.
Proof. by intros rest s _. Qed.

End Reads.

Section Prefixes.
Context {h : Host} {S : Type} {B : ByteSource S} {L : ByteSourceLaws S}.

Lemma check_legitimacy_at t n l rest s :
  at_bytes (tag_byte t :: l ++ rest) s -> length l = n -> check_legitimacy t n s = (Ok tt, s).
Proof.
  intros Ha Hl. unfold check_legitimacy.
  erewrite bind_ok by (by eapply remaining_at).
  rewrite (proj2 (Z.ltb_ge _ _)); [by eapply check_tag_at|].
  simpl. rewrite length_app. lia.
Qed.

Lemma read_count_at t n max e count rest s :
  at_bytes (tag_byte t :: le_encode n count ++ rest) s ->
  is_uint (8 * Z.of_nat n) count -> count <= max ->
  read_count t n max e s = (Ok (src_pos s, count), skip 1 s).
Proof.
  intros Ha Hc Hm. unfold read_count.
  erewrite bind_ok by (by eapply prevent_boundary_at).
  erewrite bind_ok by (by eapply check_tag_at).
  erewrite bind_ok by reflexivity.
  erewrite bind_ok by (apply advance_eq).
  apply at_bytes_cons in Ha.
  erewrite bind_ok by (by eapply remaining_at).
  rewrite (proj2 (Z.ltb_ge _ _)) by len.
  erewrite bind_ok by (by eapply peek_uint_at).
  by rewrite (proj2 (Z.ltb_ge _ _)) by lia.
Qed.

(** What follows a length prefix of [n] bytes. *)
Lemma read_count_reads t n max e count {A} (k : Z * Z -> R S A) l v :
  is_uint (8 * Z.of_nat n) count -> count <= max ->
  (forall p rest s, p = src_pos s - 1 -> 0 <= p -> at_bytes (le_encode n count ++ l ++ rest) s ->
    k (p, count) s = (Ok v, skip (Z.of_nat (n + length l)) s)) ->
  reads (read_count t n max e ≫= k) (tag_byte t :: le_encode n count ++ l) v.
Proof.
  intros Hc Hm Hk rest s Ha. simpl in Ha. rewrite <-app_assoc in Ha.
  erewrite bind_ok by (by eapply read_count_at).
  rewrite (Hk _ rest).
  - rewrite skip_skip. f_equal. f_equal. len.
  - unfold skip. rewrite seek_pos. lia.
  - by destruct Ha.
  - by eapply at_bytes_cons.
Qed.

Lemma read_elements_reads {A} (body : R S A) count l v p rest s :
  reads body l v -> at_bytes (le_encode 4 count ++ l ++ rest) s ->
  read_elements p body s = (Ok v, skip (Z.of_nat (4 + length l)) s).
Proof.
  intros Hb Ha. unfold read_elements. erewrite bind_ok by (apply advance_eq).
  apply at_bytes_skip in Ha. rewrite le_encode_length in Ha. change (Z.of_nat 4) with 4 in Ha.
  rewrite (reads_on_exception _ _ _ _ Hb _ _ Ha). rewrite skip_skip. f_equal. f_equal. lia.
Qed.

Lemma read_payload_at p l rest s :
  p = src_pos s - 1 -> 0 <= p -> at_bytes (le_encode 4 (Z.of_nat (length l)) ++ l ++ rest) s ->
  read_payload p (Z.of_nat (length l)) s = (Ok l, skip (Z.of_nat (4 + length l)) s).
Proof.
  intros -> H0 Ha. unfold read_payload. erewrite bind_ok by (apply advance_eq).
  pose proof (at_bytes_length _ _ Ha) as HL.
  assert (src_size s < 2 ^ 64 /\ src_pos s <= src_size s) as [H64 Hp] by (destruct Ha; tauto).
  apply at_bytes_skip in Ha. rewrite le_encode_length in Ha. change (Z.of_nat 4) with 4 in Ha.
  erewrite bind_ok by reflexivity. unfold skip at 1. rewrite seek_size.
  rewrite wrap_small by (unfold is_uint; lia).
  rewrite (proj2 (Z.ltb_ge _ _)) by len.
  rewrite Nat2Z.id. erewrite bind_ok by (by eapply peek_at).
  erewrite bind_ok by (apply advance_eq). unfold mret, R_ret. rewrite skip_skip.
  do 3 f_equal. lia.
Qed.
End Prefixes.

(** The container overloads write four of the eight bytes of a [size_t] count:
    their promise is for a little-endian host. *)
Class LittleEndianHost {h : Host} : Prop := host_little : host_order = LittleEndian.

(** ** The overloads keep the promise *)
#[local] Obligation Tactic := try done.

Section Scalars.
Context {h : Host}.

Lemma single_writes t b : writes (_ ← write_tag t; write [b]) [tag_byte t; b].
Proof. apply (writes_bind _ _ [_] [_]); apply write_writes. Qed.

Lemma next_byte_at {S} `{ByteSourceLaws S} t b rest (s : S) :
  at_bytes (tag_byte t :: b :: rest) s -> next_byte s = (Ok b, skip 2 s).
Proof.
  intros Ha. unfold next_byte. erewrite bind_ok by (apply advance_eq).
  apply at_bytes_cons in Ha. erewrite bind_ok by (by apply (peek_at 1 [b] rest)).
  erewrite bind_ok by (apply advance_eq). by rewrite skip_skip.
Qed.

Lemma byte_reads {S} `{ByteSourceLaws S} {A} t b (f : Z -> A) :
  reads (S := S) (_ ← check_legitimacy t 1; b ← next_byte; mret (f b)) [tag_byte t; b] (f b).
Proof.
  intros rest s Ha. simpl in Ha.
  erewrite bind_ok by (by apply (check_legitimacy_at t 1 [b] rest)).
  by erewrite bind_ok by (by eapply next_byte_at).
Qed.

#[export] Program Instance bool_laws : SerializerLaws bool := {|
  ser_wf _ := True; ser_old _ := True;
  encode v := [tag_byte BOOL; if v then 1 else 0];
|}.
Next Obligation. intros v _. apply single_writes. Qed.
Next Obligation.
  intros S B ? old v _ _. destruct v.
  - apply (byte_reads BOOL 1 (fun b => negb (b =? 0))).
  - apply (byte_reads BOOL 0 (fun b => negb (b =? 0))).
Qed.

#[export] Program Instance char_laws : SerializerLaws cchar := {|
  ser_wf _ := True; ser_old _ := True; encode v := [tag_byte CHAR; cchar_byte v];
|}.
Next Obligation. intros v _. apply single_writes. Qed.
Next Obligation. intros S B ? old [b] _ _. apply (byte_reads CHAR b CChar). Qed.

#[export] Program Instance uchar_laws : SerializerLaws uchar := {|
  ser_wf _ := True; ser_old _ := True; encode v := [tag_byte UINT8; uchar_val v];
|}.
Next Obligation. intros v _. apply single_writes. Qed.
Next Obligation. intros S B ? old [b] _ _. apply (byte_reads UINT8 b UChar). Qed.

(** The values of the type. *)
Definition num_wf {k} (v : num k) : Prop := scalar_value k (num_val v) = num_val v.

Lemma scalar_value_wrap k z : scalar_value k (wrap (scalar_bits k) z) = scalar_value k z.
Proof.
  unfold scalar_value, swrap, scalar_bits. rewrite wrap_wrap by lia. done.
Qed.

#[export] Program Instance num_laws k : SerializerLaws (num k) := {|
  ser_wf := num_wf; ser_old _ := True;
  encode v := tag_byte (scalar_tag k) :: le_encode (scalar_size k) (num_val v);
|}.
Next Obligation.
  intros k v _. apply (writes_bind _ _ [_]); [apply write_writes|apply swapped_writes].
Qed.
Next Obligation.
  intros k S B ? old v Hv _ rest s Ha. unfold output; simpl; unfold output_num.
  erewrite bind_ok by (eapply check_legitimacy_at; [done|apply le_encode_length]).
  erewrite bind_ok by (apply advance_eq). apply at_bytes_cons in Ha.
  rewrite <-le_encode_wrap in Ha.
  erewrite bind_ok by (by eapply peek_uint_at; [done|apply wrap_range; lia]).
  erewrite bind_ok by (apply advance_eq).
  unfold mret, R_ret. change (8 * Z.of_nat (scalar_size k)) with (scalar_bits k).
  rewrite scalar_value_wrap, Hv, skip_skip, le_encode_length. destruct v.
  do 2 f_equal. lia.
Qed.
End Scalars.

Section Payloads.
Context {h : Host}.

Lemma len_u32 n max : n <= max -> 0 <= n -> max < 2 ^ 32 -> u32 n = n /\ is_uint 32 n.
Proof. intros. split; [apply wrap_small|]; unfold is_uint; lia. Qed.

(** [input] and [output] of a length-prefixed block of bytes. *)
Lemma payload_writes t l :
  writes (_ ← write_tag t; _ ← write_uint32 (Z.of_nat (length l)); write l)
    (tag_byte t :: le_encode 4 (Z.of_nat (length l)) ++ l).
Proof.
  apply (writes_bind _ _ [_]); [apply write_writes|].
  apply writes_bind; [apply swapped_writes|apply write_writes].
Qed.

Lemma payload_reads {S} `{ByteSourceLaws S} t max e l (k : Z -> Z -> R S bytes) :
  Z.of_nat (length l) <= max -> max < 2 ^ 32 ->
  (forall p, k p (Z.of_nat (length l)) = read_payload p (Z.of_nat (length l))) ->
  reads (S := S) ('(p, n) ← read_count t 4 max e; k p n)
    (tag_byte t :: le_encode 4 (Z.of_nat (length l)) ++ l) l.
Proof.
  intros Hl Hm Hk. apply read_count_reads; [unfold is_uint; simpl; lia|done|].
  intros p rest s Hp H0 Ha. rewrite Hk. by eapply read_payload_at.
Qed.

#[export] Program Instance string_laws : SerializerLaws cstring := {|
  ser_wf v := Z.of_nat (length (str_bytes v)) <= MUSE_MAX_STRING_LENGTH; ser_old _ := True;
  encode v := tag_byte STRING :: le_encode 4 (Z.of_nat (length (str_bytes v))) ++ str_bytes v;
|}.
Next Obligation.
  intros [l] Hl. simpl in *. unfold input_string. simpl.
  rewrite (wrap_small 32) by (unfold is_uint, MUSE_MAX_STRING_LENGTH in *; lia).
  rewrite (proj2 (Z.ltb_ge _ _)) by lia. rewrite Nat2Z.id, firstn_all. apply payload_writes.
Qed.
Next Obligation.
  intros S B ? old [l] Hl _ rest s Ha. simpl in *. unfold output_string.
  pose proof (payload_reads STRING MUSE_MAX_STRING_LENGTH IllegalStringLength l read_payload
    Hl eq_refl (fun _ => eq_refl) rest s Ha) as E.
  unfold mbind, R_bind in *. destruct (read_count _ _ _ _ s) as [[[p n]|e] s']; [|done].
  by rewrite E.
Qed.

(** [char] and [unsigned char] buffers *)
Definition encode_buffer (t : BinaryDataType) (l : bytes) : bytes :=
  tag_byte t :: le_encode 4 (Z.of_nat (length l)) ++ l.

Lemma buffer_writes t l :
  Z.of_nat (length l) <= MUSE_MAX_BYTE_COUNT -> writes (input_buffer t l) (encode_buffer t l).
Proof.
  intros Hl. unfold input_buffer. rewrite (proj2 (Z.ltb_ge _ _)) by lia. apply payload_writes.
Qed.

Lemma buffer_reads {S} `{ByteSourceLaws S} t l :
  Z.of_nat (length l) <= MUSE_MAX_BYTE_COUNT ->
  reads (S := S) (output_buffer t (Z.of_nat (length l))) (encode_buffer t l) l.
Proof.
  intros Hl. apply (payload_reads t _ _ _ (fun p n => if negb (n =? Z.of_nat (length l)) then
    throw ReadIllegalBytesCount else read_payload p n)); [done..|].
  intros p. by rewrite Z.eqb_refl.
Qed.
End Payloads.

(** *** Sequences *)
Section Sequences.
Context {h : Host} {A : Type} {SA : Serializable A} {LA : SerializerLaws A}.

Definition encode_all (l : list A) : bytes := concat (map encode l).

(** An element a container can hold: accepted, and unchanged by copying. *)
Definition elem_wf (x : A) : Prop := ser_wf x /\ copy_ctor x = x.

Lemma input_all_writes l : Forall ser_wf l -> writes (input_all l) (encode_all l).
Proof.
  induction 1; [apply writes_ret|]. apply writes_bind; [by apply input_writes|done].
Qed.

(** What is read into a container are the copies of the elements. *)
Lemma output_all_reads_copies {S} `{ByteSourceLaws S} l :
  Forall ser_wf l -> reads (S := S) (output_all (length l)) (encode_all l) (map copy_ctor l).
Proof.
  induction 1 as [|x l Hx Hl IH]; [apply reads_ret|].
  eapply reads_bind; [apply output_reads; [done|apply default_old]|].
  by apply (reads_map _ (cons (copy_ctor x))).
Qed.

Lemma elem_wf_wf l : Forall elem_wf l -> Forall ser_wf l.
Proof. intros Hl. eapply Forall_impl; [exact Hl|]. by intros x []. Qed.

Lemma map_copy_id l : Forall elem_wf l -> map copy_ctor l = l.
Proof. induction 1 as [|x l [_ Hx] _ IH]; simpl; congruence. Qed.

Lemma output_all_reads {S} `{ByteSourceLaws S} l :
  Forall elem_wf l -> reads (S := S) (output_all (length l)) (encode_all l) l.
Proof.
  intros Hl. rewrite <-(map_copy_id l) at 3 by done. by apply output_all_reads_copies, elem_wf_wf.
Qed.

Lemma output_in_place_reads {S} `{ByteSourceLaws S} done todo l :
  Forall ser_wf l -> Forall ser_old todo -> length todo = length l ->
  reads (S := S) (output_in_place (done ++ todo) (length done) (length l)) (encode_all l) (done ++ l).
Proof.
  intros Hl. revert done todo. induction Hl as [|x l Hx Hl IH]; intros done [|y todo] Ho Hlen;
    try discriminate.
  { apply reads_ret. }
  cbn [length output_in_place]. rewrite list_lookup_middle by done.
  inversion Ho; subst. eapply reads_bind; [by apply output_reads|].
  rewrite insert_app_r_alt, Nat.sub_diag by done. simpl.
  specialize (IH (done ++ [x]) todo). rewrite <-!app_assoc, length_app, Nat.add_1_r in IH.
  apply IH; auto.
Qed.

Definition encode_counted (t : BinaryDataType) (n : nat) (body : bytes) : bytes :=
  tag_byte t :: le_encode 4 (Z.of_nat n) ++ body.

Lemma counted_writes {HL : LittleEndianHost} t n m body :
  writes m body ->
  writes (_ ← write_tag t; _ ← write_size (Z.of_nat n); m) (encode_counted t n body).
Proof.
  intros Hm. apply (writes_bind _ _ [_]); [apply write_writes|].
  apply writes_bind; [apply size_writes, host_little|done].
Qed.

Lemma counted_reads {S} `{ByteSourceLaws S} {C} t n e (k : Z -> R S C) body v :
  Z.of_nat n <= MUSE_MAX_COUNT -> reads (k (Z.of_nat n)) body v ->
  reads (S := S) ('(p, count) ← read_count t 4 MUSE_MAX_COUNT e; read_elements p (k count))
    (encode_counted t n body) v.
Proof.
  intros Hn Hk. apply read_count_reads; [unfold is_uint, MUSE_MAX_COUNT in *; simpl; lia|done|].
  intros p rest s Hp _ Ha. by eapply read_elements_reads.
Qed.
End Sequences.

Section SequenceLaws.
Context {h : Host} {HL : LittleEndianHost} {A : Type} {SA : Serializable A} {LA : SerializerLaws A}.

Definition seq_wf (l : list A) : Prop :=
  Z.of_nat (length l) <= MUSE_MAX_COUNT /\ Forall elem_wf l.

#[export] Program Instance vector_laws : SerializerLaws (list A) := {|
  ser_wf := seq_wf; ser_old _ := True;
  encode l := encode_counted VECTOR (length l) (encode_all l);
|}.
Next Obligation.
  intros l [Hn Hl]. unfold input; simpl. unfold input_vector.
  rewrite (proj2 (Z.ltb_ge _ _)) by done. by apply counted_writes, input_all_writes, elem_wf_wf.
Qed.
Next Obligation.
  intros S B ? old l [Hn Hl] _.
  apply (counted_reads _ _ _ (fun n => output_all (Z.to_nat n))); [done|].
  rewrite Nat2Z.id. by apply output_all_reads.
Qed.

#[export] Program Instance list_laws : SerializerLaws (clist A) := {|
  ser_wf l := seq_wf (clist_elems l); ser_old _ := True;
  encode l := encode_counted LIST (length (clist_elems l)) (encode_all (clist_elems l));
|}.
Next Obligation.
  intros [l] [Hn Hl]. unfold input; simpl in *. unfold input_list. simpl.
  rewrite (proj2 (Z.ltb_ge _ _)) by done. by apply counted_writes, input_all_writes, elem_wf_wf.
Qed.
Next Obligation.
  intros S B ? old [l] [Hn Hl] _ rest s Ha. unfold output; simpl in *. unfold output_list.
  eapply (counted_reads LIST _ IllegalListCount (fun n => output_all (Z.to_nat n))) in Ha as E;
    [|done|rewrite Nat2Z.id; by apply output_all_reads].
  unfold mbind, R_bind in *. destruct (read_count _ _ _ _ s) as [[[p n]|e] s']; [|done].
  by rewrite E.
Qed.

#[export] Program Instance array_laws {N} : SerializerLaws (arr N A) := {|
  ser_wf l := length (arr_elems l) = N /\ Z.of_nat N <= MUSE_MAX_COUNT /\ Forall ser_wf (arr_elems l);
  ser_old l := length (arr_elems l) = N /\ Forall ser_old (arr_elems l);
  encode l := encode_counted ARRAY N (encode_all (arr_elems l));
|}.
Next Obligation.
  intros N. simpl. split; [apply length_replicate|]. apply Forall_replicate, default_old.
Qed.
Next Obligation.
  intros N l [Hn [_ Hl]]. split; [done|]. by eapply Forall_impl; [|apply wf_old].
Qed.
Next Obligation.
  intros N [l] [Hn [Hm Hl]]. unfold input; simpl in *. unfold input_array.
  rewrite (wrap_small 32) by (unfold is_uint, MUSE_MAX_COUNT in *; lia).
  apply (writes_bind _ _ [_]); [apply write_writes|].
  apply writes_bind; [apply swapped_writes|by apply input_all_writes].
Qed.
Next Obligation.
  intros N S B ? [old] [l] [Hn [Hm Hl]] [Ho1 Ho2] rest s Ha. unfold output; simpl in *.
  unfold output_array. simpl. rewrite <-Hn in *.
  eapply (counted_reads ARRAY _ IllegalVectorCount
    (fun n => output_in_place old 0 (Z.to_nat n))) in Ha as E;
    [|done|rewrite Nat2Z.id; by apply (output_in_place_reads [] old l)].
  unfold mbind, R_bind in *. destruct (read_count _ _ _ _ s) as [[[p n]|e] s']; [|done].
  by rewrite E.
Qed.
End SequenceLaws.

(** *** Maps and sets *)
Section MapLaws.
Context {h : Host} {K V : Type} `{Countable K} {SK : Serializable K} {SV : Serializable V}
  {LK : SerializerLaws K} {LV : SerializerLaws V}.

Definition encode_pairs (l : list (K * V)) : bytes :=
  concat (map (fun kv => encode kv.1 ++ encode kv.2) l).

Definition entry_wf (kv : K * V) : Prop := elem_wf kv.1 /\ elem_wf kv.2.

Lemma input_pairs_writes l : Forall entry_wf l -> writes (input_pairs l) (encode_pairs l).
Proof.
  induction 1 as [|[k v] l [[Hk _] [Hv _]] Hl IH]; [apply writes_ret|].
  cbn [input_pairs encode_pairs map concat]. rewrite <-app_assoc.
  apply writes_bind; [by apply input_writes|].
  apply writes_bind; [by apply input_writes|done].
Qed.

Definition insert_entry (m : gmap K V) (kv : K * V) : gmap K V := <[kv.1 := kv.2]> m.

Lemma output_pairs_reads {S} `{ByteSourceLaws S} l (m : gmap K V) :
  Forall entry_wf l ->
  reads (S := S) (output_pairs (length l) m) (encode_pairs l)
    (foldl insert_entry m l).
Proof.
  intros Hl. revert m. induction Hl as [|[k v] l [[Hk Ck] [Hv Cv]] Hl IH]; intros m; [apply reads_ret|].
  simpl in Ck, Cv.
  cbn [output_pairs length encode_pairs map concat foldl]. rewrite <-app_assoc.
  eapply reads_bind; [apply output_reads; [done|apply default_old]|].
  eapply reads_bind; [apply output_reads; [done|apply default_old]|].
  cbn [fst snd]. rewrite Ck, Cv. apply IH.
Qed.

(** Inserting the entries of a map one by one, in any order, rebuilds it. *)
Lemma foldl_insert_perm (l : list (K * V)) (m : gmap K V) :
  Permutation l (map_to_list m) -> foldl insert_entry ∅ l = m.
Proof.
  intros Hp.
  assert (foldl insert_entry ∅ l
    = list_to_map (reverse l)) as ->.
  { rewrite <-(reverse_involutive l) at 1. induction (reverse l) as [|[k v] r IH]; [done|].
    rewrite reverse_cons, foldl_app. simpl. by rewrite IH. }
  rewrite <-(list_to_map_to_list m). apply list_to_map_proper.
  - rewrite reverse_Permutation, Hp. apply NoDup_fst_map_to_list.
  - by rewrite reverse_Permutation.
Qed.

Definition map_wf (m : gmap K V) : Prop :=
  Z.of_nat (size m) <= MUSE_MAX_COUNT /\ Forall entry_wf (map_to_list m).

Lemma perm_entries (l : list (K * V)) (m : gmap K V) :
  Permutation l (map_to_list m) -> map_wf m ->
  Forall entry_wf l /\ length l = size m.
Proof.
  intros Hp [_ Hw]. split; [by rewrite Hp|]. by rewrite Hp, length_map_to_list.
Qed.

Lemma pairs_reads {S} `{ByteSourceLaws S} t e l m :
  Permutation l (map_to_list m) -> map_wf m ->
  reads (S := S) ('(p, n) ← read_count t 4 MUSE_MAX_COUNT e;
    read_elements p (output_pairs (Z.to_nat n) ∅)) (encode_counted t (size m) (encode_pairs l)) m.
Proof.
  intros Hp Hw. destruct (perm_entries l m Hp Hw) as [Hl <-].
  apply (counted_reads _ _ _ (fun n => output_pairs (Z.to_nat n) ∅)).
  - destruct Hw. by rewrite Hp, length_map_to_list.
  - rewrite Nat2Z.id. rewrite <-(foldl_insert_perm l m Hp). by apply output_pairs_reads.
Qed.
End MapLaws.

Lemma map_entries_perm {K V} `{Countable K, KeyOrder K} (m : gmap K V) :
  Permutation (map_entries m) (map_to_list m).
Proof. apply merge_sort_Permutation. Qed.

Lemma set_members_perm {K} `{Countable K, KeyOrder K} (s : gset K) :
  Permutation (set_members s) (elements s).
Proof. apply merge_sort_Permutation. Qed.

Section MapInstances.
Context {h : Host} {HL : LittleEndianHost} {K V : Type} `{Countable K}
  {SK : Serializable K} {SV : Serializable V} {LK : SerializerLaws K} {LV : SerializerLaws V}.

#[export] Program Instance map_laws {KO : KeyOrder K} : SerializerLaws (gmap K V) := {|
  ser_wf := map_wf; ser_old _ := True;
  encode m := encode_counted MAP (size m) (encode_pairs (map_entries m));
|}.
Next Obligation.
  intros KO m Hw. unfold input; simpl. unfold input_map.
  rewrite (proj2 (Z.ltb_ge _ _)) by apply Hw. apply counted_writes, input_pairs_writes.
  by apply (perm_entries _ m); [apply map_entries_perm|].
Qed.
Next Obligation.
  intros KO S B ? old m Hw _. apply pairs_reads; [apply map_entries_perm|done].
Qed.

#[export] Program Instance unordered_map_laws {HO : HashOrder K V} : SerializerLaws (hmap K V) := {|
  ser_wf m := map_wf (hmap_map m); ser_old _ := True;
  encode m := encode_counted HASHMAP (size (hmap_map m)) (encode_pairs (hash_entries (hmap_map m)));
|}.
Next Obligation.
  intros HO [m] Hw. unfold input; simpl in *. unfold input_unordered_map. simpl.
  rewrite (proj2 (Z.ltb_ge _ _)) by apply Hw. apply counted_writes, input_pairs_writes.
  by apply (perm_entries _ m); [apply hash_entries_perm|].
Qed.
Next Obligation.
  intros HO S B ? old [m] Hw _ rest s Ha. unfold output; simpl in *. unfold output_unordered_map.
  eapply (pairs_reads HASHMAP IllegalHashMapKVCount) in Ha as E; [|apply hash_entries_perm|done].
  unfold mbind, R_bind in *. destruct (read_count _ _ _ _ s) as [[[p n]|e] s']; [|done].
  by rewrite E.
Qed.

Definition set_wf (s : gset K) : Prop :=
  Z.of_nat (size s) <= MUSE_MAX_COUNT /\ Forall elem_wf (elements s).

Lemma output_members_reads {S} `{ByteSourceLaws S} l (s : gset K) :
  Forall elem_wf l ->
  reads (S := S) (output_members (length l) s) (encode_all l) (s ∪ list_to_set l).
Proof.
  intros Hl. revert s. induction Hl as [|k l [Hk Ck] Hl IH]; intros s.
  { simpl. rewrite union_empty_r_L. apply reads_ret. }
  cbn [output_members length]. eapply reads_bind; [apply output_reads; [done|apply default_old]|].
  replace (s ∪ list_to_set (k :: l)) with (({[k]} ∪ s) ∪ list_to_set l) by set_solver.
  cbv beta. rewrite Ck. apply IH.
Qed.

#[export] Program Instance set_laws {KO : KeyOrder K} : SerializerLaws (gset K) := {|
  ser_wf := set_wf; ser_old _ := True;
  encode s := encode_counted SET (size s) (encode_all (set_members s));
|}.
Next Obligation.
  intros KO s [Hn Hw]. unfold input; simpl. unfold input_set.
  rewrite (proj2 (Z.ltb_ge _ _)) by done. apply counted_writes, input_all_writes, elem_wf_wf.
  by rewrite set_members_perm.
Qed.
Next Obligation.
  intros KO S B ? old s [Hn Hw] _.
  apply (counted_reads _ _ _ (fun n => output_members (Z.to_nat n) ∅)); [done|].
  rewrite Nat2Z.id. change (size s) with (length (elements s)).
  rewrite <-(Permutation_length (set_members_perm s)).
  assert (s = ∅ ∪ list_to_set (set_members s)) as E.
  { apply set_eq. intros x. rewrite elem_of_union, elem_of_list_to_set, set_members_perm.
    set_solver. }
  rewrite E at 3. apply output_members_reads. by rewrite set_members_perm.
Qed.
End MapInstances.

(** *** Packs, tuples and classes *)
#[export] Program Instance pack_nil_laws : PackLaws unit := {|
  pack_wf _ := True; pack_old _ := True; encode_pack _ := [];
|}.
Next Obligation. intros v _. apply writes_ret. Qed.
Next Obligation. intros S B ? old [] _ _. apply reads_ret. Qed.

#[export] Program Instance pack_cons_laws {A B} {SA : Serializable A} {PB : ArgPack B}
  {LA : SerializerLaws A} {LB : PackLaws B} : PackLaws (A * B) := {|
  pack_wf v := ser_wf v.1 /\ pack_wf v.2; pack_old v := ser_old v.1 /\ pack_old v.2;
  encode_pack v := encode v.1 ++ encode_pack v.2;
|}.
Next Obligation. intros. split; [apply default_old|apply default_pack_old]. Qed.
Next Obligation. intros A B ???? [a b] [Ha Hb]. split; [by apply wf_old|by apply wf_pack_old]. Qed.
Next Obligation.
  intros A B ???? [a b] [Ha Hb].
  apply writes_bind; [by apply input_writes|by apply inputArgs_writes].
Qed.
Next Obligation.
  intros A B ???? S BS ? [a0 b0] [a b] [Ha Hb] [Ha0 Hb0].
  eapply reads_bind; [by apply output_reads|].
  by apply (reads_map _ (pair a)), outputArgs_reads.
Qed.

Section Compounds.
Context {h : Host}.

#[export] Program Instance tuple_empty_laws : SerializerLaws (tuple unit) := {|
  ser_wf _ := True; ser_old _ := True; encode _ := [];
|}.
Next Obligation. intros v _. apply writes_ret. Qed.
Next Obligation. intros S B ? [[]] [[]] _ _. apply reads_ret. Qed.

Section Tuples.
Context {A : Type} {PA : ArgPack A} {LA : PackLaws A}.
Hypothesis count_ok : Z.of_nat (pack_count (A := A)) <= MUSE_MAX_TUPLE_COUNT.

Definition encode_tuple (v : A) : bytes :=
  tag_byte TUPLE :: le_encode 2 (Z.of_nat (pack_count (A := A))) ++ encode_pack v.

Lemma tuple_writes v : pack_wf v -> writes (input_tuple v) (encode_tuple v).
Proof.
  intros Hv. unfold input_tuple, MUSE_MAX_TUPLE_COUNT in *.
  rewrite (wrap_small 16) by (unfold is_uint; lia).
  rewrite (proj2 (Z.ltb_ge _ _)) by lia.
  apply (writes_bind _ _ [_]); [apply write_writes|].
  intros s Hs. destruct (writes_bind _ _ _ _ (swapped_writes 2 (Z.of_nat (pack_count (A := A))))
    (inputArgs_writes v Hv) s Hs) as (s' & E & Hs').
  exists s'. split; [|done]. rewrite <-E. unfold mbind, R_bind.
  by destruct (write _ s) as [[[]|e] s1].
Qed.

Lemma tuple_reads {S} `{ByteSourceLaws S} old v :
  pack_wf v -> pack_old old -> reads (S := S) (output_tuple old) (encode_tuple v) v.
Proof.
  intros Hv Ho. apply read_count_reads;
    [unfold is_uint, MUSE_MAX_TUPLE_COUNT in *; simpl; lia|done|].
  intros p rest s _ _ Ha. rewrite Z.eqb_refl. cbn [negb].
  erewrite bind_ok by (apply advance_eq). apply at_bytes_skip in Ha.
  rewrite le_encode_length in Ha. change (Z.of_nat 2) with 2 in Ha.
  rewrite (reads_on_exception _ _ _ _ (outputArgs_reads old v Hv Ho) _ _ Ha).
  rewrite skip_skip. do 2 f_equal. lia.
Qed.
End Tuples.

#[export] Program Instance tuple_laws {A B} {SA : Serializable A} {PB : ArgPack B}
  {LA : SerializerLaws A} {LB : PackLaws B} : SerializerLaws (tuple (A * B)) := {|
  ser_wf v := Z.of_nat (pack_count (A := A * B)) <= MUSE_MAX_TUPLE_COUNT /\ pack_wf (tuple_fields v);
  ser_old v := pack_old (tuple_fields v);
  encode v := encode_tuple (tuple_fields v);
|}.
Next Obligation. intros. apply (default_pack_old (A := A * B)). Qed.
Next Obligation. intros A B ???? [v] [_ Hv]. by apply (wf_pack_old (A := A * B)). Qed.
Next Obligation. intros A B ???? [v] [Hn Hv]. by apply tuple_writes. Qed.
Next Obligation.
  intros A B ???? S BS ? [old] [v] [Hn Hv] Ho.
  apply (reads_map (output_tuple old) Tuple). by apply tuple_reads.
Qed.

(** A class is its tag followed by its fields. *)
Lemma class_writes {A} `{ArgPack A} (v : A) l :
  writes (inputArgs v) l -> writes (muse_serialize v) (tag_byte MUSECLASS :: l).
Proof. intros Hv. apply (writes_bind _ _ [_]); [apply write_writes|done]. Qed.

Lemma class_reads {A} `{ArgPack A} {S} `{ByteSourceLaws S} (old v : A) l :
  reads (S := S) (outputArgs old) l v ->
  reads (S := S) (muse_deserialize old) (tag_byte MUSECLASS :: l) v.
Proof.
  intros Hv rest s Ha. unfold muse_deserialize.
  pose proof (prevent_boundary_at _ _ _ Ha) as Hp.
  assert (E : checkDataTypeRightForward MUSECLASS s = (Ok true, skip 1 s)).
  { unfold checkDataTypeRightForward. erewrite bind_ok by done.
    erewrite bind_ok by (by apply (peek_at 1 [_] _ _ Ha)).
    by rewrite decide_True by done. }
  unfold prevent_boundary, mbind, R_bind, getReadPosition, byteCount in *.
  destruct (u64 (src_pos s) =? src_size s); [done|]. rewrite E. simpl.
  apply at_bytes_cons in Ha. rewrite (Hv _ _ Ha).
  rewrite skip_skip. do 2 f_equal. lia.
Qed.

#[export] Program Instance class_laws {A} {PA : ArgPack A} {LA : PackLaws A}
  : SerializerLaws (museclass A) := {|
  ser_wf v := pack_wf (class_fields v); ser_old v := pack_old (class_fields v);
  encode v := tag_byte MUSECLASS :: encode_pack (class_fields v);
|}.
Next Obligation. intros. apply default_pack_old. Qed.
Next Obligation. intros A ?? [v] Hv. by apply wf_pack_old. Qed.
Next Obligation. intros A ?? [v] Hv. by apply class_writes, inputArgs_writes. Qed.
Next Obligation.
  intros A ?? S BS ? [old] [v] Hv Ho. apply (reads_map (muse_deserialize old) MuseClass).
  by apply class_reads, outputArgs_reads.
Qed.
End Compounds.

(** ** Classes with their own C++ type

    [to_fields] lists the members in the order of [MUSE_IBinarySerializable];
    [copy] is the copy constructor of the class. *)
Class MuseFields (A P : Type) `{ArgPack P} := {
  to_fields : A -> P;
  of_fields : P -> A;
  of_to_fields a : of_fields (to_fields a) = a;
  copy : A -> A;
}.

Section Fields.
Context {h : Host} {A P : Type} `{MuseFields A P}.

Definition ser_fields : Serializable A := {|
  input a := muse_serialize (to_fields a);
  output _ _ old := l ← muse_deserialize (to_fields old); mret (of_fields l);
  default_value := of_fields default_pack;
  copy_ctor := copy;
|}.

Context {LP : PackLaws P}.
Hypothesis to_default : pack_old (to_fields (of_fields default_pack)).

Program Definition fields_laws : @SerializerLaws A ser_fields := {|
  ser_wf a := pack_wf (to_fields a); ser_old a := pack_old (to_fields a);
  encode a := tag_byte MUSECLASS :: encode_pack (to_fields a);
|}.
Next Obligation. intros a Ha. by apply wf_pack_old. Qed.
Next Obligation. intros a Ha. by apply class_writes, inputArgs_writes. Qed.
Next Obligation.
  intros S BS ? old a Ha Ho. rewrite <-(of_to_fields a) at 2.
  apply (reads_map (muse_deserialize (to_fields old)) of_fields).
  by apply class_reads, outputArgs_reads.
Qed.
End Fields.
