(* ===== verification/SerializerTheorems.v ===== *)
(** * Theorems about the serializer

    The round trip of every type that the overloads can be put together for,
    through either reader, what the bytes depend on, which exceptions leave the
    read position where it was, and the inputs on which the code reads or writes
    outside its buffers. *)
From S2P Require Import Prelude Stream Serializer SerializerLaws.

(** A serializer or view placed at the first byte of [l]. *)
Lemma at_bytes_serializer (bs l : bytes) cap :
  Z.of_nat (length (bs ++ l)) < 2 ^ 64 ->
  at_bytes l {| byteStream := bs ++ l; capacity := cap; readPosition := Z.of_nat (length bs) |}.
Proof.
  intros Hl. rewrite length_app in Hl. repeat split; simpl; rewrite ?length_app; try lia.
  rewrite Nat2Z.id. apply drop_app_length.
Qed.

Lemma at_bytes_view (l : bytes) :
  Z.of_nat (length l) < 2 ^ 64 -> at_bytes l (View_new l (Z.of_nat (length l))).
Proof. intros. repeat split; simpl; lia. Qed.

Lemma reads_all {S} `{ByteSource S} {A} (m : R S A) l v s :
  reads m l v -> at_bytes l s -> m s = (Ok v, skip (Z.of_nat (length l)) s).
Proof. intros Hm Ha. apply (Hm []). by rewrite app_nil_r. Qed.

(** ** The types the overloads accept *)

(** Keys of maps and members of sets: integers and strings. *)
Inductive key_code := KInt16 | KInt32 | KInt64 | KUint16 | KUint32 | KUint64 | KString.
Definition key_type (k : key_code) : Type :=
  match k with
  | KInt16 => num S_int16 | KInt32 => num S_int32 | KInt64 => num S_int64
  | KUint16 => num S_uint16 | KUint32 => num S_uint32 | KUint64 => num S_uint64
  | KString => cstring
  end.

(** Types that are put together from those for which there is an overload. *)
Inductive wire_type :=
| WBool | WChar | WUChar | WNum (k : scalar) | WString
| WVector (t : wire_type) | WList (t : wire_type) | WArray (N : nat) (t : wire_type)
| WSet (k : key_code) | WMap (k : key_code) (t : wire_type) | WHashMap (k : key_code) (t : wire_type)
| WTuple (ts : wire_types) | WClass (ts : wire_types)
with wire_types := WNil | WCons (t : wire_type) (ts : wire_types).

Scheme wire_type_ind2 := Induction for wire_type Sort Prop
with wire_types_ind2 := Induction for wire_types Sort Prop.
Combined Scheme wire_types_mutind from wire_type_ind2, wire_types_ind2.

#[export] Instance key_eq_dec k : EqDecision (key_type k).
Proof. destruct k; apply _. Defined.
#[export] Instance key_countable k : Countable (key_type k).
Proof. destruct k; apply _. Defined.
#[export] Instance key_order k : KeyOrder (key_type k).
Proof. destruct k; apply _. Defined.

(** The C++ type of a code; a pack of fields is a nested pair. *)
Fixpoint denote (t : wire_type) : Type :=
  match t with
  | WBool => bool | WChar => cchar | WUChar => uchar | WNum k => num k | WString => cstring
  | WVector t => list (denote t)
  | WList t => clist (denote t)
  | WArray N t => arr N (denote t)
  | WSet k => gset (key_type k)
  | WMap k t => gmap (key_type k) (denote t)
  | WHashMap k t => hmap (key_type k) (denote t)
  | WTuple ts => tuple (denote_pack ts)
  | WClass ts => museclass (denote_pack ts)
  end
with denote_pack (ts : wire_types) : Type :=
  match ts with WNil => unit | WCons t ts => denote t * denote_pack ts end.

Section Universe.
Context {h : Host} {HO : forall k t, HashOrder (key_type k) (denote t)}.

#[export] Instance key_overload k : Serializable (key_type k) :=
  match k with
  | KInt16 => ser_num S_int16 | KInt32 => ser_num S_int32 | KInt64 => ser_num S_int64
  | KUint16 => ser_num S_uint16 | KUint32 => ser_num S_uint32 | KUint64 => ser_num S_uint64
  | KString => ser_string
  end.

(** The overload pair that is called for a type. *)
Fixpoint overload (t : wire_type) : Serializable (denote t) :=
  match t with
  | WBool => ser_bool | WChar => ser_char | WUChar => ser_uchar | WNum k => ser_num k | WString => ser_string
  | WVector t => @ser_vector _ _ (overload t)
  | WList t => @ser_list _ _ (overload t)
  | WArray N t => @ser_array _ N _ (overload t)
  | WSet k => @ser_set _ (key_type k) _ _ _ (key_overload k)
  | WMap k t => @ser_map _ (key_type k) _ _ _ _ (key_overload k) (overload t)
  | WHashMap k t => @ser_unordered_map _ (key_type k) _ _ _ _ (key_overload k) (overload t)
  | WTuple ts =>
      match ts with WNil => ser_tuple_empty | WCons t ts => @ser_tuple _ _ _ (overload t) (overload_pack ts) end
  | WClass ts => @ser_class _ (overload_pack ts)
  end
with overload_pack (ts : wire_types) : ArgPack (denote_pack ts) :=
  match ts with WNil => pack_nil | WCons t ts => @pack_cons _ _ (overload t) (overload_pack ts) end.

(** The values of a type that can be written: numbers in range, strings and containers
    within the limits. *)
Definition in_limit (n : nat) : bool := Z.of_nat n <=? MUSE_MAX_COUNT.
Definition num_accepted {k} (v : num k) : bool := scalar_value k (num_val v) =? num_val v.
Definition string_accepted (v : cstring) : bool := Z.of_nat (length (str_bytes v)) <=? MUSE_MAX_STRING_LENGTH.
Definition key_accepted (k : key_code) : key_type k -> bool :=
  match k with KString => string_accepted | _ => num_accepted end.

Fixpoint types_count (ts : wire_types) : nat := match ts with WNil => 0 | WCons _ ts => S (types_count ts) end.

Fixpoint accepted (t : wire_type) : denote t -> bool :=
  match t with
  | WBool | WChar | WUChar => fun _ => true
  | WNum k => num_accepted
  | WString => string_accepted
  | WVector t => fun l => in_limit (length l) && forallb (accepted t) l
  | WList t => fun l => in_limit (length (clist_elems l)) && forallb (accepted t) (clist_elems l)
  | WArray N t => fun a => (length (arr_elems a) =? N)%nat && in_limit N && forallb (accepted t) (arr_elems a)
  | WSet k => fun s => in_limit (size s) && forallb (key_accepted k) (elements s)
  | WMap k t => fun m =>
      in_limit (size m) && forallb (fun kv => key_accepted k kv.1 && accepted t kv.2) (map_to_list m)
  | WHashMap k t => fun m =>
      in_limit (size (hmap_map m)) && forallb (fun kv => key_accepted k kv.1 && accepted t kv.2) (map_to_list (hmap_map m))
  | WTuple ts => fun v => (Z.of_nat (types_count ts) <=? MUSE_MAX_TUPLE_COUNT) && accepted_pack ts (tuple_fields v)
  | WClass ts => fun v => accepted_pack ts (class_fields v)
  end
with accepted_pack (ts : wire_types) : denote_pack ts -> bool :=
  match ts with
  | WNil => fun _ => true
  | WCons t ts => fun v => accepted t v.1 && accepted_pack ts v.2
  end.

(** The objects that a reference can refer to: an array has its elements. *)
Fixpoint is_object (t : wire_type) : denote t -> bool :=
  match t with
  | WArray N t => fun a => (length (arr_elems a) =? N)%nat && forallb (is_object t) (arr_elems a)
  | WTuple ts => fun v => is_object_pack ts (tuple_fields v)
  | WClass ts => fun v => is_object_pack ts (class_fields v)
  | _ => fun _ => true
  end
with is_object_pack (ts : wire_types) : denote_pack ts -> bool :=
  match ts with
  | WNil => fun _ => true
  | WCons t ts => fun v => is_object t v.1 && is_object_pack ts v.2
  end.

(** ** Each overload keeps the promise *)
Context {HL : LittleEndianHost}.

Definition key_laws k : @SerializerLaws (key_type k) (key_overload k) :=
  match k with
  | KInt16 => num_laws S_int16 | KInt32 => num_laws S_int32 | KInt64 => num_laws S_int64
  | KUint16 => num_laws S_uint16 | KUint32 => num_laws S_uint32 | KUint64 => num_laws S_uint64
  | KString => string_laws
  end.

Fixpoint wire_laws (t : wire_type) : @SerializerLaws (denote t) (overload t) :=
  match t with
  | WBool => bool_laws | WChar => char_laws | WUChar => uchar_laws | WNum k => num_laws k | WString => string_laws
  | WVector t => @vector_laws _ _ _ _ (wire_laws t)
  | WList t => @list_laws _ _ _ _ (wire_laws t)
  | WArray N t => @array_laws _ _ _ (wire_laws t) N
  | WSet k => @set_laws _ _ _ _ _ _ (key_laws k) _
  | WMap k t => @map_laws _ _ _ _ _ _ _ _ (key_laws k) (wire_laws t) _
  | WHashMap k t => @unordered_map_laws _ _ _ _ _ _ _ _ (key_laws k) (wire_laws t) _
  | WTuple ts =>
      match ts with WNil => tuple_empty_laws | WCons t ts => @tuple_laws _ _ _ _ _ (wire_laws t) (wire_pack_laws ts) end
  | WClass ts => @class_laws _ _ (wire_pack_laws ts)
  end
with wire_pack_laws (ts : wire_types) : @PackLaws (denote_pack ts) (overload_pack ts) :=
  match ts with
  | WNil => pack_nil_laws
  | WCons t ts => @pack_cons_laws _ _ _ _ (wire_laws t) (wire_pack_laws ts)
  end.

#[local] Existing Instances overload overload_pack wire_laws wire_pack_laws.

(** A copy of a value is the value. *)
Lemma key_copy k (x : key_type k) : copy_ctor x = x.
Proof. by destruct k. Qed.

Lemma map_copy_same {A} `{Serializable A} : (forall x : A, copy_ctor x = x) -> forall l : list A, map copy_ctor l = l.
Proof. intros Hc l. rewrite <-(map_id l) at 2. by apply map_ext. Qed.

Lemma wire_copy :
  (forall t (v : denote t), copy_ctor v = v) /\ (forall ts (v : denote_pack ts), copy_pack v = v).
Proof.
  apply wire_types_mutind; try done.
  - intros t IH l. by apply map_copy_same.
  - intros t IH [l]. cbn. f_equal. by apply map_copy_same.
  - intros N t IH [l]. cbn. f_equal. by apply map_copy_same.
  - intros k t IH m. cbn. rewrite <-(map_fmap_id m) at 2. by apply map_fmap_ext.
  - intros k t IH [m]. cbn. f_equal. rewrite <-(map_fmap_id m) at 2. by apply map_fmap_ext.
  - intros [|t ts] IH [v]; [done|]. cbn. f_equal. apply IH.
  - intros ts IH [v]. cbn. f_equal. apply IH.
  - by intros [].
  - intros t IHt ts IHts [v vs]. cbn. by rewrite IHt, IHts.
Qed.

Lemma key_accepted_wf k (x : key_type k) : key_accepted k x = true -> elem_wf (LA := key_laws k) x.
Proof. intros Ha. split; [|apply key_copy]. destruct k; cbn in *; apply Z.eqb_eq in Ha || apply Z.leb_le in Ha; exact Ha. Qed.

Lemma in_limit_le n : in_limit n = true -> Z.of_nat n <= MUSE_MAX_COUNT.
Proof. by intros ?%Z.leb_le. Qed.

Lemma pack_count_types ts : pack_count (A := denote_pack ts) = types_count ts.
Proof. induction ts as [|t ts IH]; [done|]. cbn. by rewrite IH. Qed.

(** What is accepted is what the promise covers. *)
Lemma accepted_wf :
  (forall t (v : denote t), accepted t v = true -> ser_wf v) /\
  (forall ts (v : denote_pack ts), accepted_pack ts v = true -> pack_wf v).
Proof.
  assert (Hentry : forall k t, (forall v : denote t, accepted t v = true -> ser_wf v) ->
    forall kv : key_type k * denote t, key_accepted k kv.1 && accepted t kv.2 = true -> entry_wf (LK := key_laws k) kv).
  { intros k t IH kv [Hk Hv]%andb_true_iff. split; [by apply key_accepted_wf|]. split; [by apply IH|apply wire_copy]. }
  assert (Helem : forall t, (forall v : denote t, accepted t v = true -> ser_wf v) ->
    forall v, accepted t v = true -> elem_wf v) by (intros t IH v Ha; split; [by apply IH|apply wire_copy]).
  apply wire_types_mutind; try done.
  - intros k v. apply Z.eqb_eq.
  - intros v. apply Z.leb_le.
  - intros t IH l [Hn Hl]%andb_true_iff. split; [by apply in_limit_le|]. eapply forallb_Forall; [by apply Helem|done].
  - intros t IH [l] [Hn Hl]%andb_true_iff. split; [by apply in_limit_le|]. eapply forallb_Forall; [by apply Helem|done].
  - intros N t IH [l] [[Hl%Nat.eqb_eq Hn]%andb_true_iff Ha]%andb_true_iff. split; [done|]. split; [by apply in_limit_le|].
    by eapply forallb_Forall.
  - intros k s [Hn Hl]%andb_true_iff. split; [by apply in_limit_le|]. eapply forallb_Forall; [apply key_accepted_wf|done].
  - intros k t IH m [Hn Hl]%andb_true_iff. split; [by apply in_limit_le|]. eapply forallb_Forall; [by apply Hentry|done].
  - intros k t IH [m] [Hn Hl]%andb_true_iff. split; [by apply in_limit_le|]. eapply forallb_Forall; [by apply Hentry|done].
  - intros [|t ts] IH [v]; [done|]. intros [Hn Hl]%andb_true_iff. apply Z.leb_le in Hn.
    split; [|by apply IH]. by rewrite <-(pack_count_types (WCons t ts)) in Hn.
  - intros ts IH [v] Ha. by apply IH.
  - intros t IHt ts IHts [v vs] [Hv Hvs]%andb_true_iff. split; [by apply IHt|by apply IHts].
Qed.

Lemma is_object_old :
  (forall t (v : denote t), is_object t v = true -> ser_old v) /\
  (forall ts (v : denote_pack ts), is_object_pack ts v = true -> pack_old v).
Proof.
  apply wire_types_mutind; try done.
  - intros N t IH [l] [Hl%Nat.eqb_eq Ha]%andb_true_iff. split; [done|]. by eapply forallb_Forall.
  - intros [|t ts] IH [v]; [done|]. apply IH.
  - intros ts IH [v]. apply IH.
  - intros t IHt ts IHts [v vs] [Hv Hvs]%andb_true_iff. split; [by apply IHt|by apply IHts].
Qed.

End Universe.

(** A hash map that is visited in some order. *)
Definition some_hash_order k t : HashOrder (key_type k) (denote t) :=
  {| hash_entries := map_to_list; hash_entries_perm m := reflexivity _ |}.

(** A message of a class with a number, maps, a tuple, a set and an array. *)
Definition sample_type : wire_type :=
  WClass (WCons (WNum S_uint64) (WCons (WMap KInt16 WString) (WCons (WTuple (WCons WBool (WCons (WVector WUChar) WNil)))
    (WCons (WSet KString) (WCons (WArray 2 WChar) (WCons (WHashMap KUint32 (WList (WNum S_int32))) WNil)))))).
Definition sample_message : denote sample_type :=
  MuseClass (Num 4096, (<[Num (-3) := Str (b! "muse")]> ∅, (Tuple (true, ([UChar 7; UChar 8], tt)),
    ({[Str (b! "b"); Str (b! "a")]}, (Arr [CChar 1; CChar 2], (HMap {[Num 5 := CList [Num (-1)]]}, tt)))))).


(** ** Byte order *)

(** The bytes of a number do not depend on the host that wrote them: a
    number written on one host is read on any other as the same number. *)
Theorem numbers_portable (writer reader : Host) k (v : num k) (s : BinarySerializer) :
  num_wf v -> writable s -> Z.of_nat (length (byteStream s)) + 9 < 2 ^ 64 ->
  exists s', input_num (h := writer) v s = (Ok tt, s') /\
    (output_num (h := reader) (src_seek (Z.of_nat (length (byteStream s))) s')).1 = Ok v.
Proof.
  intros Hv Hs Hl. destruct (input_writes (SerializerLaws := num_laws (h := writer) k) v Hv s Hs)
    as (s' & E & HB & _). exists s'. split; [exact E|].
  pose proof (output_reads (SerializerLaws := num_laws (h := reader) k)
    (S := BinarySerializer) v v Hv I) as Hr.
  pose proof (at_bytes_serializer (byteStream s) (encode v) (capacity s')) as Ha.
  simpl src_seek. rewrite HB.
  change (output_num ?x) with (output v x). rewrite (reads_all _ _ _ _ Hr); [done|].
  apply Ha. rewrite length_app. simpl. rewrite le_encode_length.
  assert (scalar_size k <= 8)%nat by (destruct k; simpl; lia). lia.
Qed.

Lemma numbers_portable_witness :
  exists s', input_num (h := BigEndian) (k := S_int32) (Num (-2)) BinarySerializer_new = (Ok tt, s')
    /\ (output_num (h := LittleEndian) (src_seek 0 s')).1 = Ok (Num (k := S_int32) (-2)).
Proof.
  apply (numbers_portable BigEndian LittleEndian S_int32 (Num (-2)) BinarySerializer_new).
  - reflexivity.
  - split; vm_compute; congruence.
  - reflexivity.
Defined.

Lemma write_size_big_endian {h : Host} z :
  host_order = BigEndian -> is_uint 32 z -> writes (write_size z) [0; 0; 0; 0].
Proof.
  intros E Hz s Hs. unfold write_size.
  assert (take 4 (mem_encode host_order 8 z) = mem_encode host_order 4 0) as ->.
  { rewrite E. unfold is_uint in Hz. cbn. rewrite !Z.div_div by lia.
    rewrite !(Z.div_small z) by lia. reflexivity. }
  apply swapped_writes; done.
Qed.

(** On a big-endian host [input] writes the high half of a container's
    count: every vector is written with count zero, and read back, without an
    error, as the empty vector. *)
Theorem big_endian_count_lost {h : Host} {A} `{SerializerLaws A} (l : list A) (s : BinarySerializer) :
  host_order = BigEndian -> seq_wf l -> writable s ->
  Z.of_nat (length (byteStream s)) + 5 + Z.of_nat (length (encode_all l)) < 2 ^ 64 ->
  exists s', input_vector l s = (Ok tt, s') /\
    (output_vector (A := A) (src_seek (Z.of_nat (length (byteStream s))) s')).1 = Ok [].
Proof.
  intros Hb [Hn Hl] Hs Hlen.
  assert (writes (input_vector l) ([tag_byte VECTOR] ++ [0; 0; 0; 0] ++ encode_all l)) as Hw.
  { unfold input_vector. rewrite (proj2 (Z.ltb_ge _ _)) by done.
    apply writes_bind; [apply write_writes|].
    apply writes_bind; [|by apply input_all_writes, elem_wf_wf]. apply write_size_big_endian; [done|].
    unfold is_uint, MUSE_MAX_COUNT in *. lia. }
  destruct (Hw s Hs) as (s' & E & HB & _). exists s'. split; [exact E|].
  assert (Hat : at_bytes (encode_counted VECTOR 0 [] ++ encode_all l)
    (src_seek (Z.of_nat (length (byteStream s))) s')).
  { simpl src_seek. rewrite HB. apply at_bytes_serializer. rewrite length_app. simpl. lia. }
  eapply (counted_reads VECTOR 0 IllegalVectorCount (fun n => output_all (A := A) (Z.to_nat n)))
    in Hat as E2; [unfold output_vector; by rewrite E2|done|apply reads_ret].
Qed.

Lemma big_endian_count_lost_witness :
  let h : Host := BigEndian in
  exists s', input_vector [true; false] BinarySerializer_new = (Ok tt, s') /\
    (output_vector (A := bool) (src_seek 0 s')).1 = Ok [].
Proof.
  pose (h := BigEndian : Host).
  apply (big_endian_count_lost [true; false] BinarySerializer_new).
  - reflexivity.
  - split; [vm_compute; congruence|repeat constructor].
  - split; vm_compute; congruence.
  - reflexivity.
Defined.

(** ** Reads outside the buffer *)

(** The space left for the bytes of a string is measured from the position
    of the tag, five bytes too early: a stream that lacks the last one to five
    bytes of a string passes the check and is read past its end, and only a
    stream that lacks more is refused. *)
Theorem truncated_string_over_read {h : Host} {S} `{ByteSourceLaws S} (l : bytes) (n : Z) (s : S) :
  at_bytes (tag_byte STRING :: le_encode 4 n ++ l) s ->
  Z.of_nat (length l) < n <= MUSE_MAX_STRING_LENGTH ->
  (output_string s).1 = Err (if n <=? Z.of_nat (length l) + 5 then OutOfBounds
                             else Throw InsufficientRemainingMemory).
Proof.
  intros Ha [Hn Hm].
  assert (Hn32 : is_uint (8 * Z.of_nat 4) n)
    by (unfold is_uint, MUSE_MAX_STRING_LENGTH in *; simpl; lia).
  unfold output_string. erewrite bind_ok by (by eapply read_count_at).
  pose proof (at_bytes_length _ _ Ha) as HL. pose proof Ha as (H0 & H1 & H2 & H3 & _).
  cbn [length app] in HL. rewrite length_app, le_encode_length in HL.
  unfold read_payload, skip. unfold mbind, R_bind, advance, byteCount. rewrite seek_seek, seek_size.
  rewrite wrap_small by (unfold is_uint; lia).
  destruct (Z.leb_spec n (Z.of_nat (length l) + 5)).
  - rewrite (proj2 (Z.ltb_ge _ _)) by lia. unfold peek.
    rewrite !seek_pos, seek_data, decide_False by lia. done.
  - by rewrite (proj2 (Z.ltb_lt _ _)) by lia.
Qed.

Lemma truncated_string_over_read_witness :
  let h : Host := LittleEndian in
  (output_string (View_new [10; 5; 0; 0; 0] 5)).1 = Err OutOfBounds
  /\ (output_string (View_new [10; 6; 0; 0; 0] 5)).1 = Err (Throw InsufficientRemainingMemory).
Proof.
  pose (h := LittleEndian : Host). split.
  - apply (truncated_string_over_read [] 5);
      [repeat split; vm_compute; congruence|split; [reflexivity|vm_compute; congruence]].
  - apply (truncated_string_over_read [] 6);
      [repeat split; vm_compute; congruence|split; [reflexivity|vm_compute; congruence]].
Defined.

Lemma output_in_place_overflow {h : Host} {A} `{SerializerLaws A} {S} `{ByteSourceLaws S}
  done todo l rest (s : S) :
  Forall ser_wf l -> Forall ser_old todo -> (length todo < length l)%nat ->
  at_bytes (encode_all l ++ rest) s ->
  (output_in_place (done ++ todo) (length done) (length l) s).1 = Err OutOfBounds.
Proof.
  intros Hl. revert done todo s. induction Hl as [|x l Hx Hl IH]; intros done todo s Ho Hlen Ha.
  { simpl in Hlen. lia. }
  cbn [length output_in_place]. destruct todo as [|y todo].
  { by rewrite app_nil_r, lookup_ge_None_2. }
  rewrite list_lookup_middle by done. inversion Ho; subst.
  cbn [encode_all map concat] in Ha. rewrite <-app_assoc in Ha.
  erewrite bind_ok by (eapply output_reads; done).
  rewrite insert_app_r_alt, Nat.sub_diag by done. simpl.
  specialize (IH (done ++ [x]) todo). rewrite <-app_assoc, length_app, Nat.add_1_r in IH.
  apply IH; [done|simpl in *; lia|]. by apply at_bytes_skip.
Qed.

(** [output(std::array<T,N>&)] does not compare the count in the stream
    with [N]: a stream with more elements is written past the end of the array. *)
Theorem array_count_unchecked {h : Host} {N A} `{SerializerLaws A} {S} `{ByteSourceLaws S}
  (old : arr N A) (l : list A) (rest : bytes) (s : S) :
  length (arr_elems old) = N -> Forall ser_old (arr_elems old) ->
  Z.of_nat (length l) <= MUSE_MAX_COUNT -> Forall ser_wf l -> (N < length l)%nat ->
  at_bytes (encode_counted ARRAY (length l) (encode_all l) ++ rest) s ->
  (output_array old s).1 = Err OutOfBounds.
Proof.
  intros Ho1 Ho Hn Hl Hlen Ha. cbn [app encode_counted] in Ha.
  rewrite <-app_assoc in Ha.
  unfold output_array. erewrite bind_ok by (eapply read_count_at;
    [done|unfold is_uint, MUSE_MAX_COUNT in *; simpl; lia|done]).
  apply at_bytes_cons, at_bytes_skip in Ha. rewrite le_encode_length in Ha.
  pose proof (output_in_place_overflow [] (arr_elems old) l rest _ Hl Ho ltac:(lia) Ha) as E.
  cbn [app length] in E. unfold read_elements, on_exception, mbind, R_bind, advance.
  rewrite Nat2Z.id. fold (skip 4 (skip 1 s)). destruct (output_in_place _ _ _ _) as [r s'].
  simpl in E. by subst r.
Qed.

Lemma array_count_unchecked_witness :
  let h : Host := LittleEndian in
  (output_array (Arr (N := 2) [Num 0; Num 0] : arr 2 (num S_uint16))
    (View_new (encode_counted ARRAY 3 (encode_all [Num (k := S_uint16) 1; Num 2; Num 3])) 14)).1
  = Err OutOfBounds.
Proof.
  intros h.
  apply (array_count_unchecked (Arr (N := 2) [Num 0; Num 0] : arr 2 (num S_uint16))
    [Num 1; Num 2; Num 3] []).
  - reflexivity.
  - repeat constructor.
  - vm_compute. congruence.
  - repeat constructor.
  - simpl. lia.
  - repeat split; vm_compute; congruence.
Defined.

(** ** Positions after an exception *)

(** An exception leaves the read position where it was. *)
Definition restores {S} `{ByteSource S} {A} (m : R S A) : Prop :=
  forall s e s', m s = (Err (Throw e), s') -> src_pos s' = src_pos s.

Section Restores.
Context {h : Host} {S : Type} {B : ByteSource S} {L : ByteSourceLaws S}.

Definition restores_to {A} (p : Z) (m : R S A) : Prop :=
  forall s e s', m s = (Err (Throw e), s') -> src_pos s' = p.

Lemma restores_to_bind {A C} p (m : R S A) (k : A -> R S C) :
  restores_to p m -> (forall a, restores_to p (k a)) -> restores_to p (m ≫= k).
Proof.
  intros Hm Hk s e s'. unfold mbind, R_bind. destruct (m s) as [[a|e'] s1] eqn:E.
  - apply Hk.
  - intros [= -> ->]. by eapply Hm.
Qed.

Lemma restores_to_safe {A} p (m : R S A) :
  (forall s e, (m s).1 <> Err (Throw e)) -> restores_to p m.
Proof. intros Hm s e s' E. destruct (Hm s e). by rewrite E. Qed.

Lemma restore_throw_restores {A} p e : restores_to p (restore_throw (A := A) (S := S) p e).
Proof. intros s e' s' [= _ <-]. by rewrite seek_pos. Qed.

Lemma on_exception_restores {A} p (m : R S A) : restores_to p (on_exception m (src_seek p)).
Proof.
  intros s e s'. unfold on_exception. destruct (m s) as [[a|[n| |]] s1]; intros [=].
  subst. by rewrite seek_pos.
Qed.

Lemma peek_safe n s e : (peek (S := S) n s).1 <> Err (Throw e).
Proof. unfold peek. by case_decide. Qed.

Lemma peek_keeps n s r s' : peek (S := S) n s = (r, s') -> s' = s.
Proof. unfold peek. case_decide; congruence. Qed.

Lemma read_elements_restores {A} p (m : R S A) : restores_to p (read_elements p m).
Proof. apply restores_to_bind; [by apply restores_to_safe|]. intros. apply on_exception_restores. Qed.

Lemma read_payload_restores p n : restores_to p (read_payload (S := S) p n).
Proof.
  apply restores_to_bind; [by apply restores_to_safe|]. intros _.
  apply restores_to_bind; [by apply restores_to_safe|]. intros total.
  case_match; [apply restore_throw_restores|].
  apply restores_to_bind; [apply restores_to_safe; intros; apply peek_safe|]. intros l.
  by apply restores_to_safe.
Qed.

(** The head of a length-prefixed overload leaves the position at the tag when it
    throws, and hands that position on otherwise. *)
Lemma read_count_restores {A} t n max e (k : Z * Z -> R S A) :
  (forall p c, restores_to p (k (p, c))) -> restores (read_count t n max e ≫= k).
Proof.
  intros Hk s e' s'. unfold read_count, prevent_boundary, check_tag, peek_uint, getReadPosition,
    byteCount, advance, remaining, mbind, R_bind, mret, R_ret.
  destruct (_ =? _); [by intros [= _ <-]|].
  destruct (peek 1 s) as [[b|x] s1] eqn:E1.
  2: { intros [= -> _]. destruct (peek_safe 1 s e'). by rewrite E1. }
  apply peek_keeps in E1 as ->. case_decide; [|by intros [= _ <-]].
  destruct (_ <? _); [apply restore_throw_restores|].
  destruct (peek n _) as [[c|x] s2] eqn:E2.
  2: { intros [= -> _]. edestruct peek_safe. by rewrite E2. }
  destruct (_ <? _); [apply restore_throw_restores|]. apply Hk.
Qed.

Lemma check_legitimacy_restores {A} t n (k : R S A) :
  (forall s e, (k s).1 <> Err (Throw e)) -> restores (_ ← check_legitimacy t n; k).
Proof.
  intros Hk s e s'. unfold check_legitimacy, check_tag, remaining, mbind, R_bind, mret, R_ret.
  destruct (_ <? _); [by intros [= _ <-]|].
  destruct (peek 1 s) as [[b|x] s1] eqn:E1; [|intros [= -> _]; destruct (peek_safe 1 s e); by rewrite E1].
  apply peek_keeps in E1 as ->. case_decide; [|by intros [= _ <-]].
  intros E. destruct (Hk s e). by rewrite E.
Qed.

Lemma next_byte_safe s e : (next_byte (S := S) s).1 <> Err (Throw e).
Proof.
  unfold next_byte, advance, mbind, R_bind.
  destruct (peek 1 _) as [[]] eqn:E; [done|]. simpl. intros [= ->].
  edestruct peek_safe. by rewrite E.
Qed.
End Restores.

(** When one of the library's own reading overloads throws, at whatever
    depth, the read position is the one it was called with.  (The exceptions
    are [output(char*, len)] with the wrong length and classes, below.) *)
Theorem exceptions_restore_position {h : Host} {S} `{ByteSourceLaws S} {A K V P : Type} {N : nat}
  `{Serializable A, Countable K, Serializable K, Serializable V, ArgPack P} k (a : arr N A) (p : P) :
  restores (output_bool (S := S)) /\ restores (output_char (S := S)) /\
  restores (output_uchar (S := S)) /\ restores (output_num (S := S) (k := k)) /\
  restores (output_string (S := S)) /\ restores (output_vector (S := S) (A := A)) /\
  restores (output_list (S := S) (A := A)) /\ restores (output_array (S := S) a) /\
  restores (output_set (S := S) (K := K)) /\ restores (output_map (S := S) (K := K) (V := V)) /\
  restores (output_unordered_map (S := S) (K := K) (V := V)) /\
  restores (output_tuple (S := S) p).
Proof.
  repeat split.
  1-3: apply check_legitimacy_restores; intros s e; unfold mbind, R_bind;
    destruct (next_byte s) as [[]] eqn:E; simpl; [done|intros [= ->]];
    edestruct next_byte_safe; by rewrite E.
  { apply check_legitimacy_restores; intros s e. unfold peek_uint, advance, mbind, R_bind, mret, R_ret.
    destruct (peek _ _) as [[]] eqn:E; simpl; [done|intros [= ->]].
    edestruct peek_safe; by rewrite E. }
  { apply read_count_restores. intros p0 c. apply restores_to_bind; [apply read_payload_restores|].
    intros. by apply restores_to_safe. }
  1, 2, 3, 4, 5, 6: apply read_count_restores; intros p0 c;
    first [apply read_elements_restores |
      apply restores_to_bind; [apply read_elements_restores|intros; by apply restores_to_safe]].
  apply read_count_restores. intros p0 c. case_match; [apply restore_throw_restores|].
  apply restores_to_bind; [by apply restores_to_safe|]. intros. apply on_exception_restores.
Qed.

(** An out-of-range element inside a vector: the position is that of the vector. *)
Lemma exceptions_restore_position_witness :
  let h : Host := LittleEndian in
  let s := View_new (encode_counted VECTOR 2 [0; 1; 0]) 8 in
  (output_vector (A := bool) s).1 = Err (Throw InsufficientRemainingMemory)
  /\ src_pos (output_vector (A := bool) s).2 = src_pos s.
Proof.
  intros h s. split; [vm_compute; reflexivity|].
  destruct (exceptions_restore_position (A := bool) (K := num S_int16) (V := bool) (P := unit) (N := 0)
    (S := BinaryDeserializeView) S_int16 (Arr []) tt) as (_&_&_&_&_&H&_).
  apply (H s InsufficientRemainingMemory). vm_compute. reflexivity.
Defined.

(** A [char] buffer read with another length than the one in the stream
    throws and leaves the position behind the tag, so the next read fails on
    the type; a class whose fields cannot be read leaves it inside the class. *)
Theorem exceptions_that_move {h : Host} {S} `{ByteSourceLaws S} t (n len : Z) (rest : bytes) (s : S) :
  at_bytes (tag_byte t :: le_encode 4 n ++ rest) s -> 0 <= n <= MUSE_MAX_BYTE_COUNT -> n <> len ->
  output_buffer t len s = (Err (Throw ReadIllegalBytesCount), skip 1 s) /\
  forall l s0, at_bytes (tag_byte MUSECLASS :: tag_byte INT16 :: l) s0 -> l <> [] ->
    muse_deserialize (false, tt) s0 = (Err (Throw DataTypeError), skip 1 s0).
Proof.
  intros Ha Hn Hlen. split.
  - unfold output_buffer. erewrite bind_ok by (eapply read_count_at;
      [done|unfold is_uint, MUSE_MAX_BYTE_COUNT in *; simpl; lia|lia]).
    cbv beta iota. by rewrite (proj2 (Z.eqb_neq _ _)) by done.
  - intros l s0 Ha0 Hl. unfold muse_deserialize.
    pose proof (prevent_boundary_at _ _ _ Ha0) as Hp.
    assert (E : checkDataTypeRightForward MUSECLASS s0 = (Ok true, skip 1 s0)).
    { unfold checkDataTypeRightForward. erewrite bind_ok by done.
      erewrite bind_ok by (by apply (peek_at 1 [_] _ _ Ha0)). by rewrite decide_True by done. }
    unfold prevent_boundary, mbind, R_bind, getReadPosition, byteCount in *.
    destruct (u64 (src_pos s0) =? src_size s0); [done|]. rewrite E. cbn [negb].
    apply at_bytes_cons in Ha0. unfold outputArgs, pack_cons, output, ser_bool, output_bool.
    unfold check_legitimacy, mbind, R_bind. rewrite (remaining_at _ _ Ha0).
    rewrite (proj2 (Z.ltb_ge _ _)) by (destruct l; [done|simpl length; lia]).
    unfold check_tag, mbind, R_bind. by rewrite (peek_at 1 [_] _ _ Ha0).
Qed.

Lemma exceptions_that_move_witness :
  let h : Host := LittleEndian in
  let s := View_new (encode_buffer BYTES [1; 2; 3]) 8 in
  output_chars 2 s = (Err (Throw ReadIllegalBytesCount), skip 1 s).
Proof.
  intros h s. apply (exceptions_that_move BYTES 3 2 [1; 2; 3] s).
  - repeat split; vm_compute; congruence.
  - split; vm_compute; congruence.
  - congruence.
Defined.

(** ** Growth of the buffer *)

(** [write] returns and appends its bytes on any serializer that owns
    storage, and the doubling loop ends with room for them; on a serializer
    that was moved from the capacity is zero, stays zero however often it is
    doubled, and the loop never ends. *)
Theorem write_terminates_unless_moved_from (data : bytes) (s : BinarySerializer) :
  data <> [] ->
  (writable s -> exists cap, write data s = (Ok tt, {| byteStream := byteStream s ++ data;
      capacity := cap; readPosition := readPosition s |})
    /\ Z.of_nat (length (byteStream s ++ data)) <= cap) /\
  let moved := (BinarySerializer_move s).2 in
  (forall fuel, expansion_loop fuel (capacity moved) 0 (Z.of_nat (length data)) = None) /\
  write data moved = (Err Diverges, moved).
Proof.
  intros Hd. assert (Hlen : 0 < Z.of_nat (length data)) by (destruct data; [done|simpl; lia]).
  assert (Hloop : forall fuel, expansion_loop fuel 0 0 (Z.of_nat (length data)) = None).
  { induction fuel as [|fuel IH]; [done|]. cbn [expansion_loop].
    by rewrite (proj2 (Z.ltb_lt _ _)) by lia. }
  split; [|split; [exact Hloop|]].
  - intros Hs. destruct (write_writes data s Hs) as (s' & -> & HB & HP & HW).
    exists (capacity s'). destruct s' as [bs cap pos]; simpl in *. subst.
    split; [done|]. by destruct HW.
  - simpl. unfold write. rewrite decide_False by done. unfold mbind, R_bind, expansion.
    cbn [capacity byteStream length]. rewrite (proj2 (Z.ltb_lt _ _)) by lia. by rewrite Hloop.
Qed.

Lemma write_terminates_unless_moved_from_witness :
  (exists cap, write [7; 8] BinarySerializer_new = (Ok tt, {| byteStream := [7; 8];
      capacity := cap; readPosition := 0 |}) /\ 2 <= cap)
  /\ (write [7; 8] (BinarySerializer_move BinarySerializer_new).2).1 = Err Diverges.
Proof.
  destruct (write_terminates_unless_moved_from [7; 8] BinarySerializer_new) as (H1 & _ & H2).
  - discriminate.
  - split.
    + apply H1. split; vm_compute; congruence.
    + exact (f_equal fst H2).
Defined.

(** A view that was moved from, or cleared, keeps its size but has no bytes:
    a read the size still allows dereferences the null pointer, while after
    move assignment the same read is refused with an exception. *)
Theorem moved_view_keeps_size {h : Host} (v : BinaryDeserializeView) :
  2 <= byteStreamSize v < 2 ^ 64 ->
  (View_output_bool (View_move v).2).1 = Err OutOfBounds /\
  (View_output_bool (View_clear v)).1 = Err OutOfBounds /\
  forall this, (View_output_bool (View_move_assign this v).2).1
    = Err (Throw InsufficientRemainingMemory).
Proof.
  intros Hv. assert (E : (View_output_bool (View_clear v)).1 = Err OutOfBounds).
  { unfold View_output_bool, output_bool, check_legitimacy, remaining, mbind, R_bind. simpl.
    rewrite wrap_small by (unfold is_uint; lia). by rewrite (proj2 (Z.ltb_ge _ _)) by lia. }
  done.
Qed.

Lemma moved_view_keeps_size_witness :
  let h : Host := LittleEndian in
  (View_output_bool (View_move (View_new [0; 1] 2)).2).1 = Err OutOfBounds.
Proof. intros h. apply (moved_view_keeps_size (View_new [0; 1] 2)). simpl. lia. Defined.
