(* ===== verification/Protocol.v ===== *)
(** * The packet header of the RPC protocol: [src/include/rpc/protocol]

    A header is 26 bytes in network byte order at the front of a UDP payload.
    The operations of [protocol.cpp] read and write it through the [char*] of
    the packet; here they act on the packet as a state. *)
From S2P Require Import Prelude Stream.

(** ** Data *)
Inductive CommunicationPhase := Request | Response.
Inductive ProtocolType :=
| RequestSend | HearBeat | ReceiverACK | RequestACK | TimedOutRequestHeartbeat
| TimedOutResponseHeartbeat | UnsupportedNetworkProtocol | StateReset | TheServerResourcesExhausted.

#[global] Instance CommunicationPhase_eq_dec : EqDecision CommunicationPhase.
Proof. solve_decision. Defined.
#[global] Instance ProtocolType_eq_dec : EqDecision ProtocolType.
Proof. solve_decision. Defined.

Definition phase_code (p : CommunicationPhase) : Z :=
  match p with Request => 0 | Response => 1 end.
Definition type_code (t : ProtocolType) : Z :=
  match t with
  | RequestSend => 0 | HearBeat => 1 | ReceiverACK => 2 | RequestACK => 3
  | TimedOutRequestHeartbeat => 4 | TimedOutResponseHeartbeat => 5
  | UnsupportedNetworkProtocol => 6 | StateReset => 7 | TheServerResourcesExhausted => 8
  end.

(** The [switch] statements on the two nibbles. *)
Definition phase_of_code (c : Z) : option CommunicationPhase :=
  if c =? 0 then Some Request else if c =? 1 then Some Response else None.
Definition type_of_code (c : Z) : option ProtocolType :=
  if c =? 0 then Some RequestSend else if c =? 1 then Some HearBeat
  else if c =? 2 then Some ReceiverACK else if c =? 3 then Some RequestACK
  else if c =? 4 then Some TimedOutRequestHeartbeat
  else if c =? 5 then Some TimedOutResponseHeartbeat
  else if c =? 6 then Some UnsupportedNetworkProtocol
  else if c =? 7 then Some StateReset
  else if c =? 8 then Some TheServerResourcesExhausted else None.

Record ProtocolHeader := {
  synchronousWord : Z;
  phase : CommunicationPhase;
  type : ProtocolType;
  pieceOrder : Z;
  pieceSize : Z;
  acceptMinOrder : Z;
  timePoint : Z;
  totalCount : Z;
  pieceStandardSize : Z;
  totalSize : Z;
  acceptOrder : Z;
}.

(** [ProtocolHeader header{}] with a synchronous word, a phase and a type. *)
Definition partial_header (sync : Z) (p : CommunicationPhase) (t : ProtocolType) : ProtocolHeader :=
  {| synchronousWord := sync; phase := p; type := t; pieceOrder := 0; pieceSize := 0;
     acceptMinOrder := 0; timePoint := 0; totalCount := 0; pieceStandardSize := 0;
     totalSize := 0; acceptOrder := 0 |}.

Definition protocolHeaderSize : Z := 26.
Definition defaultPieceLimitSize : Z := 548 - protocolHeaderSize.
Definition FullPieceSize : Z := protocolHeaderSize + defaultPieceLimitSize.
Definition defaultSynchronousWord : Z := 240.

(** ** Access to the packet

    [None] is an access outside the packet. *)
Definition P (A : Type) : Type := bytes -> option (A * bytes).
#[global] Instance P_ret : MRet P := fun A a s => Some (a, s).
#[global] Instance P_bind : MBind P := fun A B f m s =>
  match m s with Some (a, s') => f a s' | None => None end.

Definition load (off n : nat) : P bytes := fun s =>
  if decide (off + n <= length s)%nat then Some (take n (drop off s), s) else None.
Definition store (off : nat) (data : bytes) : P unit := fun s =>
  if decide (off + length data <= length s)%nat
  then Some (tt, take off s ++ data ++ drop (off + length data) s) else None.

Definition load_byte (off : nat) : P Z := l ← load off 1; mret (default 0 (head l)).
Definition store_byte (off : nat) (b : Z) : P unit := store off [b].

Section Operations.
Context {h : Host}.

(** An [n]-byte unsigned integer through a cast pointer, in host order. *)
Definition load_uint (off n : nat) : P Z := l ← load off n; mret (mem_decode host_order l).
Definition store_uint (off n : nat) (v : Z) : P unit := store off (mem_encode host_order n v).

(** An [n]-byte object with its bytes reversed; [htons] and [htonl] do this on a
    little-endian host. *)
Definition reverse_bytes (n : nat) (v : Z) : Z :=
  mem_decode host_order (reverse (mem_encode host_order n v)).
Definition hton (n : nat) (v : Z) : Z :=
  match host_order with LittleEndian => reverse_bytes n v | BigEndian => v end.
Definition htons : Z -> Z := hton 2.
Definition htonl : Z -> Z := hton 4.

(** [std::reverse(first, last)] on bytes of the packet *)
Definition reverse_at (off n : nat) : P unit := l ← load off n; store off (reverse l).

Definition piece_count (totalSize : Z) : Z :=
  u16 (totalSize / defaultPieceLimitSize
       + if totalSize mod defaultPieceLimitSize =? 0 then 0 else 1).

Definition initiateSenderProtocolHeader (timePoint totalSize protocolSize : Z) : P bool :=
  if protocolSize <? protocolHeaderSize then mret false
  else
    _ ← store_byte 0 defaultSynchronousWord;
    let phaseAndType := Z.lor (Z.shiftl (phase_code Request) 4) (type_code RequestSend) in
    _ ← store_byte 1 phaseAndType;
    _ ← store_uint 2 2 0;
    let count := piece_count totalSize in
    _ ← store_uint 6 2 0;
    _ ← (if decide (getByteSequence = LittleEndian) then
           _ ← store_uint 4 2 (htons protocolHeaderSize);
           _ ← store_uint 8 8 timePoint;
           _ ← reverse_at 8 8;
           _ ← store_uint 16 2 (htons count);
           _ ← store_uint 18 2 (htons defaultPieceLimitSize);
           store_uint 20 4 (htonl totalSize)
         else
           _ ← store_uint 4 2 protocolHeaderSize;
           _ ← store_uint 8 8 timePoint;
           _ ← store_uint 16 2 count;
           _ ← store_uint 18 2 defaultPieceLimitSize;
           store_uint 20 4 totalSize);
    _ ← store_uint 24 2 0;
    mret true.

(** The fields behind the two leading bytes, in [parse] and [memory_parse]. *)
Definition read_fields (sync : Z) (p : CommunicationPhase) (t : ProtocolType) : P ProtocolHeader :=
  if decide (getByteSequence = LittleEndian) then
    pieceOrder ← load_uint 2 2;
    pieceSize ← load_uint 4 2;
    acceptMinOrder ← load_uint 6 2;
    timePoint ← load_uint 8 8;
    totalCount ← load_uint 16 2;
    pieceStandardSize ← load_uint 18 2;
    totalSize ← load_uint 20 4;
    acceptOrder ← load_uint 24 2;
    mret {| synchronousWord := sync; phase := p; type := t;
            pieceOrder := htons pieceOrder; pieceSize := htons pieceSize;
            acceptMinOrder := htons acceptMinOrder;
            timePoint := reverse_bytes 8 timePoint;
            totalCount := htons totalCount; pieceStandardSize := htons pieceStandardSize;
            totalSize := htonl totalSize; acceptOrder := htons acceptOrder |}
  else
    pieceOrder ← load_uint 2 2;
    pieceSize ← load_uint 4 2;
    acceptMinOrder ← load_uint 6 2;
    timePoint ← load_uint 8 8;
    totalCount ← load_uint 16 2;
    pieceStandardSize ← load_uint 18 2;
    totalSize ← load_uint 20 4;
    acceptOrder ← load_uint 24 2;
    mret {| synchronousWord := sync; phase := p; type := t;
            pieceOrder := pieceOrder; pieceSize := pieceSize;
            acceptMinOrder := acceptMinOrder; timePoint := timePoint;
            totalCount := totalCount; pieceStandardSize := pieceStandardSize;
            totalSize := totalSize; acceptOrder := acceptOrder |}.

(** [parse]: the header and the [success] flag; a failed parse returns the part
    read so far. *)
Definition parse (protocolSize : Z) : P (ProtocolHeader * bool) :=
  if protocolSize <? protocolHeaderSize then mret (partial_header 0 Request RequestSend, false)
  else
    sync ← load_byte 0;
    if negb (sync =? defaultSynchronousWord)
    then mret (partial_header sync Request RequestSend, false)
    else
      phaseAndType ← load_byte 1;
      phaseAndType_ ← load_byte 1;
      match phase_of_code (Z.shiftr phaseAndType 4) with
      | None => mret (partial_header sync Request RequestSend, false)
      | Some p =>
          match type_of_code (Z.land phaseAndType_ 15) with
          | None => mret (partial_header sync p RequestSend, false)
          | Some t => header ← read_fields sync p t; mret (header, true)
          end
      end.

(** [memory_parse]: [None] is [nullptr]. *)
Definition memory_parse (protocolSize : Z) : P (option ProtocolHeader) :=
  if protocolSize <? protocolHeaderSize then mret None
  else
    sync ← load_byte 0;
    if negb (sync =? defaultSynchronousWord) then mret None
    else
      phaseAndType ← load_byte 1;
      match phase_of_code (Z.shiftr phaseAndType 4) with
      | None => mret None
      | Some p =>
          match type_of_code (Z.land phaseAndType 15) with
          | None => mret None
          | Some t => header ← read_fields sync p t; mret (Some header)
          end
      end.

Definition setProtocolType (t : ProtocolType) : P unit :=
  b ← load_byte 1;
  let vt := Z.land b 240 in
  store_byte 1 (Z.lor vt (type_code t)).

(** [None] as a value is the [std::runtime_error]. *)
Definition getProtocolType : P (option ProtocolType) :=
  b ← load_byte 1; mret (type_of_code (Z.land b 15)).

Definition setProtocolPhase (_phase : CommunicationPhase) : P unit :=
  b ← load_byte 1;
  let type := Z.land b 15 in
  let phase := u8 (Z.shiftl (phase_code _phase) 4) in
  store_byte 1 (Z.lor phase type).

Definition getProtocolPhase : P (option CommunicationPhase) :=
  b ← load_byte 1; mret (phase_of_code (Z.shiftr b 4)).

Definition setProtocolOrderAndSize (order size : Z) : P unit :=
  if decide (getByteSequence = LittleEndian) then
    _ ← store_uint 2 2 (htons order); store_uint 4 2 (htons size)
  else _ ← store_uint 2 2 order; store_uint 4 2 size.

Definition setACKAcceptOrder (order : Z) : P unit :=
  if decide (getByteSequence = BigEndian) then store_uint 24 2 order
  else store_uint 24 2 (htons order).

Definition setAcceptMinOrder (_accept_order : Z) : P unit :=
  if decide (getByteSequence = LittleEndian) then store_uint 6 2 (htons _accept_order)
  else store_uint 6 2 _accept_order.

Definition getAcceptMinOrder : P Z :=
  if decide (getByteSequence = LittleEndian)
  then order ← load_uint 6 2; mret (htons order)
  else load_uint 6 2.

Definition getSendCount (piece_count : Z) : Z :=
  if piece_count <=? 3 then 1
  else if (3 <? piece_count) && (piece_count <=? 10) then 3
  else if (10 <? piece_count) && (piece_count <=? 1024) then 5
  else 7.
End Operations.

(** ** The wire format *)
Definition be_encode (n : nat) (v : Z) : bytes := reverse (le_encode n v).
Definition be_decode (l : bytes) : Z := le_decode (reverse l).

Definition encode_header (hd : ProtocolHeader) : bytes :=
  [synchronousWord hd; 16 * phase_code (phase hd) + type_code (type hd)]
  ++ be_encode 2 (pieceOrder hd) ++ be_encode 2 (pieceSize hd) ++ be_encode 2 (acceptMinOrder hd)
  ++ be_encode 8 (timePoint hd) ++ be_encode 2 (totalCount hd) ++ be_encode 2 (pieceStandardSize hd)
  ++ be_encode 4 (totalSize hd) ++ be_encode 2 (acceptOrder hd).

Definition header_wf (hd : ProtocolHeader) : Prop :=
  synchronousWord hd = defaultSynchronousWord /\
  is_uint 16 (pieceOrder hd) /\ is_uint 16 (pieceSize hd) /\ is_uint 16 (acceptMinOrder hd) /\
  is_uint 64 (timePoint hd) /\ is_uint 16 (totalCount hd) /\ is_uint 16 (pieceStandardSize hd) /\
  is_uint 32 (totalSize hd) /\ is_uint 16 (acceptOrder hd).

Lemma be_encode_length n v : length (be_encode n v) = n.
Proof. unfold be_encode. by rewrite length_reverse, le_encode_length. Qed.

Lemma be_decode_encode n v : is_uint (8 * Z.of_nat n) v -> be_decode (be_encode n v) = v.
Proof.
  intros. unfold be_decode, be_encode. by rewrite reverse_involutive, le_decode_encode, wrap_small.
Qed.

Lemma be_encode_decode n l : length l = n -> bytes_ok l -> be_encode n (be_decode l) = l.
Proof.
  intros <- Hl. unfold be_encode, be_decode. rewrite <-(length_reverse l) at 1.
  rewrite le_encode_decode by auto with muse. apply reverse_involutive.
Qed.

Lemma be_decode_bound l : bytes_ok l -> is_uint (8 * Z.of_nat (length l)) (be_decode l).
Proof. intros Hl. rewrite <-length_reverse. apply le_decode_bound. auto with muse. Qed.

Lemma encode_header_length hd : length (encode_header hd) = 26%nat.
Proof. unfold encode_header. by rewrite !length_app, !be_encode_length. Qed.
#[export] Hint Rewrite be_encode_length encode_header_length : muse_len.

(** ** Segments of a packet *)

(** The ten fields of the header and the data behind it. *)
Definition fields (l : bytes) : list bytes :=
  [slice 0 1 l; slice 1 1 l; slice 2 2 l; slice 4 2 l; slice 6 2 l; slice 8 8 l;
   slice 16 2 l; slice 18 2 l; slice 20 4 l; slice 24 2 l; drop 26 l].

Lemma concat_fields l : concat (fields l) = l.
Proof.
  unfold fields. cbn [concat]. rewrite app_nil_r.
  rewrite (slice_drop 24 2), (slice_drop 20 4), (slice_drop 18 2), (slice_drop 16 2),
    (slice_drop 8 8), (slice_drop 6 2), (slice_drop 4 2), (slice_drop 2 2), (slice_drop 1 1),
    (slice_drop 0 1). done.
Qed.

Lemma store_concat i off d segs old :
  segs !! i = Some old -> off = length (concat (take i segs)) -> length old = length d ->
  store off d (concat segs) = Some (tt, concat (<[i := d]> segs)).
Proof.
  intros Hi -> Hl. rewrite <-(take_drop_middle segs i old Hi) at 2.
  rewrite insert_take_drop by (by eapply lookup_lt_Some).
  rewrite !concat_app. cbn [concat]. unfold store. rewrite decide_True by len.
  rewrite take_app_length, drop_app, (drop_ge (concat _)) by lia.
  rewrite Nat.add_sub_swap, Nat.sub_diag, Nat.add_0_l, <-Hl, drop_app_length by lia. done.
Qed.

Lemma load_concat i off n segs x :
  segs !! i = Some x -> off = length (concat (take i segs)) -> length x = n ->
  load off n (concat segs) = Some (x, concat segs).
Proof.
  intros Hi -> <-. rewrite <-(take_drop_middle segs i x Hi) at 2 3.
  rewrite !concat_app. cbn [concat]. unfold load. rewrite decide_True by len.
  by rewrite drop_app_length, take_app_length.
Qed.

Lemma P_bind_assoc {A B C} (m : P A) (f : A -> P B) (g : B -> P C) s :
  ((m ≫= f) ≫= g) s = (m ≫= fun a => f a ≫= g) s.
Proof. unfold mbind, P_bind. by destruct (m s) as [[]|]. Qed.

Lemma P_bind_some {A B} (m : P A) (f : A -> P B) s a s' :
  m s = Some (a, s') -> (m ≫= f) s = f a s'.
Proof. intros E. unfold mbind, P_bind. by rewrite E. Qed.

Section Net.
Context {h : Host}.

Lemma reverse_bytes_little n l :
  host_order = LittleEndian -> length l = n -> bytes_ok l ->
  reverse_bytes n (mem_decode host_order l) = be_decode l.
Proof.
  intros E <- Hl. unfold reverse_bytes. rewrite E. simpl. by rewrite le_encode_decode.
Qed.

(** A field read through its pointer and converted is the big-endian number. *)
Lemma hton_load n l : length l = n -> bytes_ok l -> hton n (mem_decode host_order l) = be_decode l.
Proof.
  intros. unfold hton. destruct host_order eqn:E; rewrite <-E at 1; [by rewrite E|].
  by apply reverse_bytes_little.
Qed.

Lemma hton_store n v : mem_encode host_order n (hton n v) = be_encode n v.
Proof.
  unfold hton. destruct host_order eqn:E; [done|]. unfold reverse_bytes. rewrite E. simpl.
  pose proof (le_encode_decode (reverse (le_encode n v)) ltac:(auto with muse)) as X.
  by rewrite length_reverse, le_encode_length in X.
Qed.

(** The conversions the code makes on a little-endian host only. *)
Lemma hton_big n v : host_order = BigEndian -> hton n v = v.
Proof. intros E. unfold hton. by rewrite E. Qed.

Lemma load_uint_field i off n segs x :
  segs !! i = Some x -> off = length (concat (take i segs)) -> length x = n ->
  load_uint off n (concat segs) = Some (mem_decode host_order x, concat segs).
Proof. intros. unfold load_uint. by erewrite P_bind_some by (by eapply load_concat). Qed.

Lemma load_byte_field i off segs b :
  segs !! i = Some [b] -> off = length (concat (take i segs)) ->
  load_byte off (concat segs) = Some (b, concat segs).
Proof. intros. unfold load_byte. by erewrite P_bind_some by (by eapply load_concat). Qed.
End Net.

(** The bytes of a header, field by field. *)
Definition header_fields (hd : ProtocolHeader) (rest : bytes) : list bytes :=
  [[synchronousWord hd]; [16 * phase_code (phase hd) + type_code (type hd)];
   be_encode 2 (pieceOrder hd); be_encode 2 (pieceSize hd); be_encode 2 (acceptMinOrder hd);
   be_encode 8 (timePoint hd); be_encode 2 (totalCount hd); be_encode 2 (pieceStandardSize hd);
   be_encode 4 (totalSize hd); be_encode 2 (acceptOrder hd); rest].

Lemma concat_header_fields hd rest : concat (header_fields hd rest) = encode_header hd ++ rest.
Proof.
  unfold header_fields, encode_header. cbn [concat]. by rewrite app_nil_r, <-!app_assoc.
Qed.

(** Offsets of the fields. *)
Ltac field_off :=
  unfold fields, header_fields; cbn [take concat firstn];
  rewrite ?app_nil_r, ?length_app, ?be_encode_length, ?slice_length by lia; reflexivity.

Ltac seg_len :=
  cbn [take concat];
  rewrite ?length_app, ?length_reverse, ?be_encode_length, ?mem_encode_length; simpl; lia.

Section Parsing.
Context {h : Host}.

Lemma load_slice i off n buf {A} (k : Z -> P A) :
  (26 <= length buf)%nat -> fields buf !! i = Some (slice off n buf) -> (off + n <= 26)%nat ->
  off = length (concat (take i (fields buf))) ->
  (load_uint off n ≫= k) buf = k (mem_decode host_order (slice off n buf)) buf.
Proof.
  intros Hl Hi Hn Ho. apply P_bind_some. rewrite <-(concat_fields buf) at 1 3.
  eapply load_uint_field; [done..|]. apply slice_length. lia.
Qed.

Definition header_of (sync : Z) (p : CommunicationPhase) (t : ProtocolType) (buf : bytes)
  : ProtocolHeader :=
  {| synchronousWord := sync; phase := p; type := t;
     pieceOrder := be_decode (slice 2 2 buf); pieceSize := be_decode (slice 4 2 buf);
     acceptMinOrder := be_decode (slice 6 2 buf); timePoint := be_decode (slice 8 8 buf);
     totalCount := be_decode (slice 16 2 buf); pieceStandardSize := be_decode (slice 18 2 buf);
     totalSize := be_decode (slice 20 4 buf); acceptOrder := be_decode (slice 24 2 buf) |}.

Lemma read_fields_eq sync p t buf :
  (26 <= length buf)%nat -> bytes_ok buf ->
  read_fields sync p t buf = Some (header_of sync p t buf, buf).
Proof.
  intros Hl Hok. unfold read_fields. rewrite getByteSequence_host.
  assert (Hs : forall off n, (off + n <= 26)%nat ->
    hton n (mem_decode host_order (slice off n buf)) = be_decode (slice off n buf)).
  { intros. apply hton_load; [apply slice_length; lia|by apply slice_ok]. }
  case_decide as E.
  - rewrite (load_slice 2), (load_slice 3), (load_slice 4), (load_slice 5), (load_slice 6),
      (load_slice 7), (load_slice 8), (load_slice 9) by (done || lia || field_off).
    unfold htons, htonl. rewrite !Hs by lia. rewrite reverse_bytes_little
      by (done || (apply slice_length; lia) || by apply slice_ok). done.
  - assert (Eb : host_order = BigEndian) by (by destruct host_order).
    rewrite (load_slice 2), (load_slice 3), (load_slice 4), (load_slice 5), (load_slice 6),
      (load_slice 7), (load_slice 8), (load_slice 9) by (done || lia || field_off).
    by rewrite Eb.
Qed.

Lemma load_byte_at off buf b :
  buf !! off = Some b -> load_byte off buf = Some (b, buf).
Proof.
  intros Hb. unfold load_byte, load, mbind, P_bind, mret, P_ret.
  pose proof (lookup_lt_Some _ _ _ Hb). rewrite decide_True by lia.
  by rewrite (drop_S _ _ _ Hb).
Qed.

(** The two leading bytes. *)
Lemma leading_bytes (buf : bytes) :
  (26 <= length buf)%nat -> exists b0 b1 rest, buf = b0 :: b1 :: rest.
Proof. intros. destruct buf as [|b0 [|b1 rest]]; simpl in *; [lia..|eauto]. Qed.

Lemma phase_of_code_iff c p : phase_of_code c = Some p <-> c = phase_code p.
Proof.
  unfold phase_of_code. split.
  - repeat case_match; intros; simplify_eq; simpl; lia.
  - intros ->. by destruct p.
Qed.

Lemma type_of_code_iff c t : type_of_code c = Some t <-> c = type_code t.
Proof.
  unfold type_of_code. split.
  - repeat case_match; intros; simplify_eq; simpl; lia.
  - intros ->. by destruct t.
Qed.

(** The two nibbles of a byte. *)
Lemma nibbles b p t :
  byte_ok b -> phase_code p = Z.shiftr b 4 /\ type_code t = Z.land b 15 <->
  b = 16 * phase_code p + type_code t.
Proof.
  intros Hb. unfold byte_ok, is_uint in *.
  rewrite (Z.shiftr_div_pow2 b 4) by lia. change 15 with (Z.ones 4).
  rewrite Z.land_ones by lia. change (2 ^ 4) with 16.
  pose proof (Z.div_mod b 16). assert (0 <= type_code t < 16) by (by destruct t).
  split; [lia|]. intros ->.
  rewrite (Z.add_comm (16 * _)), (Z.mul_comm 16), Z.div_add, Z.mod_add, Z.div_small, Z.mod_small; lia.
Qed.
End Parsing.

Section Slices.
Variables (hd : ProtocolHeader) (rest : bytes).

(** The slices of an encoded header. *)
Lemma slice_header i off n x :
  header_fields hd rest !! i = Some x -> off = length (concat (take i (header_fields hd rest))) ->
  length x = n -> slice off n (encode_header hd ++ rest) = x.
Proof.
  intros Hi -> <-. unfold slice. rewrite <-concat_header_fields.
  rewrite <-(take_drop_middle _ i x Hi) at 2. rewrite concat_app. cbn [concat].
  by rewrite drop_app_length, take_app_length.
Qed.
End Slices.

Ltac field hd rest i :=
  rewrite (slice_header hd rest i _ _ _ eq_refl) by first [field_off | apply be_encode_length].

Lemma header_of_encode sync p t hd rest :
  header_wf hd -> sync = synchronousWord hd -> p = phase hd -> t = type hd ->
  header_of sync p t (encode_header hd ++ rest) = hd.
Proof.
  intros (_&H2&H3&H4&H5&H6&H7&H8&H9) -> -> ->. unfold header_of.
  field hd rest 2%nat; field hd rest 3%nat; field hd rest 4%nat; field hd rest 5%nat; field hd rest 6%nat; field hd rest 7%nat; field hd rest 8%nat; field hd rest 9%nat.
  rewrite !be_decode_encode by assumption. by destruct hd.
Qed.

Lemma encode_header_of sync p t buf :
  (26 <= length buf)%nat -> bytes_ok buf ->
  buf !! 0%nat = Some sync -> buf !! 1%nat = Some (16 * phase_code p + type_code t) ->
  encode_header (header_of sync p t buf) = take 26 buf.
Proof.
  intros Hl Hok H0 H1. unfold encode_header, header_of. simpl synchronousWord.
  cbn [phase type pieceOrder pieceSize acceptMinOrder timePoint totalCount pieceStandardSize
    totalSize acceptOrder].
  rewrite !be_encode_decode by first [apply slice_length; lia | by apply slice_ok].
  apply (app_inv_tail (drop 26 buf)). rewrite take_drop, <-!app_assoc.
  rewrite (slice_drop 24 2), (slice_drop 20 4), (slice_drop 18 2), (slice_drop 16 2),
    (slice_drop 8 8), (slice_drop 6 2), (slice_drop 4 2), (slice_drop 2 2).
  destruct buf as [|b0 [|b1 l]]; simpl in *; [done..|]. by simplify_eq.
Qed.

Lemma header_of_wf p t buf :
  (26 <= length buf)%nat -> bytes_ok buf -> header_wf (header_of defaultSynchronousWord p t buf).
Proof.
  intros Hl Hok. assert (Hs : forall off n, (off + n <= 26)%nat ->
    is_uint (8 * Z.of_nat n) (be_decode (slice off n buf))).
  { intros. rewrite <-(slice_length off n buf) at 1 by lia. apply be_decode_bound.
    by apply slice_ok. }
  split; [done|]. repeat split; apply Hs; lia.
Qed.

Section Theorems.
Context {h : Host}.

Lemma parse_eq size buf b0 b1 :
  (26 <= length buf)%nat -> bytes_ok buf -> buf !! 0%nat = Some b0 -> buf !! 1%nat = Some b1 ->
  parse size buf = Some
    (if size <? protocolHeaderSize then (partial_header 0 Request RequestSend, false)
     else if negb (b0 =? defaultSynchronousWord) then (partial_header b0 Request RequestSend, false)
     else match phase_of_code (Z.shiftr b1 4), type_of_code (Z.land b1 15) with
     | None, _ => (partial_header b0 Request RequestSend, false)
     | Some p, None => (partial_header b0 p RequestSend, false)
     | Some p, Some t => (header_of b0 p t buf, true)
     end, buf).
Proof.
  intros Hl Hok H0 H1. unfold parse. destruct (size <? protocolHeaderSize); [done|].
  erewrite P_bind_some by (by apply load_byte_at). destruct (negb _); [done|].
  do 2 erewrite P_bind_some by (by apply load_byte_at).
  destruct (phase_of_code _); [|done]. destruct (type_of_code _); [|done].
  by erewrite P_bind_some by (by apply read_fields_eq).
Qed.

Lemma parse_encode size hd rest :
  protocolHeaderSize <= size -> header_wf hd -> bytes_ok (encode_header hd ++ rest) ->
  parse size (encode_header hd ++ rest) = Some ((hd, true), encode_header hd ++ rest).
Proof.
  intros Hs Hw Hok. assert (Hb : byte_ok (16 * phase_code (phase hd) + type_code (type hd)))
    by (by apply (Forall_lookup_1 _ _ 1 _ Hok)).
  rewrite (parse_eq _ _ (synchronousWord hd) (16 * phase_code (phase hd) + type_code (type hd)))
    by (done || len).
  rewrite (proj2 (Z.ltb_ge _ _)) by done.
  pose proof (proj2 (nibbles _ (phase hd) (type hd) Hb) eq_refl) as [Hp Htt].
  rewrite (proj2 (phase_of_code_iff _ (phase hd))) by done.
  rewrite (proj2 (type_of_code_iff _ (type hd))) by done.
  rewrite (proj2 (Z.eqb_eq (synchronousWord hd) defaultSynchronousWord)) by apply Hw.
  cbn [negb]. by rewrite header_of_encode.
Qed.

(** On a packet of at least 26 bytes [parse] succeeds with a header exactly
    when the packet starts with the big-endian encoding of that header, on a
    host of either byte order, and it never changes the packet. *)
Theorem parse_correct (size : Z) (buf : bytes) (hd : ProtocolHeader) :
  (26 <= length buf)%nat -> bytes_ok buf ->
  parse size buf = Some ((hd, true), buf) <->
  protocolHeaderSize <= size /\ header_wf hd /\ take 26 buf = encode_header hd.
Proof.
  intros Hl Hok. destruct (leading_bytes buf Hl) as (b0 & b1 & l & E).
  assert (H0 : buf !! 0%nat = Some b0) by (by subst).
  assert (H1 : buf !! 1%nat = Some b1) by (by subst).
  assert (Hb : byte_ok b1) by (by eapply Forall_lookup_1 in H1).
  rewrite (parse_eq _ _ _ _ Hl Hok H0 H1). split.
  - destruct (Z.ltb_spec size protocolHeaderSize); [done|].
    destruct (Z.eqb_spec b0 defaultSynchronousWord) as [->|]; [|done]. simpl.
    destruct (phase_of_code _) as [p|] eqn:Ep; [|done].
    destruct (type_of_code _) as [t|] eqn:Et; [|done]. intros [= <-].
    apply phase_of_code_iff in Ep. apply type_of_code_iff in Et.
    assert (b1 = 16 * phase_code p + type_code t) as -> by (by apply nibbles).
    split; [done|]. split; [by apply header_of_wf|]. symmetry. by apply encode_header_of.
  - intros (Hs & Hw & Ht).
    assert (Eb : buf = encode_header hd ++ drop 26 buf) by (by rewrite <-Ht, take_drop).
    rewrite <-(parse_eq size buf b0 b1) by done. rewrite Eb. apply parse_encode; [done..|].
    by rewrite <-Eb.
Qed.

(** [memory_parse] returns a header exactly when [parse] reports success,
    the same header, and is undefined exactly when [parse] is. *)
Theorem memory_parse_agrees (size : Z) (buf : bytes) :
  memory_parse size buf =
  match parse size buf with
  | Some ((hd, true), buf') => Some (Some hd, buf')
  | Some ((_, false), buf') => Some (None, buf')
  | None => None
  end.
Proof.
  unfold memory_parse, parse. destruct (size <? protocolHeaderSize); [done|].
  unfold mbind, P_bind. destruct (load_byte 0 buf) as [[sync s]|]; [|done].
  destruct (negb _); [done|]. unfold load_byte, load, mbind, P_bind, mret, P_ret.
  case_decide; [|done]. rewrite decide_True by done.
  destruct (phase_of_code _); [|done]. destruct (type_of_code _); [|done].
  by destruct (read_fields _ _ _ _) as [[hd s']|].
Qed.

(** The header a sender starts from. *)
Definition sender_header (timePoint totalSize : Z) : ProtocolHeader :=
  {| synchronousWord := defaultSynchronousWord; phase := Request; type := RequestSend;
     pieceOrder := 0; pieceSize := protocolHeaderSize; acceptMinOrder := 0;
     timePoint := timePoint; totalCount := piece_count totalSize;
     pieceStandardSize := defaultPieceLimitSize; totalSize := totalSize; acceptOrder := 0 |}.

Lemma buffer_fields (buf : bytes) : (26 <= length buf)%nat ->
  exists x0 x1 x2 x3 x4 x5 x6 x7 x8 x9,
    buf = concat [x0; x1; x2; x3; x4; x5; x6; x7; x8; x9; drop 26 buf] /\
    length x0 = 1%nat /\ length x1 = 1%nat /\ length x2 = 2%nat /\ length x3 = 2%nat /\
    length x4 = 2%nat /\ length x5 = 8%nat /\ length x6 = 2%nat /\ length x7 = 2%nat /\
    length x8 = 4%nat /\ length x9 = 2%nat.
Proof.
  intros Hl. do 10 eexists. split; [symmetry; apply concat_fields|].
  repeat split; apply slice_length; lia.
Qed.

(** Run the next store, into field [i]. *)
Ltac put i :=
  rewrite ?P_bind_assoc;
  erewrite P_bind_some by (eapply (store_concat i); [reflexivity|seg_len|seg_len]);
  cbn [insert list_insert].
(** A size below 26 is refused; otherwise the encoding of the sender's header is
    written over the first 26 bytes, whatever the byte order of the host. *)
Lemma initiate_eq (timePoint totalSize protocolSize : Z) (buf : bytes) :
  (26 <= length buf)%nat ->
  initiateSenderProtocolHeader timePoint totalSize protocolSize buf =
  if protocolSize <? protocolHeaderSize then Some (false, buf)
  else Some (true, encode_header (sender_header timePoint totalSize) ++ drop 26 buf).
Proof.
  intros Hl. unfold initiateSenderProtocolHeader.
  destruct (protocolSize <? protocolHeaderSize); [done|].
  destruct (buffer_fields buf Hl) as
    (x0&x1&x2&x3&x4&x5&x6&x7&x8&x9&Eb&L0&L1&L2&L3&L4&L5&L6&L7&L8&L9).
  generalize dependent (drop 26 buf). intros rest ->. clear Hl.
  unfold store_byte, store_uint. put 0%nat. put 1%nat. put 2%nat. put 4%nat.
  rewrite getByteSequence_host.
  case_decide as E.
  - put 3%nat. put 5%nat. unfold reverse_at. rewrite !P_bind_assoc.
    erewrite P_bind_some by (eapply (load_concat 5); [reflexivity|seg_len|seg_len]).
    put 5%nat. put 6%nat. put 7%nat. put 8%nat. put 9%nat.
    unfold htons, htonl. rewrite !hton_store. rewrite E. simpl mem_encode.
    unfold mret, P_ret. by rewrite <-concat_header_fields.
  - assert (Eb : host_order = BigEndian) by (by destruct host_order).
    put 3%nat. put 5%nat. put 6%nat. put 7%nat. put 8%nat. put 9%nat.
    rewrite Eb. unfold mret, P_ret. by rewrite <-concat_header_fields.
Qed.

End Theorems.

(** A sender's header, written on a host of one byte order, is parsed on a
    host of any byte order as the header the sender meant: an open request with
    the message id, the length and the piece sizes. *)
Theorem sender_header_roundtrip {writer reader : Host} (timePoint totalSize size : Z) (buf : bytes) :
  (26 <= length buf)%nat -> bytes_ok buf -> protocolHeaderSize <= size ->
  is_uint 64 timePoint -> is_uint 32 totalSize ->
  exists buf', initiateSenderProtocolHeader (h := writer) timePoint totalSize size buf = Some (true, buf')
    /\ parse (h := reader) size buf' = Some ((sender_header timePoint totalSize, true), buf').
Proof.
  intros Hl Hok Hs Ht Hn. exists (encode_header (sender_header timePoint totalSize) ++ drop 26 buf).
  rewrite initiate_eq by done. rewrite (proj2 (Z.ltb_ge _ _)) by done. split; [done|].
  assert (bytes_ok (encode_header (sender_header timePoint totalSize) ++ drop 26 buf)).
  { apply Forall_app_2; [|by apply Forall_drop]. unfold encode_header.
    repeat apply Forall_app_2; try apply bytes_ok_reverse, le_encode_ok.
    repeat constructor; vm_compute; congruence. }
  apply parse_encode; [done| |done].
  assert (is_uint 16 (piece_count totalSize)) by (apply wrap_range; lia).
  split; [done|]. repeat split; first [done | lia | apply Ht | apply Hn | apply H0].
Qed.

Lemma sender_header_roundtrip_witness :
  let buf := replicate 30 7 in
  exists buf', initiateSenderProtocolHeader (h := BigEndian) 1690000000 1045 30 buf = Some (true, buf')
    /\ parse (h := LittleEndian) 30 buf' = Some ((sender_header 1690000000 1045, true), buf').
Proof.
  apply (sender_header_roundtrip (writer := BigEndian) (reader := LittleEndian)).
  - simpl. lia.
  - repeat constructor; vm_compute; congruence.
  - vm_compute. congruence.
  - split; vm_compute; congruence.
  - split; vm_compute; congruence.
Defined.

(** ** Setters *)
Definition with_type (hd : ProtocolHeader) (t : ProtocolType) : ProtocolHeader :=
  {| synchronousWord := synchronousWord hd; phase := phase hd; type := t;
     pieceOrder := pieceOrder hd; pieceSize := pieceSize hd; acceptMinOrder := acceptMinOrder hd;
     timePoint := timePoint hd; totalCount := totalCount hd;
     pieceStandardSize := pieceStandardSize hd; totalSize := totalSize hd;
     acceptOrder := acceptOrder hd |}.
Definition with_phase (hd : ProtocolHeader) (p : CommunicationPhase) : ProtocolHeader :=
  {| synchronousWord := synchronousWord hd; phase := p; type := type hd;
     pieceOrder := pieceOrder hd; pieceSize := pieceSize hd; acceptMinOrder := acceptMinOrder hd;
     timePoint := timePoint hd; totalCount := totalCount hd;
     pieceStandardSize := pieceStandardSize hd; totalSize := totalSize hd;
     acceptOrder := acceptOrder hd |}.
Definition with_orders (hd : ProtocolHeader) (order size minOrder accept : Z) : ProtocolHeader :=
  {| synchronousWord := synchronousWord hd; phase := phase hd; type := type hd;
     pieceOrder := order; pieceSize := size; acceptMinOrder := minOrder;
     timePoint := timePoint hd; totalCount := totalCount hd;
     pieceStandardSize := pieceStandardSize hd; totalSize := totalSize hd;
     acceptOrder := accept |}.

Section Setters.
Context {h : Host}.
Variables (hd : ProtocolHeader) (rest : bytes).

(** A 16-bit store in network order, whichever branch the host takes. *)
Lemma store_net i off v old :
  header_fields hd rest !! i = Some old -> off = length (concat (take i (header_fields hd rest))) ->
  length old = 2%nat ->
  store_uint off 2 (hton 2 v) (concat (header_fields hd rest))
  = Some (tt, concat (<[i := be_encode 2 v]> (header_fields hd rest))).
Proof.
  intros Hi Ho Hl. unfold store_uint. rewrite hton_store. eapply store_concat; [done..|].
  by rewrite be_encode_length.
Qed.

Abbreviation packet hd' := (concat (header_fields hd' rest)).

Lemma phase_type_byte {A} (k : Z -> P A) :
  (load_byte 1 ≫= k) (packet hd) = k (16 * phase_code (phase hd) + type_code (type hd)) (packet hd).
Proof. apply P_bind_some. by apply load_byte_at. Qed.

Lemma setProtocolType_eq t : setProtocolType t (packet hd) = Some (tt, packet (with_type hd t)).
Proof.
  unfold setProtocolType. rewrite phase_type_byte.
  unfold store_byte. erewrite (store_concat 1) by (reflexivity || done).
  unfold header_fields. cbn [insert list_insert with_type phase type].
  by destruct (phase hd), (type hd), t.
Qed.

Lemma setProtocolPhase_eq p : setProtocolPhase p (packet hd) = Some (tt, packet (with_phase hd p)).
Proof.
  unfold setProtocolPhase. rewrite phase_type_byte.
  unfold store_byte. erewrite (store_concat 1) by (reflexivity || done).
  unfold header_fields. cbn [insert list_insert with_phase phase type].
  by destruct (phase hd), (type hd), p.
Qed.

(** The two branches of a setter store the same bytes. *)
Lemma store_branches off v s :
  (if decide (getByteSequence = LittleEndian) then store_uint off 2 (htons v)
   else store_uint off 2 v) s = store_uint off 2 (hton 2 v) s.
Proof.
  rewrite getByteSequence_host. case_decide; [done|]. rewrite hton_big; [done|].
  by destruct host_order.
Qed.

Lemma setProtocolOrderAndSize_eq order size :
  setProtocolOrderAndSize order size (packet hd)
  = Some (tt, packet (with_orders hd order size (acceptMinOrder hd) (acceptOrder hd))).
Proof.
  assert (E : setProtocolOrderAndSize order size (packet hd)
    = (_ ← store_uint 2 2 (hton 2 order); store_uint 4 2 (hton 2 size)) (packet hd)).
  { unfold setProtocolOrderAndSize. rewrite getByteSequence_host. case_decide; [done|].
    rewrite !hton_big; [done|by destruct host_order..]. }
  rewrite E. erewrite P_bind_some by (eapply (store_net 2); [done|field_off|apply be_encode_length]).
  unfold store_uint. rewrite hton_store.
  erewrite (store_concat 3); [reflexivity|reflexivity|cbn; seg_len|seg_len].
Qed.

Lemma setAcceptMinOrder_eq m :
  setAcceptMinOrder m (packet hd)
  = Some (tt, packet (with_orders hd (pieceOrder hd) (pieceSize hd) m (acceptOrder hd))).
Proof.
  unfold setAcceptMinOrder. rewrite store_branches.
  erewrite (store_net 4); [done|done|field_off|apply be_encode_length].
Qed.

Lemma setACKAcceptOrder_eq a :
  setACKAcceptOrder a (packet hd)
  = Some (tt, packet (with_orders hd (pieceOrder hd) (pieceSize hd) (acceptMinOrder hd) a)).
Proof.
  assert (E : setACKAcceptOrder a (packet hd) = store_uint 24 2 (hton 2 a) (packet hd)).
  { unfold setACKAcceptOrder. rewrite getByteSequence_host. case_decide as Eb; [|].
    - by rewrite hton_big.
    - unfold htons. done. }
  rewrite E. erewrite (store_net 9); [done|done|field_off|apply be_encode_length].
Qed.

Lemma getAcceptMinOrder_eq :
  is_uint 16 (acceptMinOrder hd) ->
  getAcceptMinOrder (packet hd) = Some (acceptMinOrder hd, packet hd).
Proof.
  intros Hm. assert (El : load_uint 6 2 (packet hd)
    = Some (mem_decode host_order (be_encode 2 (acceptMinOrder hd)), packet hd)).
  { eapply (load_uint_field 4); [done|field_off|apply be_encode_length]. }
  assert (Eh : hton 2 (mem_decode host_order (be_encode 2 (acceptMinOrder hd))) = acceptMinOrder hd).
  { rewrite hton_load, be_decode_encode; [done|done|apply be_encode_length|].
    apply bytes_ok_reverse, le_encode_ok. }
  unfold getAcceptMinOrder. rewrite getByteSequence_host. case_decide.
  - rewrite (P_bind_some _ _ _ _ _ El). unfold htons. by rewrite Eh.
  - rewrite El. rewrite hton_big in Eh by (by destruct host_order). by rewrite Eh.
Qed.

(** Each setter changes its own field of an encoded header and nothing else,
    on a host of either byte order; the getters read the field back. *)
Theorem setters_correct :
  let packet hd' := encode_header hd' ++ rest in
  (forall t, setProtocolType t (packet hd) = Some (tt, packet (with_type hd t))) /\
  (forall p, setProtocolPhase p (packet hd) = Some (tt, packet (with_phase hd p))) /\
  (forall order size, setProtocolOrderAndSize order size (packet hd)
    = Some (tt, packet (with_orders hd order size (acceptMinOrder hd) (acceptOrder hd)))) /\
  (forall m, setAcceptMinOrder m (packet hd)
    = Some (tt, packet (with_orders hd (pieceOrder hd) (pieceSize hd) m (acceptOrder hd)))) /\
  (forall a, setACKAcceptOrder a (packet hd)
    = Some (tt, packet (with_orders hd (pieceOrder hd) (pieceSize hd) (acceptMinOrder hd) a))) /\
  getProtocolType (packet hd) = Some (Some (type hd), packet hd) /\
  getProtocolPhase (packet hd) = Some (Some (phase hd), packet hd) /\
  (is_uint 16 (acceptMinOrder hd) ->
    getAcceptMinOrder (packet hd) = Some (acceptMinOrder hd, packet hd)).
Proof.
  cbv zeta. setoid_rewrite <-concat_header_fields.
  repeat apply conj; auto using setProtocolType_eq, setProtocolPhase_eq,
    setProtocolOrderAndSize_eq, setAcceptMinOrder_eq, setACKAcceptOrder_eq, getAcceptMinOrder_eq.
  - unfold getProtocolType. rewrite phase_type_byte. by destruct (phase hd), (type hd).
  - unfold getProtocolPhase. rewrite phase_type_byte. by destruct (phase hd), (type hd).
Qed.
End Setters.

(** [totalCount] is the number of 522-byte pieces the message needs as long
    as that number has 16 bits; a longer message, which [totalSize] still can
    express, is announced with too few pieces to carry it. *)
Theorem piece_count_spec (totalSize : Z) :
  is_uint 32 totalSize ->
  (totalSize <= 65535 * defaultPieceLimitSize ->
    (piece_count totalSize - 1) * defaultPieceLimitSize < totalSize
    <= piece_count totalSize * defaultPieceLimitSize \/ totalSize = 0 /\ piece_count totalSize = 0) /\
  (65535 * defaultPieceLimitSize < totalSize ->
    piece_count totalSize * defaultPieceLimitSize < totalSize).
Proof.
  intros Hn. unfold piece_count, wrap. change defaultPieceLimitSize with 522.
  unfold is_uint in Hn. pose proof (Z.div_mod totalSize 522). pose proof (Z.mod_pos_bound totalSize 522).
  destruct (Z.eqb_spec (totalSize mod 522) 0); split; intros;
    try rewrite Z.mod_small by lia; try lia;
    match goal with |- ?q mod _ * _ < _ => pose proof (Z.mod_pos_bound q (2 ^ 16)) end; lia.
Qed.

Definition sample_packet : bytes :=
  [240; 16] ++ replicate 6 0 ++ [0; 0; 0; 0; 0; 0; 1; 2; 0; 1; 2; 10; 0; 0; 0; 9; 0; 0] ++ [77].

Lemma parse_correct_witness :
  exists hd, parse (h := BigEndian) 27 sample_packet = Some ((hd, true), sample_packet)
    /\ phase hd = Response /\ timePoint hd = 258 /\ totalSize hd = 9.
Proof.
  exists {| synchronousWord := 240; phase := Response; type := RequestSend; pieceOrder := 0;
    pieceSize := 0; acceptMinOrder := 0; timePoint := 258; totalCount := 1;
    pieceStandardSize := 522; totalSize := 9; acceptOrder := 0 |}.
  split; [|done]. apply (parse_correct (h := BigEndian)).
  - vm_compute. lia.
  - repeat constructor; vm_compute; congruence.
  - split; [vm_compute; congruence|].
    split; [repeat split; vm_compute; congruence|vm_compute; reflexivity].
Defined.

Lemma piece_count_spec_witness :
  piece_count 34209793 * defaultPieceLimitSize < 34209793.
Proof.
  apply (piece_count_spec 34209793).
  - split; vm_compute; congruence.
  - vm_compute. reflexivity.
Defined.
