(* ===== verification/BloomFilter.v ===== *)
(** * The bloom filter: [src/include/db/bloom_filter.cpp], [bloom_filter_store.cpp]

    The bit set is a finite set of bit positions; the store form is the string
    of bytes the filter is written to the database as. *)
From S2P Require Import Prelude Stream Uint256.

Definition BLOOM_FILTER_HASH_COUNT : nat := 8.
Definition BLOOM_FILTER_SIZE : Z := 524288.
Definition seeds : list Z :=
  [95207074; 95671760; 71937200; 69017398; 79226824; 56713949; 29781914; 45285662].

(** ** Hash functions *)

Section Hashes.
Context {host : Host}.

(** The eight-byte words of [murmur_hash2_x64], in the order of the host. *)
Fixpoint murmur_words (n : nat) (l : bytes) (h : Z) : Z * bytes :=
  match n with
  | O => (h, l)
  | S n =>
      let m := 14313749767032793493 in
      let k := mem_decode host_order (take 8 l) in
      let k := u64 (k * m) in
      let k := Z.lxor k (Z.shiftr k 47) in
      let k := u64 (k * m) in
      let h := Z.lxor h k in
      let h := u64 (h * m) in
      murmur_words n (drop 8 l) h
  end.

(** The bytes left over, from the last to the first as the [switch] falls through. *)
Definition murmur_tail (l : bytes) (h : Z) : Z :=
  match l with
  | [] => h
  | _ => u64 (foldr Z.lxor h (imap (fun i b => Z.shiftl b (8 * Z.of_nat i)) l) * 14313749767032793493)
  end.

Definition murmur_hash2_x64 (key : bytes) (seed : Z) : Z :=
  let m := 14313749767032793493 in
  let len := Z.of_nat (length key) in
  let h := Z.lxor seed (u64 (len * m)) in
  let '(h, data2) := murmur_words (Z.to_nat (len / 8)) key h in
  let h := murmur_tail data2 h in
  let h := Z.lxor h (Z.shiftr h 47) in
  let h := u64 (h * m) in
  Z.lxor h (Z.shiftr h 47).

Context `{HashHandler}.

Definition md5_x64 (key : bytes) (seed : Z) : Z :=
  let store := md5 key in
  let top := u64 (mem_decode host_order (take 8 store) * seed) in
  let bottom := u64 (mem_decode host_order (take 8 (drop 8 store)) * seed) in
  Z.lxor top bottom.

(** [get_bits_places]: the four bytes of the value in memory are the key. *)
Definition get_bits_places (value : Z) : list Z :=
  let key := mem_encode host_order 4 value in
  map (fun s => murmur_hash2_x64 key s mod BLOOM_FILTER_SIZE) (take 4 seeds)
  ++ map (fun s => md5_x64 key s mod BLOOM_FILTER_SIZE) (drop 4 seeds).
End Hashes.

(** ** The filter *)
Record bloom_filter := {
  asset : gset Z;               (** the positions of the bits that are set *)
  block_height : Z;
  block_hash : uint256;
}.

Record bloom_filter_store := {
  store_block_height : Z;
  store_block_hash : uint256;
  bloom_filter_data : bytes;
}.

Definition bloom_filter_new : bloom_filter :=
  {| asset := ∅; block_height := 0; block_hash := uint256_fill 0 |}.

(** [std::bitset::test] and [set]; an index of [BLOOM_FILTER_SIZE] or more raises,
    and [get_bits_places] yields none. *)
Definition asset_test (bits : gset Z) (i : Z) : bool := bool_decide (i ∈ bits).

Section Operations.
Context {host : Host} `{HashHandler}.

Definition test (b : bloom_filter) (value : Z) : bool :=
  forallb (asset_test (asset b)) (get_bits_places value).

(** The answer and the filter. *)
Definition insert (b : bloom_filter) (value : Z) : bool * bloom_filter :=
  let place := get_bits_places value in
  let flag := foldl (fun flag p => flag && asset_test (asset b) p) true place in
  if flag then (false, b)
  else (true, {| asset := foldl (fun bits p => {[p]} ∪ bits) (asset b) place;
                 block_height := block_height b; block_hash := block_hash b |}).

(** The byte of the store that holds bits [8i .. 8i+7]. *)
Definition store_byte (bits : gset Z) (i : Z) : Z :=
  foldl (fun acc j => if asset_test bits (8 * i + j)
                      then Z.lor acc (Z.shiftl 1 j) else acc) 0 [0; 1; 2; 3; 4; 5; 6; 7].

(** The [n] bytes from the [i]-th on. *)
Fixpoint store_bytes (bits : gset Z) (n : nat) (i : Z) : bytes :=
  match n with
  | O => []
  | S n => store_byte bits i :: store_bytes bits n (i + 1)
  end.

Definition to_store (b : bloom_filter) : bloom_filter_store :=
  {| store_block_height := block_height b; store_block_hash := block_hash b;
     bloom_filter_data := store_bytes (asset b) (Z.to_nat ((BLOOM_FILTER_SIZE + 7) / 8)) 0 |}.

(** Bit [i] of the stored string: [data[i / 8] & (1 << (i % 8))]. *)
Definition stored_bit (data : bytes) (i : Z) : bool :=
  negb (Z.land (default 0 (data !! Z.to_nat (i / 8))) (Z.shiftl 1 (i mod 8)) =? 0).

(** The loop over all positions; a string that is too short is read outside its
    buffer ([None]). *)
Definition read_store (data : bytes) : option (gset Z) :=
  if decide (BLOOM_FILTER_SIZE / 8 <= Z.of_nat (length data) + 1) then
    Some (foldl (fun bits i => if stored_bit data i then {[i]} ∪ bits else bits) ∅
            (seqZ 0 BLOOM_FILTER_SIZE))
  else None.

(** The constructor from a store, and assignment of a store to a filter. *)
Definition bloom_filter_of_store (other : bloom_filter_store) : option bloom_filter :=
  bits ← read_store (bloom_filter_data other);
  Some {| asset := bits; block_height := store_block_height other;
          block_hash := store_block_hash other |}.
Definition bloom_filter_assign_store (b : bloom_filter) (store : bloom_filter_store)
  : option bloom_filter := bloom_filter_of_store store.

(** [operator==] compares the bits only. *)
Definition bloom_filter_eqb (a b : bloom_filter) : bool :=
  forallb (fun i => Bool.eqb (asset_test (asset a) i) (asset_test (asset b) i))
    (seqZ 0 BLOOM_FILTER_SIZE).

Definition get_hash (b : bloom_filter) : uint256 := hash_bytes (bloom_filter_data (to_store b)).

Definition set_block_height (b : bloom_filter) (height : Z) : bloom_filter :=
  {| asset := asset b; block_height := height; block_hash := block_hash b |}.
Definition set_block_hash (b : bloom_filter) (hash : uint256) : bloom_filter :=
  {| asset := asset b; block_height := block_height b; block_hash := hash |}.
End Operations.

(** ** Insertion *)
Section Insertion.
Context {host : Host} `{HashHandler}.

Lemma places_bound value : Forall (fun p => 0 <= p < BLOOM_FILTER_SIZE) (get_bits_places value).
Proof.
  apply Forall_app_2; apply Forall_map, Forall_true; intros; apply Z.mod_pos_bound; done.
Qed.

Lemma foldl_and (f : Z -> bool) l acc :
  foldl (fun flag p => flag && f p) acc l = acc && forallb f l.
Proof.
  revert acc; induction l as [|x l IH]; intros; simpl; [by rewrite andb_true_r|].
  by rewrite IH, andb_assoc.
Qed.

Lemma elem_of_set_bits (l : list Z) (bits : gset Z) i :
  i ∈ foldl (fun bits p => {[p]} ∪ bits) bits l <-> i ∈ l \/ i ∈ bits.
Proof. revert bits; induction l as [|x l IH]; intros; simpl; [|rewrite IH]; set_solver. Qed.

Lemma test_spec b value :
  test b value = true <-> forall p, p ∈ get_bits_places value -> p ∈ asset b.
Proof.
  unfold test. rewrite forallb_forall. setoid_rewrite list_elem_of_In.
  unfold asset_test. by setoid_rewrite bool_decide_eq_true.
Qed.

Lemma insert_answer b value : (insert b value).1 = negb (test b value).
Proof. unfold insert, test. rewrite foldl_and, andb_true_l.
  by destruct (forallb (asset_test (asset b)) (get_bits_places value)). Qed.

Lemma elem_of_insert b value i :
  i ∈ asset (insert b value).2 <-> i ∈ get_bits_places value \/ i ∈ asset b.
Proof.
  unfold insert. rewrite foldl_and, andb_true_l. destruct (forallb (asset_test (asset b)) (get_bits_places value)) eqn:E; cbn [snd asset].
  - assert (Ht : test b value = true) by done. rewrite test_spec in Ht. naive_solver.
  - apply elem_of_set_bits.
Qed.

Definition bloom_wf (b : bloom_filter) : Prop :=
  forall i, i ∈ asset b -> 0 <= i < BLOOM_FILTER_SIZE.

Lemma insert_wf b value : bloom_wf b -> bloom_wf (insert b value).2.
Proof.
  intros Hb i. rewrite elem_of_insert. intros [Hi|Hi]; [|by apply Hb].
  pose proof (places_bound value) as Hp. rewrite Forall_forall in Hp. by apply Hp.
Qed.

Definition insert_all (b : bloom_filter) (values : list Z) : bloom_filter :=
  foldl (fun b v => (insert b v).2) b values.

Lemma elem_of_insert_all values b i :
  i ∈ asset (insert_all b values) <->
  (exists v, v ∈ values /\ i ∈ get_bits_places v) \/ i ∈ asset b.
Proof.
  revert b; induction values as [|v values IH]; intros b; cbn [foldl insert_all].
  { setoid_rewrite elem_of_nil. naive_solver. }
  fold (insert_all (insert b v).2 values).
  rewrite IH, elem_of_insert. setoid_rewrite elem_of_cons. naive_solver.
Qed.
End Insertion.

(** ** The store *)
Section Store.
Context {host : Host} `{HashHandler}.

Lemma bit_1_other k : k <> 0 -> Z.testbit 1 k = false.
Proof. intros. destruct k as [|p|p]; [done|by destruct p|done]. Qed.

Lemma store_byte_testbit bits i j :
  0 <= j < 8 -> Z.testbit (store_byte bits i) j = asset_test bits (8 * i + j).
Proof.
  intros Hj. unfold store_byte.
  assert (Hg : forall l acc, Forall (fun k => 0 <= k) l -> Z.testbit (foldl (fun acc j =>
    if asset_test bits (8 * i + j) then Z.lor acc (Z.shiftl 1 j) else acc) acc l) j
    = Z.testbit acc j || (bool_decide (j ∈ l) && asset_test bits (8 * i + j))).
  { induction l as [|k l IH]; intros acc Hl; cbn [foldl].
    { by rewrite bool_decide_eq_false_2, orb_false_r by set_solver. }
    apply Forall_cons in Hl as [Hk Hl]. rewrite IH by done. clear IH.
    destruct (decide (j = k)) as [->|Hne].
    - rewrite (bool_decide_eq_true_2 (k ∈ k :: l)) by set_solver. simpl.
      destruct (asset_test bits _); [|by rewrite andb_false_r].
      rewrite Z.lor_spec, Z.shiftl_spec, Z.sub_diag by lia. simpl. by rewrite !orb_true_r.
    - rewrite (bool_decide_ext (j ∈ k :: l) (j ∈ l)) by set_solver.
      destruct (asset_test bits (8 * i + k)); [|done].
      rewrite Z.lor_spec, Z.shiftl_spec by lia.
      rewrite (bit_1_other (j - k)) by lia. by rewrite orb_false_r. }
  rewrite Hg; [|repeat constructor; lia]. rewrite Z.bits_0. simpl.
  rewrite bool_decide_eq_true_2; [done|]. change [0; 1; 2; 3; 4; 5; 6; 7] with (seqZ 0 8). apply elem_of_seqZ. lia.
Qed.

Lemma store_bytes_length bits n i : length (store_bytes bits n i) = n.
Proof. revert i. induction n as [|n IH]; intros i; [done|]. cbn. by rewrite IH. Qed.

Lemma store_length b :
  length (bloom_filter_data (to_store b)) = Z.to_nat (BLOOM_FILTER_SIZE / 8).
Proof.
  unfold to_store. cbn [bloom_filter_data]. rewrite store_bytes_length. by apply f_equal.
Qed.

Lemma store_bytes_lookup bits n i k : (k < n)%nat ->
  store_bytes bits n i !! k = Some (store_byte bits (i + Z.of_nat k)).
Proof.
  revert i k. induction n as [|n IH]; intros i k Hk; [lia|]. destruct k as [|k]; cbn [store_bytes].
  - by rewrite Z.add_0_r.
  - change ((store_byte bits i :: store_bytes bits n (i + 1)) !! S k) with (store_bytes bits n (i + 1) !! k).
    rewrite IH by lia. f_equal. f_equal. lia.
Qed.

(** Testing a bit through a mask. *)
Lemma mask_testbit x j : 0 <= j -> negb (Z.land x (Z.shiftl 1 j) =? 0) = Z.testbit x j.
Proof.
  intros Hj. destruct (Z.testbit x j) eqn:E.
  - apply negb_true_iff, Z.eqb_neq. intros E0.
    assert (Hb : Z.testbit (Z.land x (Z.shiftl 1 j)) j = true).
    { rewrite Z.land_spec, E, Z.shiftl_spec, Z.sub_diag by lia. done. }
    rewrite E0, Z.bits_0 in Hb. done.
  - apply negb_false_iff, Z.eqb_eq, Z.bits_inj'. intros k Hk. rewrite Z.bits_0, Z.land_spec.
    destruct (decide (k = j)) as [->|Hne]; [by rewrite E|].
    rewrite Z.shiftl_spec, (bit_1_other (k - j)) by lia. apply andb_false_r.
Qed.

Lemma stored_bit_map (bits : gset Z) n i :
  0 <= i < 8 * Z.of_nat n -> stored_bit (store_bytes bits n 0) i = asset_test bits i.
Proof.
  intros Hi. unfold stored_bit.
  assert (Hd : 0 <= i / 8 < Z.of_nat n).
  { split; [apply Z.div_pos; lia|]. apply Z.div_lt_upper_bound; lia. }
  rewrite store_bytes_lookup by lia. cbn [from_option]. unfold id.
  pose proof (Z.mod_pos_bound i 8). rewrite mask_testbit, store_byte_testbit by lia.
  f_equal. pose proof (Z.div_mod i 8). lia.
Qed.

Lemma stored_bit_spec b i :
  0 <= i < BLOOM_FILTER_SIZE -> stored_bit (bloom_filter_data (to_store b)) i = asset_test (asset b) i.
Proof.
  intros Hi. apply stored_bit_map. rewrite Z2Nat.id by done.
  change ((BLOOM_FILTER_SIZE + 7) / 8) with 65536. unfold BLOOM_FILTER_SIZE in Hi. lia.
Qed.

Lemma elem_of_read bits (f : Z -> bool) l i :
  i ∈ foldl (fun bits i => if f i then {[i]} ∪ bits else bits) (bits : gset Z) l
  <-> (i ∈ l /\ f i = true) \/ i ∈ bits.
Proof.
  revert bits; induction l as [|x l IH]; intros; simpl; [set_solver|].
  rewrite IH, elem_of_cons. destruct (f x) eqn:E;
    [rewrite elem_of_union, elem_of_singleton|]; naive_solver congruence.
Qed.

Lemma read_store_spec b :
  bloom_wf b -> read_store (bloom_filter_data (to_store b)) = Some (asset b).
Proof.
  intros Hb. unfold read_store. pose proof (elem_of_seqZ 0 BLOOM_FILTER_SIZE) as Hl.
  generalize dependent (seqZ 0 BLOOM_FILTER_SIZE). intros l Hl. rewrite decide_True.
  2: { rewrite store_length, Z2Nat.id; by vm_compute. }
  f_equal. apply set_eq. intros i. rewrite elem_of_read, Hl. split.
  - intros [[Hi Ht]|Hi]; [|set_solver]. rewrite stored_bit_spec in Ht by lia.
    by apply bool_decide_eq_true in Ht.
  - intros Hi. left. specialize (Hb i Hi). split; [lia|].
    rewrite stored_bit_spec by lia. by apply bool_decide_eq_true.
Qed.
End Store.

Lemma bloom_filter_eqb_spec a b :
  bloom_wf a -> bloom_wf b -> bloom_filter_eqb a b = true <-> asset a = asset b.
Proof.
  intros Ha Hb. unfold bloom_filter_eqb. rewrite forallb_forall. setoid_rewrite <-list_elem_of_In.
  setoid_rewrite elem_of_seqZ. setoid_rewrite eqb_true_iff. unfold asset_test. split.
  - intros E. apply set_eq. intros i. specialize (E i). specialize (Ha i). specialize (Hb i).
    split; intros Hi.
    + specialize (E ltac:(specialize (Ha Hi); lia)). rewrite bool_decide_eq_true_2 in E by done.
      symmetry in E. by apply bool_decide_eq_true in E.
    + specialize (E ltac:(specialize (Hb Hi); lia)). rewrite (bool_decide_eq_true_2 (i ∈ asset b)) in E by done.
      by apply bool_decide_eq_true in E.
  - intros -> i _. done.
Qed.

(** ** Theorems *)
Section Theorems.
Context {host : Host} `{HashHandler}.

(** After any sequence of insertions [test] answers exactly whether every
    place of the value belongs to an inserted value or was set before: no
    inserted value is ever denied, and [insert] answers [false] exactly for the
    values [test] already accepts, leaving the filter as it was. *)
Theorem bloom_no_false_negatives (b : bloom_filter) (values : list Z) :
  (forall v, v ∈ values \/ test b v = true -> test (insert_all b values) v = true) /\
  (forall v, test (insert_all b values) v = true <->
    forall p, p ∈ get_bits_places v ->
      (exists w, w ∈ values /\ p ∈ get_bits_places w) \/ p ∈ asset b) /\
  (forall v, (insert b v).1 = negb (test b v)) /\
  (forall v, test b v = true -> (insert b v).2 = b).
Proof.
  assert (Hs : forall v, test (insert_all b values) v = true <->
    forall p, p ∈ get_bits_places v ->
      (exists w, w ∈ values /\ p ∈ get_bits_places w) \/ p ∈ asset b).
  { intros v. rewrite test_spec. by setoid_rewrite elem_of_insert_all. }
  split; [|split; [exact Hs|split; [apply insert_answer|]]].
  - intros v Hv. apply Hs. intros p Hp. rewrite test_spec in Hv. naive_solver.
  - intros v Hv. pose proof (insert_answer b v) as E. rewrite Hv in E. unfold insert in *.
    by destruct (foldl _ true _).
Qed.

(** The store form loses nothing: a filter whose bits are in range, which
    every sequence of insertions keeps, is read back from its store exactly, so
    filters have the same stored bytes, and hence the same hash input, and
    compare equal, exactly when their bits are equal. *)
Theorem bloom_store_roundtrip (b : bloom_filter) (values : list Z) :
  bloom_wf b ->
  let b' := insert_all b values in
  bloom_wf b' /\ bloom_filter_of_store (to_store b') = Some b' /\
  forall c, bloom_wf c ->
    (bloom_filter_data (to_store b') = bloom_filter_data (to_store c) <-> asset b' = asset c) /\
    (bloom_filter_eqb b' c = true <-> asset b' = asset c).
Proof.
  intros Hb b'. assert (Hb' : bloom_wf b').
  { intros i. unfold b'. rewrite elem_of_insert_all. intros [(v & _ & Hi)|Hi]; [|by apply Hb].
    pose proof (places_bound v) as Hp. rewrite Forall_forall in Hp. by apply Hp. }
  split; [done|]. split.
  - unfold bloom_filter_of_store. rewrite read_store_spec by done. by destruct b'.
  - intros c Hc. split; [|by apply bloom_filter_eqb_spec]. split.
    + intros E. apply (f_equal read_store) in E. rewrite !read_store_spec in E by done. congruence.
    + intros E. unfold to_store. cbn [bloom_filter_data]. by rewrite E.
Qed.
End Theorems.

Lemma bloom_store_roundtrip_witness :
  let HH := toy_HashHandler in let host : Host := LittleEndian in
  bloom_filter_of_store (to_store (insert_all bloom_filter_new [7; 1024]))
  = Some (insert_all bloom_filter_new [7; 1024]).
Proof.
  intros HH host.
  destruct (bloom_store_roundtrip (H := HH) bloom_filter_new [7; 1024]) as (_ & E & _).
  - intros i Hi. apply elem_of_empty in Hi. destruct Hi.
  - exact E.
Defined.
