(* ===== verification/Trie.v ===== *)
(** * The counting trie: [src/include/db/Trie.hpp]

    A node is a value: the pointers of the code form a tree that only the trie
    itself holds.  The loop along a word is a recursion on the word; the stack of
    the deletion loop is the return path of that recursion. *)
From S2P Require Import Prelude.

Inductive TrieNode := Node {
  children : gmap Z TrieNode;      (** keyed by [unsigned char] *)
  is_leaf : bool;
  value : bytes;
  count : Z;                       (** [uint32_t] *)
}.

(** [new TrieNode{}] *)
Definition TrieNode_new : TrieNode := Node ∅ true [] 0.

Definition set_children (n : TrieNode) (c : gmap Z TrieNode) : TrieNode :=
  Node c (is_leaf n) (value n) (count n).
Definition set_is_leaf (n : TrieNode) (b : bool) : TrieNode :=
  Node (children n) b (value n) (count n).

(** [children.empty()] *)
Definition is_empty (m : gmap Z TrieNode) : bool :=
  match map_to_list m with [] => true | _ => false end.

Lemma is_empty_spec m : reflect (m = ∅) (is_empty m).
Proof.
  unfold is_empty. destruct (map_to_list m) eqn:E; constructor.
  - by apply map_to_list_empty_iff.
  - intros ->. by rewrite map_to_list_empty in E.
Qed.

(** ** Insertion *)

(** At the end of the word. *)
Definition insert_here (word : bytes) (n : TrieNode) : TrieNode :=
  let n := match value n with [] => Node (children n) (is_leaf n) word (count n) | _ => n end in
  let n := if is_empty (children n) then set_is_leaf n true else n in
  Node (children n) (is_leaf n) (value n) (u32 (count n + 1)).

(** The loop of [insert] from node [ptr] with the rest of the word. *)
Fixpoint insert_loop (word : bytes) (ptr : TrieNode) (rest : bytes) : TrieNode :=
  match rest with
  | [] => insert_here word ptr
  | key :: rest =>
      let ptr := match children ptr !! key with
                 | Some _ => ptr
                 | None => set_children (set_is_leaf ptr false)
                             (<[key := set_is_leaf TrieNode_new false]> (children ptr))
                 end in
      set_children ptr (alter (fun next => insert_loop word next rest) key (children ptr))
  end.

Definition insert (root : TrieNode) (word : bytes) : TrieNode := insert_loop word root word.

(** ** Lookup *)
Fixpoint find (ptr : TrieNode) (word : bytes) : option TrieNode :=
  match word with
  | [] => Some ptr
  | key :: word =>
      match children ptr !! key with None => None | Some next => find next word end
  end.

Definition search (root : TrieNode) (word : bytes) : bool :=
  match find root word with None => false | Some ptr => 0 <? count ptr end.

Definition get_string_count (root : TrieNode) (word : bytes) : Z :=
  match find root word with None => 0 | Some ptr => count ptr end.

(** ** Deletion *)

(** What the loop along the stack still has to do in the parent of a node:
    nothing, or erase the node. *)
Inductive upward := Stay | EraseMe.

(** The deletion from [head] down the rest of the word: [None] when the word is
    not found, otherwise the new node and what its parent does. *)
Fixpoint delete_loop (true_remove_false_erase : bool) (head : TrieNode) (rest : bytes)
  : option (TrieNode * upward) :=
  match rest with
  | [] =>
      if count head =? 0 then None
      else
        let head := Node (children head) (is_leaf head) (value head) (u32 (count head - 1)) in
        if true_remove_false_erase && (0 <? count head) then Some (head, Stay)
        else if negb (is_leaf head) then Some (head, Stay)
        else Some (head, EraseMe)
  | key :: rest =>
      match children head !! key with
      | None => None
      | Some next =>
          match delete_loop true_remove_false_erase next rest with
          | None => None
          | Some (next, Stay) => Some (set_children head (<[key := next]> (children head)), Stay)
          | Some (_, EraseMe) =>
              let parent := set_children head (delete key (children head)) in
              if negb (is_empty (children parent)) || (0 <? count parent)
              then Some (set_is_leaf parent true, Stay)
              else Some (parent, EraseMe)
          end
      end
  end.

(** The root is in the stack but is never erased. *)
Definition delete_helper (root : TrieNode) (word : bytes) (true_remove_false_erase : bool)
  : bool * TrieNode :=
  match delete_loop true_remove_false_erase root word with
  | None => (false, root)
  | Some (root, _) => (true, root)
  end.

Definition remove (root : TrieNode) (word : bytes) : bool * TrieNode := delete_helper root word true.
Definition erase (root : TrieNode) (word : bytes) : bool * TrieNode := delete_helper root word false.

Definition clear (root : TrieNode) : TrieNode := TrieNode_new.

(** ** Counts *)

Lemma count_nil n : get_string_count n [] = count n.
Proof. done. Qed.

Lemma count_cons n k w :
  get_string_count n (k :: w)
  = match children n !! k with None => 0 | Some c => get_string_count c w end.
Proof. unfold get_string_count. cbn [find]. by destruct (children n !! k). Qed.

Lemma count_new w : get_string_count TrieNode_new w = 0.
Proof. by destruct w. Qed.

Lemma search_count n w : search n w = (0 <? get_string_count n w).
Proof. unfold search, get_string_count. by destruct (find n w). Qed.

(** Counts are machine integers and a leaf has no children. *)
Definition trie_ok (t : TrieNode) : Prop :=
  forall p n, find t p = Some n ->
    is_uint 32 (count n) /\ (is_leaf n = true -> children n = ∅).

Lemma trie_ok_child t k c : trie_ok t -> children t !! k = Some c -> trie_ok c.
Proof. intros Ht Hc p n Hp. apply (Ht (k :: p) n). simpl. by rewrite Hc. Qed.

Lemma trie_ok_intro t :
  is_uint 32 (count t) -> (is_leaf t = true -> children t = ∅) ->
  (forall k c, children t !! k = Some c -> trie_ok c) -> trie_ok t.
Proof.
  intros H1 H2 H3 [|k p] n Hp; simpl in Hp; [by simplify_eq|].
  destruct (children t !! k) as [c|] eqn:E; [|done]. by eapply H3.
Qed.

Lemma trie_ok_head t : trie_ok t -> is_uint 32 (count t) /\ (is_leaf t = true -> children t = ∅).
Proof. intros Ht. by apply (Ht []). Qed.

Lemma trie_ok_new b : trie_ok (set_is_leaf TrieNode_new b).
Proof. apply trie_ok_intro; done. Qed.

(** ** Insertion *)

(** The child the loop descends to. *)
Definition child_or_new (ptr : TrieNode) (key : Z) : TrieNode :=
  default (set_is_leaf TrieNode_new false) (children ptr !! key).

Lemma insert_loop_cons word ptr key rest :
  exists leaf, insert_loop word ptr (key :: rest)
    = Node (<[key := insert_loop word (child_or_new ptr key) rest]> (children ptr))
        leaf (value ptr) (count ptr)
    /\ (leaf = true -> is_leaf ptr = true /\ children ptr <> ∅).
Proof.
  cbn [insert_loop]. unfold child_or_new.
  destruct (children ptr !! key) as [c|] eqn:E.
  - exists (is_leaf ptr). split.
    + unfold set_children. f_equal. apply map_eq. intros k.
      destruct (decide (k = key)) as [->|]; by simplify_map_eq.
    + intros Hl. split; [done|]. intros Hc. by rewrite Hc, lookup_empty in E.
  - exists false. split; [|done].
    unfold set_children, set_is_leaf. cbn [children is_leaf value count]. f_equal.
    apply map_eq. intros k. destruct (decide (k = key)) as [->|]; by simplify_map_eq.
Qed.

Lemma insert_here_children word n : children (insert_here word n) = children n.
Proof. unfold insert_here. destruct (value n); cbn; by destruct (is_empty _). Qed.

Lemma insert_here_count word n : count (insert_here word n) = u32 (count n + 1).
Proof. unfold insert_here. destruct (value n); cbn; by destruct (is_empty _). Qed.

Lemma insert_loop_count word rest ptr w :
  get_string_count (insert_loop word ptr rest) w
  = if decide (w = rest) then u32 (get_string_count ptr w + 1) else get_string_count ptr w.
Proof.
  revert ptr w. induction rest as [|key rest IH]; intros ptr w.
  - destruct w as [|k w]; cbn [insert_loop].
    + by rewrite decide_True, !count_nil, insert_here_count.
    + by rewrite decide_False, !count_cons, insert_here_children.
  - destruct (insert_loop_cons word ptr key rest) as (leaf & -> & _).
    destruct w as [|k w]; [by rewrite decide_False|]. rewrite !count_cons. cbn [children].
    destruct (decide (k = key)) as [->|Hk].
    + rewrite lookup_insert_eq, IH. unfold child_or_new.
      assert (Hn : forall c, get_string_count (default (set_is_leaf TrieNode_new false) c) w
        = match c with None => 0 | Some c => get_string_count c w end).
      { intros []; [done|]. by destruct w. }
      rewrite Hn. destruct (decide (w = rest)) as [->|].
      * by rewrite decide_True.
      * rewrite decide_False by congruence. done.
    + rewrite lookup_insert_ne by done. by rewrite decide_False by congruence.
Qed.

Lemma insert_loop_ok word rest ptr : trie_ok ptr -> trie_ok (insert_loop word ptr rest).
Proof.
  revert ptr. induction rest as [|key rest IH]; intros ptr Hp.
  - destruct (trie_ok_head _ Hp) as [H1 H2]. cbn [insert_loop]. apply trie_ok_intro.
    + rewrite insert_here_count. apply wrap_range. lia.
    + rewrite insert_here_children. unfold insert_here. destruct (value ptr); cbn; destruct (is_empty_spec (children ptr)); auto.
    + intros k c. rewrite insert_here_children. by apply trie_ok_child.
  - destruct (insert_loop_cons word ptr key rest) as (leaf & -> & Hl).
    destruct (trie_ok_head _ Hp) as [H1 H2]. apply trie_ok_intro; [done| |].
    + intros E. destruct (Hl E) as [E1 E2]. by destruct E2; apply H2.
    + intros k c. cbn [children]. destruct (decide (k = key)) as [->|Hk].
      * rewrite lookup_insert_eq. intros [= <-]. apply IH. unfold child_or_new.
        destruct (children ptr !! key) eqn:E; simpl; [by eapply trie_ok_child|apply trie_ok_new].
      * rewrite lookup_insert_ne by done. by apply trie_ok_child.
Qed.

(** ** Deletion *)

(** The flag of the node a word leads to. *)
Definition leaf_at (t : TrieNode) (word : bytes) : bool :=
  match find t word with Some n => is_leaf n | None => false end.

(** The count a deletion leaves. *)
Definition count_after (b : bool) (t : TrieNode) (word : bytes) : Z :=
  if b || negb (leaf_at t word) then get_string_count t word - 1 else 0.

Lemma leaf_at_cons n k w c : children n !! k = Some c -> leaf_at n (k :: w) = leaf_at c w.
Proof. intros E. unfold leaf_at. simpl. by rewrite E. Qed.

Lemma no_children_count n k w : children n = ∅ -> get_string_count n (k :: w) = 0.
Proof. intros E. by rewrite count_cons, E, lookup_empty. Qed.

(** Nothing is stored below a leaf. *)
Lemma leaf_at_below t p k w :
  trie_ok t -> leaf_at t p = true -> get_string_count t (p ++ k :: w) = 0.
Proof.
  revert t. induction p as [|x p IH]; intros t Ht Hl; simpl app.
  - destruct (trie_ok_head _ Ht) as [_ Hc]. apply no_children_count. auto.
  - rewrite count_cons. destruct (children t !! x) as [c|] eqn:E; [|done].
    rewrite (leaf_at_cons _ _ _ _ E) in Hl. apply IH; [by eapply trie_ok_child|done].
Qed.

Lemma delete_loop_spec b head rest :
  trie_ok head ->
  match delete_loop b head rest with
  | None => get_string_count head rest = 0
  | Some (head', Stay) => 0 < get_string_count head rest /\
      (forall w, w <> rest -> get_string_count head' w = get_string_count head w) /\
      get_string_count head' rest = count_after b head rest
  | Some (head', EraseMe) => 0 < get_string_count head rest /\
      (forall w, w <> rest -> get_string_count head w = 0) /\
      count_after b head rest = 0 /\
      (rest <> [] -> forall w, get_string_count head' w = 0)
  end.
Proof.
  revert head. induction rest as [|key rest IH]; intros head Hok.
  - cbn [delete_loop]. rewrite count_nil. destruct (Z.eqb_spec (count head) 0); [done|].
    destruct (trie_ok_head _ Hok) as [Hc Hl]. unfold is_uint in Hc.
    rewrite wrap_small by (unfold is_uint; lia). cbn [count is_leaf].
    assert (Ho : forall w n', children n' = children head -> w <> [] ->
      get_string_count n' w = get_string_count head w).
    { intros [|k w] n' E Hw; [done|]. by rewrite !count_cons, E. }
    destruct (b && (0 <? count head - 1)) eqn:Eb.
    { apply andb_true_iff in Eb as [-> Eb]. split; [lia|]. split; [intros; by apply Ho|done]. }
    destruct (is_leaf head) eqn:El; cbn [negb].
    + split; [lia|]. split; [|split; [|done]].
      * intros [|k w] Hw; [done|]. apply no_children_count. auto.
      * unfold count_after, leaf_at. cbn [find]. rewrite El, count_nil.
        destruct b; cbn in *; lia.
    + split; [lia|]. split; [intros; by apply Ho|].
      unfold count_after, leaf_at. cbn [find]. by rewrite El, orb_true_r.
  - cbn [delete_loop]. rewrite count_cons. destruct (children head !! key) as [c|] eqn:Ec; [|done].
    specialize (IH c (trie_ok_child _ _ _ Hok Ec)).
    assert (Ea : count_after b head (key :: rest) = count_after b c rest).
    { unfold count_after. by rewrite (leaf_at_cons _ _ _ _ Ec), count_cons, Ec. }
    rewrite Ea. destruct (delete_loop b c rest) as [[c' []]|].
    + destruct IH as (H0 & H1 & H2). split; [done|]. split.
      * intros [|k w] Hw; [done|]. rewrite !count_cons. cbn [children set_children].
        destruct (decide (k = key)) as [->|]; [|by rewrite lookup_insert_ne].
        rewrite lookup_insert_eq, Ec. apply H1. congruence.
      * rewrite count_cons. cbn [children set_children]. by rewrite lookup_insert_eq.
    + destruct IH as (H0 & H1 & H2 & _). cbn [children set_children count set_is_leaf].
      assert (Hd : forall n', children n' = delete key (children head) -> count n' = count head ->
        (forall w, w <> key :: rest -> get_string_count n' w = get_string_count head w)
        /\ get_string_count n' (key :: rest) = 0).
      { intros n' E1 E2. split.
        - intros [|k w] Hw; [by rewrite !count_nil|]. rewrite !count_cons, E1.
          destruct (decide (k = key)) as [->|]; [|by rewrite lookup_delete_ne].
          rewrite lookup_delete_eq, Ec. symmetry. apply H1. congruence.
        - by rewrite count_cons, E1, lookup_delete_eq. }
      destruct (is_empty_spec (delete key (children head))) as [Ed|Ed]; cbn [negb orb].
      * destruct (Z.ltb_spec 0 (count head)).
        { split; [done|]. rewrite H2. by apply Hd. }
        destruct (trie_ok_head _ Hok) as [Hc _]. unfold is_uint in Hc.
        destruct (Hd (set_children head (delete key (children head))) eq_refl eq_refl) as [Hd1 Hd2].
        assert (Hz : forall w, get_string_count (set_children head (delete key (children head))) w = 0).
        { intros [|k w]; [rewrite count_nil; cbn; lia|]. by apply no_children_count. }
        split; [done|]. split; [|by rewrite H2].
        intros w Hw. rewrite <-Hd1 by done. apply Hz.
      * split; [done|]. rewrite H2. by apply Hd.
    + done.
Qed.

(** ** Theorems *)

(** [insert] raises the count of its word by one (modulo 2^32) and changes
    no other count, and keeps the trie well formed: counts are 32-bit and a node
    marked as a leaf has no children.  [search] answers whether the count is
    positive. *)
Theorem trie_insert_correct (t : TrieNode) (word : bytes) :
  trie_ok t ->
  trie_ok (insert t word) /\
  (forall w, get_string_count (insert t word) w
    = if decide (w = word) then u32 (get_string_count t w + 1) else get_string_count t w) /\
  (forall w, search (insert t word) w = (0 <? get_string_count (insert t word) w)).
Proof.
  intros Ht. split; [by apply insert_loop_ok|]. split; [apply insert_loop_count|apply search_count].
Qed.

Lemma trie_insert_correct_witness :
  trie_ok (insert TrieNode_new (b! "abc")) /\
  search (insert TrieNode_new (b! "abc")) (b! "abc") = true.
Proof.
  destruct (trie_insert_correct TrieNode_new (b! "abc")) as (H1 & _ & _).
  - apply trie_ok_intro; [split; vm_compute; congruence|done|done].
  - split; [exact H1|vm_compute; reflexivity].
Defined.

(** On a well-formed trie [remove] and [erase] of a non-empty word answer
    whether the word was stored, change no other count, and [remove] lowers the
    count by one; [erase] drops all insertions of the word only when its node is
    a leaf, and otherwise lowers the count by one as [remove] does. *)
Theorem trie_delete_correct (t : TrieNode) (word : bytes) (b : bool) :
  trie_ok t -> word <> [] ->
  (delete_helper t word b).1 = search t word /\
  forall w, get_string_count (delete_helper t word b).2 w
    = if bool_decide (w = word) && search t word then
        if b || negb (leaf_at t word) then get_string_count t word - 1 else 0
      else get_string_count t w.
Proof.
  intros Ht Hw. pose proof (delete_loop_spec b t word Ht) as Hs. rewrite search_count.
  fold (count_after b t word). unfold delete_helper.
  destruct (delete_loop b t word) as [[t' []]|]; cbn [fst snd].
  - destruct Hs as (H0 & H1 & H2). rewrite (proj2 (Z.ltb_lt _ _)) by done. split; [done|].
    intros w. rewrite andb_true_r. case_bool_decide; [by subst|by apply H1].
  - destruct Hs as (H0 & H1 & H2 & H3). rewrite (proj2 (Z.ltb_lt _ _)) by done. split; [done|].
    intros w. rewrite andb_true_r, H3 by done. case_bool_decide; [by subst|]. symmetry. by apply H1.
  - rewrite Hs. split; [done|]. intros w. by rewrite andb_false_r.
Qed.

Lemma trie_delete_correct_witness :
  get_string_count (erase (insert (insert TrieNode_new (b! "ab")) (b! "ab")) (b! "ab")).2 (b! "ab") = 0.
Proof.
  destruct (trie_delete_correct (insert (insert TrieNode_new (b! "ab")) (b! "ab")) (b! "ab") false)
    as (_ & E).
  - do 2 apply insert_loop_ok. apply trie_ok_intro; [split; vm_compute; congruence|done|done].
  - discriminate.
  - unfold erase. rewrite E. vm_compute. reflexivity.
Defined.

(** Removing a word marks its surviving parent as a leaf although the parent
    keeps other children; a later removal of the parent's own word then erases
    the parent with everything below it: here removing "ab" loses "abd". *)
Theorem trie_remove_loses_word :
  let t := foldl insert TrieNode_new [b! "abc"; b! "abd"] in
  let t := insert (remove t (b! "abc")).2 (b! "ab") in
  search t (b! "abd") = true /\ search (remove t (b! "ab")).2 (b! "abd") = false /\
  ~ trie_ok (remove (foldl insert TrieNode_new [b! "abc"; b! "abd"]) (b! "abc")).2.
Proof.
  split; [vm_compute; reflexivity|]. split; [vm_compute; reflexivity|].
  intros Hok. pose proof (leaf_at_below _ (b! "ab") 100 [] Hok) as Hz.
  assert (1 = 0); [|done]. rewrite <-Hz; vm_compute; reflexivity.
Qed.
