(* ===== verification/TrieSize.v ===== *)
(** * The sizes of the counting trie, and a trie that was moved from: [Trie.hpp]

    [size] and [all_size] go through the trie level by level.  The fuel is the number of
    nodes, which is always enough.  The root pointer of a trie that was moved from is
    null. *)
From S2P Require Import Prelude Trie Effects.

(** The number of nodes. *)
Fixpoint nodes_below (t : TrieNode) : nat :=
  match t with Node c _ _ _ => S (map_fold (fun _ n m => nodes_below n + m)%nat 0%nat c) end.

(** ** [size_helper] *)
Definition count_node (true_all_false_no_repeat : bool) (key_count : Z) (node : TrieNode) : Z :=
  if 0 <? count node then u32 (key_count + if true_all_false_no_repeat then count node else 1) else key_count.
Definition children_of (node : TrieNode) : list TrieNode := map snd (map_to_list (children node)).

(** One round of the loop for every level of the queue. *)
Fixpoint size_loop (fuel : nat) (true_all_false_no_repeat : bool) (layer : list TrieNode) (key_count : Z) : option Z :=
  match layer with
  | [] => Some key_count
  | _ =>
      match fuel with
      | O => None
      | S fuel =>
          size_loop fuel true_all_false_no_repeat (layer ≫= children_of)
            (fold_left (count_node true_all_false_no_repeat) layer key_count)
      end
  end.
Definition size_helper (true_all_false_no_repeat : bool) (root : TrieNode) : option Z :=
  size_loop (nodes_below root) true_all_false_no_repeat [root] 0.
Definition size (root : TrieNode) : option Z := size_helper false root.
Definition all_size (root : TrieNode) : option Z := size_helper true root.

(** ** The root pointer *)
Abbreviation trie := (option TrieNode).
Definition Trie_new : trie := Some TrieNode_new.
(** The new trie, and what is left of the other. *)
Definition Trie_move (other : trie) : trie * trie := (other, None).
(** Every operation but [clear] and [get_string_count] throws without a root. *)
Definition on_root {A} (f : TrieNode -> A * TrieNode) : M trie A := fun t =>
  match t with
  | Some root => let '(a, root) := f root in Ret a (Some root)
  | None => Throw StdException None
  end.
Definition Trie_insert (word : bytes) : M trie unit := on_root (fun root => (tt, insert root word)).
Definition Trie_search (word : bytes) : M trie bool := on_root (fun root => (search root word, root)).
Definition Trie_remove (word : bytes) : M trie bool := on_root (fun root => remove root word).
Definition Trie_erase (word : bytes) : M trie bool := on_root (fun root => erase root word).
Definition Trie_size : M trie Z := n ← on_root (fun root => (size root, root)); match n with Some n => mret n | None => undefined end.
Definition Trie_all_size : M trie Z := n ← on_root (fun root => (all_size root, root)); match n with Some n => mret n | None => undefined end.
Definition Trie_clear : M trie unit := modify_state (fun _ => Trie_new).
Definition Trie_get_string_count (word : bytes) : M trie Z :=
  modify_state (fun t => match t with None => Trie_new | _ => t end) ;;
  on_root (fun root => (get_string_count root word, root)).

(** ** The words of a trie *)
Fixpoint words (t : TrieNode) : list bytes :=
  match t with
  | Node c _ _ n => (if 0 <? n then [[]] else []) ++ map_fold (fun k child l => map (cons k) (words child) ++ l) [] c
  end.

Lemma words_eq t : words t = (if 0 <? count t then [[]] else []) ++
  concat (map (fun kn : Z * TrieNode => map (cons kn.1) (words kn.2)) (map_to_list (children t))).
Proof.
  destruct t as [c l v n]. cbn [words count children]. f_equal. rewrite map_fold_foldr.
  induction (map_to_list c) as [|[k x] m IH]; [done|]. simpl. by rewrite IH.
Qed.

Lemma nodes_below_eq t : nodes_below t = S (sum_list_with nodes_below (children_of t)).
Proof.
  destruct t as [c l v n]. unfold children_of. cbn [nodes_below children]. f_equal. rewrite map_fold_foldr.
  induction (map_to_list c) as [|[k x] m IH]; [done|]. simpl. by rewrite IH.
Qed.

Lemma nodes_below_child t k c : children t !! k = Some c -> (nodes_below c < nodes_below t)%nat.
Proof.
  intros H%elem_of_map_to_list. rewrite (nodes_below_eq t). unfold children_of.
  induction (map_to_list (children t)) as [|[k' x] m IH]; [by inversion H|]. simpl.
  apply elem_of_cons in H as [[= <- <-]|H]; [lia|]. specialize (IH H). lia.
Qed.

Lemma trie_tree_ind (P : TrieNode -> Prop) :
  (forall t, (forall k c, children t !! k = Some c -> P c) -> P t) -> forall t, P t.
Proof.
  intros Hn t. remember (nodes_below t) as n eqn:E. revert t E.
  induction n as [n IH] using lt_wf_ind. intros t ->. apply Hn. intros k c Hc. eapply IH; [|done]. by eapply nodes_below_child.
Qed.

(** They are the words with a positive count, each once. *)
Lemma words_spec t w : w ∈ words t <-> 0 < get_string_count t w.
Proof.
  revert w. induction t as [t IH] using trie_tree_ind. intros w. rewrite words_eq, elem_of_app, !list_elem_of_In, in_concat.
  destruct w as [|k w].
  - rewrite count_nil. split.
    + intros [H|(l & Hl & H)]; [destruct (Z.ltb_spec 0 (count t)); [done|by inversion H]|].
      apply in_map_iff in Hl as (kn & <- & _). apply in_map_iff in H as (x & E & _). done.
    + intros H. left. rewrite (proj2 (Z.ltb_lt _ _)) by done. by left.
  - rewrite count_cons. split.
    + intros [H|(l & Hl & H)]; [destruct (0 <? count t); simpl in H; naive_solver|].
      apply in_map_iff in Hl as ([k' c] & <- & Hc). apply in_map_iff in H as (x & [= -> ->] & H). simpl in *.
      apply list_elem_of_In, elem_of_map_to_list in Hc. rewrite Hc. by apply (IH k), list_elem_of_In.
    + destruct (children t !! k) as [c|] eqn:Hc; [|lia]. intros H. right.
      exists (map (cons k) (words c)). split.
      * apply in_map_iff. exists (k, c). split; [done|]. by apply list_elem_of_In, elem_of_map_to_list.
      * apply in_map, list_elem_of_In. by apply (IH k).
Qed.

Lemma words_nodup t : NoDup (words t).
Proof.
  induction t as [t IH] using trie_tree_ind. rewrite words_eq. apply NoDup_app. split_and!.
  - destruct (0 <? count t); repeat constructor. set_solver.
  - intros w Hw. destruct (0 <? count t); [|by inversion Hw]. apply list_elem_of_singleton in Hw as ->.
    rewrite list_elem_of_In, in_concat. intros (l & Hl & H). apply in_map_iff in Hl as (kn & <- & _).
    apply in_map_iff in H as (x & E & _). done.
  - assert (Hc : forall k c, (k, c) ∈ map_to_list (children t) -> NoDup (words c)) by (intros k c H%elem_of_map_to_list; eauto).
    pose proof (NoDup_fst_map_to_list (children t)) as Hk. revert Hc Hk.
    induction (map_to_list (children t)) as [|[k c] m IHm]; intros Hc Hk; [constructor|]. simpl in Hk |- *.
    apply NoDup_cons in Hk as [Hk1 Hk2]. apply NoDup_app. split_and!.
    + apply NoDup_fmap_2; [by intros ? ? [=]|]. apply (Hc k). by left.
    + intros w Hw. apply list_elem_of_In, in_map_iff in Hw as (x & <- & _).
      rewrite list_elem_of_In, in_concat. intros (l & Hl & H). apply in_map_iff in Hl as ([k' c'] & <- & Hin).
      apply in_map_iff in H as (y & [= -> _] & _). apply Hk1. apply list_elem_of_fmap. exists (k, c'). split; [done|].
      by apply list_elem_of_In.
    + apply IHm; [|done]. intros k' c' H. apply (Hc k'). by right.
Qed.

(** ** What the sizes are *)
Definition sum_Z {A} (f : A -> Z) (l : list A) : Z := foldr (fun x n => f x + n) 0 l.
Definition total (b : bool) (t : TrieNode) : Z := sum_Z (fun w => if b then get_string_count t w else 1) (words t).

Lemma sum_Z_cons {A} (f : A -> Z) x l : sum_Z f (x :: l) = f x + sum_Z f l.
Proof. done. Qed.
Lemma sum_Z_length {A} (l : list A) : sum_Z (fun _ => 1) l = Z.of_nat (length l).
Proof. induction l as [|x l IH]; [done|]. rewrite sum_Z_cons, IH. simpl length. lia. Qed.
Lemma sum_Z_app {A} (f : A -> Z) l k : sum_Z f (l ++ k) = sum_Z f l + sum_Z f k.
Proof. induction l as [|x l IH]; simpl; [done|]. rewrite IH. lia. Qed.
Lemma sum_Z_map {A B} (f : B -> Z) (g : A -> B) l : sum_Z f (map g l) = sum_Z (fun x => f (g x)) l.
Proof. induction l as [|x l IH]; simpl; [done|]. by rewrite IH. Qed.
Lemma sum_Z_ext {A} (f g : A -> Z) l : (forall x, x ∈ l -> f x = g x) -> sum_Z f l = sum_Z g l.
Proof.
  intros H. induction l as [|x l IH]; simpl; [done|]. rewrite IH by (intros; apply H; by right).
  by rewrite (H x) by left.
Qed.

Lemma total_eq b t : total b t =
  (if 0 <? count t then (if b then count t else 1) else 0) + sum_Z (total b) (children_of t).
Proof.
  unfold total. rewrite words_eq, sum_Z_app. f_equal.
  - destruct (0 <? count t); simpl; [rewrite count_nil; lia|done].
  - unfold children_of. rewrite sum_Z_map.
    assert (Hc : forall k c, (k, c) ∈ map_to_list (children t) -> children t !! k = Some c) by (intros k c; apply elem_of_map_to_list).
    revert Hc. generalize (map_to_list (children t)). induction l as [|[k c] l IH]; intros Hc; [done|]. simpl.
    rewrite sum_Z_app, sum_Z_map, IH by (intros; apply Hc; by right). f_equal.
    apply sum_Z_ext. intros w _. rewrite count_cons. by rewrite (Hc k c) by left.
Qed.

Lemma fold_counts b layer k : fold_left (count_node b) layer (u32 k) =
  u32 (k + sum_Z (fun t => if 0 <? count t then (if b then count t else 1) else 0) layer).
Proof.
  revert k. induction layer as [|t layer IH]; intros k; simpl; [by rewrite Z.add_0_r|].
  unfold count_node at 2. destruct (0 <? count t).
  - rewrite wrap_add_l, IH. f_equal. lia.
  - rewrite IH. f_equal.
Qed.

Lemma size_loop_spec b fuel layer k : (sum_list_with nodes_below layer <= fuel)%nat ->
  size_loop fuel b layer (u32 k) = Some (u32 (k + sum_Z (total b) layer)).
Proof.
  revert layer k. induction fuel as [|fuel IH]; intros layer k Hf.
  - destruct layer as [|t layer]; [simpl; by rewrite Z.add_0_r|]. simpl in Hf. rewrite nodes_below_eq in Hf. lia.
  - destruct layer as [|t0 layer0] eqn:El; [simpl; by rewrite Z.add_0_r|]. rewrite <- El in *.
    replace (size_loop (S fuel) b layer (u32 k)) with
      (size_loop fuel b (layer ≫= children_of) (fold_left (count_node b) layer (u32 k))) by (by rewrite El).
    assert (Hb : forall l, (sum_list_with nodes_below (l ≫= children_of) + length l = sum_list_with nodes_below l)%nat).
    { clear. induction l as [|t l IH]; [done|]. rewrite bind_cons, sum_list_with_app. simpl. rewrite (nodes_below_eq t). lia. }
    specialize (Hb layer). assert (0 < length layer)%nat by (rewrite El; simpl; lia).
    rewrite fold_counts. rewrite IH by lia. f_equal. f_equal. rewrite <- Z.add_assoc. f_equal. clear.
    induction layer as [|t layer IH]; [done|]. rewrite bind_cons, sum_Z_app, !sum_Z_cons, (total_eq b t). cbv beta. lia.
Qed.

(** [size] is the number of different words and [all_size] the number of insertions that
    are not undone, modulo 2^32: the levels always come to an end. *)
Theorem trie_sizes_correct (t : TrieNode) :
  NoDup (words t) /\ (forall w, w ∈ words t <-> 0 < get_string_count t w) /\
  size t = Some (u32 (Z.of_nat (length (words t)))) /\
  all_size t = Some (u32 (sum_Z (get_string_count t) (words t))).
Proof.
  split; [apply words_nodup|]. split; [apply words_spec|].
  assert (H : forall b, size_helper b t = Some (u32 (total b t))).
  { intros b. unfold size_helper. change 0 with (u32 0) at 1. rewrite size_loop_spec by (simpl; lia). f_equal. f_equal. simpl. lia. }
  unfold size, all_size. rewrite !H. split; [|done]. do 2 f_equal. unfold total.
  apply sum_Z_length.
Qed.

Example two_words : size (foldl insert TrieNode_new [b! "ab"; b! "abc"; b! "ab"]) = Some 2 /\
  all_size (foldl insert TrieNode_new [b! "ab"; b! "abc"; b! "ab"]) = Some 3.
Proof. split; vm_compute; reflexivity. Qed.
