(* ===== verification/PatriciaTrie.v ===== *)
(** * The compressed trie of strings: [patricia_trie.hpp], [patricia_trie.cpp]

    An edge carries a part of a key.  The two nested loops go through the word once: the
    outer takes the next edge, the inner compares it with the word, so that here both are
    a recursion on the rest of the word with the place [j] in the edge.  The pointers form
    a tree; the stack of the deletion is the return path. *)
From S2P Require Import Prelude Effects.

Inductive patricia_node := PNode {
  leaf : bool;
  sub_key : bytes;
  key : bytes;
  children : gmap Z patricia_node;
  count : Z;                          (** [uint32_t] *)
}.

Definition patricia_node_new : patricia_node := PNode true [] [] ∅ 0.
Definition with_children (c : gmap Z patricia_node) (n : patricia_node) : patricia_node :=
  PNode (leaf n) (sub_key n) (key n) c (count n).
Definition with_sub_key (s : bytes) (n : patricia_node) : patricia_node :=
  PNode (leaf n) s (key n) (children n) (count n).
Definition with_count (c : Z) (n : patricia_node) : patricia_node :=
  PNode (leaf n) (sub_key n) (key n) (children n) c.
(** A leaf for the rest of a word. *)
Definition new_leaf (word rest : bytes) : patricia_node := PNode true rest word ∅ 1.

(** ** [search] *)

(** Where a word ends: what is left of the edge, and the node below it.  Edges are not
    empty; one that was would be read beyond its end. *)
Fixpoint reach (sub : bytes) (node : patricia_node) (rest : bytes) : option (bytes * patricia_node) :=
  match rest with
  | [] => Some (sub, node)
  | c :: rest =>
      match sub with
      | x :: sub => if x =? c then reach sub node rest else None
      | [] =>
          match children node !! c with
          | None => None
          | Some child =>
              match sub_key child with
              | [] => None
              | x :: sub => if x =? c then reach sub child rest else None
              end
          end
      end
  end.
Definition search (root : patricia_node) (word : bytes) : bool * Z :=
  match reach [] root word with
  | Some ([], node) => (0 <? count node, count node)
  | _ => (false, 0)
  end.

(** ** [insert] *)

(** The word ends [j] characters into the edge of [node]: that node takes the word, and a
    new one the rest of the edge. *)
Definition shorten (word : bytes) (j : nat) (node : patricia_node) : patricia_node :=
  let child := PNode true (drop j (sub_key node)) (key node) ∅ (count node) in
  PNode false (take j (sub_key node)) word (<[hd 0 (sub_key child) := child]> (children node)) 1.
(** The word leaves the edge after [j] characters. *)
Definition split (word : bytes) (j : nat) (rest : bytes) (node : patricia_node) : patricia_node :=
  let old := with_sub_key (drop j (sub_key node)) node in
  PNode false (take j (sub_key node)) []
    (<[hd 0 rest := new_leaf word rest]> (<[hd 0 (sub_key old) := old]> ∅)) 0.

(** What takes the place of [node], of whose edge [j] characters are matched.  An empty
    edge makes the inner loop read without end. *)
Fixpoint insert_loop (word : bytes) (node : patricia_node) (j : nat) (rest : bytes) : option patricia_node :=
  match drop j (sub_key node), rest with
  | [], [] => Some (with_count (u32 (count node + 1)) node)
  | _ :: _, [] => Some (shorten word j node)
  | x :: _, c :: rest' =>
      if x =? c then insert_loop word node (S j) rest' else Some (split word j rest node)
  | [], c :: rest' =>
      match children node !! c with
      | None => Some (PNode false (sub_key node) (key node) (<[c := new_leaf word rest]> (children node)) (count node))
      | Some child =>
          match sub_key child with
          | [] => None
          | x :: _ =>
              child ← if x =? c then insert_loop word child 1 rest' else Some (split word 0 rest child);
              Some (with_children (<[c := child]> (children node)) node)
          end
      end
  end.
Definition insert (root : patricia_node) (word : bytes) : option patricia_node :=
  match word with [] => Some root | _ => insert_loop word root 0 word end.

(** ** [remove] and [erase] *)

(** What becomes of a node: it stays, another takes its place, or it goes. *)
Inductive removal := NotFound | Keep (n : patricia_node) | Replace (n : patricia_node) | Erase (first : Z).

(** At the node of the word. *)
Definition remove_here (true_remove_false_erase : bool) (node : patricia_node) : removal :=
  let node := with_count (u32 (count node - 1)) node in
  if true_remove_false_erase && (0 <? count node) then Keep node
  else
    match map_to_list (children node) with
    | [] => Erase (hd 0 (sub_key node))
    | [(_, child)] => Replace (with_sub_key (sub_key node ++ sub_key child) child)
    | _ => Keep (PNode (leaf node) (sub_key node) [] (children node) 0)
    end.

(** At its parent, below whose character [c] it is. *)
Definition remove_above (is_root : bool) (c : Z) (parent : patricia_node) (r : removal) : removal :=
  match r with
  | NotFound => NotFound
  | Keep n => Keep (with_children (<[c := n]> (children parent)) parent)
  | Replace n => Keep (with_children (<[hd 0 (sub_key n) := n]> (children parent)) parent)
  | Erase first =>
      let rest := delete first (children parent) in
      if is_root then Keep (with_children rest parent)
      else if 0 <? count parent then
        Keep (PNode (bool_decide (rest = ∅)) (sub_key parent) (key parent) rest (count parent))
      else
        match map_to_list rest with
        | [(_, brother)] => Replace (with_sub_key (sub_key parent ++ sub_key brother) brother)
        | _ => Keep (with_children rest parent)
        end
  end.

Fixpoint delete_loop (true_remove_false_erase is_root : bool) (node : patricia_node) (j : nat) (rest : bytes) : option removal :=
  match drop j (sub_key node), rest with
  | [], [] => Some (remove_here true_remove_false_erase node)
  | _ :: _, [] => Some NotFound
  | x :: _, c :: rest' =>
      if x =? c then delete_loop true_remove_false_erase is_root node (S j) rest' else Some NotFound
  | [], c :: rest' =>
      match children node !! c with
      | None => Some NotFound
      | Some child =>
          match sub_key child with
          | [] => None
          | x :: _ =>
              if x =? c then
                r ← delete_loop true_remove_false_erase false child 1 rest';
                Some (remove_above is_root c node r)
              else Some NotFound
          end
      end
  end.

(** The answer and the new root.  The loop over an empty word reads the character after it. *)
Definition delete_helper (root : patricia_node) (word : bytes) (true_remove_false_erase : bool) :
    option (bool * patricia_node) :=
  match word with
  | [] => match children root !! 0 with None => Some (false, root) | Some _ => None end
  | _ =>
      r ← delete_loop true_remove_false_erase true root 0 word;
      match r with
      | NotFound => Some (false, root)
      | Keep n => Some (true, n)
      | _ => None
      end
  end.
Definition erase (root : patricia_node) (word : bytes) := delete_helper root word false.
Definition remove (root : patricia_node) (word : bytes) := delete_helper root word true.

(** ** The root pointer, null after a move *)
Abbreviation patricia_trie := (option patricia_node).
Definition patricia_trie_new : patricia_trie := Some patricia_node_new.
Definition patricia_trie_move (other : patricia_trie) : patricia_trie * patricia_trie := (other, None).
Definition on_trie {A} (f : patricia_node -> option (A * patricia_node)) : M patricia_trie A := fun t =>
  match t with
  | None => Throw StdException None
  | Some root => match f root with Some (a, root) => Ret a (Some root) | None => Undefined end
  end.
Definition trie_insert (word : bytes) : M patricia_trie unit := on_trie (fun root => root ← insert root word; Some (tt, root)).
Definition trie_search (word : bytes) : M patricia_trie (bool * Z) := on_trie (fun root => Some (search root word, root)).
Definition trie_erase (word : bytes) : M patricia_trie bool := on_trie (fun root => erase root word).
Definition trie_remove (word : bytes) : M patricia_trie bool := on_trie (fun root => remove root word).
