(* ===== verification/PatriciaTrieTheorems.v ===== *)
(** * The compressed trie of strings is a multiset of words, within limits

    [times] reads the count of a word off the trie.  On well-formed tries an insertion
    raises it for its word alone, unless the word ends inside the edge of a node that has
    children; a deletion lowers it for its word alone, unless the word is only a prefix. *)
From S2P Require Import Prelude Effects PatriciaTrie.

Definition times_from (sub : bytes) (n : patricia_node) (w : bytes) : Z :=
  match reach sub n w with Some ([], m) => count m | _ => 0 end.
Definition times (root : patricia_node) (w : bytes) : Z := times_from [] root w.

Lemma search_times t w : search t w = (0 <? times t w, times t w).
Proof. unfold search, times, times_from. by destruct (reach [] t w) as [[[] n]|]. Qed.

(** A node that is not the root holds a word or branches. *)
Definition real (n : patricia_node) : Prop := count n = 0 -> (2 <= size (children n))%nat.
Inductive well_formed : patricia_node -> Prop :=
| wf_node n : is_uint 32 (count n) ->
    (forall c m, children n !! c = Some m -> hd_error (sub_key m) = Some c /\ real m /\ well_formed m) ->
    well_formed n.

Lemma wf_inv n : well_formed n -> is_uint 32 (count n) /\
  forall c m, children n !! c = Some m -> hd_error (sub_key m) = Some c /\ real m /\ well_formed m.
Proof. by intros []. Qed.

Lemma wf_same n n' : children n' = children n -> is_uint 32 (count n') -> well_formed n -> well_formed n'.
Proof. intros Hc Hn [_ H]%wf_inv. constructor; [exact Hn|]. rewrite Hc. exact H. Qed.

Lemma wf_empty n : children n = ∅ -> is_uint 32 (count n) -> well_formed n.
Proof. intros Hc Hn. constructor; [done|]. rewrite Hc. intros c m Hm. by rewrite lookup_empty in Hm. Qed.

(** ** Counts *)
Lemma times_nil n : times_from [] n [] = count n.
Proof. done. Qed.
Lemma times_edge_nil x s n : times_from (x :: s) n [] = 0.
Proof. done. Qed.
Lemma times_edge x s n c v : times_from (x :: s) n (c :: v) = if x =? c then times_from s n v else 0.
Proof. unfold times_from. cbn [reach]. by destruct (x =? c). Qed.
Lemma times_child n c v : well_formed n ->
  times_from [] n (c :: v) = match children n !! c with None => 0 | Some m => times_from (sub_key m) m (c :: v) end.
Proof.
  intros [_ H]%wf_inv. unfold times_from. cbn [reach]. destruct (children n !! c) as [m|] eqn:E; [|done].
  destruct (H c m E) as (Hh & _). destruct (sub_key m) as [|x s]; [done|]. cbn [reach]. by destruct (x =? c).
Qed.

Lemma times_ext sub n n' v : children n = children n' -> count n = count n' -> times_from sub n v = times_from sub n' v.
Proof.
  intros Hc Hn. unfold times_from. revert sub. induction v as [|c v IH]; intros sub; cbn [reach].
  - destruct sub; [by rewrite Hn|done].
  - destruct sub as [|x sub]; [by rewrite Hc|]. destruct (x =? c); [apply IH|done].
Qed.

Lemma times_leaf s n v : children n = ∅ -> times_from s n v = if decide (v = s) then count n else 0.
Proof.
  intros Hc. revert s. induction v as [|c v IH]; intros [|x s]; try done.
  - unfold times_from. cbn [reach]. by rewrite Hc, lookup_empty.
  - rewrite times_edge, IH. destruct (Z.eqb_spec x c) as [->|Hx].
    + destruct (decide (v = s)) as [->|]; [by rewrite decide_True|]. rewrite decide_False; congruence.
    + rewrite decide_False; congruence.
Qed.

Lemma hd_eq x s : hd_error s = Some x -> hd 0 s = x.
Proof. destruct s; simpl; congruence. Qed.

Lemma wf_child n c m : well_formed n -> children n !! c = Some m ->
  exists s, sub_key m = c :: s /\ real m /\ well_formed m.
Proof.
  intros [_ H]%wf_inv Hc. destruct (H c m Hc) as (Hh & Hr & Hw). destruct (sub_key m) as [|x s]; [done|].
  simpl in Hh. simplify_eq. eauto.
Qed.

(** Placing a child. *)
Lemma wf_place n n' c m : well_formed n -> children n' = <[c := m]> (children n) -> count n' = count n ->
  hd_error (sub_key m) = Some c -> real m -> well_formed m -> well_formed n'.
Proof.
  intros [Hn H]%wf_inv Hc E Hh Hr Hm. constructor; [by rewrite E|]. rewrite Hc. intros d x Hd.
  destruct (decide (d = c)) as [->|]; [rewrite lookup_insert_eq in Hd; by simplify_eq|].
  rewrite lookup_insert_ne in Hd by done. by apply H.
Qed.

Lemma times_place n n' c m v : well_formed n -> well_formed n' -> children n' = <[c := m]> (children n) -> count n' = count n ->
  times_from [] n' v = match v with
                       | d :: _ => if decide (d = c) then times_from (sub_key m) m v else times_from [] n v
                       | [] => times_from [] n v
                       end.
Proof.
  intros Hn Hn' Hc E. destruct v as [|d v]; [by rewrite !times_nil|].
  rewrite !times_child, Hc by done. case_decide as Hd; [by rewrite Hd, lookup_insert_eq|]. by rewrite lookup_insert_ne.
Qed.

(** ** Insertion *)
(** Where the word ends inside an edge, there is nothing below. *)
Definition ends_cleanly (sub : bytes) (n : patricia_node) (w : bytes) : bool :=
  match reach sub n w with Some (_ :: _, m) => bool_decide (children m = ∅) | _ => true end.

(** One word has its count changed. *)
Definition raised (f : Z -> Z) (old : Z) (v w : bytes) : Z := if decide (v = w) then f old else old.

Record changed (f : Z -> Z) (node node' : patricia_node) (j : nat) (rest : bytes) : Prop := {
  ins_wf : well_formed node';
  ins_take : take j (sub_key node') = take j (sub_key node);
  ins_long : (j <= length (sub_key node'))%nat;
  ins_real : sub_key node <> [] -> real node -> real node';
  ins_root : sub_key node = [] -> sub_key node' = [];
  ins_times v : times_from (drop j (sub_key node')) node' v = raised f (times_from (drop j (sub_key node)) node v) v rest;
}.

Lemma drop_nonempty {A} j (l : list A) x s : drop j l = x :: s -> (j <= length l)%nat.
Proof. intros E. destruct (decide (j <= length l)%nat); [done|]. rewrite drop_ge in E by lia. done. Qed.

Lemma drop_S_inv {A} j (l : list A) x s : drop j l = x :: s -> drop (S j) l = s.
Proof. intros E. rewrite <- Nat.add_1_r, <- drop_drop, E. done. Qed.

Lemma take_long {A} j (l : list A) : (j <= length l)%nat -> drop j (take j l) = [] /\ length (take j l) = j.
Proof. intros H. split; [apply drop_ge|]; rewrite length_take; lia. Qed.

Lemma shorten_inserted word j node x s : well_formed node -> real node -> drop j (sub_key node) = x :: s -> children node = ∅ ->
  changed Z.succ node (shorten word j node) j [].
Proof.
  intros Hw Hr E Hc. unfold shorten. rewrite E, Hc. cbn [hd sub_key].
  pose proof (drop_nonempty _ _ _ _ E) as Hj. destruct (take_long j (sub_key node) Hj) as [Hd Hlen].
  set (child := PNode true (x :: s) (key node) ∅ (count node)).
  assert (Hch : well_formed child) by (apply wf_empty; [done|by apply wf_inv in Hw as [? _]]).
  assert (Hrc : real child) by (intros E0; specialize (Hr E0); rewrite Hc in Hr; by rewrite map_size_empty in Hr; lia).
  set (node' := PNode false _ _ _ _).
  assert (Hw' : well_formed node').
  { refine (wf_place (PNode false [] [] ∅ 1) node' x child (wf_empty (PNode false [] [] ∅ 1) eq_refl _) eq_refl eq_refl eq_refl Hrc Hch). done. }
  split; cbn [sub_key children count node'].
  - done.
  - by rewrite take_take, Nat.min_id.
  - lia.
  - done.
  - intros E0. by rewrite E0, drop_nil in E.
  - intros v. rewrite Hd, E. unfold raised. destruct v as [|d v]; [done|]. rewrite decide_False by done.
    rewrite times_child by done. cbn [children node']. destruct (decide (d = x)) as [->|Hx].
    + rewrite lookup_insert_eq. by apply times_ext.
    + rewrite lookup_insert_ne, lookup_empty by done. rewrite times_edge. by destruct (Z.eqb_spec x d); subst.
Qed.

Lemma split_inserted word j rest node x s c r : well_formed node -> real node -> drop j (sub_key node) = x :: s ->
  rest = c :: r -> x <> c -> changed Z.succ node (split word j rest node) j rest.
Proof.
  intros Hw Hr E Hrest Hx. unfold split. rewrite E. cbn [hd sub_key with_sub_key].
  pose proof (drop_nonempty _ _ _ _ E) as Hj. destruct (take_long j (sub_key node) Hj) as [Hd Hlen].
  set (old := with_sub_key (x :: s) node). set (new := new_leaf word rest).
  assert (Ho : well_formed old) by (apply (wf_same node); [done|by apply wf_inv in Hw as [? _]|done]).
  assert (Hn : well_formed new) by (by apply wf_empty).
  replace (hd 0 rest) with c by (by rewrite Hrest).
  set (node' := PNode false _ _ _ _).
  assert (Hw' : well_formed node').
  { refine (wf_place (PNode false [] [] (<[x := old]> ∅) 0) node' c new _ eq_refl eq_refl _ _ Hn).
    - refine (wf_place (PNode false [] [] ∅ 0) (PNode false [] [] (<[x := old]> ∅) 0) x old (wf_empty (PNode false [] [] ∅ 0) eq_refl _) eq_refl eq_refl eq_refl Hr Ho). done.
    - cbn [new sub_key new_leaf]. by rewrite Hrest.
    - intros E0. discriminate E0. }
  split; cbn [sub_key children count node'].
  - done.
  - by rewrite take_take, Nat.min_id.
  - lia.
  - intros _ _ _. cbn [children node']. rewrite map_size_insert_None by (by rewrite lookup_insert_ne, lookup_empty).
    by rewrite map_size_insert_None, map_size_empty by apply lookup_empty.
  - intros E0. by rewrite E0, drop_nil in E.
  - intros v. rewrite Hd, E. unfold raised. destruct v as [|d v].
    { rewrite decide_False by (rewrite Hrest; done). done. }
    rewrite times_child by done. cbn [children node']. rewrite times_edge.
    destruct (decide (d = c)) as [->|Hdc].
    + rewrite lookup_insert_eq. rewrite (proj2 (Z.eqb_neq x c)) by done.
      rewrite times_leaf by done. cbn [sub_key new new_leaf count]. done.
    + rewrite lookup_insert_ne by done. rewrite decide_False by (rewrite Hrest; congruence).
      destruct (Z.eqb_spec x d) as [->|Hxd].
      * rewrite lookup_insert_eq. cbn [sub_key old with_sub_key]. rewrite times_edge, Z.eqb_refl. by apply times_ext.
      * by rewrite lookup_insert_ne, lookup_empty.
Qed.

Lemma times_below n n' c v : children n = children n' -> times_from [] n (c :: v) = times_from [] n' (c :: v).
Proof. intros Hc. unfold times_from. cbn [reach]. by rewrite Hc. Qed.

Lemma raised_cons f old c v w : raised f old (c :: v) (c :: w) = raised f old v w.
Proof. unfold raised. destruct (decide (v = w)) as [->|]; [by rewrite decide_True|]. rewrite decide_False; congruence. Qed.
Lemma raised_other f old v w : v <> w -> raised f old v w = old.
Proof. intros. unfold raised. by rewrite decide_False. Qed.

Lemma take_S_drop {A} j (l l' : list A) x s : drop j l = x :: s -> take (S j) l' = take (S j) l ->
  take j l' = take j l /\ drop j l' = x :: drop (S j) l'.
Proof.
  intros E Ht. split.
  - apply (f_equal (take j)) in Ht. by rewrite !take_take, !Nat.min_l in Ht by lia.
  - assert (Hl : l !! j = Some x) by (rewrite <- (Nat.add_0_r j), <- lookup_drop, E; done).
    assert (Hl' : l' !! j = Some x).
    { rewrite <- (lookup_take_lt l' (S j)), Ht, lookup_take_lt by lia. done. }
    by apply drop_S.
Qed.

(** A change further down the edge. *)
Lemma changed_deeper f node n j c s r : drop j (sub_key node) = c :: s -> changed f node n (S j) r -> changed f node n j (c :: r).
Proof.
  intros E [Hw Ht Hl Hre Hro Htm]. destruct (take_S_drop _ _ _ _ _ E Ht) as [Ht' Hd']. rewrite (drop_S_inv _ _ _ _ E) in Htm.
  split; try done; [lia|]. intros v. rewrite Hd', E. destruct v as [|d v]; [by rewrite raised_other|].
  rewrite !times_edge. destruct (Z.eqb_spec c d) as [->|Hcd]; [by rewrite Htm, raised_cons|].
  rewrite raised_other; congruence.
Qed.

(** A child that changes below its first character. *)
Lemma changed_child f node child child' c s r : well_formed node -> children node !! c = Some child -> sub_key child = c :: s ->
  real child -> changed f child child' 1 r -> changed f node (with_children (<[c := child']> (children node)) node) (length (sub_key node)) (c :: r).
Proof.
  intros Hw Hc Es Hrc [Hw' Ht Hl Hr _ Htimes]. rewrite Es in *. cbn [drop] in Htimes.
  destruct (sub_key child') as [|x s'] eqn:Es'; [done|]. simpl in Ht. injection Ht as ->. cbn [drop] in Htimes.
  set (node' := with_children _ node).
  assert (Hwn : well_formed node') by (refine (wf_place node node' c child' Hw eq_refl eq_refl _ (Hr ltac:(done) Hrc) Hw'); by rewrite Es').
  split; cbn [sub_key node' with_children]; try done.
  - intros _ Hrn E0. cbn [children node' with_children]. rewrite map_size_insert_Some by done. by apply Hrn.
  - intros v. rewrite drop_all. rewrite (times_place node node' c child' v Hw Hwn eq_refl eq_refl).
    destruct v as [|d v]; [by rewrite raised_other|]. case_decide as Hd.
    + subst d. rewrite Es', times_edge, Z.eqb_refl, Htimes, raised_cons, times_child, Hc, Es, times_edge, Z.eqb_refl by done. done.
    + rewrite raised_other; congruence.
Qed.

Lemma inserted_leaf word node c r : well_formed node -> children node !! c = None ->
  changed Z.succ node (PNode false (sub_key node) (key node) (<[c := new_leaf word (c :: r)]> (children node)) (count node))
    (length (sub_key node)) (c :: r).
Proof.
  intros Hw Hc. set (node' := PNode _ _ _ _ _). set (m := new_leaf word (c :: r)).
  assert (Hm : well_formed m) by (by apply wf_empty).
  assert (Hwn : well_formed node') by (refine (wf_place node node' c m Hw eq_refl eq_refl eq_refl _ Hm); intros E0; discriminate E0).
  split; cbn [sub_key node']; try done.
  - intros _ Hrn E0. cbn [children node' count] in *. rewrite map_size_insert_None by done. specialize (Hrn E0). lia.
  - intros v. rewrite drop_all. rewrite (times_place node node' c m v Hw Hwn eq_refl eq_refl).
    destruct v as [|d v]; [by rewrite raised_other|]. case_decide as Hd.
    + subst d. rewrite times_child, Hc, times_leaf by done. unfold raised. cbn [sub_key count m new_leaf]. done.
    + rewrite raised_other; congruence.
Qed.

Lemma counted f node j n : well_formed node -> drop j (sub_key node) = [] -> n = f (count node) -> is_uint 32 n -> n <> 0 ->
  (j <= length (sub_key node))%nat -> changed f node (with_count n node) j [].
Proof.
  intros Hw E Hn Hlt Hz Hj.
  split; cbn [sub_key with_count].
  - by apply (wf_same node).
  - reflexivity.
  - exact Hj.
  - intros _ _ E0. by destruct Hz.
  - done.
  - intros v. rewrite E. destruct v as [|d v]; [exact Hn|]. rewrite raised_other by done. by apply times_below.
Qed.

Lemma insert_loop_inserted word rest node j : well_formed node -> (j <= length (sub_key node))%nat ->
  (sub_key node <> [] -> real node) -> ends_cleanly (drop j (sub_key node)) node rest = true ->
  times_from (drop j (sub_key node)) node rest + 1 < 2 ^ 32 ->
  exists node', insert_loop word node j rest = Some node' /\ changed Z.succ node node' j rest.
Proof.
  revert node j. induction rest as [|c r IH]; intros node j Hw Hj Hr Hclean Hcount; cbn [insert_loop].
  - destruct (drop j (sub_key node)) as [|x s] eqn:E; [|].
    { eexists. split; [reflexivity|]. pose proof (proj1 (wf_inv _ Hw)) as Hu. unfold is_uint in Hu. rewrite times_nil in Hcount.
      rewrite wrap_small by (unfold is_uint; lia). apply counted; unfold is_uint; done || lia. }
    eexists. split; [done|]. apply (shorten_inserted word j node x s); [done| |done|].
    + apply Hr. intros E0. rewrite E0, drop_nil in E. done.
    + unfold ends_cleanly in Hclean. cbn [reach] in Hclean. by apply bool_decide_eq_true in Hclean.
  - destruct (drop j (sub_key node)) as [|x s] eqn:E.
    + assert (Ej : j = length (sub_key node)).
      { apply (f_equal length) in E. rewrite length_drop in E. simpl in E. lia. }
      destruct (children node !! c) as [child|] eqn:Hc; [|subst j; eexists; split; [done|by apply inserted_leaf]].
      destruct (wf_child _ _ _ Hw Hc) as (s & Es & Hrc & Hwc). rewrite Es, Z.eqb_refl.
      destruct (IH child 1%nat) as (child' & Ei & Hi).
      * done.
      * rewrite Es. simpl. lia.
      * done.
      * rewrite Es. unfold ends_cleanly in *. cbn [reach drop] in *. by rewrite Hc, Es, Z.eqb_refl in Hclean.
      * rewrite Es. rewrite times_child, Hc, Es, times_edge, Z.eqb_refl in Hcount by done. done.
      * rewrite Ei. eexists. split; [reflexivity|]. subst j. by apply (changed_child Z.succ node child child' c s r).
    + assert (Hrn : real node) by (apply Hr; intros E0; by rewrite E0, drop_nil in E).
      destruct (Z.eqb_spec x c) as [->|Hx].
      * pose proof (drop_S_inv _ _ _ _ E) as Es.
        destruct (IH node (S j)) as (node' & Ei & Hi); rewrite ?Es.
        -- done.
        -- apply (f_equal length) in E. rewrite length_drop in E. simpl in E. lia.
        -- done.
        -- unfold ends_cleanly in *. cbn [reach] in Hclean. by rewrite Z.eqb_refl in Hclean.
        -- by rewrite times_edge, Z.eqb_refl in Hcount.
        -- exists node'. split; [done|]. by apply (changed_deeper _ _ _ _ _ s).
      * eexists. split; [done|]. by apply (split_inserted word j (c :: r) node x s c r).
Qed.

(** ** Deletion *)
Lemma one_child (m : gmap Z patricia_node) k n : map_to_list m = [(k, n)] -> m = {[k := n]}.
Proof. intros E. by apply (map_to_list_insert_inv m [] k n); rewrite E. Qed.
Lemma many_children (m : gmap Z patricia_node) a b l : map_to_list m = a :: b :: l -> (2 <= size m)%nat.
Proof. intros E. rewrite <- length_map_to_list, E. simpl. lia. Qed.
Lemma no_child (m : gmap Z patricia_node) : map_to_list m = [] -> m = ∅.
Proof. by intros ->%map_to_list_empty_iff. Qed.

Definition lowered (b : bool) (old : Z) : Z := if b then old - 1 else 0.

Inductive removed (f : Z -> Z) (node : patricia_node) (j : nat) (rest : bytes) : removal -> Prop :=
| removed_keep n : changed f node n j rest -> removed f node j rest (Keep n)
| removed_replace n : sub_key node <> [] -> changed f node n j rest -> removed f node j rest (Replace n)
| removed_erase : sub_key node <> [] -> f (times_from (drop j (sub_key node)) node rest) = 0 ->
    (forall v, v <> rest -> times_from (drop j (sub_key node)) node v = 0) ->
    removed f node j rest (Erase (hd 0 (sub_key node))).


Lemma merge_child node k child v : well_formed node -> children node = {[k := child]} ->
  times_from (sub_key child) (with_sub_key (sub_key node ++ sub_key child) child) v
  = match v with [] => 0 | _ => times_from [] node v end.
Proof.
  intros Hw Hc. destruct (wf_child node k child Hw) as (s & Es & _); [by rewrite Hc, lookup_singleton_eq|].
  rewrite (times_ext _ _ child) by done. rewrite Es. destruct v as [|d v]; [done|].
  rewrite times_child, Hc, times_edge by done. destruct (Z.eqb_spec k d) as [->|Hk].
  - by rewrite lookup_singleton_eq, Es, times_edge, Z.eqb_refl.
  - by rewrite lookup_singleton_ne.
Qed.

Lemma merge_wf node k child : well_formed node -> children node = {[k := child]} ->
  well_formed (with_sub_key (sub_key node ++ sub_key child) child) /\ real (with_sub_key (sub_key node ++ sub_key child) child).
Proof.
  intros Hw Hc. destruct (wf_child node k child Hw) as (s & Es & Hr & Hch); [by rewrite Hc, lookup_singleton_eq|].
  split; [|exact Hr]. apply (wf_same child); [reflexivity| |exact Hch]. by apply wf_inv in Hch as [? _].
Qed.

(** Merging a node into its child, when nothing else is lost. *)
Lemma merge_changed f node mid k child j rest : well_formed mid -> sub_key mid = sub_key node -> children mid = {[k := child]} ->
  j = length (sub_key node) -> sub_key node <> [] ->
  (forall v, v <> [] -> times_from [] mid v = raised f (times_from [] node v) v rest) ->
  raised f (count node) [] rest = 0 ->
  changed f node (with_sub_key (sub_key node ++ sub_key child) child) j rest.
Proof.
  intros Hw Hs Hc -> Hne Ht Hz. rewrite <- Hs in *. destruct (merge_wf mid k child Hw Hc) as [Hw' Hr].
  split; [exact Hw'| | |by intros _ _|congruence|].
  - cbn [sub_key with_sub_key]. rewrite take_app_length, take_ge; by rewrite Hs.
  - cbn [sub_key with_sub_key]. rewrite length_app. lia.
  - intros v. cbn [sub_key with_sub_key]. rewrite <- Hs, drop_app_length, drop_all, (merge_child mid k child v Hw Hc).
    destruct v as [|d v]; [by rewrite times_nil|]. by apply Ht.
Qed.

Lemma remove_here_removed b node : well_formed node -> real node -> sub_key node <> [] -> 0 < count node ->
  removed (lowered b) node (length (sub_key node)) [] (remove_here b node).
Proof.
  intros Hw Hr Hs Hn. pose proof (proj1 (wf_inv _ Hw)) as Hu. unfold is_uint in Hu.
  unfold remove_here. rewrite wrap_small by (unfold is_uint; lia). cbn [count with_count children sub_key leaf].
  destruct (b && (0 <? count node - 1)) eqn:Eb.
  { apply andb_true_iff in Eb as [-> Eb]. apply removed_keep, counted; unfold is_uint; simpl; lia || done || apply drop_all. }
  assert (Hlow : lowered b (count node) = 0) by (destruct b; simpl in *; lia).
  destruct (map_to_list (children node)) as [|[k child] [|e l]] eqn:El.
  - apply no_child in El. apply removed_erase; [done|by rewrite drop_all|]. intros v Hv. rewrite drop_all.
    rewrite times_leaf by done. by rewrite decide_False.
  - apply one_child in El. apply removed_replace; [done|]. apply (merge_changed _ node node k child); try done.
    intros v Hv. by rewrite raised_other.
  - apply many_children in El. apply removed_keep. split; cbn [sub_key].
    + apply (wf_same node); [reflexivity| |exact Hw]. done.
    + reflexivity.
    + lia.
    + intros _ _ _. exact El.
    + done.
    + intros v. rewrite drop_all. destruct v as [|d v].
      * unfold raised. rewrite decide_True by done. by rewrite !times_nil, Hlow.
      * rewrite raised_other by done. by apply times_below.
Qed.

(** Without a child that held one word only. *)
Lemma without_child f node n' c s child r : well_formed node -> children node !! c = Some child -> sub_key child = c :: s ->
  children n' = delete c (children node) -> count n' = count node ->
  f (times_from s child r) = 0 -> (forall v, v <> r -> times_from s child v = 0) ->
  well_formed n' /\ forall v, times_from [] n' v = raised f (times_from [] node v) v (c :: r).
Proof.
  intros Hw Hc Es Hd Hn Hf Ho.
  assert (Hw' : well_formed n').
  { apply wf_inv in Hw as [Hu H]. constructor; [by rewrite Hn|]. rewrite Hd. intros d m [_ Hm]%lookup_delete_Some. by apply H. }
  split; [exact Hw'|]. intros [|d v]; [by rewrite raised_other, !times_nil|].
  rewrite !times_child, Hd by done. destruct (decide (d = c)) as [->|Hdc].
  - rewrite lookup_delete_eq, Hc, Es, times_edge, Z.eqb_refl, raised_cons. unfold raised.
    case_decide as Hv; [by subst|]. symmetry. by apply Ho.
  - rewrite lookup_delete_ne by done. rewrite raised_other; congruence.
Qed.

Lemma remove_above_removed f is_root c parent child r res : well_formed parent -> (sub_key parent <> [] -> real parent) ->
  children parent !! c = Some child -> is_root = bool_decide (sub_key parent = []) -> removed f child 1 r res ->
  removed f parent (length (sub_key parent)) (c :: r) (remove_above is_root c parent res).
Proof.
  intros Hw Hr Hc Hroot Hres. destruct (wf_child _ _ _ Hw Hc) as (s & Es & Hrc & Hwc).
  assert (Hk : forall n, changed f child n 1 r -> hd 0 (sub_key n) = c).
  { intros n [_ Ht _ _ _ _]. rewrite Es in Ht. destruct (sub_key n); [done|]. simpl in *. congruence. }
  destruct Hres as [n Hch|n _ Hch|_ Hf Ho]; cbn [remove_above].
  - apply removed_keep. by apply (changed_child f parent child n c s r).
  - apply removed_keep. rewrite (Hk n Hch). by apply (changed_child f parent child n c s r).
  - rewrite Es in Hf, Ho |- *. cbn [hd drop] in *.
    assert (Hdel : forall n', children n' = delete c (children parent) -> count n' = count parent -> sub_key n' = sub_key parent ->
      (sub_key parent <> [] -> real parent -> real n') -> changed f parent n' (length (sub_key parent)) (c :: r)).
    { intros n' E1 E2 E3 E4. destruct (without_child f parent n' c s child r Hw Hc Es E1 E2 Hf Ho) as [Hw' Ht].
      split; [exact Hw'|by rewrite E3|by rewrite E3|exact E4|by rewrite E3|]. intros v. rewrite E3, drop_all. apply Ht. }
    destruct is_root.
    { apply removed_keep, Hdel; try done. intros Hs. symmetry in Hroot. by apply bool_decide_eq_true in Hroot. }
    symmetry in Hroot. apply bool_decide_eq_false in Hroot. specialize (Hr Hroot).
    destruct (Z.ltb_spec 0 (count parent)) as [Hp|Hp].
    { apply removed_keep, Hdel; try done. intros _ _ E0. cbn [count] in E0. lia. }
    assert (Hz : count parent = 0) by (apply wf_inv in Hw as [Hu _]; unfold is_uint in Hu; lia).
    specialize (Hr Hz). assert (Hsize : size (children parent) = S (size (delete c (children parent)))) by (by apply map_size_delete_Some_1 with child || (rewrite map_size_delete, Hc; lia)).
    destruct (map_to_list (delete c (children parent))) as [|[k brother] [|e l]] eqn:El.
    + apply no_child in El. rewrite El, map_size_empty in Hsize. lia.
    + apply one_child in El. apply removed_replace; [done|].
      set (mid := with_children (delete c (children parent)) parent).
      destruct (without_child f parent mid c s child r Hw Hc Es eq_refl eq_refl Hf Ho) as [Hw' Ht].
      apply (merge_changed f parent mid k brother); try done.
    + apply removed_keep, Hdel; try done. intros _ _ _. cbn [children with_children]. by eapply many_children.
Qed.

Lemma removed_deeper f node j c s r res : drop j (sub_key node) = c :: s -> removed f node (S j) r res -> removed f node j (c :: r) res.
Proof.
  intros E [n Hc|n Hs Hc|Hs Hf Ho]; [apply removed_keep|apply removed_replace|apply removed_erase]; eauto using changed_deeper.
  - rewrite E, times_edge, Z.eqb_refl. by rewrite (drop_S_inv _ _ _ _ E) in Hf.
  - intros v Hv. rewrite (drop_S_inv _ _ _ _ E) in Ho. rewrite E. destruct v as [|d v]; [done|]. rewrite times_edge.
    destruct (Z.eqb_spec c d) as [->|]; [|done]. apply Ho. congruence.
Qed.

Lemma delete_loop_removed b rest is_root node j : well_formed node -> (j <= length (sub_key node))%nat ->
  (sub_key node <> [] -> real node) -> is_root = bool_decide (sub_key node = []) -> (rest = [] -> sub_key node <> []) ->
  0 < times_from (drop j (sub_key node)) node rest ->
  exists res, delete_loop b is_root node j rest = Some res /\ removed (lowered b) node j rest res.
Proof.
  revert is_root node j. induction rest as [|c r IH]; intros is_root node j Hw Hj Hr Hroot Hne Hpos; cbn [delete_loop].
  - destruct (drop j (sub_key node)) as [|x s] eqn:E; [|by rewrite times_edge_nil in Hpos].
    assert (Ej : j = length (sub_key node)) by (apply (f_equal length) in E; rewrite length_drop in E; simpl in E; lia).
    eexists. split; [reflexivity|]. subst j. apply remove_here_removed; auto.
  - destruct (drop j (sub_key node)) as [|x s] eqn:E.
    + assert (Ej : j = length (sub_key node)) by (apply (f_equal length) in E; rewrite length_drop in E; simpl in E; lia).
      rewrite times_child in Hpos by done. destruct (children node !! c) as [child|] eqn:Hc; [|done].
      destruct (wf_child _ _ _ Hw Hc) as (s & Es & Hrc & Hwc). rewrite Es, Z.eqb_refl.
      rewrite Es, times_edge, Z.eqb_refl in Hpos.
      destruct (IH false child 1%nat) as (res & Ei & Hi); rewrite ?Es; try done; [simpl; lia|].
      rewrite Ei. eexists. split; [reflexivity|]. subst j. by apply remove_above_removed with child.
    + rewrite times_edge in Hpos. destruct (Z.eqb_spec x c) as [->|Hx]; [|done].
      destruct (IH is_root node (S j)) as (res & Ei & Hi); try done.
      * apply (f_equal length) in E. rewrite length_drop in E. simpl in E. lia.
      * intros _ E0. by rewrite E0, drop_nil in E.
      * by rewrite (drop_S_inv _ _ _ _ E).
      * exists res. split; [exact Ei|]. by apply (removed_deeper _ _ _ _ s).
Qed.

(** The word is on no node. *)
Definition on_node (sub : bytes) (n : patricia_node) (w : bytes) : bool := match reach sub n w with Some ([], _) => true | _ => false end.

Lemma delete_loop_absent b rest is_root node j : well_formed node -> (j <= length (sub_key node))%nat ->
  on_node (drop j (sub_key node)) node rest = false -> delete_loop b is_root node j rest = Some NotFound.
Proof.
  revert is_root node j. induction rest as [|c r IH]; intros is_root node j Hw Hj Ho; cbn [delete_loop];
    unfold on_node in Ho; cbn [reach] in Ho; destruct (drop j (sub_key node)) as [|x s] eqn:E; try done.
  - destruct (children node !! c) as [child|] eqn:Hc; [|done]. destruct (wf_child _ _ _ Hw Hc) as (s & Es & Hrc & Hwc).
    rewrite Es in Ho |- *. rewrite Z.eqb_refl in Ho |- *. rewrite IH; [done|done|rewrite Es; simpl; lia|]. by rewrite Es.
  - destruct (Z.eqb_spec x c) as [->|Hx]; [|done]. apply IH; [done| |].
    + apply (f_equal length) in E. rewrite length_drop in E. simpl in E. lia.
    + by rewrite (drop_S_inv _ _ _ _ E).
Qed.

(** ** A multiset of words *)
Inductive operation := Insert (w : bytes) | Remove (w : bytes) | EraseAll (w : bytes) | Search (w : bytes).
Inductive answer := Inserted | Removed (b : bool) | Found (r : bool * Z).

Definition run_operation (o : operation) (t : patricia_node) : option (answer * patricia_node) :=
  match o with
  | Insert w => t ← insert t w; Some (Inserted, t)
  | Remove w => '(b, t) ← remove t w; Some (Removed b, t)
  | EraseAll w => '(b, t) ← erase t w; Some (Removed b, t)
  | Search w => Some (Found (search t w), t)
  end.
Definition multiplicity (m : gmap bytes Z) (w : bytes) : Z := default 0 (m !! w).
Definition spec_operation (o : operation) (m : gmap bytes Z) : answer * gmap bytes Z :=
  match o with
  | Insert [] => (Inserted, m)
  | Insert w => (Inserted, <[w := multiplicity m w + 1]> m)
  | Remove w => if 0 <? multiplicity m w then (Removed true, <[w := multiplicity m w - 1]> m) else (Removed false, m)
  | EraseAll w => if 0 <? multiplicity m w then (Removed true, delete w m) else (Removed false, m)
  | Search w => (Found (0 <? multiplicity m w, multiplicity m w), m)
  end.

(** What the trie does right: the count of a word fits, a new word does not end in an edge
    above other nodes, and what is deleted is a word and not a mere prefix. *)
Definition allowed (o : operation) (t : patricia_node) : bool :=
  match o with
  | Insert w => ends_cleanly [] t w && (times t w + 1 <? 2 ^ 32)
  | Remove w | EraseAll w =>
      negb (bool_decide (w = [])) && ((0 <? times t w) || negb (on_node [] t w))
  | Search _ => true
  end.

Fixpoint run_operations (os : list operation) (t : patricia_node) : option (list answer * patricia_node) :=
  match os with
  | [] => Some ([], t)
  | o :: os => '(a, t) ← run_operation o t; '(l, t) ← run_operations os t; Some (a :: l, t)
  end.
Fixpoint spec_operations (os : list operation) (m : gmap bytes Z) : list answer * gmap bytes Z :=
  match os with
  | [] => ([], m)
  | o :: os => let '(a, m) := spec_operation o m in let '(l, m) := spec_operations os m in (a :: l, m)
  end.
Fixpoint all_allowed (os : list operation) (t : patricia_node) : bool :=
  match os with
  | [] => true
  | o :: os => allowed o t && match run_operation o t with Some (_, t) => all_allowed os t | None => false end
  end.

Record represents (t : patricia_node) (m : gmap bytes Z) : Prop := {
  rep_wf : well_formed t;
  rep_root : sub_key t = [];
  rep_times w : times t w = multiplicity m w;
}.

Lemma changed_represents f t t' m w m' : represents t m -> changed f t t' 0 w ->
  (forall v, multiplicity m' v = raised f (multiplicity m v) v w) -> represents t' m'.
Proof.
  intros [Hw Hr Ht] [Hw' _ _ _ Hroot Htm] Hm. pose proof (Hroot Hr) as Hr'. split; [done|done|]. intros v. specialize (Htm v).
  rewrite !drop_0, Hr, Hr' in Htm. unfold times in *. by rewrite Htm, Ht, Hm.
Qed.

Lemma multiplicity_insert m w n f v : f (multiplicity m w) = n -> multiplicity (<[w := n]> m) v = raised f (multiplicity m v) v w.
Proof.
  intros <-. unfold multiplicity, raised. case_decide as E; [subst; by rewrite lookup_insert_eq|by rewrite lookup_insert_ne].
Qed.
Lemma multiplicity_delete m w v : multiplicity (delete w m) v = raised (lowered false) (multiplicity m v) v w.
Proof.
  unfold multiplicity, raised. case_decide as E; [subst; by rewrite lookup_delete_eq|by rewrite lookup_delete_ne].
Qed.

Lemma absent_times t w : on_node [] t w = false -> times t w = 0.
Proof. unfold on_node, times, times_from. by destruct (reach [] t w) as [[[] n]|]. Qed.

Lemma deletion_represents b t m w : represents t m -> w <> [] -> (0 <? times t w) || negb (on_node [] t w) = true ->
  exists t', delete_helper t w b = Some (0 <? multiplicity m w, t') /\
    forall m', (forall v, multiplicity m' v = raised (lowered b) (multiplicity m v) v w) ->
    represents t' (if 0 <? multiplicity m w then m' else m).
Proof.
  intros Hrep Hne Ho. destruct Hrep as [Hw Hr Ht] eqn:Erep. clear Erep. unfold delete_helper. destruct w as [|c r] eqn:Ew; [done|]. rewrite <- Ew in *.
  destruct (Z.ltb_spec 0 (times t w)) as [Hpos|Hz].
  - assert (Hpos' : 0 < times_from (drop 0 (sub_key t)) t w) by (by rewrite drop_0, Hr).
    destruct (delete_loop_removed b w true t 0 Hw) as (res & El & Hres); try done; try (by rewrite Hr); try lia.
    rewrite <- Ht, (proj2 (Z.ltb_lt _ _)) by done. destruct Hres as [n Hch|n Hs _|Hs _ _]; [|by rewrite Hr in Hs..].
    rewrite El. eexists. split; [reflexivity|]. intros m' Hm'. eapply changed_represents; [by split|exact Hch|exact Hm'].
  - apply negb_true_iff in Ho. rewrite delete_loop_absent; [|done|lia|by rewrite drop_0, Hr].
    rewrite <- Ht, (proj2 (Z.ltb_ge _ _)) by done. eexists. split; [reflexivity|]. intros _ _. by split.
Qed.

Lemma operation_represents o t m : represents t m -> allowed o t = true ->
  exists t', run_operation o t = Some ((spec_operation o m).1, t') /\ represents t' (spec_operation o m).2.
Proof.
  intros Hrep Ha. destruct o as [w|w|w|w]; cbn [run_operation allowed] in *.
  - apply andb_true_iff in Ha as [Hc Hn%Z.ltb_lt]. destruct w as [|c r] eqn:Ew; [by eexists|]. rewrite <- Ew in *.
    destruct Hrep as [Hw Hr Ht] eqn:Erep. clear Erep.
    destruct (insert_loop_inserted w w t 0 Hw) as (t' & Ei & Hch); rewrite ?Hr, ?drop_0; try done; try lia.
    unfold insert. rewrite Ew in Ei |- *. rewrite Ei. eexists. split; [reflexivity|]. rewrite <- Ew. simpl.
    rewrite Ew in Hch. eapply changed_represents; [by split|exact Hch|]. intros v. rewrite Ew. by apply multiplicity_insert.
  - apply andb_true_iff in Ha as [Hw%negb_true_iff%bool_decide_eq_false Ho].
    destruct (deletion_represents true t m w Hrep Hw Ho) as (t' & E & Ht'). unfold remove. rewrite E.
    specialize (Ht' (<[w := multiplicity m w - 1]> m)). eexists. split; [simpl; by case_match|].
    cbn [spec_operation]. case_match; cbn [snd]; apply Ht'; intros v; by apply multiplicity_insert.
  - apply andb_true_iff in Ha as [Hw%negb_true_iff%bool_decide_eq_false Ho].
    destruct (deletion_represents false t m w Hrep Hw Ho) as (t' & E & Ht'). unfold erase. rewrite E.
    specialize (Ht' (delete w m)). eexists. split; [simpl; by case_match|].
    cbn [spec_operation]. case_match; cbn [snd]; apply Ht'; intros v; apply multiplicity_delete.
  - eexists. split; [|exact Hrep]. rewrite search_times. simpl. by rewrite (rep_times t m Hrep).
Qed.

Lemma new_represents : represents patricia_node_new ∅.
Proof. split; [by apply wf_empty|done|]. by intros [|c w]. Qed.

(** C39: Any sequence of insertions, removals, erasures and searches on a new trie gives
    the answers of a multiset of words, in a trie whose nodes below the root all hold a word or
    branch, as long as no new word ends inside an edge above other nodes and nothing
    is deleted that is only a prefix; then nothing is undefined. *)
Theorem patricia_refines_multiset os : all_allowed os patricia_node_new = true ->
  exists t, run_operations os patricia_node_new = Some ((spec_operations os ∅).1, t) /\
    well_formed t /\ forall w, search t w = (0 <? multiplicity (spec_operations os ∅).2 w, multiplicity (spec_operations os ∅).2 w).
Proof.
  cut (forall t m, represents t m -> all_allowed os t = true ->
    exists t', run_operations os t = Some ((spec_operations os m).1, t') /\ represents t' (spec_operations os m).2).
  { intros H Ha. destruct (H _ _ new_represents Ha) as (t' & E & [Hw Hr Ht]). exists t'. split; [done|]. split; [done|].
    intros w. by rewrite search_times, Ht. }
  induction os as [|o os IH]; intros t m Hrep Ha; [by eexists|]. cbn [all_allowed] in Ha.
  apply andb_true_iff in Ha as [Ho Ha]. destruct (operation_represents o t m Hrep Ho) as (t1 & E1 & H1).
  rewrite E1 in Ha. destruct (IH t1 _ H1 Ha) as (t2 & E2 & H2). cbn [run_operations spec_operations]. rewrite E1. simpl.
  rewrite E2. simpl. destruct (spec_operation o m) as [a m1]. simpl in *. destruct (spec_operations os m1) as [l m2]. simpl in *.
  eauto.
Qed.

(** A new word inside an edge above other nodes: "abcd" becomes "abd". *)
Example prefix_moves_words : exists t, run_operations [Insert (b! "abc"); Insert (b! "abcd"); Insert (b! "ab")] patricia_node_new
    = Some ([Inserted; Inserted; Inserted], t) /\
  search t (b! "abcd") = (false, 0) /\ search t (b! "abd") = (true, 1).
Proof. eexists. split; [vm_compute; reflexivity|]. split; vm_compute; reflexivity. Qed.

(** A prefix that was never inserted is removed, and is there afterwards, 2^32 - 1 times. *)
Example phantom_removed : exists t, run_operations [Insert (b! "abc"); Insert (b! "abd"); Search (b! "ab"); Remove (b! "ab")] patricia_node_new
    = Some ([Inserted; Inserted; Found (false, 0); Removed true], t) /\
  search t (b! "ab") = (true, 4294967295).
Proof. eexists. split; vm_compute; reflexivity. Qed.

Lemma patricia_refines_multiset_witness : exists t,
  run_operations [Insert (b! "apple"); Insert (b! "app"); Insert (b! "apply"); Remove (b! "app"); EraseAll (b! "pear")] patricia_node_new
    = Some ([Inserted; Inserted; Inserted; Removed true; Removed false], t) /\
  search t (b! "app") = (false, 0) /\ search t (b! "apple") = (true, 1).
Proof.
  destruct (patricia_refines_multiset [Insert (b! "apple"); Insert (b! "app"); Insert (b! "apply"); Remove (b! "app"); EraseAll (b! "pear")]
    ltac:(vm_compute; reflexivity)) as (t & E & _ & Hs).
  exists t. split; [rewrite E; vm_compute; reflexivity|]. rewrite !Hs. split; vm_compute; reflexivity.
Defined.
