(* ===== verification/Account.v ===== *)
(** * Accounts and receipts: [account.cpp], [receipt.cpp]

    An account's balances are a finite map from asset type to amount; the
    [std::runtime_error] of [reduce_balance] is an error value. *)
From S2P Require Import Prelude Stream Uint256.

Record account := {
  address : uint256;
  nonce : Z;                       (** [uint64_t] *)
  balances : gmap Z Z;             (** [std::map<uint32_t, uint64_t>] *)
}.

Inductive account_error := ReduceBalanceError.

Definition account_new : account :=
  {| address := uint256_fill 0; nonce := 0; balances := ∅ |}.
Definition account_make (_address : uint256) (_nonce : Z) : account :=
  {| address := _address; nonce := _nonce; balances := ∅ |}.

Definition with_balances (a : account) (m : gmap Z Z) : account :=
  {| address := address a; nonce := nonce a; balances := m |}.
Definition set_nonce (a : account) (_nonce : Z) : account :=
  {| address := address a; nonce := _nonce; balances := balances a |}.
Definition set_address (a : account) (_address : uint256) : account :=
  {| address := _address; nonce := nonce a; balances := balances a |}.

Definition get_balance (a : account) (_asset_type : Z) : Z :=
  match balances a !! _asset_type with Some v => v | None => 0 end.

Definition reduce_balance (a : account) (_asset_type count : Z) : res account_error account :=
  match balances a !! _asset_type with
  | Some prev =>
      if prev <? count then Err ReduceBalanceError
      else if prev =? count then Ok (with_balances a (delete _asset_type (balances a)))
      else Ok (with_balances a (<[_asset_type := u64 (prev - count)]> (balances a)))
  | None => Err ReduceBalanceError
  end.

Definition add_balance (a : account) (_asset_type count : Z) : account :=
  match balances a !! _asset_type with
  | Some v => with_balances a (<[_asset_type := u64 (v + count)]> (balances a))
  | None => with_balances a (<[_asset_type := count]> (balances a))
  end.

Definition delete_asset (a : account) (_asset_type : Z) : account :=
  with_balances a (delete _asset_type (balances a)).

Definition set_balance (a : account) (_asset_type count : Z) : account :=
  match balances a !! _asset_type with
  | Some _ =>
      if 0 <? count then with_balances a (<[_asset_type := count]> (balances a))
      else with_balances a (delete _asset_type (balances a))
  | None =>
      if 0 <? count then with_balances a (<[_asset_type := count]> (balances a))
      else with_balances a (delete _asset_type (balances a))
  end.

(** ** Hash *)

(** The order in which a [std::map] is visited. *)
Definition entry_before (x y : Z * Z) : Prop := x.1 <= y.1.
#[global] Instance entry_before_dec : RelDecision entry_before.
Proof. intros x y. unfold entry_before. apply _. Defined.

Section Hash.
Context {host : Host} `{HashHandler}.

(** The hash of an [n]-byte object in memory. *)
Definition hash_object (n : nat) (v : Z) : uint256 := hash_bytes (mem_encode host_order n v).

(** One entry of the loop of [get_hash]: the type is hashed from the first four
    bytes of the amount. *)
Definition balance_hash (temp : uint256) (key_value : Z * Z) : uint256 :=
  let temp_value := hash_object 8 key_value.2 in
  let temp_type := hash_bytes (take 4 (mem_encode host_order 8 key_value.2)) in
  ((temp + temp_type) + temp_value)%U.

Definition account_get_hash (a : account) : uint256 :=
  let temp := foldl balance_hash uint256_zero
                (merge_sort entry_before (map_to_list (balances a))) in
  let result := (address a + temp)%U in
  let temp := hash_object 8 (nonce a) in
  let result := (result + temp)%U in
  get_sha3_256 result.
End Hash.

(** ** Receipts *)
Record receipt := {
  nonce_start : Z;
  receipt_balances : gmap Z (Z * Z);   (** what is left, what has to go *)
  receipt_nonce : list Z;
}.

(** [nonce[i] != nonce[i - 1] + 1] *)
Fixpoint consecutive (prev : Z) (l : list Z) : bool :=
  match l with
  | [] => true
  | x :: l => if x =? u64 (prev + 1) then consecutive x l else false
  end.

(** The answer, and the receipt with its nonces sorted in place. *)
Definition check_nonce (r : receipt) : bool * receipt :=
  match receipt_nonce r with
  | [] => (true, r)
  | [n] => (n =? u64 (nonce_start r + 1), r)
  | _ =>
      let sorted := merge_sort Z.le (receipt_nonce r) in
      let r := {| nonce_start := nonce_start r; receipt_balances := receipt_balances r;
                  receipt_nonce := sorted |} in
      match sorted with
      | [] => (true, r)
      | x :: l => if x =? u64 (nonce_start r + 1) then (consecutive x l, r) else (false, r)
      end
  end.

Definition check (r : receipt) : bool * receipt :=
  let '(ok, r) := check_nonce r in
  if negb ok then (false, r)
  else (forallb (fun kv : Z * (Z * Z) => kv.2.2 <=? kv.2.1) (map_to_list (receipt_balances r)), r).

Definition receipt_start (start : Z) : receipt := {| nonce_start := start; receipt_balances := ∅; receipt_nonce := [] |}.
Definition receipt_new : receipt := receipt_start 0.
(** A move leaves the number and empties the rest. *)
Definition receipt_move (other : receipt) : receipt * receipt := (other, receipt_start (nonce_start other)).
(** The code is [return true]. *)
Definition input_and_check (T : Type) (r : receipt) (trans : T) : bool := true.

(** ** Lemmas *)

(** The invariant stated in [account.hpp]: balances are positive 64-bit amounts. *)
Definition account_wf (a : account) : Prop :=
  map_Forall (fun _ v => 0 < v < 2 ^ 64) (balances a).

Lemma with_balances_id a : with_balances a (balances a) = a.
Proof. by destruct a. Qed.

Lemma with_balances_twice a m m' : with_balances (with_balances a m) m' = with_balances a m'.
Proof. done. Qed.

Lemma get_balance_with a m t : get_balance (with_balances a m) t = default 0 (m !! t).
Proof. unfold get_balance. simpl. by destruct (m !! t). Qed.

Lemma get_balance_default a t : get_balance a t = default 0 (balances a !! t).
Proof. unfold get_balance. by destruct (balances a !! t). Qed.

Lemma get_balance_nonneg a t : account_wf a -> 0 <= get_balance a t < 2 ^ 64.
Proof.
  intros Ha. rewrite get_balance_default. destruct (balances a !! t) eqn:E; simpl; [|lia].
  apply Ha in E. lia.
Qed.

(** ** Theorems *)

(** Reading an account after each of its operations: the asset concerned has
    the amount the operation promises, every other asset keeps its own, and
    [reduce_balance] fails exactly when the asset is missing or too small.
    Balances stay positive as long as no zero amount is added and no sum passes
    2^64. *)
Theorem account_operations_correct (a : account) (t c : Z) :
  account_wf a -> 0 <= c < 2 ^ 64 ->
  (forall t', get_balance (add_balance a t c) t'
    = if decide (t' = t) then u64 (get_balance a t + c) else get_balance a t') /\
  (forall t', get_balance (set_balance a t c) t'
    = if decide (t' = t) then c else get_balance a t') /\
  (reduce_balance a t c = Err ReduceBalanceError
    <-> balances a !! t = None \/ get_balance a t < c) /\
  (forall a', reduce_balance a t c = Ok a' -> account_wf a' /\ forall t', get_balance a' t'
    = if decide (t' = t) then get_balance a t - c else get_balance a t') /\
  account_wf (set_balance a t c) /\
  (0 < c -> get_balance a t + c < 2 ^ 64 -> account_wf (add_balance a t c)).
Proof.
  intros Ha Hc. pose proof (get_balance_nonneg a t Ha) as Hg.
  rewrite get_balance_default in Hg |- *. unfold add_balance, set_balance, reduce_balance.
  destruct (balances a !! t) as [v|] eqn:E; simpl in Hg |- *.
  - pose proof (Ha _ _ E) as Hv. simpl in Hv.
    split; [|split; [|split; [|split; [|split]]]].
    + intros t'. rewrite get_balance_with, get_balance_default.
      case_decide; by simplify_map_eq.
    + intros t'. destruct (Z.ltb_spec 0 c); rewrite get_balance_with, get_balance_default;
        case_decide; simplify_map_eq; try done. simpl. lia.
    + destruct (Z.ltb_spec v c); [split; auto|]. destruct (v =? c); split; try done; intros [|]; lia || done.
    + intros a'. destruct (Z.ltb_spec v c); [done|]. destruct (Z.eqb_spec v c); intros [= <-].
      * split; [by apply map_Forall_delete|]. intros t'.
        rewrite get_balance_with, get_balance_default. case_decide; simplify_map_eq; [simpl; lia|done].
      * rewrite wrap_small by (unfold is_uint; lia).
        split; [apply map_Forall_insert_2; [lia|done]|]. intros t'.
        rewrite get_balance_with, get_balance_default. case_decide; by simplify_map_eq.
    + destruct (Z.ltb_spec 0 c); [apply map_Forall_insert_2; [lia|done]|by apply map_Forall_delete].
    + intros. apply map_Forall_insert_2; [|done]. rewrite wrap_small by (unfold is_uint; lia). lia.
  - split; [|split; [|split; [|split; [|split]]]].
    + intros t'. rewrite get_balance_with, get_balance_default. rewrite wrap_small by (unfold is_uint; lia).
      case_decide; by simplify_map_eq.
    + intros t'. destruct (Z.ltb_spec 0 c); rewrite get_balance_with, get_balance_default;
        case_decide; simplify_map_eq; try done. simpl. lia.
    + split; auto.
    + done.
    + destruct (Z.ltb_spec 0 c); [apply map_Forall_insert_2; [lia|done]|by apply map_Forall_delete].
    + intros. apply map_Forall_insert_2; [lia|done].
Qed.

Definition sample_account : account :=
  {| address := sample_uint256; nonce := 3; balances := <[7 := 100]> ∅ |}.

Lemma account_operations_correct_witness :
  get_balance (add_balance sample_account 7 5) 7 = 105 /\
  reduce_balance sample_account 7 101 = Err ReduceBalanceError.
Proof.
  destruct (account_operations_correct sample_account 7 5) as (H1 & _).
  - apply map_Forall_insert_2; [lia|apply map_Forall_empty].
  - lia.
  - split; [|vm_compute; reflexivity]. rewrite H1. vm_compute. reflexivity.
Defined.

(** [reduce_balance] undoes [add_balance] of a positive amount, and
    [add_balance] undoes a successful [reduce_balance], giving back the very same
    account: this is what a rollback relies on. *)
Theorem add_reduce_roundtrip (a : account) (t c : Z) :
  account_wf a ->
  (0 < c -> get_balance a t + c < 2 ^ 64 -> reduce_balance (add_balance a t c) t c = Ok a) /\
  (forall a', 0 <= c -> reduce_balance a t c = Ok a' -> add_balance a' t c = a).
Proof.
  intros Ha. rewrite get_balance_default. unfold add_balance, reduce_balance.
  destruct (balances a !! t) as [v|] eqn:E; simpl.
  - pose proof (Ha _ _ E) as Hv. simpl in Hv. split.
    + intros Hc Hs. rewrite lookup_insert_eq. rewrite wrap_small by (unfold is_uint; lia).
      rewrite (proj2 (Z.ltb_ge _ _)), (proj2 (Z.eqb_neq _ _)) by lia.
      rewrite insert_insert_eq. rewrite wrap_small by (unfold is_uint; lia).
      rewrite with_balances_twice, Z.add_simpl_r, insert_id by done. by destruct a.
    + intros a' Hc. destruct (Z.ltb_spec v c); [done|].
      destruct (Z.eqb_spec v c) as [->|]; intros [= <-]; simpl.
      * rewrite lookup_delete_eq, with_balances_twice, insert_delete_id by done. by destruct a.
      * rewrite lookup_insert_eq, insert_insert_eq.
        rewrite (wrap_small 64 (v - c)), wrap_small by (unfold is_uint; lia).
        rewrite with_balances_twice, Z.sub_add, insert_id by done. by destruct a.
  - split; [|done]. intros Hc Hs. rewrite lookup_insert_eq, Z.ltb_irrefl, Z.eqb_refl.
    rewrite with_balances_twice, delete_insert_id by done. by destruct a.
Qed.

Lemma add_reduce_roundtrip_witness :
  reduce_balance (add_balance sample_account 9 4) 9 4 = Ok sample_account.
Proof.
  apply (add_reduce_roundtrip sample_account 9 4).
  - apply map_Forall_insert_2; [lia|apply map_Forall_empty].
  - lia.
  - vm_compute. reflexivity.
Defined.

Section HashTheorems.
Context {host : Host} `{HashHandler}.

(** The contribution of an amount, whatever its asset type. *)
Definition amount_hash (v : Z) : uint256 :=
  (hash_bytes (take 4 (mem_encode host_order 8 v)) + hash_object 8 v)%U.

Definition sum_hashes (l : list Z) : uint256 := foldr (fun v s => (amount_hash v + s)%U) uint256_zero l.

Lemma amount_hash_wf v : uint256_wf (amount_hash v).
Proof. apply uint256_add_wf; apply hash_bytes_wf. Qed.

Lemma sum_hashes_wf l : uint256_wf (sum_hashes l).
Proof.
  induction l; [apply uint256_zero_wf|]. apply uint256_add_wf; [apply amount_hash_wf|done].
Qed.

Lemma foldl_balance_hash l temp :
  uint256_wf temp ->
  foldl balance_hash temp l = (temp + sum_hashes (map snd l))%U.
Proof.
  revert temp. induction l as [|[k v] l IH]; intros temp Ht; simpl.
  { by rewrite uint256_add_0_r. }
  rewrite IH.
  - unfold balance_hash, amount_hash. simpl. by rewrite !uint256_add_assoc.
  - apply uint256_add_wf; [apply uint256_add_wf; [done|]|]; apply hash_bytes_wf.
Qed.

Lemma sum_hashes_perm l k : Permutation l k -> sum_hashes l = sum_hashes k.
Proof.
  induction 1; simpl; [done|congruence| |congruence].
  rewrite <-!uint256_add_assoc. by rewrite (uint256_add_comm (amount_hash y)).
Qed.

Lemma account_get_hash_eq a :
  account_get_hash a = get_sha3_256
    ((address a + sum_hashes (map snd (map_to_list (balances a)))) + hash_object 8 (nonce a))%U.
Proof.
  unfold account_get_hash. rewrite foldl_balance_hash by apply uint256_zero_wf. do 3 f_equal.
  rewrite uint256_add_comm, uint256_add_0_r by apply sum_hashes_wf.
  apply sum_hashes_perm, fmap_Permutation, merge_sort_Permutation.
Qed.

(** An account's hash does not depend on the asset types it holds: only the
    amounts are hashed, so moving an amount to another asset type, or exchanging
    the amounts of two types, keeps the hash; and because everything is summed
    before the final digest, any balances and nonce have the hash of [a] under a
    suitable address. *)
Theorem account_hash_ignores_types (a b : account) :
  uint256_wf (address a) -> nonce a = nonce b ->
  (address a = address b ->
    Permutation (map snd (map_to_list (balances a))) (map snd (map_to_list (balances b))) ->
    account_get_hash a = account_get_hash b) /\
  exists addr, uint256_wf addr /\ account_get_hash (set_address b addr) = account_get_hash a.
Proof.
  intros Ha En. rewrite !account_get_hash_eq. split.
  - intros -> Hp. by rewrite (sum_hashes_perm _ _ Hp), En.
  - set (x := sum_hashes (map snd (map_to_list (balances b)))).
    set (y := sum_hashes (map snd (map_to_list (balances a)))).
    assert (Hx : uint256_wf x) by apply sum_hashes_wf.
    assert (Hy : uint256_wf y) by apply sum_hashes_wf.
    exists ((address a + y) + uint256_opp x)%U. split.
    { apply uint256_add_wf; [by apply uint256_add_wf|by apply uint256_opp_wf]. }
    rewrite account_get_hash_eq. simpl. fold x. rewrite En. f_equal. f_equal.
    rewrite (uint256_add_comm _ x). apply uint256_add_opp; [done|by apply uint256_add_wf].
Qed.
End HashTheorems.

Lemma account_hash_ignores_types_witness :
  let HH := toy_HashHandler in let host : Host := LittleEndian in
  account_get_hash sample_account
  = account_get_hash (with_balances sample_account (<[8 := 100]> ∅)).
Proof.
  intros HH host.
  apply (account_hash_ignores_types (H := HH) sample_account
    (with_balances sample_account (<[8 := 100]> ∅))).
  - exact sample_uint256_wf.
  - reflexivity.
  - reflexivity.
  - vm_compute. constructor. constructor.
Defined.

(** ** Receipts *)
Lemma consecutive_spec x l :
  0 <= x -> x + Z.of_nat (length l) < 2 ^ 64 ->
  consecutive x l = true <-> l = seqZ (x + 1) (Z.of_nat (length l)).
Proof.
  revert x. induction l as [|y l IH]; intros x H0 Hx; [done|].
  cbn [consecutive length] in *. rewrite Nat2Z.inj_succ, seqZ_cons by lia.
  rewrite wrap_small by (unfold is_uint; lia).
  replace (Z.pred (Z.succ (Z.of_nat (length l)))) with (Z.of_nat (length l)) by lia.
  destruct (Z.eqb_spec y (x + 1)) as [->|].
  - rewrite IH by lia. rewrite <-Z.add_1_r. split; congruence.
  - split; congruence.
Qed.

Lemma check_nonce_eq r :
  (check_nonce r).1 = consecutive (nonce_start r) (merge_sort Z.le (receipt_nonce r)).
Proof.
  unfold check_nonce. destruct (receipt_nonce r) as [|x [|y l]] eqn:E.
  - done.
  - simpl. by destruct (x =? _).
  - destruct (merge_sort Z.le (x :: y :: l)) as [|z m] eqn:Em; [done|].
    simpl. by destruct (z =? _).
Qed.

Lemma seqZ_sorted m n : Sorted Z.le (seqZ m n).
Proof.
  destruct (decide (0 <= n)); [|rewrite seqZ_nil by lia; constructor].
  revert m. revert n l. apply (natlike_ind (fun n => forall m, Sorted Z.le (seqZ m n))).
  - intros. rewrite seqZ_nil by lia. constructor.
  - intros n Hn IH m. rewrite seqZ_cons, Z.pred_succ by lia. constructor; [apply IH|].
    destruct (decide (n = 0)) as [->|]; [constructor|]. rewrite seqZ_cons by lia.
    constructor. lia.
Qed.

(** [check_nonce] accepts exactly the receipts whose nonces are, in some
    order, the numbers right behind [nonce_start], each once. *)
Theorem check_nonce_correct (r : receipt) :
  Forall (is_uint 64) (receipt_nonce r) -> 0 <= nonce_start r ->
  nonce_start r + Z.of_nat (length (receipt_nonce r)) < 2 ^ 64 ->
  (check_nonce r).1 = true <->
  Permutation (receipt_nonce r) (seqZ (nonce_start r + 1) (Z.of_nat (length (receipt_nonce r)))).
Proof.
  intros Hn H0 Hs. rewrite check_nonce_eq. set (n := Z.of_nat (length (receipt_nonce r))) in *.
  assert (Hl : Z.of_nat (length (merge_sort Z.le (receipt_nonce r))) = n).
  { unfold n. by rewrite merge_sort_Permutation. }
  rewrite consecutive_spec by (rewrite ?Hl; lia). rewrite Hl. split.
  - intros E. by rewrite <-E, merge_sort_Permutation.
  - intros Hp. apply (Sorted_unique Z.le); [apply Sorted_merge_sort; apply _|apply seqZ_sorted|].
    by rewrite merge_sort_Permutation.
Qed.

Lemma check_nonce_correct_witness :
  (check_nonce {| nonce_start := 4; receipt_balances := ∅; receipt_nonce := [7; 5; 6] |}).1 = true.
Proof.
  apply check_nonce_correct.
  - repeat constructor; vm_compute; congruence.
  - vm_compute. congruence.
  - vm_compute. reflexivity.
  - change (Permutation [7; 5; 6] [5; 6; 7]). apply (Permutation_cons_append [5; 6] 7).
Defined.

