(* ===== verification/Transaction.v ===== *)
(** * Transactions: [transaction.cpp], [out_entry.cpp]

    The fields of a transaction live in a 64-byte array and are read and written
    through cast pointers, in the byte order of the host. *)
From S2P Require Import Prelude Stream Uint256.

Inductive transaction_version := Ban | V0001.
Inductive transaction_operator := NullOP | Append | Establish.

#[global] Instance transaction_operator_eq_dec : EqDecision transaction_operator.
Proof. solve_decision. Defined.
#[global] Instance transaction_version_eq_dec : EqDecision transaction_version.
Proof. solve_decision. Defined.

Definition version_code (v : transaction_version) : Z := match v with Ban => 0 | V0001 => 1 end.
Definition operator_code (o : transaction_operator) : Z :=
  match o with NullOP => 0 | Append => 1 | Establish => 2 end.

Record out_entry := { receiver : uint256; out_count : Z }.

Definition Bytes : nat := 64.

Record transaction := {
  tdata : bytes;            (** [std::array<uint8_t, 64>] *)
  signature : bytes;
  outs : list out_entry;
}.

Definition with_tdata (t : transaction) (d : bytes) : transaction :=
  {| tdata := d; signature := signature t; outs := outs t |}.

(** The copy and move constructors and assignments leave the signature out: a
    constructed object has an empty one, an assigned object keeps its own. *)
Definition transaction_copy (other : transaction) : transaction :=
  {| tdata := tdata other; signature := []; outs := outs other |}.
Definition transaction_move (other : transaction) : transaction :=
  {| tdata := tdata other; signature := []; outs := outs other |}.
Definition transaction_copy_assign (this other : transaction) : transaction :=
  {| tdata := tdata other; signature := signature this; outs := outs other |}.
Definition transaction_move_assign (this other : transaction) : transaction :=
  {| tdata := tdata other; signature := signature this; outs := outs other |}.

Section Fields.
Context {host : Host}.

(** A [uint]-typed store or load at [&data[off]] *)
Definition store_at (t : transaction) (off n : nat) (v : Z) : transaction :=
  with_tdata t (put off (mem_encode host_order n v) (tdata t)).
Definition load_at (t : transaction) (off n : nat) : Z :=
  mem_decode host_order (slice off n (tdata t)).

Definition set_transaction_version (t : transaction) (_type : transaction_version) : transaction :=
  with_tdata t (put 0 [version_code _type] (tdata t)).
Definition get_transaction_version (t : transaction) : transaction_version :=
  if decide (slice 0 1 (tdata t) = [version_code V0001]) then V0001 else Ban.

Definition set_asset_type (t : transaction) (_type : Z) : transaction := store_at t 1 4 _type.
Definition get_asset_type (t : transaction) : Z := load_at t 1 4.

Definition set_transaction_operator (t : transaction) (_op : transaction_operator) : transaction :=
  with_tdata t (put 5 [operator_code _op] (tdata t)).
Definition get_transaction_operator (t : transaction) : transaction_operator :=
  if decide (slice 5 1 (tdata t) = [operator_code Append]) then Append
  else if decide (slice 5 1 (tdata t) = [operator_code Establish]) then Establish
  else NullOP.

Definition set_count (t : transaction) (_count : Z) : transaction := store_at t 6 8 _count.
Definition get_count (t : transaction) : Z := load_at t 6 8.

Definition set_create_time (t : transaction) (_create_time : Z) : transaction :=
  store_at t 14 8 _create_time.
Definition get_create_time (t : transaction) : Z := load_at t 14 8.

Definition set_expired_epoch (t : transaction) (_epoch : Z) : transaction := store_at t 22 1 _epoch.
Definition get_expired_epoch (t : transaction) : Z := load_at t 22 1.

Definition set_sender (t : transaction) (_sender : uint256) : transaction :=
  with_tdata t (put 23 (data _sender) (tdata t)).
Definition get_sender (t : transaction) : uint256 := Uint (slice 23 Width (tdata t)).

Definition set_nonce (t : transaction) (nonce : Z) : transaction := store_at t 55 8 nonce.
Definition get_nonce (t : transaction) : Z := load_at t 55 8.

Definition set_signature (t : transaction) (_signature : bytes) : transaction :=
  {| tdata := tdata t; signature := _signature; outs := outs t |}.
Definition push_output (t : transaction) (_receiver : uint256) (_count : Z) : transaction :=
  {| tdata := tdata t; signature := signature t;
     outs := outs t ++ [{| receiver := _receiver; out_count := _count |}] |}.

(** ** Constructors

    [mem] is what the array held before: only the default constructor fills it. *)
Definition transaction_new : transaction :=
  set_transaction_version {| tdata := replicate Bytes 0; signature := []; outs := [] |} V0001.

Definition transaction_append (mem : bytes) (_sender : uint256) (nonce _count _type _create_time
  _epoch : Z) (t_op : transaction_operator) (_tv : transaction_version) : transaction :=
  let t := {| tdata := mem; signature := []; outs := [] |} in
  let t := set_nonce t nonce in
  let t := set_create_time t _create_time in
  let t := set_asset_type t _type in
  let t := set_sender t _sender in
  let t := set_expired_epoch t _epoch in
  let t := set_count t _count in
  let t := set_transaction_operator t t_op in
  set_transaction_version t _tv.

Definition transaction_establish (mem : bytes) (_sender : uint256) (nonce _type _create_time
  _epoch : Z) (t_op : transaction_operator) (_tv : transaction_version) : transaction :=
  let t := {| tdata := mem; signature := []; outs := [] |} in
  let t := set_nonce t nonce in
  let t := set_create_time t _create_time in
  let t := set_asset_type t _type in
  let t := set_sender t _sender in
  let t := set_expired_epoch t _epoch in
  let t := set_transaction_operator t t_op in
  set_transaction_version t _tv.

(** ** Hash *)
Definition transaction_get_hash `{HashHandler} (t : transaction) : uint256 :=
  let result := hash_bytes (tdata t) in
  let result := (result + get_sender t)%U in
  foldl (fun result out =>
    let result := (result + receiver out)%U in
    let temp := hash_bytes (mem_encode host_order 8 (out_count out)) in
    (temp + result)%U) result (outs t).
End Fields.

(** ** Field layout *)
Definition transaction_wf (t : transaction) : Prop :=
  length (tdata t) = Bytes /\ bytes_ok (tdata t).

Section Layout.
Context {host : Host}.

Lemma load_put_same t off n v :
  (off + n <= length (tdata t))%nat -> is_uint (8 * Z.of_nat n) v ->
  load_at (store_at t off n v) off n = v.
Proof.
  intros Hl Hv. unfold load_at, store_at. simpl.
  rewrite slice_put_same by (done || apply mem_encode_length).
  by rewrite mem_decode_encode, wrap_small.
Qed.

(** The values a reader sees: the eight fields, in the order of the array. *)
Definition view (t : transaction) :=
  (get_transaction_version t, get_asset_type t, get_transaction_operator t, get_count t,
   get_create_time t, get_expired_epoch t, get_sender t, get_nonce t).

Lemma slice_store t off n v off' n' :
  (off + n <= length (tdata t))%nat -> (off' + n' <= off \/ off + n <= off')%nat ->
  slice off' n' (tdata (store_at t off n v)) = slice off' n' (tdata t).
Proof.
  intros Hl Ho. unfold store_at. simpl. apply slice_put_other; rewrite mem_encode_length; lia.
Qed.

Lemma store_at_length t off n v :
  (off + n <= length (tdata t))%nat -> length (tdata (store_at t off n v)) = length (tdata t).
Proof. intros. unfold store_at. simpl. by rewrite put_length by (rewrite mem_encode_length; lia). Qed.
End Layout.

(** Reduce every getter to a slice of the array and every slice through the
    stores around it. *)
Ltac put_len :=
  cbn [length]; rewrite ?mem_encode_length; repeat (rewrite put_length by put_len);
  rewrite ?mem_encode_length; cbn [length]; lia.
Ltac fields :=
  unfold view, get_transaction_version, get_asset_type, get_transaction_operator, get_count,
    get_create_time, get_expired_epoch, get_sender, get_nonce, set_transaction_version,
    set_asset_type, set_transaction_operator, set_count, set_create_time, set_expired_epoch,
    set_sender, set_nonce, load_at, store_at, with_tdata, Width;
  cbn [tdata];
  repeat (first [rewrite slice_put_same by first [reflexivity | apply mem_encode_length | done | put_len]
                |rewrite slice_put_other by put_len]).

Section Theorems.
Context {host : Host}.

Lemma version_decode v : (if decide ([version_code v] = [version_code V0001]) then V0001 else Ban) = v.
Proof. by destruct v. Qed.

Lemma operator_decode o :
  (if decide ([operator_code o] = [operator_code Append]) then Append
   else if decide ([operator_code o] = [operator_code Establish]) then Establish else NullOP) = o.
Proof. by destruct o. Qed.

Ltac setter :=
  intros; match goal with H : view _ = _ |- _ => unfold view in H; injection H as <- <- <- <- <- <- <- <- end;
  unfold uint256_wf, Width in *; fields;
  rewrite ?mem_decode_encode, ?wrap_small, ?version_decode, ?operator_decode by assumption; try done;
  match goal with s : uint256 |- _ => by destruct s end.

(** The view after each setter. *)
Section Views.
Variables (t : transaction) (v0 : transaction_version) (ty0 : Z) (op0 : transaction_operator)
  (c0 time0 e0 : Z) (s0 : uint256) (n0 : Z).
Abbreviation before := (v0, ty0, op0, c0, time0, e0, s0, n0).

Lemma view_set_transaction_version v :
  length (tdata t) = 64%nat -> view t = before ->
  view (set_transaction_version t v) = (v, ty0, op0, c0, time0, e0, s0, n0).
Proof. setter. Qed.

Lemma view_set_asset_type ty :
  length (tdata t) = 64%nat -> is_uint 32 ty -> view t = before ->
  view (set_asset_type t ty) = (v0, ty, op0, c0, time0, e0, s0, n0).
Proof. setter. Qed.

Lemma view_set_transaction_operator op :
  length (tdata t) = 64%nat -> view t = before ->
  view (set_transaction_operator t op) = (v0, ty0, op, c0, time0, e0, s0, n0).
Proof. setter. Qed.

Lemma view_set_count c :
  length (tdata t) = 64%nat -> is_uint 64 c -> view t = before ->
  view (set_count t c) = (v0, ty0, op0, c, time0, e0, s0, n0).
Proof. setter. Qed.

Lemma view_set_create_time time :
  length (tdata t) = 64%nat -> is_uint 64 time -> view t = before ->
  view (set_create_time t time) = (v0, ty0, op0, c0, time, e0, s0, n0).
Proof. setter. Qed.

Lemma view_set_expired_epoch e :
  length (tdata t) = 64%nat -> is_uint 8 e -> view t = before ->
  view (set_expired_epoch t e) = (v0, ty0, op0, c0, time0, e, s0, n0).
Proof. setter. Qed.

Lemma view_set_sender s :
  length (tdata t) = 64%nat -> uint256_wf s -> view t = before ->
  view (set_sender t s) = (v0, ty0, op0, c0, time0, e0, s, n0).
Proof. setter. Qed.

Lemma view_set_nonce n :
  length (tdata t) = 64%nat -> is_uint 64 n -> view t = before ->
  view (set_nonce t n) = (v0, ty0, op0, c0, time0, e0, s0, n).
Proof. setter. Qed.

End Views.

(** The length of the array behind any setters. *)
Ltac set_len :=
  unfold set_nonce, set_create_time, set_asset_type, set_sender, set_expired_epoch, set_count,
    set_transaction_operator, set_transaction_version, store_at, with_tdata;
  cbn [tdata]; put_len.

(** Peel the setters of a constructor off. *)
Ltac ctor_view :=
  repeat first
    [ eapply view_set_transaction_version; [set_len|]
    | eapply view_set_asset_type; [set_len|done|]
    | eapply view_set_transaction_operator; [set_len|]
    | eapply view_set_count; [set_len|done|]
    | eapply view_set_create_time; [set_len|done|]
    | eapply view_set_expired_epoch; [set_len|done|]
    | eapply view_set_sender; [set_len|done|]
    | eapply view_set_nonce; [set_len|done|] ];
  reflexivity.

(** Every setter of a transaction is read back by its getter and leaves the
    seven other fields and the outputs alone: the fields do not overlap. *)
Theorem transaction_fields (t : transaction) v ty op c time e (s : uint256) n :
  length (tdata t) = Bytes -> uint256_wf s -> is_uint 32 ty -> is_uint 64 c -> is_uint 64 time ->
  is_uint 8 e -> is_uint 64 n ->
  let '(v0, ty0, op0, c0, time0, e0, s0, n0) := view t in
  view (set_transaction_version t v) = (v, ty0, op0, c0, time0, e0, s0, n0) /\
  view (set_asset_type t ty) = (v0, ty, op0, c0, time0, e0, s0, n0) /\
  view (set_transaction_operator t op) = (v0, ty0, op, c0, time0, e0, s0, n0) /\
  view (set_count t c) = (v0, ty0, op0, c, time0, e0, s0, n0) /\
  view (set_create_time t time) = (v0, ty0, op0, c0, time, e0, s0, n0) /\
  view (set_expired_epoch t e) = (v0, ty0, op0, c0, time0, e, s0, n0) /\
  view (set_sender t s) = (v0, ty0, op0, c0, time0, e0, s, n0) /\
  view (set_nonce t n) = (v0, ty0, op0, c0, time0, e0, s0, n).
Proof.
  intros Hl Hs Hty Hc Htm He Hn.
  destruct (view t) as [[[[[[[v0 ty0] op0] c0] time0] e0] s0] n0] eqn:E.
  unfold Bytes in Hl. split; [by eapply view_set_transaction_version|].
  split; [by eapply view_set_asset_type|]. split; [by eapply view_set_transaction_operator|].
  split; [by eapply view_set_count|]. split; [by eapply view_set_create_time|].
  split; [by eapply view_set_expired_epoch|]. split; [by eapply view_set_sender|].
  by eapply view_set_nonce.
Qed.

(** The constructors store their arguments whatever the array held before,
    but they do not fill the array: the last byte, and for an asset creation also
    the count, keep the previous contents of the memory. *)
Theorem transaction_constructors (mem : bytes) (s : uint256) n c ty time e op v :
  length mem = Bytes -> uint256_wf s -> is_uint 32 ty -> is_uint 64 c -> is_uint 64 time ->
  is_uint 8 e -> is_uint 64 n ->
  let ta := transaction_append mem s n c ty time e op v in
  let te := transaction_establish mem s n ty time e op v in
  view ta = (v, ty, op, c, time, e, s, n) /\
  view te = (v, ty, op, mem_decode host_order (slice 6 8 mem), time, e, s, n) /\
  slice 63 1 (tdata ta) = slice 63 1 mem /\ slice 63 1 (tdata te) = slice 63 1 mem /\
  slice 6 8 (tdata te) = slice 6 8 mem.
Proof.
  intros Hl Hs Hty Hc Htm He Hn. unfold Bytes in Hl. cbv zeta.
  assert (Hs' : length (data s) = 32%nat) by apply Hs.
  unfold transaction_append, transaction_establish. split; [|split].
  - ctor_view.
  - ctor_view.
  - repeat split; fields; done.
Qed.
End Theorems.

Lemma transaction_fields_witness :
  let host : Host := LittleEndian in
  get_nonce (set_nonce transaction_new 77) = 77 /\
  get_count (set_nonce transaction_new 77) = 0.
Proof.
  intros host.
  destruct (transaction_fields transaction_new V0001 1 Append 2 3 4 sample_uint256 77)
    as (_ & _ & _ & _ & _ & _ & _ & E).
  - reflexivity.
  - exact sample_uint256_wf.
  - split; vm_compute; congruence.
  - split; vm_compute; congruence.
  - split; vm_compute; congruence.
  - split; vm_compute; congruence.
  - split; vm_compute; congruence.
  - split; [exact (f_equal snd E)|]. exact (f_equal (fun x => x.1.1.1.1.2) E).
Defined.

Lemma transaction_constructors_witness :
  let host : Host := LittleEndian in
  let make mem := transaction_append mem sample_uint256 1 10 7 1700000000 255 Append V0001 in
  get_nonce (make (replicate 64 9)) = 1 /\ tdata (make (replicate 64 9)) <> tdata (make (replicate 64 8)).
Proof.
  intros host make.
  assert (H : forall x, 0 <= x < 256 -> get_nonce (make (replicate 64 x)) = 1
    /\ slice 63 1 (tdata (make (replicate 64 x))) = slice 63 1 (replicate 64 x)).
  { intros x Hx. destruct (transaction_constructors (replicate 64 x) sample_uint256 1 10 7
      1700000000 255 Append V0001) as (E & _ & E2 & _).
    - reflexivity.
    - exact sample_uint256_wf.
    - split; vm_compute; congruence.
    - split; vm_compute; congruence.
    - split; vm_compute; congruence.
    - split; vm_compute; congruence.
    - split; vm_compute; congruence.
    - split; [exact (f_equal snd E)|exact E2]. }
  split; [apply H; lia|]. intros E. destruct (H 9) as [_ H9]; [lia|]. destruct (H 8) as [_ H8]; [lia|].
  rewrite E, H8 in H9. vm_compute in H9. discriminate.
Defined.

(** ** Hash *)
Section HashTheorems.
Context {host : Host} `{HashHandler}.

Definition count_hash (c : Z) : uint256 := hash_bytes (mem_encode host_order 8 c).

(** The sum of the receivers and of the hashes of the amounts. *)
Definition sum_list (l : list uint256) : uint256 := foldr uint256_add uint256_zero l.

Lemma sum_list_wf l : Forall uint256_wf l -> uint256_wf (sum_list l).
Proof. induction 1; [apply uint256_zero_wf|by apply uint256_add_wf]. Qed.

Lemma sum_list_perm l k : Permutation l k -> sum_list l = sum_list k.
Proof.
  induction 1; simpl; [done|congruence| |congruence].
  rewrite <-!uint256_add_assoc. by rewrite (uint256_add_comm y x).
Qed.

Definition outs_wf (l : list out_entry) : Prop := Forall (fun o => uint256_wf (receiver o)) l.

Lemma counts_hash_wf l : Forall uint256_wf (map (fun o => count_hash (out_count o)) l).
Proof. apply Forall_map, Forall_true. intros. apply hash_bytes_wf. Qed.

Lemma outs_hash l x :
  outs_wf l -> uint256_wf x ->
  foldl (fun result out => (hash_bytes (mem_encode host_order 8 (out_count out))
    + (result + receiver out))%U) x l
  = ((x + sum_list (map receiver l)) + sum_list (map (fun o => count_hash (out_count o)) l))%U.
Proof.
  intros Hl. revert x. induction Hl as [|o l Ho Hl IH]; intros x Hx; cbn [foldl map sum_list foldr].
  { by rewrite !uint256_add_0_r by (try apply uint256_add_wf; done || apply uint256_zero_wf). }
  fold (sum_list (map receiver l)). fold (sum_list (map (fun o => count_hash (out_count o)) l)).
  rewrite IH.
  - fold (count_hash (out_count o)). rewrite (uint256_add_comm (count_hash _)).
    rewrite !uint256_add_assoc. do 2 f_equal. rewrite <-!uint256_add_assoc. f_equal.
    apply uint256_add_comm.
  - apply uint256_add_wf; [apply hash_bytes_wf|by apply uint256_add_wf].
Qed.

(** The hash a transaction is signed over adds up its receivers and the hashes
    of its amounts, so it does not bind an amount to its receiver: outputs with
    the same receivers and the same amounts in any other pairing, and a version
    of the transaction with any other signature, have the same hash. *)
Theorem transaction_hash_unpaired (t t' : transaction) :
  length (tdata t) = Bytes -> bytes_ok (tdata t) -> outs_wf (outs t) -> outs_wf (outs t') ->
  tdata t' = tdata t ->
  Permutation (map receiver (outs t)) (map receiver (outs t')) ->
  Permutation (map out_count (outs t)) (map out_count (outs t')) ->
  transaction_get_hash t = transaction_get_hash t'.
Proof.
  intros Hl Hok Ho Ho' Ed Hr Hc. unfold transaction_get_hash, get_sender. rewrite Ed.
  assert (Hs : uint256_wf (Uint (slice 23 Width (tdata t)))).
  { split; [apply slice_length; simpl; unfold Bytes, Width in *; lia|by apply slice_ok]. }
  rewrite !outs_hash by (done || (apply uint256_add_wf; [apply hash_bytes_wf|done])).
  rewrite (sum_list_perm _ _ Hr). f_equal. apply sum_list_perm.
  rewrite <-!(map_map out_count count_hash). by apply fmap_Permutation.
Qed.
End HashTheorems.

Lemma transaction_hash_unpaired_witness :
  let HH := toy_HashHandler in let host : Host := LittleEndian in
  let alice := sample_uint256 in let bob := uint256_zero in
  let pay a b := {| tdata := replicate 64 1; signature := b! "signed";
    outs := [{| receiver := a; out_count := 1 |}; {| receiver := b; out_count := 1000 |}] |} in
  transaction_get_hash (pay alice bob) = transaction_get_hash (pay bob alice).
Proof.
  intros HH host alice bob pay. apply (transaction_hash_unpaired (H := HH)).
  - reflexivity.
  - apply Forall_replicate. vm_compute. split; congruence.
  - apply Forall_cons_2; [exact sample_uint256_wf|].
    apply Forall_cons_2; [exact uint256_zero_wf|apply Forall_nil_2].
  - apply Forall_cons_2; [exact uint256_zero_wf|].
    apply Forall_cons_2; [exact sample_uint256_wf|apply Forall_nil_2].
  - reflexivity.
  - apply perm_swap.
  - apply Permutation_refl.
Defined.
