(* ===== verification/Block.v ===== *)
(** * Affairs and blocks: [affair.cpp], [block_header.cpp], [block_body.cpp], [block.cpp] *)
From S2P Require Import Prelude Stream Uint256 Transaction.

(** ** Affairs *)
Inductive affair_type :=
| GenesisData | PureData | MaliciousMessages | MaliciousTransactions | MaliciousAffair
| MaliciousBlock | OwnerAddressHash | ParticipatorAddressHash.

Definition affair_code (t : affair_type) : Z :=
  match t with
  | GenesisData => 0 | PureData => 1 | MaliciousMessages => 2 | MaliciousTransactions => 3
  | MaliciousAffair => 4 | MaliciousBlock => 5 | OwnerAddressHash => 6
  | ParticipatorAddressHash => 7
  end.

Record affair := {
  affair_nonce : Z;
  owner : uint256;
  _affair_type : Z;          (** the stored [uint8_t] *)
  affair_data : bytes;
  affair_signature : bytes;
  affair_create_time : Z;
  epoch : Z;
}.

Inductive affair_error := DataIsEmpty.

(** The four-argument constructor; [mem_time] and [mem_epoch] are the members it
    does not initialise. *)
Definition affair_make (mem_time mem_epoch nonce : Z) (_owner : uint256) (_type : affair_type)
  (_data : bytes) : res affair_error affair :=
  match _data with
  | [] => Err DataIsEmpty
  | _ => Ok {| affair_nonce := nonce; owner := _owner; _affair_type := affair_code _type;
               affair_data := _data; affair_signature := []; affair_create_time := mem_time;
               epoch := mem_epoch |}
  end.

(** The six-argument constructor. *)
Definition affair_make_full (nonce : Z) (_owner : uint256) (_type : affair_type)
  (create_time _epoch : Z) (_data : bytes) : affair :=
  {| affair_nonce := nonce; owner := _owner; _affair_type := affair_code _type;
     affair_data := _data; affair_signature := []; affair_create_time := create_time;
     epoch := _epoch |}.

Definition set_type (a : affair) (type : affair_type) : affair :=
  {| affair_nonce := affair_nonce a; owner := owner a; _affair_type := affair_code type;
     affair_data := affair_data a; affair_signature := affair_signature a;
     affair_create_time := affair_create_time a; epoch := epoch a |}.

Definition get_type (a : affair) : affair_type :=
  if _affair_type a =? affair_code PureData then PureData
  else if _affair_type a =? affair_code MaliciousMessages then MaliciousMessages
  else PureData.

Definition is_db_level_affair_type (a : affair) : bool :=
  if _affair_type a =? affair_code OwnerAddressHash then false
  else if _affair_type a =? affair_code PureData then false
  else true.

(** ** Blocks *)
Record block_header := {
  prev_block_hash : uint256;
  assets_blf_hash : uint256;
  transactions_merkle_root : uint256;
  affairs_merkle_root : uint256;
  merkle_patricia_trie_root : uint256;
  black_block_hashes : list uint256;
  height : Z;
  header_create_time : Z;
}.

Record block_body := { transactions : list transaction; affairs : list affair }.
Record block := { header : block_header; body : block_body; block_signature : bytes }.

(** Copies: the transactions of a body are copied one by one, a block's
    signature is left out by all four copy and move operations, and a move
    assignment of a block copies. *)
Definition block_body_copy (b : block_body) : block_body :=
  {| transactions := map transaction_copy (transactions b); affairs := affairs b |}.
Definition block_copy (other : block) : block :=
  {| header := header other; body := block_body_copy (body other); block_signature := [] |}.
(** Moving a vector of transactions moves the array, not the transactions. *)
Definition block_move (other : block) : block :=
  {| header := header other; body := body other; block_signature := [] |}.
Definition block_copy_assign (this other : block) : block :=
  {| header := header other; body := block_body_copy (body other);
     block_signature := block_signature this |}.
Definition block_move_assign (this other : block) : block :=
  {| header := header other; body := block_body_copy (body other);
     block_signature := block_signature this |}.

Section Hashes.
Context {host : Host} `{HashHandler}.

(** [affair::get_hash]: [result] is assigned a second time before it is used. *)
Definition affair_get_hash (a : affair) : uint256 :=
  let temp := hash_bytes (mem_encode host_order 8 (affair_create_time a)) in
  let result := (temp + uint256_fill (epoch a))%U in
  let temp := hash_bytes (affair_data a) in
  let result := (temp + owner a)%U in
  let temp := hash_bytes (mem_encode host_order 8 (affair_nonce a)) in
  let result := (result + temp)%U in
  let val := uint256_fill (_affair_type a) in
  let temp := (result + val)%U in
  hash_bytes (data temp).

Definition get_block_hash (h : block_header) : uint256 :=
  let result := ((prev_block_hash h + transactions_merkle_root h) + affairs_merkle_root h)%U in
  let temp := hash_bytes (mem_encode host_order 8 (height h)) in
  let result := (result + temp)%U in
  let temp := hash_bytes (mem_encode host_order 8 (header_create_time h)) in
  let result := (result + temp)%U in
  let result :=
    match black_block_hashes h with
    | [] => result
    | hashes => (result + foldl uint256_add temp hashes)%U
    end in
  get_sha3_256 result.

Definition block_get_hash (b : block) : uint256 := get_block_hash (header b).
End Hashes.

Section Theorems.
Context {host : Host} `{HashHandler}.

Lemma affair_get_hash_eq a :
  affair_get_hash a = hash_bytes (data (((hash_bytes (affair_data a) + owner a)
    + hash_bytes (mem_encode host_order 8 (affair_nonce a))) + uint256_fill (_affair_type a))%U).
Proof. done. Qed.

(** The hash an affair is signed over ignores its creation time and expiry
    epoch, whose contribution is overwritten, and binds the owner, the nonce, the
    type and the data only through a sum: for any data, nonce and type there is
    an owner under which the affair has the hash of [a]. *)
Theorem affair_hash_weak (a a' : affair) :
  uint256_wf (owner a) ->
  (affair_nonce a' = affair_nonce a -> owner a' = owner a -> _affair_type a' = _affair_type a ->
    affair_data a' = affair_data a -> affair_get_hash a' = affair_get_hash a) /\
  exists o, uint256_wf o /\ affair_get_hash
    {| affair_nonce := affair_nonce a'; owner := o; _affair_type := _affair_type a';
       affair_data := affair_data a'; affair_signature := affair_signature a';
       affair_create_time := affair_create_time a'; epoch := epoch a' |} = affair_get_hash a.
Proof.
  intros Ho. rewrite !affair_get_hash_eq. split; [by intros -> -> -> ->|].
  set (n' := hash_bytes (mem_encode host_order 8 (affair_nonce a'))).
  set (d' := hash_bytes (affair_data a')). set (t' := uint256_fill (_affair_type a')).
  set (s := (((hash_bytes (affair_data a) + owner a)
    + hash_bytes (mem_encode host_order 8 (affair_nonce a))) + uint256_fill (_affair_type a))%U).
  assert (Hd : uint256_wf d') by apply hash_bytes_wf.
  assert (Hnt : uint256_wf (n' + t')%U)
    by (apply uint256_add_wf; [apply hash_bytes_wf|apply uint256_fill_wf]).
  assert (Hs : uint256_wf s).
  { repeat apply uint256_add_wf; first [apply hash_bytes_wf | apply uint256_fill_wf | done]. }
  exists (s + uint256_opp (d' + (n' + t')))%U.
  assert (Hdn : uint256_wf (d' + (n' + t'))%U) by (by apply uint256_add_wf).
  split; [by apply uint256_add_wf; [|apply uint256_opp_wf]|].
  rewrite affair_get_hash_eq. cbn [affair_data owner affair_nonce _affair_type].
  fold n' d' t'. do 2 f_equal.
  set (y := (s + uint256_opp (d' + (n' + t')))%U).
  rewrite (uint256_add_comm d' y), !uint256_add_assoc, uint256_add_comm.
  by apply uint256_add_opp.
Qed.

(** A block hash does not commit to the state it leads to: headers that differ
    only in the root of the account trie and in the hash of the asset filter have
    the same hash; and the parent's hash and the two merkle roots are only bound
    through their sum, so any such triple, with the roots of one's choice, can be
    completed to a header with the hash of a given block. *)
Theorem block_hash_commitment (h : block_header) (mpt blf tx af : uint256) :
  uint256_wf (prev_block_hash h) -> uint256_wf (transactions_merkle_root h) ->
  uint256_wf (affairs_merkle_root h) -> uint256_wf tx -> uint256_wf af ->
  let with_roots prev tx af :=
    {| prev_block_hash := prev; assets_blf_hash := blf; transactions_merkle_root := tx;
       affairs_merkle_root := af; merkle_patricia_trie_root := mpt;
       black_block_hashes := black_block_hashes h; height := height h;
       header_create_time := header_create_time h |} in
  get_block_hash (with_roots (prev_block_hash h) (transactions_merkle_root h)
    (affairs_merkle_root h)) = get_block_hash h /\
  exists prev, uint256_wf prev /\ get_block_hash (with_roots prev tx af) = get_block_hash h.
Proof.
  intros Hp Ht Ha Htx Haf with_roots. split; [done|].
  set (s := ((prev_block_hash h + transactions_merkle_root h) + affairs_merkle_root h)%U).
  assert (Hs : uint256_wf s) by (by repeat apply uint256_add_wf).
  assert (Hta : uint256_wf (tx + af)%U) by (by apply uint256_add_wf).
  exists (s + uint256_opp (tx + af))%U.
  split; [by apply uint256_add_wf; [|apply uint256_opp_wf]|].
  assert (E : (((s + uint256_opp (tx + af)) + tx) + af)%U = s).
  { rewrite uint256_add_assoc, uint256_add_comm. by apply uint256_add_opp. }
  unfold get_block_hash, with_roots. cbn [prev_block_hash transactions_merkle_root
    affairs_merkle_root height header_create_time black_block_hashes]. by rewrite E.
Qed.
End Theorems.

Lemma affair_hash_weak_witness :
  let HH := toy_HashHandler in let host : Host := LittleEndian in
  let make time e := affair_make_full 1 sample_uint256 PureData time e (b! "data") in
  affair_get_hash (make 1700000000 1) = affair_get_hash (make 0 255).
Proof.
  intros HH host make. apply (affair_hash_weak (H := HH) (make 0 255) (make 1700000000 1)).
  - exact sample_uint256_wf.
  - reflexivity.
  - reflexivity.
  - reflexivity.
  - reflexivity.
Defined.

Definition sample_header : block_header :=
  {| prev_block_hash := sample_uint256; assets_blf_hash := uint256_zero;
     transactions_merkle_root := sample_uint256; affairs_merkle_root := uint256_zero;
     merkle_patricia_trie_root := sample_uint256; black_block_hashes := []; height := 7;
     header_create_time := 1700000000 |}.

Lemma block_hash_commitment_witness :
  let HH := toy_HashHandler in let host : Host := LittleEndian in
  exists prev, uint256_wf prev /\
    get_block_hash {| prev_block_hash := prev; assets_blf_hash := uint256_zero;
      transactions_merkle_root := uint256_zero; affairs_merkle_root := uint256_zero;
      merkle_patricia_trie_root := uint256_zero; black_block_hashes := []; height := 7;
      header_create_time := 1700000000 |} = get_block_hash sample_header.
Proof.
  intros HH host.
  apply (block_hash_commitment (H := HH) sample_header uint256_zero uint256_zero uint256_zero uint256_zero).
  - exact sample_uint256_wf.
  - exact sample_uint256_wf.
  - exact uint256_zero_wf.
  - exact uint256_zero_wf.
  - exact uint256_zero_wf.
Defined.
