(* ===== verification/Wire.v ===== *)
(** * The chain's data on the wire

    The [MUSE_IBinarySerializable] declarations of the data classes, as instances
    of the overload set, and what a reader receives when a block is sent. *)
From S2P Require Import Prelude Stream Serializer SerializerLaws Uint256 Transaction Block.

(** The members each class declares. *)
Abbreviation uint256_pack := (arr 32 uchar * unit)%type.
Abbreviation out_entry_pack := (uint256 * (num S_uint64 * unit))%type.
Abbreviation transaction_pack := (arr 64 uchar * (list out_entry * (cstring * unit)))%type.
Abbreviation affair_pack := (num S_uint64 * (uint256 * (uchar * (cstring * (num S_uint64
      * (uchar * (list cchar * unit)))))))%type.
Abbreviation block_header_pack := (uint256 * (uint256 * (uint256 * (uint256 * (uint256
      * (list uint256 * (num S_uint64 * (num S_uint64 * unit))))))))%type.
Abbreviation block_body_pack := (list transaction * (list affair * unit))%type.
Abbreviation block_pack := (block_header * (block_body * (cstring * unit)))%type.

Section Wire.
Context {h : Host}.

Definition uchars (l : bytes) : list uchar := map UChar l.
Definition of_uchars (l : list uchar) : bytes := map uchar_val l.

Lemma of_uchars_id l : of_uchars (uchars l) = l.
Proof. unfold of_uchars, uchars. rewrite map_map. apply map_id. Qed.

(** ** Declarations *)
#[export, program] Instance uint256_fields : MuseFields uint256 uint256_pack := {
  to_fields x := (Arr (uchars (data x)), tt);
  of_fields p := Uint (of_uchars (arr_elems p.1));
  copy x := x;
}.
Next Obligation. intros []. simpl. by rewrite of_uchars_id. Qed.
#[export] Instance ser_uint256 : Serializable uint256 := ser_fields (P := uint256_pack).

#[export, program] Instance out_entry_fields : MuseFields out_entry out_entry_pack := {
  to_fields o := (receiver o, (Num (out_count o), tt));
  of_fields p := {| receiver := p.1; out_count := num_val p.2.1 |};
  copy o := o;
}.
Next Obligation. by intros []. Qed.
#[export] Instance ser_out_entry : Serializable out_entry := ser_fields (P := out_entry_pack).

#[export, program] Instance transaction_muse
  : MuseFields transaction transaction_pack := {
  to_fields t := (Arr (uchars (tdata t)), (outs t, (Str (signature t), tt)));
  of_fields p := {| tdata := of_uchars (arr_elems p.1); outs := p.2.1;
                    signature := str_bytes p.2.2.1 |};
  copy := transaction_copy;
}.
Next Obligation. intros []. simpl. by rewrite of_uchars_id. Qed.
#[export] Instance ser_transaction : Serializable transaction := ser_fields (P := transaction_pack).

#[export, program] Instance affair_fields
  : MuseFields affair affair_pack := {
  to_fields a := (Num (affair_nonce a), (owner a, (UChar (_affair_type a),
    (Str (affair_signature a), (Num (affair_create_time a), (UChar (epoch a),
    (map CChar (affair_data a), tt)))))));
  of_fields '(n, (o, (t, (s, (c, (e, (d, _))))))) :=
    {| affair_nonce := num_val n; owner := o; _affair_type := uchar_val t;
       affair_signature := str_bytes s; affair_create_time := num_val c; epoch := uchar_val e;
       affair_data := map cchar_byte d |};
  copy a := a;
}.
Next Obligation. intros []. simpl. by rewrite map_map, map_id. Qed.
#[export] Instance ser_affair : Serializable affair := ser_fields (P := affair_pack).

#[export, program] Instance block_header_fields
  : MuseFields block_header block_header_pack := {
  to_fields b := (prev_block_hash b, (assets_blf_hash b, (transactions_merkle_root b,
    (affairs_merkle_root b, (merkle_patricia_trie_root b, (black_block_hashes b,
    (Num (height b), (Num (header_create_time b), tt))))))));
  of_fields '(p, (a, (t, (f, (m, (l, (hh, (c, _)))))))) :=
    {| prev_block_hash := p; assets_blf_hash := a; transactions_merkle_root := t;
       affairs_merkle_root := f; merkle_patricia_trie_root := m; black_block_hashes := l;
       height := num_val hh; header_create_time := num_val c |};
  copy b := b;
}.
Next Obligation. by intros []. Qed.
#[export] Instance ser_block_header : Serializable block_header := ser_fields (P := block_header_pack).

#[export, program] Instance block_body_fields
  : MuseFields block_body block_body_pack := {
  to_fields b := (transactions b, (affairs b, tt));
  of_fields p := {| transactions := p.1; affairs := p.2.1 |};
  copy := block_body_copy;
}.
Next Obligation. by intros []. Qed.
#[export] Instance ser_block_body : Serializable block_body := ser_fields (P := block_body_pack).

#[export, program] Instance block_fields
  : MuseFields block block_pack := {
  to_fields b := (header b, (body b, (Str (block_signature b), tt)));
  of_fields p := {| header := p.1; body := p.2.1; block_signature := str_bytes p.2.2.1 |};
  copy := block_copy;
}.
Next Obligation. by intros []. Qed.
#[export] Instance ser_block : Serializable block := ser_fields (P := block_pack).
End Wire.

(** ** Laws *)
Section Laws.
Context {h : Host} {HL : LittleEndianHost}.

Lemma array_default_ok N : length (replicate N (UChar 0)) = N /\ Forall (fun _ : uchar => True) (replicate N (UChar 0)).
Proof. split; [apply length_replicate|]. by apply Forall_true. Qed.

#[export] Instance uint256_laws : SerializerLaws uint256.
Proof.
  refine (fields_laws (P := uint256_pack) _). split; [|done]. split; [done|]. by apply Forall_true.
Defined.

#[export] Instance out_entry_laws : SerializerLaws out_entry.
Proof. refine (fields_laws (P := out_entry_pack) _). split; [apply default_old|done]. Defined.

#[export] Instance transaction_laws : SerializerLaws transaction.
Proof.
  refine (fields_laws (P := transaction_pack) _).
  split; [split; [done|by apply Forall_true]|done].
Defined.

#[export] Instance affair_laws : SerializerLaws affair.
Proof.
  refine (fields_laws (P := affair_pack) _). repeat (split; [done|]).
  split; [apply default_old|done].
Defined.

#[export] Instance block_header_laws : SerializerLaws block_header.
Proof.
  refine (fields_laws (P := block_header_pack) _).
  repeat (split; [first [done | apply default_old]|]). done.
Defined.

(** The vector overload hands on copies of what was written. *)
Lemma vector_reads_copies {A} `{SerializerLaws A} {S} `{ByteSourceLaws S} (l : list A) :
  Z.of_nat (length l) <= MUSE_MAX_COUNT -> Forall ser_wf l ->
  reads (S := S) output_vector (encode_counted VECTOR (length l) (encode_all l)) (map copy_ctor l).
Proof.
  intros Hn Hl. apply (counted_reads _ _ _ (fun n => output_all (Z.to_nat n))); [done|].
  rewrite Nat2Z.id. by apply output_all_reads_copies.
Qed.

Lemma vector_writes {A} `{SerializerLaws A} (l : list A) :
  Z.of_nat (length l) <= MUSE_MAX_COUNT -> Forall ser_wf l ->
  writes (input_vector l) (encode_counted VECTOR (length l) (encode_all l)).
Proof.
  intros Hn Hl. unfold input_vector. rewrite (proj2 (Z.ltb_ge _ _)) by done.
  by apply counted_writes, input_all_writes.
Qed.

Lemma affair_copies (l : list affair) : map copy_ctor l = l.
Proof. exact (map_id l). Qed.

(** ** Blocks *)
Definition body_wf (b : block_body) : Prop :=
  Z.of_nat (length (transactions b)) <= MUSE_MAX_COUNT /\ Forall ser_wf (transactions b) /\
  Z.of_nat (length (affairs b)) <= MUSE_MAX_COUNT /\ Forall ser_wf (affairs b).

Definition encode_body (b : block_body) : bytes :=
  tag_byte MUSECLASS :: (encode_counted VECTOR (length (transactions b)) (encode_all (transactions b))
    ++ encode_counted VECTOR (length (affairs b)) (encode_all (affairs b)) ++ []).

Lemma body_writes b : body_wf b -> writes (input b) (encode_body b).
Proof.
  intros (H1 & H2 & H3 & H4). apply class_writes.
  apply writes_bind; [by apply vector_writes|].
  apply writes_bind; [by apply vector_writes|apply writes_ret].
Qed.

Lemma body_reads {S} `{ByteSourceLaws S} old b :
  body_wf b -> reads (S := S) (output old) (encode_body b) (block_body_copy b).
Proof.
  intros (H1 & H2 & H3 & H4).
  replace (block_body_copy b) with (of_fields (A := block_body)
    (map copy_ctor (transactions b), (affairs b, tt))) by done.
  apply (reads_map (muse_deserialize (to_fields old)) of_fields), class_reads.
  eapply reads_bind; [by apply vector_reads_copies|].
  apply (reads_map _ (pair (map copy_ctor (transactions b)))).
  eapply reads_bind; [|apply reads_ret].
  pose proof (vector_reads_copies (S := S) (affairs b) H3 H4) as Hr.
  by rewrite affair_copies in Hr.
Qed.

Definition block_wf (b : block) : Prop :=
  ser_wf (header b) /\ body_wf (body b) /\ ser_wf (Str (block_signature b)).

Definition encode_block (b : block) : bytes :=
  tag_byte MUSECLASS :: (encode (header b) ++ encode_body (body b)
    ++ encode (Str (block_signature b)) ++ []).

Lemma block_writes b : block_wf b -> writes (input b) (encode_block b).
Proof.
  intros (H1 & H2 & H3). apply class_writes.
  apply writes_bind; [by apply input_writes|]. apply writes_bind; [by apply body_writes|].
  apply writes_bind; [by apply (input_writes (Str (block_signature b)))|apply writes_ret].
Qed.

(** What a reader obtains: the transactions have lost their signatures. *)
Definition received (b : block) : block :=
  {| header := header b; body := block_body_copy (body b); block_signature := block_signature b |}.

Lemma block_reads {S} `{ByteSourceLaws S} old b :
  block_wf b -> ser_old (header old) -> reads (S := S) (output old) (encode_block b) (received b).
Proof.
  intros (H1 & H2 & H3) Ho.
  replace (received b) with (of_fields (A := block)
    (header b, (block_body_copy (body b), (Str (block_signature b), tt)))) by done.
  apply (reads_map (muse_deserialize (to_fields old)) of_fields), class_reads.
  eapply reads_bind; [by apply output_reads|]. apply (reads_map _ (pair (header b))).
  eapply reads_bind; [by apply body_reads|]. apply (reads_map _ (pair (block_body_copy (body b)))).
  eapply reads_bind; [by apply (output_reads _ (Str (block_signature b)))|apply reads_ret].
Qed.
End Laws.

(** ** Theorems *)
Section Theorems.
Context {h : Host} {HL : LittleEndianHost}.

Lemma view_reads {A} (m : R BinaryDeserializeView A) l (v : A) :
  reads m l v -> Z.of_nat (length l) < 2 ^ 64 -> (m (View_new l (Z.of_nat (length l)))).1 = Ok v.
Proof.
  intros Hm Hl. assert (Ha : at_bytes (l ++ []) (View_new l (Z.of_nat (length l)))).
  { rewrite app_nil_r. repeat split; simpl; lia. }
  by rewrite (Hm _ _ Ha).
Qed.

(** C40: a block sent through the serializer arrives with its header, affairs,
    outputs and own signature intact but with the signature of every transaction
    gone, because a vector is filled through copy constructors and that of
    [transaction] leaves the signature out; a transaction sent by itself keeps it. *)
Theorem block_transmission (b : block) (t : transaction) (s : BinarySerializer) :
  block_wf b -> ser_wf t -> writable s ->
  Z.of_nat (length (encode_block b)) < 2 ^ 64 -> Z.of_nat (length (encode t)) < 2 ^ 64 ->
  (exists s', input b s = (Ok tt, s') /\ byteStream s' = byteStream s ++ encode_block b) /\
  (output default_value (View_new (encode_block b) (Z.of_nat (length (encode_block b))))).1
    = Ok (received b) /\
  (forall t', t' ∈ transactions (body (received b)) -> signature t' = []) /\
  (received b = b <-> forall t', t' ∈ transactions (body b) -> signature t' = []) /\
  (output default_value (View_new (encode t) (Z.of_nat (length (encode t))))).1 = Ok t.
Proof.
  intros Hb Ht Hs Hlb Hlt.
  assert (Hr : forall t', t' ∈ transactions (body (received b)) -> signature t' = []).
  { intros t'. cbn. rewrite list_elem_of_fmap. by intros (t0 & -> & _). }
  split; [|split; [|split; [exact Hr|split]]].
  - destruct (block_writes b Hb s Hs) as (s' & E & HB & _). eauto.
  - apply view_reads; [|done]. apply block_reads; [done|]. apply (default_old (A := block_header)).
  - split; [by intros <-|]. intros Hsig. unfold received, block_body_copy.
    replace (map transaction_copy (transactions (body b))) with (transactions (body b)).
    { by destruct b as [? [] ?]. }
    clear -Hsig. induction (transactions (body b)) as [|x l IH]; [done|]. simpl. f_equal.
    + specialize (Hsig x). destruct x. unfold transaction_copy. simpl in *.
      by rewrite Hsig by set_solver.
    + apply IH. set_solver.
  - apply view_reads; [|done]. apply output_reads; [done|apply default_old].
Qed.
End Theorems.

Definition sample_transaction : transaction :=
  {| tdata := replicate 64 1; signature := b! "signature";
     outs := [{| receiver := sample_uint256; out_count := 5 |}] |}.
Definition sample_block : block :=
  {| header := sample_header;
     body := {| transactions := [sample_transaction]; affairs := [] |};
     block_signature := b! "block" |}.

Lemma block_transmission_witness :
  let h : Host := LittleEndian in let HL : LittleEndianHost := eq_refl in
  (output default_value (View_new (encode_block sample_block)
    (Z.of_nat (length (encode_block sample_block))))).1 = Ok (received sample_block)
  /\ received sample_block <> sample_block.
Proof.
  pose (h := LittleEndian : Host). pose (HL := eq_refl : LittleEndianHost).
  destruct (block_transmission sample_block sample_transaction BinarySerializer_new)
    as (_ & E & Hs & _).
  - repeat first [split | constructor]; vm_compute; congruence.
  - repeat first [split | constructor]; vm_compute; congruence.
  - split; vm_compute; congruence.
  - vm_compute. reflexivity.
  - vm_compute. reflexivity.
  - split; [exact E|]. intros Eq. rewrite Eq in Hs.
    specialize (Hs sample_transaction (list_elem_of_here _ _)). discriminate.
Defined.
