(* ===== verification/MptNode.v ===== *)
(** * Nodes of the Merkle Patricia trie:
    [mpt_node.hpp], [node_table.hpp], [mpt_node_storage.hpp]

    A node is a value: a node has one parent, the table it is stored in, and
    only the trie holds it.  A node table holds [Some] node where the code has
    [exist == true]; its [count] is the number of those entries.  The trie here
    is the one in memory: [load_node_from_leveldb] gives back the node of the
    cache entry. *)
From S2P Require Import Prelude Uint256.

(** [static_assert(std::is_base_of_v<IGetHashSha3256, Value_Type>)] *)
Class IGetHashSha3256 (V : Type) := value_get_hash : V -> uint256.

Definition CHILDREN_COUNT : nat := 16.
Definition EMPTY_KEY_LENGTH : nat := 64.
Definition EMPTY_KEY_CHAR : Z := 48.
Definition MOVE_COUNT : Z := 4.
Definition BIT_MASK : Z := 15.

Inductive mpt_error :=
| MovedFrom          (** std::runtime_error: the root is null *)
| NullChildren       (** the children of a leaf are dereferenced *)
| EmptySubKey.       (** [sub_key.size() - 1] wraps and the loop reads past the key *)

(** ** Node tables *)
Abbreviation node_table E := (list (option E)).

Section NodeTable.
Context {E : Type}.
Implicit Type t : node_table E.

Definition table_new : node_table E := replicate CHILDREN_COUNT None.
Definition table_find t (idx : Z) : option E := mjoin (t !! Z.to_nat idx).
Definition get_exist t (idx : Z) : bool :=
  match table_find t idx with Some _ => true | None => false end.
Definition table_insert t (idx : Z) (node : E) : bool * node_table E :=
  if get_exist t idx then (false, t) else (true, <[Z.to_nat idx := Some node]> t).
Definition table_erase t (idx : Z) : bool * node_table E :=
  if get_exist t idx then (true, <[Z.to_nat idx := None]> t) else (false, t).
Definition table_update t (idx : Z) (node : E) : option E * node_table E :=
  match table_find t idx with
  | Some prev => (Some prev, <[Z.to_nat idx := Some node]> t)
  | None => (None, t)
  end.
Definition present (o : option E) : bool := match o with Some _ => true | None => false end.
Fixpoint first_from (i : Z) t : Z :=
  match t with
  | [] => -1
  | o :: t => if present o then i else first_from (i + 1) t
  end.
Definition table_first t : Z := first_from 0 t.
Definition table_size t : Z := Z.of_nat (length (filter present t)).
End NodeTable.

(** ** Nodes *)
Record mpt_meta := Meta {
  value_hash : uint256;
  modified : bool;
  key : bytes;
  sub_key : bytes;
}.

Inductive mpt_node (V : Type) :=
| Leaf (m : mpt_meta) (value : V)
| Extension (m : mpt_meta) (children : list (option (mpt_node V))).
Arguments Leaf {V}.
Arguments Extension {V}.

(** What is stored of a node, and whether it is to be written or deleted. *)
Inductive operator_type := UPDATE_OP_MUSE | DELETE_OP_MUSE | INSERT_OP_MUSE.

Record mpt_node_storage := {
  storage_key : bytes;
  storage_op : operator_type;
  storage_sub_key : bytes;
  storage_value_hash : uint256;
  storage_values : list bytes;
}.

Definition storage_with_hash (h : uint256) (s : mpt_node_storage) : mpt_node_storage :=
  {| storage_key := storage_key s; storage_op := storage_op s;
     storage_sub_key := storage_sub_key s; storage_value_hash := h;
     storage_values := storage_values s |}.

Section Node.
Context {V : Type}.
Implicit Type n : mpt_node V.

Definition meta n : mpt_meta := match n with Leaf m _ => m | Extension m _ => m end.
Definition with_meta (f : mpt_meta -> mpt_meta) n : mpt_node V :=
  match n with Leaf m v => Leaf (f m) v | Extension m c => Extension (f m) c end.

Definition get_modified n : bool := modified (meta n).
Definition set_modified (_modified : bool) n : mpt_node V :=
  with_meta (fun m => Meta (value_hash m) _modified (key m) (sub_key m)) n.
Definition set_value_hash (h : uint256) n : mpt_node V :=
  with_meta (fun m => Meta h (modified m) (key m) (sub_key m)) n.
Definition set_sub_key (s : bytes) n : mpt_node V :=
  with_meta (fun m => Meta (value_hash m) (modified m) (key m) s) n.
Definition get_leaf n : bool := match n with Leaf _ _ => true | Extension _ _ => false end.

(** [node->get_children()->...]: the table of a leaf is a null pointer. *)
Definition get_children n : res mpt_error (node_table (mpt_node V)) :=
  match n with Leaf _ _ => Err NullChildren | Extension _ c => Ok c end.
Definition set_children (c : node_table (mpt_node V)) n : mpt_node V :=
  match n with Leaf m v => Leaf m v | Extension m _ => Extension m c end.

(** [node->value]: null in an extension node. *)
Definition node_value n : option V := match n with Leaf _ v => Some v | Extension _ _ => None end.

Definition child_keys (c : node_table (mpt_node V)) : list bytes :=
  omap (fun o => match o with Some node => Some (key (meta node)) | None => None end) c.

Definition to_mpt_node_storage (op_type : operator_type) n : mpt_node_storage :=
  {| storage_key := key (meta n); storage_op := op_type; storage_sub_key := sub_key (meta n);
     storage_value_hash := value_hash (meta n);
     storage_values := match n with Leaf _ _ => [] | Extension _ c => child_keys c end |}.

Definition create_extension_node (_modified : bool) : mpt_node V :=
  Extension (Meta (uint256_fill 0) _modified [] []) table_new.
Definition create_leaf_node (_modified : bool) (v : V) : mpt_node V :=
  Leaf (Meta (uint256_fill 0) _modified [] []) v.

(** A new node with its [key] and [sub_key] set. *)
Definition set_key (k : bytes) n : mpt_node V :=
  with_meta (fun m => Meta (value_hash m) (modified m) k (sub_key m)) n.
End Node.

(** ** Paths *)

(** The loop that fills [subscripts]: two nibbles per byte of the key. *)
Definition subscripts_of (l : bytes) : list Z :=
  flat_map (fun b => [Z.shiftr b MOVE_COUNT; Z.land b BIT_MASK]) l.
Definition subscripts (k : uint256) : list Z := subscripts_of (data k).

(** The inner loop over [sub_key] from position [j], with the rest of the
    subscripts: the two differ at [j], the key is found, the key ends inside
    [sub_key], or the loop goes to the next level with what remains. *)
Inductive comparison_result :=
| Differ (j : nat) (rest : list Z)
| Found
| KeyEnds
| NextLevel (rest : list Z).

Fixpoint compare_loop (j : nat) (sub : bytes) (subs : list Z) : res mpt_error comparison_result :=
  match sub, subs with
  | s :: sub', k :: subs' =>
      if s =? k then
        match subs', sub' with
        | [], [] => Ok Found
        | [], _ => Ok KeyEnds
        | _, [] => Ok (NextLevel subs')
        | _, _ => compare_loop (S j) sub' subs'
        end
      else Ok (Differ j subs)
  | _, _ => Err EmptySubKey
  end.
Definition compare_sub_key (sub : bytes) (subs : list Z) := compare_loop 0 sub subs.

(** Induction on a node through its table of children. *)
Lemma mpt_node_nested_ind {V} (P : mpt_node V -> Prop) :
  (forall m v, P (Leaf m v)) ->
  (forall m c, (forall n, Some n ∈ c -> P n) -> P (Extension m c)) ->
  forall n, P n.
Proof.
  intros HL HE. fix IH 1. intros [m v|m c]; [apply HL|]. apply HE.
  assert (Hc : Forall (fun o => match o with Some n => P n | None => True end) c).
  { induction c as [|[n|] c IHc]; constructor; auto. }
  intros n Hn. rewrite Forall_forall in Hc. exact (Hc _ Hn).
Qed.

(** ** Lemmas on tables *)
Section TableLemmas.
Context {E : Type}.
Implicit Type t : node_table E.

Definition table_wf t : Prop := length t = CHILDREN_COUNT.
Definition nibble_ok (i : Z) : Prop := 0 <= i < 16.

Lemma table_new_wf : table_wf (@table_new E).
Proof. apply length_replicate. Qed.

Lemma table_new_find i : table_find (@table_new E) i = None.
Proof.
  unfold table_find, table_new, CHILDREN_COUNT. destruct (decide (Z.to_nat i < 16)%nat).
  - by rewrite lookup_replicate_2.
  - rewrite lookup_ge_None_2; [done|]. rewrite length_replicate. lia.
Qed.

Lemma get_exist_false t i : get_exist t i = false <-> table_find t i = None.
Proof. unfold get_exist. by destruct (table_find t i). Qed.

Lemma table_set_wf t i o : table_wf t -> table_wf (<[i := o]> t).
Proof. unfold table_wf. by rewrite length_insert. Qed.

Lemma table_find_set t i j o :
  table_wf t -> nibble_ok i -> nibble_ok j ->
  table_find (<[Z.to_nat i := o]> t) j = if decide (j = i) then o else table_find t j.
Proof.
  intros Ht Hi Hj. unfold table_find. unfold nibble_ok in *.
  case_decide as E'; [subst|].
  - rewrite list_lookup_insert_eq; [by destruct o|]. rewrite Ht. unfold CHILDREN_COUNT. lia.
  - by rewrite list_lookup_insert_ne by lia.
Qed.

Lemma table_insert_ok t i n : table_find t i = None -> table_insert t i n = (true, <[Z.to_nat i := Some n]> t).
Proof. intros H. unfold table_insert, get_exist. by rewrite H. Qed.

Lemma table_erase_ok t i n : table_find t i = Some n -> table_erase t i = (true, <[Z.to_nat i := None]> t).
Proof. intros H. unfold table_erase, get_exist. by rewrite H. Qed.

Lemma table_update_ok t i n n' : table_find t i = Some n ->
  table_update t i n' = (Some n, <[Z.to_nat i := Some n']> t).
Proof. intros H. unfold table_update. by rewrite H. Qed.

Lemma table_find_range t i n : table_wf t -> table_find t (Z.of_nat i) = Some n -> (i < 16)%nat.
Proof.
  unfold table_find. rewrite Nat2Z.id. intros Ht H.
  destruct (t !! i) eqn:E'; [|done]. apply lookup_lt_Some in E'. by rewrite Ht in E'.
Qed.
End TableLemmas.

(** ** Lemmas on paths *)
Lemma subscripts_of_length l : length (subscripts_of l) = (2 * length l)%nat.
Proof. induction l; simpl; lia. Qed.

Lemma subscripts_length k : uint256_wf k -> length (subscripts k) = EMPTY_KEY_LENGTH.
Proof. intros [Hk _]. unfold subscripts. by rewrite subscripts_of_length, Hk. Qed.

Lemma byte_nibbles b : byte_ok b -> nibble_ok (Z.shiftr b 4) /\ nibble_ok (Z.land b 15).
Proof.
  unfold byte_ok, is_uint, nibble_ok. change 15 with (Z.ones 4). rewrite Z.land_ones by lia.
  rewrite Z.shiftr_div_pow2 by lia. intros. change (2 ^ 4) with 16. change (2 ^ 8) with 256 in *.
  split; [split; [apply Z.div_pos|apply Z.div_lt_upper_bound]; lia|]. apply Z.mod_pos_bound. lia.
Qed.

Lemma subscripts_of_ok l : bytes_ok l -> Forall nibble_ok (subscripts_of l).
Proof.
  induction 1 as [|b l Hb _ IH]; simpl; [constructor|].
  destruct (byte_nibbles b Hb) as [Hh Hl].
  constructor; [exact Hh|]. constructor; [exact Hl|exact IH].
Qed.

Lemma subscripts_ok k : uint256_wf k -> Forall nibble_ok (subscripts k).
Proof. intros [_ Hk]. by apply subscripts_of_ok. Qed.

Lemma byte_of_nibbles b : byte_ok b -> Z.shiftr b 4 * 16 + Z.land b 15 = b.
Proof.
  intros _. change 15 with (Z.ones 4). rewrite Z.land_ones, Z.shiftr_div_pow2 by lia.
  pose proof (Z.div_mod b (2 ^ 4)). change (2 ^ 4) with 16 in *. lia.
Qed.

Lemma subscripts_of_inj l l' :
  bytes_ok l -> bytes_ok l' -> subscripts_of l = subscripts_of l' -> l = l'.
Proof.
  intros Hl. revert l'. induction Hl as [|b l Hb _ IH]; intros [|b' l'] Hl' E; simpl in E; try done.
  injection E as E1 E2 E. apply Forall_cons in Hl' as [Hb' Hl'].
  unfold MOVE_COUNT, BIT_MASK in *.
  f_equal; [|by apply IH]. rewrite <-(byte_of_nibbles b Hb), <-(byte_of_nibbles b' Hb'). congruence.
Qed.

Lemma subscripts_inj k k' : uint256_wf k -> uint256_wf k' -> subscripts k = subscripts k' -> k = k'.
Proof. intros [_ H] [_ H'] E. apply uint256_eq. by apply subscripts_of_inj. Qed.

(** The inner loop against the definition of a common prefix. *)
Lemma compare_loop_spec j sub subs r :
  compare_loop j sub subs = Ok r ->
  match r with
  | Found => subs = sub
  | KeyEnds => exists x rest, sub = subs ++ x :: rest
  | NextLevel rest => subs = sub ++ rest /\ rest <> []
  | Differ i rest => exists p x sub' y rest',
      sub = p ++ x :: sub' /\ subs = p ++ y :: rest' /\ x <> y /\ rest = y :: rest'
      /\ i = (j + length p)%nat
  end.
Proof.
  revert j subs r. induction sub as [|s sub IH]; intros j subs r; [done|].
  destruct subs as [|k subs]; [done|]. cbn [compare_loop].
  destruct (Z.eqb_spec s k) as [->|Hne].
  - destruct subs as [|k' subs], sub as [|s' sub].
    + intros [= <-]. done.
    + intros [= <-]. by exists s', sub.
    + intros [= <-]. done.
    + intros H%IH. destruct r as [i rest| | |rest].
      * destruct H as (p & x & sub' & y & rest' & -> & -> & Hxy & -> & ->).
        exists (k :: p), x, sub', y, rest'. simpl. repeat split; auto with lia.
      * congruence.
      * destruct H as (x & rest & ->). by exists x, rest.
      * destruct H as [-> ?]. done.
  - intros [= <-]. exists [], s, sub, k, subs. simpl. repeat split; auto.
Qed.

Lemma compare_loop_ok j sub subs :
  sub <> [] -> subs <> [] -> exists r, compare_loop j sub subs = Ok r.
Proof.
  revert j subs. induction sub as [|s sub IH]; intros j [|k subs] Hs Hk; try done.
  cbn [compare_loop]. destruct (s =? k); [|eauto].
  destruct subs, sub; eauto.
Qed.
