(* ===== verification/Mpt.v ===== *)
(** * The Merkle Patricia trie: [merkle_patricia_trie.hpp]

    The operations of a trie in memory, each with the loop of the code: the
    loops that walk along a key run at most once per subscript, so their fuel is
    the number of subscripts; the loop of [get_hash] visits each node at most
    once, so its fuel is the number of nodes. *)
From S2P Require Import Prelude Uint256 MptNode.

Abbreviation mpt_store := (gmap bytes mpt_node_storage).

Section Mpt.
Context {V : Type} `{IGetHashSha3256 V} `{HashHandler}.

Abbreviation node := (mpt_node V).
Abbreviation outcome A := (res mpt_error A).

Record merkle_patricia_trie := Trie {
  extension_nodes : mpt_store;
  root : option node;              (** null after the trie was moved from *)
}.

(** ** Lookup *)

(** The loop of [search] and of [find]: the node the key ends in. *)
Fixpoint lookup_loop (fuel : nat) (n : node) (subs : list Z) : outcome (option node) :=
  match fuel, subs with
  | S fuel, subscript :: _ =>
      children ← get_children n;
      match table_find children subscript with
      | None => Ok None
      | Some node_next =>
          c ← compare_sub_key (sub_key (meta node_next)) subs;
          match c with
          | Found => Ok (Some node_next)
          | NextLevel rest => lookup_loop fuel node_next rest
          | Differ _ _ | KeyEnds => Ok None
          end
      end
  | _, _ => Ok None
  end.

Definition locate (t : merkle_patricia_trie) (k : uint256) : outcome (option node) :=
  match root t with
  | None => Err MovedFrom
  | Some n => lookup_loop (length (subscripts k)) n (subscripts k)
  end.

(** [nullptr] is [None]. *)
Definition search (t : merkle_patricia_trie) (k : uint256) : outcome (option V) :=
  n ← locate t k;
  Ok (match n with Some n => node_value n | None => None end).
Definition find (t : merkle_patricia_trie) (k : uint256) : outcome bool :=
  n ← locate t k;
  Ok (match n with Some _ => true | None => false end).

(** Every node of [modified_stack] is marked once the key is found. *)
Fixpoint mark_loop (fuel : nat) (n : node) (subs : list Z) : outcome (option (option V) * node) :=
  match fuel, subs with
  | S fuel, subscript :: _ =>
      children ← get_children n;
      match table_find children subscript with
      | None => Ok (None, n)
      | Some node_next =>
          c ← compare_sub_key (sub_key (meta node_next)) subs;
          match c with
          | Found => Ok (Some (node_value node_next), set_modified true n)
          | NextLevel rest =>
              r ← mark_loop fuel node_next rest;
              match r with
              | (Some v, node_next) =>
                  Ok (Some v, set_modified true
                                (set_children (table_update children subscript node_next).2 n))
              | (None, _) => Ok (None, n)
              end
          | Differ _ _ | KeyEnds => Ok (None, n)
          end
      end
  | _, _ => Ok (None, n)
  end.

Definition search_and_mark (t : merkle_patricia_trie) (k : uint256)
  : outcome (option V * merkle_patricia_trie) :=
  match root t with
  | None => Err MovedFrom
  | Some n =>
      r ← mark_loop (length (subscripts k)) n (subscripts k);
      Ok (match r.1 with Some v => v | None => None end, Trie (extension_nodes t) (Some r.2))
  end.

(** An assignment through the pointer that [search] or [search_and_mark] gave. *)
Fixpoint write_loop (fuel : nat) (v : V) (n : node) (subs : list Z) : outcome node :=
  match fuel, subs with
  | S fuel, subscript :: _ =>
      children ← get_children n;
      match table_find children subscript with
      | None => Ok n
      | Some node_next =>
          c ← compare_sub_key (sub_key (meta node_next)) subs;
          match c with
          | Found =>
              Ok (match node_next with
                  | Leaf m _ => set_children (table_update children subscript (Leaf m v)).2 n
                  | Extension _ _ => n
                  end)
          | NextLevel rest =>
              node_next ← write_loop fuel v node_next rest;
              Ok (set_children (table_update children subscript node_next).2 n)
          | Differ _ _ | KeyEnds => Ok n
          end
      end
  | _, _ => Ok n
  end.

Definition write_value (t : merkle_patricia_trie) (k : uint256) (v : V)
  : outcome merkle_patricia_trie :=
  match root t with
  | None => Err MovedFrom
  | Some n =>
      n ← write_loop (length (subscripts k)) v n (subscripts k);
      Ok (Trie (extension_nodes t) (Some n))
  end.

(** ** The change store *)

(** [extension_nodes[k] = s], in order. *)
Definition store_all (m : mpt_store) (entries : list (bytes * mpt_node_storage)) : mpt_store :=
  foldl (fun m e => <[e.1 := e.2]> m) m entries.

Definition entry (op : operator_type) (n : node) : bytes * mpt_node_storage :=
  (key (meta n), to_mpt_node_storage op n).

(** ** Insertion *)
Section Insert.
Variable k : uint256.
Variable value : V.

(** A new leaf for the key, whose part of the path is [sub]. *)
Definition new_leaf (sub : list Z) : node :=
  Leaf (Meta (uint256_fill 0) true (get_hex k) sub) value.

(** A new prefix node above [node_next] and the new leaf, which differ at
    position [j] of [node_next]'s part of the path (position [i] of the key):
    the new node, [node_next] and the new leaf. *)
Definition split_node (i j : nat) (node_next : node) (rest : list Z) : node * node * node :=
  let child := Extension (Meta (uint256_fill 0) true (take i (get_hex k))
                            (take j (sub_key (meta node_next)))) table_new in
  let child_QQF := new_leaf rest in
  let prev_node := set_sub_key (drop j (sub_key (meta node_next))) node_next in
  let children := (table_insert table_new (hd 0 (sub_key (meta child_QQF))) child_QQF).2 in
  let children := (table_insert children (hd 0 (sub_key (meta prev_node))) prev_node).2 in
  (set_children children child, prev_node, child_QQF).

Fixpoint insert_loop (fuel : nat) (i : nat) (n : node) (subs : list Z)
  : outcome (node * list (bytes * mpt_node_storage)) :=
  match fuel, subs with
  | S fuel, subscript :: _ =>
      children ← get_children n;
      match table_find children subscript with
      | None =>
          let new_node := new_leaf subs in
          let n := set_children (table_insert children subscript new_node).2 n in
          Ok (set_modified true n, [entry UPDATE_OP_MUSE n; entry INSERT_OP_MUSE new_node])
      | Some node_next =>
          c ← compare_sub_key (sub_key (meta node_next)) subs;
          match c with
          | Found | KeyEnds => Ok (n, [])
          | NextLevel rest =>
              r ← insert_loop fuel (i + length (sub_key (meta node_next))) node_next rest;
              match r with
              | (_, []) => Ok (n, [])
              | (node_next, entries) =>
                  Ok (set_modified true
                        (set_children (table_update children subscript node_next).2 n), entries)
              end
          | Differ j rest =>
              let '(child, prev_node, child_QQF) := split_node (i + j) j node_next rest in
              let n := set_children (table_update children subscript child).2 n in
              Ok (set_modified true n,
                  [entry UPDATE_OP_MUSE prev_node; entry INSERT_OP_MUSE child;
                   entry UPDATE_OP_MUSE n; entry INSERT_OP_MUSE child_QQF])
          end
      end
  | _, _ => Ok (n, [])
  end.
End Insert.

Definition insert (t : merkle_patricia_trie) (k : uint256) (value : V)
  : outcome merkle_patricia_trie :=
  match root t with
  | None => Err MovedFrom
  | Some n =>
      r ← insert_loop k value (length (subscripts k)) 0 n (subscripts k);
      Ok (Trie (store_all (extension_nodes t) r.2) (Some r.1))
  end.

(** ** Deletion *)

(** What the parent has to do: nothing more than mark itself, or put the brother
    in the place of the node. *)
Inductive erased := Kept | Merged (brother : node).

(** The leaf is below [parent_node]. *)
Definition erase_leaf (is_root : bool) (parent_node : node) (children : node_table node) (leaf : node)
  : node * erased * list (bytes * mpt_node_storage) :=
  let idx := hd 0 (sub_key (meta leaf)) in
  let parent_node := set_modified true (set_children (table_erase children idx).2 parent_node) in
  let deleted := entry DELETE_OP_MUSE leaf in
  if is_root then (parent_node, Kept, [deleted; entry UPDATE_OP_MUSE parent_node])
  else
    let children := (table_erase children idx).2 in
    if table_size children =? 1 then
      match table_find children (table_first children) with
      | Some brother =>
          let brother := set_modified true
            (set_sub_key (sub_key (meta parent_node) ++ sub_key (meta brother)) brother) in
          (parent_node, Merged brother, [deleted; entry DELETE_OP_MUSE parent_node])
      | None => (parent_node, Kept, [deleted])
      end
    else (parent_node, Kept, [deleted]).

Fixpoint erase_loop (fuel : nat) (is_root : bool) (n : node) (subs : list Z)
  : outcome (option (node * erased * list (bytes * mpt_node_storage))) :=
  match fuel, subs with
  | S fuel, subscript :: _ =>
      children ← get_children n;
      match table_find children subscript with
      | None => Ok None
      | Some node_next =>
          c ← compare_sub_key (sub_key (meta node_next)) subs;
          match c with
          | Found => Ok (Some (erase_leaf is_root n children node_next))
          | NextLevel rest =>
              r ← erase_loop fuel false node_next rest;
              match r with
              | None => Ok None
              | Some (node_next, Kept, entries) =>
                  Ok (Some (set_modified true
                              (set_children (table_update children subscript node_next).2 n),
                            Kept, entries))
              | Some (parent_node, Merged brother, entries) =>
                  let children := (table_erase children (hd 0 (sub_key (meta parent_node)))).2 in
                  let children := (table_insert children (hd 0 (sub_key (meta brother))) brother).2 in
                  let n := set_modified true (set_children children n) in
                  Ok (Some (n, Kept,
                            entries ++ [entry UPDATE_OP_MUSE brother; entry UPDATE_OP_MUSE n]))
              end
          | Differ _ _ | KeyEnds => Ok None
          end
      end
  | _, _ => Ok None
  end.

Definition erase (t : merkle_patricia_trie) (k : uint256) : outcome (bool * merkle_patricia_trie) :=
  match root t with
  | None => Err MovedFrom
  | Some n =>
      r ← erase_loop (length (subscripts k)) true n (subscripts k);
      match r with
      | None => Ok (false, t)
      | Some (n, _, entries) => Ok (true, Trie (store_all (extension_nodes t) entries) (Some n))
      end
  end.

(** ** The root hash *)

(** The number of nodes. *)
Fixpoint node_count (n : node) : nat :=
  match n with
  | Leaf _ _ => 1
  | Extension _ c =>
      S (list_sum (map (fun o => match o with Some n => node_count n | None => O end) c))
  end.

(** A pointer on a stack is the list of table indices from the root. *)
Fixpoint node_at (n : node) (p : list nat) : option node :=
  match p with
  | [] => Some n
  | i :: p =>
      match n with
      | Leaf _ _ => None
      | Extension _ c => match c !! i with Some (Some n) => node_at n p | _ => None end
      end
  end.
Fixpoint update_at (n : node) (p : list nat) (new : node) : node :=
  match p with
  | [] => new
  | i :: p =>
      match n with
      | Leaf _ _ => n
      | Extension m c =>
          match c !! i with
          | Some (Some n) => Extension m (<[i := Some (update_at n p new)]> c)
          | _ => n
          end
      end
  end.

(** The children of [current] that are pushed, in the order of the table. *)
Fixpoint push_from (current : list nat) (i : nat) (c : node_table node) : list (list nat) :=
  match c with
  | [] => []
  | o :: c =>
      match o with
      | Some child => if get_modified child && negb (get_leaf child) then [current ++ [i]] else []
      | None => []
      end ++ push_from current (S i) c
  end.

(** The same, the last one on top. *)
Definition pushed (n : node) (current : list nat) : list (list nat) :=
  match node_at n current with
  | Some (Extension _ c) => reverse (push_from current 0 c)
  | _ => []
  end.

(** The first loop: [cache_stack] when [auxiliary_stack] is empty. *)
Fixpoint collect (fuel : nat) (n : node) (auxiliary_stack cache_stack : list (list nat))
  : list (list nat) :=
  match fuel, auxiliary_stack with
  | S fuel, current :: auxiliary_stack =>
      collect fuel n (pushed n current ++ auxiliary_stack) (pushed n current ++ cache_stack)
  | _, _ => cache_stack
  end.

(** [itr->second.value_hash = h] if the key is in the store. *)
Definition store_hash (m : mpt_store) (k : bytes) (h : uint256) : mpt_store :=
  alter (storage_with_hash h) k m.

(** One child of the node being hashed: a leaf is hashed first. *)
Definition hash_child (m : mpt_store) (n : node) : node * mpt_store :=
  match n with
  | Leaf _ v =>
      let n := set_value_hash (value_get_hash v) n in
      (set_modified false n, store_hash m (key (meta n)) (value_get_hash v))
  | Extension _ _ => (set_modified false n, m)
  end.

Fixpoint hash_children (m : mpt_store) (result : uint256) (c : list (option node))
  : list (option node) * uint256 * mpt_store :=
  match c with
  | [] => ([], result, m)
  | None :: c => let '(c, result, m) := hash_children m result c in (None :: c, result, m)
  | Some n :: c =>
      let '(n, m) := hash_child m n in
      let '(c, result, m) := hash_children m (result + value_hash (meta n))%U c in
      (Some n :: c, result, m)
  end.

(** One step of the second loop, on the node [top]. *)
Definition hash_node (m : mpt_store) (top : node) : node * mpt_store :=
  match top with
  | Leaf _ _ => (top, m)
  | Extension _ c =>
      let '(c, result, m) := hash_children m uint256_zero c in
      let top := set_modified false (set_children c top) in
      let top := set_value_hash (get_sha3_256 result) top in
      (top, match m !! key (meta top) with
            | Some _ => store_hash m (key (meta top)) (value_hash (meta top))
            | None => <[key (meta top) := to_mpt_node_storage UPDATE_OP_MUSE top]> m
            end)
  end.

Definition hash_step (st : node * mpt_store) (p : list nat) : node * mpt_store :=
  match node_at st.1 p with
  | Some top => (update_at st.1 p (hash_node st.2 top).1, (hash_node st.2 top).2)
  | None => st
  end.

Definition get_hash_helper_2stack (n : node) (m : mpt_store) : node * mpt_store :=
  if get_modified n then
    foldl hash_step (n, m) (collect (node_count n) n [[]] [[]])
  else (n, m).

Definition get_hash (t : merkle_patricia_trie) : outcome (uint256 * merkle_patricia_trie) :=
  match root t with
  | None => Err MovedFrom
  | Some n =>
      let '(n, m) := get_hash_helper_2stack n (extension_nodes t) in
      Ok (value_hash (meta n), Trie m (Some n))
  end.

(** A reference to the store, after the hashes are updated. *)
Definition get_change_store (t : merkle_patricia_trie) : outcome (mpt_store * merkle_patricia_trie) :=
  r ← get_hash t; Ok (extension_nodes r.2, r.2).

(** [get_change_store().clear()], and [swap] with an empty map. *)
Definition clear_change_store (t : merkle_patricia_trie) : merkle_patricia_trie :=
  Trie ∅ (root t).

(** ** Construction *)
Definition trie_new : merkle_patricia_trie :=
  let r := set_key (replicate EMPTY_KEY_LENGTH EMPTY_KEY_CHAR) (create_extension_node true) in
  match get_hash (Trie ∅ (Some r)) with Ok (_, t) => t | Err _ => Trie ∅ (Some r) end.

(** The trie made from [other], and what is left of [other]. *)
Definition trie_move (other : merkle_patricia_trie) : merkle_patricia_trie * merkle_patricia_trie :=
  (Trie ∅ (root other), Trie (extension_nodes other) None).
Definition trie_move_assign (this other : merkle_patricia_trie)
  : merkle_patricia_trie * merkle_patricia_trie :=
  (Trie (extension_nodes this) (root other), Trie (extension_nodes other) None).
End Mpt.
Arguments merkle_patricia_trie V : clear implicits.
