(* ===== verification/MptLaws.v ===== *)
(** * The Merkle Patricia trie is a finite map

    The shape invariant of a trie, what it stores, and the specification of
    every operation in terms of what is stored. *)
From S2P Require Import Prelude Uint256 MptNode Mpt.

Section Laws.
Context {V : Type}.
Abbreviation node := (mpt_node V).
Implicit Types (n nx : node) (c : node_table node) (m : mpt_meta) (p q subs : list Z).

(** ** Sizes of tables *)
Definition weight {E} (o : option E) : nat := if present o then 1 else 0.

Lemma filter_insert_size {E} (t : node_table E) i o :
  (i < length t)%nat ->
  (length (filter present (<[i := o]> t)) + weight (mjoin (t !! i))
   = length (filter present t) + weight o)%nat.
Proof.
  revert i. induction t as [|o' t IH]; intros [|i] Hi; simpl in Hi |- *; try lia.
  - rewrite !filter_cons. unfold weight. destruct o, o'; simpl; lia.
  - specialize (IH i ltac:(lia)). rewrite !filter_cons. destruct o'; simpl in *; lia.
Qed.

Lemma size_set {E} (t : node_table E) s o :
  table_wf t -> nibble_ok s ->
  table_size (<[Z.to_nat s := o]> t)
  = table_size t + Z.of_nat (weight o) - Z.of_nat (weight (table_find t s)).
Proof.
  intros Ht Hs. unfold table_size, table_find, nibble_ok, table_wf, CHILDREN_COUNT in *.
  pose proof (filter_insert_size t (Z.to_nat s) o ltac:(lia)). lia.
Qed.

Lemma size_nonneg {E} (t : node_table E) : 0 <= table_size t.
Proof. unfold table_size. lia. Qed.

Lemma size_find {E} (t : node_table E) i e : table_find t i = Some e -> 1 <= table_size t.
Proof.
  unfold table_find, table_size. intros H. destruct (t !! Z.to_nat i) as [o|] eqn:Ht; [|done].
  simpl in H. subst. apply list_elem_of_lookup_2 in Ht.
  assert (Some e ∈ filter present t) as Hin by (apply list_elem_of_filter; done).
  destruct (filter present t); [by apply not_elem_of_nil in Hin|]. simpl. lia.
Qed.

Lemma size_one {E} (t : node_table E) i j e e' :
  table_wf t -> nibble_ok i -> nibble_ok j -> table_size t = 1 ->
  table_find t i = Some e -> table_find t j = Some e' -> i = j.
Proof.
  intros Ht Hi Hj Hs Ei Ej. destruct (decide (i = j)) as [|Hne]; [done|].
  pose proof (size_set t i None Ht Hi) as Hsz. rewrite Ei, Hs in Hsz. unfold weight in Hsz. cbn [present] in Hsz.
  assert (table_find (<[Z.to_nat i := None]> t) j = Some e') as Hf
    by (rewrite table_find_set by done; by rewrite decide_False).
  apply size_find in Hf. lia.
Qed.

Lemma first_from_spec {E} (t : node_table E) i :
  0 <= i -> (1 <= length (filter present t))%nat ->
  exists k e, first_from i t = i + Z.of_nat k /\ t !! k = Some (Some e).
Proof.
  revert i. induction t as [|o t IH]; intros i Hi Hl; [simpl in Hl; lia|].
  rewrite filter_cons in Hl. cbn [first_from]. destruct o as [e|]; cbn [present] in *.
  - exists 0%nat, e. split; [lia|done].
  - rewrite decide_False in Hl by (simpl; auto).
    destruct (IH (i + 1) ltac:(lia) Hl) as (k & e & E1 & E2). exists (S k), e. split; [lia|done].
Qed.

Lemma table_first_spec {E} (t : node_table E) :
  table_wf t -> 1 <= table_size t ->
  exists i e, table_first t = i /\ nibble_ok i /\ table_find t i = Some e.
Proof.
  intros Ht Hs. destruct (first_from_spec t 0 ltac:(lia)) as (k & e & E1 & E2).
  { unfold table_size in Hs. lia. }
  exists (Z.of_nat k), e. unfold table_first. rewrite E1. split; [lia|].
  assert (table_find t (Z.of_nat k) = Some e) by (unfold table_find; by rewrite Nat2Z.id, E2).
  split; [|done]. apply table_find_range in H; [|done]. unfold nibble_ok. lia.
Qed.

(** ** The shape of a trie *)

(** [node_ok r d n]: every path from [n] down has [d] more subscripts; a node
    sits in the table of its parent at the first subscript of its [sub_key]; a
    prefix node other than the root ([r]) has two children or more. *)
Inductive node_ok : bool -> nat -> node -> Prop :=
| leaf_ok r m v : node_ok r 0 (Leaf m v)
| extension_ok r d m c :
    (0 < d)%nat -> table_wf c -> (r = false -> 2 <= table_size c) ->
    (forall i n, nibble_ok i -> table_find c i = Some n ->
      exists s d', sub_key (meta n) = i :: s /\ Forall nibble_ok s /\ d = (S (length s) + d')%nat
                   /\ node_ok false d' n) ->
    node_ok r d (Extension m c).

Definition child_ok (d : nat) (i : Z) (n : node) : Prop :=
  exists s d', sub_key (meta n) = i :: s /\ Forall nibble_ok s /\ d = (S (length s) + d')%nat
               /\ node_ok false d' n.

Lemma node_ok_pos r d n : node_ok r d n -> (0 < d)%nat -> exists m c, n = Extension m c.
Proof. intros H Hd. inversion H; subst; [lia|eauto]. Qed.

Lemma node_ok_extension r d m c :
  node_ok r d (Extension m c) <->
  (0 < d)%nat /\ table_wf c /\ (r = false -> 2 <= table_size c) /\
  (forall i n, nibble_ok i -> table_find c i = Some n -> child_ok d i n).
Proof.
  split.
  - intros H. inversion H; subst. done.
  - intros (H1 & H2 & H3 & H4). by constructor.
Qed.

Lemma node_ok_set_modified r d b n : node_ok r d (set_modified b n) <-> node_ok r d n.
Proof.
  destruct n; simpl; [split; inversion 1; constructor|]. by rewrite !node_ok_extension.
Qed.

Lemma node_ok_set_sub_key r d s n : node_ok r d (set_sub_key s n) <-> node_ok r d n.
Proof.
  destruct n; simpl; [split; inversion 1; constructor|]. by rewrite !node_ok_extension.
Qed.

Lemma sub_key_set_modified b n : sub_key (meta (set_modified b n)) = sub_key (meta n).
Proof. by destruct n. Qed.

Lemma sub_key_set_sub_key s n : sub_key (meta (set_sub_key s n)) = s.
Proof. by destruct n. Qed.

(** Putting a node in the table. *)
Lemma ext_set_child r d m m' c s nx :
  node_ok r d (Extension m c) -> nibble_ok s -> child_ok d s nx ->
  node_ok r d (Extension m' (<[Z.to_nat s := Some nx]> c)).
Proof.
  rewrite !node_ok_extension. intros (H1 & H2 & H3 & H4) Hs Hx.
  split; [done|]. split; [by apply table_set_wf|]. split.
  - intros Hr. rewrite size_set by done. specialize (H3 Hr).
    unfold weight. destruct (table_find c s); cbn [present]; lia.
  - intros i n' Hi. rewrite table_find_set by done. case_decide; [|by apply H4].
    subst. by intros [= <-].
Qed.

(** Taking a node out of the table. *)
Lemma ext_clear_child r d m m' c s :
  node_ok r d (Extension m c) -> nibble_ok s ->
  (r = false -> 2 <= table_size (<[Z.to_nat s := None]> c)) ->
  node_ok r d (Extension m' (<[Z.to_nat s := None]> c)).
Proof.
  rewrite !node_ok_extension. intros (H1 & H2 & H3 & H4) Hs Hx.
  split; [done|]. split; [by apply table_set_wf|]. split; [done|].
  intros i n' Hi. rewrite table_find_set by done. case_decide; [done|by apply H4].
Qed.

(** ** What a trie stores *)
Inductive stores : node -> list Z -> V -> Prop :=
| stores_leaf m v : stores (Leaf m v) [] v
| stores_extension m c i n q v :
    nibble_ok i -> table_find c i = Some n -> stores n q v ->
    stores (Extension m c) (sub_key (meta n) ++ q) v.

(** What a child adds to the paths of its parent. *)
Definition child_stores (n : node) (p : list Z) (v : V) : Prop :=
  exists q, p = sub_key (meta n) ++ q /\ stores n q v.

Lemma stores_leaf_inv m v p w : stores (Leaf m v) p w <-> p = [] /\ w = v.
Proof. split; [by inversion 1|intros [-> ->]; constructor]. Qed.

Lemma stores_ext r d m c p v :
  node_ok r d (Extension m c) ->
  stores (Extension m c) p v <->
  exists s n, nibble_ok s /\ head p = Some s /\ table_find c s = Some n /\ child_stores n p v.
Proof.
  rewrite node_ok_extension. intros (H1 & H2 & H3 & H4). split.
  - inversion 1 as [|? ? i n q ? Hi Hn Hq]; subst. exists i, n. split; [done|]. split; [|split; [done|by exists q]].
    destruct (H4 i n Hi Hn) as (s & d' & -> & _). done.
  - intros (s & n & Hs & _ & Hn & q & -> & Hq). by econstructor.
Qed.

Lemma stores_set_modified b n p v : stores (set_modified b n) p v <-> stores n p v.
Proof. destruct n; split; inversion 1; subst; econstructor; eauto. Qed.

Lemma stores_set_sub_key s n p v : stores (set_sub_key s n) p v <-> stores n p v.
Proof. destruct n; split; inversion 1; subst; econstructor; eauto. Qed.

Lemma child_stores_set_modified b n p v : child_stores (set_modified b n) p v <-> child_stores n p v.
Proof.
  unfold child_stores. rewrite sub_key_set_modified.
  by setoid_rewrite stores_set_modified.
Qed.

(** What is stored after a change at one index of the table. *)
Lemma stores_set_child r d r' m m' c s o p v :
  node_ok r d (Extension m c) -> node_ok r' d (Extension m' (<[Z.to_nat s := o]> c)) ->
  nibble_ok s ->
  stores (Extension m' (<[Z.to_nat s := o]> c)) p v <->
  if decide (head p = Some s) then exists nx, o = Some nx /\ child_stores nx p v
  else stores (Extension m c) p v.
Proof.
  intros H H' Hs. rewrite (stores_ext _ _ _ _ _ _ H').
  apply node_ok_extension in H as Hc. destruct Hc as (_ & Hc & _). case_decide as E.
  - split.
    + intros (s' & n & Hs' & E' & Hn & Hq). rewrite E' in E. injection E as ->.
      rewrite table_find_set, decide_True in Hn by done. eauto.
    + intros (nx & -> & Hq). exists s, nx. rewrite table_find_set, decide_True by done. done.
  - rewrite (stores_ext _ _ _ _ _ _ H). split; intros (s' & n & Hs' & E' & Hn & Hq); exists s', n.
    + rewrite table_find_set in Hn by done. by rewrite decide_False in Hn by congruence.
    + rewrite table_find_set by done. by rewrite decide_False by congruence.
Qed.

(** Paths have the length of the key and are nibbles. *)
Lemma stores_length r d n p v : node_ok r d n -> stores n p v -> length p = d /\ Forall nibble_ok p.
Proof.
  intros Hn Hp. revert r d Hn. induction Hp as [|m c i n q v Hi Hf Hq IH]; intros r d Hn.
  - inversion Hn; subst; done.
  - apply node_ok_extension in Hn as (_ & _ & _ & H4).
    destruct (H4 i n Hi Hf) as (s & d' & Es & Hs & -> & Hn'). destruct (IH _ _ Hn') as [Hl HF].
    rewrite Es, length_app, Hl. split; [done|]. apply Forall_app. split; [by constructor|done].
Qed.

Lemma child_stores_app n q v : child_stores n (sub_key (meta n) ++ q) v <-> stores n q v.
Proof.
  split; [|by exists q]. intros (q' & E & Hq). by apply app_inv_head in E as ->.
Qed.

Lemma stores_at_child r d m c s nx p v :
  node_ok r d (Extension m c) -> nibble_ok s -> table_find c s = Some nx -> head p = Some s ->
  stores (Extension m c) p v <-> child_stores nx p v.
Proof.
  intros H Hs Hn Hp. rewrite stores_ext by done. split; [|by exists s, nx].
  intros (s' & n' & _ & E & Hn' & Hq). rewrite Hp in E. injection E as <-.
  rewrite Hn in Hn'. by injection Hn' as <-.
Qed.

Lemma stores_no_child r d m c s p v :
  node_ok r d (Extension m c) -> table_find c s = None -> head p = Some s ->
  stores (Extension m c) p v <-> False.
Proof.
  intros H Hn Hp. rewrite stores_ext by done. split; [|done].
  intros (s' & n' & _ & E & Hn' & Hq). rewrite Hp in E. injection E as <-. congruence.
Qed.

(** The comparison with a child, case by case. *)
Lemma compare_child d s nx subs :
  child_ok d s nx -> length subs = d -> head subs = Some s -> Forall nibble_ok subs ->
  exists r, compare_sub_key (sub_key (meta nx)) subs = Ok r /\
  match r with
  | Found => subs = sub_key (meta nx) /\ exists m v, nx = Leaf m v
  | KeyEnds => False
  | NextLevel rest => subs = sub_key (meta nx) ++ rest /\ node_ok false (length rest) nx
      /\ (0 < length rest < length subs)%nat /\ Forall nibble_ok rest
  | Differ j rest => exists p x sub' y rest',
      sub_key (meta nx) = s :: p ++ x :: sub' /\ subs = s :: p ++ y :: rest' /\ x <> y
      /\ rest = y :: rest' /\ j = S (length p)
  end.
Proof.
  intros (t & d' & Et & Ht & Ed & Hn) Hl Hs HF.
  destruct subs as [|s' subs]; [done|]. injection Hs as ->.
  destruct (compare_loop_ok 0 (sub_key (meta nx)) (s :: subs)) as [r Hr]; [by rewrite Et|done|].
  exists r. split; [done|]. apply compare_loop_spec in Hr. rewrite Et in *. destruct r as [j rest| | |rest].
  - destruct Hr as (p & x & sub' & y & rest' & E1 & E2 & Hxy & E3 & E4).
    destruct p as [|s' p]; simpl in E1, E2; [congruence|].
    injection E1 as E1 E1'. injection E2 as E2 E2'. subst. exists p, x, sub', y, rest'. done.
  - injection Hr as ->. split; [done|]. simpl in Hl. assert (d' = 0%nat) as -> by lia.
    inversion Hn; subst; [eauto|lia].
  - destruct Hr as (x & rest & E). apply (f_equal length) in E. len.
  - destruct Hr as [E Hne]. rewrite E in Hl, HF |- *. apply Forall_app in HF as [_ HF].
    assert (d' = length rest) as -> by len. split; [done|]. split; [done|]. split; [|done].
    destruct rest; [done|]. len.
Qed.

(** ** Lookup *)
Lemma lookup_loop_spec fuel r d n subs :
  node_ok r d n -> (0 < d)%nat -> length subs = d -> (d <= fuel)%nat -> Forall nibble_ok subs ->
  exists o, lookup_loop fuel n subs = Ok o /\
  match o with
  | Some nx => exists m v, nx = Leaf m v /\ stores n subs v
  | None => forall v, ~ stores n subs v
  end.
Proof.
  revert r d n subs. induction fuel as [|fuel IH]; intros r d n subs Hn Hd Hl Hf HF; [lia|].
  destruct (node_ok_pos _ _ _ Hn Hd) as (m & c & ->).
  destruct subs as [|s subs]; [simpl in Hl; lia|]. cbn [lookup_loop get_children mbind res_bind].
  apply Forall_cons in HF as HF'. destruct HF' as [Hs _].
  destruct (table_find c s) as [nx|] eqn:Ex.
  - apply node_ok_extension in Hn as Hn'. destruct Hn' as (_ & _ & _ & Hc).
    destruct (compare_child d s nx (s :: subs)) as (cr & -> & Hcr); [by apply Hc|done..|].
    assert (Hst : forall v, stores (Extension m c) (s :: subs) v <-> child_stores nx (s :: subs) v)
      by (intros v; by eapply stores_at_child).
    cbn [mbind res_bind]. destruct cr as [j rest| | |rest].
    + exists None. split; [done|]. intros v [q [Eq _]]%Hst.
      destruct Hcr as (p & x & sub' & y & rest' & E1 & E2 & Hxy & _).
      rewrite Eq, E1 in E2. simpl in E2. injection E2 as E2. rewrite <-app_assoc in E2.
      apply app_inv_head in E2. simpl in E2. congruence.
    + destruct Hcr as (E & m' & v & ->). exists (Some (Leaf m' v)). split; [done|].
      exists m', v. split; [done|]. apply Hst. exists []. rewrite app_nil_r. split; [done|constructor].
    + done.
    + destruct Hcr as (E & Hx & Hlr & HF').
      assert (Hr : forall v, stores (Extension m c) (s :: subs) v <-> stores nx rest v)
        by (intros v; rewrite Hst, E; apply child_stores_app).
      destruct (IH _ _ _ rest Hx) as (o & -> & Ho); [lia|done|lia|done|]. exists o. split; [done|].
      destruct o; [|intros v Hv; by apply Hr, Ho in Hv]. destruct Ho as (m' & v & -> & Hv). exists m', v.
      by rewrite Hr.
  - exists None. split; [done|]. intros v Hv. by eapply stores_no_child in Hv.
Qed.

Lemma stores_det r d n p v w : node_ok r d n -> stores n p v -> stores n p w -> v = w.
Proof.
  intros Hn Hv. revert r d w Hn. induction Hv as [|m c i n q v Hi Hf Hq IH]; intros r d w Hn Hw.
  - by inversion Hw.
  - assert (head (sub_key (meta n) ++ q) = Some i) as Hh.
    { apply node_ok_extension in Hn as (_ & _ & _ & Hc). by destruct (Hc i n Hi Hf) as (t & d' & -> & _). }
    rewrite stores_at_child in Hw by done. apply child_stores_app in Hw.
    apply node_ok_extension in Hn as (_ & _ & _ & Hc). destruct (Hc i n Hi Hf) as (t & d' & _ & _ & _ & Hn').
    by eapply IH.
Qed.

(** ** Insertion *)
Lemma empty_ok d m : (0 < d)%nat -> node_ok true d (Extension m table_new).
Proof.
  intros Hd. apply node_ok_extension. split; [done|]. split; [apply table_new_wf|]. split; [done|].
  intros i n _. by rewrite table_new_find.
Qed.

Lemma empty_stores m p v : ~ stores (Extension m table_new) p v.
Proof. inversion 1 as [|? ? i n q ? _ Hf]; subst. by rewrite table_new_find in Hf. Qed.

Lemma node_ok_inner d m c :
  node_ok true d (Extension m c) -> 2 <= table_size c -> node_ok false d (Extension m c).
Proof. rewrite !node_ok_extension. naive_solver. Qed.

Lemma app_cons_neq {A} (a : list A) x y l l' : x <> y -> a ++ x :: l <> a ++ y :: l'.
Proof. intros Hxy E%app_inv_head. congruence. Qed.

Section Insertion.
Variable k : uint256.
Variable value : V.

Lemma new_leaf_child_stores (sub p : list Z) v : child_stores (new_leaf k value sub) p v <-> p = sub /\ v = value.
Proof.
  unfold child_stores. cbn [new_leaf meta sub_key]. split.
  - intros (q & -> & [-> ->]%stores_leaf_inv). by rewrite app_nil_r.
  - intros [-> ->]. exists []. rewrite app_nil_r. split; [done|constructor].
Qed.

Lemma new_leaf_ok s (sub : list Z) d :
  length (s :: sub) = d -> Forall nibble_ok sub -> child_ok d s (new_leaf k value (s :: sub)).
Proof.
  intros Hl Hs. exists sub, 0%nat. split; [done|]. split; [done|]. split; [simpl in Hl; lia|]. constructor.
Qed.

Lemma split_node_spec i (a : list Z) x y (sub rest : list Z) d' nx :
  sub_key (meta nx) = a ++ x :: sub -> x <> y -> Forall nibble_ok (x :: sub) ->
  Forall nibble_ok (y :: rest) -> node_ok false d' nx -> (length sub + d' = length rest)%nat ->
  let child := (split_node k value i (length a) nx (y :: rest)).1.1 in
  sub_key (meta child) = a /\ node_ok false (S (length rest)) child /\
  forall q w, stores child q w <-> (q = y :: rest /\ w = value) \/ child_stores nx (a ++ q) w.
Proof.
  intros Es Hxy Hx Hy Hn Hl. unfold split_node. rewrite Es, take_app_length, drop_app_length.
  set (m := Meta _ _ _ a).
  apply Forall_cons in Hx as [Hx Hsub]. apply Forall_cons in Hy as [Hy Hrest].
  set (leaf := new_leaf k value (y :: rest)). set (prev := set_sub_key (x :: sub) nx).
  assert (Hprev : sub_key (meta prev) = x :: sub) by apply sub_key_set_sub_key.
  rewrite Hprev. change (hd 0 (sub_key (meta leaf))) with y.
  rewrite (table_insert_ok _ y) by apply table_new_find. cbn [snd].
  pose proof (@table_new_wf node) as Hw.
  rewrite table_insert_ok by (cbn [hd]; rewrite table_find_set by done; rewrite decide_False by done;
    apply table_new_find).
  cbn [snd fst set_children hd]. set (child := Extension m _).
  pose proof (empty_ok (S (length rest)) m ltac:(lia)) as H0.
  assert (Hleaf : child_ok (S (length rest)) y leaf) by by apply new_leaf_ok.
  assert (Hpr : child_ok (S (length rest)) x prev).
  { exists sub, d'. split; [done|]. split; [done|]. split; [lia|]. by apply node_ok_set_sub_key. }
  pose proof (ext_set_child _ _ _ m _ _ _ H0 Hy Hleaf) as H1.
  pose proof (ext_set_child _ _ _ m _ _ _ H1 Hx Hpr) as H2.
  split; [done|]. split.
  - apply node_ok_inner; [done|]. rewrite !size_set, table_find_set by (try apply table_set_wf; done).
    rewrite decide_False, !table_new_find by done. unfold weight. cbn [present].
    pose proof (size_nonneg (@table_new node)). lia.
  - intros q w. unfold child. rewrite (stores_set_child _ _ _ _ _ _ _ _ _ _ H1 H2 Hx).
    assert (Hc : child_stores nx (a ++ q) w <-> child_stores prev q w).
    { unfold child_stores. rewrite Hprev, Es. setoid_rewrite <-app_assoc. split.
      - intros (q' & E%app_inv_head & Hq). exists q'. split; [done|]. by apply stores_set_sub_key.
      - intros (q' & -> & Hq). exists q'. split; [done|]. by apply stores_set_sub_key in Hq. }
    rewrite Hc. case_decide as E1; [|rewrite (stores_set_child _ _ _ _ _ _ _ _ _ _ H0 H1 Hy); case_decide as E2].
    + split; [intros (? & [= <-] & Hq); by right|]. intros [[-> _]|Hq]; [simpl in E1; congruence|eauto].
    + split.
      * intros (? & [= <-] & Hq). left. by apply new_leaf_child_stores.
      * intros [[-> ->]|(q' & -> & _)]; [|by rewrite Hprev in E1].
        exists leaf. split; [done|]. by apply new_leaf_child_stores.
    + split; [by intros ?%empty_stores|].
      intros [[-> _]|(q' & -> & _)]; [done|by rewrite Hprev in E1].
Qed.

Lemma insert_loop_spec fuel i r d n subs :
  node_ok r d n -> (0 < d)%nat -> length subs = d -> (d <= fuel)%nat -> Forall nibble_ok subs ->
  exists n' es, insert_loop k value fuel i n subs = Ok (n', es) /\
    node_ok r d n' /\ sub_key (meta n') = sub_key (meta n) /\ (es = [] -> n' = n) /\
    forall p w, stores n' p w <->
      stores n p w \/ (p = subs /\ w = value /\ forall w', ~ stores n subs w').
Proof.
  revert i r d n subs. induction fuel as [|fuel IH]; intros i r d n subs Hn Hd Hl Hf HF; [lia|].
  destruct (node_ok_pos _ _ _ Hn Hd) as (m & c & ->).
  destruct subs as [|s subs]; [simpl in Hl; lia|]. cbn [insert_loop get_children mbind res_bind].
  apply Forall_cons in HF as HF'. destruct HF' as [Hs Hsubs].
  apply node_ok_extension in Hn as Hn'. destruct Hn' as (_ & Hw & _ & Hc).
  destruct (table_find c s) as [nx|] eqn:Ex.
  - pose proof (Hc s nx Hs Ex) as Hcx.
    assert (Hst : forall p v, head p = Some s -> stores (Extension m c) p v <-> child_stores nx p v)
      by (intros p v; by eapply stores_at_child).
    destruct (compare_child d s nx (s :: subs)) as (cr & -> & Hcr); [done..|].
    cbn [mbind res_bind]. destruct cr as [j rest| | |rest].
    + destruct Hcr as (a & x & sub & y & rest' & E1 & E2 & Hxy & -> & ->).
      destruct Hcx as (t & d' & Et & Ht & Ed & Hx). rewrite Et in E1. injection E1 as ->.
      apply Forall_app in Ht as [Ha Hxs]. injection E2 as E2.
      assert (Hys : Forall nibble_ok (y :: rest')) by (rewrite E2 in Hsubs; by apply Forall_app in Hsubs as [_ ?]).
      pose proof (split_node_spec (i + S (length a)) (s :: a) x y sub rest' d' nx Et Hxy Hxs Hys Hx) as Hsp.
      assert (Hlen : (length sub + d' = length rest')%nat)
        by (rewrite E2 in Hl; simpl in Hl; rewrite length_app in Hl, Ed; simpl in Hl, Ed; lia).
      specialize (Hsp Hlen). cbn [length] in Hsp.
      destruct (split_node _ _ _ _ _ _) as [[child prev] leaf]. cbn [fst] in Hsp.
      destruct Hsp as (K1 & K2 & K3).
      rewrite (table_update_ok _ _ _ _ Ex). cbn [snd set_children set_modified with_meta].
      assert (Hch : child_ok d s child).
      { exists a, (S (length rest')). split; [done|]. split; [done|]. split; [|done].
        rewrite <-Hl, E2. simpl. rewrite length_app. simpl. lia. }
      pose proof (ext_set_child _ _ _ (Meta (value_hash m) true (key m) (sub_key m)) _ _ _ Hn Hs Hch) as Hn'.
      do 2 eexists. split; [reflexivity|]. split; [done|]. split; [done|]. split; [done|].
      intros p w. rewrite (stores_set_child _ _ _ _ _ _ _ _ _ _ Hn Hn' Hs).
      assert (Hno : forall w', ~ child_stores nx (s :: subs) w').
      { intros w' (q & Eq & _). rewrite Et, E2 in Eq. simpl in Eq. injection Eq as Eq.
        rewrite <-app_assoc in Eq. symmetry in Eq. by apply app_cons_neq in Eq. }
      case_decide as Ep.
      * rewrite Hst by done. split.
        -- intros (? & [= <-] & q & -> & [[-> ->]|Hq]%K3); rewrite K1 in *; [|by left].
           right. rewrite E2. split; [done|]. split; [done|]. intros w'. rewrite Hst by done. rewrite <-E2. apply Hno.
        -- intros Hq. exists child. split; [done|]. unfold child_stores. rewrite K1.
           destruct Hq as [Hq|(-> & -> & _)].
           ++ assert (exists q, p = (s :: a) ++ q) as [q ->].
              { destruct Hq as (q & -> & _). rewrite Et. simpl. exists (x :: sub ++ q).
                simpl. by rewrite <-app_assoc. }
              exists q. split; [done|]. apply K3. by right.
           ++ exists (y :: rest'). rewrite E2. split; [done|]. apply K3. by left.
      * split; [by left|]. intros [|(-> & _)]; [done|]. done.
    + destruct Hcr as (E & m' & v & ->). do 2 eexists. split; [reflexivity|]. split; [done|].
      split; [done|]. split; [done|]. intros p w. split; [by left|]. intros [|(-> & -> & Hno)]; [done|].
      destruct (Hno v). rewrite Hst by done. exists []. rewrite app_nil_r. split; [done|constructor].
    + done.
    + destruct Hcr as (E & Hx & Hlr & HFr).
      destruct (IH (i + length (sub_key (meta nx)))%nat _ _ nx rest Hx) as (nx' & es & -> & K1 & K2 & K3 & K4);
        [lia|done|lia|done|]. cbn [mbind res_bind].
      assert (Hr : forall w, stores (Extension m c) (s :: subs) w <-> stores nx rest w)
        by (intros w; rewrite Hst, E by done; apply child_stores_app).
      destruct es as [|e es].
      * rewrite K3 in * by done. do 2 eexists. split; [reflexivity|]. split; [done|]. split; [done|].
        split; [done|]. intros p w. split; [by left|]. intros [|(-> & -> & Hno)]; [done|].
        rewrite Hr. apply K4. right. split; [done|]. split; [done|]. intros w' Hw'. by apply (Hno w'), Hr.
      * rewrite (table_update_ok _ _ _ _ Ex). cbn [snd set_children set_modified with_meta].
        assert (Hch : child_ok d s nx').
        { destruct Hcx as (t & d' & Et & Ht & Ed & Hx'). exists t, (length rest). rewrite K2.
          split; [done|]. split; [done|]. split; [|done].
          rewrite <-Hl, E, length_app, Et. simpl. lia. }
        pose proof (ext_set_child _ _ _ (Meta (value_hash m) true (key m) (sub_key m)) _ _ _ Hn Hs Hch) as Hn'.
        do 2 eexists. split; [reflexivity|]. split; [done|]. split; [done|]. split; [done|].
        intros p w. rewrite (stores_set_child _ _ _ _ _ _ _ _ _ _ Hn Hn' Hs). case_decide as Ep.
        -- setoid_rewrite Hr. rewrite Hst by done. split.
           ++ intros (? & [= <-] & q & -> & [Hq|(-> & -> & Hno)]%K4); rewrite K2 in *.
              ** left. by apply child_stores_app.
              ** right. by rewrite E.
           ++ intros Hq. exists nx'. split; [done|]. unfold child_stores. rewrite K2.
              destruct Hq as [(q & -> & Hq)|(-> & -> & Hno)].
              ** exists q. split; [done|]. apply K4. by left.
              ** exists rest. split; [done|]. apply K4. by right.
        -- split; [by left|]. intros [|(-> & _)]; done.
  - rewrite (table_insert_ok _ _ _ Ex). cbn [snd set_children set_modified with_meta].
    pose proof (ext_set_child _ _ _ (Meta (value_hash m) true (key m) (sub_key m)) _ _ _ Hn Hs
      (new_leaf_ok s subs d Hl Hsubs)) as Hn'.
    do 2 eexists. split; [reflexivity|]. split; [done|]. split; [done|]. split; [done|].
    intros p w. rewrite (stores_set_child _ _ _ _ _ _ _ _ _ _ Hn Hn' Hs).
    assert (Hno : forall p v, head p = Some s -> ~ stores (Extension m c) p v)
      by (intros p' v' Hp' Hq'; by apply (stores_no_child _ _ _ _ _ _ _ Hn Ex Hp') in Hq').
    case_decide as Ep.
    + split.
      * intros (? & [= <-] & [-> ->]%new_leaf_child_stores). right. split; [done|]. split; [done|].
        intros w'. by apply Hno.
      * intros [Hq|(-> & -> & _)]; [by apply Hno in Hq|]. eexists. split; [done|].
        by apply new_leaf_child_stores.
    + split; [by left|]. intros [|(-> & _)]; done.
Qed.
End Insertion.

(** ** Marking and assignment *)

(** Replacing the child a key goes through, when what it stores changes as [P]
    says of the path below it. *)
Lemma stores_update_child r d m m' c s nx nx' rest (P : list Z -> V -> Prop) p w :
  node_ok r d (Extension m c) -> nibble_ok s -> table_find c s = Some nx ->
  child_ok d s nx -> sub_key (meta nx') = sub_key (meta nx) ->
  node_ok false (length rest) nx' -> d = (length (sub_key (meta nx)) + length rest)%nat ->
  (forall q w, stores nx' q w <-> if decide (q = rest) then P rest w else stores nx q w) ->
  node_ok r d (Extension m' (<[Z.to_nat s := Some nx']> c)) /\
  (stores (Extension m' (<[Z.to_nat s := Some nx']> c)) p w <->
   if decide (p = sub_key (meta nx) ++ rest) then P rest w else stores (Extension m c) p w).
Proof.
  intros Hn Hs Ex (t & d' & Et & Ht & Ed & Hx) Ek Hx' Ed' HP.
  assert (Hch : child_ok d s nx') by (exists t, (length rest); rewrite Ek, Ed', Et; done).
  pose proof (ext_set_child _ _ _ m' _ _ _ Hn Hs Hch) as Hn'. split; [done|].
  rewrite (stores_set_child _ _ _ _ _ _ _ _ _ _ Hn Hn' Hs). case_decide as Ep.
  - assert (Hst : stores (Extension m c) p w <-> child_stores nx p w) by by eapply stores_at_child.
    case_decide as Eq.
    + subst p. split.
      * intros (? & [= <-] & Hq). rewrite <-Ek in Hq. apply child_stores_app, HP in Hq.
        by rewrite decide_True in Hq.
      * intros Hq. exists nx'. split; [done|]. rewrite <-Ek. apply child_stores_app, HP.
        by rewrite decide_True.
    + rewrite Hst. split.
      * intros (? & [= <-] & q & -> & Hq%HP). rewrite Ek in *. rewrite decide_False in Hq by congruence.
        by apply child_stores_app.
      * intros (q & -> & Hq). exists nx'. split; [done|]. rewrite <-Ek. apply child_stores_app, HP.
        by rewrite decide_False by congruence.
  - by rewrite decide_False by (intros ->; by rewrite Et in Ep).
Qed.

Lemma stores_same_child n (rest : list Z) q w :
  stores n q w <-> if decide (q = rest) then stores n rest w else stores n q w.
Proof. case_decide; [by subst|done]. Qed.

Lemma mark_loop_spec fuel r d n subs :
  node_ok r d n -> (0 < d)%nat -> length subs = d -> (d <= fuel)%nat -> Forall nibble_ok subs ->
  exists o n', mark_loop fuel n subs = Ok (o, n') /\
    node_ok r d n' /\ sub_key (meta n') = sub_key (meta n) /\
    (forall p w, stores n' p w <-> stores n p w) /\
    match o with
    | Some o => exists v, o = Some v /\ stores n subs v
    | None => n' = n /\ forall v, ~ stores n subs v
    end.
Proof.
  revert r d n subs. induction fuel as [|fuel IH]; intros r d n subs Hn Hd Hl Hf HF; [lia|].
  pose proof (lookup_loop_spec (S fuel) r d n subs Hn Hd Hl Hf HF) as (o & Hlk & Ho).
  destruct (node_ok_pos _ _ _ Hn Hd) as (m & c & ->).
  destruct subs as [|s subs]; [simpl in Hl; lia|].
  cbn [mark_loop lookup_loop get_children mbind res_bind] in *.
  apply Forall_cons in HF as HF'. destruct HF' as [Hs _].
  apply node_ok_extension in Hn as Hn'. destruct Hn' as (_ & _ & _ & Hc).
  destruct (table_find c s) as [nx|] eqn:Ex; [|simplify_eq; by exists None, (Extension m c)].
  pose proof (Hc s nx Hs Ex) as Hcx.
  destruct (compare_child d s nx (s :: subs)) as (cr & Ecr & Hcr); [done..|]. rewrite Ecr in *.
  cbn [mbind res_bind] in *. destruct cr as [j rest| | |rest].
  - simplify_eq. by exists None, (Extension m c).
  - destruct Hcr as (E & m' & v & ->). injection Hlk as <-. destruct Ho as (m1 & v1 & [= <- <-] & Hv).
    exists (Some (Some v)), (set_modified true (Extension m c)). split; [done|].
    rewrite node_ok_set_modified, sub_key_set_modified. do 2 (split; [done|]).
    split; [intros; apply stores_set_modified|eauto].
  - done.
  - destruct Hcr as (E & Hx & Hlr & HFr).
    destruct (IH _ _ nx rest Hx) as (o' & nx' & -> & K1 & K2 & K3 & K4); [lia|done|lia|done|].
    cbn [mbind res_bind].
    assert (Hr : forall w, stores (Extension m c) (s :: subs) w <-> stores nx rest w).
    { intros w. rewrite (stores_at_child _ _ _ _ _ _ _ _ Hn Hs Ex), E by done. apply child_stores_app. }
    destruct o' as [[v|]|]; [|by destruct K4 as (? & ? & _)|].
    + rewrite (table_update_ok _ _ _ _ Ex). cbn [snd set_children set_modified with_meta].
      assert (Hd' : d = (length (sub_key (meta nx)) + length rest)%nat) by (by rewrite <-Hl, E, length_app).
      do 2 eexists. split; [reflexivity|].
      assert (HP : forall q w, stores nx' q w <-> if decide (q = rest) then stores nx rest w else stores nx q w)
        by (intros; rewrite K3; apply stores_same_child).
      pose proof (fun p w => stores_update_child r d m (Meta (value_hash m) true (key m) (sub_key m)) c s nx nx'
        rest (fun _ => stores nx rest) p w Hn Hs Ex Hcx K2 K1 Hd' HP) as HU.
      split; [apply (HU [] v)|]. split; [done|]. split.
      * intros p w. rewrite (proj2 (HU p w)). case_decide as Ep; [|done]. by rewrite Ep, <-E, Hr.
      * destruct K4 as (v' & [= <-] & Hv). exists v. split; [done|]. by apply Hr.
    + destruct K4 as [_ K4]. do 2 eexists. split; [reflexivity|]. do 3 (split; [done|]). split; [done|].
      intros v Hv. by apply (K4 v), Hr.
Qed.

Lemma write_loop_spec fuel r d n subs v :
  node_ok r d n -> (0 < d)%nat -> length subs = d -> (d <= fuel)%nat -> Forall nibble_ok subs ->
  exists n', write_loop fuel v n subs = Ok n' /\
    node_ok r d n' /\ sub_key (meta n') = sub_key (meta n) /\
    forall p w, stores n' p w <->
      if decide (p = subs) then w = v /\ exists w', stores n subs w' else stores n p w.
Proof.
  revert r d n subs. induction fuel as [|fuel IH]; intros r d n subs Hn Hd Hl Hf HF; [lia|].
  pose proof (lookup_loop_spec (S fuel) r d n subs Hn Hd Hl Hf HF) as (o & Hlk & Ho).
  assert (Hsame : (forall w, ~ stores n subs w) -> forall p w, stores n p w <->
      if decide (p = subs) then w = v /\ exists w', stores n subs w' else stores n p w).
  { intros Hno p w. case_decide; [subst|done]. naive_solver. }
  destruct (node_ok_pos _ _ _ Hn Hd) as (m & c & ->).
  destruct subs as [|s subs]; [simpl in Hl; lia|].
  cbn [write_loop lookup_loop get_children mbind res_bind] in *.
  apply Forall_cons in HF as HF'. destruct HF' as [Hs _].
  apply node_ok_extension in Hn as Hn'. destruct Hn' as (_ & _ & _ & Hc).
  destruct (table_find c s) as [nx|] eqn:Ex; [|simplify_eq; exists (Extension m c); eauto].
  pose proof (Hc s nx Hs Ex) as Hcx.
  destruct (compare_child d s nx (s :: subs)) as (cr & Ecr & Hcr); [done..|]. rewrite Ecr in *.
  cbn [mbind res_bind] in *.
  assert (Hr : forall rest, s :: subs = sub_key (meta nx) ++ rest ->
    forall w, stores (Extension m c) (s :: subs) w <-> stores nx rest w).
  { intros rest E w. rewrite (stores_at_child _ _ _ _ _ _ _ _ Hn Hs Ex), E by done. apply child_stores_app. }
  destruct cr as [j rest| | |rest].
  - simplify_eq. exists (Extension m c). eauto.
  - destruct Hcr as (E & m' & v' & ->). cbn [meta] in *.
    rewrite (table_update_ok _ _ _ _ Ex). cbn [snd set_children].
    rewrite <-(app_nil_r (sub_key m')) in E.
    assert (Hv' : stores (Extension m c) (s :: subs) v') by (apply (Hr [] E); constructor).
    assert (Hd' : d = (length (sub_key m') + @length Z [])%nat) by (by rewrite <-Hl, E, length_app).
    pose proof (fun p w => stores_update_child r d m m c s (Leaf m' v') (Leaf m' v) [] (fun _ w => w = v)
      p w Hn Hs Ex Hcx eq_refl (leaf_ok _ _ _) Hd'
      ltac:(intros q u; case_decide; rewrite !stores_leaf_inv; tauto)) as HU.
    eexists. split; [reflexivity|]. split; [apply (HU [] v)|]. split; [done|]. intros p w.
    rewrite (proj2 (HU p w)).
    cbn [meta]. rewrite <-E. case_decide; [|done]. split; [intros ->; eauto|by intros [-> _]].
  - done.
  - destruct Hcr as (E & Hx & Hlr & HFr).
    destruct (IH _ _ nx rest Hx) as (nx' & -> & K1 & K2 & K3); [lia|done|lia|done|].
    cbn [mbind res_bind]. rewrite (table_update_ok _ _ _ _ Ex). cbn [snd set_children].
    assert (Hd' : d = (length (sub_key (meta nx)) + length rest)%nat) by (by rewrite <-Hl, E, length_app).
    pose proof (fun p w => stores_update_child r d m m c s nx nx'
        rest (fun rest w => w = v /\ exists w', stores nx rest w') p w Hn Hs Ex Hcx K2 K1 Hd' K3) as HU.
    eexists. split; [reflexivity|]. split; [apply (HU [] v)|]. split; [done|].
    intros p w. rewrite (proj2 (HU p w)), <-E. case_decide; [|done].
    by setoid_rewrite (Hr rest E).
Qed.

(** ** Deletion *)

(** What a deletion below [n] leaves: [n] itself, or its last child in its place. *)
Definition erase_result (r : bool) (d : nat) (n : node) (subs : list Z)
    (o : option (node * erased * list (bytes * mpt_node_storage))) : Prop :=
  match o with
  | None => forall v, ~ stores n subs v
  | Some (n', e, _) =>
      (exists v, stores n subs v) /\ sub_key (meta n') = sub_key (meta n) /\
      match e with
      | Kept => node_ok r d n' /\ forall p w, stores n' p w <-> p <> subs /\ stores n p w
      | Merged brother => r = false /\ exists t d', sub_key (meta brother) = sub_key (meta n) ++ t
          /\ Forall nibble_ok t /\ d = (length t + d')%nat /\ node_ok false d' brother
          /\ forall p w, child_stores brother (sub_key (meta n) ++ p) w <-> p <> subs /\ stores n p w
      end
  end.

Lemma stores_clear_child r r' d m m' c s subs ml vl p w :
  node_ok r d (Extension m c) -> node_ok r' d (Extension m' (<[Z.to_nat s := None]> c)) ->
  nibble_ok s -> table_find c s = Some (Leaf ml vl) -> sub_key ml = s :: subs ->
  stores (Extension m' (<[Z.to_nat s := None]> c)) p w <->
  p <> s :: subs /\ stores (Extension m c) p w.
Proof.
  intros Hn Hn' Hs Ex Ek. rewrite (stores_set_child _ _ _ _ _ _ _ _ _ _ Hn Hn' Hs). case_decide as Ep.
  - rewrite (stores_at_child _ _ _ _ _ _ _ _ Hn Hs Ex Ep). split; [by intros (? & ? & _)|].
    intros [Hne (q & -> & [-> _]%stores_leaf_inv)]. cbn [meta] in Hne. by rewrite Ek, app_nil_r in Hne.
  - split; [|by intros []]. intros Hp. split; [|done]. by intros ->.
Qed.

Lemma erase_leaf_spec r d m c s subs ml vl :
  node_ok r d (Extension m c) -> nibble_ok s -> table_find c s = Some (Leaf ml vl) ->
  sub_key ml = s :: subs ->
  erase_result r d (Extension m c) (s :: subs) (Some (erase_leaf r (Extension m c) c (Leaf ml vl))).
Proof.
  intros Hn Hs Ex Ek. apply node_ok_extension in Hn as Hn'. destruct Hn' as (Hd & Hw & Hsz & Hc).
  assert (Hv : stores (Extension m c) (s :: subs) vl).
  { rewrite (stores_at_child _ _ _ _ _ _ _ _ Hn Hs Ex) by done. exists []. cbn [meta].
    rewrite Ek, app_nil_r. split; [done|constructor]. }
  pose proof (size_set c s None Hw Hs) as Hsize. rewrite Ex in Hsize. unfold weight in Hsize.
  cbn [present] in Hsize.
  set (m' := Meta (value_hash m) true (key m) (sub_key m)).
  assert (Ht : node_ok true d (Extension m' (<[Z.to_nat s := None]> c))).
  { apply (ext_clear_child _ _ m); [|done|done]. apply node_ok_extension. done. }
  unfold erase_leaf. cbn [meta]. rewrite Ek. cbn [hd].
  rewrite (table_erase_ok _ _ _ Ex). cbn [snd set_children set_modified with_meta]. fold m'.
  destruct r.
  { split; [eauto|]. split; [done|]. split; [done|].
    intros p w. by apply (stores_clear_child true true d m m' c s subs ml vl). }
  specialize (Hsz eq_refl). destruct (Z.eqb_spec (table_size (<[Z.to_nat s := None]> c)) 1) as [E1|E1].
  - destruct (table_first_spec (<[Z.to_nat s := None]> c)) as (b & brother & -> & Hb & Eb);
      [by apply table_set_wf|lia|]. rewrite Eb.
    split; [eauto|]. split; [done|]. split; [done|]. cbn [meta sub_key m'].
    apply node_ok_extension in Ht as Ht'. destruct Ht' as (_ & Hw' & _ & Hc').
    destruct (Hc' b brother Hb Eb) as (t & d' & Et & HFt & Ed & Hbr).
    exists (b :: t), d'. rewrite sub_key_set_modified, sub_key_set_sub_key, Et, node_ok_set_modified,
      node_ok_set_sub_key. split; [done|]. split; [by constructor|]. split; [done|]. split; [done|].
    intros p w. rewrite child_stores_set_modified.
    rewrite <-(stores_clear_child false true d m m' c s subs ml vl p w Hn Ht Hs Ex Ek).
    assert (Hcs : child_stores (set_sub_key (sub_key m ++ b :: t) brother) (sub_key m ++ p) w
      <-> child_stores brother p w).
    { unfold child_stores. rewrite sub_key_set_sub_key, Et. split; intros (q & E & Hq); exists q.
      - rewrite <-app_assoc in E. by apply app_inv_head in E; apply stores_set_sub_key in Hq.
      - rewrite E, app_assoc. by rewrite stores_set_sub_key. }
    rewrite Hcs, (stores_ext _ _ _ _ _ _ Ht). split.
    + intros Hq. exists b, brother. split; [done|]. split; [|done]. destruct Hq as (q & -> & _). by rewrite Et.
    + intros (s' & n' & Hs' & _ & Hn' & Hq).
      assert (s' = b) as -> by (eapply (size_one (<[Z.to_nat s := None]> c)); eauto).
      rewrite Eb in Hn'. by injection Hn' as <-.
  - assert (Hf : node_ok false d (Extension m' (<[Z.to_nat s := None]> c))).
    { apply (ext_clear_child _ _ m); [done|done|]. lia. }
    split; [eauto|]. split; [done|]. split; [done|].
    intros p w. by apply (stores_clear_child false false d m m' c s subs ml vl).
Qed.

Lemma erase_loop_spec fuel r d n subs :
  node_ok r d n -> (0 < d)%nat -> length subs = d -> (d <= fuel)%nat -> Forall nibble_ok subs ->
  exists o, erase_loop fuel r n subs = Ok o /\ erase_result r d n subs o.
Proof.
  revert r d n subs. induction fuel as [|fuel IH]; intros r d n subs Hn Hd Hl Hf HF; [lia|].
  pose proof (lookup_loop_spec (S fuel) r d n subs Hn Hd Hl Hf HF) as (o & Hlk & Ho).
  destruct (node_ok_pos _ _ _ Hn Hd) as (m & c & ->).
  destruct subs as [|s subs]; [simpl in Hl; lia|].
  cbn [erase_loop lookup_loop get_children mbind res_bind] in *.
  apply Forall_cons in HF as HF'. destruct HF' as [Hs _].
  apply node_ok_extension in Hn as Hn'. destruct Hn' as (_ & Hw & _ & Hc).
  destruct (table_find c s) as [nx|] eqn:Ex; [|simplify_eq; by exists None].
  pose proof (Hc s nx Hs Ex) as Hcx.
  destruct (compare_child d s nx (s :: subs)) as (cr & Ecr & Hcr); [done..|]. rewrite Ecr in *.
  cbn [mbind res_bind] in *. destruct cr as [j rest| | |rest].
  - simplify_eq. by exists None.
  - destruct Hcr as (E & ml & vl & ->). eexists. split; [reflexivity|]. by apply erase_leaf_spec.
  - done.
  - destruct Hcr as (E & Hx & Hlr & HFr).
    destruct (IH _ _ nx rest Hx) as (o' & -> & K); [lia|done|lia|done|]. cbn [mbind res_bind].
    assert (Hr : forall w, stores (Extension m c) (s :: subs) w <-> stores nx rest w).
    { intros w. rewrite (stores_at_child _ _ _ _ _ _ _ _ Hn Hs Ex), E by done. apply child_stores_app. }
    assert (Hd' : d = (length (sub_key (meta nx)) + length rest)%nat) by (by rewrite <-Hl, E, length_app).
    destruct o' as [[[nx' e] es]|].
    + destruct K as ((v & Hv) & Ek & K).
      assert (Hv' : exists v, stores (Extension m c) (s :: subs) v) by (exists v; by apply Hr).
      destruct e as [|brother].
      * destruct K as [K1 K2]. eexists. split; [reflexivity|]. split; [done|].
        rewrite (table_update_ok _ _ _ _ Ex). cbn [snd set_children set_modified with_meta].
        assert (HP : forall q w, stores nx' q w <-> if decide (q = rest) then False else stores nx q w)
          by (intros; rewrite K2; case_decide; tauto).
        pose proof (fun p w => stores_update_child r d m (Meta (value_hash m) true (key m) (sub_key m)) c s nx nx'
          rest (fun _ _ => False) p w Hn Hs Ex Hcx Ek K1 Hd' HP) as HU.
        split; [done|]. split; [apply (HU [] v)|]. intros p w. rewrite (proj2 (HU p w)), <-E.
        case_decide; tauto.
      * destruct K as (_ & t & d' & Et & HFt & Ed & Hbr & K). eexists. split; [reflexivity|].
        split; [done|].
        destruct Hcx as (t0 & d0 & Et0 & HF0 & Ed0 & _).
        rewrite Et, Ek, Et0. simpl hd. rewrite (table_erase_ok _ _ _ Ex). cbn [snd].
        rewrite table_insert_ok by (rewrite table_find_set by done; by rewrite decide_True).
        cbn [snd]. rewrite list_insert_insert_eq. cbn [set_children set_modified with_meta].
        split; [done|].
        assert (Hch : child_ok d s brother).
        { exists (t0 ++ t), d'. rewrite Et, Et0, Hd', Ed, length_app, Et0. split; [done|].
          split; [by apply Forall_app|]. split; [simpl; lia|done]. }
        pose proof (ext_set_child _ _ _ (Meta (value_hash m) true (key m) (sub_key m)) _ _ _ Hn Hs Hch) as Hn'.
        split; [done|]. intros p w. rewrite (stores_set_child _ _ _ _ _ _ _ _ _ _ Hn Hn' Hs).
        case_decide as Ep.
        -- rewrite (stores_at_child _ _ _ _ _ _ _ _ Hn Hs Ex Ep), E. split.
           ++ intros (? & [= <-] & Hq). destruct Hq as (q & -> & Hq). rewrite Et, <-app_assoc.
              assert (child_stores brother (sub_key (meta nx) ++ (t ++ q)) w) as [Hne Hq']%K.
              { exists q. by rewrite Et, <-app_assoc. }
              split; [intros E'%app_inv_head; by apply Hne|]. by apply child_stores_app.
           ++ intros [Hne (q & -> & Hq)]. exists brother. split; [done|]. apply K.
              split; [congruence|done].
        -- split; [|tauto]. intros Hp. split; [|done]. by intros ->.
    + exists None. split; [done|]. intros v Hv. by apply (K v), Hr.
Qed.
End Laws.
