(* ===== verification/MptHash.v ===== *)
(** * The root hash of the Merkle Patricia trie

    The hash a trie ought to have, the invariant of the hashes kept in its nodes,
    and the two-stack traversal of [get_hash] against them. *)
From S2P Require Import Prelude Uint256 MptNode Mpt MptLaws.

Section Hash.
Context {V : Type} `{IGetHashSha3256 V} `{HashHandler}.
Abbreviation node := (mpt_node V).
Implicit Types (n : node) (c : node_table node) (m : mpt_meta) (p q : list nat).

(** ** The hash of a node *)

(** The hash of a leaf is that of its value, the hash of a prefix node the digest
    of the sum of its children's hashes. *)
Fixpoint spec_hash (n : node) : uint256 :=
  match n with
  | Leaf _ v => value_get_hash v
  | Extension _ c =>
      get_sha3_256 (foldl (fun result o =>
        match o with Some n => (result + spec_hash n)%U | None => result end) uint256_zero c)
  end.

(** ** What the traversal does not touch *)

(** A node without its hashes and its marks. *)
Definition strip_meta (m : mpt_meta) : mpt_meta := Meta uint256_zero false (key m) (sub_key m).
Fixpoint strip (n : node) : node :=
  match n with
  | Leaf m v => Leaf (strip_meta m) v
  | Extension m c =>
      Extension (strip_meta m) (map (fun o => match o with Some n => Some (strip n) | None => None end) c)
  end.
Definition strip_child (o : option node) : option node :=
  match o with Some n => Some (strip n) | None => None end.

Lemma strip_children m c : strip (Extension m c) = Extension (strip_meta m) (map strip_child c).
Proof. done. Qed.

Lemma strip_spec_hash n : spec_hash (strip n) = spec_hash n.
Proof.
  induction n as [m v|m c IH] using mpt_node_nested_ind; [done|].
  cbn [strip spec_hash]. f_equal. generalize uint256_zero. induction c as [|o c IHc]; intros u; [done|].
  simpl. rewrite IHc by (intros n Hn; apply IH; by right). f_equal.
  destruct o as [n|]; [|done]. by rewrite IH by left.
Qed.

Lemma spec_hash_same n n' : strip n = strip n' -> spec_hash n = spec_hash n'.
Proof. intros E. by rewrite <-(strip_spec_hash n), E, strip_spec_hash. Qed.

Lemma strip_lookup c c' i :
  map strip_child c = map strip_child c' ->
  match mjoin (c !! i), mjoin (c' !! i) with
  | Some n, Some n' => strip n = strip n'
  | None, None => True
  | _, _ => False
  end.
Proof.
  intros E. assert (E' : map strip_child c !! i = map strip_child c' !! i) by by rewrite E.
  rewrite !list_lookup_fmap in E'.
  destruct (c !! i) as [[]|], (c' !! i) as [[]|]; simpl in *; done || congruence.
Qed.

Lemma strip_table_find c c' i n :
  map strip_child c = map strip_child c' -> table_find c i = Some n ->
  exists n', table_find c' i = Some n' /\ strip n = strip n'.
Proof.
  intros E Hn. pose proof (strip_lookup c c' (Z.to_nat i) E) as Hl. unfold table_find in *.
  rewrite Hn in Hl. destruct (mjoin (c' !! Z.to_nat i)); [eauto|done].
Qed.

Lemma strip_sub_key n n' : strip n = strip n' -> sub_key (meta n) = sub_key (meta n').
Proof. destruct n, n'; simpl; unfold strip_meta; intros [=]; done. Qed.

Lemma strip_size c c' : map strip_child c = map strip_child c' -> table_size c = table_size c'.
Proof.
  unfold table_size. intros E. f_equal. revert c' E. induction c as [|o c IH]; intros [|o' c'] E; try done.
  injection E as E1 E. specialize (IH _ E). rewrite !filter_cons.
  destruct o, o'; simpl in *; try done; lia.
Qed.

Lemma strip_stores n n' r v : strip n = strip n' -> stores n r v -> stores n' r v.
Proof.
  intros E Hs. revert n' E. induction Hs as [m v|m c i n r v Hi Hn Hr IH]; intros n' E.
  - destruct n'; simpl in E; [injection E as _ _ ->; constructor|done].
  - destruct n' as [|m' c']; [done|]. rewrite !strip_children in E. injection E as E1 E2 E.
    destruct (strip_table_find _ _ _ _ E Hn) as (n' & Hn' & En).
    rewrite (strip_sub_key _ _ En). econstructor; [done|done|]. by apply IH.
Qed.

Lemma strip_node_ok n n' r d : strip n = strip n' -> node_ok r d n -> node_ok r d n'.
Proof.
  revert n' r d. induction n as [m v|m c IH] using mpt_node_nested_ind; intros n' r d E Hn.
  - destruct n'; [|done]. inversion Hn; constructor.
  - destruct n' as [|m' c']; [done|]. rewrite !strip_children in E. injection E as E1 E2 E.
    rewrite node_ok_extension in Hn |- *. destruct Hn as (H1 & H2 & H3 & H4).
    split; [done|]. split.
    { unfold table_wf in *. by rewrite <-(length_map strip_child), <-E, length_map. }
    split; [by rewrite <-(strip_size _ _ E)|]. intros i n' Hi Hn'.
    destruct (strip_table_find _ _ _ _ (eq_sym E) Hn') as (n & Hn & En).
    destruct (H4 i n Hi Hn) as (s & d' & Es & Hs & Ed & Hok). exists s, d'.
    rewrite (strip_sub_key _ _ En). split; [done|]. split; [done|]. split; [done|].
    eapply IH; [|by symmetry|done]. unfold table_find in Hn.
    destruct (c !! Z.to_nat i) as [o|] eqn:Ec; [|done]. simpl in Hn. subst.
    by eapply list_elem_of_lookup_2.
Qed.

(** ** The hashes kept in the nodes *)

(** A prefix node that is not marked has the right hash. *)
Definition hash_ok (n : node) : Prop :=
  forall p m c, node_at n p = Some (Extension m c) -> modified m = false ->
    value_hash m = spec_hash (Extension m c).

Lemma hash_ok_leaf m v : hash_ok (Leaf m v).
Proof. by intros [|] m' c'. Qed.

Lemma hash_ok_extension m c :
  hash_ok (Extension m c) <->
  (modified m = false -> value_hash m = spec_hash (Extension m c)) /\
  forall i n, c !! i = Some (Some n) -> hash_ok n.
Proof.
  split.
  - intros Hh. split; [by apply (Hh [])|]. intros i n Hi p m' c' Hp. apply (Hh (i :: p)).
    cbn [node_at]. by rewrite Hi.
  - intros [H1 H2] [|i p] m' c' Hp; [by injection Hp as <- <-|]. cbn [node_at] in Hp.
    destruct (c !! i) as [[n|]|] eqn:E; try done. by apply (H2 i n E p).
Qed.

Lemma node_at_app n p q :
  node_at n (p ++ q) = match node_at n p with Some n' => node_at n' q | None => None end.
Proof.
  revert n. induction p as [|i p IH]; intros n; [done|]. simpl.
  destruct n as [|m c]; [done|]. destruct (c !! i) as [[n|]|]; [apply IH|done|done].
Qed.

(** ** One step of the second loop *)
Definition clean_child (n : node) : node :=
  match n with
  | Leaf _ v => set_modified false (set_value_hash (value_get_hash v) n)
  | Extension _ _ => set_modified false n
  end.
Definition clean_option (o : option node) : option node :=
  match o with Some n => Some (clean_child n) | None => None end.

Lemma hash_child_node st n : (hash_child st n).1 = clean_child n.
Proof. by destruct n. Qed.

Lemma hash_children_table st u c : (hash_children st u c).1.1 = map clean_option c.
Proof.
  revert st u. induction c as [|[n|] c IH]; intros st u; cbn [hash_children]; [done| |].
  - destruct (hash_child st n) as [n' st'] eqn:E.
    specialize (IH st' (u + value_hash (meta n'))%U).
    destruct (hash_children _ _ c) as [[c' u'] st'']. simpl in *. rewrite <-(hash_child_node st), E.
    by f_equal.
  - specialize (IH st u). destruct (hash_children _ _ c) as [[c' u'] st'']. simpl in *. by f_equal.
Qed.

(** The children have their hashes. *)
Definition child_hashed (n : node) : Prop :=
  match n with Leaf _ _ => True | Extension m _ => value_hash m = spec_hash n end.

Lemma hash_children_sum st u c :
  Forall (fun o => match o with Some n => child_hashed n | None => True end) c ->
  (hash_children st u c).1.2 = foldl (fun result o =>
    match o with Some n => (result + spec_hash n)%U | None => result end) u c.
Proof.
  intros Hc. revert st u. induction Hc as [|o c Ho Hc IH]; intros st u; cbn [hash_children]; [done|].
  destruct o as [n|].
  - pose proof (hash_child_node st n) as En. destruct (hash_child st n) as [n' st'].
    simpl in En. subst n'. specialize (IH st' (u + value_hash (meta (clean_child n)))%U).
    destruct (hash_children _ _ c) as [[c' u'] st'']. simpl in IH |- *. rewrite IH. f_equal.
    f_equal. destruct n; [done|]. apply Ho.
  - specialize (IH st u). by destruct (hash_children _ _ c) as [[c' u'] st''].
Qed.

Lemma clean_child_strip n : strip (clean_child n) = strip n.
Proof. by destruct n. Qed.

Lemma clean_table_strip c : map strip_child (map clean_option c) = map strip_child c.
Proof.
  rewrite map_map. apply map_ext. intros [n|]; [|done]. simpl. by rewrite clean_child_strip.
Qed.

Lemma hash_node_spec st m c :
  Forall (fun o => match o with Some n => child_hashed n | None => True end) c ->
  (hash_node st (Extension m c)).1
  = Extension (Meta (spec_hash (Extension m c)) false (key m) (sub_key m)) (map clean_option c).
Proof.
  intros Hc. cbn [hash_node]. pose proof (hash_children_table st uint256_zero c) as E1.
  pose proof (hash_children_sum st uint256_zero c Hc) as E2.
  destruct (hash_children st uint256_zero c) as [[c' u] st']. cbn [fst snd] in *. by rewrite E1, E2.
Qed.

Lemma strip_node_at n n' p top :
  strip n = strip n' -> node_at n p = Some top -> exists top', node_at n' p = Some top' /\ strip top = strip top'.
Proof.
  revert n n'. induction p as [|i p IH]; intros n n' E Hp; [injection Hp as ->; by exists n'|].
  destruct n as [|m c]; [done|]. destruct n' as [|m' c']; [done|].
  rewrite !strip_children in E. injection E as _ _ E. pose proof (strip_lookup _ _ i E) as Hl.
  cbn [node_at] in *. destruct (c !! i) as [[n|]|]; try done. simpl in Hl.
  destruct (c' !! i) as [[n'|]|]; try done. by apply (IH n).
Qed.

Lemma update_at_strip n p top new :
  node_at n p = Some top -> strip new = strip top -> strip (update_at n p new) = strip n.
Proof.
  revert n. induction p as [|i p IH]; intros n Hp E; [by injection Hp as ->|].
  destruct n as [|m c]; [done|]. cbn [node_at update_at] in *.
  destruct (c !! i) as [[n|]|] eqn:Ei; try done. rewrite !strip_children. f_equal.
  etransitivity; [apply (list_fmap_insert strip_child)|].
  apply list_insert_id. rewrite list_lookup_fmap, Ei. simpl. by rewrite (IH n).
Qed.

(** A node after one step of the loop. *)
Definition hashed (m : mpt_meta) (c : node_table node) : node :=
  Extension (Meta (spec_hash (Extension m c)) false (key m) (sub_key m)) (map clean_option c).

Lemma hashed_strip m c : strip (hashed m c) = strip (Extension m c).
Proof. unfold hashed. rewrite !strip_children, clean_table_strip. done. Qed.

Lemma clean_lookup c i n : map clean_option c !! i = Some (Some n) ->
  exists n0, c !! i = Some (Some n0) /\ n = clean_child n0.
Proof.
  rewrite list_lookup_fmap. destruct (c !! i) as [[n0|]|] eqn:E; try done. intros [= <-]. eauto.
Qed.

Lemma hash_ok_update n p m c :
  node_at n p = Some (Extension m c) ->
  (forall i n0, c !! i = Some (Some n0) -> child_hashed n0) ->
  hash_ok n -> hash_ok (update_at n p (hashed m c)).
Proof.
  intros Hp Hc. revert n Hp. induction p as [|i p IH]; intros n Hp Hn.
  - injection Hp as ->. cbn [update_at]. apply hash_ok_extension. split.
    + intros _. cbn [value_hash]. apply spec_hash_same. symmetry. apply hashed_strip.
    + intros i n (n0 & E & ->)%clean_lookup. destruct n0 as [m0 v0|m0 c0]; [apply hash_ok_leaf|].
      specialize (Hc i _ E). apply hash_ok_extension in Hn as [_ Hn]. specialize (Hn i _ E).
      apply hash_ok_extension in Hn as [_ Hn]. by apply hash_ok_extension.
  - destruct n as [|m0 c0]; [done|]. cbn [node_at update_at] in *.
    destruct (c0 !! i) as [[n|]|] eqn:Ei; try done. apply hash_ok_extension in Hn as [H1 H2].
    apply hash_ok_extension. split.
    + intros Hm. rewrite (H1 Hm). apply spec_hash_same. symmetry.
      pose proof (update_at_strip (Extension m0 c0) (i :: p) (Extension m c) (hashed m c)) as Hu.
      cbn [node_at update_at] in Hu. rewrite Ei in Hu. apply Hu; [done|apply hashed_strip].
    + intros j n'. destruct (decide (i = j)) as [<-|Hij].
      * rewrite list_lookup_insert_eq by by eapply lookup_lt_Some. intros [= <-].
        apply IH; [done|]. by eapply H2.
      * rewrite list_lookup_insert_ne by done. apply H2.
Qed.

(** A prefix node at [q] is not marked. *)
Definition clean_at (n : node) (q : list nat) : Prop :=
  forall m c, node_at n q = Some (Extension m c) -> modified m = false.

Lemma clean_at_update n p m c q :
  node_at n p = Some (Extension m c) -> (clean_at n q \/ q = p) -> clean_at (update_at n p (hashed m c)) q.
Proof.
  revert n q. induction p as [|i p IH]; intros n q Hp Hq m' c'.
  - injection Hp as ->. destruct q as [|j q]; cbn [update_at node_at hashed]; [by intros [= <- _]|].
    destruct (map clean_option c !! j) as [[n|]|] eqn:E; try done.
    apply clean_lookup in E as (n0 & E & ->). destruct Hq as [Hq|]; [|done].
    destruct n0 as [m0 v0|m0 c0]; [by destruct q|]. destruct q as [|j' q]; [by intros [= <- _]|].
    intros Hn. apply (Hq m' c'). cbn [node_at]. by rewrite E.
  - destruct n as [|m0 c0]; [done|]. cbn [node_at update_at] in *.
    destruct (c0 !! i) as [[n|]|] eqn:Ei; try done. destruct q as [|j q].
    + destruct Hq as [Hq|]; [|done]. cbn [node_at]. intros [= <- _]. by apply (Hq m0 c0).
    + cbn [node_at]. destruct (decide (i = j)) as [<-|Hij].
      * rewrite list_lookup_insert_eq by by eapply lookup_lt_Some. apply (IH n q Hp).
        destruct Hq as [Hq|]; [|right; congruence]. left. intros m1 c1 H1. apply (Hq m1 c1).
        cbn [node_at]. by rewrite Ei.
      * rewrite list_lookup_insert_ne by done. intros Hn. destruct Hq as [Hq|]; [|congruence].
        by apply (Hq m' c').
Qed.

(** ** The second loop *)
Definition marked_at (n : node) (p : list nat) : Prop :=
  exists m c, node_at n p = Some (Extension m c) /\ modified m = true.

Lemma elem_of_push_from q cur i c :
  q ∈ push_from cur i c <->
  exists k n, c !! k = Some (Some n) /\ get_modified n = true /\ get_leaf n = false
    /\ q = cur ++ [(i + k)%nat].
Proof.
  revert i. induction c as [|o c IH]; intros i; cbn [push_from].
  - split; [by intros ?%not_elem_of_nil|]. by intros (k & n & E & _).
  - rewrite elem_of_app, IH. split.
    + intros [Ho|(k & n & E & Hm & Hl & ->)].
      * destruct o as [n|]; [|by apply not_elem_of_nil in Ho].
        destruct (get_modified n) eqn:Em, (get_leaf n) eqn:El; cbn in Ho; try by apply not_elem_of_nil in Ho.
        apply list_elem_of_singleton in Ho as ->. exists O, n. by rewrite Nat.add_0_r.
      * exists (S k), n. by rewrite Nat.add_succ_r.
    + intros ([|k] & n & E & Hm & Hl & ->).
      * left. injection E as ->. rewrite Hm, Hl, Nat.add_0_r. by apply list_elem_of_singleton.
      * right. exists k, n. by rewrite Nat.add_succ_r.
Qed.

Lemma elem_of_pushed n p q :
  q ∈ pushed n p <-> exists i, q = p ++ [i] /\ marked_at n q.
Proof.
  unfold pushed. split.
  - destruct (node_at n p) as [[|m c]|] eqn:E; try by intros ?%not_elem_of_nil.
    rewrite elem_of_reverse, elem_of_push_from. intros (k & n' & Ek & Hm & Hl & ->).
    exists k. split; [done|]. destruct n' as [|m' c']; [done|]. exists m', c'.
    rewrite node_at_app, E. cbn [node_at Nat.add]. by rewrite Ek.
  - intros (i & -> & m' & c' & Hn & Hm). rewrite node_at_app in Hn.
    destruct (node_at n p) as [[|m c]|] eqn:E; try done. cbn [node_at] in Hn.
    destruct (c !! i) as [[n'|]|] eqn:Ei; try done. injection Hn as ->.
    rewrite elem_of_reverse, elem_of_push_from. exists i, (Extension m' c'). done.
Qed.

(** The order of the stack: the children of a node that have to be hashed come
    before it, or it is still to be expanded. *)
Fixpoint ordered (n : node) (done : list (list nat)) (aux cache : list (list nat)) : Prop :=
  match cache with
  | [] => True
  | p :: cache => (p ∈ aux \/ forall q, q ∈ pushed n p -> q ∈ done) /\ ordered n (p :: done) aux cache
  end.

Lemma hash_fold_spec (n0 : node) l D n st :
  strip n = strip n0 -> hash_ok n ->
  (forall q, clean_at n0 q \/ q ∈ D -> clean_at n q) ->
  (forall p, p ∈ l -> marked_at n0 p) -> ordered n0 D [] l ->
  let n' := (foldl hash_step (n, st) l).1 in
  strip n' = strip n0 /\ hash_ok n' /\ forall q, clean_at n0 q \/ q ∈ D \/ q ∈ l -> clean_at n' q.
Proof.
  revert D n st. induction l as [|p l IH]; intros D n st Es Hn Hc Hm Ho; cbn [foldl fst].
  - split; [done|]. split; [done|]. intros q [Hq|[Hq|Hq%not_elem_of_nil]]; [auto|auto|done].
  - destruct Ho as [[Hp%not_elem_of_nil|Hch] Ho]; [done|].
    destruct (Hm p ltac:(by left)) as (m0 & c0 & Hp0 & _).
    destruct (strip_node_at _ _ _ _ (eq_sym Es) Hp0) as (top & Hp & Etop).
    destruct top as [|m c]; [done|].
    assert (Hkids : forall i n1, c !! i = Some (Some n1) -> child_hashed n1).
    { intros i [|m1 c1] Hi; [done|]. assert (Hat : node_at n (p ++ [i]) = Some (Extension m1 c1)).
      { rewrite node_at_app, Hp. cbn [node_at]. by rewrite Hi. }
      apply (Hn _ _ _ Hat). refine (Hc (p ++ [i]) _ _ _ Hat).
      destruct (strip_node_at _ _ _ _ Es Hat) as ([|m2 c2] & Hat0 & E2); [done|].
      destruct (modified m2) eqn:Em2.
      - right. apply Hch. apply elem_of_pushed. exists i. split; [done|]. by exists m2, c2.
      - left. intros m3 c3. rewrite Hat0. by intros [= <- _]. }
    assert (Estep : hash_step (n, st) p
      = (update_at n p (hashed m c), (hash_node st (Extension m c)).2)).
    { unfold hash_step. cbn [fst snd]. rewrite Hp, hash_node_spec; [done|]. apply Forall_forall.
      intros [n1|] Hi; [|done]. apply list_elem_of_lookup_1 in Hi as [i Hi]. eauto. }
    rewrite Estep.
    destruct (IH (p :: D) (update_at n p (hashed m c)) (hash_node st (Extension m c)).2)
      as (K1 & K2 & K3); [| | | |done|].
    + rewrite <-Es. eapply update_at_strip; [done|apply hashed_strip].
    + by apply hash_ok_update.
    + intros q Hq. apply clean_at_update; [done|]. rewrite elem_of_cons in Hq.
      destruct Hq as [Hq|[->|Hq]]; auto.
    + intros q Hq. apply Hm. by right.
    + split; [done|]. split; [done|]. intros q Hq. apply K3. rewrite !elem_of_cons in *. tauto.
Qed.

(** ** The first loop *)
Definition count_at (n : node) (p : list nat) : nat :=
  match node_at n p with Some n' => node_count n' | None => O end.
Definition counts (n : node) (l : list (list nat)) : nat := list_sum (map (count_at n) l).

Lemma counts_app n l k : counts n (l ++ k) = (counts n l + counts n k)%nat.
Proof. unfold counts. by rewrite map_app, list_sum_app. Qed.

Lemma counts_reverse n l : counts n (reverse l) = counts n l.
Proof.
  induction l as [|p l IH]; [done|]. rewrite reverse_cons, counts_app, IH. unfold counts. simpl. lia.
Qed.

Lemma push_from_count n p i c :
  (forall k, node_at n (p ++ [(i + k)%nat]) = mjoin (c !! k)) ->
  (counts n (push_from p i c)
   <= list_sum (map (fun o => match o with Some n => node_count n | None => O end) c))%nat.
Proof.
  revert i. induction c as [|o c IH]; intros i Hc; [done|]. cbn [push_from map]. rewrite counts_app.
  assert (Hc' : forall k, node_at n (p ++ [(S i + k)%nat]) = mjoin (c !! k)).
  { intros k. replace (S i + k)%nat with (i + S k)%nat by lia. apply (Hc (S k)). }
  specialize (IH (S i) Hc').
  specialize (Hc O). rewrite Nat.add_0_r in Hc. simpl in Hc |- *.
  destruct o as [n'|]; [|done]. destruct (get_modified n' && negb (get_leaf n')).
  - unfold counts at 1. simpl. unfold count_at. rewrite Hc. simpl. lia.
  - unfold counts at 1. simpl. lia.
Qed.

Lemma pushed_count n p : marked_at n p -> (S (counts n (pushed n p)) <= count_at n p)%nat.
Proof.
  intros (m & c & Hp & _). unfold pushed, count_at. rewrite Hp, counts_reverse. cbn [node_count].
  apply le_n_S, push_from_count. intros k. rewrite node_at_app, Hp. cbn [node_at Nat.add].
  by destruct (c !! k) as [[]|].
Qed.

Lemma ordered_expand n p (l : list (list nat)) D E A k :
  (forall q, q ∈ pushed n p -> q ∈ E) -> D ⊆ E ->
  ordered n D (p :: A) k -> ordered n E (l ++ A) k.
Proof.
  revert D E. induction k as [|q k IH]; intros D E Hp HD; [done|]. cbn [ordered]. intros [Hq Hk].
  split; [|eapply IH; [..|done]; set_solver].
  destruct Hq as [[->|Hq]%elem_of_cons|Hq]; [by right| |right; set_solver].
  left. apply elem_of_app. by right.
Qed.

Lemma ordered_pushed n p l D A C :
  (forall q, q ∈ pushed n p -> q ∈ l \/ q ∈ D) -> ordered n [] (p :: A) C ->
  forall l', (forall q, q ∈ l' -> q ∈ l) -> (forall q, q ∈ l -> q ∈ l' \/ q ∈ D) ->
  ordered n D (l ++ A) (l' ++ C).
Proof.
  intros Hp HC l' Hl. revert D Hp. induction l' as [|q l' IH]; intros D Hp Hl'; simpl.
  - eapply ordered_expand; [|apply list_subseteq_nil|done].
    intros q Hq. destruct (Hp q Hq) as [Hq'|]; [|done].
    destruct (Hl' q Hq') as [?%not_elem_of_nil|]; done.
  - split; [left; apply elem_of_app; left; apply Hl; by left|]. apply IH.
    + intros; apply Hl. by right.
    + intros q' Hq'. rewrite elem_of_cons. destruct (Hp q' Hq'); auto.
    + intros q' Hq'. rewrite elem_of_cons. destruct (Hl' q' Hq') as [[->|]%elem_of_cons|]; auto.
Qed.

Lemma collect_spec fuel n A C :
  (counts n A <= fuel)%nat -> (forall p, p ∈ A ++ C -> marked_at n p) -> ordered n [] A C ->
  ordered n [] [] (collect fuel n A C) /\ (forall p, p ∈ collect fuel n A C -> marked_at n p) /\
  (forall p, p ∈ C -> p ∈ collect fuel n A C).
Proof.
  revert A C. induction fuel as [|fuel IH]; intros A C Hf Hm Ho.
  - destruct A as [|p A]; [cbn [collect]; split; [done|]; split; [apply Hm|done]|].
    assert (Hp : marked_at n p) by (apply Hm; by left). apply pushed_count in Hp.
    unfold counts in Hf. simpl in Hf. lia.
  - destruct A as [|p A]; [cbn [collect]; split; [done|]; split; [apply Hm|done]|]. cbn [collect].
    assert (Hp : marked_at n p) by (apply Hm; by left).
    destruct (IH (pushed n p ++ A) (pushed n p ++ C)) as (K1 & K2 & K3).
    + apply pushed_count in Hp. rewrite counts_app. unfold counts in Hf |- *. simpl in Hf. unfold counts in Hp. lia.
    + intros q. rewrite !elem_of_app. intros [[Hq|Hq]|[Hq|Hq]].
      * by apply elem_of_pushed in Hq as (i & _ & Hq).
      * apply Hm. set_solver.
      * by apply elem_of_pushed in Hq as (i & _ & Hq).
      * apply Hm. set_solver.
    + apply (ordered_pushed n p); auto.
    + split; [done|]. split; [done|]. intros q Hq. apply K3. apply elem_of_app. by right.
Qed.

(** ** The root hash *)
Lemma get_hash_helper_spec n st :
  hash_ok n -> get_leaf n = false ->
  let n' := (get_hash_helper_2stack n st).1 in
  strip n' = strip n /\ hash_ok n' /\ get_modified n' = false /\ value_hash (meta n') = spec_hash n.
Proof.
  intros Hn Hl. unfold get_hash_helper_2stack. destruct n as [|m c]; [done|].
  destruct (get_modified (Extension m c)) eqn:Em; cbn [get_modified meta] in Em.
  - assert (Hroot : marked_at (Extension m c) []) by by exists m, c.
    destruct (collect_spec (node_count (Extension m c)) (Extension m c) [[]] [[]]) as (K1 & K2 & K3).
    { unfold counts, count_at. cbn [map node_at list_sum fold_right]. lia. }
    { intros p Hp. assert (p = []) as -> by set_solver. done. }
    { split; [left; by left|done]. }
    assert (Hc : forall q, clean_at (Extension m c) q \/ q ∈ [] -> clean_at (Extension m c) q)
      by (intros q [Hq|?%not_elem_of_nil]; done).
    destruct (hash_fold_spec (Extension m c) _ [] (Extension m c) st eq_refl Hn Hc K2 K1) as (K4 & K5 & K6).
    cbv zeta. split; [done|]. split; [done|].
    assert (Hr : clean_at (foldl hash_step (Extension m c, st) (collect (node_count (Extension m c))
       (Extension m c) [[]] [[]])).1 []) by (apply K6; right; right; apply K3; by left).
    destruct (foldl hash_step (Extension m c, st) _).1 as [|m' c'] eqn:Ef; [done|].
    specialize (Hr m' c' eq_refl). split; [done|]. rewrite <-(spec_hash_same _ _ K4). cbn [meta].
    by apply (K5 []).
  - split; [done|]. split; [done|]. split; [done|]. by apply (Hn []).
Qed.

(** ** The operations keep the hashes *)
Lemma hash_ok_find m c s nx : hash_ok (Extension m c) -> table_find c s = Some nx -> hash_ok nx.
Proof.
  intros [_ Hh]%hash_ok_extension Hs. unfold table_find in Hs.
  destruct (c !! Z.to_nat s) as [o|] eqn:E; [|done]. simpl in Hs. subst. by eapply Hh.
Qed.

Lemma hash_ok_set m m' c i (o : option node) :
  hash_ok (Extension m c) -> (forall nx, o = Some nx -> hash_ok nx) -> modified m' = true ->
  hash_ok (Extension m' (<[i := o]> c)).
Proof.
  intros [_ Hh]%hash_ok_extension Ho Hm. apply hash_ok_extension. split; [by rewrite Hm|].
  intros j n Hj. destruct (decide (i = j)) as [<-|Hij]; [|rewrite list_lookup_insert_ne in Hj by done; eauto].
  apply list_lookup_insert_Some in Hj as [(_ & -> & _)|[? _]]; [eauto|done].
Qed.

Lemma hash_ok_set_sub_key s n : hash_ok n -> hash_ok (set_sub_key s n).
Proof.
  destruct n; [intros _; apply hash_ok_leaf|]. cbn [set_sub_key with_meta].
  rewrite !hash_ok_extension. intros [H1 H2]. split; [exact H1|exact H2].
Qed.

Lemma hash_ok_set_modified n : hash_ok n -> hash_ok (set_modified true n).
Proof.
  destruct n; [intros _; apply hash_ok_leaf|]. cbn [set_modified with_meta].
  rewrite !hash_ok_extension. intros [_ Hh]. done.
Qed.

Lemma hash_ok_empty m : modified m = true -> hash_ok (Extension m (@table_new node)).
Proof.
  intros Hm. apply hash_ok_extension. split; [by rewrite Hm|]. intros i n Hi.
  unfold table_new in Hi. by apply lookup_replicate in Hi as [? _].
Qed.

Lemma table_update_snd c s nx nx' : table_find c s = Some nx ->
  (table_update c s nx').2 = <[Z.to_nat s := Some nx']> c.
Proof. intros E. by rewrite (table_update_ok _ _ _ _ E). Qed.

Lemma table_insert_snd c s nx : (table_insert c s nx).2 = <[Z.to_nat s := Some nx]> c
  \/ (table_insert c s nx).2 = c.
Proof. unfold table_insert. destruct (get_exist c s); auto. Qed.

Lemma hash_ok_insert_child m m' c s nx :
  hash_ok (Extension m c) -> hash_ok nx -> modified m' = true ->
  hash_ok (Extension m' (table_insert c s nx).2).
Proof.
  intros Hh Hx Hm. destruct (table_insert_snd c s nx) as [->| ->].
  - eapply hash_ok_set; [done| |done]. by intros ? [= <-].
  - apply hash_ok_extension in Hh. apply hash_ok_extension. split; [by rewrite Hm|apply Hh].
Qed.

Lemma hash_ok_erase_child m m' c s :
  hash_ok (Extension m c) -> modified m' = true -> hash_ok (Extension m' (table_erase c s).2).
Proof.
  intros Hh Hm. unfold table_erase. destruct (get_exist c s); cbn [snd].
  - by eapply hash_ok_set.
  - apply hash_ok_extension in Hh. apply hash_ok_extension. split; [by rewrite Hm|apply Hh].
Qed.

Lemma split_node_hash k v i j nx rest :
  hash_ok nx -> hash_ok (split_node k v i j nx rest).1.1.
Proof.
  intros Hx. unfold split_node. cbn [fst set_children].
  set (m := Meta _ _ _ _). eapply (hash_ok_insert_child m); [|by apply hash_ok_set_sub_key|done].
  eapply (hash_ok_insert_child m); [by apply hash_ok_empty|apply hash_ok_leaf|done].
Qed.

Lemma insert_loop_hash k v fuel i n subs n' es :
  insert_loop k v fuel i n subs = Ok (n', es) -> hash_ok n -> hash_ok n'.
Proof.
  revert i n subs n' es. induction fuel as [|fuel IH]; intros i n subs n' es; [by intros [= <- _]|].
  destruct subs as [|s subs]; [by intros [= <- _]|]. cbn [insert_loop].
  destruct n as [|m c]; [done|]. cbn [get_children mbind res_bind].
  destruct (table_find c s) as [nx|] eqn:Ex.
  - destruct (compare_sub_key _ _) as [[j rest| | |rest]|]; cbn [mbind res_bind]; try done.
    + pose proof (split_node_hash k v (i + j) j nx rest) as Hs.
      destruct (split_node _ _ _ _ _ _) as [[child prev] leaf]. intros [= <- _] Hn.
      rewrite (table_update_snd _ _ _ _ Ex). eapply hash_ok_set; [done| |done].
      intros ? [= <-]. apply Hs. by eapply hash_ok_find.
    + by intros [= <- _].
    + by intros [= <- _].
    + destruct (insert_loop k v fuel _ nx rest) as [[nx' es']|] eqn:Ei; [|done]. cbn [mbind res_bind].
      destruct es'; [by intros [= <- _]|]. intros [= <- _] Hn. rewrite (table_update_snd _ _ _ _ Ex).
      eapply hash_ok_set; [done| |done]. intros ? [= <-]. eapply IH; [done|]. by eapply hash_ok_find.
  - intros [= <- _] Hn. cbn [set_children set_modified with_meta].
    eapply hash_ok_insert_child; [done|apply hash_ok_leaf|done].
Qed.

Lemma erase_loop_hash fuel r n subs n' e es :
  erase_loop fuel r n subs = Ok (Some (n', e, es)) -> hash_ok n ->
  hash_ok n' /\ match e with Kept => True | Merged brother => hash_ok brother end.
Proof.
  revert r n subs n' e es. induction fuel as [|fuel IH]; intros r n subs n' e es; [done|].
  destruct subs as [|s subs]; [done|]. cbn [erase_loop].
  destruct n as [|m c]; [done|]. cbn [get_children mbind res_bind].
  destruct (table_find c s) as [nx|] eqn:Ex; [|done].
  destruct (compare_sub_key _ _) as [[j rest| | |rest]|]; cbn [mbind res_bind]; try done.
  - unfold erase_leaf. cbn [set_children set_modified with_meta]. set (idx := hd _ _).
    set (m' := Meta _ _ _ _). intros He Hn.
    assert (Hp : hash_ok (Extension m' (table_erase c idx).2)) by by eapply hash_ok_erase_child.
    destruct r; [injection He as <- <- _; done|].
    destruct (table_size _ =? 1); [|injection He as <- <- _; done].
    destruct (table_find (table_erase c idx).2 _) as [brother|] eqn:Eb; injection He as <- <- _; [|done].
    split; [done|]. apply hash_ok_set_modified, hash_ok_set_sub_key. by eapply hash_ok_find.
  - destruct (erase_loop fuel false nx rest) as [[[[nx' e'] es']|]|] eqn:Ee; cbn [mbind res_bind]; try done.
    intros He Hn. destruct (IH _ _ _ _ _ _ Ee) as [H1 H2]; [by eapply hash_ok_find|].
    destruct e' as [|brother]; injection He as <- <- _; (split; [|done]).
    + rewrite (table_update_snd _ _ _ _ Ex). cbn [set_children set_modified with_meta].
      eapply hash_ok_set; [done| |done]. by intros ? [= <-].
    + cbn [set_children set_modified with_meta]. set (m' := Meta _ _ _ _).
      apply (hash_ok_insert_child m'); [|done|done]. by eapply hash_ok_erase_child.
Qed.

Lemma mark_loop_sub_key fuel n subs o n' :
  mark_loop fuel n subs = Ok (o, n') -> sub_key (meta n') = sub_key (meta n).
Proof.
  destruct fuel; [by intros [= _ <-]|]. destruct subs as [|s subs]; [by intros [= _ <-]|].
  cbn [mark_loop]. destruct n as [|m c]; [done|]. cbn [get_children mbind res_bind].
  destruct (table_find c s) as [nx|]; [|by intros [= _ <-]].
  destruct (compare_sub_key _ _) as [[]|]; cbn [mbind res_bind]; try by intros [= _ <-]. 
  destruct (mark_loop _ _ _) as [[[v|] nx']|]; cbn [mbind res_bind]; by intros [= _ <-].
Qed.

Lemma table_find_update c s nx nx' : table_find c s = Some nx ->
  table_find (<[Z.to_nat s := Some nx']> c) s = Some nx'.
Proof.
  unfold table_find. intros E. destruct (c !! Z.to_nat s) eqn:Ec; [|done].
  rewrite list_lookup_insert_eq; [done|]. by eapply lookup_lt_Some.
Qed.

Lemma mark_loop_hash_ok fuel n subs o n' :
  mark_loop fuel n subs = Ok (o, n') -> hash_ok n -> hash_ok n'.
Proof.
  revert n subs o n'. induction fuel as [|fuel IH]; intros n subs o n'; [by intros [= _ <-]|].
  destruct subs as [|s subs]; [by intros [= _ <-]|].
  cbn [mark_loop]. destruct n as [|m c]; [done|]. cbn [get_children mbind res_bind].
  destruct (table_find c s) as [nx|] eqn:Ex; [|by intros [= _ <-]].
  destruct (compare_sub_key _ _) as [[j rest| | |rest]|]; cbn [mbind res_bind]; try by intros [= _ <-].
  - intros [= _ <-]. apply hash_ok_set_modified.
  - destruct (mark_loop _ _ _) as [[[v|] nx']|] eqn:Em; cbn [mbind res_bind]; intros [= _ <-]; [|done].
    intros Hn. rewrite (table_update_snd _ _ _ _ Ex). eapply hash_ok_set; [done| |done].
    intros ? [= <-]. eapply IH; [done|]. by eapply hash_ok_find.
Qed.

(** Marking the path of a key makes an assignment through its pointer safe. *)
Lemma mark_write_hash fuel n subs o n1 v n2 :
  mark_loop fuel n subs = Ok (Some o, n1) -> write_loop fuel v n1 subs = Ok n2 ->
  hash_ok n -> hash_ok n2.
Proof.
  revert n subs o n1 n2. induction fuel as [|fuel IH]; intros n subs o n1 n2; [done|].
  destruct subs as [|s subs]; [done|]. cbn [mark_loop].
  destruct n as [|m c]; [done|]. cbn [get_children mbind res_bind].
  destruct (table_find c s) as [nx|] eqn:Ex; [|done].
  destruct (compare_sub_key _ _) as [[j rest| | |rest]|] eqn:Ec; cbn [mbind res_bind]; try done.
  - intros [= _ <-]. cbn [write_loop set_modified with_meta get_children mbind res_bind].
    rewrite Ex, Ec. cbn [mbind res_bind]. intros [= <-] Hn. destruct nx as [mx vx|].
    + rewrite (table_update_snd _ _ _ _ Ex). eapply hash_ok_set; [done| |done].
      intros ? [= <-]. apply hash_ok_leaf.
    + by apply (hash_ok_set_modified (Extension m c)).
  - destruct (mark_loop fuel nx rest) as [[[v1|] nx1]|] eqn:Em; cbn [mbind res_bind]; try done.
    intros [= _ <-]. rewrite (table_update_snd _ _ _ _ Ex).
    cbn [write_loop set_modified set_children with_meta get_children mbind res_bind].
    rewrite (table_find_update _ _ _ _ Ex), (mark_loop_sub_key _ _ _ _ _ Em), Ec. cbn [mbind res_bind].
    destruct (write_loop fuel v nx1 rest) as [nx2|] eqn:Ew; [|done]. cbn [mbind res_bind].
    intros [= <-] Hn. rewrite (table_update_snd _ _ _ _ (table_find_update _ _ _ _ Ex)).
    rewrite list_insert_insert_eq. eapply hash_ok_set; [done| |done]. intros ? [= <-].
    eapply IH; [done..|]. by eapply hash_ok_find.
Qed.

Lemma table_find_insert_twice c s nx nx' nx'' : table_find c s = Some nx ->
  (table_update (<[Z.to_nat s := Some nx']> c) s nx'').2 = (table_update c s nx'').2.
Proof.
  intros E. rewrite (table_update_snd _ _ _ _ (table_find_update _ _ _ _ E)), (table_update_snd _ _ _ _ E).
  by rewrite list_insert_insert_eq.
Qed.

(** Of two assignments through one pointer the second counts. *)
Lemma write_loop_twice fuel n subs v w n1 :
  write_loop fuel v n subs = Ok n1 ->
  sub_key (meta n1) = sub_key (meta n) /\ write_loop fuel w n1 subs = write_loop fuel w n subs.
Proof.
  revert n subs n1. induction fuel as [|fuel IH]; intros n subs n1; [by intros [= <-]|].
  destruct subs as [|s subs]; [by intros [= <-]|]. cbn [write_loop].
  destruct n as [|m c]; [done|]. cbn [get_children mbind res_bind].
  destruct (table_find c s) as [nx|] eqn:Ex.
  2:{ intros [= <-]. cbn [get_children mbind res_bind]. by rewrite Ex. }
  destruct (compare_sub_key _ _) as [[j rest| | |rest]|] eqn:Ec; cbn [mbind res_bind]; try done.
  - intros [= <-]. cbn [get_children mbind res_bind]. by rewrite Ex, Ec.
  - destruct nx as [mx vx|mx cx]; intros [= <-].
    + rewrite (table_update_snd _ _ _ _ Ex). cbn [set_children get_children mbind res_bind].
      rewrite (table_find_update _ _ _ _ Ex). cbn [meta] in *. rewrite Ec. cbn [mbind res_bind].
      by rewrite (table_find_insert_twice _ _ _ _ _ Ex).
    + cbn [get_children mbind res_bind]. by rewrite Ex, Ec.
  - intros [= <-]. cbn [get_children mbind res_bind]. by rewrite Ex, Ec.
  - destruct (write_loop fuel v nx rest) as [nx1|] eqn:Ew; [|done]. cbn [mbind res_bind].
    intros [= <-]. destruct (IH _ _ _ Ew) as [E1 E2].
    rewrite (table_update_snd _ _ _ _ Ex). cbn [set_children get_children mbind res_bind].
    rewrite (table_find_update _ _ _ _ Ex), E1, Ec. cbn [mbind res_bind]. rewrite E2. split; [done|].
    destruct (write_loop fuel w nx rest) as [nx2|]; [|done]. cbn [mbind res_bind].
    by rewrite (table_find_insert_twice _ _ _ _ _ Ex).
Qed.

(** Whatever the hashes are, the traversal touches nothing else. *)
Lemma hash_node_strip st n : strip (hash_node st n).1 = strip n.
Proof.
  destruct n as [m v|m c]; [done|]. cbn [hash_node].
  pose proof (hash_children_table st uint256_zero c) as E.
  destruct (hash_children st uint256_zero c) as [[c' u] st']. cbn [fst] in *. subst c'.
  cbn [set_value_hash set_modified set_children with_meta]. rewrite !strip_children, clean_table_strip. done.
Qed.

Lemma get_hash_helper_strip n st : strip (get_hash_helper_2stack n st).1 = strip n.
Proof.
  unfold get_hash_helper_2stack. destruct (get_modified n); [|done].
  generalize (collect (node_count n) n [[]] [[]]). intros l. revert n st.
  induction l as [|p l IH]; intros n st; [done|]. cbn [foldl]. unfold hash_step at 2. cbn [fst snd].
  destruct (node_at n p) as [top|] eqn:Hp; [|apply IH]. rewrite IH.
  eapply update_at_strip; [done|apply hash_node_strip].
Qed.
End Hash.
