(* ===== verification/MptTheorems.v ===== *)
(** * Theorems on the Merkle Patricia trie

    A trie represents a finite map from addresses to values; its operations are
    those of the map, and its root hash depends on the map only. *)
From S2P Require Import Prelude Uint256 MptNode Mpt MptLaws MptHash.

Section Represents.
Context {V : Type} `{IGetHashSha3256 V} `{HashHandler}.
Abbreviation node := (mpt_node V).
Implicit Types (n : node) (t : merkle_patricia_trie V) (M : gmap uint256 V) (k : uint256).

(** What a node at the root stands for. *)
Definition node_map (n : node) (M : gmap uint256 V) : Prop :=
  node_ok true EMPTY_KEY_LENGTH n /\
  (forall k v, uint256_wf k -> stores n (subscripts k) v <-> M !! k = Some v) /\
  (forall k v, M !! k = Some v -> uint256_wf k).

(** The trie stands for [M]; its hashes are right. *)
Definition contents (t : merkle_patricia_trie V) (M : gmap uint256 V) : Prop :=
  exists n, root t = Some n /\ node_map n M.
Definition hashes_ok (t : merkle_patricia_trie V) : Prop :=
  forall n, root t = Some n -> hash_ok n.
Definition represents (t : merkle_patricia_trie V) (M : gmap uint256 V) : Prop :=
  contents t M /\ hashes_ok t.

Lemma node_map_strip n n' M : strip n' = strip n -> node_map n M -> node_map n' M.
Proof.
  intros E (H1 & H2 & H3). split; [by eapply strip_node_ok|]. split; [|done].
  intros k v Hk. rewrite <-H2 by done. split; by apply strip_stores.
Qed.

Lemma node_map_lookup n M k : node_map n M -> uint256_wf k ->
  exists o, lookup_loop (length (subscripts k)) n (subscripts k) = Ok o /\
    match o with Some nx => exists m v, nx = Leaf m v /\ M !! k = Some v | None => M !! k = None end.
Proof.
  intros (H1 & H2 & _) Hk. rewrite (subscripts_length k Hk).
  destruct (lookup_loop_spec EMPTY_KEY_LENGTH true _ n (subscripts k) H1) as (o & E & Ho);
    [unfold EMPTY_KEY_LENGTH; lia|by apply subscripts_length|done|by apply subscripts_ok|].
  exists o. split; [done|]. destruct o as [nx|].
  - destruct Ho as (m & v & -> & Hv). exists m, v. by rewrite <-H2.
  - apply eq_None_not_Some. intros [v Hv]. apply (Ho v), H2; done.
Qed.

Lemma key_paths k k' : uint256_wf k -> uint256_wf k' -> subscripts k = subscripts k' <-> k = k'.
Proof. intros Hk Hk'. split; [by apply subscripts_inj|by intros ->]. Qed.

Lemma contents_locate t M k : contents t M -> uint256_wf k ->
  exists o, locate t k = Ok o /\
    match o with Some nx => exists m v, nx = Leaf m v /\ M !! k = Some v | None => M !! k = None end.
Proof. intros (n & Hr & Hn) Hk. unfold locate. rewrite Hr. by apply node_map_lookup. Qed.

Lemma contents_search t M k : contents t M -> uint256_wf k -> search t k = Ok (M !! k).
Proof.
  intros Ht Hk. unfold search. destruct (contents_locate t M k Ht Hk) as (o & -> & Ho). simpl.
  destruct o as [nx|]; [|by rewrite Ho]. by destruct Ho as (m & v & -> & ->).
Qed.

Lemma contents_find t M k : contents t M -> uint256_wf k ->
  find t k = Ok (bool_decide (is_Some (M !! k))).
Proof.
  intros Ht Hk. unfold find. destruct (contents_locate t M k Ht Hk) as (o & -> & Ho). simpl.
  destruct o as [nx|]; [destruct Ho as (m & v & -> & ->)|rewrite Ho].
  - by rewrite bool_decide_eq_true_2 by eauto.
  - by rewrite bool_decide_eq_false_2 by by intros [? ?].
Qed.

(** A new value goes in only where the map has none. *)
Definition map_insert_new (k : uint256) (v : V) (M : gmap uint256 V) : gmap uint256 V :=
  match M !! k with Some _ => M | None => <[k := v]> M end.

Lemma map_insert_new_lookup k v M k' w :
  map_insert_new k v M !! k' = Some w <-> M !! k' = Some w \/ (k' = k /\ w = v /\ M !! k = None).
Proof.
  unfold map_insert_new. destruct (M !! k) as [u|] eqn:E.
  - split; [auto|]. by intros [|(_ & _ & ?)].
  - rewrite lookup_insert_Some. split.
    + intros [[<- <-]|[Hne Hw]]; auto.
    + intros [Hw|(-> & -> & _)]; [|by left]. right. split; [|done]. by intros ->; rewrite E in Hw.
Qed.

Lemma key_length : (0 < EMPTY_KEY_LENGTH)%nat.
Proof. unfold EMPTY_KEY_LENGTH. lia. Qed.

Lemma contents_insert t M k v : contents t M -> uint256_wf k ->
  exists t', insert t k v = Ok t' /\ contents t' (map_insert_new k v M).
Proof.
  intros (n & Hr & H1 & H2 & H3) Hk. unfold insert. rewrite Hr, (subscripts_length k Hk).
  destruct (insert_loop_spec k v EMPTY_KEY_LENGTH 0 true _ n (subscripts k) H1 key_length
    (subscripts_length k Hk)) as (n' & es & E & K1 & K2 & _ & K3); [done|by apply subscripts_ok|].
  rewrite E. eexists. split; [reflexivity|]. exists n'. split; [done|]. split; [done|]. split.
  - intros k' w Hk'. rewrite K3, H2, map_insert_new_lookup, key_paths by done.
    assert ((forall w', ~ stores n (subscripts k) w') <-> M !! k = None) as ->; [|done].
    rewrite eq_None_not_Some. split.
    + intros Hno [w' Hw']. by apply (Hno w'), H2.
    + intros Hno w' Hw'. apply Hno. exists w'. by apply H2.
  - intros k' w [Hw|(-> & _)]%map_insert_new_lookup; [by eapply H3|done].
Qed.

Lemma insert_hashes t k v t' : insert t k v = Ok t' -> hashes_ok t -> hashes_ok t'.
Proof.
  unfold insert. destruct (root t) as [n|] eqn:Hr; [|done].
  destruct (insert_loop _ _ _ _ _ _) as [[n' es]|] eqn:E; [|done]. intros [= <-] Hh n0 [= <-].
  eapply insert_loop_hash; [done|]. by apply Hh.
Qed.

Lemma contents_erase t M k : contents t M -> uint256_wf k ->
  exists t', erase t k = Ok (bool_decide (is_Some (M !! k)), t') /\ contents t' (delete k M).
Proof.
  intros Ht Hk. pose proof Ht as (n & Hr & H1 & H2 & H3). unfold erase.
  rewrite Hr, (subscripts_length k Hk).
  destruct (erase_loop_spec EMPTY_KEY_LENGTH true _ n (subscripts k) H1 key_length (subscripts_length k Hk))
    as (o & E & K); [done|by apply subscripts_ok|].
  rewrite E. cbn [mbind res_bind]. destruct o as [[[n' e] es]|].
  - destruct K as ((v & Hv) & Hs & K). destruct e as [|brother]; [|by destruct K].
    destruct K as [K1 K2]. apply H2 in Hv; [|done]. eexists.
    rewrite Hv, bool_decide_eq_true_2 by eauto. split; [reflexivity|]. exists n'. split; [done|].
    split; [done|]. split.
    + intros k' w Hk'. rewrite K2, H2, lookup_delete_Some, key_paths by done.
      split; intros [? ?]; split; congruence.
    + intros k' w [_ Hw]%lookup_delete_Some. by eapply H3.
  - assert (Hnone : M !! k = None).
    { apply eq_None_not_Some. intros [v Hv]. apply (K v), H2; done. }
    exists t. rewrite Hnone, bool_decide_eq_false_2 by (by intros [? ?]). split; [done|].
    by rewrite delete_id.
Qed.

Lemma erase_hashes t k b t' : erase t k = Ok (b, t') -> hashes_ok t -> hashes_ok t'.
Proof.
  unfold erase. destruct (root t) as [n|] eqn:Hr; [|done].
  destruct (erase_loop _ _ _ _) as [[[[n' e] es]|]|] eqn:E; cbn [mbind res_bind]; [| |done].
  - intros [= <- <-] Hh n0 [= <-]. apply erase_loop_hash in E as [? _]; [done|]. by apply Hh.
  - by intros [= <- <-].
Qed.

Lemma contents_mark t M k : contents t M -> uint256_wf k ->
  exists t', search_and_mark t k = Ok (M !! k, t') /\ contents t' M.
Proof.
  intros (n & Hr & H1 & H2 & H3) Hk. unfold search_and_mark. rewrite Hr, (subscripts_length k Hk).
  destruct (mark_loop_spec EMPTY_KEY_LENGTH true _ n (subscripts k) H1 key_length (subscripts_length k Hk))
    as (o & n' & E & K1 & K2 & K3 & K4); [done|by apply subscripts_ok|].
  rewrite E. cbn [mbind res_bind fst snd].
  assert (Hc : contents (Trie (extension_nodes t) (Some n')) M).
  { exists n'. split; [done|]. split; [done|]. split; [|done]. intros k' w Hk'. by rewrite K3, H2. }
  destruct o as [o|].
  - destruct K4 as (v & -> & Hv). apply H2 in Hv; [|done]. eexists. by rewrite Hv.
  - destruct K4 as [_ K4]. assert (Hnone : M !! k = None).
    { apply eq_None_not_Some. intros [v Hv]. apply (K4 v), H2; done. }
    eexists. by rewrite Hnone.
Qed.

Lemma contents_write t M k v : contents t M -> uint256_wf k ->
  exists t', write_value t k v = Ok t' /\ (is_Some (M !! k) -> contents t' (<[k := v]> M)).
Proof.
  intros (n & Hr & H1 & H2 & H3) Hk. unfold write_value. rewrite Hr, (subscripts_length k Hk).
  destruct (write_loop_spec EMPTY_KEY_LENGTH true _ n (subscripts k) v H1 key_length (subscripts_length k Hk))
    as (n2 & E2 & L1 & L2 & L3); [done|by apply subscripts_ok|].
  rewrite E2. eexists. split; [reflexivity|]. intros [u Hu]. exists n2. split; [done|]. split; [done|]. split.
  - intros k' w Hk'. rewrite L3. destruct (decide (k' = k)) as [->|Hne].
    + rewrite decide_True, lookup_insert_eq by done. split; [by intros [-> _]|]. intros [= ->].
      split; [done|]. exists u. by apply H2.
    + rewrite decide_False, lookup_insert_ne by (by rewrite ?key_paths). by rewrite H2.
  - intros k' w [[<- _]|[_ Hw]]%lookup_insert_Some; [done|by eapply H3].
Qed.

Lemma mark_hashes t k o t' : search_and_mark t k = Ok (o, t') -> hashes_ok t ->
  hashes_ok t' /\ forall v t2, is_Some o -> write_value t' k v = Ok t2 -> hashes_ok t2.
Proof.
  unfold search_and_mark, write_value. destruct (root t) as [n|] eqn:Hr; [|done].
  destruct (mark_loop _ _ _) as [[o' n']|] eqn:E; [|done]. cbn [mbind res_bind fst snd].
  intros [= Eo <-] Hh. split.
  - intros n0 [= <-]. eapply mark_loop_hash_ok; [done|]. by apply Hh.
  - intros v t2 [w Hw] E2. destruct o' as [o'|]; [|congruence]. cbn [root] in E2.
    destruct (write_loop _ _ _ _) as [n2|] eqn:E3; [|done]. injection E2 as <-. intros n0 [= <-].
    eapply mark_write_hash; [exact E|exact E3|]. by apply Hh.
Qed.

(** An assignment through the pointer to [k] keeps the hashes right. *)
Definition writable (t : merkle_patricia_trie V) (k : uint256) : Prop :=
  forall v t', write_value t k v = Ok t' -> hashes_ok t'.

Lemma writable_write t k v t' : writable t k -> write_value t k v = Ok t' -> writable t' k.
Proof.
  intros Hw E w t2 E2. apply (Hw w t2). rewrite <-E2. unfold write_value in *.
  destruct (root t) as [n|] eqn:Hr; [|done].
  destruct (write_loop _ v n _) as [n1|] eqn:E1; [|done]. injection E as <-. cbn [root extension_nodes].
  by destruct (write_loop_twice _ _ _ _ w _ E1) as [_ ->].
Qed.

(** ** The shape is determined by the contents *)
Lemma node_ok_nonempty r d n : node_ok r d n -> r = false -> exists p v, stores n p v.
Proof.
  revert r d. induction n as [m v|m c IH] using mpt_node_nested_ind; intros r d Hn Hr.
  - exists [], v. constructor.
  - apply node_ok_extension in Hn as (_ & Hw & Hs & Hc). specialize (Hs Hr).
    destruct (table_first_spec c Hw ltac:(lia)) as (i & n & _ & Hi & Hn).
    destruct (Hc i n Hi Hn) as (s & d' & _ & _ & _ & Hok).
    destruct (IH n) with (2 := Hok) as (p & v & Hp); [|done|].
    { unfold table_find in Hn. destruct (c !! Z.to_nat i) as [o|] eqn:E; [|done].
      simpl in Hn. subst. by eapply list_elem_of_lookup_2. }
    exists (sub_key (meta n) ++ p), v. by econstructor.
Qed.

Lemma table_two {E} (t : node_table E) : table_wf t -> 2 <= table_size t ->
  exists i j a b, nibble_ok i /\ nibble_ok j /\ i <> j /\ table_find t i = Some a /\ table_find t j = Some b.
Proof.
  intros Hw Hs. destruct (table_first_spec t Hw ltac:(lia)) as (i & a & _ & Hi & Ha).
  pose proof (size_set t i None Hw Hi) as Hz. rewrite Ha in Hz. unfold weight in Hz. cbn [present] in Hz.
  destruct (table_first_spec (<[Z.to_nat i := None]> t)) as (j & b & _ & Hj & Hb);
    [by apply table_set_wf|lia|].
  rewrite table_find_set in Hb by done. case_decide; [done|]. exists i, j, a, b. auto.
Qed.

(** No subscript is common to all that is stored below a node. *)
Lemma no_common_subscript d n x :
  node_ok false d n -> ~ (forall p v, stores n p v -> head p = Some x).
Proof.
  intros Hn Hx. destruct n as [m v|m c]; [by specialize (Hx [] v (stores_leaf m v))|].
  apply node_ok_extension in Hn as (_ & Hw & Hs & Hc).
  destruct (table_two c Hw (Hs eq_refl)) as (i & j & a & b & Hi & Hj & Hij & Ha & Hb).
  assert (Hhead : forall z e, nibble_ok z -> table_find c z = Some e -> z = x).
  { intros z e Hk He. destruct (Hc z e Hk He) as (s & d' & Es & _ & _ & Hok).
    destruct (node_ok_nonempty _ _ _ Hok eq_refl) as (p & v & Hp).
    assert (head (sub_key (meta e) ++ p) = Some x) as Hh by (apply (Hx _ v); by econstructor).
    rewrite Es in Hh. simpl in Hh. congruence. }
  apply Hij. rewrite (Hhead i a), (Hhead j b); done.
Qed.

Lemma sub_key_determined d d' (a a' : node) :
  node_ok false d a -> node_ok false d' a' ->
  (forall p v, child_stores a p v <-> child_stores a' p v) -> sub_key (meta a) = sub_key (meta a').
Proof.
  intros Ha Ha' Hs.
  assert (Hlong : forall d (a a' : node) x (z : list Z), node_ok false d a ->
    (forall p v, child_stores a p v -> child_stores a' p v) ->
    sub_key (meta a') = sub_key (meta a) ++ x :: z -> False).
  { clear. intros d a a' x z Ha Hs E. apply (no_common_subscript d a x Ha). intros p v Hp.
    apply child_stores_app in Hp. apply Hs in Hp as (q & Eq & _). rewrite E, <-app_assoc in Eq.
    apply app_inv_head in Eq. by rewrite Eq. }
  destruct (node_ok_nonempty _ _ _ Ha eq_refl) as (p & v & Hp). apply child_stores_app in Hp.
  pose proof Hp as Hq. apply Hs in Hq as (q & Eq & _).
  apply app_eq_inv in Eq as [([|x z] & E & _)|([|x z] & E & _)].
  - by rewrite E, app_nil_r.
  - exfalso. apply (Hlong d' a' a x z); [done| |done]. intros p' v'. apply Hs.
  - by rewrite E, app_nil_r.
  - exfalso. apply (Hlong d a a' x z); [done| |done]. intros p' v'. apply Hs.
Qed.

(** Children that hold the same paths give the same sum. *)
Lemma foldl_children_ext (c c' : node_table node) u :
  Forall2 (fun o o' => match o, o' with
    | Some n, Some n' => spec_hash n = spec_hash n' | None, None => True | _, _ => False end) c c' ->
  foldl (fun result o => match o with Some n => (result + spec_hash n)%U | None => result end) u c
  = foldl (fun result o => match o with Some n => (result + spec_hash n)%U | None => result end) u c'.
Proof.
  intros Hc. revert u. induction Hc as [|o o' c c' Ho Hc IH]; intros u; [done|]. simpl.
  destruct o, o'; try done. rewrite Ho. apply IH.
Qed.

Lemma canonical_hash r d n n' :
  node_ok r d n -> node_ok r d n' -> (forall p v, stores n p v <-> stores n' p v) ->
  spec_hash n = spec_hash n'.
Proof.
  revert r d n'. induction n as [m v|m c IH] using mpt_node_nested_ind; intros r d n' Hn Hn' Hs.
  - inversion Hn; subst. destruct n' as [m' v'|m' c']; [|by inversion Hn'; subst; lia].
    assert (Hv : stores (Leaf m' v') [] v) by (apply Hs; constructor). by inversion Hv; subst.
  - apply node_ok_extension in Hn as Hx. destruct Hx as (Hd & Hw & _ & Hc).
    destruct n' as [m' v'|m' c']; [by inversion Hn'; subst; lia|].
    apply node_ok_extension in Hn' as Hx'. destruct Hx' as (_ & Hw' & _ & Hc').
    cbn [spec_hash]. f_equal. apply foldl_children_ext. apply Forall2_same_length_lookup.
    split; [by rewrite Hw, Hw'|]. intros i o o' Ho Ho'.
    assert (Hi : nibble_ok (Z.of_nat i)).
    { apply lookup_lt_Some in Ho. rewrite Hw in Ho. unfold nibble_ok, CHILDREN_COUNT in *. lia. }
    assert (Hf : table_find c (Z.of_nat i) = o) by (unfold table_find; by rewrite Nat2Z.id, Ho).
    assert (Hf' : table_find c' (Z.of_nat i) = o') by (unfold table_find; by rewrite Nat2Z.id, Ho').
    assert (Hmiss : forall m1 (c1 : node_table node) m2 (c2 : node_table node) a, node_ok r d (Extension m1 c1) -> node_ok r d (Extension m2 c2) ->
      (forall p v, stores (Extension m1 c1) p v -> stores (Extension m2 c2) p v) ->
      table_find c1 (Z.of_nat i) = Some a -> table_find c2 (Z.of_nat i) = None -> False).
    { intros m1 c1 m2 c2 a H1 H2 H12 Ha Hb. pose proof H1 as (_ & _ & _ & Hc1)%node_ok_extension.
      destruct (Hc1 _ _ Hi Ha) as (s & d' & Es & _ & _ & Hok).
      destruct (node_ok_nonempty _ _ _ Hok eq_refl) as (p & v & Hp).
      assert (Hst : stores (Extension m2 c2) (sub_key (meta a) ++ p) v)
        by (apply H12; by econstructor).
      eapply stores_no_child in Hst; [done|exact H2|exact Hb|by rewrite Es]. }
    destruct o as [a|], o' as [a'|]; [| | |done].
    + destruct (Hc _ _ Hi Hf) as (s & da & Es & _ & Ed & Hok).
      destruct (Hc' _ _ Hi Hf') as (s' & da' & Es' & _ & Ed' & Hok').
      assert (Hcs : forall p v, child_stores a p v <-> child_stores a' p v).
      { intros p v. destruct (decide (head p = Some (Z.of_nat i))) as [Hp|Hp].
        - by rewrite <-(stores_at_child _ _ _ _ _ _ _ _ Hn Hi Hf Hp), <-(stores_at_child _ _ _ _ _ _ _ _ Hn' Hi Hf' Hp).
        - split; intros (q & -> & _); destruct Hp; [by rewrite Es|by rewrite Es']. }
      pose proof (sub_key_determined _ _ _ _ Hok Hok' Hcs) as Ek.
      assert (da' = da) as -> by (rewrite Es, Es' in Ek; injection Ek as ->; lia).
      apply (IH a) with (r := false) (d := da); [by eapply list_elem_of_lookup_2|done|done|].
      intros p v. rewrite <-!child_stores_app, Hcs, Ek. done.
    + by eapply (Hmiss m c m' c' a Hn Hn'); [intros ? ?; apply Hs|..].
    + by eapply (Hmiss m' c' m c a' Hn' Hn); [intros ? ?; apply Hs|..].
Qed.

(** Every path of the right length belongs to an address. *)
Fixpoint pack_path (p : list Z) : bytes :=
  match p with
  | hi :: lo :: p => hi * 16 + lo :: pack_path p
  | _ => []
  end.

Lemma pack_path_spec p : Forall nibble_ok p -> forall l, length p = (2 * l)%nat ->
  subscripts_of (pack_path p) = p /\ bytes_ok (pack_path p) /\ length (pack_path p) = l.
Proof.
  induction p as [|x|hi lo p IH] using list_pair_ind; intros HF l Hk.
  - destruct l; [|simpl in Hk; lia]. split; [done|]. split; [constructor|done].
  - simpl in Hk. lia.
  - apply Forall_cons in HF as [Hh HF]. apply Forall_cons in HF as [Hl HF].
    destruct l as [|l]; [simpl in Hk; lia|]. destruct (IH HF l) as (E & Hb & Hlen); [simpl in Hk; lia|].
    unfold nibble_ok in *. cbn [pack_path subscripts_of flat_map app].
    fold (subscripts_of (pack_path p)). rewrite E. unfold MOVE_COUNT, BIT_MASK.
    change 15 with (Z.ones 4). rewrite Z.land_ones, Z.shiftr_div_pow2 by lia. change (2 ^ 4) with 16.
    split; [|split].
    + replace ((hi * 16 + lo) / 16) with hi by (rewrite Z.div_add_l, Z.div_small; lia).
      by replace ((hi * 16 + lo) mod 16) with lo by (rewrite Z.add_comm, Z.mod_add, Z.mod_small; lia).
    + constructor; [unfold byte_ok, is_uint; lia|done].
    + simpl. by rewrite Hlen.
Qed.

Lemma path_of_address p : length p = EMPTY_KEY_LENGTH -> Forall nibble_ok p ->
  exists k, uint256_wf k /\ subscripts k = p.
Proof.
  intros Hl Hp. destruct (pack_path_spec p Hp Width Hl) as (E & Hb & Hlen).
  by exists (Uint (pack_path p)).
Qed.

Lemma node_map_hash n n' M : node_map n M -> node_map n' M -> spec_hash n = spec_hash n'.
Proof.
  intros (H1 & H2 & _) (H1' & H2' & _). apply (canonical_hash true EMPTY_KEY_LENGTH); [done..|].
  intros p v. split; intros Hp.
  - destruct (stores_length _ _ _ _ _ H1 Hp) as [Hl HF]. destruct (path_of_address p Hl HF) as (k & Hk & <-).
    by apply H2', H2.
  - destruct (stores_length _ _ _ _ _ H1' Hp) as [Hl HF]. destruct (path_of_address p Hl HF) as (k & Hk & <-).
    by apply H2, H2'.
Qed.

Lemma contents_leaf n M : node_map n M -> get_leaf n = false.
Proof. intros [Hn _]. by apply node_ok_pos in Hn as (m & c & ->); [|apply key_length]. Qed.

Lemma represents_hash t M : represents t M ->
  exists n h t', root t = Some n /\ get_hash t = Ok (h, t') /\ h = spec_hash n /\ represents t' M.
Proof.
  intros [(n & Hr & Hn) Hh]. specialize (Hh n Hr). unfold get_hash. rewrite Hr.
  destruct (get_hash_helper_spec n (extension_nodes t) Hh (contents_leaf n M Hn)) as (K1 & K2 & _ & K4).
  destruct (get_hash_helper_2stack n (extension_nodes t)) as [n' m]. cbn [fst] in *.
  exists n, (value_hash (meta n')), (Trie m (Some n')). split; [done|]. split; [done|].
  split; [done|]. split; [|by intros n0 [= <-]]. exists n'. split; [done|]. by eapply node_map_strip.
Qed.

(** Two tries for one map have one root hash. *)
Lemma represents_same_hash t t' M : represents t M -> represents t' M ->
  exists n h u u', root t = Some n /\ h = spec_hash n /\
    get_hash t = Ok (h, u) /\ get_hash t' = Ok (h, u').
Proof.
  intros Ht Ht'.
  destruct (represents_hash _ _ Ht) as (n & h & u & Hr & Hg & Hh & _).
  destruct (represents_hash _ _ Ht') as (n' & h' & u' & Hr' & Hg' & Hh' & _).
  exists n, h, u, u'. split; [done|]. split; [done|]. split; [done|]. rewrite Hg'. do 2 f_equal.
  subst h h'. destruct Ht as [(m & Hm & Hn) _]. destruct Ht' as [(m' & Hm' & Hn') _].
  rewrite Hr in Hm. rewrite Hr' in Hm'. injection Hm as <-. injection Hm' as <-.
  symmetry. by eapply node_map_hash.
Qed.

Lemma contents_hash t M : contents t M -> exists h t', get_hash t = Ok (h, t') /\ contents t' M.
Proof.
  intros (n & Hr & Hn). unfold get_hash. rewrite Hr.
  pose proof (get_hash_helper_strip n (extension_nodes t)) as E.
  destruct (get_hash_helper_2stack n (extension_nodes t)) as [n' m].
  eexists _, _. split; [reflexivity|]. exists n'. split; [done|]. by eapply node_map_strip.
Qed.

Lemma represents_new : represents trie_new ∅.
Proof.
  unfold trie_new. cbn [create_extension_node set_key with_meta]. set (m := Meta _ _ _ _).
  assert (Hr : represents (Trie ∅ (Some (Extension m table_new))) ∅).
  { split; [|intros n [= <-]; by apply hash_ok_empty].
    exists (Extension m table_new). split; [done|]. split; [apply empty_ok, key_length|]. split; [|done].
    intros k v _. rewrite lookup_empty. split; [by intros ?%empty_stores|done]. }
  destruct (represents_hash _ _ Hr) as (n & h & t' & _ & -> & _ & Ht). exact Ht.
Qed.

(** ** Sequences of operations *)
Inductive mpt_op :=
| OpSearch (k : uint256)
| OpFind (k : uint256)
| OpInsert (k : uint256) (v : V)
| OpErase (k : uint256)
| OpUpdate (k : uint256) (v : V)   (** [search_and_mark], then an assignment *)
| OpHash.
Inductive answer := Value (o : option V) | Truth (b : bool) | Nothing.

Definition run_op t (op : mpt_op) : res mpt_error (answer * merkle_patricia_trie V) :=
  match op with
  | OpSearch k => o ← search t k; Ok (Value o, t)
  | OpFind k => b ← find t k; Ok (Truth b, t)
  | OpInsert k v => t ← insert t k v; Ok (Nothing, t)
  | OpErase k => r ← erase t k; Ok (Truth r.1, r.2)
  | OpUpdate k v =>
      r ← search_and_mark t k;
      match r.1 with
      | Some old => t ← write_value r.2 k v; Ok (Value (Some old), t)
      | None => Ok (Value None, r.2)
      end
  | OpHash => r ← get_hash t; Ok (Nothing, r.2)
  end.
Fixpoint run_ops t (ops : list mpt_op) : res mpt_error (list answer * merkle_patricia_trie V) :=
  match ops with
  | [] => Ok ([], t)
  | op :: ops => r ← run_op t op; rs ← run_ops r.2 ops; Ok (r.1 :: rs.1, rs.2)
  end.

(** The same on a finite map. *)
Definition map_op M (op : mpt_op) : answer * gmap uint256 V :=
  match op with
  | OpSearch k => (Value (M !! k), M)
  | OpFind k => (Truth (bool_decide (is_Some (M !! k))), M)
  | OpInsert k v => (Nothing, map_insert_new k v M)
  | OpErase k => (Truth (bool_decide (is_Some (M !! k))), delete k M)
  | OpUpdate k v => (Value (M !! k), match M !! k with Some _ => <[k := v]> M | None => M end)
  | OpHash => (Nothing, M)
  end.
Fixpoint map_ops M (ops : list mpt_op) : list answer * gmap uint256 V :=
  match ops with
  | [] => ([], M)
  | op :: ops => let r := map_op M op in let rs := map_ops r.2 ops in (r.1 :: rs.1, rs.2)
  end.

Definition op_wf (op : mpt_op) : Prop :=
  match op with
  | OpSearch k | OpFind k | OpInsert k _ | OpErase k | OpUpdate k _ => uint256_wf k
  | OpHash => True
  end.

Lemma run_op_represents t M op : represents t M -> op_wf op ->
  exists t', run_op t op = Ok ((map_op M op).1, t') /\ represents t' (map_op M op).2.
Proof.
  intros [Ht Hh] Hop. destruct op as [k|k|k v|k|k v|]; cbn [op_wf run_op map_op fst snd] in *.
  - rewrite (contents_search _ _ _ Ht Hop). by exists t.
  - rewrite (contents_find _ _ _ Ht Hop). by exists t.
  - destruct (contents_insert t M k v Ht Hop) as (t' & E & Ht'). rewrite E. exists t'.
    split; [done|]. split; [done|]. by eapply insert_hashes.
  - destruct (contents_erase t M k Ht Hop) as (t' & E & Ht'). rewrite E. exists t'.
    split; [done|]. split; [done|]. by eapply erase_hashes.
  - destruct (contents_mark t M k Ht Hop) as (t' & E & Ht'). rewrite E.
    cbn [mbind res_bind fst snd]. destruct (mark_hashes _ _ _ _ E Hh) as [Hh' Hw].
    destruct (M !! k) as [old|] eqn:EM; [|by exists t'].
    destruct (contents_write t' M k v Ht' Hop) as (t2 & E2 & Ht2). rewrite E2. cbn [mbind res_bind].
    exists t2. split; [done|]. split; [apply Ht2; by rewrite EM|]. by eapply Hw.
  - destruct (represents_hash t M (conj Ht Hh)) as (n & h & t' & _ & -> & _ & Ht'). by exists t'.
Qed.

Lemma run_ops_represents ops t M : represents t M -> Forall op_wf ops ->
  exists t', run_ops t ops = Ok ((map_ops M ops).1, t') /\ represents t' (map_ops M ops).2.
Proof.
  intros Ht Hops. revert t M Ht. induction Hops as [|op ops Hop Hops IH]; intros t M Ht; cbn [run_ops map_ops].
  - by exists t.
  - destruct (run_op_represents t M op Ht Hop) as (t' & -> & Ht'). cbn [mbind res_bind fst snd].
    destruct (IH _ _ Ht') as (t2 & -> & Ht2). by exists t2.
Qed.

(** ** Theorems *)

(** C3: from an empty trie, any sequence of searches, insertions, deletions,
    assignments through [search_and_mark] and hash computations runs without
    dereferencing a null table or reading past a key, gives the answers of the
    same sequence on a finite map from addresses to values, and ends in a trie
    that represents that map (compressed, every key in place, cached hashes
    right). *)
Theorem mpt_simulates_map (ops : list mpt_op) :
  Forall op_wf ops ->
  exists t, run_ops trie_new ops = Ok ((map_ops ∅ ops).1, t) /\ represents t (map_ops ∅ ops).2.
Proof. apply run_ops_represents, represents_new. Qed.

(** C4: the root hash that [get_hash] computes with its two stacks is the recursive
    hash of the tree, whatever was cached before, and it depends on the accounts
    only: two histories that end in the same accounts end in the same root. *)
Theorem mpt_root_hash_canonical (ops ops' : list mpt_op) (t t' : merkle_patricia_trie V) a a' :
  Forall op_wf ops -> Forall op_wf ops' ->
  run_ops trie_new ops = Ok (a, t) -> run_ops trie_new ops' = Ok (a', t') ->
  (map_ops ∅ ops).2 = (map_ops ∅ ops').2 ->
  exists n h u u', root t = Some n /\ h = spec_hash n /\
    get_hash t = Ok (h, u) /\ get_hash t' = Ok (h, u').
Proof.
  intros Ho Ho' E E' HM.
  destruct (run_ops_represents ops _ _ represents_new Ho) as (t0 & E0 & Ht).
  destruct (run_ops_represents ops' _ _ represents_new Ho') as (t0' & E0' & Ht').
  rewrite E in E0. rewrite E' in E0'. injection E0 as _ <-. injection E0' as _ <-.
  rewrite HM in Ht. by eapply represents_same_hash.
Qed.

(** What an entry says: the operation and the keys of the children. *)
Definition entry_says (s : option mpt_node_storage) : option (operator_type * list bytes) :=
  match s with Some s => Some (storage_op s, storage_values s) | None => None end.

(** The answers of a history that starts with an empty trie, and what the change
    store says of some keys at its end. *)
Definition observe (ops : list mpt_op) (keys : list bytes)
  : res mpt_error (list answer * list (option (operator_type * list bytes))) :=
  r ← run_ops trie_new ops;
  c ← get_change_store r.2;
  Ok (r.1, map (fun key : bytes => entry_says (c.1 !! key)) keys).

Definition root_storage_key : bytes := replicate EMPTY_KEY_LENGTH EMPTY_KEY_CHAR.

(** The leaf of address zero has the key of the root, sixty-four characters
    '0', so that inserting that address replaces the entry of the root in the
    change store by a leaf without children: what is written to the database no
    longer leads to any account, although the trie in memory does. *)
Theorem zero_address_overwrites_root (v w : V) :
  let other := uint256_fill 17 in
  let zero := uint256_fill 0 in
  observe [OpInsert other v; OpSearch other] [root_storage_key; get_hex other]
    = Ok ([Nothing; Value (Some v)], [Some (UPDATE_OP_MUSE, [get_hex other]); Some (INSERT_OP_MUSE, [])]) /\
  observe [OpInsert other v; OpInsert zero w; OpSearch other; OpSearch zero] [root_storage_key; get_hex other]
    = Ok ([Nothing; Nothing; Value (Some v); Value (Some w)],
          [Some (INSERT_OP_MUSE, []); Some (INSERT_OP_MUSE, [])]).
Proof. split; vm_compute; reflexivity. Qed.

(** Three addresses below the prefix 1,1. *)
Definition address_11 (x : Z) : uint256 := Uint (17 :: x * 16 :: replicate 30 0).

(** A deletion that leaves a prefix node two or more children does not record
    the change of that node: when the change store already has an entry for it,
    the entry goes on listing the deleted child, whose own entry says it is to be
    removed from the database. *)
Theorem erase_leaves_stale_entry (v1 v2 v3 : V) :
  let a := address_11 1 in
  let b := address_11 2 in
  let c := address_11 3 in
  observe [OpInsert a v1; OpInsert b v2; OpInsert c v3; OpErase c; OpFind c] [b! "11"; get_hex c]
    = Ok ([Nothing; Nothing; Nothing; Truth true; Truth false],
          [Some (UPDATE_OP_MUSE, [get_hex a; get_hex b; get_hex c]); Some (DELETE_OP_MUSE, [])]).
Proof. vm_compute. reflexivity. Qed.
End Represents.

(** ** Witnesses *)
Section Witnesses.
Local Instance witness_digest : HashHandler := toy_HashHandler.
Local Instance witness_value : IGetHashSha3256 Z := uint256_fill.

Definition history : list (@mpt_op Z) :=
  [OpInsert (address_11 1) 5; OpInsert (address_11 2) 6; OpHash; OpUpdate (address_11 1) 7;
   OpInsert (address_11 3) 8; OpErase (address_11 3); OpSearch (address_11 1)].
Definition other_history : list (@mpt_op Z) :=
  [OpInsert (address_11 2) 6; OpInsert (address_11 1) 7].

Lemma address_11_wf x : 0 <= x < 16 -> uint256_wf (address_11 x).
Proof.
  intros Hx. split; [reflexivity|]. apply Forall_forall. intros b Hb. unfold byte_ok, is_uint.
  apply elem_of_cons in Hb as [->|Hb]; [lia|]. apply elem_of_cons in Hb as [->|Hb]; [lia|].
  change (b ∈ replicate 30 0) in Hb. apply elem_of_replicate in Hb as [-> _]. lia.
Defined.

Lemma history_wf : Forall op_wf history.
Proof. repeat (apply Forall_cons; split); try (apply address_11_wf; lia); constructor. Defined.

Lemma other_history_wf : Forall op_wf other_history.
Proof. repeat (apply Forall_cons; split); try (apply address_11_wf; lia); constructor. Defined.
End Witnesses.

Lemma mpt_simulates_map_witness :
  exists t, @run_ops Z witness_value witness_digest
    (@trie_new Z witness_value witness_digest) history
    = Ok ([Nothing; Nothing; Nothing; Value (Some 5); Nothing; Truth true; Value (Some 7)], t).
Proof.
  destruct (@mpt_simulates_map Z witness_value witness_digest history history_wf) as (t & E & _).
  exists t. rewrite E. vm_compute. reflexivity.
Defined.

Lemma mpt_root_hash_canonical_witness :
  exists t t' h u u',
    @run_ops Z witness_value witness_digest (@trie_new Z witness_value witness_digest) history = Ok t /\
    @run_ops Z witness_value witness_digest (@trie_new Z witness_value witness_digest) other_history = Ok t' /\
    @get_hash Z witness_value witness_digest t.2 = Ok (h, u) /\
    @get_hash Z witness_value witness_digest t'.2 = Ok (h, u').
Proof.
  destruct (@run_ops_represents Z witness_value witness_digest history _ _ represents_new history_wf)
    as (t & E & _).
  destruct (@run_ops_represents Z witness_value witness_digest other_history _ _ represents_new
    other_history_wf) as (t' & E' & _).
  destruct (@mpt_root_hash_canonical Z witness_value witness_digest history other_history t t' _ _
    history_wf other_history_wf E E') as (n & h & u & u' & _ & _ & H1 & H2); [vm_compute; reflexivity|].
  exists ((map_ops ∅ history).1, t), ((map_ops ∅ other_history).1, t'), h, u, u'.
  do 2 (split; [assumption|]). split; assumption.
Defined.
