(* ===== verification/AccountTrie.v ===== *)
(** * The account tree as the ledger uses it

    [connector_account] holds a [merkle_patricia_trie<account>].  The class
    [AccountTrie] is the set of operations the ledger calls, its laws say that the
    tree stands for a finite map from addresses to accounts, and the trie of
    [Mpt] is an instance. *)
From S2P Require Import Prelude Stream Uint256 Account MptNode Mpt MptLaws MptHash MptTheorems.

Class AccountTrie (T : Type) := {
  at_search : T -> uint256 -> res mpt_error (option account);
  at_find : T -> uint256 -> res mpt_error bool;
  at_search_and_mark : T -> uint256 -> res mpt_error (option account * T);
  (** an assignment through the pointer of [search] or [search_and_mark] *)
  at_write : T -> uint256 -> account -> res mpt_error T;
  at_insert : T -> uint256 -> account -> res mpt_error T;
  at_erase : T -> uint256 -> res mpt_error (bool * T);
  at_get_hash : T -> res mpt_error (uint256 * T);
  at_get_change_store : T -> res mpt_error (mpt_store * T);
  at_clear_change_store : T -> T;
}.

(** The tree stands for a map whose keys are addresses, and its root hash is a
    function of that map. *)
Class AccountTrieLaws (T : Type) `{AccountTrie T} := {
  at_map : T -> gmap uint256 account -> Prop;
  at_root : gmap uint256 account -> uint256;
  at_map_keys t M : at_map t M -> map_Forall (fun k _ => uint256_wf k) M;
  at_root_wf t M : at_map t M -> uint256_wf (at_root M);
  at_search_spec t M k : at_map t M -> uint256_wf k -> at_search t k = Ok (M !! k);
  at_find_spec t M k : at_map t M -> uint256_wf k ->
    at_find t k = Ok (bool_decide (is_Some (M !! k)));
  (** the path to the account is marked, so that its hashes are computed again *)
  at_marked : T -> uint256 -> Prop;
  at_mark_spec t M k : at_map t M -> uint256_wf k ->
    exists t', at_search_and_mark t k = Ok (M !! k, t') /\ at_map t' M
      /\ (is_Some (M !! k) -> at_marked t' k);
  at_write_spec t M k v : at_map t M -> uint256_wf k -> is_Some (M !! k) -> at_marked t k ->
    exists t', at_write t k v = Ok t' /\ at_map t' (<[k := v]> M) /\ at_marked t' k;
  at_insert_spec t M k v : at_map t M -> uint256_wf k -> M !! k = None ->
    exists t', at_insert t k v = Ok t' /\ at_map t' (<[k := v]> M);
  at_erase_spec t M k : at_map t M -> uint256_wf k ->
    exists t', at_erase t k = Ok (bool_decide (is_Some (M !! k)), t') /\ at_map t' (delete k M);
  at_get_hash_spec t M : at_map t M -> exists t', at_get_hash t = Ok (at_root M, t') /\ at_map t' M;
  at_change_store_spec t M : at_map t M ->
    exists s t', at_get_change_store t = Ok (s, t') /\ at_map t' M;
  at_clear_spec t M : at_map t M -> at_map (at_clear_change_store t) M;
}.

Section Instance.
Context {host : Host} `{HashHandler}.

#[export] Instance account_IGetHashSha3256 : IGetHashSha3256 account := account_get_hash.

#[export] Instance mpt_AccountTrie : AccountTrie (merkle_patricia_trie account) := {
  at_search := search;
  at_find := find;
  at_search_and_mark := search_and_mark;
  at_write := write_value;
  at_insert := insert;
  at_erase := erase;
  at_get_hash := get_hash;
  at_get_change_store := get_change_store;
  at_clear_change_store := clear_change_store;
}.

(** ** The laws *)
Abbreviation account_trie := (merkle_patricia_trie account).
Implicit Types (t : account_trie) (M : gmap uint256 account).

Definition mpt_map t M : Prop := represents t M /\ map_Forall (fun k _ => uint256_wf k) M.

(** The root hash of the trie that a map is put into, entry by entry. *)
Definition insertions (l : list (uint256 * account)) : list (@mpt_op account) :=
  map (fun kv => OpInsert kv.1 kv.2) l.
Definition mpt_root M : uint256 :=
  match run_ops trie_new (insertions (map_to_list M)) with
  | Ok (_, t) => match get_hash t with Ok (h, _) => h | Err _ => uint256_zero end
  | Err _ => uint256_zero
  end.

Lemma map_ops_insertions l M : NoDup l.*1 -> (forall k, k ∈ l.*1 -> M !! k = None) ->
  (map_ops M (insertions l)).2 = list_to_map l ∪ M.
Proof.
  revert M. induction l as [|[k a] l IH]; intros M Hd Hn; cbn.
  { by rewrite (left_id_L ∅ (∪)). }
  apply NoDup_cons in Hd as [Hk Hd]. unfold map_insert_new. rewrite Hn by left.
  rewrite IH; [| done |].
  - rewrite <-insert_union_l, insert_union_r; [done|]. by apply not_elem_of_list_to_map.
  - intros k' Hk'. rewrite lookup_insert_ne by (intros ->; by apply Hk). apply Hn. by right.
Qed.

Lemma mpt_root_spec t M : mpt_map t M -> exists t', get_hash t = Ok (mpt_root M, t') /\ mpt_map t' M.
Proof.
  intros [Ht Hk]. destruct (represents_hash t M Ht) as (_ & h & t' & _ & E & _ & Ht').
  exists t'. split; [|done].
  destruct (run_ops_represents (insertions (map_to_list M)) trie_new ∅ represents_new) as (u & Eu & Hu).
  { apply Forall_map, Forall_forall. intros [k a] Hin%elem_of_map_to_list. by apply (Hk k a). }
  rewrite map_ops_insertions, list_to_map_to_list, (right_id_L ∅ (∪)) in Hu;
    [| apply NoDup_fst_map_to_list | intros; apply lookup_empty].
  unfold mpt_root. rewrite Eu.
  destruct (represents_same_hash t u M Ht Hu) as (n & h1 & u1 & u2 & _ & _ & E1 & ->). congruence.
Qed.

Lemma mpt_root_wf t M : mpt_map t M -> uint256_wf (mpt_root M).
Proof.
  intros Ht. destruct (mpt_root_spec t M Ht) as (t' & E & _). destruct Ht as [Hr _].
  destruct (represents_hash t M Hr) as (n & h & u & En & E' & -> & _). rewrite E' in E. injection E as <- _.
  destruct Hr as [(n' & En' & Hn') _]. rewrite En in En'. injection En' as <-.
  destruct Hn' as [Hn' _]. apply node_ok_pos in Hn' as (m & c & ->); [|apply key_length]. apply hash_bytes_wf.
Qed.

#[export] Instance mpt_AccountTrieLaws : AccountTrieLaws account_trie.
Proof.
  refine {| at_map := mpt_map; at_root := mpt_root; at_marked := writable |}; cbn; try by intros t M [].
  - apply mpt_root_wf.
  - intros t M k [[Ht _] _] Hk. by apply contents_search.
  - intros t M k [[Ht _] _] Hk. by apply contents_find.
  - intros t M k [[Ht Hh] HM] Hk. destruct (contents_mark t M k Ht Hk) as (t' & E & Ht').
    destruct (mark_hashes _ _ _ _ E Hh) as [Hh' Hw]. exists t'. split; [done|]. split; [by split; [split|]|].
    intros Hs v t2. by apply Hw.
  - intros t M k v [[Ht Hh] HM] Hk Hs Hw. destruct (contents_write t M k v Ht Hk) as (t' & E & Ht').
    exists t'. split; [done|]. split; [|by eapply writable_write]. split; [split; [auto|by eapply Hw]|].
    by apply map_Forall_insert_2.
  - intros t M k v [[Ht Hh] HM] Hk Hn. destruct (contents_insert t M k v Ht Hk) as (t' & E & Ht').
    exists t'. split; [done|]. unfold map_insert_new in Ht'. rewrite Hn in Ht'. split.
    + split; [done|]. by eapply insert_hashes.
    + by apply map_Forall_insert_2.
  - intros t M k [[Ht Hh] HM] Hk. destruct (contents_erase t M k Ht Hk) as (t' & E & Ht').
    exists t'. split; [done|]. split; [|by apply map_Forall_delete].
    split; [done|]. by eapply erase_hashes.
  - apply mpt_root_spec.
  - intros t M Ht. unfold get_change_store. destruct (mpt_root_spec t M Ht) as (t' & -> & Ht').
    cbn [mbind res_bind snd]. eauto.
Defined.
End Instance.
