(* ===== verification/Ledger.v ===== *)
(** * The ledger: [connector_account.cpp], [rollback_operation.hpp]

    What [connector_account] does to the account tree, through the interface of
    [AccountTrie].  The operations run in the monad of [Effects].  A pointer to an
    account is the address of the account: reading or writing through it looks the
    account up again, so that two pointers to one account are the same account. *)
From S2P Require Import Prelude Stream Uint256 Account Transaction Block BloomFilter MptNode Mpt AccountTrie Effects.

(** ** Data *)
Definition EPOCH_TIME_UINT : Z := 300000.
Definition ASSET_MAX_COUNT : Z := 68719476736.

Inductive rollback_type := INSERT | DELETE_ACCOUNT | UPDATE | ONLY_REDUCE_NONCE.
(** [UPDATE_NONE] is a value that is none of the others: the zero of [{}], or what an
    uninitialised field holds; it is not read. *)
Inductive rollback_update_type := UPDATE_NONE | UPDATE_ADD | UPDATE_REDUCE | UPDATE_DELETE_ASSET.

Record rollback_operation := {
  rb_type : rollback_type;
  rb_asset_type : Z;
  target_address : uint256;
  rb_update_type : rollback_update_type;
  rb_value : Z;
}.

Section Ledger.
Context {host : Host} `{HashHandler} {T : Type} `{AccountTrie T}.

(** What [insert_block] works on: the tree, the rollback operations, the copy of
    the asset filter and the accounts to commit. *)
Record work := Work {
  tree : T;
  storage : list rollback_operation;
  test_filter : bloom_filter;
  commit_accounts : gset uint256;
}.

(** ** Calls on the tree *)

(** A trie that was moved from throws [std::runtime_error]; the other two errors
    are undefined behaviour. *)
Definition trie_call {A} (f : T -> res mpt_error (A * T)) : M work A := fun w =>
  match f (tree w) with
  | Ok (a, t) => Ret a (Work t (storage w) (test_filter w) (commit_accounts w))
  | Err MovedFrom => Throw StdException w
  | Err _ => Undefined
  end.

Definition mpt_search (k : uint256) : M work (option account) :=
  trie_call (fun t => a ← at_search t k; Ok (a, t)).
Definition mpt_find (k : uint256) : M work bool :=
  trie_call (fun t => b ← at_find t k; Ok (b, t)).
Definition mpt_search_and_mark (k : uint256) : M work (option account) :=
  trie_call (fun t => at_search_and_mark t k).
Definition mpt_insert (k : uint256) (a : account) : M work unit :=
  trie_call (fun t => t ← at_insert t k a; Ok (tt, t)).
Definition mpt_erase (k : uint256) : M work bool := trie_call (fun t => at_erase t k).
Definition mpt_get_hash : M work uint256 := trie_call at_get_hash.

(** [*ptr] and an assignment to [*ptr]. *)
Definition deref (k : uint256) : M work account :=
  a ← mpt_search k; match a with Some a => mret a | None => undefined end.
Definition assign (k : uint256) (a : account) : M work unit :=
  trie_call (fun t => t ← at_write t k a; Ok (tt, t)).
(** A member function of the account. *)
Definition call (k : uint256) (f : account -> account) : M work unit :=
  a ← deref k; assign k (f a).
Definition call_reduce_balance (k : uint256) (asset_type count : Z) : M work unit :=
  a ← deref k;
  match reduce_balance a asset_type count with
  | Ok a => assign k a
  | Err ReduceBalanceError => throw StdException
  end.
Definition call_add_balance (k : uint256) (asset_type count : Z) : M work unit :=
  call k (fun a => add_balance a asset_type count).
Definition call_set_balance (k : uint256) (asset_type count : Z) : M work unit :=
  call k (fun a => set_balance a asset_type count).
Definition call_set_nonce (k : uint256) (n : Z) : M work unit :=
  call k (fun a => Account.set_nonce a n).
(** [_act->set_nonce(_act->get_nonce() - 1)] *)
Definition call_decrement_nonce (k : uint256) : M work unit :=
  call k (fun a => Account.set_nonce a (u64 (nonce a - 1))).

Definition push_back (op : rollback_operation) : M work unit :=
  modify_state (fun w => Work (tree w) (storage w ++ [op]) (test_filter w) (commit_accounts w)).
Definition pop_back : M work unit :=
  modify_state (fun w => Work (tree w) (removelast (storage w)) (test_filter w) (commit_accounts w)).
Definition emplace (k : uint256) : M work unit :=
  modify_state (fun w => Work (tree w) (storage w) (test_filter w) ({[k]} ∪ commit_accounts w)).
Definition filter_test (asset_type : Z) : M work bool := fun w => Ret (test (test_filter w) asset_type) w.
Definition filter_insert (asset_type : Z) : M work unit :=
  modify_state (fun w => Work (tree w) (storage w) (BloomFilter.insert (test_filter w) asset_type).2
                           (commit_accounts w)).

(** ** Rollback operations *)

Definition receiver_rollback (trans : transaction) (out : out_entry) : M work unit :=
  found ← mpt_find (receiver out);
  push_back
    (if found : bool
     then {| rb_type := UPDATE; rb_asset_type := get_asset_type trans; target_address := receiver out;
             rb_update_type := UPDATE_REDUCE; rb_value := out_count out |}
     else {| rb_type := DELETE_ACCOUNT; rb_asset_type := get_asset_type trans;
             target_address := receiver out; rb_update_type := UPDATE_NONE; rb_value := out_count out |}).

(** The transaction overload of [append_created_rollback]. *)
Definition append_created_rollback (trans : transaction) : M work unit :=
  match get_transaction_operator trans with
  | Append =>
      push_back {| rb_type := UPDATE; rb_asset_type := get_asset_type trans;
                   target_address := get_sender trans; rb_update_type := UPDATE_ADD;
                   rb_value := get_count trans |} ;;
      for_each (receiver_rollback trans) (outs trans)
  | Establish =>
      found ← mpt_find (get_sender trans);
      push_back {| rb_type := if found : bool then UPDATE else DELETE_ACCOUNT;
                   rb_asset_type := get_asset_type trans; target_address := get_sender trans;
                   rb_update_type := if found then UPDATE_DELETE_ASSET else UPDATE_NONE;
                   rb_value := get_count trans |}
  | NullOP => mret tt
  end.

(** The affair overload. *)
Definition append_created_rollback_affair (afi : affair) : M work unit :=
  act ← mpt_search (owner afi);
  push_back {| rb_type := match act with None => DELETE_ACCOUNT | Some _ => ONLY_REDUCE_NONCE end;
               rb_asset_type := 0; target_address := owner afi; rb_update_type := UPDATE_NONE;
               rb_value := 0 |}.

Definition execute_operation (otp : rollback_operation) : M work unit :=
  match rb_type otp with
  | INSERT => mret tt
  | DELETE_ACCOUNT => mpt_erase (target_address otp) ;; mret tt
  | UPDATE =>
      _act ← mpt_search_and_mark (target_address otp);
      match _act with
      | None => mret tt
      | Some _ =>
          match rb_update_type otp with
          | UPDATE_NONE => mret tt
          | UPDATE_ADD =>
              call_add_balance (target_address otp) (rb_asset_type otp) (rb_value otp) ;;
              call_decrement_nonce (target_address otp)
          | UPDATE_DELETE_ASSET =>
              call (target_address otp) (fun a => delete_asset a (rb_asset_type otp)) ;;
              call_decrement_nonce (target_address otp)
          | UPDATE_REDUCE =>
              call_reduce_balance (target_address otp) (rb_asset_type otp) (rb_value otp)
          end
      end
  | ONLY_REDUCE_NONCE =>
      _act ← mpt_search_and_mark (target_address otp);
      match _act with
      | None => mret tt
      | Some _ => call_decrement_nonce (target_address otp)
      end
  end.

Definition execute_rollback (rtp : list rollback_operation) : M work unit :=
  for_each execute_operation rtp.

(** ** Checking a block *)
Abbreviation receipts_map := (gmap uint256 receipt).

Definition push_nonce (r : receipt) (n : Z) : receipt :=
  {| nonce_start := nonce_start r; receipt_balances := receipt_balances r;
     receipt_nonce := receipt_nonce r ++ [n] |}.
Definition set_entry (r : receipt) (asset_type : Z) (e : Z * Z) : receipt :=
  {| nonce_start := nonce_start r; receipt_balances := <[asset_type := e]> (receipt_balances r);
     receipt_nonce := receipt_nonce r |}.
(** [second += count] *)
Definition add_spent (e : Z * Z) (count : Z) : Z * Z := (e.1, u64 (e.2 + count)).

Definition outs_count (tsc : transaction) : Z :=
  foldl (fun c o => u64 (c + out_count o)) 0 (outs tsc).

(** One transaction of the first loop: [None] is [return false]. *)
Definition check_block_transaction (mpt : T) (receipts : receipts_map) (asset_filter : bloom_filter)
    (tsc : transaction) : res mpt_error (option (receipts_map * bloom_filter)) :=
  let sender := get_sender tsc in
  let asset_type := get_asset_type tsc in
  _account ← at_search mpt sender;
  match get_transaction_operator tsc with
  | Append =>
      match _account with
      | None =>
          Ok (rcp ← receipts !! sender;
              e ← receipt_balances rcp !! asset_type;
              Some (<[sender := set_entry (push_nonce rcp (get_nonce tsc)) asset_type
                                  (add_spent e (get_count tsc))]> receipts, asset_filter))
      | Some _account =>
          if negb (outs_count tsc =? get_count tsc) then Ok None
          else
            let rcp :=
              match receipts !! sender with
              | None =>
                  {| nonce_start := nonce _account;
                     receipt_balances := {[asset_type := (get_balance _account asset_type, get_count tsc)]};
                     receipt_nonce := [get_nonce tsc] |}
              | Some rcp =>
                  match receipt_balances rcp !! asset_type with
                  | None => set_entry (push_nonce rcp (get_nonce tsc)) asset_type
                              (get_balance _account asset_type, get_count tsc)
                  | Some e => set_entry (push_nonce rcp (get_nonce tsc)) asset_type
                                (add_spent e (get_count tsc))
                  end
              end in
            Ok (Some (<[sender := rcp]> receipts, asset_filter))
      end
  | Establish =>
      if test asset_filter asset_type then Ok None
      else
        let rcp :=
          match receipts !! sender with
          | None =>
              {| nonce_start := match _account with None => 0 | Some a => nonce a end;
                 receipt_balances := {[asset_type := (ASSET_MAX_COUNT, 0)]};
                 receipt_nonce := [get_nonce tsc] |}
          | Some rcp =>
              let e := default (0, 0) (receipt_balances rcp !! asset_type) in
              set_entry (push_nonce rcp (get_nonce tsc)) asset_type (u64 (e.1 + ASSET_MAX_COUNT), e.2)
          end in
        Ok (Some (<[sender := rcp]> receipts, (BloomFilter.insert asset_filter asset_type).2))
  | NullOP => Ok None
  end.

Fixpoint check_transactions (mpt : T) (receipts : receipts_map) (asset_filter : bloom_filter)
    (l : list transaction) : res mpt_error (option (receipts_map * bloom_filter)) :=
  match l with
  | [] => Ok (Some (receipts, asset_filter))
  | tsc :: l =>
      r ← check_block_transaction mpt receipts asset_filter tsc;
      match r with
      | None => Ok None
      | Some (receipts, asset_filter) => check_transactions mpt receipts asset_filter l
      end
  end.

(** The second loop. *)
Fixpoint check_affairs (mpt : T) (receipts : receipts_map) (l : list affair)
    : res mpt_error receipts_map :=
  match l with
  | [] => Ok receipts
  | air :: l =>
      if negb (is_db_level_affair_type air) then check_affairs mpt receipts l
      else
        _account ← at_search mpt (owner air);
        let rcp :=
          match receipts !! owner air with
          | None => {| nonce_start := match _account with None => 0 | Some a => nonce a end;
                       receipt_balances := ∅; receipt_nonce := [affair_nonce air] |}
          | Some rcp => push_nonce rcp (affair_nonce air)
          end in
        check_affairs mpt (<[owner air := rcp]> receipts) l
  end.

Definition check_block_body (mpt : T) (asset_bloom_filter : bloom_filter) (blk : block)
    : res mpt_error bool :=
  r ← check_transactions mpt ∅ asset_bloom_filter (transactions (body blk));
  match r with
  | None => Ok false
  | Some (receipts, _) =>
      receipts ← check_affairs mpt receipts (affairs (body blk));
      Ok (forallb (fun kv : uint256 * receipt => (check kv.2).1) (map_to_list receipts))
  end.

(** ** Inserting a block *)

(** One output of an [Append]: the entry of [exists]. *)
Definition pay_receiver (asset_type : Z) (out : out_entry) : M work (bool * bool) :=
  rcv ← mpt_search_and_mark (receiver out);
  emplace (receiver out) ;;
  match rcv with
  | None =>
      try_catch
        (let act := account_make (receiver out) 0 in
         let act := add_balance act asset_type (out_count out) in
         mpt_insert (receiver out) act ;; mret (false, true))
        (fun _ => mpt_erase (receiver out) ;; throw (ChainDb atomic_operation_failed))
  | Some _ =>
      try_catch
        (call_add_balance (receiver out) asset_type (out_count out) ;; mret (true, true))
        (fun _ => call_reduce_balance (receiver out) asset_type (out_count out) ;;
                  throw (ChainDb atomic_operation_failed))
  end.

(** The loop over the outputs: the entries of [exists] before [start], and what was
    thrown at [start]. *)
Fixpoint pay_loop (asset_type : Z) (l : list out_entry) (exists_ : list (bool * bool))
    : M work (list (bool * bool) * option exn) :=
  match l with
  | [] => mret (exists_, None)
  | out :: l =>
      r ← attempt (pay_receiver asset_type out);
      match r with
      | inl e => mret (exists_, Some e)
      | inr entry => pay_loop asset_type l (exists_ ++ [entry])
      end
  end.

(** One step of the loop in the [catch]. *)
Definition undo_receiver (asset_type : Z) (x : (bool * bool) * out_entry) : M work unit :=
  let '((existed, finish), out) := x in
  if finish : bool then
    if existed : bool then
      rcv ← mpt_search_and_mark (receiver out);
      call_reduce_balance (receiver out) asset_type (out_count out)
    else mpt_erase (receiver out) ;; mret tt
  else mret tt.

Definition append_failed (tsc : transaction) (original_nonce original_balance : Z)
    (exists_ : list (bool * bool)) : M work unit :=
  for_each (undo_receiver (get_asset_type tsc)) (zip exists_ (outs tsc)) ;;
  call_set_nonce (get_sender tsc) original_nonce ;;
  call_set_balance (get_sender tsc) (get_asset_type tsc) original_balance ;;
  throw (ChainDb atomic_operation_failed).

(** The case [Append]. *)
Definition insert_append (tsc : transaction) (_account : option account) : M work unit :=
  match _account with
  | None => throw (ChainDb account_no_exist)
  | Some _account =>
      let original_nonce := nonce _account in
      let original_balance := get_balance _account (get_asset_type tsc) in
      r ← attempt (call_set_nonce (get_sender tsc) (u64 (get_nonce tsc + 1)) ;;
                   call_reduce_balance (get_sender tsc) (get_asset_type tsc) (get_count tsc));
      match r with
      | inl _ => append_failed tsc original_nonce original_balance []
      | inr _ =>
          r ← pay_loop (get_asset_type tsc) (outs tsc) [];
          match r with
          | (exists_, Some _) => append_failed tsc original_nonce original_balance exists_
          | (_, None) => emplace (get_sender tsc)
          end
      end
  end.

(** The case [Establish]. *)
Definition insert_establish (tsc : transaction) (_account : option account) : M work unit :=
  found ← filter_test (get_asset_type tsc);
  if negb found then
    filter_insert (get_asset_type tsc) ;;
    match _account with
    | None =>
        let act := account_make (get_sender tsc) 1 in
        let act := add_balance act (get_asset_type tsc) ASSET_MAX_COUNT in
        try_catch (mpt_insert (get_sender tsc) act)
          (fun _ => mpt_erase (get_sender tsc) ;; pop_back ;;
                    throw (ChainDb atomic_operation_failed))
    | Some _ => call_add_balance (get_sender tsc) (get_asset_type tsc) ASSET_MAX_COUNT
    end ;;
    emplace (get_sender tsc)
  else pop_back ;; throw (ChainDb asset_already_exist).

Definition insert_transaction (tsc : transaction) : M work unit :=
  append_created_rollback tsc ;;
  _account ← mpt_search_and_mark (get_sender tsc);
  match get_transaction_operator tsc with
  | Append => insert_append tsc _account
  | Establish => insert_establish tsc _account
  | NullOP => mret tt
  end.

Definition insert_affair (air : affair) : M work unit :=
  if negb (is_db_level_affair_type air) then mret tt
  else
    append_created_rollback_affair air ;;
    _account ← mpt_search_and_mark (owner air);
    match _account with
    | None =>
        try_catch (mpt_insert (owner air) (account_make (owner air) 1))
          (fun _ => mpt_erase (owner air) ;; throw (ChainDb asset_already_exist))
    | Some _ => call (owner air) (fun a => Account.set_nonce a (u64 (nonce a + 1)))
    end ;;
    emplace (owner air).

(** The accounts that are to be written, each serialised under its key. *)
Fixpoint collect_commits (l : list uint256) (commits : gmap uint256 account)
    : M work (gmap uint256 account) :=
  match l with
  | [] => mret commits
  | k :: l =>
      _act_ ← mpt_search k;
      match _act_ with
      | None => throw (ChainDb invalid_account_address)
      | Some a => collect_commits l (<[k := a]> commits)
      end
  end.

(** The body of the [try] of [insert_block]. *)
Definition insert_block_content (blk : block) (check : bool) : M work (gmap uint256 account) :=
  for_each insert_transaction (transactions (body blk)) ;;
  for_each insert_affair (affairs (body blk)) ;;
  (if check then
     root_hash ← mpt_get_hash;
     if uint256_neqb root_hash (merkle_patricia_trie_root (header blk))
     then throw (ChainDb invalid_patricia_merkle_tree_root_hash) else mret tt
   else mret tt) ;;
  w ← get_state;
  collect_commits (elements (commit_accounts w)) ∅.

(** [leveldb_account_commit] *)
Record account_commit := {
  commit_block_hash : uint256;
  commit_height : Z;
  prev_mpt_root : uint256;
  commit_values : gmap uint256 account;
}.

Record connector_account := Connector {
  account_mpt : T;
  asset_bloom_filter : bloom_filter;
  merkle_patricia_trie_root_hash : uint256;
  ledger_height : Z;
  ledger_top_block_hash : uint256;
  account_bloom_filters : list bloom_filter;
  commits : list account_commit;
  rollbacks : list (list rollback_operation);
  extensions : list mpt_store;
}.

Definition with_mpt (c : connector_account) (t : T) : connector_account :=
  Connector t (asset_bloom_filter c) (merkle_patricia_trie_root_hash c) (ledger_height c)
    (ledger_top_block_hash c) (account_bloom_filters c) (commits c) (rollbacks c) (extensions c).

(** A call on [account_mpt] outside [insert_block]'s [try]. *)
Definition ledger_call {A} (f : T -> res mpt_error (A * T)) : M connector_account A := fun c =>
  match f (account_mpt c) with
  | Ok (a, t) => Ret a (with_mpt c t)
  | Err MovedFrom => Throw StdException c
  | Err _ => Undefined
  end.

(** [execute_rollback] outside of [insert_block]'s [try]. *)
Definition ledger_rollback (rtp : list rollback_operation) : M connector_account unit := fun c =>
  match execute_rollback rtp (Work (account_mpt c) [] (asset_bloom_filter c) ∅) with
  | Ret a w => Ret a (with_mpt c (tree w))
  | Throw e w => Throw e (with_mpt c (tree w))
  | Undefined => Undefined
  end.

(** After the [try]: everything that was prepared is stored. *)
Definition insert_block_finish (blk : block) (w : work) (values : gmap uint256 account)
    : M connector_account bool :=
  c ← get_state;
  let level_commit := {| commit_block_hash := ledger_top_block_hash c;
                         commit_height := ledger_height c;
                         prev_mpt_root := merkle_patricia_trie_root_hash c;
                         commit_values := values |} in
  modify_state (fun c => Connector (tree w) (asset_bloom_filter c) (merkle_patricia_trie_root_hash c)
    (ledger_height c) (ledger_top_block_hash c) (account_bloom_filters c)
    (commits c ++ [level_commit]) (rollbacks c ++ [storage w]) (extensions c)) ;;
  h ← ledger_call at_get_hash;
  let top := get_block_hash (header blk) in
  let filter := set_block_hash (test_filter w) top in
  modify_state (fun c => Connector (account_mpt c) filter h (height (header blk)) top
    (account_bloom_filters c ++ [filter]) (commits c) (rollbacks c) (extensions c)) ;;
  mret true.

Definition insert_block (blk : block) (check : bool) : M connector_account bool :=
  c ← get_state;
  ok ← ledger_call (fun t => b ← check_block_body t (asset_bloom_filter c) blk; Ok (b, t));
  if negb ok then mret false
  else if negb (height (header blk) =? u64 (ledger_height c + 1))
          || uint256_neqb (prev_block_hash (header blk)) (ledger_top_block_hash c)
  then mret false
  else
    c ← get_state;
    let filter := set_block_height (asset_bloom_filter c) (height (header blk)) in
    match insert_block_content blk check (Work (account_mpt c) [] filter ∅) with
    | Ret values w => insert_block_finish blk w values
    | Throw e w =>
        modify_state (fun c => with_mpt c (tree w)) ;;
        ledger_rollback (storage w) ;;
        match e with
        | ChainDb code => throw (ChainDb code)
        | StdException => mret false
        end
    | Undefined => undefined
    end.

(** ** Undoing blocks *)
Fixpoint rollback_loop (step : nat) : M connector_account unit :=
  match step with
  | O => mret tt
  | S step =>
      c ← get_state;
      match last (rollbacks c) with
      | None => undefined                (* [back()] of an empty list *)
      | Some operations =>
          ledger_rollback operations ;;
          modify_state (fun c => Connector (account_mpt c) (asset_bloom_filter c)
            (merkle_patricia_trie_root_hash c) (ledger_height c) (ledger_top_block_hash c)
            (account_bloom_filters c) (commits c) (removelast (rollbacks c)) (extensions c)) ;;
          rollback_loop step
      end
  end.

Definition set_root_hash (h : uint256) : M connector_account unit :=
  modify_state (fun c => Connector (account_mpt c) (asset_bloom_filter c) h (ledger_height c)
    (ledger_top_block_hash c) (account_bloom_filters c) (commits c) (rollbacks c) (extensions c)).

Definition rollback (step : Z) : M connector_account bool :=
  c ← get_state;
  if Z.of_nat (length (rollbacks c)) <=? step then
    rollback_loop (Z.to_nat step) ;;
    h ← ledger_call at_get_hash;
    set_root_hash h ;;
    _ ← ledger_call at_get_change_store;
    modify_state (fun c => with_mpt c (at_clear_change_store (account_mpt c))) ;;
    mret true
  else mret false.

Definition total_rollback : M connector_account bool :=
  result ← rollback 1;
  if result : bool then
    h ← ledger_call at_get_hash;
    set_root_hash h ;;
    c ← get_state;
    match commits c with
    | [] => undefined                    (* [front()] of an empty list *)
    | commit :: _ =>
        if uint256_neqb (merkle_patricia_trie_root_hash c) (prev_mpt_root commit)
        then throw (ChainDb root_hash_of_the_MPT_cannot_be_restored)
        else
          match extensions c, last (account_bloom_filters c) with
          | _ :: _, Some filter =>
              modify_state (fun c => Connector (account_mpt c) filter
                (merkle_patricia_trie_root_hash c) (u64 (ledger_height c - 1))
                (commit_block_hash commit) (removelast (account_bloom_filters c))
                (removelast (commits c)) (rollbacks c) (removelast (extensions c))) ;;
              mret true
          | _, _ => undefined            (* [pop_back()] or [back()] of an empty list *)
          end
    end
  else mret false.

(** ** Packaging and single checks *)

(** [noexcept]: every exception is caught; the block gets its root hash. *)
Definition package_next_block_MPTR (blk : block) : M connector_account (bool * option uint256) :=
  c ← get_state;
  if uint256_eqb (prev_block_hash (header blk)) (ledger_top_block_hash c) then
    try_catch
      (res ← insert_block blk false;
       if res : bool then
         h ← ledger_call at_get_hash;
         ee_tp ← ledger_call at_get_change_store;
         modify_state (fun c => Connector (at_clear_change_store (account_mpt c)) (asset_bloom_filter c)
           (merkle_patricia_trie_root_hash c) (ledger_height c) (ledger_top_block_hash c)
           (account_bloom_filters c) (commits c) (rollbacks c) (extensions c ++ [ee_tp])) ;;
         mret (true, Some h)
       else mret (false, None))
      (fun _ => mret (false, None))
  else mret (false, None).

(** [now] is [environment_db::get_now_tick().count()]. *)
Definition check_transaction (now : Z) (tsc : transaction) : M connector_account bool :=
  c ← get_state;
  match get_transaction_operator tsc with
  | Establish =>
      if negb (test (asset_bloom_filter c) (get_asset_type tsc)) then mret false
      else match outs tsc with [] => mret true | _ => mret false end
  | Append =>
      if negb (outs_count tsc =? get_count tsc) then mret false
      else
        sender ← ledger_call (fun t => a ← at_search t (get_sender tsc); Ok (a, t));
        match sender with
        | None => mret false
        | Some sender =>
            if get_balance sender (get_asset_type tsc) <? get_count tsc then mret false
            else if nonce sender <=? get_nonce tsc then mret false
            else
              let expire := u64 (get_create_time tsc + get_expired_epoch tsc * EPOCH_TIME_UINT) in
              if expire <? now then mret false else mret true
        end
  | NullOP => mret false
  end.

Definition check_affair (afi : affair) : M connector_account bool :=
  o ← ledger_call (fun t => a ← at_search t (owner afi); Ok (a, t));
  match o with
  | None => mret true
  | Some o => mret (nonce o <? affair_nonce afi)
  end.

Definition exists_account (k : uint256) : M connector_account bool :=
  ledger_call (fun t => b ← at_find t k; Ok (b, t)).
Definition find_account (k : uint256) : M connector_account (option account) :=
  ledger_call (fun t => a ← at_search t k; Ok (a, t)).
End Ledger.

(** ** Making and moving a ledger

    The constructors without a database, and the two moves, over the trie of the program.
    The assignment forgets three members. *)
Section Moves.
Context {host : Host} `{HashHandler}.
Abbreviation ledger := (@connector_account (merkle_patricia_trie account)).

Definition connector_account_new : ledger :=
  Connector trie_new bloom_filter_new uint256_zero 0 uint256_zero [] [] [] [].

(** The new ledger, and what is left of the other: its trie has no root, its lists are
    empty, and the filter is copied. *)
Definition connector_move (other : ledger) : ledger * ledger :=
  let '(t, t') := trie_move (account_mpt other) in
  (Connector t (asset_bloom_filter other) (merkle_patricia_trie_root_hash other) (ledger_height other)
     (ledger_top_block_hash other) (account_bloom_filters other) (commits other) (rollbacks other) (extensions other),
   Connector t' (asset_bloom_filter other) (merkle_patricia_trie_root_hash other) (ledger_height other)
     (ledger_top_block_hash other) [] [] [] []).

(** The filters are swapped; [rollbacks], [extensions] and the databases stay. *)
Definition connector_move_assign (this other : ledger) : ledger * ledger :=
  let '(t, t') := trie_move_assign (account_mpt this) (account_mpt other) in
  (Connector t (asset_bloom_filter other) (merkle_patricia_trie_root_hash other) (ledger_height other)
     (ledger_top_block_hash other) (account_bloom_filters other) (commits other) (rollbacks this) (extensions this),
   Connector t' (asset_bloom_filter this) (merkle_patricia_trie_root_hash other) (ledger_height other)
     (ledger_top_block_hash other) [] [] (rollbacks other) (extensions other)).

(** Whatever ledger a new one is assigned from, its last block cannot be undone: the
    operations that undo it stayed behind, and [rollback] takes the last of an empty list. *)
Theorem assigned_ledger_cannot_undo other step : 0 < step ->
  rollback step (connector_move_assign connector_account_new other).1 = Undefined.
Proof.
  intros Hs. unfold rollback. cbn [connector_move_assign trie_move_assign fst rollbacks connector_account_new length Z.of_nat].
  rewrite run_bind with (a := (connector_move_assign connector_account_new other).1)
    (s' := (connector_move_assign connector_account_new other).1) by reflexivity.
  cbn [connector_move_assign trie_move_assign fst rollbacks connector_account_new length].
  rewrite (proj2 (Z.leb_le _ _)) by lia. destruct (Z.to_nat step) as [|n] eqn:E; [lia|]. reflexivity.
Qed.

(** A ledger that was moved from answers nothing. *)
Lemma moved_ledger_throws other k : exists_account k (connector_move other).2 = Throw StdException (connector_move other).2.
Proof. reflexivity. Qed.
End Moves.
