(* ===== verification/LedgerLaws.v ===== *)
(** * The ledger on finite maps

    What each step of [insert_block] and of a rollback does, as functions on the
    map from addresses to accounts, and the proof that the steps do it through the
    interface of the account tree, without undefined behaviour. *)
From S2P Require Import Prelude Stream Uint256 Account Transaction Block BloomFilter MptNode Mpt.
From S2P Require Import AccountTrie Effects Ledger.

Abbreviation accounts := (gmap uint256 account).

(** ** Specification *)
Section Spec.
Context {host : Host}.

(** An output credited to its receiver, who may be new. *)
Definition credit (asset_type : Z) (M : accounts) (out : out_entry) : accounts :=
  <[receiver out := add_balance (default (account_make (receiver out) 0) (M !! receiver out))
                      asset_type (out_count out)]> M.

(** The sender of an [Append]. *)
Definition debit (tsc : transaction) (a : account) : res account_error account :=
  reduce_balance (Account.set_nonce a (u64 (get_nonce tsc + 1))) (get_asset_type tsc) (get_count tsc).

Definition established (tsc : transaction) (o : option account) : account :=
  add_balance (default (account_make (get_sender tsc) 1) o) (get_asset_type tsc) ASSET_MAX_COUNT.

(** What is left when a transaction throws. *)
Inductive step := Done (M : accounts) | Failed (e : exn) (M : accounts).

Definition apply_transaction (M : accounts) (tsc : transaction) : step :=
  match get_transaction_operator tsc with
  | Append =>
      match M !! get_sender tsc with
      | None => Failed (ChainDb account_no_exist) M
      | Some a =>
          match debit tsc a with
          | Ok a' => Done (foldl (credit (get_asset_type tsc)) (<[get_sender tsc := a']> M) (outs tsc))
          | Err _ =>
              Failed (ChainDb atomic_operation_failed)
                (<[get_sender tsc :=
                     set_balance (Account.set_nonce a (nonce a)) (get_asset_type tsc)
                       (get_balance a (get_asset_type tsc))]> M)
          end
      end
  | Establish => Done (<[get_sender tsc := established tsc (M !! get_sender tsc)]> M)
  | NullOP => Done M
  end.

Definition apply_affair (M : accounts) (air : affair) : accounts :=
  if negb (is_db_level_affair_type air) then M
  else <[owner air := match M !! owner air with
                      | None => account_make (owner air) 1
                      | Some a => Account.set_nonce a (u64 (nonce a + 1))
                      end]> M.

(** The rollback operations of a transaction that meets the accounts [M]. *)
Definition receiver_operation (M : accounts) (tsc : transaction) (out : out_entry) : rollback_operation :=
  if bool_decide (is_Some (M !! receiver out))
  then {| rb_type := UPDATE; rb_asset_type := get_asset_type tsc; target_address := receiver out;
          rb_update_type := UPDATE_REDUCE; rb_value := out_count out |}
  else {| rb_type := DELETE_ACCOUNT; rb_asset_type := get_asset_type tsc;
          target_address := receiver out; rb_update_type := UPDATE_NONE; rb_value := out_count out |}.

Definition transaction_operations (M : accounts) (tsc : transaction) : list rollback_operation :=
  match get_transaction_operator tsc with
  | Append =>
      {| rb_type := UPDATE; rb_asset_type := get_asset_type tsc; target_address := get_sender tsc;
         rb_update_type := UPDATE_ADD; rb_value := get_count tsc |}
      :: map (receiver_operation M tsc) (outs tsc)
  | Establish =>
      [{| rb_type := if bool_decide (is_Some (M !! get_sender tsc)) then UPDATE else DELETE_ACCOUNT;
          rb_asset_type := get_asset_type tsc; target_address := get_sender tsc;
          rb_update_type := if bool_decide (is_Some (M !! get_sender tsc)) then UPDATE_DELETE_ASSET else UPDATE_NONE;
          rb_value := get_count tsc |}]
  | NullOP => []
  end.

Definition affair_operations (M : accounts) (air : affair) : list rollback_operation :=
  if negb (is_db_level_affair_type air) then []
  else [{| rb_type := match M !! owner air with None => DELETE_ACCOUNT | Some _ => ONLY_REDUCE_NONCE end;
           rb_asset_type := 0; target_address := owner air; rb_update_type := UPDATE_NONE;
           rb_value := 0 |}].

(** One rollback operation. *)
Definition decremented (a : account) : account := Account.set_nonce a (u64 (nonce a - 1)).

Definition undo_operation (M : accounts) (otp : rollback_operation) : step :=
  let k := target_address otp in
  match rb_type otp with
  | INSERT => Done M
  | DELETE_ACCOUNT => Done (delete k M)
  | UPDATE =>
      match M !! k with
      | None => Done M
      | Some a =>
          match rb_update_type otp with
          | UPDATE_NONE => Done M
          | UPDATE_ADD => Done (<[k := decremented (add_balance a (rb_asset_type otp) (rb_value otp))]> M)
          | UPDATE_DELETE_ASSET => Done (<[k := decremented (delete_asset a (rb_asset_type otp))]> M)
          | UPDATE_REDUCE =>
              match reduce_balance a (rb_asset_type otp) (rb_value otp) with
              | Ok a => Done (<[k := a]> M)
              | Err _ => Failed StdException M
              end
          end
      end
  | ONLY_REDUCE_NONCE =>
      match M !! k with None => Done M | Some a => Done (<[k := decremented a]> M) end
  end.

Fixpoint undo_operations (M : accounts) (l : list rollback_operation) : step :=
  match l with
  | [] => Done M
  | otp :: l => match undo_operation M otp with Done M => undo_operations M l | f => f end
  end.

Definition accounts_ok (M : accounts) : Prop := forall k a, M !! k = Some a -> uint256_wf k.
Definition sender_wf (tsc : transaction) : Prop :=
  uint256_wf (get_sender tsc) /\ Forall (fun o => uint256_wf (receiver o)) (outs tsc).
End Spec.

(** What a state of [insert_block] amounts to, and the account whose path was
    marked last. *)
Record view := MarkedView {
  v_map : accounts;
  v_storage : list rollback_operation;
  v_filter : bloom_filter;
  v_commit : gset uint256;
  v_marked : option uint256;
}.
Abbreviation View M l f ks := (MarkedView M l f ks None).

(** ** The steps against the specification *)
Section Laws.
Context {host : Host} `{HashHandler} {T : Type} `{AccountTrieLaws T}.

Definition shows (w : @work T) (v : view) : Prop :=
  at_map (tree w) (v_map v) /\ storage w = v_storage v /\ test_filter w = v_filter v
  /\ commit_accounts w = v_commit v /\ match v_marked v with Some k => at_marked (tree w) k | None => True end.

(** From a state that shows [v], [m] gives the result [r] and shows [v']. *)
Definition gives {A} (v : view) (m : M (@work T) A) (r : exn + A) (v' : view) : Prop :=
  forall w, shows w v -> exists w', shows w' v' /\
    m w = match r with inr a => Ret a w' | inl e => Throw e w' end.

Lemma gives_ret {A} v (a : A) : gives v (mret a) (inr a) v.
Proof. intros w Hw. by exists w. Qed.

Lemma gives_throw {A} v e : gives v (throw e : M work A) (inl e) v.
Proof. intros w Hw. by exists w. Qed.

Lemma gives_bind {A B} v v1 v2 (m : M work A) (f : A -> M work B) a r :
  gives v m (inr a) v1 -> gives v1 (f a) r v2 -> gives v (m ≫= f) r v2.
Proof.
  intros Hm Hf w Hw. destruct (Hm w Hw) as (w1 & Hw1 & E). destruct (Hf w1 Hw1) as (w2 & Hw2 & E2).
  exists w2. split; [done|]. unfold mbind, M_bind. by rewrite E.
Qed.

Lemma gives_bind_throw {A B} v v1 (m : M work A) (f : A -> M work B) e :
  gives v m (inl e) v1 -> gives v (m ≫= f) (inl e) v1.
Proof.
  intros Hm w Hw. destruct (Hm w Hw) as (w1 & Hw1 & E). exists w1. split; [done|].
  unfold mbind, M_bind. by rewrite E.
Qed.

Lemma gives_eq {A} v v1 v2 (m : M work A) r : gives v m r v1 -> v1 = v2 -> gives v m r v2.
Proof. by intros ? <-. Qed.

Lemma gives_attempt {A} v v1 (m : M work A) r : gives v m r v1 -> gives v (attempt m) (inr r) v1.
Proof.
  intros Hm w Hw. destruct (Hm w Hw) as (w1 & Hw1 & E). exists w1. split; [done|].
  unfold attempt. rewrite E. by destruct r.
Qed.

Lemma gives_try {A} v v1 (m : M work A) h a : gives v m (inr a) v1 -> gives v (try_catch m h) (inr a) v1.
Proof. intros Hm. eapply gives_bind; [by apply gives_attempt|apply gives_ret]. Qed.

Lemma gives_for_each_cons {A} v v1 v2 (f : A -> M work unit) x l r :
  gives v (f x) (inr tt) v1 -> gives v1 (for_each f l) r v2 -> gives v (for_each f (x :: l)) r v2.
Proof. intros Hx Hl. by eapply gives_bind. Qed.

(** ** Primitive steps *)
(** The accounts change: through the pointer to the marked account, or otherwise. *)
Definition with_map (v : view) (M : accounts) : view :=
  MarkedView M (v_storage v) (v_filter v) (v_commit v) (v_marked v).
Definition moved (v : view) (M : accounts) : view :=
  View M (v_storage v) (v_filter v) (v_commit v).
Definition with_storage (v : view) (l : list rollback_operation) : view :=
  MarkedView (v_map v) l (v_filter v) (v_commit v) (v_marked v).
Definition marking (v : view) (k : uint256) : view :=
  MarkedView (v_map v) (v_storage v) (v_filter v) (v_commit v)
    (match v_map v !! k with Some _ => Some k | None => None end).

Lemma gives_forget {A} v v1 (m : M work A) r : gives v m r v1 -> gives v m r (moved v1 (v_map v1)).
Proof.
  intros Hm w Hw. destruct (Hm w Hw) as (w1 & (? & ? & ? & ? & _) & E). exists w1. by repeat split.
Qed.

(** Enough to know that the rest of the views is the same. *)
Lemma gives_moved {A} v v1 v2 (m : M work A) r : gives v m r v1 -> moved v1 (v_map v1) = v2 -> gives v m r v2.
Proof. intros Hm <-. by apply gives_forget. Qed.

Lemma gives_call {A} v M' (f : T -> res mpt_error (A * T)) a :
  (forall t, at_map t (v_map v) -> exists t', f t = Ok (a, t') /\ at_map t' M') ->
  gives v (trie_call f) (inr a) (moved v M').
Proof.
  intros Hf w (Hm & Hs & Hfi & Hc & _). destruct (Hf _ Hm) as (t' & E & Ht').
  eexists. unfold trie_call. rewrite E. split; [|reflexivity]. by repeat split.
Qed.

Lemma gives_query {A} v (f : T -> res mpt_error (A * T)) a :
  (forall t, at_map t (v_map v) -> f t = Ok (a, t)) -> gives v (trie_call f) (inr a) v.
Proof.
  intros Hf w Hw. exists w. split; [done|]. unfold trie_call. rewrite (Hf (tree w)) by apply Hw.
  by destruct w.
Qed.

Lemma gives_search v k : uint256_wf k -> gives v (mpt_search k) (inr (v_map v !! k)) v.
Proof. intros Hk. apply gives_query. intros t Ht. by rewrite (at_search_spec _ _ _ Ht Hk). Qed.

Lemma gives_find v k : uint256_wf k ->
  gives v (mpt_find k) (inr (bool_decide (is_Some (v_map v !! k)))) v.
Proof. intros Hk. apply gives_query. intros t Ht. by rewrite (at_find_spec _ _ _ Ht Hk). Qed.

Lemma gives_mark v k : uint256_wf k -> gives v (mpt_search_and_mark k) (inr (v_map v !! k)) (marking v k).
Proof.
  intros Hk w (Hm & Hs & Hfi & Hc & _). destruct (at_mark_spec _ _ k Hm Hk) as (t' & E & Ht' & Hmk).
  eexists. unfold mpt_search_and_mark, trie_call. rewrite E. split; [|reflexivity].
  repeat split; try done. cbn [v_marked marking tree]. destruct (v_map v !! k); [|done]. apply Hmk. eauto.
Qed.

Lemma gives_insert v k a : uint256_wf k -> v_map v !! k = None ->
  gives v (mpt_insert k a) (inr tt) (moved v (<[k := a]> (v_map v))).
Proof.
  intros Hk Hn. apply gives_call. intros t Ht.
  destruct (at_insert_spec _ _ _ a Ht Hk Hn) as (t' & E & Ht'). rewrite E. eauto.
Qed.

Lemma gives_erase v k : uint256_wf k ->
  gives v (mpt_erase k) (inr (bool_decide (is_Some (v_map v !! k)))) (moved v (delete k (v_map v))).
Proof.
  intros Hk. apply gives_call. intros t Ht.
  destruct (at_erase_spec _ _ _ Ht Hk) as (t' & E & Ht'). eauto.
Qed.

Lemma gives_assign v k a : uint256_wf k -> is_Some (v_map v !! k) -> v_marked v = Some k ->
  gives v (assign k a) (inr tt) (with_map v (<[k := a]> (v_map v))).
Proof.
  intros Hk Hs Hv w (Hm & Hst & Hfi & Hc & Hmk). rewrite Hv in Hmk.
  destruct (at_write_spec _ _ _ a Hm Hk Hs Hmk) as (t' & E & Ht' & Hmk').
  eexists. unfold assign, trie_call. rewrite E. split; [|reflexivity].
  repeat split; try done. cbn [v_marked with_map tree]. by rewrite Hv.
Qed.

Lemma gives_deref v k a : uint256_wf k -> v_map v !! k = Some a -> gives v (deref k) (inr a) v.
Proof.
  intros Hk Ha. eapply gives_bind; [by apply gives_search|]. rewrite Ha. apply gives_ret.
Qed.

(** A member function of an account. *)
Lemma gives_method v k f a : uint256_wf k -> v_map v !! k = Some a -> v_marked v = Some k ->
  gives v (call k f) (inr tt) (with_map v (<[k := f a]> (v_map v))).
Proof.
  intros Hk Ha Hv. eapply gives_bind; [by apply gives_deref|]. apply gives_assign; [done|eauto|done].
Qed.

Lemma gives_reduce v k t c a : uint256_wf k -> v_map v !! k = Some a -> v_marked v = Some k ->
  match reduce_balance a t c with
  | Ok a' => gives v (call_reduce_balance k t c) (inr tt) (with_map v (<[k := a']> (v_map v)))
  | Err _ => gives v (call_reduce_balance k t c) (inl StdException) v
  end.
Proof.
  intros Hk Ha Hv. destruct (reduce_balance a t c) as [a'|[]] eqn:E.
  - eapply gives_bind; [by apply gives_deref|]. rewrite E. apply gives_assign; [done|eauto|done].
  - eapply gives_bind; [by apply gives_deref|]. rewrite E. apply gives_throw.
Qed.

Lemma gives_push v op : gives v (push_back op) (inr tt) (with_storage v (v_storage v ++ [op])).
Proof. intros w (Hm & Hs & Hf & Hc & Hk). eexists. split; [|reflexivity]. by rewrite <-Hs. Qed.

Lemma gives_pop v : gives v pop_back (inr tt) (with_storage v (removelast (v_storage v))).
Proof. intros w (Hm & Hs & Hf & Hc & Hk). eexists. split; [|reflexivity]. by rewrite <-Hs. Qed.

Lemma gives_emplace v k :
  gives v (emplace k) (inr tt) (MarkedView (v_map v) (v_storage v) (v_filter v) ({[k]} ∪ v_commit v) (v_marked v)).
Proof. intros w (Hm & Hs & Hf & Hc & Hk). eexists. split; [|reflexivity]. by rewrite <-Hc. Qed.

Lemma gives_test v t : gives v (filter_test t) (inr (test (v_filter v) t)) v.
Proof. intros w Hw. exists w. unfold filter_test. split; [done|]. destruct Hw as (_ & _ & -> & _). done. Qed.

Lemma gives_filter v t :
  gives v (filter_insert t) (inr tt)
    (MarkedView (v_map v) (v_storage v) (BloomFilter.insert (v_filter v) t).2 (v_commit v) (v_marked v)).
Proof. intros w (Hm & Hs & Hf & Hc & Hk). eexists. split; [|reflexivity]. by rewrite <-Hf. Qed.

(** ** The parts of [insert_block] *)
Lemma gives_receiver_rollback v tsc l : Forall (fun o => uint256_wf (receiver o)) l ->
  gives v (for_each (receiver_rollback tsc) l) (inr tt)
    (with_storage v (v_storage v ++ map (receiver_operation (v_map v) tsc) l)).
Proof.
  intros Hl. revert v. induction Hl as [|o l Ho Hl IH]; intros v.
  - destruct v. unfold with_storage. cbn. rewrite app_nil_r. apply gives_ret.
  - eapply gives_for_each_cons.
    + eapply gives_bind; [by apply gives_find|apply gives_push].
    + specialize (IH (with_storage v (v_storage v ++ [receiver_operation (v_map v) tsc o]))).
      cbn [with_storage v_storage v_map] in IH. rewrite <-app_assoc in IH.
      replace (if bool_decide (is_Some (v_map v !! receiver o)) then _ else _)
        with (receiver_operation (v_map v) tsc o) by done. exact IH.
Qed.

Lemma gives_created_rollback v tsc : sender_wf tsc ->
  gives v (append_created_rollback tsc) (inr tt)
    (with_storage v (v_storage v ++ transaction_operations (v_map v) tsc)).
Proof.
  intros [Hs Ho]. unfold append_created_rollback, transaction_operations.
  destruct (get_transaction_operator tsc).
  - destruct v. unfold with_storage. cbn. rewrite app_nil_r. apply gives_ret.
  - eapply gives_bind; [apply gives_push|].
    match goal with |- gives ?u _ _ _ => pose proof (gives_receiver_rollback u tsc _ Ho) as Hr end.
    cbn [with_storage v_storage v_map] in Hr. by rewrite <-app_assoc in Hr.
  - eapply gives_bind; [by apply gives_find|apply gives_push].
Qed.

Definition receivers (l : list out_entry) (ks : gset uint256) : gset uint256 :=
  foldl (fun ks o => {[receiver o]} ∪ ks) ks l.

Lemma gives_pay_receiver v t o : uint256_wf (receiver o) ->
  exists flag, gives v (pay_receiver t o) (inr flag)
    (View (credit t (v_map v) o) (v_storage v) (v_filter v) ({[receiver o]} ∪ v_commit v)).
Proof.
  intros Ho. unfold credit. pose proof (gives_mark v (receiver o) Ho) as Hmk. unfold marking in Hmk.
  destruct (v_map v !! receiver o) as [a|] eqn:E; cbn [default].
  - exists (true, true). eapply gives_moved.
    + eapply gives_bind; [exact Hmk|]. eapply gives_bind; [apply gives_emplace|]. apply gives_try.
      eapply gives_bind; [by apply (gives_method _ _ _ a)|apply gives_ret].
    + done.
  - exists (false, true). eapply gives_bind; [exact Hmk|]. eapply gives_bind; [apply gives_emplace|].
    apply gives_try. eapply gives_bind; [by apply gives_insert|apply gives_ret].
Qed.

Lemma gives_pay_loop v t l ex : Forall (fun o => uint256_wf (receiver o)) l ->
  exists ex', gives v (pay_loop t l ex) (inr (ex', None))
    (View (foldl (credit t) (v_map v) l) (v_storage v) (v_filter v) (receivers l (v_commit v))).
Proof.
  intros Hl. revert v ex. induction Hl as [|o l Ho Hl IH]; intros v ex.
  - exists ex. eapply gives_moved; [apply gives_ret|done].
  - destruct (gives_pay_receiver v t o Ho) as (flag & Hp).
    match type of Hp with gives _ _ _ ?u => destruct (IH u (ex ++ [flag])) as (ex' & Hr) end.
    exists ex'. eapply gives_bind; [by apply gives_attempt|]. exact Hr.
Qed.

(** The accounts to commit, and the asset filter, after a transaction. *)
Definition commit_keys (tsc : transaction) (ks : gset uint256) : gset uint256 :=
  match get_transaction_operator tsc with
  | Append => {[get_sender tsc]} ∪ receivers (outs tsc) ks
  | Establish => {[get_sender tsc]} ∪ ks
  | NullOP => ks
  end.
Definition filter_after (f : bloom_filter) (tsc : transaction) : bloom_filter :=
  match get_transaction_operator tsc with
  | Establish => (BloomFilter.insert f (get_asset_type tsc)).2
  | _ => f
  end.
(** An [Establish] finds its asset type free. *)
Definition asset_free (f : bloom_filter) (tsc : transaction) : Prop :=
  get_transaction_operator tsc = Establish -> test f (get_asset_type tsc) = false.

(** The sender's nonce and balance. *)
Lemma gives_debit v tsc a : uint256_wf (get_sender tsc) ->
  v_map v !! get_sender tsc = Some a -> v_marked v = Some (get_sender tsc) ->
  let m := call_set_nonce (get_sender tsc) (u64 (get_nonce tsc + 1)) ;;
           call_reduce_balance (get_sender tsc) (get_asset_type tsc) (get_count tsc) in
  match debit tsc a with
  | Ok a' => gives v m (inr tt) (with_map v (<[get_sender tsc := a']> (v_map v)))
  | Err _ => gives v m (inl StdException)
      (with_map v (<[get_sender tsc := Account.set_nonce a (u64 (get_nonce tsc + 1))]> (v_map v)))
  end.
Proof.
  intros Hs Ea Hv. cbv zeta. set (v1 := with_map v _).
  pose proof (gives_reduce (with_map v (<[get_sender tsc := Account.set_nonce a (u64 (get_nonce tsc + 1))]>
    (v_map v))) (get_sender tsc) (get_asset_type tsc) (get_count tsc)
    (Account.set_nonce a (u64 (get_nonce tsc + 1))) Hs ltac:(apply lookup_insert_eq) Hv) as Hr.
  unfold debit. unfold with_map in Hr. cbn [v_map v_storage v_filter v_commit v_marked] in Hr.
  destruct (reduce_balance _ _ _); (eapply gives_bind; [by apply gives_method|]); [|exact Hr].
  by rewrite insert_insert_eq in Hr.
Qed.

Lemma gives_insert_append_ok v tsc a a' : sender_wf tsc -> v_marked v = Some (get_sender tsc) ->
  v_map v !! get_sender tsc = Some a -> debit tsc a = Ok a' ->
  gives v (insert_append tsc (Some a)) (inr tt)
    (View (foldl (credit (get_asset_type tsc)) (<[get_sender tsc := a']> (v_map v)) (outs tsc))
      (v_storage v) (v_filter v) ({[get_sender tsc]} ∪ receivers (outs tsc) (v_commit v))).
Proof.
  intros [Hs Ho] Hv Ea Ed. unfold insert_append.
  pose proof (gives_debit v tsc a Hs Ea Hv) as Hd. cbv zeta in Hd. rewrite Ed in Hd.
  eapply gives_bind; [by apply gives_attempt|]. cbn beta iota.
  match goal with |- gives ?u _ _ _ => destruct (gives_pay_loop u (get_asset_type tsc) (outs tsc) [] Ho) as (ex & Hp) end.
  eapply gives_bind; [exact Hp|]. apply gives_emplace.
Qed.

Lemma gives_insert_append_failed v tsc a e : sender_wf tsc -> v_marked v = Some (get_sender tsc) ->
  v_map v !! get_sender tsc = Some a -> debit tsc a = Err e ->
  gives v (insert_append tsc (Some a)) (inl (ChainDb atomic_operation_failed))
    (with_map v (<[get_sender tsc := set_balance (Account.set_nonce a (nonce a)) (get_asset_type tsc)
                     (get_balance a (get_asset_type tsc))]> (v_map v))).
Proof.
  intros [Hs Ho] Hv Ea Ed. unfold insert_append.
  pose proof (gives_debit v tsc a Hs Ea Hv) as Hd. cbv zeta in Hd. rewrite Ed in Hd.
  eapply gives_bind; [by apply gives_attempt|]. cbn beta iota. unfold append_failed. cbn [zip zip_with for_each].
  eapply gives_bind; [apply gives_ret|].
  eapply gives_bind; [apply gives_method; [done|apply lookup_insert_eq|done]|].
  eapply gives_bind; [apply gives_method; [done|apply lookup_insert_eq|done]|].
  unfold with_map. cbn [v_map v_storage v_filter v_commit v_marked]. rewrite !insert_insert_eq. apply gives_throw.
Qed.

Lemma gives_transaction v tsc M' : sender_wf tsc -> asset_free (v_filter v) tsc ->
  apply_transaction (v_map v) tsc = Done M' ->
  gives v (insert_transaction tsc) (inr tt)
    (View M' (v_storage v ++ transaction_operations (v_map v) tsc) (filter_after (v_filter v) tsc)
      (commit_keys tsc (v_commit v))).
Proof.
  intros Hwf Hfree Hap. unfold insert_transaction. eapply gives_bind; [by apply gives_created_rollback|].
  eapply gives_bind; [apply gives_mark, Hwf|]. cbn [v_map with_storage].
  unfold apply_transaction, asset_free, filter_after, commit_keys, marking in *. cbn [v_map with_storage].
  destruct (get_transaction_operator tsc) eqn:Eop.
  - injection Hap as <-. eapply gives_moved; [apply gives_ret|done].
  - destruct (v_map v !! get_sender tsc) as [a|] eqn:Ea; [|done].
    destruct (debit tsc a) as [a'|] eqn:Ed; [|done]. injection Hap as <-.
    match goal with |- gives ?u _ _ _ => by apply (gives_insert_append_ok u tsc a a') end.
  - injection Hap as <-. specialize (Hfree eq_refl). destruct Hwf as [Hs _].
    unfold insert_establish. eapply gives_bind; [apply gives_test|]. cbn [v_filter with_storage].
    rewrite Hfree. cbn [negb]. eapply gives_bind; [apply gives_filter|].
    cbn [v_map v_storage v_filter v_commit v_marked with_storage].
    unfold established. destruct (v_map v !! get_sender tsc) as [a|] eqn:Ea; cbn [default];
      (eapply gives_moved; [eapply gives_bind; [|apply gives_emplace]|]).
    + by apply (gives_method _ _ _ a).
    + done.
    + by apply gives_try, gives_insert.
    + done.
Qed.

Lemma gives_affair v air : uint256_wf (owner air) ->
  gives v (insert_affair air) (inr tt)
    (View (apply_affair (v_map v) air) (v_storage v ++ affair_operations (v_map v) air) (v_filter v)
      (if is_db_level_affair_type air then {[owner air]} ∪ v_commit v else v_commit v)).
Proof.
  intros Ho. unfold insert_affair, apply_affair, affair_operations.
  destruct (is_db_level_affair_type air); cbn [negb].
  - eapply gives_bind.
    { eapply gives_bind; [by apply gives_search|]. apply gives_push. }
    eapply gives_bind; [by apply gives_mark|]. unfold marking. cbn [v_map with_storage].
    destruct (v_map v !! owner air) as [a|] eqn:Ea;
      (eapply gives_moved; [eapply gives_bind; [|apply gives_emplace]|]).
    + by apply (gives_method _ _ _ a).
    + done.
    + by apply gives_try, gives_insert.
    + done.
  - eapply gives_moved; [apply gives_ret|]. unfold moved. by rewrite app_nil_r.
Qed.

(** ** A whole block *)
Fixpoint apply_transactions (M : accounts) (l : list transaction) : step :=
  match l with
  | [] => Done M
  | tsc :: l => match apply_transaction M tsc with Done M => apply_transactions M l | f => f end
  end.
Fixpoint transactions_operations (M : accounts) (l : list transaction) : list rollback_operation :=
  match l with
  | [] => []
  | tsc :: l =>
      transaction_operations M tsc
      ++ match apply_transaction M tsc with Done M => transactions_operations M l | _ => [] end
  end.
Fixpoint assets_free (f : bloom_filter) (l : list transaction) : Prop :=
  match l with
  | [] => True
  | tsc :: l => asset_free f tsc /\ assets_free (filter_after f tsc) l
  end.
Fixpoint affairs_operations (M : accounts) (l : list affair) : list rollback_operation :=
  match l with
  | [] => []
  | air :: l => affair_operations M air ++ affairs_operations (apply_affair M air) l
  end.
Definition commit_affair (ks : gset uint256) (air : affair) : gset uint256 :=
  if is_db_level_affair_type air then {[owner air]} ∪ ks else ks.

Lemma gives_transactions v l M' : Forall sender_wf l -> assets_free (v_filter v) l ->
  apply_transactions (v_map v) l = Done M' ->
  gives v (for_each insert_transaction l) (inr tt)
    (View M' (v_storage v ++ transactions_operations (v_map v) l)
      (foldl filter_after (v_filter v) l) (foldl (fun ks tsc => commit_keys tsc ks) (v_commit v) l)).
Proof.
  intros Hl. revert v. induction Hl as [|tsc l Hwf Hl IH]; intros v Hfree Hap.
  - injection Hap as <-. eapply gives_moved; [apply gives_ret|]. unfold moved. cbn. by rewrite app_nil_r.
  - cbn [apply_transactions transactions_operations assets_free foldl] in *.
    destruct (apply_transaction (v_map v) tsc) as [M1|] eqn:E; [|done]. destruct Hfree as [Hf Hfree].
    eapply gives_for_each_cons; [by apply gives_transaction|].
    match goal with |- gives ?u _ _ _ => specialize (IH u Hfree Hap) end.
    cbn [v_map v_storage v_filter v_commit] in IH. by rewrite <-app_assoc in IH.
Qed.

Lemma gives_affairs v l : Forall (fun air => uint256_wf (owner air)) l ->
  gives v (for_each insert_affair l) (inr tt)
    (View (foldl apply_affair (v_map v) l) (v_storage v ++ affairs_operations (v_map v) l)
      (v_filter v) (foldl commit_affair (v_commit v) l)).
Proof.
  intros Hl. revert v. induction Hl as [|air l Hwf Hl IH]; intros v.
  - eapply gives_moved; [apply gives_ret|]. unfold moved. cbn. by rewrite app_nil_r.
  - cbn [affairs_operations foldl]. eapply gives_for_each_cons; [by apply gives_affair|].
    match goal with |- gives ?u _ _ _ => specialize (IH u) end.
    cbn [v_map v_storage v_filter v_commit] in IH. by rewrite <-app_assoc in IH.
Qed.

(** The accounts to commit are accounts of the map. *)
Definition keys_in (ks : gset uint256) (M : accounts) : Prop :=
  forall k, k ∈ ks -> uint256_wf k /\ is_Some (M !! k).

Lemma insert_mono (M : accounts) k k' a : is_Some (M !! k) -> is_Some (<[k' := a]> M !! k).
Proof. intros [b Hb]. destruct (decide (k = k')) as [->|]; simplify_map_eq; eauto. Qed.

Lemma keys_in_mono ks (M M' : accounts) :
  (forall k, is_Some (M !! k) -> is_Some (M' !! k)) -> keys_in ks M -> keys_in ks M'.
Proof. intros HM Hk k Hin. destruct (Hk k Hin). auto. Qed.

Lemma keys_in_insert ks (M : accounts) k a : keys_in ks M -> uint256_wf k -> keys_in ({[k]} ∪ ks) (<[k := a]> M).
Proof.
  intros Hk Hw k' [->%elem_of_singleton|Hin]%elem_of_union.
  - split; [done|]. rewrite lookup_insert_eq. eauto.
  - destruct (Hk k' Hin). auto using insert_mono.
Qed.

Lemma keys_in_credits t ks M l : Forall (fun o => uint256_wf (receiver o)) l -> keys_in ks M ->
  keys_in (receivers l ks) (foldl (credit t) M l).
Proof.
  intros Hl. revert ks M. induction Hl as [|o l Ho Hl IH]; intros ks M Hk; [done|].
  apply IH. by apply keys_in_insert.
Qed.

Lemma credits_mono t (M : accounts) l k : is_Some (M !! k) -> is_Some (foldl (credit t) M l !! k).
Proof. revert M. induction l as [|o l IH]; intros M HM; [done|]. apply IH. by apply insert_mono. Qed.

Lemma keys_in_transaction M tsc M' ks : sender_wf tsc -> apply_transaction M tsc = Done M' ->
  keys_in ks M -> keys_in (commit_keys tsc ks) M'.
Proof.
  intros [Hs Ho] Hap Hk. unfold apply_transaction, commit_keys in *.
  destruct (get_transaction_operator tsc).
  - by injection Hap as <-.
  - destruct (M !! get_sender tsc) as [a|] eqn:Ea; [|done].
    destruct (debit tsc a) as [a'|]; [|done]. injection Hap as <-.
    intros k [->%elem_of_singleton|Hin]%elem_of_union.
    + split; [done|]. apply credits_mono. rewrite lookup_insert_eq. eauto.
    + revert k Hin. apply keys_in_credits; [done|].
      apply (keys_in_mono _ M); [intros; by apply insert_mono|done].
  - injection Hap as <-. by apply keys_in_insert.
Qed.

Lemma keys_in_transactions M l M' ks : Forall sender_wf l -> apply_transactions M l = Done M' ->
  keys_in ks M -> keys_in (foldl (fun ks tsc => commit_keys tsc ks) ks l) M'.
Proof.
  intros Hl. revert M ks. induction Hl as [|tsc l Hwf Hl IH]; intros M ks Hap Hk;
    cbn [apply_transactions] in Hap; [by injection Hap as <-|].
  destruct (apply_transaction M tsc) as [M1|] eqn:E; [|done].
  apply (IH M1); [done|]. by eapply keys_in_transaction.
Qed.

Lemma keys_in_affairs M l ks : Forall (fun air => uint256_wf (owner air)) l -> keys_in ks M ->
  keys_in (foldl commit_affair ks l) (foldl apply_affair M l).
Proof.
  intros Hl. revert M ks. induction Hl as [|air l Hwf Hl IH]; intros M ks Hk; [done|]. apply IH.
  unfold commit_affair, apply_affair. destruct (is_db_level_affair_type air); [|done].
  by apply keys_in_insert.
Qed.

(** The snapshot that goes to the database. *)
Definition snapshot (M : accounts) (ks : list uint256) (m : accounts) : accounts :=
  foldl (fun m k => match M !! k with Some a => <[k := a]> m | None => m end) m ks.

Lemma gives_commits v ks m : (forall k, k ∈ ks -> uint256_wf k /\ is_Some (v_map v !! k)) ->
  gives v (collect_commits ks m) (inr (snapshot (v_map v) ks m)) v.
Proof.
  revert m. induction ks as [|k ks IH]; intros m Hk; [apply gives_ret|].
  destruct (Hk k) as [Hw [a Ha]]; [by left|]. cbn [collect_commits snapshot foldl].
  eapply gives_bind; [by apply gives_search|]. rewrite Ha. apply IH. intros k' Hk'. apply Hk. by right.
Qed.

(** ** A transaction that fails *)
Lemma gives_transaction_failed v tsc e M' : sender_wf tsc ->
  apply_transaction (v_map v) tsc = Failed e M' ->
  gives v (insert_transaction tsc) (inl e)
    (View M' (v_storage v ++ transaction_operations (v_map v) tsc) (v_filter v) (v_commit v)).
Proof.
  intros Hwf Hap. unfold insert_transaction. eapply gives_bind; [by apply gives_created_rollback|].
  eapply gives_bind; [apply gives_mark, Hwf|].
  unfold apply_transaction, marking in *. cbn [v_map v_storage v_filter v_commit with_storage].
  destruct (get_transaction_operator tsc) eqn:Eop; [done| |done].
  destruct (v_map v !! get_sender tsc) as [a|] eqn:Ea.
  - destruct (debit tsc a) as [a'|err] eqn:Ed; [done|]. injection Hap as <- <-.
    match goal with |- gives ?u _ _ _ => eapply gives_moved; [by apply (gives_insert_append_failed u tsc a err)|done] end.
  - injection Hap as <- <-. apply gives_throw.
Qed.

(** The filter and the accounts to commit when the failure comes. *)
Lemma gives_transactions_failed v l e M' : Forall sender_wf l -> assets_free (v_filter v) l ->
  apply_transactions (v_map v) l = Failed e M' ->
  exists f ks, gives v (for_each insert_transaction l) (inl e)
    (View M' (v_storage v ++ transactions_operations (v_map v) l) f ks).
Proof.
  intros Hl. revert v. induction Hl as [|tsc l Hwf Hl IH]; intros v Hfree Hap; [done|].
  cbn [apply_transactions transactions_operations assets_free] in *. destruct Hfree as [Hf Hfree].
  destruct (apply_transaction (v_map v) tsc) as [M1|e1 M1] eqn:E.
  - pose proof (gives_transaction v tsc M1 Hwf Hf E) as Ht.
    match type of Ht with gives _ _ _ ?u => destruct (IH u Hfree Hap) as (f & ks & Hr) end.
    exists f, ks. cbn [v_map v_storage] in Hr. rewrite <-app_assoc in Hr.
    by eapply gives_for_each_cons.
  - injection Hap as -> ->. rewrite app_nil_r. do 2 eexists.
    eapply gives_bind_throw. by apply gives_transaction_failed.
Qed.

(** ** Rollback *)
Definition step_gives (v : view) (m : M work unit) (s : step) : Prop :=
  match s with
  | Done M' => gives v m (inr tt) (moved v M')
  | Failed e M' => gives v m (inl e) (moved v M')
  end.

Lemma gives_nothing v : gives v (mret tt) (inr tt) (moved v (v_map v)).
Proof. apply gives_forget, gives_ret. Qed.

Lemma gives_operation v otp : uint256_wf (target_address otp) ->
  step_gives v (execute_operation otp) (undo_operation (v_map v) otp).
Proof.
  intros Hk. unfold undo_operation, execute_operation.
  pose proof (gives_mark v _ Hk) as Hmk. unfold marking in Hmk.
  destruct (rb_type otp).
  - apply gives_nothing.
  - cbn. eapply gives_bind; [by apply gives_erase|]. apply gives_ret.
  - destruct (v_map v !! target_address otp) as [a|] eqn:Ea.
    + destruct (rb_update_type otp).
      * eapply gives_moved; [eapply gives_bind; [exact Hmk|apply gives_ret]|done].
      * eapply gives_moved; [eapply gives_bind; [exact Hmk|]; eapply gives_bind; [by apply (gives_method _ _ _ a)|];
          apply gives_method; [done|apply lookup_insert_eq|done]|].
        unfold moved, with_map. cbn. by rewrite insert_insert_eq.
      * match type of Hmk with gives _ _ _ ?u =>
          pose proof (gives_reduce u _ (rb_asset_type otp) (rb_value otp) a Hk Ea eq_refl) as Hr end.
        destruct (reduce_balance _ _ _); (eapply gives_moved; [eapply gives_bind; [exact Hmk|exact Hr]|done]).
      * eapply gives_moved; [eapply gives_bind; [exact Hmk|]; eapply gives_bind; [by apply (gives_method _ _ _ a)|];
          apply gives_method; [done|apply lookup_insert_eq|done]|].
        unfold moved, with_map. cbn. by rewrite insert_insert_eq.
    + eapply gives_bind; [exact Hmk|]. apply gives_ret.
  - destruct (v_map v !! target_address otp) as [a|] eqn:Ea; (eapply gives_moved; [eapply gives_bind; [exact Hmk|]|]).
    + by apply (gives_method _ _ _ a).
    + done.
    + apply gives_ret.
    + done.
Qed.

Lemma gives_rollback v l : Forall (fun otp => uint256_wf (target_address otp)) l ->
  step_gives v (execute_rollback l) (undo_operations (v_map v) l).
Proof.
  intros Hl. revert v. induction Hl as [|otp l Ho Hl IH]; intros v; cbn [undo_operations].
  - apply gives_nothing.
  - pose proof (gives_operation v otp Ho) as Hop.
    destruct (undo_operation (v_map v) otp) as [M1|e M1]; cbn in Hop |- *.
    + specialize (IH (moved v M1)). cbn [v_map moved] in IH.
      unfold step_gives in *. destruct (undo_operations M1 l); by eapply gives_for_each_cons.
    + by eapply gives_bind_throw.
Qed.

Lemma transaction_operations_wf M tsc : sender_wf tsc ->
  Forall (fun otp => uint256_wf (target_address otp)) (transaction_operations M tsc).
Proof.
  intros [Hs Ho]. unfold transaction_operations. destruct (get_transaction_operator tsc).
  - constructor.
  - constructor; [done|]. apply Forall_map. eapply Forall_impl; [exact Ho|]. intros o Hw.
    unfold receiver_operation. by case_bool_decide.
  - by constructor.
Qed.

Lemma transactions_operations_wf M l : Forall sender_wf l ->
  Forall (fun otp => uint256_wf (target_address otp)) (transactions_operations M l).
Proof.
  intros Hl. revert M. induction Hl as [|tsc l Hwf Hl IH]; intros M; cbn; [constructor|].
  apply Forall_app. split; [by apply transaction_operations_wf|].
  destruct (apply_transaction M tsc); [apply IH|constructor].
Qed.

Lemma affairs_operations_wf M l : Forall (fun air => uint256_wf (owner air)) l ->
  Forall (fun otp => uint256_wf (target_address otp)) (affairs_operations M l).
Proof.
  intros Hl. revert M. induction Hl as [|air l Hwf Hl IH]; intros M; cbn; [constructor|].
  apply Forall_app. split; [|apply IH]. unfold affair_operations.
  destruct (is_db_level_affair_type air); [by apply Forall_singleton|constructor].
Qed.

(** ** The asset filter *)
Lemma filter_insert_asset f g t : asset f = asset g ->
  asset (BloomFilter.insert f t).2 = asset (BloomFilter.insert g t).2.
Proof.
  intros E. unfold BloomFilter.insert. rewrite E. by destruct (foldl _ _ _).
Qed.

Lemma assets_free_ext l f g : asset f = asset g -> assets_free f l -> assets_free g l.
Proof.
  revert f g. induction l as [|tsc l IH]; intros f g E; [done|]. cbn [assets_free]. intros [Hf Hl].
  split.
  - intros Eop. specialize (Hf Eop). unfold test in *. by rewrite <-E.
  - eapply IH; [|exact Hl]. unfold filter_after. destruct (get_transaction_operator tsc); [done|done|].
    by apply filter_insert_asset.
Qed.

(** A block body that passes the check names free asset types only. *)
Lemma check_transactions_free mpt receipts f l r :
  check_transactions mpt receipts f l = Ok (Some r) -> assets_free f l.
Proof.
  revert receipts f. induction l as [|tsc l IH]; intros receipts f; [done|].
  cbn [check_transactions assets_free]. unfold check_block_transaction at 1.
  destruct (at_search mpt (get_sender tsc)) as [o|]; [|done]. cbn [mbind res_bind].
  unfold asset_free, filter_after. destruct (get_transaction_operator tsc); [done| |].
  - destruct o as [a|].
    + destruct (negb _); [done|]. cbn [mbind res_bind]. intros E%IH. done.
    + destruct (receipts !! _); [|done]. cbn [mbind option_bind].
      destruct (receipt_balances _ !! _); [|done]. cbn [mbind option_bind res_bind]. intros E%IH. done.
  - destruct (test f (get_asset_type tsc)) eqn:Et; [done|]. cbn [mbind res_bind]. intros E%IH. done.
Qed.

(** ** [insert_block] *)
Definition block_wf (blk : block) : Prop :=
  Forall sender_wf (transactions (body blk)) /\
  Forall (fun air => uint256_wf (owner air)) (affairs (body blk)).

Definition header_ok (c : @connector_account T) (blk : block) : bool :=
  (height (header blk) =? u64 (ledger_height c + 1))
  && negb (uint256_neqb (prev_block_hash (header blk)) (ledger_top_block_hash c)).

Definition start_work (c : @connector_account T) (blk : block) : @work T :=
  Work (account_mpt c) [] (set_block_height (asset_bloom_filter c) (height (header blk))) ∅.

Lemma with_mpt_id (c : @connector_account T) : with_mpt c (account_mpt c) = c.
Proof. by destruct c. Qed.

(** Past the two checks. *)
Lemma insert_block_eq blk ck c :
  check_block_body (account_mpt c) (asset_bloom_filter c) blk = Ok true -> header_ok c blk = true ->
  insert_block blk ck c =
    match insert_block_content blk ck (start_work c blk) with
    | Ret values w => insert_block_finish blk w values c
    | Throw e w =>
        match ledger_rollback (storage w) (with_mpt c (tree w)) with
        | Ret _ c' => match e with ChainDb code => Throw (ChainDb code) c' | StdException => Ret false c' end
        | Throw e c' => Throw e c'
        | Undefined => Undefined
        end
    | Undefined => Undefined
    end.
Proof.
  intros Hc [Hh Hp]%andb_true_iff. unfold insert_block, get_state, ledger_call. unfold mbind at 1, M_bind at 1.
  unfold mbind at 1, M_bind at 1. rewrite Hc. cbn [mbind res_bind negb]. rewrite with_mpt_id, Hh.
  apply negb_true_iff in Hp. rewrite Hp. cbn [negb orb]. unfold mbind at 1, M_bind at 1.
  fold (start_work c blk). destruct (insert_block_content blk ck (start_work c blk)) as [values w|e w|]; [done| |done].
  unfold mbind, M_bind, modify_state. destruct (ledger_rollback _ _); [|done|done]. by destruct e.
Qed.

(** The accounts, the rollback operations and the commit of a block that goes in. *)
Definition block_accounts (M1 : accounts) (blk : block) : accounts :=
  foldl apply_affair M1 (affairs (body blk)).
Definition block_operations (M M1 : accounts) (blk : block) : list rollback_operation :=
  transactions_operations M (transactions (body blk)) ++ affairs_operations M1 (affairs (body blk)).
Definition block_keys (blk : block) : gset uint256 :=
  foldl commit_affair (foldl (fun ks tsc => commit_keys tsc ks) ∅ (transactions (body blk)))
    (affairs (body blk)).

Lemma block_operations_wf M M1 blk : block_wf blk ->
  Forall (fun otp => uint256_wf (target_address otp)) (block_operations M M1 blk).
Proof.
  intros [Ht Ha]. apply Forall_app. split; [by apply transactions_operations_wf|by apply affairs_operations_wf].
Qed.

Lemma content_spec blk ck v M1 w : block_wf blk -> assets_free (v_filter v) (transactions (body blk)) ->
  apply_transactions (v_map v) (transactions (body blk)) = Done M1 -> v_commit v = ∅ -> shows w v ->
  let M2 := block_accounts M1 blk in
  let v' := View M2 (v_storage v ++ block_operations (v_map v) M1 blk)
              (foldl filter_after (v_filter v) (transactions (body blk))) (block_keys blk) in
  exists w', shows w' v' /\
    insert_block_content blk ck w =
      if ck && uint256_neqb (at_root M2) (merkle_patricia_trie_root (header blk))
      then Throw (ChainDb invalid_patricia_merkle_tree_root_hash) w'
      else Ret (snapshot M2 (elements (block_keys blk)) ∅) w'.
Proof.
  intros [Ht Ha] Hfree Hap Hks Hw M2 v'.
  destruct (gives_transactions v _ M1 Ht Hfree Hap w Hw) as (w1 & Hw1 & E1).
  match type of Hw1 with shows _ ?u => destruct (gives_affairs u _ Ha w1 Hw1) as (w2 & Hw2 & E2) end.
  cbn [v_map v_storage v_filter v_commit] in Hw2. rewrite Hks, <-app_assoc in Hw2. fold v' in Hw2.
  assert (Hin : forall k, k ∈ elements (block_keys blk) -> uint256_wf k /\ is_Some (v_map v' !! k)).
  { intros k Hk%elem_of_elements. revert k Hk. apply keys_in_affairs; [done|].
    eapply keys_in_transactions; [done|exact Hap|]. by intros k ?%elem_of_empty. }
  unfold insert_block_content, mbind at 1, M_bind at 1. rewrite E1.
  unfold mbind at 1, M_bind at 1. rewrite E2. unfold mbind at 1, M_bind at 1.
  destruct ck; cbn [andb].
  - destruct Hw2 as (Hm & Hs & Hf & Hc & _). destruct (at_get_hash_spec _ _ Hm) as (t' & Eh & Ht').
    unfold mpt_get_hash, trie_call, mbind at 1, M_bind at 1. rewrite Eh.
    set (w3 := Work t' _ _ _). assert (Hw3 : shows w3 v') by by repeat split.
    unfold M2 in *. destruct (uint256_neqb (at_root _) _); [by exists w3|]. destruct (gives_commits v' _ ∅ Hin w3 Hw3) as (w4 & Hw4 & E4).
    exists w4. split; [done|]. unfold mret, M_ret, mbind, M_bind, get_state.
    replace (commit_accounts w3) with (block_keys blk) by (symmetry; apply Hw3). exact E4.
  - destruct (gives_commits v' _ ∅ Hin w2 Hw2) as (w4 & Hw4 & E4).
    exists w4. split; [done|]. unfold mret, M_ret, mbind, M_bind, get_state.
    replace (commit_accounts w2) with (block_keys blk) by (symmetry; apply Hw2). exact E4.
Qed.

Lemma ledger_rollback_spec c M l : at_map (account_mpt c) M ->
  Forall (fun otp => uint256_wf (target_address otp)) l ->
  match undo_operations M l with
  | Done M' => exists t, ledger_rollback l c = Ret tt (with_mpt c t) /\ at_map t M'
  | Failed e M' => exists t, ledger_rollback l c = Throw e (with_mpt c t) /\ at_map t M'
  end.
Proof.
  intros Hm Hl. pose proof (gives_rollback (View M [] (asset_bloom_filter c) ∅) l Hl) as Hr.
  unfold step_gives, ledger_rollback in *. cbn [v_map] in Hr.
  destruct (undo_operations M l) as [M'|e M'];
    destruct (Hr (Work (account_mpt c) [] (asset_bloom_filter c) ∅)) as (w & (Hw & _) & ->); try done;
    by exists (tree w).
Qed.

Lemma ledger_get_hash c M : at_map (account_mpt c) M ->
  exists t, ledger_call at_get_hash c = Ret (at_root M) (with_mpt c t) /\ at_map t M.
Proof.
  intros Hm. unfold ledger_call. destruct (at_get_hash_spec _ _ Hm) as (t & -> & Ht). eauto.
Qed.

Lemma finish_spec blk w values c M2 : at_map (tree w) M2 ->
  exists t, at_map t M2 /\
    insert_block_finish blk w values c =
      Ret true (Connector t (set_block_hash (test_filter w) (get_block_hash (header blk))) (at_root M2)
        (height (header blk)) (get_block_hash (header blk))
        (account_bloom_filters c ++ [set_block_hash (test_filter w) (get_block_hash (header blk))])
        (commits c ++ [{| commit_block_hash := ledger_top_block_hash c; commit_height := ledger_height c;
                          prev_mpt_root := merkle_patricia_trie_root_hash c; commit_values := values |}])
        (rollbacks c ++ [storage w]) (extensions c)).
Proof.
  intros Hm. destruct (at_get_hash_spec _ _ Hm) as (t & E & Ht). exists t. split; [done|].
  unfold insert_block_finish, get_state, modify_state, ledger_call, mbind, M_bind, mret, M_ret. cbn.
  by rewrite E.
Qed.

Lemma start_shows c blk M : at_map (account_mpt c) M ->
  shows (start_work c blk) (View M [] (set_block_height (asset_bloom_filter c) (height (header blk))) ∅).
Proof. done. Qed.

Lemma check_body_free t f blk g : check_block_body t f blk = Ok true -> asset f = asset g ->
  assets_free g (transactions (body blk)).
Proof.
  unfold check_block_body. intros Hc Hg.
  destruct (check_transactions t ∅ f (transactions (body blk))) as [[r|]|] eqn:E; cbn [mbind res_bind] in Hc; try done.
  eapply assets_free_ext; [exact Hg|]. by eapply check_transactions_free.
Qed.
End Laws.
