(* ===== verification/LedgerSpec.v ===== *)
(** * The ledger refines a ledger on finite maps

    The specification of [connector_account]: its state is the same record with a
    finite map from addresses to accounts in the place of the trie, and its
    operations say in terms of that map what goes in, what is undone and which
    answer or exception comes back.  Every operation of [Ledger] simulates its
    specification, through the interface of the account tree. *)
From S2P Require Import Prelude Stream Uint256 Account Transaction Block BloomFilter MptNode Mpt.
From S2P Require Import AccountTrie Effects Ledger LedgerLaws.

Abbreviation ledger_spec := (@connector_account accounts).

(** ** Specification *)
Section Specification.
Context {host : Host} `{HashHandler}.
Variable root_of : accounts -> uint256.

(** A finite map in the place of the trie. *)
Definition map_AccountTrie : AccountTrie accounts := {|
  at_search M k := Ok (M !! k);
  at_find M k := Ok (bool_decide (is_Some (M !! k)));
  at_search_and_mark M k := Ok (M !! k, M);
  at_write M k a := Ok (<[k := a]> M);
  at_insert M k a := Ok (<[k := a]> M);
  at_erase M k := Ok (bool_decide (is_Some (M !! k)), delete k M);
  at_get_hash M := Ok (root_of M, M);
  at_get_change_store M := Ok (∅, M);
  at_clear_change_store M := M;
|}.

Definition map_check_block_body : accounts -> bloom_filter -> block -> res mpt_error bool :=
  check_block_body (T := accounts) (H0 := map_AccountTrie).

Definition spec_with_map (s : ledger_spec) (M : accounts) : ledger_spec := with_mpt s M.

(** A block is undone: what was thrown goes on as far as the database's exceptions
    are concerned, unless undoing throws itself. *)
Definition spec_undo (s : ledger_spec) (e : exn) (undone : step) : outcome ledger_spec bool :=
  match undone with
  | Done M =>
      match e with
      | ChainDb code => Throw (ChainDb code) (spec_with_map s M)
      | StdException => Ret false (spec_with_map s M)
      end
  | Failed e M => Throw e (spec_with_map s M)
  end.

(** The block is in: [M] before, [M1] after the transactions. *)
Definition spec_accept (blk : block) (M1 : accounts) (s : ledger_spec) : ledger_spec :=
  let M := account_mpt s in
  let M2 := block_accounts M1 blk in
  let filter := foldl filter_after (set_block_height (asset_bloom_filter s) (height (header blk)))
                  (transactions (body blk)) in
  let filter := set_block_hash filter (get_block_hash (header blk)) in
  Connector M2 filter (root_of M2) (height (header blk)) (get_block_hash (header blk))
    (account_bloom_filters s ++ [filter])
    (commits s ++ [{| commit_block_hash := ledger_top_block_hash s; commit_height := ledger_height s;
                      prev_mpt_root := merkle_patricia_trie_root_hash s;
                      commit_values := snapshot M2 (elements (block_keys blk)) ∅ |}])
    (rollbacks s ++ [block_operations M M1 blk]) (extensions s).

Definition spec_insert_block (blk : block) (check : bool) (s : ledger_spec) : outcome ledger_spec bool :=
  let M := account_mpt s in
  match map_check_block_body M (asset_bloom_filter s) blk with
  | Ok true =>
      if negb (header_ok s blk) then Ret false s
      else
        match apply_transactions M (transactions (body blk)) with
        | Failed e M1 => spec_undo s e (undo_operations M1 (transactions_operations M (transactions (body blk))))
        | Done M1 =>
            if check && uint256_neqb (root_of (block_accounts M1 blk)) (merkle_patricia_trie_root (header blk))
            then spec_undo s (ChainDb invalid_patricia_merkle_tree_root_hash)
                   (undo_operations (block_accounts M1 blk) (block_operations M M1 blk))
            else Ret true (spec_accept blk M1 s)
        end
  | _ => Ret false s
  end.

Definition spec_pop_rollback (s : ledger_spec) : ledger_spec :=
  Connector (account_mpt s) (asset_bloom_filter s) (merkle_patricia_trie_root_hash s) (ledger_height s)
    (ledger_top_block_hash s) (account_bloom_filters s) (commits s) (removelast (rollbacks s)) (extensions s).

Fixpoint spec_rollback_loop (step : nat) (s : ledger_spec) : outcome ledger_spec unit :=
  match step with
  | O => Ret tt s
  | S step =>
      match last (rollbacks s) with
      | None => Undefined
      | Some operations =>
          match undo_operations (account_mpt s) operations with
          | Done M => spec_rollback_loop step (spec_pop_rollback (spec_with_map s M))
          | Failed e M => Throw e (spec_with_map s M)
          end
      end
  end.

Definition spec_set_root (h : uint256) (s : ledger_spec) : ledger_spec :=
  Connector (account_mpt s) (asset_bloom_filter s) h (ledger_height s) (ledger_top_block_hash s)
    (account_bloom_filters s) (commits s) (rollbacks s) (extensions s).

Definition spec_rollback (step : Z) (s : ledger_spec) : outcome ledger_spec bool :=
  if Z.of_nat (length (rollbacks s)) <=? step then
    match spec_rollback_loop (Z.to_nat step) s with
    | Ret _ s => Ret true (spec_set_root (root_of (account_mpt s)) s)
    | Throw e s => Throw e s
    | Undefined => Undefined
    end
  else Ret false s.

Definition spec_total_rollback (s : ledger_spec) : outcome ledger_spec bool :=
  match spec_rollback 1 s with
  | Ret true s =>
      match commits s with
      | [] => Undefined
      | commit :: _ =>
          if uint256_neqb (merkle_patricia_trie_root_hash s) (prev_mpt_root commit)
          then Throw (ChainDb root_hash_of_the_MPT_cannot_be_restored) s
          else
            match extensions s, last (account_bloom_filters s) with
            | _ :: _, Some filter =>
                Ret true (Connector (account_mpt s) filter (merkle_patricia_trie_root_hash s)
                  (u64 (ledger_height s - 1)) (commit_block_hash commit)
                  (removelast (account_bloom_filters s)) (removelast (commits s)) (rollbacks s)
                  (removelast (extensions s)))
            | _, _ => Undefined
            end
      end
  | r => r
  end.

Definition spec_package (blk : block) (s : ledger_spec) : outcome ledger_spec (bool * option uint256) :=
  if uint256_eqb (prev_block_hash (header blk)) (ledger_top_block_hash s) then
    match spec_insert_block blk false s with
    | Ret true s =>
        Ret (true, Some (root_of (account_mpt s)))
          (Connector (account_mpt s) (asset_bloom_filter s) (merkle_patricia_trie_root_hash s)
             (ledger_height s) (ledger_top_block_hash s) (account_bloom_filters s) (commits s)
             (rollbacks s) (extensions s ++ [∅]))
    | Ret false s | Throw _ s => Ret (false, None) s
    | Undefined => Undefined
    end
  else Ret (false, None) s.

Definition spec_check_transaction (now : Z) (tsc : transaction) (s : ledger_spec) : bool :=
  match get_transaction_operator tsc with
  | Establish =>
      test (asset_bloom_filter s) (get_asset_type tsc) && bool_decide (outs tsc = [])
  | Append =>
      match account_mpt s !! get_sender tsc with
      | None => false
      | Some a =>
          (outs_count tsc =? get_count tsc)
          && (get_count tsc <=? get_balance a (get_asset_type tsc)) && (get_nonce tsc <? nonce a)
          && (now <=? u64 (get_create_time tsc + get_expired_epoch tsc * EPOCH_TIME_UINT))
      end
  | NullOP => false
  end.

Definition spec_check_affair (afi : affair) (s : ledger_spec) : bool :=
  match account_mpt s !! owner afi with None => true | Some o => nonce o <? affair_nonce afi end.
End Specification.

(** ** Simulation *)
Section Simulation.
Context {host : Host} `{HashHandler} {T : Type} `{AccountTrieLaws T}.
Abbreviation ledger := (@connector_account T).
Implicit Types (c : ledger) (s : ledger_spec) (M : accounts).

(** What a ledger stands for: only the contents of the change stores, which are
    for the database, are left open. *)
Definition spec_of c M : ledger_spec :=
  Connector M (asset_bloom_filter c) (merkle_patricia_trie_root_hash c) (ledger_height c)
    (ledger_top_block_hash c) (account_bloom_filters c) (commits c) (rollbacks c)
    (map (fun _ => ∅) (extensions c)).

Definition rollbacks_wf (l : list (list rollback_operation)) : Prop :=
  Forall (Forall (fun otp => uint256_wf (target_address otp))) l.

Definition simulates c s : Prop :=
  exists M, s = spec_of c M /\ at_map (account_mpt c) M /\ rollbacks_wf (rollbacks c).

Definition outcome_simulates {A} (r : outcome ledger A) (r' : outcome ledger_spec A) : Prop :=
  match r, r' with
  | Ret a c, Ret a' s => a = a' /\ simulates c s
  | Throw e c, Throw e' s => e = e' /\ simulates c s
  | Undefined, Undefined => True
  | _, _ => False
  end.

Lemma simulates_with_mpt c t M : at_map t M -> rollbacks_wf (rollbacks c) ->
  simulates (with_mpt c t) (spec_of c M).
Proof. intros Ht Hr. by exists M. Qed.

(** The check reads the tree only. *)
Lemma check_transactions_map t M receipts f l : at_map t M -> Forall sender_wf l ->
  check_transactions t receipts f l
  = check_transactions (H0 := map_AccountTrie at_root) M receipts f l.
Proof.
  intros Ht Hl. revert receipts f. induction Hl as [|tsc l [Hs _] Hl IH]; intros receipts f; [done|].
  cbn [check_transactions]. unfold check_block_transaction.
  rewrite (at_search_spec t M _ Ht Hs). cbn [at_search map_AccountTrie mbind res_bind].
  destruct (get_transaction_operator tsc); [done| |].
  - destruct (M !! get_sender tsc).
    + destruct (negb _); [done|]. apply IH.
    + destruct (receipts !! _ ≫= _) as [[r f']|] eqn:E; rewrite ?E; [apply IH|done].
  - destruct (test _ _); [done|]. apply IH.
Qed.

Lemma check_affairs_map t M receipts l : at_map t M -> Forall (fun air => uint256_wf (owner air)) l ->
  check_affairs t receipts l = check_affairs (H0 := map_AccountTrie at_root) M receipts l.
Proof.
  intros Ht Hl. revert receipts. induction Hl as [|air l Ho Hl IH]; intros receipts; [done|].
  cbn [check_affairs]. destruct (negb _); [apply IH|]. rewrite (at_search_spec t M _ Ht Ho). apply IH.
Qed.

Lemma check_block_body_map t M f blk : at_map t M -> block_wf blk ->
  check_block_body t f blk = map_check_block_body at_root M f blk.
Proof.
  intros Ht [Htx Ha]. unfold map_check_block_body, check_block_body.
  rewrite (check_transactions_map t M) by done.
  destruct (check_transactions _ _ _ _) as [[[r f']|]|]; [|done|done]. cbn [mbind res_bind].
  by rewrite (check_affairs_map t M).
Qed.

Lemma map_check_transactions_ok M receipts f l :
  exists r, check_transactions (H0 := map_AccountTrie at_root) M receipts f l = Ok r.
Proof.
  revert receipts f. induction l as [|tsc l IH]; intros receipts f; [by eexists|].
  cbn [check_transactions]. unfold check_block_transaction. cbn [at_search map_AccountTrie mbind res_bind].
  destruct (get_transaction_operator tsc); [by eexists| |].
  - destruct (M !! get_sender tsc).
    + destruct (negb _); [by eexists|apply IH].
    + destruct (receipts !! _ ≫= _) as [[r f']|]; [apply IH|by eexists].
  - destruct (test _ _); [by eexists|apply IH].
Qed.

Lemma map_check_affairs_ok M receipts l :
  exists r, check_affairs (H0 := map_AccountTrie at_root) M receipts l = Ok r.
Proof.
  revert receipts. induction l as [|air l IH]; intros receipts; [by eexists|].
  cbn [check_affairs]. destruct (negb _); apply IH.
Qed.

Lemma map_check_ok M f blk : exists b, map_check_block_body at_root M f blk = Ok b.
Proof.
  unfold map_check_block_body, check_block_body.
  destruct (map_check_transactions_ok M ∅ f (transactions (body blk))) as ([[r f']|] & ->); cbn [mbind res_bind];
    [|by eexists].
  destruct (map_check_affairs_ok M r (affairs (body blk))) as (r' & ->). by eexists.
Qed.

(** ** Insertion *)
Lemma insert_block_rejects blk ck c b :
  check_block_body (account_mpt c) (asset_bloom_filter c) blk = Ok b -> b && header_ok c blk = false ->
  insert_block blk ck c = Ret false c.
Proof.
  intros Hc Hb. unfold insert_block, get_state, ledger_call. unfold mbind at 1, M_bind at 1.
  unfold mbind at 1, M_bind at 1. rewrite Hc. cbn [mbind res_bind]. rewrite with_mpt_id.
  destruct b; cbn [negb andb] in *; [|done]. unfold header_ok in Hb.
  destruct (_ =? _), (uint256_neqb _ _); done.
Qed.

Lemma spec_insert_rejects blk ck c M b :
  map_check_block_body at_root M (asset_bloom_filter c) blk = Ok b -> b && header_ok c blk = false ->
  spec_insert_block at_root blk ck (spec_of c M) = Ret false (spec_of c M).
Proof.
  intros Hc Hb. unfold spec_insert_block. cbn [account_mpt asset_bloom_filter spec_of].
  rewrite Hc. destruct b; [|done]. cbn [andb] in Hb. change (header_ok (spec_of c M) blk) with (header_ok c blk).
  by rewrite Hb.
Qed.

(** A block is undone in the tree as in the map. *)
Lemma undo_simulates c M1 t l e : at_map t M1 -> rollbacks_wf (rollbacks c) ->
  Forall (fun otp => uint256_wf (target_address otp)) l ->
  forall M, outcome_simulates
    (match ledger_rollback l (with_mpt c t) with
     | Ret _ c' => match e with ChainDb code => Throw (ChainDb code) c' | StdException => Ret false c' end
     | Throw e c' => Throw e c'
     | Undefined => Undefined
     end)
    (spec_undo (spec_of c M) e (undo_operations M1 l)).
Proof.
  intros Ht Hr Hl M. pose proof (ledger_rollback_spec (with_mpt c t) M1 l Ht Hl) as Hs.
  unfold spec_undo. destruct (undo_operations M1 l) as [M2|e2 M2]; destruct Hs as (t' & -> & Ht').
  - destruct e; (split; [done|]); by exists M2.
  - split; [done|]. by exists M2.
Qed.

Lemma rollbacks_wf_snoc l x : rollbacks_wf l -> Forall (fun otp => uint256_wf (target_address otp)) x ->
  rollbacks_wf (l ++ [x]).
Proof. intros Hl Hx. apply Forall_app. split; [done|]. by apply Forall_singleton. Qed.

Lemma insert_block_simulates blk ck c s : block_wf blk -> simulates c s ->
  outcome_simulates (insert_block blk ck c) (spec_insert_block at_root blk ck s).
Proof.
  intros Hwf (M & -> & Hm & Hr).
  destruct (map_check_ok M (asset_bloom_filter c) blk) as [b Hb].
  assert (Hc : check_block_body (account_mpt c) (asset_bloom_filter c) blk = Ok b)
    by by rewrite (check_block_body_map _ M).
  destruct (b && header_ok c blk) eqn:Hbh.
  2:{ rewrite (insert_block_rejects blk ck c b Hc Hbh), (spec_insert_rejects blk ck c M b Hb Hbh).
      split; [done|]. by exists M. }
  apply andb_true_iff in Hbh as [-> Hh]. rewrite insert_block_eq by done.
  unfold spec_insert_block. cbn [account_mpt asset_bloom_filter spec_of]. rewrite Hb.
  change (header_ok (spec_of c M) blk) with (header_ok c blk). rewrite Hh. cbn [negb].
  set (f := set_block_height (asset_bloom_filter c) (height (header blk))).
  assert (Hfree : assets_free f (transactions (body blk))) by (by eapply check_body_free).
  pose proof (start_shows c blk M Hm) as Hw.
  destruct (apply_transactions M (transactions (body blk))) as [M1|e M1] eqn:Hap.
  - destruct (content_spec blk ck (View M [] f ∅) M1 (start_work c blk)) as (w' & Hw' & ->); try done.
    cbn [v_map v_storage v_filter] in Hw'. destruct Hw' as (Hm' & Hst & Hf & _).
    cbn [v_map v_storage v_filter] in Hm', Hst, Hf.
    destruct (ck && uint256_neqb _ _).
    + rewrite Hst. exact (undo_simulates c _ _ (block_operations M M1 blk)
        (ChainDb invalid_patricia_merkle_tree_root_hash) Hm' Hr (block_operations_wf _ _ _ Hwf) M).
    + destruct (finish_spec blk w' (snapshot (block_accounts M1 blk) (elements (block_keys blk)) ∅) c _ Hm')
        as (t & Ht & ->).
      split; [done|]. exists (block_accounts M1 blk). split; [|split; [done|]].
      * unfold spec_accept, spec_of. cbn. by rewrite Hst, Hf.
      * cbn. rewrite Hst. apply rollbacks_wf_snoc; [done|]. by apply block_operations_wf.
  - destruct (gives_transactions_failed (View M [] f ∅) (transactions (body blk)) e M1) as (f' & ks & Hg);
      [apply Hwf|done|done|].
    destruct (Hg _ Hw) as (w' & (Hm' & Hst & _) & E). cbn [v_map v_storage] in Hm', Hst.
    unfold insert_block_content, mbind at 1, M_bind at 1. rewrite E, Hst.
    exact (undo_simulates c _ _ (transactions_operations M (transactions (body blk))) e Hm' Hr
      (transactions_operations_wf _ _ (proj1 Hwf)) M).
Qed.

(** ** Undoing blocks *)
Lemma removelast_const {A B} (b : B) (l : list A) :
  removelast (map (fun _ => b) l) = map (fun _ => b) (removelast l).
Proof. induction l as [|x [|y l] IH]; [done..|]. cbn in *. by rewrite IH. Qed.

Lemma rollbacks_wf_removelast l : rollbacks_wf l -> rollbacks_wf (removelast l).
Proof.
  intros Hl. unfold rollbacks_wf in *. rewrite Forall_forall in Hl |- *. intros x Hx. apply Hl.
  destruct l as [|y l]; [done|]. rewrite (app_removelast_last y (l := y :: l)) by done.
  apply elem_of_app. by left.
Qed.

Lemma rollbacks_wf_last l x : rollbacks_wf l -> last l = Some x ->
  Forall (fun otp => uint256_wf (target_address otp)) x.
Proof. intros Hl Hx%last_Some_elem_of. unfold rollbacks_wf in Hl. rewrite Forall_forall in Hl. auto. Qed.

Lemma rollback_loop_simulates n c s : simulates c s ->
  outcome_simulates (rollback_loop n c) (spec_rollback_loop n s).
Proof.
  revert c s. induction n as [|n IH]; intros c s (M & -> & Hm & Hr); [split; [done|]; by exists M|].
  cbn [rollback_loop spec_rollback_loop]. unfold get_state, mbind at 1, M_bind at 1.
  cbn [rollbacks account_mpt spec_of]. destruct (last (rollbacks c)) as [ops|] eqn:El; [|done].
  pose proof (ledger_rollback_spec c M ops Hm (rollbacks_wf_last _ _ Hr El)) as Hs.
  unfold mbind at 1, M_bind at 1.
  destruct (undo_operations M ops) as [M2|e2 M2]; destruct Hs as (t' & -> & Ht').
  - unfold mbind at 1, M_bind at 1, modify_state. apply IH. exists M2. split; [done|].
    split; [done|]. by apply rollbacks_wf_removelast.
  - split; [done|]. by exists M2.
Qed.

Lemma hash_simulates c s : simulates c s ->
  exists c', ledger_call at_get_hash c = Ret (at_root (account_mpt s)) c' /\ simulates c' s.
Proof.
  intros (M & -> & Hm & Hr). destruct (ledger_get_hash c M Hm) as (t & -> & Ht).
  eexists. split; [done|]. by apply simulates_with_mpt.
Qed.

Lemma set_root_simulates c s h : simulates c s ->
  simulates (Connector (account_mpt c) (asset_bloom_filter c) h (ledger_height c)
    (ledger_top_block_hash c) (account_bloom_filters c) (commits c) (rollbacks c) (extensions c))
    (spec_set_root h s).
Proof. intros (M & -> & Hm & Hr). by exists M. Qed.

Lemma change_store_simulates c s : simulates c s ->
  exists st c', ledger_call at_get_change_store c = Ret st c' /\ simulates c' s.
Proof.
  intros (M & -> & Hm & Hr). unfold ledger_call.
  destruct (at_change_store_spec _ _ Hm) as (st & t & -> & Ht). exists st. eexists. split; [done|].
  by apply simulates_with_mpt.
Qed.

Lemma rollback_simulates step c s : simulates c s ->
  outcome_simulates (rollback step c) (spec_rollback at_root step s).
Proof.
  intros Hs. unfold rollback, spec_rollback, get_state, mbind at 1, M_bind at 1.
  assert (E : rollbacks s = rollbacks c) by (destruct Hs as (M & -> & _); done). rewrite E.
  destruct (_ <=? step); [|done]. unfold mbind at 1, M_bind at 1.
  pose proof (rollback_loop_simulates (Z.to_nat step) c s Hs) as Hl.
  destruct (rollback_loop _ c) as [[] c1|e c1|], (spec_rollback_loop _ s) as [[] s1|e1 s1|]; try done.
  destruct Hl as [_ Hs1]. destruct (hash_simulates c1 s1 Hs1) as (c2 & E2 & Hs2).
  unfold mbind at 1, M_bind at 1. rewrite E2. unfold mbind at 1, M_bind at 1, set_root_hash, modify_state at 1.
  apply (set_root_simulates _ _ (at_root (account_mpt s1))) in Hs2.
  destruct (change_store_simulates _ _ Hs2) as (st & c3 & E3 & (M3 & E4 & Hm3 & Hr3)).
  unfold mbind at 1, M_bind at 1. rewrite E3. cbn. split; [done|]. exists M3. rewrite E4.
  split; [done|]. split; [by apply at_clear_spec|done].
Qed.

Lemma total_rollback_simulates c s : simulates c s ->
  outcome_simulates (total_rollback c) (spec_total_rollback at_root s).
Proof.
  intros Hs. unfold total_rollback, spec_total_rollback, mbind at 1, M_bind at 1.
  pose proof (rollback_simulates 1 c s Hs) as Hl. unfold spec_rollback in *.
  destruct (_ <=? 1).
  2:{ destruct (rollback 1 c) as [b c1|e c1|]; [|done|done]. by destruct Hl as [-> Hs1]. }
  destruct (spec_rollback_loop _ s) as [[] s1|e1 s1|], (rollback 1 c) as [b c1|e c1|]; try done.
  destruct Hl as [-> Hs1]. destruct (hash_simulates _ _ Hs1) as (c2 & E2 & Hs2).
  apply (set_root_simulates _ _ (at_root (account_mpt s1))) in Hs2.
  unfold mbind at 1, M_bind at 1. rewrite E2. unfold mbind at 1, M_bind at 1, set_root_hash, modify_state at 1.
  unfold mbind at 1, M_bind at 1, get_state.
  change (spec_set_root (at_root (account_mpt s1)) (spec_set_root (at_root (account_mpt s1)) s1))
    with (spec_set_root (at_root (account_mpt s1)) s1) in Hs2.
  change (at_root (account_mpt (spec_set_root (at_root (account_mpt s1)) s1))) with (at_root (account_mpt s1)).
  set (c3 := Connector _ _ _ _ _ _ _ _ _) in *. set (s2 := spec_set_root _ s1) in *. clearbody c3 s2.
  destruct Hs2 as (M & -> & Hm & Hr). cbn [commits merkle_patricia_trie_root_hash extensions spec_of account_bloom_filters].
  destruct (commits c3) as [|commit l] eqn:Ec; [done|]. destruct (uint256_neqb _ _).
  - split; [done|]. by exists M.
  - destruct (extensions c3) as [|x xs] eqn:Ex, (last (account_bloom_filters c3)) as [f|]; try done.
    split; [done|]. exists M. split; [|done]. unfold spec_of. cbn [account_mpt asset_bloom_filter
      merkle_patricia_trie_root_hash ledger_height ledger_top_block_hash account_bloom_filters
      commits rollbacks extensions]. by rewrite Ex, Ec, removelast_const.
Qed.

(** ** Packaging and checks *)
Lemma package_simulates blk c s : block_wf blk -> simulates c s ->
  outcome_simulates (package_next_block_MPTR blk c) (spec_package at_root blk s).
Proof.
  intros Hwf Hs. unfold package_next_block_MPTR, spec_package, get_state, mbind at 1, M_bind at 1.
  assert (Et : ledger_top_block_hash s = ledger_top_block_hash c) by by destruct Hs as (M & -> & _).
  rewrite Et. destruct (uint256_eqb _ _); [|done].
  pose proof (insert_block_simulates blk false c s Hwf Hs) as Hi.
  unfold try_catch, attempt, mbind at 1, M_bind at 1, mbind at 1, M_bind at 1.
  destruct (insert_block blk false c) as [b c1|e c1|], (spec_insert_block _ _ _ s) as [b' s1|e' s1|]; try done.
  - destruct Hi as [-> Hs1]. destruct b'; [|by split].
    destruct (hash_simulates _ _ Hs1) as (c2 & E2 & Hs2). unfold mbind at 1, M_bind at 1. rewrite E2.
    destruct (change_store_simulates _ _ Hs2) as (st & c3 & E3 & (M3 & E4 & Hm3 & Hr3)).
    unfold mbind at 1, M_bind at 1. rewrite E3. cbn. split; [done|]. exists M3. subst s1. cbn.
    split; [unfold spec_of; cbn; by rewrite map_app|]. split; [by apply at_clear_spec|done].
  - by destruct Hi as [-> Hs1].
Qed.

Lemma check_transaction_simulates now tsc c s : sender_wf tsc -> simulates c s ->
  outcome_simulates (check_transaction now tsc c) (Ret (spec_check_transaction now tsc s) s).
Proof.
  intros [Hk _] Hs. unfold check_transaction, spec_check_transaction, get_state, mbind at 1, M_bind at 1.
  assert (Hs' := Hs). destruct Hs' as (M & -> & Hm & Hr). cbn [account_mpt asset_bloom_filter spec_of].
  destruct (get_transaction_operator tsc).
  - by split.
  - destruct (outs_count tsc =? get_count tsc); cbn [negb].
    2:{ split; [|by exists M]. by destruct (M !! get_sender tsc). }
    unfold mbind at 1, M_bind at 1, ledger_call. rewrite (at_search_spec _ _ _ Hm Hk).
    cbn [mbind res_bind]. rewrite with_mpt_id. destruct (M !! get_sender tsc) as [a|]; [|by split].
    rewrite (Z.leb_antisym (get_balance _ _)), (Z.ltb_antisym (nonce a)), (Z.leb_antisym (u64 _)).
    destruct (get_balance _ _ <? _); [by split|]. destruct (nonce a <=? _); [by split|].
    destruct (u64 _ <? now); by split.
  - destruct (test _ _); [|by split]. destruct (outs tsc); by split.
Qed.

Lemma check_affair_simulates afi c s : uint256_wf (owner afi) -> simulates c s ->
  outcome_simulates (check_affair afi c) (Ret (spec_check_affair afi s) s).
Proof.
  intros Hk Hs. unfold check_affair, spec_check_affair, ledger_call, mbind at 1, M_bind at 1.
  assert (Hs' := Hs). destruct Hs' as (M & -> & Hm & Hr). cbn [account_mpt spec_of].
  rewrite (at_search_spec _ _ _ Hm Hk). cbn [mbind res_bind]. rewrite with_mpt_id.
  by destruct (M !! owner afi).
Qed.
End Simulation.
