(* ===== verification/LedgerTheorems.v ===== *)
(** * What the ledger guarantees

    The trace theorem that ties the ledger to its specification, the invariant of
    the states it reaches, and what an accepted block means: for the nonces and
    the supply of every account, and for a second node that receives the block. *)
From S2P Require Import Prelude Stream Uint256 Account Transaction Block BloomFilter MptNode Mpt.
From S2P Require Import AccountTrie Effects Ledger LedgerLaws LedgerSpec.

(** ** Runs of a ledger *)
Inductive ledger_op :=
| InsertBlock (blk : block) (check : bool)
| PackageBlock (blk : block)
| Rollback (step : Z)
| TotalRollback
| CheckTransaction (now : Z) (tsc : transaction)
| CheckAffair (afi : affair).

(** The Boolean answer of an operation, and the root hash a packaged block gets. *)
Definition answer : Type := bool * option uint256.

Definition op_wf (op : ledger_op) : Prop :=
  match op with
  | InsertBlock blk _ | PackageBlock blk => block_wf blk
  | CheckTransaction _ tsc => sender_wf tsc
  | CheckAffair afi => uint256_wf (owner afi)
  | Rollback _ | TotalRollback => True
  end.

Section Runs.
Context {host : Host} `{HashHandler} {T : Type} `{AccountTrie T}.

Definition bool_answer {S} (m : M S bool) : M S answer := b ← m; mret (b, None).

Definition ledger_do (op : ledger_op) : M (@connector_account T) answer :=
  match op with
  | InsertBlock blk check => bool_answer (insert_block blk check)
  | PackageBlock blk => package_next_block_MPTR blk
  | Rollback step => bool_answer (rollback step)
  | TotalRollback => bool_answer total_rollback
  | CheckTransaction now tsc => bool_answer (check_transaction now tsc)
  | CheckAffair afi => bool_answer (check_affair afi)
  end.

(** The results of a sequence of operations, each exception caught by the caller;
    undefined behaviour ends it without a state. *)
Fixpoint ledger_run (ops : list ledger_op) (c : @connector_account T)
    : list (exn + answer) * option (@connector_account T) :=
  match ops with
  | [] => ([], Some c)
  | op :: ops =>
      match ledger_do op c with
      | Ret a c => let r := ledger_run ops c in (inr a :: r.1, r.2)
      | Throw e c => let r := ledger_run ops c in (inl e :: r.1, r.2)
      | Undefined => ([], None)
      end
  end.

(** [connector_account()]: an empty tree, height zero. *)
Definition ledger_new (mpt : T) (filter : bloom_filter) : @connector_account T :=
  Connector mpt filter uint256_zero 0 uint256_zero [] [] [] [].
End Runs.

Section SpecRuns.
Context {host : Host} `{HashHandler}.
Variable root_of : accounts -> uint256.

Definition spec_do (op : ledger_op) : M ledger_spec answer :=
  match op with
  | InsertBlock blk check => bool_answer (spec_insert_block root_of blk check)
  | PackageBlock blk => spec_package root_of blk
  | Rollback step => bool_answer (spec_rollback root_of step)
  | TotalRollback => bool_answer (spec_total_rollback root_of)
  | CheckTransaction now tsc => fun s => Ret (spec_check_transaction now tsc s, None) s
  | CheckAffair afi => fun s => Ret (spec_check_affair afi s, None) s
  end.

Fixpoint spec_run (ops : list ledger_op) (s : ledger_spec) : list (exn + answer) * option ledger_spec :=
  match ops with
  | [] => ([], Some s)
  | op :: ops =>
      match spec_do op s with
      | Ret a s => let r := spec_run ops s in (inr a :: r.1, r.2)
      | Throw e s => let r := spec_run ops s in (inl e :: r.1, r.2)
      | Undefined => ([], None)
      end
  end.
End SpecRuns.

Section Refinement.
Context {host : Host} `{HashHandler} {T : Type} `{AccountTrieLaws T}.
Abbreviation ledger := (@connector_account T).
Implicit Types (c : ledger) (s : ledger_spec).

Lemma bool_answer_simulates (m : M ledger bool) (m' : M ledger_spec bool) c s :
  outcome_simulates (m c) (m' s) -> outcome_simulates (bool_answer m c) (bool_answer m' s).
Proof.
  unfold bool_answer, mbind, M_bind, mret, M_ret.
  destruct (m c), (m' s); try done. by intros [-> ?].
Qed.

Lemma ledger_do_simulates op c s : op_wf op -> simulates c s ->
  outcome_simulates (ledger_do op c) (spec_do at_root op s).
Proof.
  intros Hop Hs. destruct op as [blk ck|blk|n| |now tsc|afi]; cbn [ledger_do spec_do op_wf] in *.
  - by apply bool_answer_simulates, insert_block_simulates.
  - by apply package_simulates.
  - by apply bool_answer_simulates, rollback_simulates.
  - by apply bool_answer_simulates, total_rollback_simulates.
  - apply (bool_answer_simulates _ (fun s => Ret (spec_check_transaction now tsc s) s)).
    by apply check_transaction_simulates.
  - apply (bool_answer_simulates _ (fun s => Ret (spec_check_affair afi s) s)).
    by apply check_affair_simulates.
Qed.

Lemma ledger_run_simulates ops c s : Forall op_wf ops -> simulates c s ->
  (ledger_run ops c).1 = (spec_run at_root ops s).1 /\
  match (ledger_run ops c).2, (spec_run at_root ops s).2 with
  | Some c', Some s' => simulates c' s'
  | None, None => True
  | _, _ => False
  end.
Proof.
  intros Hops. revert c s. induction Hops as [|op ops Hop Hops IH]; intros c s Hs; [done|].
  cbn [ledger_run spec_run]. pose proof (ledger_do_simulates op c s Hop Hs) as Hd.
  destruct (ledger_do op c) as [a c'|e c'|], (spec_do at_root op s) as [a' s'|e' s'|]; try done;
    destruct Hd as [<- Hs']; destruct (IH c' s' Hs') as [E Hr]; cbn [fst snd]; rewrite E; done.
Qed.

Lemma ledger_new_simulates mpt filter : at_map mpt ∅ ->
  simulates (ledger_new mpt filter) (ledger_new (∅ : accounts) filter).
Proof. intros Hm. exists ∅. split; [done|]. split; [done|constructor]. Qed.

(** C1: the ledger over any account tree refines the ledger over a finite map: from
    an empty tree, every sequence of insertions, packagings, rollbacks and checks
    gives the same answers, root hashes and exceptions, reaches undefined
    behaviour exactly where the specification does, and ends in a state whose
    tree stands for the specified accounts and whose other fields are equal. *)
Theorem ledger_refines_spec (ops : list ledger_op) (mpt : T) (filter : bloom_filter) :
  at_map mpt ∅ -> Forall op_wf ops ->
  let r := ledger_run ops (ledger_new mpt filter) in
  let r' := spec_run at_root ops (ledger_new (∅ : accounts) filter) in
  r.1 = r'.1 /\
  match r.2, r'.2 with
  | Some c, Some s => simulates c s
  | None, None => True
  | _, _ => False
  end.
Proof. intros Hm Hops. by apply ledger_run_simulates, ledger_new_simulates. Qed.
End Refinement.

(** ** The chain that a ledger keeps *)

(** The hash of the block the last filter belongs to. *)
Definition top_of (filters : list bloom_filter) : uint256 :=
  match last filters with Some f => block_hash f | None => uint256_zero end.

(** Of each block inserted the ledger keeps the rollback operations, the commit
    and the asset filter: heights count up from zero, each commit names the block
    before, and no asset type is ever free again. *)
Record chain_ok {T} (c : @connector_account T) : Prop := {
  chain_rollbacks : length (rollbacks c) = length (commits c);
  chain_filters : length (account_bloom_filters c) = length (commits c);
  chain_extensions : (length (extensions c) <= length (commits c))%nat;
  chain_height : ledger_height c = u64 (Z.of_nat (length (commits c)));
  chain_top : ledger_top_block_hash c = top_of (account_bloom_filters c);
  chain_current f : last (account_bloom_filters c) = Some f -> asset_bloom_filter c = f;
  chain_commit i cm : commits c !! i = Some cm ->
    commit_height cm = u64 (Z.of_nat i) /\ commit_block_hash cm = top_of (take i (account_bloom_filters c));
  chain_filter i f : account_bloom_filters c !! i = Some f ->
    block_height f = u64 (Z.of_nat i + 1) /\ asset f ⊆ asset (asset_bloom_filter c);
}.

Section Chain.
Context {host : Host} `{HashHandler}.
Implicit Types (s : ledger_spec) (M : accounts).

Lemma chain_ok_new {T} (mpt : T) filter : chain_ok (ledger_new mpt filter).
Proof. by constructor. Qed.

(** Only the fields beside the tree matter. *)
Lemma chain_ok_with_map {T T'} (c : @connector_account T) (c' : @connector_account T') :
  asset_bloom_filter c' = asset_bloom_filter c -> ledger_height c' = ledger_height c ->
  ledger_top_block_hash c' = ledger_top_block_hash c ->
  account_bloom_filters c' = account_bloom_filters c -> commits c' = commits c ->
  rollbacks c' = rollbacks c -> (length (extensions c') <= length (commits c))%nat ->
  chain_ok c -> chain_ok c'.
Proof.
  intros E1 E2 E3 E4 E5 E6 E7 [K1 K2 K3 K4 K5 K6 K7 K8].
  constructor; rewrite ?E1, ?E2, ?E3, ?E4, ?E5, ?E6; done.
Qed.

Lemma filter_after_asset f tsc : asset f ⊆ asset (filter_after f tsc).
Proof.
  unfold filter_after. destruct (get_transaction_operator tsc); [done..|].
  unfold BloomFilter.insert. destruct (foldl _ true _); [done|]. cbn [snd asset].
  generalize (get_bits_places (get_asset_type tsc)). intros l. generalize (asset f).
  induction l as [|p l IH]; intros b; [done|]. cbn. etransitivity; [|apply IH]. set_solver.
Qed.

Lemma filters_after f l :
  asset f ⊆ asset (foldl filter_after f l) /\
  block_height (foldl filter_after f l) = block_height f.
Proof.
  revert f. induction l as [|tsc l IH]; intros f; [done|]. cbn [foldl].
  destruct (IH (filter_after f tsc)) as [Ha Hh]. split.
  - etransitivity; [apply filter_after_asset|done].
  - rewrite Hh. unfold filter_after, BloomFilter.insert.
    destruct (get_transaction_operator tsc); [done..|]. by destruct (foldl _ true _).
Qed.

Lemma top_of_snoc l f : top_of (l ++ [f]) = block_hash f.
Proof. unfold top_of. by rewrite last_snoc. Qed.

Lemma chain_accept root_of blk M1 s :
  header_ok s blk = true -> chain_ok s -> chain_ok (spec_accept root_of blk M1 s).
Proof.
  intros [Hh _]%andb_true_iff [K1 K2 K3 K4 K5 K6 K7 K8]. apply Z.eqb_eq in Hh.
  unfold spec_accept. set (f := set_block_hash _ _).
  assert (Hf : block_height f = height (header blk) /\ asset (asset_bloom_filter s) ⊆ asset f).
  { unfold f. cbn [set_block_hash block_height asset].
    destruct (filters_after (set_block_height (asset_bloom_filter s) (height (header blk)))
      (transactions (body blk))) as [Ha Hb]. by rewrite Hb. }
  assert (Hn : height (header blk) = u64 (Z.of_nat (length (commits s)) + 1))
    by (rewrite Hh, K4; apply Zplus_mod_idemp_l).
  constructor; cbn [rollbacks commits account_bloom_filters extensions ledger_height
    ledger_top_block_hash asset_bloom_filter].
  - rewrite !length_app. cbn. lia.
  - rewrite !length_app. cbn. lia.
  - rewrite length_app. lia.
  - rewrite Hn, length_app. cbn. f_equal. lia.
  - by rewrite top_of_snoc.
  - intros g. rewrite last_snoc. by intros [= <-].
  - intros i cm [[Hi E]|[-> <-]]%lookup_snoc_Some.
    + rewrite take_app_le by lia. by apply K7.
    + cbn [commit_height commit_block_hash]. split; [done|]. rewrite K5, take_app_le, <-K2, firstn_all by lia. done.
  - intros i g [[Hi E]|[-> <-]]%lookup_snoc_Some.
    + destruct (K8 i g E) as [Hg Ha]. split; [done|]. etransitivity; [done|apply Hf].
    + split; [|done]. by rewrite (proj1 Hf), Hn, K2.
Qed.

(** A state after an operation that inserts [n] blocks and keeps the change stores. *)
Definition chain_grows (n : nat) s s' : Prop :=
  chain_ok s' /\ extensions s' = extensions s /\ length (commits s') = (n + length (commits s))%nat.

(** What an insertion does to the chain, whatever comes of it. *)
Lemma chain_insert root_of blk ck s :
  chain_ok s ->
  match spec_insert_block root_of blk ck s with
  | Ret b s' => chain_grows (if b : bool then 1 else 0) s s'
  | Throw _ s' => chain_grows 0 s s'
  | Undefined => False
  end.
Proof.
  intros Hs. unfold spec_insert_block.
  assert (Hk : forall M, chain_grows 0 s (spec_with_map s M)).
  { intros M. split; [|by split]. eapply chain_ok_with_map; [..|exact Hs]; try done. apply Hs. }
  assert (Hu : forall e u, match spec_undo s e u with
    | Ret b s' => chain_grows (if b : bool then 1 else 0) s s' | Throw _ s' => chain_grows 0 s s'
    | Undefined => False end).
  { intros e [M|e' M]; [destruct e|]; apply Hk. }
  destruct (map_check_block_body _ _ _ _) as [[]|]; try by split.
  destruct (header_ok s blk) eqn:Hh; [|by split]. cbn [negb].
  destruct (apply_transactions _ _) as [M1|e M1]; [|apply Hu].
  destruct (ck && _); [apply Hu|]. split; [by apply chain_accept|]. split; [done|].
  unfold spec_accept. cbn. rewrite length_app. cbn. lia.
Qed.

Lemma chain_package root_of blk s :
  chain_ok s ->
  match spec_package root_of blk s with Ret _ s' => chain_ok s' | Throw _ _ | Undefined => False end.
Proof.
  intros Hs. unfold spec_package. destruct (uint256_eqb _ _); [|done].
  pose proof (chain_insert root_of blk false s Hs) as Hi.
  destruct (spec_insert_block _ _ _ _) as [[] s'|e s'|]; [|apply Hi|apply Hi|done].
  destruct Hi as (Hok & He & Hl). eapply chain_ok_with_map; [..|exact Hok]; try done. cbn.
  rewrite length_app, He, Hl. cbn. destruct Hs. lia.
Qed.
End Chain.

(** ** Reachable ledgers *)
Definition forward (op : ledger_op) : Prop :=
  match op with Rollback _ | TotalRollback => False | _ => True end.

Section Reachable.
Context {host : Host} `{HashHandler} {T : Type} `{AccountTrieLaws T}.
Abbreviation ledger := (@connector_account T).
Implicit Types (c : ledger) (s : ledger_spec).

(** An operation takes [c] to [c'], with an answer or an exception. *)
Definition goes (op : ledger_op) c c' : Prop :=
  (exists a, ledger_do op c = Ret a c') \/ exists e, ledger_do op c = Throw e c'.

Inductive reachable (c0 : ledger) : ledger -> Prop :=
| reachable_refl : reachable c0 c0
| reachable_step c c' op : reachable c0 c -> forward op -> op_wf op -> goes op c c' -> reachable c0 c'.

(** A ledger that can go on. *)
Definition ledger_ok c : Prop := chain_ok c /\ exists s, simulates c s.

Lemma simulates_chain c s : simulates c s -> chain_ok c <-> chain_ok s.
Proof.
  intros (M & -> & _). split; intros Hc; (eapply chain_ok_with_map; [..|exact Hc]); try done.
  - cbn. rewrite length_map. apply Hc.
  - pose proof (chain_extensions _ Hc) as Hx. cbn in Hx. by rewrite length_map in Hx.
Qed.

Lemma forward_step op c : forward op -> op_wf op -> ledger_ok c ->
  match ledger_do op c with Ret _ c' | Throw _ c' => ledger_ok c' | Undefined => False end.
Proof.
  intros Hf Hop [Hc [s Hs]]. apply (simulates_chain _ _ Hs) in Hc.
  assert (Hspec : match spec_do at_root op s with
    | Ret _ s' | Throw _ s' => chain_ok s' | Undefined => False end).
  { destruct op as [blk ck|blk| | | |]; cbn [spec_do]; try done.
    - unfold bool_answer, mbind, M_bind. pose proof (chain_insert at_root blk ck s Hc) as Hi.
      destruct (spec_insert_block _ _ _ _); [apply Hi|apply Hi|done].
    - pose proof (chain_package at_root blk s Hc) as Hi. by destruct (spec_package _ _ _). }
  pose proof (ledger_do_simulates op c s Hop Hs) as Hd.
  destruct (ledger_do op c) as [a c'|e c'|], (spec_do at_root op s) as [a' s'|e' s'|]; try done;
    destruct Hd as [_ Hs']; (split; [by apply (simulates_chain _ _ Hs')|eauto]).
Qed.

(** C5: a ledger that starts empty and goes through insertions, packagings and checks
    of any blocks, accepted or not, but no rollback, keeps one rollback list, one commit
    and one asset filter per block, its heights count up, each commit names the block
    before it, the current filter is the last one and contains the asset types of all
    the others; and no further insertion, packaging or check reaches undefined
    behaviour.  A rollback breaks the invariant and may itself be undefined
    ([rollback_all_or_nothing]). *)
Theorem reachable_chain_ok (mpt : T) (filter : bloom_filter) c :
  at_map mpt ∅ -> reachable (ledger_new mpt filter) c ->
  chain_ok c /\ forall op, forward op -> op_wf op -> ledger_do op c <> Undefined.
Proof.
  intros Hm Hr. assert (Hok : ledger_ok c).
  { induction Hr as [|c c' op Hr IH Hf Hop Hg].
    - split; [apply chain_ok_new|]. exists (ledger_new (∅ : accounts) filter). by apply ledger_new_simulates.
    - pose proof (forward_step op c Hf Hop IH) as Hs.
      destruct Hg as [[a E]|[e E]]; by rewrite E in Hs. }
  split; [apply Hok|]. intros op Hf Hop E. pose proof (forward_step op c Hf Hop Hok) as Hs.
  by rewrite E in Hs.
Qed.

End Reachable.

(** ** Accepted blocks *)

(** [blk.header.merkle_patricia_trie_root = h] *)
Definition with_trie_root (blk : block) (h : uint256) : block :=
  let hd := header blk in
  {| header := {| prev_block_hash := prev_block_hash hd; assets_blf_hash := assets_blf_hash hd;
                  transactions_merkle_root := transactions_merkle_root hd;
                  affairs_merkle_root := affairs_merkle_root hd; merkle_patricia_trie_root := h;
                  black_block_hashes := black_block_hashes hd; height := height hd;
                  header_create_time := header_create_time hd |};
     body := body blk; block_signature := block_signature blk |}.

Section Accepted.
Context {host : Host} `{HashHandler}.
Implicit Types (s : ledger_spec) (M : accounts).

(** When a block goes in, and what comes of it. *)
Definition accepts root_of (blk : block) (ck : bool) s M1 : Prop :=
  map_check_block_body root_of (account_mpt s) (asset_bloom_filter s) blk = Ok true /\
  header_ok s blk = true /\
  apply_transactions (account_mpt s) (transactions (body blk)) = Done M1 /\
  ck && uint256_neqb (root_of (block_accounts M1 blk)) (merkle_patricia_trie_root (header blk)) = false.

Lemma spec_undo_not_true s e u s' : spec_undo s e u <> Ret true s'.
Proof. by destruct u; [destruct e|]. Qed.

Lemma spec_accepts root_of blk ck s s' :
  spec_insert_block root_of blk ck s = Ret true s' <->
  exists M1, accepts root_of blk ck s M1 /\ s' = spec_accept root_of blk M1 s.
Proof.
  unfold spec_insert_block, accepts. split.
  - destruct (map_check_block_body _ _ _ _) as [[]|]; try done.
    destruct (header_ok s blk); [|done]. cbn [negb].
    destruct (apply_transactions _ _) as [M1|e M1]; [|by intros ?%spec_undo_not_true].
    destruct (ck && _) eqn:E; [by intros ?%spec_undo_not_true|]. intros [= <-]. by exists M1.
  - intros (M1 & (-> & -> & -> & ->) & ->). done.
Qed.
End Accepted.

Section Packaged.
Context {host : Host} `{HashHandler} {T : Type} `{AccountTrieLaws T}.
Abbreviation ledger := (@connector_account T).
Implicit Types (c : ledger) (s : ledger_spec) (M : accounts).

Lemma ledger_accepts blk ck c s c' : block_wf blk -> simulates c s ->
  insert_block blk ck c = Ret true c' ->
  exists M1, accepts at_root blk ck s M1 /\ simulates c' (spec_accept at_root blk M1 s).
Proof.
  intros Hwf Hs E. pose proof (insert_block_simulates blk ck c s Hwf Hs) as Hi. rewrite E in Hi.
  destruct (spec_insert_block at_root blk ck s) as [b s'| |] eqn:Es; try done.
  destruct Hi as [<- Hs']. apply spec_accepts in Es as (M1 & Ha & ->). eauto.
Qed.

(** Two nodes on the same chain: the same accounts, whatever trees hold them. *)
Definition same_chain c1 c2 : Prop :=
  exists M, at_map (account_mpt c1) M /\ at_map (account_mpt c2) M /\
  asset_bloom_filter c1 = asset_bloom_filter c2 /\ ledger_height c1 = ledger_height c2 /\
  ledger_top_block_hash c1 = ledger_top_block_hash c2 /\
  rollbacks_wf (rollbacks c1) /\ rollbacks_wf (rollbacks c2).

(** C6: a block that one node packages is accepted, with the root hash the packager
    computed and its check switched on, by every node on the same chain, and the
    two nodes are on the same chain again afterwards. *)
Theorem packaged_block_accepted blk c1 c2 c1' h :
  block_wf blk -> same_chain c1 c2 ->
  package_next_block_MPTR blk c1 = Ret (true, Some h) c1' ->
  exists c2', insert_block (with_trie_root blk h) true c2 = Ret true c2' /\ same_chain c1' c2' /\
    merkle_patricia_trie_root_hash c2' = h.
Proof.
  intros Hwf (M & Hm1 & Hm2 & Ef & Eh & Et & Hr1 & Hr2) E.
  assert (Hs1 : simulates c1 (spec_of c1 M)) by by exists M.
  assert (Hs2 : simulates c2 (spec_of c2 M)) by by exists M.
  pose proof (package_simulates blk c1 _ Hwf Hs1) as Hp. rewrite E in Hp. unfold spec_package in Hp.
  destruct (uint256_eqb _ _); [|by destruct Hp].
  destruct (spec_insert_block at_root blk false (spec_of c1 M)) as [[] s1'|e s1'|] eqn:Es;
    [|by destruct Hp|by destruct Hp|done].
  destruct Hp as [[= Eroot] (M' & E' & Hm' & Hr')].
  apply spec_accepts in Es as (M1 & (Hc & Hh & Hap & _) & ->).
  assert (EM : M' = block_accounts M1 blk) by (by injection E').
  assert (h = at_root M') as -> by (rewrite EM; done).
  assert (Ha : accepts at_root (with_trie_root blk (at_root M')) true (spec_of c2 M) M1).
  { unfold accepts, header_ok in *. cbn in *. rewrite <-Ef, <-Eh, <-Et. do 3 (split; [done|]).
    rewrite EM. apply negb_false_iff, uint256_eqb_refl. }
  pose proof (insert_block_simulates (with_trie_root blk (at_root M')) true c2 _ Hwf Hs2) as Hi.
  rewrite (proj2 (spec_accepts at_root _ true (spec_of c2 M) _) (ex_intro _ M1 (conj Ha eq_refl))) in Hi.
  destruct (insert_block _ _ c2) as [b c2'|e c2'|] eqn:E2; try done.
  destruct Hi as [-> (M2 & E2' & Hm2' & Hr2')]. exists c2'. split; [done|].
  injection E' as _ Ef1 _ Eh1 Et1 _ _ _ _. injection E2' as EM2 Ef2 Erh2 Eh2 Et2 _ _ _ _.
  assert (EM' : M2 = M') by by rewrite EM, <-EM2.
  split; [|by rewrite <-Erh2, EM]. exists M'. rewrite <-EM'. split; [by rewrite EM'|].
  split; [done|]. rewrite <-Ef1, <-Ef2, <-Eh1, <-Eh2, <-Et1, <-Et2. cbn. rewrite Ef. by repeat split.
Qed.
End Packaged.
