(* ===== verification/LedgerNonces.v ===== *)
(** * Nonces: what the check of a block body excludes

    A block body that [check_block_body] accepts gives each account, over its
    transactions and its affairs, exactly the nonces that follow the account's
    own, so that nothing in it can be a repetition. *)
From S2P Require Import Prelude Stream Uint256 Account Transaction Block BloomFilter MptNode Mpt.
From S2P Require Import AccountTrie Effects Ledger LedgerLaws LedgerSpec.

(** The nonces an account uses in a block, in the order of the receipts. *)
Definition sent_by (k : uint256) (tsc : transaction) : Prop := get_sender tsc = k.
#[export] Instance sent_by_dec k tsc : Decision (sent_by k tsc).
Proof. unfold sent_by. apply _. Defined.
Definition owned_by (k : uint256) (air : affair) : Prop :=
  is_db_level_affair_type air = true /\ owner air = k.
#[export] Instance owned_by_dec k air : Decision (owned_by k air).
Proof. unfold owned_by. apply _. Defined.

Section Used.
Context {host : Host}.
Definition transaction_nonces (k : uint256) (l : list transaction) : list Z :=
  map get_nonce (filter (sent_by k) l).
Definition affair_nonces (k : uint256) (l : list affair) : list Z :=
  map affair_nonce (filter (owned_by k) l).
Definition block_nonces (k : uint256) (blk : block) : list Z :=
  transaction_nonces k (transactions (body blk)) ++ affair_nonces k (affairs (body blk)).

End Used.

(** The nonce of an account; a new one starts at zero. *)
Definition current_nonce (M : accounts) (k : uint256) : Z :=
  match M !! k with Some a => nonce a | None => 0 end.

Section Nonces.
Context {host : Host} `{HashHandler}.
Variable root_of : accounts -> uint256.
Implicit Types (M : accounts) (R : gmap uint256 receipt).

(** The receipts hold the nonces seen so far. *)
Definition tracks M R (seen : uint256 -> list Z) : Prop :=
  forall k, match R !! k with
            | None => seen k = []
            | Some r => receipt_nonce r = seen k /\ nonce_start r = current_nonce M k
            end.

Lemma tracks_insert M R seen k r n :
  tracks M R seen -> receipt_nonce r = seen k ++ [n] -> nonce_start r = current_nonce M k ->
  tracks M (<[k := r]> R) (fun k' => seen k' ++ if decide (k = k') then [n] else []).
Proof.
  intros HR Hr Hs k'. specialize (HR k'). destruct (decide (k = k')) as [<-|Hne].
  - by rewrite lookup_insert_eq.
  - rewrite lookup_insert_ne by done. by rewrite app_nil_r.
Qed.

(** What a receipt is extended to. *)
Lemma tracks_push M R seen k r n :
  tracks M R seen -> R !! k = Some r ->
  receipt_nonce (push_nonce r n) = seen k ++ [n] /\ nonce_start (push_nonce r n) = current_nonce M k.
Proof. intros HR E. specialize (HR k). rewrite E in HR. destruct HR as [<- <-]. done. Qed.

Lemma tracks_new M R seen k : tracks M R seen -> R !! k = None -> seen k = [].
Proof. intros HR E. specialize (HR k). by rewrite E in HR. Qed.

Lemma check_transaction_tracks M R f tsc R' f' seen :
  check_block_transaction (H0 := map_AccountTrie root_of) M R f tsc = Ok (Some (R', f')) ->
  tracks M R seen ->
  tracks M R' (fun k => seen k ++ transaction_nonces k [tsc]).
Proof.
  intros Hc HR.
  enough (exists r, R' = <[get_sender tsc := r]> R /\ receipt_nonce r = seen (get_sender tsc) ++ [get_nonce tsc]
    /\ nonce_start r = current_nonce M (get_sender tsc)) as (r & -> & Hr & Hs).
  { intros k. pose proof (tracks_insert M R seen _ r _ HR Hr Hs k) as Ht.
    assert (E : transaction_nonces k [tsc] = if decide (get_sender tsc = k) then [get_nonce tsc] else []).
    { unfold transaction_nonces. rewrite filter_cons, filter_nil. unfold sent_by. by case_decide. }
    by rewrite E. }
  pose proof (tracks_push M R seen (get_sender tsc)) as Hpush.
  pose proof (tracks_new M R seen (get_sender tsc) HR) as Hnew.
  unfold check_block_transaction in Hc. cbn [at_search map_AccountTrie mbind res_bind] in Hc.
  destruct (get_transaction_operator tsc); [done| |].
  - destruct (M !! get_sender tsc) as [a|] eqn:Ea.
    + destruct (negb _); [done|]. injection Hc as <- <-. eexists. split; [done|].
      destruct (R !! get_sender tsc) as [r|] eqn:Er.
      * destruct (Hpush r (get_nonce tsc) HR eq_refl). by destruct (receipt_balances r !! _).
      * rewrite Hnew by done. unfold current_nonce. by rewrite Ea.
    + destruct (R !! get_sender tsc) as [r|] eqn:Er; [|done]. cbn [mbind option_bind] in Hc.
      destruct (receipt_balances r !! _) as [e|]; [|done]. injection Hc as <- <-. eexists. split; [done|].
      by apply (Hpush r (get_nonce tsc)).
  - destruct (test f _); [done|]. injection Hc as <- <-. eexists. split; [done|].
    destruct (R !! get_sender tsc) as [r|] eqn:Er.
    + by apply (Hpush r (get_nonce tsc)).
    + rewrite Hnew by done. unfold current_nonce. by destruct (M !! get_sender tsc).
Qed.

Lemma check_transactions_tracks M R f l R' f' seen :
  check_transactions (H0 := map_AccountTrie root_of) M R f l = Ok (Some (R', f')) ->
  tracks M R seen ->
  tracks M R' (fun k => seen k ++ transaction_nonces k l).
Proof.
  revert R f seen. induction l as [|tsc l IH]; intros R f seen; cbn [check_transactions].
  - intros [= <- <-] HR k. rewrite app_nil_r. apply HR.
  - destruct (check_block_transaction _ _ _ _) as [[[R1 f1]|]|] eqn:E; cbn [mbind res_bind]; try done.
    intros Hl HR k. pose proof (check_transaction_tracks _ _ _ _ _ _ _ E HR) as HR1.
    specialize (IH _ _ _ Hl HR1 k). cbn beta in IH. rewrite <-app_assoc in IH.
    assert (E' : transaction_nonces k (tsc :: l) = transaction_nonces k [tsc] ++ transaction_nonces k l).
    { unfold transaction_nonces. change (tsc :: l) with ([tsc] ++ l). by rewrite filter_app, map_app. }
    by rewrite E'.
Qed.

Lemma check_affairs_tracks M R l R' seen :
  check_affairs (H0 := map_AccountTrie root_of) M R l = Ok R' ->
  tracks M R seen ->
  tracks M R' (fun k => seen k ++ affair_nonces k l).
Proof.
  revert R seen. induction l as [|air l IH]; intros R seen; cbn [check_affairs].
  - intros [= <-] HR k. rewrite app_nil_r. apply HR.
  - assert (E' : forall k, affair_nonces k (air :: l) = affair_nonces k [air] ++ affair_nonces k l).
    { intros k. unfold affair_nonces. change (air :: l) with ([air] ++ l). by rewrite filter_app, map_app. }
    assert (E1 : forall k, affair_nonces k [air] =
      if is_db_level_affair_type air then if decide (owner air = k) then [affair_nonce air] else [] else []).
    { intros k. unfold affair_nonces. rewrite filter_cons, filter_nil.
      destruct (decide (owned_by k air)) as [[Hd <-]|Hn].
      - by rewrite Hd, decide_True.
      - destruct (is_db_level_affair_type air) eqn:Hd; [|done].
        rewrite decide_False; [done|]. intros Ho. by apply Hn. }
    destruct (is_db_level_affair_type air) eqn:Ed; cbn [negb].
    + cbn [at_search map_AccountTrie mbind res_bind]. intros Hl HR k.
      match type of Hl with check_affairs _ (<[owner air := ?r]> R) _ = _ => set (rcp := r) in * end.
      assert (HR1 : tracks M (<[owner air := rcp]> R)
        (fun k' => seen k' ++ if decide (owner air = k') then [affair_nonce air] else [])).
      { apply tracks_insert; [done| |]; unfold rcp; destruct (R !! owner air) as [r|] eqn:Er.
        - by apply (tracks_push M R seen (owner air) r).
        - by rewrite (tracks_new M R seen (owner air) HR Er).
        - by apply (tracks_push M R seen (owner air) r).
        - unfold current_nonce. by destruct (M !! owner air). }
      specialize (IH _ _ Hl HR1 k). cbn beta in IH. by rewrite <-app_assoc, <-E1, <-E' in IH.
    + intros Hl HR k. rewrite E', E1. by apply (IH _ _ Hl).
Qed.

Lemma tracks_empty M : tracks M ∅ (fun _ => []).
Proof. intros k. by rewrite lookup_empty. Qed.

(** [check_nonce] as the nonces it accepts. *)
Lemma check_consecutive r n : (check r).1 = true -> nonce_start r = n -> 0 <= n ->
  n + Z.of_nat (length (receipt_nonce r)) < 2 ^ 64 ->
  Permutation (receipt_nonce r) (seqZ (n + 1) (Z.of_nat (length (receipt_nonce r)))).
Proof.
  intros Hc <- H0 Hb. unfold check in Hc. pose proof (check_nonce_eq r) as E.
  destruct (check_nonce r) as [[] r']; [|done]. cbn [fst] in E. symmetry in E.
  apply consecutive_spec in E; [|done|by rewrite merge_sort_Permutation].
  rewrite merge_sort_Permutation in E at 2. by rewrite <-E, merge_sort_Permutation.
Qed.

Lemma map_check_nonces M f blk k :
  map_check_block_body root_of M f blk = Ok true ->
  0 <= current_nonce M k -> current_nonce M k + Z.of_nat (length (block_nonces k blk)) < 2 ^ 64 ->
  Permutation (block_nonces k blk)
    (seqZ (current_nonce M k + 1) (Z.of_nat (length (block_nonces k blk)))).
Proof.
  unfold map_check_block_body, check_block_body. intros Hc H0 Hb.
  destruct (check_transactions _ _ _ _) as [[[R f']|]|] eqn:Et; cbn [mbind res_bind] in Hc; try done.
  destruct (check_affairs _ _ _) as [R'|] eqn:Ea; cbn [mbind res_bind] in Hc; [|done].
  injection Hc as Hc. pose proof (check_transactions_tracks _ _ _ _ _ _ _ Et (tracks_empty M)) as HR.
  pose proof (check_affairs_tracks _ _ _ _ _ Ea HR k) as Hk. cbn [app] in Hk.
  fold (block_nonces k blk) in Hk. destruct (R' !! k) as [r|] eqn:Er.
  - destruct Hk as [Hn Hs]. rewrite <-Hn in Hb |- *. apply check_consecutive; [|done|done|done].
    rewrite forallb_forall in Hc. apply (Hc (k, r)), list_elem_of_In. by apply elem_of_map_to_list.
  - rewrite Hk. done.
Qed.
End Nonces.

Section Accepted.
Context {host : Host} `{HashHandler} {T : Type} `{AccountTrieLaws T}.

(** C8: in a block body that passes the check, the nonces an account uses in its
    transactions and affairs are, in some order, the numbers that follow its own
    nonce (zero for a new account), each once: none is repeated, none skipped. *)
Theorem accepted_block_nonces (mpt : T) (f : bloom_filter) (blk : block) (M : accounts) (k : uint256) :
  at_map mpt M -> block_wf blk -> check_block_body mpt f blk = Ok true ->
  0 <= current_nonce M k -> current_nonce M k + Z.of_nat (length (block_nonces k blk)) < 2 ^ 64 ->
  Permutation (block_nonces k blk)
    (seqZ (current_nonce M k + 1) (Z.of_nat (length (block_nonces k blk))))
  /\ NoDup (block_nonces k blk).
Proof.
  intros Hm Hwf Hc H0' Hb. rewrite (check_block_body_map mpt M) in Hc by done.
  pose proof (map_check_nonces at_root M f blk k Hc H0' Hb) as Hp. split; [done|].
  rewrite Hp. apply NoDup_seqZ.
Qed.
End Accepted.
