(* ===== verification/LedgerSupply.v ===== *)
(** * Supply: what an accepted block does to the amounts of an asset

    The supply of an asset is the sum of its balances over all accounts.  A block
    moves it and only an [Establish] raises it, provided the outputs of every
    [Append] add up to its count. *)
From S2P Require Import Prelude Stream Uint256 Account Transaction Block BloomFilter MptNode Mpt.
From S2P Require Import AccountTrie Effects Ledger LedgerLaws LedgerSpec LedgerTheorems.

(** ** Balances *)
Definition amounts_ok (a : account) : Prop := map_Forall (fun _ v => 0 <= v < 2 ^ 64) (balances a).

Lemma amounts_range a t : amounts_ok a -> 0 <= get_balance a t < 2 ^ 64.
Proof.
  intros Ha. rewrite get_balance_default. destruct (balances a !! t) eqn:E; [|done]. by apply Ha in E.
Qed.

(** What an operation adds to the balances of an asset. *)
Definition on_asset (t t' c : Z) : Z := if decide (t' = t) then c else 0.

Lemma add_balance_exact a t c : amounts_ok a -> 0 <= c -> get_balance a t + c < 2 ^ 64 ->
  amounts_ok (add_balance a t c) /\
  forall t', get_balance (add_balance a t c) t' = get_balance a t' + on_asset t t' c.
Proof.
  intros Ha Hc Hs. pose proof (amounts_range a t Ha) as Hr. rewrite get_balance_default in Hs, Hr.
  unfold add_balance, on_asset. destruct (balances a !! t) as [v|] eqn:E; simpl in Hs, Hr.
  - rewrite wrap_small by (unfold is_uint; lia). split; [apply map_Forall_insert_2; [lia|done]|].
    intros t'. rewrite get_balance_with, get_balance_default. case_decide; simplify_map_eq; cbn; lia.
  - split; [apply map_Forall_insert_2; [lia|done]|].
    intros t'. rewrite get_balance_with, get_balance_default. case_decide; simplify_map_eq; cbn; lia.
Qed.

Lemma reduce_balance_exact a t c a' : amounts_ok a -> 0 <= c -> reduce_balance a t c = Ok a' ->
  amounts_ok a' /\ forall t', get_balance a' t' = get_balance a t' - on_asset t t' c.
Proof.
  intros Ha Hc. unfold reduce_balance, on_asset. destruct (balances a !! t) as [v|] eqn:E; [|done].
  pose proof (Ha _ _ E) as Hv. cbn in Hv. destruct (Z.ltb_spec v c); [done|].
  destruct (Z.eqb_spec v c) as [->|]; intros [= <-].
  - split; [by apply map_Forall_delete|]. intros t'. rewrite get_balance_with, get_balance_default.
    case_decide; simplify_map_eq; cbn; lia.
  - rewrite wrap_small by (unfold is_uint; lia). split; [apply map_Forall_insert_2; [lia|done]|].
    intros t'. rewrite get_balance_with, get_balance_default. case_decide; simplify_map_eq; cbn; lia.
Qed.

(** ** Supply *)
Definition supply (M : accounts) (t : Z) : Z := map_fold (fun _ a acc => get_balance a t + acc) 0 M.

Definition balance_at (M : accounts) (k : uint256) (t : Z) : Z :=
  match M !! k with Some a => get_balance a t | None => 0 end.

Lemma supply_new M k a t : M !! k = None -> supply (<[k := a]> M) t = get_balance a t + supply M t.
Proof.
  intros Hn. unfold supply. rewrite map_fold_insert_L; [done| |done]. intros. lia.
Qed.

Lemma supply_insert M k a t :
  supply (<[k := a]> M) t = supply M t + get_balance a t - balance_at M k t.
Proof.
  unfold balance_at. destruct (M !! k) as [b|] eqn:E; [|rewrite supply_new by done; lia].
  rewrite <-(insert_delete_id M k b E) at 2. rewrite <-insert_delete_eq.
  rewrite !supply_new by apply lookup_delete_eq. lia.
Qed.

Definition all_ok (M : accounts) : Prop := map_Forall (fun _ a => amounts_ok a) M.

Lemma supply_nonneg M t : all_ok M -> 0 <= supply M t.
Proof.
  intros HM. induction M as [|k a M Hk IH] using map_ind; [done|].
  rewrite supply_new by done. apply map_Forall_insert in HM as [Ha HM]; [|done].
  specialize (IH HM). pose proof (amounts_range a t Ha). lia.
Qed.

Lemma balance_le_supply M k t : all_ok M -> 0 <= balance_at M k t <= supply M t.
Proof.
  intros HM. unfold balance_at. destruct (M !! k) as [a|] eqn:E; [|split; [done|by apply supply_nonneg]].
  rewrite <-(insert_delete_id M k a E), supply_new by apply lookup_delete_eq.
  pose proof (amounts_range a t (HM _ _ E)). pose proof (supply_nonneg (delete k M) t (map_Forall_delete _ _ _ HM)).
  lia.
Qed.

(** An account in place of another, or a new one. *)
Lemma all_ok_insert M k a : all_ok M -> amounts_ok a -> all_ok (<[k := a]> M).
Proof. intros HM Ha. by apply map_Forall_insert_2. Qed.

Lemma default_ok M k b : all_ok M -> amounts_ok b -> amounts_ok (default b (M !! k)).
Proof. intros HM Hb. destruct (M !! k) as [a|] eqn:E; [by apply (HM k)|done]. Qed.

Lemma default_balance M k b t : balances b = ∅ -> get_balance (default b (M !! k)) t = balance_at M k t.
Proof.
  intros Hb. unfold balance_at. destruct (M !! k); [done|]. cbn. by rewrite get_balance_default, Hb, lookup_empty.
Qed.

(** Adding to an account that may be new. *)
Lemma supply_add M k b t c : all_ok M -> balances b = ∅ -> 0 <= c -> supply M t + c < 2 ^ 64 ->
  let M' := <[k := add_balance (default b (M !! k)) t c]> M in
  all_ok M' /\ forall t', supply M' t' = supply M t' + on_asset t t' c.
Proof.
  intros HM Hb Hc Hs. pose proof (balance_le_supply M k t HM) as Hk.
  assert (Hok : amounts_ok (default b (M !! k))).
  { apply default_ok; [done|]. unfold amounts_ok. rewrite Hb. apply map_Forall_empty. }
  destruct (add_balance_exact (default b (M !! k)) t c) as [Ha Hg]; [done|done| |].
  { rewrite default_balance by done. lia. }
  split; [by apply all_ok_insert|]. intros t'. rewrite supply_insert, Hg, default_balance by done. lia.
Qed.

Section Supply.
Context {host : Host}.

(** The outputs of an [Append] add up to its count. *)
Definition outs_exact (tsc : transaction) : Prop :=
  get_transaction_operator tsc = Append ->
  Forall (fun o => 0 <= out_count o) (outs tsc) /\ foldr Z.add 0 (map out_count (outs tsc)) = get_count tsc.

(** What the [Establish] transactions of a list bring into being. *)
Definition mints (t : Z) (tsc : transaction) : Z :=
  match get_transaction_operator tsc with
  | Establish => on_asset (get_asset_type tsc) t ASSET_MAX_COUNT
  | _ => 0
  end.
Definition minted (t : Z) (l : list transaction) : Z := foldr Z.add 0 (map (mints t) l).

Lemma mints_nonneg t tsc : 0 <= mints t tsc.
Proof. unfold mints, on_asset. by destruct (get_transaction_operator tsc); [| |case_decide]. Qed.

Lemma minted_nonneg t l : 0 <= minted t l.
Proof. induction l as [|tsc l IH]; [done|]. pose proof (mints_nonneg t tsc). unfold minted in *. cbn. lia. Qed.

Lemma supply_credits t l M : all_ok M -> Forall (fun o => 0 <= out_count o) l ->
  supply M t + foldr Z.add 0 (map out_count l) < 2 ^ 64 ->
  all_ok (foldl (credit t) M l) /\
  forall t', supply (foldl (credit t) M l) t' = supply M t' + on_asset t t' (foldr Z.add 0 (map out_count l)).
Proof.
  intros HM Hl. revert M HM. induction Hl as [|o l Ho Hl IH]; intros M HM Hs; cbn [foldl map foldr] in *.
  - split; [done|]. intros t'. unfold on_asset. case_decide; lia.
  - assert (Hn : 0 <= foldr Z.add 0 (map out_count l)).
    { clear -Hl. induction Hl; cbn; lia. }
    destruct (supply_add M (receiver o) (account_make (receiver o) 0) t (out_count o)) as [H1 H2]; try done; [lia|].
    destruct (IH (credit t M o) H1) as [H3 H4].
    { unfold credit. rewrite H2. unfold on_asset. rewrite decide_True by done. lia. }
    split; [done|]. intros t'. rewrite H4. unfold credit at 1. rewrite H2. unfold on_asset. case_decide; lia.
Qed.

Lemma supply_transaction M tsc M' : all_ok M -> outs_exact tsc -> apply_transaction M tsc = Done M' ->
  (forall t, supply M t + mints t tsc < 2 ^ 64) ->
  all_ok M' /\ forall t, supply M' t = supply M t + mints t tsc.
Proof.
  unfold apply_transaction, outs_exact, mints. intros HM Ho Hap Hs.
  destruct (get_transaction_operator tsc).
  - injection Hap as <-. split; [done|]. intros t. lia.
  - destruct (Ho eq_refl) as [Hpos Hsum]. destruct (M !! get_sender tsc) as [a|] eqn:Ea; [|done].
    destruct (debit tsc a) as [a'|] eqn:Ed; [|done]. injection Hap as <-.
    assert (Hn : 0 <= get_count tsc) by (rewrite <-Hsum; clear -Hpos; induction Hpos; cbn; lia).
    destruct (reduce_balance_exact _ _ _ _ (HM _ _ Ea : amounts_ok (Account.set_nonce a _)) Hn Ed) as [Ha Hg].
    assert (E1 : forall t, supply (<[get_sender tsc := a']> M) t = supply M t - on_asset (get_asset_type tsc) t (get_count tsc)).
    { intros t. rewrite supply_insert, Hg. unfold balance_at. rewrite Ea.
      change (get_balance (Account.set_nonce a _) t) with (get_balance a t). lia. }
    destruct (supply_credits (get_asset_type tsc) (outs tsc) (<[get_sender tsc := a']> M)) as [H1 H2].
    + by apply all_ok_insert.
    + done.
    + rewrite E1, Hsum. unfold on_asset. rewrite decide_True by done. specialize (Hs (get_asset_type tsc)). lia.
    + split; [done|]. intros t. rewrite H2, E1, Hsum. lia.
  - injection Hap as <-. unfold established.
    apply (supply_add M (get_sender tsc) (account_make (get_sender tsc) 1)); try done.
    specialize (Hs (get_asset_type tsc)). unfold on_asset in Hs. rewrite decide_True in Hs by done. exact Hs.
Qed.

Lemma supply_transactions M l M' : all_ok M -> Forall outs_exact l -> apply_transactions M l = Done M' ->
  (forall t, supply M t + minted t l < 2 ^ 64) ->
  all_ok M' /\ forall t, supply M' t = supply M t + minted t l.
Proof.
  intros HM Hl. revert M HM. induction Hl as [|tsc l Ho Hl IH]; intros M HM Hap Hs; cbn [apply_transactions] in Hap.
  - injection Hap as <-. split; [done|]. intros t. cbn. lia.
  - unfold minted in *. cbn [map foldr] in *.
    destruct (apply_transaction M tsc) as [M1|] eqn:E; [|done].
    destruct (supply_transaction M tsc M1 HM Ho E) as [H1 H2].
    { intros t. specialize (Hs t). pose proof (minted_nonneg t l) as Hn. unfold minted in Hn. lia. }
    destruct (IH M1 H1 Hap) as [H3 H4].
    { intros t. rewrite H2. specialize (Hs t). lia. }
    split; [done|]. intros t. rewrite H4, H2. lia.
Qed.

Lemma supply_affair M air : all_ok M ->
  all_ok (apply_affair M air) /\ forall t, supply (apply_affair M air) t = supply M t.
Proof.
  intros HM. unfold apply_affair. destruct (is_db_level_affair_type air); [|done]. cbn [negb].
  split.
  - apply all_ok_insert; [done|]. destruct (M !! owner air) as [a|] eqn:E; [by apply (HM _ _ E)|apply map_Forall_empty].
  - intros t. rewrite supply_insert. unfold balance_at. destruct (M !! owner air) as [a|].
    2:{ rewrite get_balance_default. cbn. rewrite lookup_empty. cbn. lia. }
    change (get_balance (Account.set_nonce a _) t) with (get_balance a t). lia.
Qed.

Lemma supply_affairs M l : all_ok M ->
  all_ok (foldl apply_affair M l) /\ forall t, supply (foldl apply_affair M l) t = supply M t.
Proof.
  revert M. induction l as [|air l IH]; intros M HM; [done|]. cbn [foldl].
  destruct (supply_affair M air HM) as [H1 H2]. destruct (IH _ H1) as [H3 H4].
  split; [done|]. intros t. by rewrite H4, H2.
Qed.
End Supply.

Section Conserved.
Context {host : Host} `{HashHandler} {T : Type} `{AccountTrieLaws T}.

(** C7: inserting a block changes the supply of an asset by the maximum for each
    [Establish] of that asset, and by nothing else: [Append] transactions and
    affairs move amounts between accounts without creating or losing any.  It is
    required that the outputs of each [Append] add up to its count and that no
    supply passes 2^64. *)
Theorem supply_conserved (c c' : @connector_account T) (blk : block) (ck : bool) (M : accounts) :
  at_map (account_mpt c) M -> rollbacks_wf (rollbacks c) -> block_wf blk -> all_ok M ->
  Forall outs_exact (transactions (body blk)) ->
  (forall t, supply M t + minted t (transactions (body blk)) < 2 ^ 64) ->
  insert_block blk ck c = Ret true c' ->
  exists M', at_map (account_mpt c') M' /\ all_ok M' /\
    forall t, supply M' t = supply M t + minted t (transactions (body blk)).
Proof.
  intros Hm Hr Hwf HM Ho Hs E. assert (Hsim : simulates c (spec_of c M)) by by exists M.
  destruct (ledger_accepts blk ck c _ c' Hwf Hsim E) as (M1 & (_ & _ & Hap & _) & (M2 & E2 & Hm2 & _)).
  destruct (supply_transactions M _ M1 HM Ho Hap Hs) as [H1' H2].
  destruct (supply_affairs M1 (affairs (body blk)) H1') as [H3 H4].
  exists M2. injection E2 as <- _. split; [done|]. split; [done|]. intros t. unfold block_accounts. by rewrite H4, H2.
Qed.
End Conserved.
