(* ===== verification/LedgerRollback.v ===== *)
(** * Rollback: which blocks can be undone

    A rollback runs the stored operations in the order in which they were made.
    It gives back the accounts of a block that only establishes assets for new
    accounts and handles affairs; an [Append] leaves its sender with another
    nonce.  And [rollback] only acts when it is asked for every block there is. *)
From S2P Require Import Prelude Stream Uint256 Account Transaction Block BloomFilter MptNode Mpt.
From S2P Require Import AccountTrie Effects Ledger LedgerLaws LedgerSpec LedgerTheorems LedgerNonces.

(** ** One account under a list of operations *)
Section Pointwise.
Context {host : Host}.
Implicit Types (M : accounts) (otp : rollback_operation).

(** Operations that cannot throw. *)
Definition simple otp : Prop := rb_type otp = UPDATE -> rb_update_type otp <> UPDATE_REDUCE.

Definition act otp (o : option account) : option account :=
  match o, rb_type otp with
  | None, _ | _, DELETE_ACCOUNT => None
  | Some a, INSERT => Some a
  | Some a, ONLY_REDUCE_NONCE => Some (decremented a)
  | Some a, UPDATE =>
      match rb_update_type otp with
      | UPDATE_NONE => Some a
      | UPDATE_ADD => Some (decremented (add_balance a (rb_asset_type otp) (rb_value otp)))
      | UPDATE_DELETE_ASSET => Some (decremented (delete_asset a (rb_asset_type otp)))
      | UPDATE_REDUCE => Some a
      end
  end.

Definition undo_at (k : uint256) (o : option account) (l : list rollback_operation) : option account :=
  foldl (fun o otp => if decide (target_address otp = k) then act otp o else o) o l.

Lemma undo_operation_simple M otp : simple otp ->
  exists M', undo_operation M otp = Done M' /\
    forall k, M' !! k = if decide (target_address otp = k) then act otp (M !! k) else M !! k.
Proof.
  unfold simple, undo_operation, act. intros Hs. destruct (rb_type otp).
  - exists M. split; [done|]. intros k. case_decide; [subst|done]. by destruct (M !! _).
  - eexists. split; [done|]. intros k. case_decide; [subst|by rewrite lookup_delete_ne].
    rewrite lookup_delete_eq. by destruct (M !! _).
  - destruct (M !! target_address otp) as [a|] eqn:E.
    + destruct (rb_update_type otp); [exists M; split; [done|]; intros k; case_decide; [subst; by rewrite E|done]| |by destruct (Hs eq_refl)|];
        (eexists; split; [done|]; intros k; case_decide;
          [subst; by rewrite lookup_insert_eq, E|by rewrite lookup_insert_ne]).
    + exists M. split; [done|]. intros k. case_decide; [subst; by rewrite E|done].
  - destruct (M !! target_address otp) as [a|] eqn:E.
    + eexists. split; [done|]. intros k. case_decide; [subst; by rewrite lookup_insert_eq, E|].
      by rewrite lookup_insert_ne.
    + exists M. split; [done|]. intros k. case_decide; [subst; by rewrite E|done].
Qed.

Lemma undo_operations_simple M l : Forall simple l ->
  exists M', undo_operations M l = Done M' /\ forall k, M' !! k = undo_at k (M !! k) l.
Proof.
  intros Hl. revert M. induction Hl as [|otp l Ho Hl IH]; intros M; [by exists M|].
  cbn [undo_operations]. destruct (undo_operation_simple M otp Ho) as (M1 & -> & H1).
  destruct (IH M1) as (M2 & -> & H2). exists M2. split; [done|]. intros k. rewrite H2, H1. done.
Qed.

Lemma undo_at_app k o l l' : undo_at k o (l ++ l') = undo_at k (undo_at k o l) l'.
Proof. apply foldl_app. Qed.

Lemma undo_at_none k l : undo_at k None l = None.
Proof. induction l as [|otp l IH]; [done|]. cbn. by case_decide. Qed.

(** A deletion is final. *)
Lemma undo_at_deleted k o l :
  (exists otp, otp ∈ l /\ target_address otp = k /\ rb_type otp = DELETE_ACCOUNT) -> undo_at k o l = None.
Proof.
  intros (otp & (l1 & l2 & ->)%list_elem_of_split & Hk & Hd). rewrite undo_at_app.
  change (undo_at k ?x (otp :: l2)) with
    (undo_at k (if decide (target_address otp = k) then act otp x else x) l2).
  rewrite decide_True by done. unfold act. rewrite Hd. destruct (undo_at k o l1); apply undo_at_none.
Qed.

Lemma undo_at_other k o l : Forall (fun otp => target_address otp <> k) l -> undo_at k o l = o.
Proof. induction 1 as [|otp l Ho Hl IH]; [done|]. cbn. by rewrite decide_False. Qed.
End Pointwise.

(** ** Blocks that can be undone *)
Section Establish.
Context {host : Host}.
Implicit Types (M : accounts).

(** Every transaction establishes an asset for an account that [M] does not have. *)
Definition fresh_establish M (tsc : transaction) : Prop :=
  get_transaction_operator tsc = Establish /\ M !! get_sender tsc = None.

Lemma establish_simple M l : Forall (fun tsc => get_transaction_operator tsc = Establish) l ->
  Forall simple (transactions_operations M l).
Proof.
  intros Hl. revert M. induction Hl as [|tsc l Ho Hl IH]; intros M; [constructor|].
  cbn [transactions_operations]. unfold transaction_operations, apply_transaction. rewrite Ho.
  constructor; [|apply IH]. unfold simple. cbn. by case_bool_decide.
Qed.

Lemma affairs_simple M l : Forall simple (affairs_operations M l).
Proof.
  revert M. induction l as [|air l IH]; intros M; [constructor|]. cbn [affairs_operations].
  apply Forall_app. split; [|apply IH]. unfold affair_operations.
  destruct (is_db_level_affair_type air); [|constructor]. apply Forall_singleton. unfold simple. cbn.
  by destruct (M !! owner air).
Qed.

(** An account that a transaction or an affair makes is deleted again. *)
Lemma establish_new M l M1 k : Forall (fun tsc => get_transaction_operator tsc = Establish) l ->
  apply_transactions M l = Done M1 -> M !! k = None ->
  M1 !! k = None \/
  exists otp, otp ∈ transactions_operations M l /\ target_address otp = k /\ rb_type otp = DELETE_ACCOUNT.
Proof.
  intros Hl. revert M. induction Hl as [|tsc l Ho Hl IH]; intros M Hap Hk; cbn [apply_transactions] in Hap.
  - injection Hap as <-. by left.
  - cbn [transactions_operations]. unfold transaction_operations, apply_transaction in *. rewrite Ho in *.
    destruct (decide (get_sender tsc = k)) as [<-|Hne].
    + right. eexists. split; [by left|]. split; [done|]. cbn. by rewrite Hk, bool_decide_eq_false_2 by by intros [].
    + destruct (IH _ Hap) as [Hn|(otp & Hin & Ht)]; [by rewrite lookup_insert_ne|by left|].
      right. exists otp. split; [|done]. by right.
Qed.

Lemma affairs_new M l k : M !! k = None ->
  foldl apply_affair M l !! k = None \/
  exists otp, otp ∈ affairs_operations M l /\ target_address otp = k /\ rb_type otp = DELETE_ACCOUNT.
Proof.
  revert M. induction l as [|air l IH]; intros M Hk; [by left|]. cbn [foldl affairs_operations].
  unfold affair_operations. destruct (is_db_level_affair_type air) eqn:Ed; cbn [negb].
  - destruct (decide (owner air = k)) as [<-|Hne].
    + right. eexists. split; [by left|]. by rewrite Hk.
    + destruct (IH (apply_affair M air)) as [Hn|(otp & Hin & Ht)].
      * unfold apply_affair. rewrite Ed. cbn [negb]. by rewrite lookup_insert_ne.
      * by left.
      * right. exists otp. split; [by right|done].
  - destruct (IH (apply_affair M air)) as [Hn|(otp & Hin & Ht)].
    + unfold apply_affair. by rewrite Ed.
    + by left.
    + right. by exists otp.
Qed.

(** An account that was there is touched by affairs only. *)
Lemma establish_old M0 M l M1 k : Forall (fresh_establish M0) l -> is_Some (M0 !! k) ->
  apply_transactions M l = Done M1 ->
  M1 !! k = M !! k /\ Forall (fun otp => target_address otp <> k) (transactions_operations M l).
Proof.
  intros Hl Hk. revert M. induction Hl as [|tsc l [Ho Hn] Hl IH]; intros M Hap; cbn [apply_transactions] in Hap.
  - injection Hap as <-. by split.
  - cbn [transactions_operations]. unfold transaction_operations, apply_transaction in *. rewrite Ho in *.
    destruct (IH _ Hap) as [H1 H2]. assert (Hne : get_sender tsc <> k) by (intros <-; by destruct Hk as [? ?]; congruence).
    rewrite lookup_insert_ne in H1 by done. split; [done|]. by constructor.
Qed.

Definition with_nonce (a : account) (n : Z) : account := Account.set_nonce a (u64 n).

Lemma with_nonce_twice a n m : with_nonce (with_nonce a n) m = with_nonce a m.
Proof. done. Qed.

Lemma affairs_old M l k a : M !! k = Some a ->
  exists m, foldl apply_affair M l !! k = Some (match m with 0%nat => a | _ => with_nonce a (nonce a + Z.of_nat m) end) /\
    forall b, undo_at k (Some b) (affairs_operations M l)
      = Some (match m with 0%nat => b | _ => with_nonce b (nonce b - Z.of_nat m) end).
Proof.
  revert M a. induction l as [|air l IH]; intros M a Hk; [by exists O|]. cbn [foldl affairs_operations].
  unfold affair_operations, apply_affair at 2. destruct (is_db_level_affair_type air) eqn:Ed; cbn [negb].
  - destruct (decide (owner air = k)) as [<-|Hne].
    + destruct (IH (apply_affair M air) (with_nonce a (nonce a + 1))) as (m & H1 & H2).
      { unfold apply_affair. rewrite Ed, Hk. cbn [negb]. apply lookup_insert_eq. }
      exists (S m). unfold apply_affair in H1 at 2. rewrite Ed in H1. cbn [negb] in H1.
      rewrite Hk in H1. rewrite Hk. split.
      * rewrite H1. f_equal. destruct m; [done|]. rewrite with_nonce_twice. unfold with_nonce. f_equal.
        cbn [nonce Account.set_nonce]. rewrite wrap_add_l. f_equal. lia.
      * intros b. rewrite undo_at_app. cbn [undo_at foldl target_address]. rewrite decide_True by done.
        cbn [act rb_type]. fold (undo_at (owner air)). rewrite H2. f_equal.
        change (decremented b) with (with_nonce b (nonce b - 1)).
        destruct m; [done|]. rewrite with_nonce_twice. unfold with_nonce. f_equal.
        cbn [nonce Account.set_nonce]. unfold wrap. rewrite Zminus_mod_idemp_l. f_equal. lia.
    + destruct (IH (apply_affair M air) a) as (m & H1 & H2).
      { unfold apply_affair. rewrite Ed. cbn [negb]. by rewrite lookup_insert_ne. }
      exists m. unfold apply_affair in H1 at 2. rewrite Ed in H1. cbn [negb] in H1. split; [done|].
      intros b. rewrite undo_at_app, (undo_at_other k (Some b)); [apply H2|]. by apply Forall_singleton.
  - destruct (IH (apply_affair M air) a) as (m & H1 & H2); [unfold apply_affair; by rewrite Ed|].
    exists m. unfold apply_affair in H1 at 2. rewrite Ed in H1. cbn [negb] in H1. by split.
Qed.

Definition nonces_ok M : Prop := map_Forall (fun _ a => 0 <= nonce a < 2 ^ 64) M.

Lemma establish_undone M blk M1 : nonces_ok M ->
  Forall (fresh_establish M) (transactions (body blk)) ->
  apply_transactions M (transactions (body blk)) = Done M1 ->
  undo_operations (block_accounts M1 blk) (block_operations M M1 blk) = Done M.
Proof.
  intros Hn Hf Hap.
  assert (He : Forall (fun tsc => get_transaction_operator tsc = Establish) (transactions (body blk)))
    by (eapply Forall_impl; [exact Hf|by intros ? []]).
  destruct (undo_operations_simple (block_accounts M1 blk) (block_operations M M1 blk)) as (M' & -> & Hk).
  { apply Forall_app. split; [by apply establish_simple|apply affairs_simple]. }
  f_equal. apply map_eq. intros k. rewrite Hk. unfold block_accounts, block_operations.
  destruct (M !! k) as [a|] eqn:Ea.
  - destruct (establish_old M M _ M1 k Hf ltac:(eauto) Hap) as [E1 Ho].
    destruct (affairs_old M1 (affairs (body blk)) k a) as (m & E2 & Hu); [by rewrite E1|].
    rewrite E2, undo_at_app, (undo_at_other k _ _ Ho), Hu. destruct m; [done|]. rewrite with_nonce_twice.
    unfold with_nonce. cbn [nonce Account.set_nonce]. f_equal. destruct a as [ad n b]. unfold Account.set_nonce.
    cbn [address nonce balances] in *. f_equal. unfold wrap. rewrite Zminus_mod_idemp_l.
    rewrite Z.add_simpl_r. apply Z.mod_small. by apply (Hn k _ Ea).
  - rewrite undo_at_app. destruct (establish_new M _ M1 k He Hap Ea) as [E1|Hd].
    + destruct (affairs_new M1 (affairs (body blk)) k E1) as [->|Hd']; [by rewrite !undo_at_none|].
      by apply undo_at_deleted.
    + rewrite (undo_at_deleted k _ _ Hd). apply undo_at_none.
Qed.
End Establish.

(** ** An [Append] is not undone *)

(** The transactions of one account. *)
#[local] Abbreviation sent k l := (filter (sent_by k) l).

Section Append.
Context {host : Host}.
Implicit Types (M : accounts).

Lemma debit_nonce tsc a a' : debit tsc a = Ok a' -> nonce a' = u64 (get_nonce tsc + 1).
Proof.
  unfold debit, reduce_balance. cbn [balances Account.set_nonce]. destruct (balances a !! _); [|done].
  destruct (_ <? _); [done|]. by destruct (_ =? _); intros [= <-].
Qed.

Lemma credits_nonce t l M k a : M !! k = Some a ->
  exists a', foldl (credit t) M l !! k = Some a' /\ nonce a' = nonce a.
Proof.
  revert M a. induction l as [|o l IH]; intros M a Ha; [by exists a|]. cbn [foldl].
  destruct (decide (receiver o = k)) as [<-|Hne].
  - destruct (IH (credit t M o) (add_balance a t (out_count o))) as (a' & E & Hn).
    { unfold credit. by rewrite lookup_insert_eq, Ha. }
    exists a'. split; [done|]. rewrite Hn. unfold add_balance. by destruct (balances a !! t).
  - apply IH. unfold credit. by rewrite lookup_insert_ne.
Qed.

Lemma undo_receivers M0 tsc l M k a M' : is_Some (M0 !! k) -> M !! k = Some a ->
  undo_operations M (map (receiver_operation M0 tsc) l) = Done M' ->
  exists a', M' !! k = Some a' /\ nonce a' = nonce a.
Proof.
  intros Hk. revert M a. induction l as [|o l IH]; intros M a Ha; cbn [map undo_operations].
  - intros [= <-]. by exists a.
  - unfold receiver_operation at 1. destruct (decide (receiver o = k)) as [<-|Hne].
    + rewrite bool_decide_eq_true_2 by done. unfold undo_operation at 1.
      cbn [rb_type target_address rb_update_type rb_asset_type rb_value].
      rewrite Ha. destruct (reduce_balance a _ _) as [a1|] eqn:Er; [|done]. intros Hu.
      destruct (IH _ a1 ltac:(apply lookup_insert_eq) Hu) as (a' & E & Hn). exists a'. split; [done|].
      rewrite Hn. unfold reduce_balance in Er. destruct (balances a !! _); [|done].
      destruct (_ <? _); [done|]. by destruct (_ =? _); injection Er as <-.
    + case_bool_decide; unfold undo_operation at 1; cbn [rb_type target_address rb_update_type rb_asset_type rb_value].
      * destruct (M !! receiver o) as [b|] eqn:Eb; [|by apply IH].
        destruct (reduce_balance b _ _) as [b1|]; [|done]. apply IH. by rewrite lookup_insert_ne.
      * apply IH. by rewrite lookup_delete_ne.
Qed.

(** *** The transactions of one account, among those of the others *)

Lemma sent_cons k tsc l : sent k (tsc :: l) = if decide (get_sender tsc = k) then tsc :: sent k l else sent k l.
Proof. rewrite filter_cons. unfold sent_by. by repeat case_decide. Qed.

(** What a transaction leaves as the nonce of an account that exists. *)
Lemma apply_transaction_nonce M tsc M1 k a : M !! k = Some a ->
  (get_sender tsc = k -> get_transaction_operator tsc = Append) -> apply_transaction M tsc = Done M1 ->
  exists a', M1 !! k = Some a' /\ nonce a' = if decide (get_sender tsc = k) then u64 (get_nonce tsc + 1) else nonce a.
Proof.
  intros Ha Hop. unfold apply_transaction. destruct (decide (get_sender tsc = k)) as [<-|Hne].
  - rewrite (Hop eq_refl), Ha. destruct (debit tsc a) as [a1|] eqn:Ed; [|done]. intros [= <-].
    destruct (credits_nonce (get_asset_type tsc) (outs tsc) (<[get_sender tsc := a1]> M) (get_sender tsc) a1)
      as (a2 & E & En); [apply lookup_insert_eq|]. exists a2. by rewrite En, (debit_nonce _ _ _ Ed).
  - destruct (get_transaction_operator tsc).
    + intros [= <-]. by exists a.
    + destruct (M !! get_sender tsc) as [b|]; [|done]. destruct (debit tsc b) as [b1|]; [|done]. intros [= <-].
      apply credits_nonce. by rewrite lookup_insert_ne.
    + intros [= <-]. exists a. by rewrite lookup_insert_ne.
Qed.

Lemma apply_transactions_nonce k l M M1 a : M !! k = Some a ->
  Forall (fun tsc => get_transaction_operator tsc = Append) (sent k l) -> apply_transactions M l = Done M1 ->
  exists a', M1 !! k = Some a' /\
    nonce a' = match last (sent k l) with Some tsc => u64 (get_nonce tsc + 1) | None => nonce a end.
Proof.
  revert M a. induction l as [|tsc l IH]; intros M a Ha Hop; cbn [apply_transactions].
  { intros [= <-]. by exists a. }
  destruct (apply_transaction M tsc) as [M2|] eqn:E; [|done]. rewrite sent_cons in Hop |- *.
  destruct (apply_transaction_nonce M tsc M2 k a Ha) as (a2 & Ha2 & En2); [|done|].
  { intros Hk. rewrite decide_True in Hop by done. by inversion Hop. }
  intros Hl. destruct (IH M2 a2 Ha2) as (a' & Ha' & En'); [|done|].
  { case_decide; [by inversion Hop|done]. }
  exists a'. split; [done|]. rewrite En', En2. case_decide; [rewrite last_cons|done]. by destruct (last (sent k l)).
Qed.

Lemma undo_operations_app M l l' :
  undo_operations M (l ++ l') = match undo_operations M l with Done M1 => undo_operations M1 l' | f => f end.
Proof.
  revert M. induction l as [|otp l IH]; intros M; [done|]. cbn [app undo_operations].
  by destruct (undo_operation M otp).
Qed.

Lemma undo_operation_other M otp M' k : target_address otp <> k -> undo_operation M otp = Done M' -> M' !! k = M !! k.
Proof.
  intros Hk. unfold undo_operation. destruct (rb_type otp).
  - by intros [= <-].
  - intros [= <-]. by rewrite lookup_delete_ne.
  - destruct (M !! target_address otp) as [b|]; [|by intros [= <-]].
    destruct (rb_update_type otp); [by intros [= <-]| | |];
      try (intros [= <-]; by rewrite lookup_insert_ne).
    destruct (reduce_balance b _ _); [|done]. intros [= <-]. by rewrite lookup_insert_ne.
  - destruct (M !! target_address otp); intros [= <-]; [by rewrite lookup_insert_ne|done].
Qed.

(** Undoing the operations of one transaction, on any later accounts. *)
Lemma undo_transaction_nonce M tsc X X' k b : is_Some (M !! k) -> X !! k = Some b ->
  (get_sender tsc = k -> get_transaction_operator tsc = Append) ->
  undo_operations X (transaction_operations M tsc) = Done X' ->
  exists b', X' !! k = Some b' /\ nonce b' = if decide (get_sender tsc = k) then u64 (nonce b - 1) else nonce b.
Proof.
  intros Hk Hb Hop. unfold transaction_operations. destruct (decide (get_sender tsc = k)) as [<-|Hne].
  - rewrite (Hop eq_refl). cbn [undo_operations]. unfold undo_operation at 1.
    cbn [rb_type target_address rb_update_type rb_asset_type rb_value]. rewrite Hb. intros Hu.
    destruct (undo_receivers M tsc _ _ _ _ _ Hk (lookup_insert_eq _ _ _) Hu) as (b' & E & En).
    exists b'. split; [done|]. rewrite En. unfold decremented, add_balance. by destruct (balances b !! _).
  - destruct (get_transaction_operator tsc); cbn [undo_operations].
    + intros [= <-]. by exists b.
    + destruct (undo_operation X _) as [X1|] eqn:E; [|done]. apply undo_operation_other with (k := k) in E; [|done].
      apply undo_receivers; [done|congruence].
    + destruct (undo_operation X _) as [X1|] eqn:E; [|done]. apply undo_operation_other with (k := k) in E; [|done].
      intros [= <-]. exists b. split; [congruence|done].
Qed.

Lemma undo_transactions_nonce k l M M1 X X' b : is_Some (M !! k) -> X !! k = Some b -> is_uint 64 (nonce b) ->
  Forall (fun tsc => get_transaction_operator tsc = Append) (sent k l) -> apply_transactions M l = Done M1 ->
  undo_operations X (transactions_operations M l) = Done X' ->
  exists b', X' !! k = Some b' /\ nonce b' = u64 (nonce b - Z.of_nat (length (sent k l))).
Proof.
  revert M X b. induction l as [|tsc l IH]; intros M X b [a Ha] Hb Hn Hop; cbn [apply_transactions transactions_operations].
  { intros _ [= <-]. exists b. split; [done|]. cbn. by rewrite Z.sub_0_r, wrap_small. }
  destruct (apply_transaction M tsc) as [M2|] eqn:E; [|done]. rewrite sent_cons in Hop |- *.
  assert (Hk : get_sender tsc = k -> get_transaction_operator tsc = Append).
  { intros Hk. rewrite decide_True in Hop by done. by inversion Hop. }
  destruct (apply_transaction_nonce M tsc M2 k a Ha Hk E) as (a2 & Ha2 & _).
  intros Hap. rewrite undo_operations_app. destruct (undo_operations X _) as [X1|] eqn:Eu; [|done].
  destruct (undo_transaction_nonce M tsc X X1 k b ltac:(eauto) Hb Hk Eu) as (b1 & Hb1 & En1). intros Hu.
  destruct (IH M2 X1 b1 ltac:(eauto) Hb1) as (b' & Hb' & En'); [|by case_decide; [inversion Hop|]|done|done|].
  { rewrite En1. case_decide; [apply wrap_range; lia|done]. }
  exists b'. split; [done|]. rewrite En', En1. case_decide; [|done]. cbn [length]. unfold wrap.
  rewrite Zminus_mod_idemp_l. f_equal. lia.
Qed.

(** The sender's nonce after a whole block went in and out again. *)
Lemma block_undone_nonce M blk M1 M' k a tsc : M !! k = Some a ->
  Forall (fun t => get_transaction_operator t = Append) (sent k (transactions (body blk))) ->
  last (sent k (transactions (body blk))) = Some tsc ->
  apply_transactions M (transactions (body blk)) = Done M1 ->
  undo_operations (block_accounts M1 blk) (block_operations M M1 blk) = Done M' ->
  exists a', M' !! k = Some a' /\
    nonce a' = u64 (get_nonce tsc + 1 - Z.of_nat (length (sent k (transactions (body blk))))).
Proof.
  intros Ha Hop Hlast Hap. unfold block_accounts, block_operations. rewrite undo_operations_app.
  destruct (apply_transactions_nonce k _ M M1 a Ha Hop Hap) as (a1 & Ha1 & En1). rewrite Hlast in En1.
  destruct (affairs_old M1 (affairs (body blk)) k a1 Ha1) as (m & HX & Hu).
  destruct (undo_operations _ (transactions_operations M _)) as [X1|] eqn:Eu; [|done].
  destruct (undo_transactions_nonce k (transactions (body blk)) M M1 _ X1 _ (mk_is_Some _ _ Ha) HX) as (b & Hb & En); [|exact Hop|exact Hap|exact Eu|].
  { destruct m; [rewrite En1|]; apply wrap_range; lia. }
  destruct (undo_operations_simple X1 _ (affairs_simple M1 (affairs (body blk)))) as (X2 & -> & HX2).
  intros [= <-]. rewrite HX2, Hb, Hu. eexists. split; [done|].
  destruct m; [by rewrite En, En1; unfold wrap; rewrite Zminus_mod_idemp_l|].
  unfold with_nonce in *. cbn [nonce Account.set_nonce] in *. rewrite En, En1. unfold wrap.
  rewrite Zminus_mod_idemp_l, <-Z.sub_add_distr, Zminus_mod_idemp_l, <-Z.add_sub_assoc, Zplus_mod_idemp_l.
  f_equal. lia.
Qed.
End Append.

(** ** The operations of the ledger *)
Section Ledger.
Context {host : Host} `{HashHandler} {T : Type} `{AccountTrieLaws T}.
Abbreviation ledger := (@connector_account T).
Implicit Types (c : ledger) (s : ledger_spec) (M : accounts).

(** A ledger whose blocks are all in the database. *)
Definition settled c M : Prop :=
  at_map (account_mpt c) M /\ merkle_patricia_trie_root_hash c = at_root M /\
  is_uint 64 (ledger_height c) /\
  rollbacks c = [] /\ commits c = [] /\ extensions c = [] /\ account_bloom_filters c = [].

Lemma settled_simulates c M : settled c M -> simulates c (spec_of c M).
Proof. intros (Hm & _ & _ & Hr & _). exists M. split; [done|]. split; [done|]. rewrite Hr. constructor. Qed.

(** A packaged block on a settled ledger. *)
Lemma settled_package blk c M c1 h : block_wf blk -> settled c M ->
  package_next_block_MPTR blk c = Ret (true, h) c1 ->
  exists M1, accepts at_root blk false (spec_of c M) M1 /\
    simulates c1 (let s := spec_accept at_root blk M1 (spec_of c M) in
      Connector (account_mpt s) (asset_bloom_filter s) (merkle_patricia_trie_root_hash s)
        (ledger_height s) (ledger_top_block_hash s) (account_bloom_filters s) (commits s)
        (rollbacks s) [∅]).
Proof.
  intros Hwf Hs E. pose proof (settled_simulates c M Hs) as Hsim.
  pose proof (package_simulates blk c _ Hwf Hsim) as Hp. rewrite E in Hp. unfold spec_package in Hp.
  destruct (uint256_eqb _ _); [|by destruct Hp].
  destruct (spec_insert_block at_root blk false (spec_of c M)) as [[] s'|e s'|] eqn:Es;
    [|by destruct Hp|by destruct Hp|done].
  apply spec_accepts in Es as (M1 & Ha & ->). exists M1. split; [done|].
  destruct Hp as [_ Hp]. destruct Hs as (_ & _ & _ & _ & _ & He & _).
  unfold spec_accept in *. cbn in *. by rewrite He in Hp.
Qed.

Lemma prev_of_next n : is_uint 64 n -> u64 (u64 (n + 1) - 1) = n.
Proof.
  intros Hn. unfold wrap. rewrite Zminus_mod_idemp_l. replace (n + 1 - 1) with n by lia.
  by apply wrap_small.
Qed.

(** The specification where there is one block to undo. *)
Lemma spec_rollback_one s ops : rollbacks s = [ops] ->
  spec_rollback at_root 1 s =
    match undo_operations (account_mpt s) ops with
    | Done M => Ret true (spec_set_root (at_root M) (spec_pop_rollback (spec_with_map s M)))
    | Failed e M => Throw e (spec_with_map s M)
    end.
Proof.
  intros Hr. unfold spec_rollback. rewrite Hr. change (Z.of_nat (length [ops]) <=? 1) with true. cbv iota.
  change (Z.to_nat 1) with 1%nat. cbn [spec_rollback_loop]. rewrite Hr. cbn [last].
  by destruct (undo_operations (account_mpt s) ops).
Qed.

Lemma spec_total_one s ops cm f x :
  rollbacks s = [ops] -> commits s = [cm] -> account_bloom_filters s = [f] -> extensions s = [x] ->
  spec_total_rollback at_root s =
    match undo_operations (account_mpt s) ops with
    | Done M =>
        if uint256_neqb (at_root M) (prev_mpt_root cm)
        then Throw (ChainDb root_hash_of_the_MPT_cannot_be_restored)
               (spec_set_root (at_root M) (spec_pop_rollback (spec_with_map s M)))
        else Ret true (Connector M f (at_root M) (u64 (ledger_height s - 1)) (commit_block_hash cm) [] [] [] [])
    | Failed e M => Throw e (spec_with_map s M)
    end.
Proof.
  intros Hr Hc Hf Hx. unfold spec_total_rollback. rewrite (spec_rollback_one s ops Hr).
  destruct (undo_operations _ _) as [M|]; [|done]. destruct s. cbn in *. subst. done.
Qed.

(** C9: [total_rollback] undoes a packaged block whose transactions only establish
    assets for new accounts, whatever its affairs: accounts, root hash, height and
    top block are those from before the block.  The asset filter is not: it stays
    the one of the undone block, so that the asset types of that block remain
    taken. *)
Theorem total_rollback_restores c M blk c1 h :
  block_wf blk -> settled c M -> nonces_ok M ->
  Forall (fresh_establish M) (transactions (body blk)) ->
  package_next_block_MPTR blk c = Ret (true, h) c1 ->
  exists c2, total_rollback c1 = Ret true c2 /\ settled c2 M /\
    ledger_height c2 = ledger_height c /\ ledger_top_block_hash c2 = ledger_top_block_hash c /\
    asset_bloom_filter c2 = asset_bloom_filter c1.
Proof.
  intros Hwf Hset Hn Hf E. destruct (settled_package blk c M c1 h Hwf Hset E) as (M1 & (_ & Hh & Hap & _) & Hsim).
  destruct Hset as (Hm & Hroot & Hu & Hr & Hc & He & Hb).
  apply andb_true_iff in Hh as [Hh%Z.eqb_eq _]. cbn [ledger_height spec_of] in Hh.
  pose proof (total_rollback_simulates c1 _ Hsim) as Ht.
  erewrite spec_total_one in Ht; [|unfold spec_accept, spec_of; cbn; by rewrite ?Hr, ?Hc, ?Hb..].
  unfold spec_accept in Ht. cbn [account_mpt spec_of] in Ht, Hap.
  rewrite (establish_undone M blk M1 Hn Hf Hap) in Ht.
  cbn [prev_mpt_root commit_block_hash ledger_height merkle_patricia_trie_root_hash ledger_top_block_hash spec_of] in Ht.
  assert (Eq : uint256_neqb (at_root M) (merkle_patricia_trie_root_hash c) = false).
  { rewrite Hroot. apply negb_false_iff, uint256_eqb_refl. }
  rewrite Eq in Ht. destruct (total_rollback c1) as [b c2| |]; try done.
  destruct Ht as [-> (M2 & E2 & Hm2 & _)]. injection E2 as EM Ef Er Eh Et Eb Ec Ero Ee. subst M2.
  exists c2. split; [done|]. destruct Hsim as (Mx & E1 & _). injection E1 as _ Ef1 _ _ _ _ _ _ _.
  rewrite Hh, prev_of_next in Eh by done. split; [|split; [done|split; [done|congruence]]].
  split; [done|]. split; [congruence|]. split; [by rewrite <-Eh|]. split; [done|]. split; [done|].
  split; [|done]. by destruct (extensions c2).
Qed.

(** The highest of the nonces an account uses in a checked block is above its own
    by at least their number. *)
Lemma highest_nonce M f blk k tsc :
  map_check_block_body at_root M f blk = Ok true ->
  0 <= current_nonce M k -> current_nonce M k + Z.of_nat (length (block_nonces k blk)) < 2 ^ 64 ->
  tsc ∈ sent k (transactions (body blk)) ->
  Forall (fun t => get_nonce t <= get_nonce tsc) (sent k (transactions (body blk))) ->
  current_nonce M k + Z.of_nat (length (sent k (transactions (body blk)))) <= get_nonce tsc < 2 ^ 64.
Proof.
  intros Hck H0' Hb Hin Hmax. pose proof (map_check_nonces at_root M f blk k Hck H0' Hb) as Hp.
  assert (Hall : forall x, x ∈ block_nonces k blk -> current_nonce M k + 1 <= x < 2 ^ 64).
  { intros x. rewrite Hp, elem_of_seqZ. lia. }
  assert (Hnd : NoDup (transaction_nonces k (transactions (body blk)))).
  { apply (proj1 (NoDup_app _ (affair_nonces k (affairs (body blk))))). fold (block_nonces k blk).
    rewrite Hp. apply NoDup_seqZ. }
  assert (Hle : (length (transaction_nonces k (transactions (body blk)))
    <= length (seqZ (current_nonce M k + 1) (get_nonce tsc - current_nonce M k)))%nat).
  { apply submseteq_length, NoDup_submseteq; [done|]. intros x Hx. apply elem_of_seqZ.
    assert (Hx' : x ∈ block_nonces k blk) by (apply elem_of_app; by left). apply Hall in Hx'.
    apply list_elem_of_fmap in Hx as (t & -> & Ht). rewrite Forall_forall in Hmax. pose proof (Hmax t Ht). lia. }
  assert (Htsc : get_nonce tsc ∈ block_nonces k blk).
  { apply elem_of_app. left. by apply (list_elem_of_fmap_2 get_nonce). }
  apply Hall in Htsc. unfold transaction_nonces in Hle. rewrite length_map, length_seqZ in Hle. lia.
Qed.

(** C10: a block that debits an account is not undone.  Let [k] be an account that
    exists, all of whose transactions in a packaged block are [Append]s, the last
    one applied with the highest nonce (as when there is one, or when they are in
    order), whatever else the block holds.  After [rollback] has taken the block out
    again [k] has a higher nonce than before: that of its last transaction plus one,
    less one for each; [total_rollback] therefore does not answer true, unless two
    different sets of accounts have the same root hash. *)
Theorem append_not_undone c M blk c1 h k a tsc :
  block_wf blk -> settled c M -> M !! k = Some a ->
  Forall (fun t => get_transaction_operator t = Append) (sent k (transactions (body blk))) ->
  last (sent k (transactions (body blk))) = Some tsc ->
  Forall (fun t => get_nonce t <= get_nonce tsc) (sent k (transactions (body blk))) ->
  0 <= nonce a -> nonce a + Z.of_nat (length (block_nonces k blk)) < 2 ^ 64 ->
  package_next_block_MPTR blk c = Ret (true, h) c1 ->
  (forall c2, rollback 1 c1 = Ret true c2 ->
     exists M' a', at_map (account_mpt c2) M' /\ M' !! k = Some a' /\ nonce a < nonce a' /\
       nonce a' = get_nonce tsc + 1 - Z.of_nat (length (sent k (transactions (body blk))))) /\
  (forall c2, total_rollback c1 = Ret true c2 -> exists M', M' <> M /\ at_root M' = at_root M).
Proof.
  intros Hwf Hset Ha Hop Hlast Hmax H0' Hb' E.
  destruct (settled_package blk c M c1 h Hwf Hset E) as (M1 & (Hck & Hh & Hap & _) & Hsim).
  destruct Hset as (Hm & Hroot & Hu & Hr & Hc & He & Hb). cbn in Hck, Hap.
  pose proof (highest_nonce M (asset_bloom_filter c) blk k tsc Hck) as Hn.
  unfold current_nonce in Hn. rewrite Ha in Hn.
  specialize (Hn H0' Hb' (last_Some_elem_of _ _ Hlast) Hmax).
  assert (Hundo : forall M', undo_operations (block_accounts M1 blk) (block_operations M M1 blk) = Done M' ->
    exists a', M' !! k = Some a' /\ nonce a < nonce a' /\
      nonce a' = get_nonce tsc + 1 - Z.of_nat (length (sent k (transactions (body blk))))).
  { intros M' Hun. destruct (block_undone_nonce M blk M1 M' k a tsc Ha Hop Hlast Hap Hun) as (a' & E' & En).
    rewrite wrap_small in En; [exists a'; split; [done|lia]|].
    assert (length (sent k (transactions (body blk))) <> 0%nat)
      by (intros E0%length_zero_iff_nil; by rewrite E0 in Hlast).
    unfold is_uint. lia. }
  split; intros c2 E2.
  - pose proof (rollback_simulates 1 c1 _ Hsim) as Ht. rewrite E2 in Ht.
    erewrite spec_rollback_one in Ht; [|unfold spec_accept, spec_of; cbn; by rewrite Hr].
    unfold spec_accept in Ht. cbn [account_mpt spec_of] in Ht.
    destruct (undo_operations _ _) as [M'|] eqn:Eu; [|done].
    destruct Ht as [_ (M2 & EM & Hm2 & _)]. injection EM as <- _.
    destruct (Hundo _ eq_refl) as (a' & E' & En). eauto.
  - pose proof (total_rollback_simulates c1 _ Hsim) as Ht. rewrite E2 in Ht.
    erewrite spec_total_one in Ht; [|unfold spec_accept, spec_of; cbn; by rewrite ?Hr, ?Hc, ?Hb..].
    unfold spec_accept in Ht. cbn [account_mpt spec_of] in Ht.
    destruct (undo_operations _ _) as [M'|] eqn:Eu; [|done].
    cbn [prev_mpt_root merkle_patricia_trie_root_hash spec_of] in Ht.
    destruct (uint256_neqb _ _) eqn:Eq; [done|].
    destruct Ht as [_ (M2 & EM & Hm2 & _)]. injection EM as EM _. subst M2.
    exists M'. destruct (Hundo _ eq_refl) as (a' & E' & En). split.
    + intros ->. assert (a' = a) as -> by congruence. lia.
    + rewrite <-Hroot. apply negb_false_iff in Eq. change (uint256_eqb (at_root M') (merkle_patricia_trie_root_hash c) = true) in Eq.
      rewrite uint256_eqb_eq in Eq; [by apply bool_decide_eq_true in Eq|by eapply at_root_wf|].
      rewrite Hroot. by eapply at_root_wf.
Qed.

Lemma rollback_loop_length n c c' : rollback_loop n c = Ret tt c' ->
  (n <= length (rollbacks c))%nat /\ length (rollbacks c') = (length (rollbacks c) - n)%nat.
Proof.
  revert c. induction n as [|n IH]; intros c; [intros [= ->]; lia|]. cbn [rollback_loop].
  unfold get_state, mbind at 1, M_bind at 1. destruct (last (rollbacks c)) as [ops|] eqn:El; [|done].
  unfold mbind at 1, M_bind at 1, ledger_rollback. destruct (execute_rollback _ _) as [[] w|e w|]; try done.
  unfold mbind at 1, M_bind at 1, modify_state at 1. intros Hl. apply IH in Hl as [H2 H3].
  cbn [rollbacks with_mpt] in H2, H3.
  assert (Hlen : length (rollbacks c) = S (length (removelast (rollbacks c)))).
  { destruct (rollbacks c) as [|x l] eqn:Er; [done|].
    rewrite (app_removelast_last x (l := x :: l)) at 1 by done. rewrite length_app. cbn. lia. }
  lia.
Qed.

(** C11: [rollback] compares its argument with the number of blocks the wrong way
    round: it refuses, changing nothing, to undo fewer blocks than there are, and
    when it answers true it has undone every one; asked for more than there are it
    does not answer, and takes the last element of an empty list unless an
    exception comes first. *)
Theorem rollback_all_or_nothing c (step : Z) :
  0 <= step ->
  (step < Z.of_nat (length (rollbacks c)) -> rollback step c = Ret false c) /\
  (forall c', rollback step c = Ret true c' -> step = Z.of_nat (length (rollbacks c)) /\ rollbacks c' = []) /\
  (Z.of_nat (length (rollbacks c)) < step -> forall b c', rollback step c <> Ret b c').
Proof.
  intros Hs.
  assert (Hb : step < Z.of_nat (length (rollbacks c)) -> rollback step c = Ret false c).
  { intros Hl. unfold rollback, get_state, mbind at 1, M_bind at 1. by rewrite (proj2 (Z.leb_gt _ _)). }
  assert (Hl : Z.of_nat (length (rollbacks c)) <= step -> forall b c', rollback step c = Ret b c' ->
    b = true /\ (Z.to_nat step <= length (rollbacks c))%nat /\
    length (rollbacks c') = (length (rollbacks c) - Z.to_nat step)%nat).
  { intros Hl b c'. unfold rollback, get_state, mbind at 1, M_bind at 1. rewrite (proj2 (Z.leb_le _ _)) by done.
    unfold mbind at 1, M_bind at 1. destruct (rollback_loop _ c) as [[] c1| |] eqn:E; try done.
    apply rollback_loop_length in E as [H2 H3].
    unfold mbind at 1, M_bind at 1, ledger_call. destruct (at_get_hash _) as [[h t]|[]]; try done.
    unfold mbind at 1, M_bind at 1, set_root_hash, modify_state at 1. cbn [account_mpt with_mpt].
    unfold mbind at 1, M_bind at 1. cbn [account_mpt]. destruct (at_get_change_store _) as [[st t']|[]]; try done.
    cbn. by intros [= <- <-]. }
  split; [done|]. split.
  - intros c' E. destruct (decide (step < Z.of_nat (length (rollbacks c)))) as [Hlt|Hge].
    + rewrite Hb in E by done. done.
    + destruct (Hl ltac:(lia) _ _ E) as (_ & H2 & H3). split; [lia|]. apply length_zero_iff_nil. lia.
  - intros Hgt b c' E. destruct (Hl ltac:(lia) _ _ E) as (_ & H2 & _). lia.
Qed.
End Ledger.
