(* ===== verification/LedgerScenarios.v ===== *)
(** * Ledger scenarios

    Runs of the ledger over the Merkle Patricia trie, evaluated: what goes wrong
    with transactions out of order, with a block that fails halfway and with a
    new account's outputs; and the instances of the general theorems. *)
From S2P Require Import Prelude Stream Uint256 Account Transaction Block BloomFilter MptNode Mpt MptTheorems.
From S2P Require Import AccountTrie Effects Ledger LedgerLaws LedgerSpec LedgerTheorems LedgerNonces LedgerSupply LedgerRollback.

(** Well-formedness by computation. *)
Definition uint256_okb (k : uint256) : bool :=
  Nat.eqb (length (data k)) Width && forallb (fun b => (0 <=? b) && (b <? 256)) (data k).
Definition sender_okb {host : Host} (tsc : transaction) : bool :=
  uint256_okb (get_sender tsc) && forallb (fun o => uint256_okb (receiver o)) (outs tsc).
Definition block_okb {host : Host} (blk : block) : bool :=
  forallb sender_okb (transactions (body blk)) && forallb (fun air => uint256_okb (owner air)) (affairs (body blk)).

Lemma uint256_okb_sound k : uint256_okb k = true -> uint256_wf k.
Proof.
  intros [Hl Hb]%andb_true_iff. apply Nat.eqb_eq in Hl. split; [done|].
  rewrite forallb_forall in Hb. apply Forall_forall. intros b Hin%list_elem_of_In.
  specialize (Hb b Hin). apply andb_true_iff in Hb as [?%Z.leb_le ?%Z.ltb_lt]. by split.
Qed.

Lemma block_okb_sound {host : Host} blk : block_okb blk = true -> block_wf blk.
Proof.
  intros [Ht Ha]%andb_true_iff. split.
  - eapply forallb_Forall; [|exact Ht]. intros tsc [Hs Ho]%andb_true_iff.
    split; [by apply uint256_okb_sound|]. eapply forallb_Forall; [|exact Ho]. intros o. apply uint256_okb_sound.
  - eapply forallb_Forall; [|exact Ha]. intros air. apply uint256_okb_sound.
Qed.

(** A ledger that holds some accounts and no blocks. *)
Section LedgerWith.
Context {host : Host} `{HashHandler}.

Definition trie_with (l : list (uint256 * account)) : merkle_patricia_trie account :=
  match run_ops trie_new (insertions l) with Ok (_, t) => t | Err _ => trie_new end.
Definition ledger_with (l : list (uint256 * account)) : @connector_account (merkle_patricia_trie account) :=
  let t := trie_with l in
  Connector t bloom_filter_new (match get_hash t with Ok (h, _) => h | Err _ => uint256_zero end)
    0 uint256_zero [] [] [] [].

Definition entries_okb (l : list (uint256 * account)) : bool :=
  bool_decide (NoDup l.*1) && forallb (fun kv => uint256_okb kv.1) l.

Lemma trie_with_map l : entries_okb l = true -> mpt_map (trie_with l) (list_to_map l).
Proof.
  intros [Hd%bool_decide_eq_true Hl]%andb_true_iff.
  assert (Hk : Forall (fun kv : uint256 * account => uint256_wf kv.1) l)
    by (eapply forallb_Forall; [|exact Hl]; intros kv; apply uint256_okb_sound).
  destruct (run_ops_represents (insertions l) trie_new ∅ represents_new) as (u & Eu & Hu).
  { apply Forall_map. eapply Forall_impl; [exact Hk|]. by intros [k a]. }
  rewrite map_ops_insertions, (right_id_L ∅ (∪)) in Hu; [|done|intros; apply lookup_empty].
  unfold trie_with. rewrite Eu. split; [done|]. intros k a Hin%elem_of_list_to_map_2.
  rewrite Forall_forall in Hk. apply (Hk (k, a) Hin).
Qed.

Lemma ledger_with_settled l : entries_okb l = true -> settled (ledger_with l) (list_to_map l).
Proof.
  intros Hl. pose proof (trie_with_map l Hl) as Ht. unfold ledger_with. split; [done|].
  split; [|by repeat split]. cbn. destruct (mpt_root_spec _ _ Ht) as (t' & -> & _). done.
Qed.

(** What an operation leaves behind. *)
Definition ledger_after (op : ledger_op) (c : @connector_account (merkle_patricia_trie account))
  : @connector_account (merkle_patricia_trie account) :=
  match ledger_do op c with Ret _ c' | Throw _ c' => c' | Undefined => c end.

Definition defined_after (op : ledger_op) (c : @connector_account (merkle_patricia_trie account)) : bool :=
  match ledger_do op c with Undefined => false | _ => true end.

Lemma goes_after op c : defined_after op c = true -> goes op c (ledger_after op c).
Proof.
  unfold defined_after, ledger_after, goes. destruct (ledger_do op c) as [a c'|e c'|]; [|by right; eauto|done].
  intros _. left. eauto.
Qed.
End LedgerWith.

Section Scenarios.
Local Instance scenario_digest : HashHandler := toy_HashHandler.
Local Instance scenario_host : Host := LittleEndian.

Definition alice : uint256 := uint256_fill 17.
Definition bob : uint256 := uint256_fill 34.
Definition carol : uint256 := uint256_fill 51.

Definition pay (sender : uint256) (n asset_type count : Z) (l : list (uint256 * Z)) : transaction :=
  foldl (fun t o => push_output t o.1 o.2)
    (transaction_append (replicate Bytes 0) sender n count asset_type 0 200 Append V0001) l.
Definition establish (sender : uint256) (n asset_type : Z) : transaction :=
  transaction_establish (replicate Bytes 0) sender n asset_type 0 200 Establish V0001.

Definition make_block (h : Z) (prev : uint256) (l : list transaction) (k : list affair) : block :=
  {| header := {| prev_block_hash := prev; assets_blf_hash := uint256_zero;
                  transactions_merkle_root := uint256_zero; affairs_merkle_root := uint256_zero;
                  merkle_patricia_trie_root := uint256_zero; black_block_hashes := [];
                  height := h; header_create_time := h |};
     body := {| transactions := l; affairs := k |}; block_signature := [] |}.

Definition rich (k : uint256) : uint256 * account :=
  (k, {| address := k; nonce := 0; balances := <[7 := 100]> ∅ |}).

(** The answers of a run, and the nonce and the balances of some accounts after it. *)
Definition observe_ledger (ops : list ledger_op) (c : @connector_account (merkle_patricia_trie account)) (ks : list uint256)
    : list (exn + answer) * option (list (option (Z * list (Z * Z)))) :=
  let r := ledger_run ops c in
  (r.1, c ← r.2;
        mapM (fun k => match at_search (account_mpt c) k with
                       | Ok o => Some (a ← o; Some (nonce a, map_to_list (balances a)))
                       | Err _ => None
                       end) ks).

Definition accepted : exn + answer := inr (true, None).
Definition refused : exn + answer := inr (false, None).

Definition first_payment := pay alice 1 7 10 [(bob, 10)].
Definition out_of_order : block :=
  make_block 1 uint256_zero [pay alice 3 7 10 [(bob, 10)]; pay alice 2 7 10 [(bob, 10)]; first_payment] [].
Definition replay : block :=
  make_block 2 (get_block_hash (header out_of_order)) [pay alice 3 7 10 [(bob, 10)]] [].
Definition in_order : block := make_block 1 uint256_zero [first_payment] [].
Definition next_payment : block :=
  make_block 2 (get_block_hash (header in_order)) [pay alice 2 7 10 [(bob, 10)]] [].
Definition skipped_payment : block :=
  make_block 2 (get_block_hash (header in_order)) [pay alice 3 7 10 [(bob, 10)]] [].

(** The nonce of a sender after a block is one more than that of the last
    transaction executed, not of the largest.  A block whose transactions carry the
    nonces 3, 2, 1 is accepted and leaves the nonce 2, so that the very transaction
    with nonce 3 is accepted, and paid, again in the next block.  In order the same
    rule leaves a gap: after a payment with nonce 1 the one with nonce 2 is refused
    and the one with nonce 3 accepted. *)
Theorem payment_replayed :
  observe_ledger [InsertBlock out_of_order false; InsertBlock replay false] (ledger_with [rich alice]) [alice; bob]
    = ([accepted; accepted], Some [Some (4, [(7, 60)]); Some (0, [(7, 40)])]) /\
  observe_ledger [InsertBlock in_order false; InsertBlock next_payment false; InsertBlock skipped_payment false]
      (ledger_with [rich alice]) [alice; bob]
    = ([accepted; refused; accepted], Some [Some (4, [(7, 80)]); Some (0, [(7, 20)])]).
Proof. split; vm_compute; reflexivity. Qed.

(** A block that fails halfway changes the ledger.  A payment of nothing in an
    asset the sender does not hold passes the check of the block body, fails when
    it is executed, and is undone twice: once by the handler of the payment and
    again by the rollback of the block, which leaves the sender with a nonce one
    lower, here 2^64 - 1, and an empty balance of that asset. *)
Theorem failed_block_changes_ledger :
  let blk := make_block 1 uint256_zero [pay alice 1 9 0 []] [] in
  observe_ledger [InsertBlock blk false] (ledger_with [rich alice]) [alice]
    = ([inl (ChainDb atomic_operation_failed)], Some [Some (18446744073709551615, [(7, 100); (9, 0)])]) /\
  observe_ledger [] (ledger_with [rich alice]) [alice] = ([], Some [Some (0, [(7, 100)])]).
Proof. split; vm_compute; reflexivity. Qed.

(** Amounts can be made from nothing.  The outputs of a payment are compared
    with its count only when the sender had an account before the block: a new
    account that establishes an asset and pays 5 of it in one block may credit
    1000.  For an account that exists the sum is compared modulo 2^64, so that
    outputs of 2^64 - 1 and 11 pass for a count of 10. *)
Theorem outputs_from_nothing :
  observe_ledger
      [InsertBlock (make_block 1 uint256_zero [establish carol 1 9; pay carol 2 9 5 [(bob, 1000)]] []) false]
      (ledger_with []) [carol; bob]
    = ([accepted], Some [Some (3, [(9, ASSET_MAX_COUNT - 5)]); Some (0, [(9, 1000)])]) /\
  observe_ledger
      [InsertBlock (make_block 1 uint256_zero
         [pay alice 1 7 10 [(bob, 18446744073709551615); (carol, 11)]] []) false]
      (ledger_with [rich alice]) [alice; bob; carol]
    = ([accepted], Some [Some (2, [(7, 90)]); Some (0, [(7, 18446744073709551615)]); Some (0, [(7, 11)])]).
Proof. split; vm_compute; reflexivity. Qed.

(** ** Instances of the general theorems *)
Definition founding_block : block := make_block 1 uint256_zero [establish carol 1 9] [].

Lemma founding_block_wf : block_wf founding_block.
Proof. apply block_okb_sound. vm_compute. reflexivity. Qed.

Lemma in_order_wf : block_wf in_order.
Proof. apply block_okb_sound. vm_compute. reflexivity. Qed.

Lemma empty_map : at_map (trie_new : merkle_patricia_trie account) ∅.
Proof. exact (trie_with_map [] eq_refl). Qed.

Lemma alice_settled : settled (ledger_with [rich alice]) (list_to_map [rich alice]).
Proof. apply ledger_with_settled. vm_compute. reflexivity. Qed.

Lemma ledger_refines_spec_witness :
  exists l, (ledger_run [PackageBlock founding_block; Rollback 0; TotalRollback; Rollback 1]
    (ledger_new (trie_new : merkle_patricia_trie account) bloom_filter_new)).1
  = [inr (true, l); refused; inl (ChainDb root_hash_of_the_MPT_cannot_be_restored)].
Proof.
  destruct (ledger_refines_spec [PackageBlock founding_block; Rollback 0; TotalRollback; Rollback 1]
    (trie_new : merkle_patricia_trie account) bloom_filter_new empty_map) as [E _].
  - repeat (apply Forall_cons; split); [exact founding_block_wf|exact I|exact I|exact I|constructor].
  - rewrite E. eexists. vm_compute. reflexivity.
Defined.

Lemma reachable_chain_ok_witness :
  let c := ledger_after (PackageBlock founding_block) (ledger_new (trie_new : merkle_patricia_trie account) bloom_filter_new) in
  length (commits c) = 1%nat /\ ledger_do (InsertBlock in_order true) c <> Undefined.
Proof.
  intros c. split; [vm_compute; reflexivity|].
  apply (reachable_chain_ok trie_new bloom_filter_new c); [exact empty_map| |exact I|exact in_order_wf].
  eapply (reachable_step _ _ _ (PackageBlock founding_block));
    [apply reachable_refl|exact I|exact founding_block_wf|].
  apply goes_after. vm_compute. reflexivity.
Defined.

(** An operation that answers true, and the state behind it. *)
Definition state_of {A} (r : outcome (@connector_account (merkle_patricia_trie account)) A)
    (c : @connector_account (merkle_patricia_trie account)) : @connector_account (merkle_patricia_trie account) :=
  match r with Ret _ c' => c' | _ => c end.
Definition says_true (r : outcome (@connector_account (merkle_patricia_trie account)) bool) : bool :=
  match r with Ret true _ => true | _ => false end.

Lemma says_true_ret r c : says_true r = true -> r = Ret true (state_of r c).
Proof. by destruct r as [[]| |]. Qed.

Lemma same_chain_refl c M : settled c M -> same_chain c c.
Proof.
  intros (Hm & _ & _ & Hr & _). exists M. do 2 (split; [done|]). do 3 (split; [done|]). rewrite Hr. by split; constructor.
Qed.

Definition with_alice := ledger_with [rich alice].
Definition packaged_in_order := ledger_after (PackageBlock in_order) with_alice.

Definition packages (blk : block) (c : @connector_account (merkle_patricia_trie account)) : bool :=
  match package_next_block_MPTR blk c with Ret (true, Some _) _ => true | _ => false end.

Lemma packages_ret blk c : packages blk c = true ->
  exists h, package_next_block_MPTR blk c = Ret (true, Some h) (ledger_after (PackageBlock blk) c).
Proof.
  unfold packages, ledger_after. cbn [ledger_do].
  destruct (package_next_block_MPTR blk c) as [[[] [h|]] c'| |]; try done. eauto.
Qed.

Lemma in_order_packages : packages in_order with_alice = true.
Proof. vm_compute. reflexivity. Qed.

Lemma packaged_block_accepted_witness :
  exists h c, package_next_block_MPTR in_order with_alice = Ret (true, Some h) packaged_in_order /\
    insert_block (with_trie_root in_order h) true with_alice = Ret true c.
Proof.
  destruct (packages_ret in_order with_alice in_order_packages) as [h E].
  destruct (packaged_block_accepted in_order with_alice with_alice packaged_in_order h)
    as (c & E' & _); [exact in_order_wf|exact (same_chain_refl _ _ alice_settled)|exact E|].
  exists h, c. split; assumption.
Defined.

Lemma accepted_block_nonces_witness :
  block_nonces alice out_of_order = [3; 2; 1] /\ NoDup (block_nonces alice out_of_order).
Proof.
  split; [vm_compute; reflexivity|].
  refine (proj2 (accepted_block_nonces (account_mpt with_alice) bloom_filter_new out_of_order
    (list_to_map [rich alice]) alice (proj1 alice_settled) _ _ _ _)).
  - apply block_okb_sound. vm_compute. reflexivity.
  - vm_compute. reflexivity.
  - vm_compute. discriminate.
  - vm_compute. reflexivity.
Defined.

Lemma alice_accounts : (list_to_map [rich alice] : accounts) = {[alice := (rich alice).2]}.
Proof. reflexivity. Qed.

Lemma supply_conserved_witness :
  exists M', at_map (account_mpt (state_of (insert_block in_order false with_alice) with_alice)) M' /\
    supply M' 7 = 100.
Proof.
  pose proof (proj1 alice_settled) as Hm.
  assert (E : says_true (insert_block in_order false with_alice) = true) by (vm_compute; reflexivity).
  apply (says_true_ret _ with_alice) in E.
  destruct (supply_conserved with_alice (state_of (insert_block in_order false with_alice) with_alice) in_order false (list_to_map [rich alice]) Hm)
    as (M' & Hm' & _ & Hs); [| |  | | |exact E|].
  - constructor.
  - exact in_order_wf.
  - apply map_Forall_insert_2; [|apply map_Forall_empty]. apply map_Forall_insert_2; [split; reflexivity || discriminate|apply map_Forall_empty].
  - apply Forall_singleton. intros _. split; [|vm_compute; reflexivity]. apply Forall_singleton. discriminate.
  - intros t. assert (Hmint : minted t (transactions (body in_order)) = 0) by (vm_compute; reflexivity).
    rewrite Hmint, alice_accounts. unfold supply. rewrite map_fold_singleton, get_balance_default.
    cbn [balances rich snd]. destruct (decide (t = 7)) as [->|Hne].
    + rewrite lookup_insert_eq. reflexivity.
    + rewrite lookup_insert_ne, lookup_empty by congruence. reflexivity.
  - exists M'. split; [exact Hm'|]. rewrite Hs. vm_compute. reflexivity.
Defined.

Lemma alice_nonces_ok : nonces_ok (list_to_map [rich alice]).
Proof. rewrite alice_accounts. apply map_Forall_singleton. split; [discriminate|reflexivity]. Qed.

Lemma founding_packages : packages founding_block with_alice = true.
Proof. vm_compute. reflexivity. Qed.

Lemma total_rollback_restores_witness :
  exists c2, total_rollback (ledger_after (PackageBlock founding_block) with_alice) = Ret true c2 /\
    settled c2 (list_to_map [rich alice]).
Proof.
  destruct (packages_ret founding_block with_alice founding_packages) as [h E].
  destruct (total_rollback_restores with_alice (list_to_map [rich alice]) founding_block
    (ledger_after (PackageBlock founding_block) with_alice) (Some h)
    founding_block_wf alice_settled alice_nonces_ok) as (c2 & E2 & Hs & _).
  - apply Forall_singleton. split; vm_compute; reflexivity.
  - exact E.
  - exists c2. split; assumption.
Defined.

(** Two payments of one account with an Establish of another between them. *)
Definition busy_block : block :=
  make_block 1 uint256_zero
    [first_payment; establish carol 1 9; pay alice 2 7 10 [(carol, 5); (bob, 5)]] [].
Definition packaged_busy := ledger_after (PackageBlock busy_block) with_alice.

Lemma busy_block_wf : block_wf busy_block.
Proof. apply block_okb_sound. vm_compute. reflexivity. Qed.

Lemma busy_block_packages : packages busy_block with_alice = true.
Proof. vm_compute. reflexivity. Qed.

Lemma append_not_undone_witness :
  exists c2 M' a', rollback 1 packaged_busy = Ret true c2 /\ at_map (account_mpt c2) M' /\
    M' !! alice = Some a' /\ nonce a' = 1.
Proof.
  destruct (packages_ret busy_block with_alice busy_block_packages) as [h E].
  assert (Er : says_true (rollback 1 packaged_busy) = true) by (vm_compute; reflexivity).
  apply (says_true_ret _ packaged_busy) in Er.
  destruct (append_not_undone with_alice (list_to_map [rich alice]) busy_block packaged_busy (Some h)
    alice (rich alice).2 (pay alice 2 7 10 [(carol, 5); (bob, 5)]) busy_block_wf alice_settled) as [Hr _].
  - vm_compute. reflexivity.
  - repeat constructor.
  - vm_compute. reflexivity.
  - repeat (apply Forall_cons; split; [discriminate|]). constructor.
  - discriminate.
  - vm_compute. reflexivity.
  - exact E.
  - destruct (Hr _ Er) as (M' & a' & Hm & Ha & _ & Hn).
    exists (state_of (rollback 1 packaged_busy) packaged_busy), M', a'.
    split; [exact Er|]. split; [exact Hm|]. split; [exact Ha|exact Hn].
Defined.

Lemma rollback_all_or_nothing_witness :
  rollback 0 packaged_in_order = Ret false packaged_in_order /\
  forall b c', rollback 2 packaged_in_order <> Ret b c'.
Proof.
  assert (El : length (rollbacks packaged_in_order) = 1%nat) by (vm_compute; reflexivity). split.
  - apply (rollback_all_or_nothing packaged_in_order 0); [lia|]. rewrite El. lia.
  - apply (rollback_all_or_nothing packaged_in_order 2); [lia|]. rewrite El. lia.
Defined.
End Scenarios.

