(* ===== verification/Settings.v ===== *)
(** * The settings of a node: [chain_ini.hpp], [application::load_setting_file]

    The record of the settings and the reading of the ini file.  The file is read by
    a third-party parser, of which only the entries of the two-level map are used. *)
From S2P Require Import Prelude Stream Effects Ledger.

(** The paths of the databases and of the keys, and the limits of a block. *)
Record chain_ini := {
  chain_state_db_path : bytes;
  block_db_path : bytes;
  account_db_path : bytes;
  assets_db_path : bytes;
  initial_keys_path : bytes;
  extensions_db_path : bytes;
  log_file_path : bytes;
  transaction_maximum_number_in_block : Z;
  affair_maximum_number_in_block : Z;
  transaction_minimum_number_in_block : Z;
  affair_minimum_number_in_block : Z;
  private_key_path : bytes;
  public_key_path : bytes;
  net_config_file_path : bytes;
}.

(** The initialisers of the members. *)
Definition chain_ini_default : chain_ini :=
  {| chain_state_db_path := []; block_db_path := []; account_db_path := []; assets_db_path := [];
     initial_keys_path := []; extensions_db_path := []; log_file_path := [];
     transaction_maximum_number_in_block := 500; affair_maximum_number_in_block := 500;
     transaction_minimum_number_in_block := 1; affair_minimum_number_in_block := 1;
     private_key_path := []; public_key_path := []; net_config_file_path := [] |}.

(** The settings with other limits of a block. *)
Definition with_limits (ini : chain_ini) (transactions_max affairs_max transactions_min affairs_min : Z) : chain_ini :=
  {| chain_state_db_path := chain_state_db_path ini; block_db_path := block_db_path ini;
     account_db_path := account_db_path ini; assets_db_path := assets_db_path ini;
     initial_keys_path := initial_keys_path ini; extensions_db_path := extensions_db_path ini;
     log_file_path := log_file_path ini;
     transaction_maximum_number_in_block := transactions_max; affair_maximum_number_in_block := affairs_max;
     transaction_minimum_number_in_block := transactions_min; affair_minimum_number_in_block := affairs_min;
     private_key_path := private_key_path ini; public_key_path := public_key_path ini;
     net_config_file_path := net_config_file_path ini |}.

(** ** Numbers and lines *)

(** A line that ended in CR LF keeps the CR. *)
Definition remove_last_r (path : bytes) : bytes :=
  match last path with
  | Some b => if b =? 13 then removelast path else path
  | None => path
  end.

Definition is_space (b : Z) : bool := (b =? 32) || ((9 <=? b) && (b <=? 13)).
Definition is_digit (b : Z) : bool := (48 <=? b) && (b <=? 57).

(** The longest run of leading elements that satisfy [p], and the rest. *)
Fixpoint span {A} (p : A -> bool) (l : list A) : list A * list A :=
  match l with
  | [] => ([], [])
  | x :: l' => if p x then let '(a, b) := span p l' in (x :: a, b) else ([], l)
  end.

Definition digits_value (l : bytes) : Z := foldl (fun v b => 10 * v + (b - 48)) 0 l.

(** [std::stoul(str, &pos, 10)]: the value, an [unsigned long], and the number of
    characters read.  A minus sign negates in the unsigned type. *)
Definition stoul {S} (str : bytes) : M S (Z * Z) :=
  let '(space, rest) := span is_space str in
  let '(sign, rest) := match rest with
                       | 45 :: rest => ([45], rest)
                       | 43 :: rest => ([43], rest)
                       | _ => ([], rest)
                       end in
  let '(digits, _) := span is_digit rest in
  match digits with
  | [] => throw StdException
  | _ =>
      let v := digits_value digits in
      if 2 ^ 64 <=? v then throw StdException
      else mret (match sign with [45] => u64 (- v) | _ => v end,
                 Z.of_nat (length space + length sign + length digits))
  end.

(** ** Reading the file *)
Record loaded := { setting_ini : chain_ini; load : bool }.

(** The keys the file has to hold, in the order they are looked for. *)
Definition required_keys : list (bytes * bytes) :=
  [(b! "chain", b! "initial_keys");
   (b! "chain", b! "transaction_maximum_number_in_block");
   (b! "chain", b! "transaction_minimum_number_in_block");
   (b! "chain", b! "affair_maximum_number_in_block");
   (b! "chain", b! "affair_minimum_number_in_block");
   (b! "chain", b! "log_file_path");
   (b! "leveldb", b! "chain_states");
   (b! "leveldb", b! "blocks");
   (b! "leveldb", b! "accounts");
   (b! "leveldb", b! "assets");
   (b! "leveldb", b! "extensions");
   (b! "node", b! "public_key");
   (b! "node", b! "private_key");
   (b! "net", b! "net_config_file_path")].

Definition set_ini (f : chain_ini -> chain_ini) : M loaded unit :=
  modify_state (fun l => {| setting_ini := f (setting_ini l); load := load l |}).

(** One of the four numbers: the text, and where the value goes, as a [uint32_t]. *)
Definition load_number (text : bytes) (store : Z -> chain_ini -> chain_ini) : M loaded bool :=
  '(out, out_size) ← stoul text;
  if out_size <=? 0 then mret false
  else set_ini (store (u32 out)) ;; mret true.

Section Load.
(** The parsed file: the value of a key of a section. *)
Variable loader : bytes -> bytes -> option bytes.

Definition entry (section key : bytes) : bytes := default [] (loader section key).

Definition load_paths (ini : chain_ini) : chain_ini :=
  {| initial_keys_path := remove_last_r (entry (b! "chain") (b! "initial_keys"));
     log_file_path := remove_last_r (entry (b! "chain") (b! "log_file_path"));
     chain_state_db_path := remove_last_r (entry (b! "leveldb") (b! "chain_states"));
     block_db_path := remove_last_r (entry (b! "leveldb") (b! "blocks"));
     account_db_path := remove_last_r (entry (b! "leveldb") (b! "accounts"));
     extensions_db_path := remove_last_r (entry (b! "leveldb") (b! "extensions"));
     assets_db_path := remove_last_r (entry (b! "leveldb") (b! "assets"));
     public_key_path := remove_last_r (entry (b! "node") (b! "public_key"));
     private_key_path := remove_last_r (entry (b! "node") (b! "private_key"));
     net_config_file_path := remove_last_r (entry (b! "net") (b! "net_config_file_path"));
     transaction_maximum_number_in_block := transaction_maximum_number_in_block ini;
     affair_maximum_number_in_block := affair_maximum_number_in_block ini;
     transaction_minimum_number_in_block := transaction_minimum_number_in_block ini;
     affair_minimum_number_in_block := affair_minimum_number_in_block ini |}.

Definition store_affair_max v ini :=
  with_limits ini (transaction_maximum_number_in_block ini) v
    (transaction_minimum_number_in_block ini) (affair_minimum_number_in_block ini).
Definition store_affair_min v ini :=
  with_limits ini (transaction_maximum_number_in_block ini) (affair_maximum_number_in_block ini)
    (transaction_minimum_number_in_block ini) v.
Definition store_transaction_max v ini :=
  with_limits ini v (affair_maximum_number_in_block ini)
    (transaction_minimum_number_in_block ini) (affair_minimum_number_in_block ini).
Definition store_transaction_min v ini :=
  with_limits ini (transaction_maximum_number_in_block ini) (affair_maximum_number_in_block ini)
    v (affair_minimum_number_in_block ini).

(** [exists] says whether the path of the settings file exists. *)
Definition load_setting_file (exists_file : bool) : M loaded bool :=
  if negb exists_file then mret false
  else if negb (forallb (fun sk => match loader sk.1 sk.2 with Some _ => true | None => false end) required_keys) then mret false
  else
    set_ini load_paths ;;
    ok ← load_number (entry (b! "chain") (b! "affair_maximum_number_in_block")) store_affair_max;
    if negb ok then mret false else
    ok ← load_number (entry (b! "chain") (b! "affair_minimum_number_in_block")) store_affair_min;
    if negb ok then mret false else
    ok ← load_number (entry (b! "chain") (b! "transaction_maximum_number_in_block")) store_transaction_max;
    if negb ok then mret false else
    ok ← load_number (entry (b! "chain") (b! "transaction_minimum_number_in_block")) store_transaction_min;
    if negb ok then mret false else
    modify_state (fun l => {| setting_ini := setting_ini l; load := true |}) ;;
    mret true.
End Load.

Lemma span_all {A} (p : A -> bool) l r : forallb p l = true -> (forall x, head r = Some x -> p x = false) ->
  span p (l ++ r) = (l, r).
Proof.
  intros Hl Hr. induction l as [|x l IH]; cbn in *.
  - destruct r as [|y r]; [done|]. cbn. by rewrite Hr.
  - apply andb_true_iff in Hl as [Hx Hl]. by rewrite Hx, IH.
Qed.
