(* ===== verification/Packaging.v ===== *)
(** * Packaging a block body: [connector_account::package_next_block_body]

    The two loops that take transactions and affairs from the queues of
    [connector_block].  The loops need not end, so each takes fuel and answers
    [None] when it runs out; the theorems say when a bound is enough and when no
    fuel is. *)
From S2P Require Import Prelude Stream Uint256 Account Transaction Block BloomFilter MptNode Mpt AccountTrie Effects Ledger Settings.

Definition Epoch_Time_Uint : Z := 300000000.

Section Packaging.
Context {host : Host} `{HashHandler} {T : Type} `{AccountTrie T}.

(** [create_time + epoch * Epoch_Time_Uint]: the product is a [uint32_t]. *)
Definition expire_dt (create_time epoch : Z) : Z := u64 (create_time + u32 (epoch * Epoch_Time_Uint)).
Definition transaction_expired (current : Z) (trans : transaction) : bool :=
  expire_dt (get_create_time trans) (get_expired_epoch trans) <? current.
Definition affair_expired (current : Z) (air : affair) : bool :=
  expire_dt (affair_create_time air) (epoch air) <? current.

(** ** Transactions *)
Record pack := Pack {
  receipts : gmap uint256 receipt;
  asset_filter : bloom_filter;
  packed : list transaction;       (** [blk.body.transactions] *)
  add_count : Z;
}.

(** What a turn of the loop does with [start]; [NextNow] is [start++; continue]. *)
Inductive move := Next | NextNow | Erase | Same.

Definition with_receipt (p : pack) (sender : uint256) (rcp : receipt) : pack :=
  Pack (<[sender := rcp]> (receipts p)) (asset_filter p) (packed p) (add_count p).
Definition take_transaction (p : pack) (trans : transaction) : pack :=
  Pack (receipts p) (asset_filter p) (packed p ++ [transaction_copy trans]) (add_count p + 1).

(** [nonce.pop_back()]: [check] has sorted the nonces. *)
Definition pop_nonce (r : receipt) : receipt :=
  {| nonce_start := nonce_start r; receipt_balances := receipt_balances r;
     receipt_nonce := removelast (receipt_nonce r) |}.
Definition erase_entry (r : receipt) (asset_type : Z) : receipt :=
  {| nonce_start := nonce_start r; receipt_balances := delete asset_type (receipt_balances r);
     receipt_nonce := receipt_nonce r |}.
(** [second -= count] on the entry of [asset_type] *)
Definition sub_spent (r : receipt) (asset_type count : Z) : receipt :=
  match receipt_balances r !! asset_type with
  | Some e => set_entry r asset_type (e.1, u64 (e.2 - count))
  | None => r
  end.

Definition pack_append (p : pack) (trans : transaction) (_account : option account) : pack * move :=
  let sender := get_sender trans in
  let asset_type := get_asset_type trans in
  match _account with
  | None =>
      match receipts p !! sender with
      | None => (p, NextNow)
      | Some rcp =>
          match receipt_balances rcp !! asset_type with
          | None => (p, NextNow)
          | Some e =>
              let rcp := set_entry (push_nonce rcp (get_nonce trans)) asset_type (add_spent e (get_count trans)) in
              let '(ok, rcp) := check rcp in
              if ok : bool then (take_transaction (with_receipt p sender rcp) trans, Erase)
              else (with_receipt p sender (sub_spent (pop_nonce rcp) asset_type (get_count trans)), Next)
          end
      end
  | Some _account =>
      match receipts p !! sender with
      | None =>
          let rcp := {| nonce_start := nonce _account;
                        receipt_balances := {[asset_type := (get_balance _account asset_type, get_count trans)]};
                        receipt_nonce := [get_nonce trans] |} in
          let '(ok, rcp) := check rcp in
          if ok : bool then (take_transaction (with_receipt p sender rcp) trans, Erase) else (p, Next)
      | Some rcp =>
          let rcp := push_nonce rcp (get_nonce trans) in
          match receipt_balances rcp !! asset_type with
          | None =>
              let rcp := set_entry rcp asset_type (get_balance _account asset_type, get_count trans) in
              let '(ok, rcp) := check rcp in
              if ok : bool then (take_transaction (with_receipt p sender rcp) trans, Erase)
              else (with_receipt p sender (erase_entry (pop_nonce rcp) asset_type), Same)
          | Some e =>
              let rcp := set_entry rcp asset_type (add_spent e (get_count trans)) in
              let '(ok, rcp) := check rcp in
              if ok : bool then (take_transaction (with_receipt p sender rcp) trans, Erase)
              else (with_receipt p sender (sub_spent rcp asset_type (get_count trans)), Next)
          end
      end
  end.

Definition with_filter (p : pack) (f : bloom_filter) : pack :=
  Pack (receipts p) f (packed p) (add_count p).

Definition pack_establish (p : pack) (trans : transaction) (_account : option account) : pack * move :=
  let sender := get_sender trans in
  let asset_type := get_asset_type trans in
  if test (asset_filter p) asset_type then (p, Next)
  else
    let p := with_filter p (BloomFilter.insert (asset_filter p) asset_type).2 in
    match receipts p !! sender with
    | None =>
        let rcp := {| nonce_start := match _account with None => 0 | Some a => nonce a end;
                      receipt_balances := {[asset_type := (ASSET_MAX_COUNT, 0)]};
                      receipt_nonce := [get_nonce trans] |} in
        let '(ok, rcp) := check rcp in
        if ok : bool then (take_transaction (with_receipt p sender rcp) trans, Erase) else (p, Next)
    | Some rcp =>
        let '(ok, rcp) := check_nonce (push_nonce rcp (get_nonce trans)) in
        if ok : bool then
          let e := default (0, 0) (receipt_balances rcp !! asset_type) in
          let rcp := set_entry rcp asset_type (u64 (e.1 + ASSET_MAX_COUNT), e.2) in
          (take_transaction (with_receipt p sender rcp) trans, Erase)
        else (with_receipt p sender (pop_nonce rcp), Next)
    end.

(** The [switch] on the operator, for a transaction that has not expired. *)
Definition pack_step (mpt : T) (p : pack) (trans : transaction) : res mpt_error (pack * move) :=
  _account ← at_search mpt (get_sender trans);
  Ok (match get_transaction_operator trans with
      | Append => pack_append p trans _account
      | Establish => pack_establish p trans _account
      | NullOP => (p, Erase)
      end).

(** The queue is what [start] has passed and what is ahead of it. *)
Fixpoint pack_pass (fuel : nat) (mpt : T) (_ini : chain_ini) (current : Z) (p : pack)
    (passed queue : list transaction) : option (res mpt_error (pack * list transaction)) :=
  match fuel, queue with
  | O, _ => None
  | S _, [] => Some (Ok (p, passed))
  | S fuel, trans :: rest =>
      if transaction_expired current trans then pack_pass fuel mpt _ini current p passed rest
      else
        match pack_step mpt p trans with
        | Err e => Some (Err e)
        | Ok (p, NextNow) => pack_pass fuel mpt _ini current p (passed ++ [trans]) rest
        | Ok (p, m) =>
            let '(passed, queue) :=
              match m with
              | Next | NextNow => (passed ++ [trans], rest)
              | Erase => (passed, rest)
              | Same => (passed, queue)
              end in
            if transaction_maximum_number_in_block _ini <=? Z.of_nat (length (packed p))
            then Some (Ok (p, passed ++ queue))
            else pack_pass fuel mpt _ini current p passed queue
        end
  end.

(** [while (add_count > 0)] *)
Fixpoint pack_transactions (fuel : nat) (mpt : T) (_ini : chain_ini) (current : Z) (p : pack)
    (queue : list transaction) : option (res mpt_error (pack * list transaction)) :=
  match fuel with
  | O => None
  | S fuel =>
      match pack_pass fuel mpt _ini current (Pack (receipts p) (asset_filter p) (packed p) 0) [] queue with
      | None => None
      | Some (Err e) => Some (Err e)
      | Some (Ok (p, queue)) =>
          if 0 <? add_count p then pack_transactions fuel mpt _ini current p queue
          else Some (Ok (p, queue))
      end
  end.

(** ** Affairs *)
Record pack_affairs := PackAffairs {
  affair_receipts : gmap uint256 receipt;
  packed_affairs : list affair;
  affair_count : Z;
}.

(** One turn for an affair that has not expired; it is taken, or [start] stays. *)
Definition affair_step (mpt : T) (p : pack_affairs) (air : affair) : res mpt_error (pack_affairs * bool) :=
  _account ← at_search mpt (owner air);
  let taken rcp :=
    PackAffairs (<[owner air := rcp]> (affair_receipts p)) (packed_affairs p ++ [air]) (affair_count p + 1) in
  Ok (match affair_receipts p !! owner air with
      | None =>
          let rcp := {| nonce_start := match _account with None => 0 | Some a => nonce a end;
                        receipt_balances := ∅; receipt_nonce := [affair_nonce air] |} in
          let '(ok, rcp) := check rcp in
          if ok : bool then (taken rcp, true) else (p, false)
      | Some rcp =>
          let '(ok, rcp) := check_nonce (push_nonce rcp (affair_nonce air)) in
          if ok : bool then (taken rcp, true)
          else
            let rcp := {| nonce_start := nonce_start rcp; receipt_balances := receipt_balances rcp;
                          receipt_nonce := List.filter (fun n => negb (n =? affair_nonce air)) (receipt_nonce rcp) |} in
            (PackAffairs (<[owner air := rcp]> (affair_receipts p)) (packed_affairs p) (affair_count p), false)
      end).

Fixpoint affair_pass (fuel : nat) (mpt : T) (current : Z) (p : pack_affairs) (queue : list affair)
    : option (res mpt_error pack_affairs) :=
  match fuel, queue with
  | O, _ => None
  | S _, [] => Some (Ok p)
  | S fuel, air :: rest =>
      if affair_expired current air then affair_pass fuel mpt current p rest
      else
        match affair_step mpt p air with
        | Err e => Some (Err e)
        | Ok (p, true) => affair_pass fuel mpt current p rest
        | Ok (p, false) => affair_pass fuel mpt current p queue
        end
  end.

(** A pass that ends has emptied the queue, so that one more pass ends the loop. *)
Fixpoint pack_affairs_loop (fuel : nat) (mpt : T) (current : Z) (p : pack_affairs) (queue : list affair)
    : option (res mpt_error pack_affairs) :=
  match fuel with
  | O => None
  | S fuel =>
      match affair_pass fuel mpt current (PackAffairs (affair_receipts p) (packed_affairs p) 0) queue with
      | None => None
      | Some (Err e) => Some (Err e)
      | Some (Ok p) =>
          if 0 <? affair_count p then pack_affairs_loop fuel mpt current p []
          else Some (Ok p)
      end
  end.

(** ** The block *)

(** The block with its body and the header fields set here, and the queues. *)
Definition package_next_block_body (fuel : nat) (c : @connector_account T) (_ini : chain_ini) (current : Z)
    (blk : block) (transactions_queue : list transaction) (affairs_queue : list affair)
    : option (res mpt_error (block * list transaction * list affair)) :=
  match pack_transactions fuel (account_mpt c) _ini current
          (Pack ∅ (asset_bloom_filter c) (transactions (body blk)) 0) transactions_queue with
  | None => None
  | Some (Err e) => Some (Err e)
  | Some (Ok (p, transactions_queue)) =>
      match pack_affairs_loop fuel (account_mpt c) current
              (PackAffairs (receipts p) (affairs (body blk)) 0) affairs_queue with
      | None => None
      | Some (Err e) => Some (Err e)
      | Some (Ok q) =>
          let hd := header blk in
          Some (Ok ({| header := {| prev_block_hash := prev_block_hash hd;
                                    assets_blf_hash := BloomFilter.get_hash (asset_filter p);
                                    transactions_merkle_root := transactions_merkle_root hd;
                                    affairs_merkle_root := affairs_merkle_root hd;
                                    merkle_patricia_trie_root := merkle_patricia_trie_root hd;
                                    black_block_hashes := black_block_hashes hd; height := height hd;
                                    header_create_time := current |};
                       body := {| transactions := packed p; affairs := packed_affairs q |};
                       block_signature := block_signature blk |}, transactions_queue, []))
      end
  end.

(** The limits on a block body, of [try_package_next_block_body] and of
    [package_next_block_header]. *)
Definition affair_number (blk : block) : Z :=
  Z.of_nat (length (List.filter is_db_level_affair_type (affairs (body blk)))).
Definition within_limits (_ini : chain_ini) (blk : block) : bool :=
  let n := Z.of_nat (length (transactions (body blk))) in
  (transaction_minimum_number_in_block _ini <=? n) && (n <=? transaction_maximum_number_in_block _ini)
  && (affair_minimum_number_in_block _ini <=? affair_number blk)
  && (affair_number blk <=? affair_maximum_number_in_block _ini).

(** [push_front] of every element *)
Definition give_back {A} (queue l : list A) : list A := foldl (fun q x => x :: q) queue l.

Definition try_package_next_block_body (fuel : nat) (c : @connector_account T) (_ini : chain_ini) (current : Z)
    (blk : block) (transactions_queue : list transaction) (affairs_queue : list affair)
    : option (res mpt_error (bool * block * list transaction * list affair)) :=
  match package_next_block_body fuel c _ini current blk transactions_queue affairs_queue with
  | None => None
  | Some (Err e) => Some (Err e)
  | Some (Ok (blk, tq, aq)) =>
      Some (Ok (if within_limits _ini blk
                then (true, blk, give_back tq (map transaction_copy (transactions (body blk))),
                      give_back aq (affairs (body blk)))
                else (false, blk, tq, aq)))
  end.
End Packaging.
