(* ===== verification/PackagingTheorems.v ===== *)
(** * Packaging: what is taken, when the loops end and when they do not *)
From S2P Require Import Prelude Stream Uint256 Account Transaction Block BloomFilter MptNode Mpt.
From S2P Require Import AccountTrie Effects Ledger LedgerLaws LedgerSpec LedgerNonces Settings Packaging.

Section Turns.
Context {host : Host} `{HashHandler} {T : Type} `{AccountTrie T}.
Implicit Types (p : pack) (trans : transaction) (queue passed : list transaction).

(** What a turn does to the body and to the count. *)
Definition turn_ok p trans p' (m : move) : Prop :=
  match m with
  | Erase =>
      (packed p' = packed p ++ [transaction_copy trans] /\ add_count p' = add_count p + 1)
      \/ (p' = p /\ get_transaction_operator trans = NullOP)
  | _ => packed p' = packed p /\ add_count p' = add_count p
  end.

Lemma pack_append_turn p trans o : 
  let r := pack_append p trans o in turn_ok p trans r.1 r.2.
Proof.
  unfold pack_append. destruct o as [a|], (receipts p !! get_sender trans) as [rcp|]; cbv zeta; cbn [fst snd].
  - cbn [receipt_balances push_nonce]. destruct (receipt_balances rcp !! _) as [e|];
      destruct (check _) as [[] r]; cbn; auto.
  - destruct (check _) as [[] r]; cbn; auto.
  - destruct (receipt_balances rcp !! _) as [e|]; [|done]. destruct (check _) as [[] r]; cbn; auto.
  - done.
Qed.

Lemma pack_establish_turn p trans o :
  let r := pack_establish p trans o in turn_ok p trans r.1 r.2.
Proof.
  unfold pack_establish. destruct (test _ _); [done|]. cbv zeta. cbn [receipts with_filter].
  destruct (receipts p !! get_sender trans) as [rcp|].
  - destruct (check_nonce _) as [[] r]; cbn; auto.
  - destruct (check _) as [[] r]; cbn; auto.
Qed.

Lemma pack_step_turn mpt p trans p' m : pack_step mpt p trans = Ok (p', m) -> turn_ok p trans p' m.
Proof.
  unfold pack_step. destruct (at_search mpt _) as [o|]; [|done]. cbn [mbind res_bind].
  pose proof (pack_append_turn p trans o) as Ha. pose proof (pack_establish_turn p trans o) as He. cbv zeta in *.
  destruct (get_transaction_operator trans) eqn:Eop; intros E; injection E; clear E.
  - intros <- <-. right. by split.
  - intros E. by rewrite E in Ha.
  - intros E. by rewrite E in He.
Qed.

(** ** Nothing is lost or made up *)

(** A transaction that may be thrown away. *)
Definition droppable (current : Z) trans : Prop :=
  transaction_expired current trans = true \/ get_transaction_operator trans = NullOP.

(** From [before] to [after]: what was taken, dropped and left. *)
Definition distributes (current : Z) (before : list transaction) p p' (after : list transaction) : Prop :=
  exists taken dropped, Permutation before (taken ++ dropped ++ after) /\
    packed p' = packed p ++ map transaction_copy taken /\
    add_count p' = add_count p + Z.of_nat (length taken) /\ Forall (droppable current) dropped.

Lemma distributes_refl current l p p' : packed p' = packed p -> add_count p' = add_count p ->
  distributes current l p p' l.
Proof.
  intros E1 E2. exists [], []. split; [done|]. split; [by rewrite app_nil_r|]. split; [cbn; lia|constructor].
Qed.

Lemma distributes_trans current l1 l2 l3 p1 p2 p3 :
  distributes current l1 p1 p2 l2 -> distributes current l2 p2 p3 l3 -> distributes current l1 p1 p3 l3.
Proof.
  intros (t & d & Hp & Ht & Hc & Hd) (t' & d' & Hp' & Ht' & Hc' & Hd'). exists (t ++ t'), (d ++ d').
  split; [rewrite Hp, Hp'; solve_Permutation|]. split; [by rewrite Ht', Ht, map_app, <-app_assoc|].
  split; [rewrite length_app; lia|]. by apply Forall_app.
Qed.

Lemma distributes_perm current l1 l1' l2 l2' p1 p2 : Permutation l1' l1 -> Permutation l2 l2' ->
  distributes current l1 p1 p2 l2 -> distributes current l1' p1 p2 l2'.
Proof.
  intros E1 E2 (t & d & Hp & Ht). exists t, d. split; [|done]. by rewrite E1, Hp, E2.
Qed.

(** One turn, with the transaction in front of the queue. *)
Lemma turn_distributes current p trans p' m rest : turn_ok p trans p' m ->
  distributes current (trans :: rest) p p' (match m with Erase => rest | _ => trans :: rest end).
Proof.
  destruct m; cbn; try (intros [E1 E2]; by apply distributes_refl).
  intros [[E1 E2]|[-> Hn]].
  - exists [trans], []. split; [done|]. split; [done|]. split; [cbn; lia|constructor].
  - exists [], [trans]. split; [done|]. split; [by rewrite app_nil_r|]. split; [cbn; lia|].
    apply Forall_singleton. by right.
Qed.

Lemma pack_pass_distributes fuel mpt _ini current p passed queue p' after :
  pack_pass fuel mpt _ini current p passed queue = Some (Ok (p', after)) ->
  distributes current (passed ++ queue) p p' after.
Proof.
  revert p passed queue. induction fuel as [|fuel IH]; intros p passed queue; [done|].
  destruct queue as [|trans rest]; cbn [pack_pass].
  { intros [= <- <-]. rewrite app_nil_r. by apply distributes_refl. }
  destruct (transaction_expired current trans) eqn:Ex.
  { intros E%IH. eapply distributes_trans; [|exact E]. exists [], [trans].
    split; [cbn; solve_Permutation|]. split; [by rewrite app_nil_r|]. split; [cbn; lia|].
    apply Forall_singleton. by left. }
  destruct (pack_step mpt p trans) as [[p1 m]|e] eqn:Es; [|done].
  apply pack_step_turn in Es as Ht.
  assert (Hd : distributes current (passed ++ trans :: rest) p p1
    (passed ++ match m with Erase => rest | _ => trans :: rest end)).
  { pose proof (turn_distributes current p trans p1 m (passed ++ rest) Ht) as Hd.
    eapply distributes_perm; [| |exact Hd]; [solve_Permutation|]. destruct m; solve_Permutation. }
  assert (Hend : forall b q, Permutation (passed ++ match m with Erase => rest | _ => trans :: rest end) (b ++ q) ->
    (if transaction_maximum_number_in_block _ini <=? Z.of_nat (length (packed p1))
     then Some (Ok (p1, b ++ q)) else pack_pass fuel mpt _ini current p1 b q) = Some (Ok (p', after)) ->
    distributes current (passed ++ trans :: rest) p p' after).
  { intros b q Hperm. destruct (_ <=? _).
    - intros [= <- <-]. by eapply distributes_perm; [| |exact Hd].
    - intros E%IH. eapply distributes_trans; [exact Hd|]. by eapply distributes_perm; [| |exact E]. }
  destruct m; cbn in Hend |- *.
  - apply Hend. solve_Permutation.
  - intros E%IH. eapply distributes_trans; [exact Hd|]. eapply distributes_perm; [| |exact E]; solve_Permutation.
  - by apply Hend.
  - by apply Hend.
Qed.
End Turns.

(** ** The loop over the transactions ends when a sender's transactions are in one asset *)
Section Ends.
Context {host : Host} `{HashHandler} {T : Type} `{AccountTrie T} `{!AccountTrieLaws T}.
Implicit Types (p : pack) (trans : transaction) (queue passed : list transaction).

Definition one_asset (l : list transaction) : Prop :=
  forall x y, x ∈ l -> y ∈ l -> get_sender x = get_sender y -> get_asset_type x = get_asset_type y.

(** Each receipt has an entry for the asset its sender's transactions are in. *)
Definition entered (l : list transaction) p : Prop :=
  forall x r, x ∈ l -> receipts p !! get_sender x = Some r -> is_Some (receipt_balances r !! get_asset_type x).

(** A receipt that gained or kept its entries. *)
Definition keeps (r r' : receipt) : Prop :=
  forall t, is_Some (receipt_balances r !! t) -> is_Some (receipt_balances r' !! t).

Lemma check_nonce_balances r : receipt_balances (check_nonce r).2 = receipt_balances r.
Proof.
  unfold check_nonce. destruct (receipt_nonce r) as [|n [|m l]]; [done..|]. cbv zeta.
  destruct (merge_sort _ _); [done|]. by destruct (_ =? _).
Qed.

Lemma check_balances r : receipt_balances (check r).2 = receipt_balances r.
Proof.
  unfold check. pose proof (check_nonce_balances r) as E. destruct (check_nonce r) as [[] r']; exact E.
Qed.

Lemma keeps_at r r' t e : receipt_balances r' = <[t := e]> (receipt_balances r) -> keeps r r'.
Proof. intros E t' Hs. rewrite E. apply lookup_insert_is_Some. destruct (decide (t = t')); auto. Qed.

Lemma keeps_eq r r' : receipt_balances r' = receipt_balances r -> keeps r r'.
Proof. intros E t. by rewrite E. Qed.

(** What a turn does to the receipts. *)
Definition receipts_turn p trans p' (m : move) : Prop :=
  (receipts p' = receipts p /\ m <> Same) \/
  exists r', receipts p' = <[get_sender trans := r']> (receipts p) /\
    match receipts p !! get_sender trans with
    | None => is_Some (receipt_balances r' !! get_asset_type trans) /\ m <> Same
    | Some r => keeps r r' /\ (m = Same -> receipt_balances r !! get_asset_type trans = None)
    end.

(** [check] answers with the receipt's balances. *)
Ltac case_check :=
  match goal with
  | |- context [check ?r] =>
      let E := fresh "E" in pose proof (check_balances r) as E; destruct (check r) as [[] ?]; cbn in E
  | |- context [check_nonce ?r] =>
      let E := fresh "E" in pose proof (check_nonce_balances r) as E; destruct (check_nonce r) as [[] ?]; cbn in E
  end.

Lemma sub_spent_at r t c e : receipt_balances r !! t = Some e ->
  receipt_balances (sub_spent r t c) = <[t := (e.1, u64 (e.2 - c))]> (receipt_balances r).
Proof. intros E. unfold sub_spent. by rewrite E. Qed.

Lemma keeps_spent r r1 t e c : receipt_balances r1 = <[t := e]> (receipt_balances r) -> keeps r (sub_spent r1 t c).
Proof.
  intros E. eapply keeps_at. rewrite (sub_spent_at _ _ _ e) by (rewrite E; apply lookup_insert_eq).
  rewrite E. apply insert_insert_eq.
Qed.

Lemma pack_append_receipts p trans o : let r := pack_append p trans o in receipts_turn p trans r.1 r.2.
Proof.
  unfold pack_append. destruct o as [a|], (receipts p !! get_sender trans) as [rcp|] eqn:Er; cbv zeta.
  - cbn [receipt_balances push_nonce]. destruct (receipt_balances rcp !! _) as [e|] eqn:Ee.
    + case_check; right; rewrite Er; eexists; (split; [done|]); (split; [|done]).
      * by eapply keeps_at.
      * by eapply keeps_spent.
    + case_check; right; rewrite Er; eexists; (split; [done|]); (split; [|done]).
      * by eapply keeps_at.
      * apply keeps_eq. cbn. rewrite E. by apply delete_insert_id.
  - case_check; [right|by left]. rewrite Er. eexists. split; [done|]. split; [|done].
    rewrite E, lookup_singleton_eq. by eexists.
  - destruct (receipt_balances rcp !! _) as [e|]; [|by left].
    case_check; right; rewrite Er; eexists; (split; [done|]); (split; [|done]).
    + by eapply keeps_at.
    + eapply keeps_spent. exact E.
  - by left.
Qed.

Lemma pack_establish_receipts p trans o : let r := pack_establish p trans o in receipts_turn p trans r.1 r.2.
Proof.
  unfold pack_establish. destruct (test _ _); [by left|]. cbv zeta. cbn [receipts with_filter].
  destruct (receipts p !! get_sender trans) as [rcp|] eqn:Er.
  - case_check; right; rewrite Er; eexists; (split; [done|]); (split; [|done]).
    + eapply keeps_at. cbn. by rewrite E.
    + by apply keeps_eq.
  - case_check; [right|by left]. rewrite Er. eexists. split; [done|]. split; [|done].
    rewrite E, lookup_singleton_eq. by eexists.
Qed.

Lemma receipts_turn_entered l p trans p' m : one_asset l -> trans ∈ l -> entered l p ->
  receipts_turn p trans p' m -> entered l p' /\ m <> Same.
Proof.
  intros Ho Ht He [[E Hm]|(r' & E & Hr)].
  { split; [|done]. intros x r Hx. rewrite E. by apply He. }
  destruct (receipts p !! get_sender trans) as [r0|] eqn:Er.
  - destruct Hr as [Hk Hm]. split.
    + intros x r Hx. rewrite E. destruct (decide (get_sender trans = get_sender x)) as [Es|Hd].
      * rewrite Es, lookup_insert_eq. intros [= <-]. apply Hk, (He x); [done|]. by rewrite <-Es.
      * rewrite lookup_insert_ne by done. by apply He.
    + intros ->. destruct (He trans r0 Ht Er) as [e Ee]. rewrite Hm in Ee; done.
  - destruct Hr as [Hs Hm]. split; [|done]. intros x r Hx. rewrite E.
    destruct (decide (get_sender trans = get_sender x)) as [Es|Hd].
    + rewrite Es, lookup_insert_eq. intros [= <-]. by rewrite (Ho x trans) by done.
    + rewrite lookup_insert_ne by done. by apply He.
Qed.

Lemma pack_step_entered l mpt M p trans : at_map mpt M -> uint256_wf (get_sender trans) ->
  one_asset l -> trans ∈ l -> entered l p ->
  exists p' m, pack_step mpt p trans = Ok (p', m) /\ entered l p' /\ m <> Same.
Proof.
  intros HM Hw Ho Ht He. unfold pack_step. rewrite (at_search_spec _ _ _ HM Hw). cbn [mbind res_bind].
  destruct (get_transaction_operator trans).
  - by exists p, Erase.
  - destruct (pack_append _ _ _) as [p' m] eqn:E. exists p', m. split; [done|].
    eapply receipts_turn_entered; [done..|]. pose proof (pack_append_receipts p trans (M !! get_sender trans)) as Hr.
    by rewrite E in Hr.
  - destruct (pack_establish _ _ _) as [p' m] eqn:E. exists p', m. split; [done|].
    eapply receipts_turn_entered; [done..|]. pose proof (pack_establish_receipts p trans (M !! get_sender trans)) as Hr.
    by rewrite E in Hr.
Qed.

(** A pass looks at each transaction once. *)
Lemma pack_pass_ends l mpt M fuel _ini current p passed queue : at_map mpt M ->
  Forall (fun x => uint256_wf (get_sender x)) queue -> one_asset l -> entered l p ->
  (forall x, x ∈ queue -> x ∈ l) -> (length queue < fuel)%nat ->
  exists p' after, pack_pass fuel mpt _ini current p passed queue = Some (Ok (p', after)) /\ entered l p'.
Proof.
  intros HM Hw Ho. revert fuel p passed. induction queue as [|trans rest IH]; intros fuel p passed He Hl Hf.
  { destruct fuel; [cbn in Hf; lia|]. by exists p, passed. }
  destruct fuel as [|fuel]; [lia|]. cbn [pack_pass length] in Hf |- *. inversion Hw as [|? ? Hw1 Hw2]; subst.
  assert (Hgo : forall p' passed', entered l p' -> exists p2 after,
    pack_pass fuel mpt _ini current p' passed' rest = Some (Ok (p2, after)) /\ entered l p2).
  { intros p' passed' He'. apply IH; [done..| |lia]. intros x Hx. apply Hl. by right. }
  destruct (transaction_expired current trans); [by apply Hgo|].
  destruct (pack_step_entered l mpt M p trans HM Hw1 Ho (Hl trans ltac:(left)) He) as (p1 & m & -> & He1 & Hm).
  destruct m; [| by apply Hgo | |done]; cbn.
  all: destruct (_ <=? _); [by eexists _, _|by apply Hgo].
Qed.

(** A pass that takes something leaves less. *)
Lemma distributes_length current before p p' after : distributes current before p p' after ->
  add_count p < add_count p' -> (length after < length before)%nat.
Proof.
  intros (t & d & Hp & _ & Hc & _) Hlt. apply Permutation_length in Hp. rewrite Hp, !length_app. lia.
Qed.

Lemma distributes_subset current before p p' after : distributes current before p p' after ->
  forall x, x ∈ after -> x ∈ before.
Proof. intros (t & d & Hp & _) x Hx. rewrite Hp. apply elem_of_app. right. apply elem_of_app. by right. Qed.

Lemma pack_transactions_ends l mpt M fuel _ini current p queue : at_map mpt M ->
  Forall (fun x => uint256_wf (get_sender x)) queue -> one_asset l -> entered l p ->
  (forall x, x ∈ queue -> x ∈ l) -> (S (length queue) < fuel)%nat ->
  exists p' after, pack_transactions fuel mpt _ini current p queue = Some (Ok (p', after)).
Proof.
  intros HM Hw Ho. revert p queue Hw. induction fuel as [|fuel IH]; intros p queue Hw He Hl Hf; [lia|].
  cbn [pack_transactions]. set (p0 := Pack (receipts p) (asset_filter p) (packed p) 0).
  destruct (pack_pass_ends l mpt M fuel _ini current p0 [] queue HM Hw Ho He Hl ltac:(lia)) as (p1 & after & E & He1).
  rewrite E. destruct (0 <? add_count p1) eqn:Ea; [|by eexists _, _].
  apply Z.ltb_lt in Ea. apply pack_pass_distributes in E as Hd. cbn [app] in Hd.
  pose proof (distributes_length _ _ _ _ _ Hd Ea) as Hlen. pose proof (distributes_subset _ _ _ _ _ Hd) as Hsub.
  apply IH; [|exact He1|by intros x Hx; apply Hl, Hsub|lia].
  apply Forall_forall. intros x Hx%Hsub. by apply (proj1 (Forall_forall _ _) Hw).
Qed.
End Ends.

(** ** Affairs: two turns, or no end *)
Section AffairLoop.
Context {host : Host} `{HashHandler} {T : Type} `{AccountTrie T}.
Implicit Types (p : pack_affairs) (air : affair) (queue : list affair).

Lemma affair_pass_mono fuel fuel' mpt current p queue r : affair_pass fuel mpt current p queue = Some r ->
  (fuel <= fuel')%nat -> affair_pass fuel' mpt current p queue = Some r.
Proof.
  revert fuel' p queue. induction fuel as [|fuel IH]; intros fuel' p queue; [done|].
  destruct fuel' as [|fuel']; [lia|]. cbn [affair_pass]. intros E Hf. destruct queue as [|air rest]; [done|].
  destruct (affair_expired current air); [apply IH; [done|lia]|].
  destruct (affair_step mpt p air) as [[p1 []]|e]; [apply IH; [done|lia]..|done].
Qed.

(** Taking a value out of a sorted list and putting it back. *)
Lemma filter_sorted (f : Z -> bool) l : Sorted Z.le l -> Sorted Z.le (List.filter f l).
Proof.
  intros Hs%Sorted_StronglySorted; [|intros ???; lia]. apply StronglySorted_Sorted.
  induction Hs as [|x l Hs IH Hx]; cbn; [constructor|]. destruct (f x); [|done]. constructor; [done|].
  apply Forall_forall. intros y [Hy _]%list_elem_of_In%filter_In. apply (proj1 (Forall_forall _ _) Hx).
  by apply list_elem_of_In.
Qed.

Lemma filter_perm (f : Z -> bool) l k : Permutation l k -> Permutation (List.filter f l) (List.filter f k).
Proof.
  induction 1 as [|x l k _ IH|x y l|l m k _ IH _ IH']; cbn.
  - done.
  - destruct (f x); [by constructor|done].
  - destruct (f x), (f y); first [apply perm_swap | reflexivity].
  - by etrans.
Qed.

Definition without (n : Z) (l : list Z) : list Z := List.filter (fun m => negb (m =? n)) l.

Lemma without_app n l : without n (l ++ [n]) = without n l.
Proof. unfold without. rewrite List.filter_app. cbn. rewrite Z.eqb_refl. apply app_nil_r. Qed.

Lemma without_twice n l : without n (without n l) = without n l.
Proof.
  unfold without. induction l as [|x l IH]; [done|]. cbn. destruct (x =? n) eqn:E; cbn; [done|]. by rewrite E, IH.
Qed.

Lemma without_sort n l : Sorted Z.le l -> without n (merge_sort Z.le (l ++ [n])) = without n l.
Proof.
  intros Hl. apply (Sorted_unique Z.le); [apply filter_sorted..|].
  - apply Sorted_merge_sort; apply _.
  - done.
  - etrans; [apply filter_perm, merge_sort_Permutation|]. pose proof (without_app n l) as E. unfold without in *. by rewrite E.
Qed.

(** The nonces a failing turn leaves. *)
Lemma check_nonce_without r n : 
  let r' := (check_nonce (push_nonce r n)).2 in
  Sorted Z.le (without n (receipt_nonce r')) /\
  (Sorted Z.le (receipt_nonce r) -> without n (receipt_nonce r') = without n (receipt_nonce r)) /\
  nonce_start r' = nonce_start r /\ receipt_balances r' = receipt_balances r.
Proof.
  cbv zeta. unfold check_nonce, push_nonce. cbn [receipt_nonce nonce_start receipt_balances].
  destruct (receipt_nonce r) as [|x l] eqn:El; cbn [app].
  { cbn. rewrite Z.eqb_refl. split; [constructor|done]. }
  destruct (l ++ [n]) as [|y k] eqn:Ek; [by destruct l|]. rewrite <-Ek.
  assert (Hs : Sorted Z.le (merge_sort Z.le (x :: l ++ [n]))) by (apply Sorted_merge_sort; apply _).
  assert (Hw : Sorted Z.le (x :: l) -> without n (merge_sort Z.le (x :: l ++ [n])) = without n (x :: l))
    by apply (without_sort n (x :: l)).
  destruct (merge_sort Z.le (x :: l ++ [n])) as [|z m] eqn:Em; [by split; [constructor|]|].
  destruct (z =? _); cbn [snd nonce_start receipt_nonce receipt_balances]; (split; [by apply filter_sorted|done]).
Qed.

Lemma affair_step_stuck mpt p p1 p2 air : affair_step mpt p air = Ok (p1, false) ->
  affair_step mpt p1 air = Ok (p2, false) -> p2 = p1.
Proof.
  unfold affair_step. destruct (at_search mpt (owner air)) as [o|]; [|done]. cbn [mbind res_bind].
  destruct (affair_receipts p !! owner air) as [r|] eqn:Er.
  - destruct (check_nonce_without r (affair_nonce air)) as (Hs & _).
    destruct (check_nonce (push_nonce r _)) as [[] r1] eqn:E1; [done|]. cbn [snd] in Hs. intros [= <-].
    cbn [affair_receipts packed_affairs affair_count]. rewrite lookup_insert_eq.
    set (q := {| nonce_start := nonce_start r1; receipt_balances := receipt_balances r1;
      receipt_nonce := List.filter (fun m => negb (m =? affair_nonce air)) (receipt_nonce r1) |}).
    destruct (check_nonce_without q (affair_nonce air)) as (_ & Hw & Hn & Hb).
    destruct (check_nonce (push_nonce q _)) as [[] r2] eqn:E2; [done|]. cbn [snd] in Hw, Hn, Hb. intros [= <-].
    rewrite insert_insert_eq. do 2 f_equal. unfold q. rewrite Hn, Hb. f_equal.
    etrans; [by apply Hw|]. apply without_twice.
  - destruct (check _) as [[] r1]; [done|]. intros [= <-]. rewrite Er. by intros [= <-].
Qed.

Lemma affair_pass_stuck fuel mpt current p air rest : affair_expired current air = false ->
  affair_step mpt p air = Ok (p, false) -> affair_pass fuel mpt current p (air :: rest) = None.
Proof. intros Ex E. induction fuel as [|fuel IH]; [done|]. cbn [affair_pass]. by rewrite Ex, E. Qed.

(** One turn of the loop. *)
Lemma affair_pass_expired fuel mpt current p air rest : affair_expired current air = true ->
  affair_pass (S fuel) mpt current p (air :: rest) = affair_pass fuel mpt current p rest.
Proof. intros Ex. cbn [affair_pass]. by rewrite Ex. Qed.

Lemma affair_pass_turn fuel mpt current p p1 (b : bool) air rest : affair_expired current air = false ->
  affair_step mpt p air = Ok (p1, b) ->
  affair_pass (S fuel) mpt current p (air :: rest)
  = affair_pass fuel mpt current p1 (if b then rest else air :: rest).
Proof. intros Ex E. cbn [affair_pass]. rewrite Ex, E. by destruct b. Qed.

Definition decided mpt current p queue (bound : nat) : Prop :=
  (exists r, affair_pass bound mpt current p queue = Some r)
  \/ forall fuel, affair_pass fuel mpt current p queue = None.

Lemma decided_step n m mpt current p p' queue queue' : (n < m)%nat ->
  (forall fuel, affair_pass (S fuel) mpt current p queue = affair_pass fuel mpt current p' queue') ->
  decided mpt current p' queue' n -> decided mpt current p queue m.
Proof.
  intros Hnm E [[r Hr]|Hn].
  - left. exists r. destruct m as [|m]; [lia|]. rewrite E. eapply affair_pass_mono; [exact Hr|lia].
  - right. intros [|fuel]; [done|]. by rewrite E.
Qed.

Lemma decided_thrown mpt current p air rest e n : affair_expired current air = false ->
  affair_step mpt p air = Err e -> decided mpt current p (air :: rest) (S n).
Proof. intros Ex E. left. eexists. cbn [affair_pass]. by rewrite Ex, E. Qed.

Lemma affair_pass_decides mpt current queue p : decided mpt current p queue (S (2 * length queue)).
Proof.
  revert p. induction queue as [|air rest IH]; intros p; [left; by eexists|].
  replace (S (2 * length (air :: rest))) with (S (S (S (2 * length rest)))) by (cbn; lia).
  set (n := S (2 * length rest)) in *.
  destruct (affair_expired current air) eqn:Ex.
  { eapply (decided_step n); [lia| |apply IH]. intros fuel. by apply affair_pass_expired. }
  destruct (affair_step mpt p air) as [[p1 []]|e] eqn:E1; [| |by eapply decided_thrown].
  { eapply (decided_step n); [lia| |apply IH]. intros fuel. exact (affair_pass_turn _ _ _ _ _ _ _ _ Ex E1). }
  eapply (decided_step (S n)); [lia| |].
  { intros fuel. exact (affair_pass_turn _ _ _ _ _ _ _ _ Ex E1). }
  destruct (affair_step mpt p1 air) as [[p2 []]|e] eqn:E2; [| |by eapply decided_thrown].
  { eapply (decided_step n); [lia| |apply IH]. intros fuel. exact (affair_pass_turn _ _ _ _ _ _ _ _ Ex E2). }
  right. intros fuel. apply affair_pass_stuck; [done|]. by rewrite (affair_step_stuck _ _ _ _ _ E1 E2) in E2.
Qed.
End AffairLoop.

(** ** The whole body *)
Section Body.
Context {host : Host} `{HashHandler} {T : Type} `{AccountTrie T} `{!AccountTrieLaws T}.

Lemma pack_pass_mono fuel fuel' mpt _ini current p passed queue r :
  pack_pass fuel mpt _ini current p passed queue = Some r ->
  (fuel <= fuel')%nat -> pack_pass fuel' mpt _ini current p passed queue = Some r.
Proof.
  revert fuel' p passed queue. induction fuel as [|fuel IH]; intros fuel' p passed queue; [done|].
  destruct fuel' as [|fuel']; [lia|]. cbn [pack_pass]. intros E Hf. destruct queue as [|trans rest]; [done|].
  assert (Hgo : forall p passed queue, pack_pass fuel mpt _ini current p passed queue = Some r ->
    pack_pass fuel' mpt _ini current p passed queue = Some r) by (intros; apply IH; [done|lia]).
  destruct (transaction_expired current trans); [auto|].
  destruct (pack_step mpt p trans) as [[p1 m]|e]; [|done].
  destruct m; auto; destruct (_ <=? _); auto.
Qed.

Lemma pack_transactions_mono fuel fuel' mpt _ini current p queue r :
  pack_transactions fuel mpt _ini current p queue = Some r ->
  (fuel <= fuel')%nat -> pack_transactions fuel' mpt _ini current p queue = Some r.
Proof.
  revert fuel' p queue. induction fuel as [|fuel IH]; intros fuel' p queue; [done|].
  destruct fuel' as [|fuel']; [lia|]. cbn [pack_transactions]. intros E Hf.
  destruct (pack_pass fuel mpt _ini current _ [] queue) as [x|] eqn:Ep; [|done].
  rewrite (pack_pass_mono _ fuel' _ _ _ _ _ _ _ Ep) by lia. destruct x as [[p1 after]|e]; [|done].
  destruct (0 <? add_count p1); [apply IH; [done|lia]|done].
Qed.

Lemma pack_transactions_distributes fuel mpt _ini current p queue p' after :
  pack_transactions fuel mpt _ini current p queue = Some (Ok (p', after)) ->
  exists taken dropped, Permutation queue (taken ++ dropped ++ after) /\
    packed p' = packed p ++ map transaction_copy taken /\ Forall (droppable current) dropped.
Proof.
  revert p queue. induction fuel as [|fuel IH]; intros p queue; [done|]. cbn [pack_transactions].
  destruct (pack_pass fuel mpt _ini current _ [] queue) as [[[p1 q1]|e]|] eqn:Ep; [|done..].
  apply pack_pass_distributes in Ep as (t & d & Hp & Ht & _ & Hd). cbn [app packed] in Hp, Ht.
  destruct (0 <? add_count p1); [|intros [= <- <-]; by exists t, d].
  intros (t' & d' & Hp' & Ht' & Hd')%IH. exists (t ++ t'), (d ++ d').
  split; [rewrite Hp, Hp'; solve_Permutation|]. split; [by rewrite Ht', Ht, map_app, <-app_assoc|].
  by apply Forall_app.
Qed.

Lemma affair_step_ok mpt M p air : at_map mpt M -> uint256_wf (owner air) ->
  exists p1 b, affair_step mpt p air = Ok (p1, b) /\
    packed_affairs p1 = packed_affairs p ++ (if b : bool then [air] else []).
Proof.
  intros HM Hw. unfold affair_step. rewrite (at_search_spec _ _ _ HM Hw). cbn [mbind res_bind].
  destruct (affair_receipts p !! owner air) as [r|].
  - destruct (check_nonce _) as [[] r1]; eexists _, _; (split; [done|]); by rewrite ?app_nil_r.
  - destruct (check _) as [[] r1]; eexists _, _; (split; [done|]); by rewrite ?app_nil_r.
Qed.

(** Every affair that has not expired is taken, in order. *)
Definition fresh_affairs (current : Z) (l : list affair) : list affair :=
  List.filter (fun air => negb (affair_expired current air)) l.

Lemma affair_pass_takes fuel mpt M current p queue r : at_map mpt M ->
  Forall (fun air => uint256_wf (owner air)) queue ->
  affair_pass fuel mpt current p queue = Some r ->
  exists p', r = Ok p' /\ packed_affairs p' = packed_affairs p ++ fresh_affairs current queue.
Proof.
  intros HM. revert p queue. induction fuel as [|fuel IH]; intros p queue Hw; [done|].
  destruct queue as [|air rest]; cbn [affair_pass].
  { intros [= <-]. exists p. by rewrite app_nil_r. }
  inversion Hw as [|? ? Hw1 Hw2]; subst. unfold fresh_affairs. cbn [List.filter].
  destruct (affair_expired current air) eqn:Ex; cbn [negb]; [by apply IH|].
  destruct (affair_step_ok mpt M p air HM Hw1) as (p1 & b & -> & E). destruct b.
  - intros (p' & -> & Hp)%IH; [|done]. exists p'. split; [done|]. by rewrite Hp, E, <-app_assoc.
  - rewrite app_nil_r in E. intros (p' & -> & Hp)%IH; [|by constructor]. exists p'. split; [done|].
    rewrite Hp, E. unfold fresh_affairs. cbn [List.filter]. by rewrite Ex.
Qed.

(** The affairs' loop: every affair that has not expired is taken, or it never ends. *)
Lemma pack_affairs_decides mpt M current p queue : at_map mpt M ->
  Forall (fun air => uint256_wf (owner air)) queue ->
  (exists p', (forall fuel, (2 * length queue + 3 < fuel)%nat ->
      pack_affairs_loop fuel mpt current p queue = Some (Ok p'))
    /\ packed_affairs p' = packed_affairs p ++ fresh_affairs current queue)
  \/ forall fuel, pack_affairs_loop fuel mpt current p queue = None.
Proof.
  intros HM Hw. set (p0 := PackAffairs (affair_receipts p) (packed_affairs p) 0).
  destruct (affair_pass_decides mpt current queue p0) as [[r Hr]|Hn].
  - destruct (affair_pass_takes _ _ _ _ _ _ _ HM Hw Hr) as (p1 & -> & Hp).
    left. exists (if 0 <? affair_count p1 then PackAffairs (affair_receipts p1) (packed_affairs p1) 0 else p1).
    split; [|by destruct (0 <? affair_count p1)]. intros [|fuel] Hf; [lia|]. cbn [pack_affairs_loop]. fold p0.
    rewrite (affair_pass_mono _ fuel _ _ _ _ _ Hr) by lia. destruct (0 <? affair_count p1); [|done].
    by destruct fuel as [|[|fuel]]; [lia..|].
  - right. intros [|fuel]; [done|]. cbn [pack_affairs_loop]. fold p0. by rewrite Hn.
Qed.

(** C12: the packaging of a body, for queues in which each sender's transactions
    are in one asset: either it never ends, and only the loop over the affairs can
    be to blame, or it ends; a fuel linear in the queues is enough then, which bounds the
    passes over a queue and, again, the turns of each single pass.  When it ends, the
    body has gained copies of some of the queued transactions and every affair that
    has not expired, in order, the affairs' queue is empty, what is left of the
    transactions' queue is the rest, and a transaction is thrown away only when it has expired
    or does nothing. *)
Theorem packaging_ends (c : @connector_account T) (M : gmap uint256 account) (_ini : chain_ini) (current : Z)
    (blk : block) (tq : list transaction) (aq : list affair) :
  at_map (account_mpt c) M -> Forall sender_wf tq -> Forall (fun air => uint256_wf (owner air)) aq ->
  one_asset tq ->
  (exists blk' tq' taken dropped,
    (forall fuel, (length tq + 2 * length aq + 3 < fuel)%nat ->
      package_next_block_body fuel c _ini current blk tq aq = Some (Ok (blk', tq', [])))
    /\ Permutation tq (taken ++ dropped ++ tq') /\ Forall (droppable current) dropped
    /\ transactions (body blk') = transactions (body blk) ++ map transaction_copy taken
    /\ affairs (body blk') = affairs (body blk) ++ fresh_affairs current aq)
  \/ (aq <> [] /\ forall fuel, package_next_block_body fuel c _ini current blk tq aq = None).
Proof.
  intros HM Ht Ha Ho. set (p0 := Pack ∅ (asset_bloom_filter c) (transactions (body blk)) 0).
  assert (Hs : Forall (fun x => uint256_wf (get_sender x)) tq) by (eapply Forall_impl; [exact Ht|]; by intros x []).
  destruct (pack_transactions_ends tq (account_mpt c) M (2 + length tq) _ini current p0 tq HM Hs Ho) as (p & tq' & Ep);
    [by intros x r _; cbn; rewrite lookup_empty|done|lia|].
  destruct (pack_transactions_distributes _ _ _ _ _ _ _ _ Ep) as (taken & dropped & Hp & Ht' & Hd).
  set (q0 := PackAffairs (receipts p) (affairs (body blk)) 0).
  destruct (pack_affairs_decides (account_mpt c) M current q0 aq HM Ha) as [(q & Eq & Hq)|Hn].
  - left. eexists _, tq', taken, dropped. split.
    + intros fuel Hf. unfold package_next_block_body. fold p0.
      rewrite (pack_transactions_mono _ fuel _ _ _ _ _ _ Ep) by lia. fold q0. rewrite Eq by lia. done.
    + by cbn.
  - right. split.
    + intros ->. specialize (Hn 3%nat). done.
    + intros fuel. unfold package_next_block_body. fold p0.
      destruct (pack_transactions fuel (account_mpt c) _ini current p0 tq) as [r|] eqn:Ep'; [|done].
      apply (pack_transactions_mono _ (Nat.max fuel (2 + length tq))) in Ep'; [|lia].
      rewrite (pack_transactions_mono _ (Nat.max fuel (2 + length tq)) _ _ _ _ _ _ Ep) in Ep' by lia.
      injection Ep' as <-. fold q0. by rewrite Hn.
Qed.
End Body.

(** ** Two transactions that keep the loop from ending *)
Section Spins.
Context {host : Host} `{HashHandler} {T : Type} `{AccountTrie T} `{!AccountTrieLaws T}.

(** A receipt that promises more than there is fails. *)
Lemma check_overdrawn r t have spent : receipt_balances r !! t = Some (have, spent) -> have < spent ->
  (check r).1 = false.
Proof.
  intros E Hlt. unfold check. pose proof (check_nonce_balances r) as Eb.
  destruct (check_nonce r) as [[] r1]; cbn in Eb |- *; [|done].
  apply not_true_iff_false. rewrite forallb_forall. intros Hall.
  specialize (Hall (t, (have, spent))). cbn in Hall. rewrite Eb in Hall.
  enough (spent <= have) by lia. apply Z.leb_le, Hall.
  apply list_elem_of_In, elem_of_map_to_list, E.
Qed.

(** The receipt is as it was, but for its nonces. *)
Definition stuck_at p a trans : Prop :=
  exists r, receipts p !! get_sender trans = Some r /\ receipt_balances r !! get_asset_type trans = None
    /\ get_balance a (get_asset_type trans) < get_count trans.

Lemma stuck_turn p a trans : stuck_at p a trans ->
  exists p', pack_append p trans (Some a) = (p', Same) /\ packed p' = packed p /\ stuck_at p' a trans.
Proof.
  intros (r & Er & Eb & Hlt). unfold pack_append. rewrite Er. cbn [receipt_balances push_nonce]. rewrite Eb.
  set (r1 := set_entry _ _ _).
  pose proof (check_overdrawn r1 (get_asset_type trans) _ _ ltac:(apply lookup_insert_eq) Hlt) as Hc.
  destruct (check r1) as [ok r2] eqn:Ec. cbn in Hc. subst ok.
  eexists. split; [done|]. split; [done|]. eexists. split; [apply lookup_insert_eq|].
  split; [|done]. apply lookup_delete_eq.
Qed.

Lemma stuck_forever fuel mpt M _ini current p a trans passed rest : at_map mpt M ->
  uint256_wf (get_sender trans) -> M !! get_sender trans = Some a ->
  get_transaction_operator trans = Append -> transaction_expired current trans = false ->
  stuck_at p a trans -> Z.of_nat (length (packed p)) < transaction_maximum_number_in_block _ini ->
  pack_pass fuel mpt _ini current p passed (trans :: rest) = None.
Proof.
  intros HM Hw Ea Eop Ex. revert p passed. induction fuel as [|fuel IH]; intros p passed Hs Hlim; [done|].
  cbn [pack_pass]. rewrite Ex. unfold pack_step. rewrite (at_search_spec _ _ _ HM Hw), Ea, Eop. cbn [mbind res_bind].
  destruct (stuck_turn p a trans Hs) as (p' & -> & Hp & Hs'). rewrite Hp.
  rewrite (proj2 (Z.leb_gt _ _)) by lia. apply IH; [done|by rewrite Hp].
Qed.

(** C14: an account that sends two transactions, the first of which it can pay and
    the second in another asset of which it does not have enough, makes every node
    that packages a block loop for ever: in that branch [start] is not advanced. *)
Theorem packaging_spins (c : @connector_account T) (M : gmap uint256 account) (_ini : chain_ini) (current : Z)
    (blk : block) (t1 t2 : transaction) (a : account) (rest : list transaction) (aq : list affair) (fuel : nat) :
  at_map (account_mpt c) M -> uint256_wf (get_sender t1) -> M !! get_sender t1 = Some a ->
  get_transaction_operator t1 = Append -> get_transaction_operator t2 = Append ->
  transaction_expired current t1 = false -> transaction_expired current t2 = false ->
  get_sender t2 = get_sender t1 -> get_asset_type t2 <> get_asset_type t1 ->
  get_nonce t1 = u64 (nonce a + 1) -> get_count t1 <= get_balance a (get_asset_type t1) ->
  get_balance a (get_asset_type t2) < get_count t2 ->
  Z.of_nat (S (length (transactions (body blk)))) < transaction_maximum_number_in_block _ini ->
  package_next_block_body fuel c _ini current blk (t1 :: t2 :: rest) aq = None.
Proof.
  intros HM Hw Ea E1 E2 X1 X2 Es Ht Hn Hc1 Hc2 Hlim. unfold package_next_block_body.
  destruct fuel as [|[|fuel]]; [done..|]. cbn [pack_transactions pack_pass receipts asset_filter packed].
  rewrite X1. unfold pack_step at 1. rewrite (at_search_spec _ _ _ HM Hw), Ea, E1. cbn [mbind res_bind].
  unfold pack_append. cbn [receipts]. rewrite lookup_empty.
  set (r := {| nonce_start := _ |}).
  assert (Hok : check r = (true, r)).
  { unfold check, check_nonce. cbn. rewrite Hn, Z.eqb_refl. cbn. rewrite map_to_list_singleton. cbn.
    by rewrite (proj2 (Z.leb_le _ _)). }
  rewrite Hok. cbn [take_transaction with_receipt packed]. rewrite length_app, Nat.add_1_r.
  rewrite (proj2 (Z.leb_gt _ _)) by lia.
  erewrite stuck_forever; [done|exact HM|by rewrite Es|by rewrite Es|done|done| |].
  - eexists. cbn. rewrite Es, lookup_insert_eq. split; [done|]. split; [|exact Hc2]. by apply lookup_singleton_ne.
  - cbn. rewrite length_app, Nat.add_1_r. lia.
Qed.
End Spins.

(** ** Expiry *)

(** The packaging lets nothing live longer than 2^32 microseconds after it was
    made, about 72 minutes, whatever its epoch: the product of the epoch
    and the length of an epoch is taken modulo 2^32, so that 15 epochs end before
    14. *)
Theorem expiry_bounded (create_time epoch : Z) : 0 <= create_time < 2 ^ 63 ->
  create_time <= expire_dt create_time epoch < create_time + 2 ^ 32 /\
  expire_dt create_time 15 < expire_dt create_time 14.
Proof.
  intros Hc. unfold expire_dt.
  assert (Hu : forall e, 0 <= u32 (e * Epoch_Time_Uint) < 2 ^ 32) by (intros e; by apply wrap_range).
  assert (Hs : forall e, u64 (create_time + u32 (e * Epoch_Time_Uint)) = create_time + u32 (e * Epoch_Time_Uint)).
  { intros e. apply wrap_small. specialize (Hu e). unfold is_uint. lia. }
  rewrite !Hs. specialize (Hu epoch). split; [lia|].
  change (u32 (15 * Epoch_Time_Uint)) with 205032704. change (u32 (14 * Epoch_Time_Uint)) with 4200000000. lia.
Qed.

Lemma expiry_bounded_witness : expire_dt 1700000000000000 15 < 1700000000000000 + 2 ^ 32.
Proof. apply (expiry_bounded 1700000000000000 15). vm_compute. split; [discriminate|reflexivity]. Defined.
