(* ===== verification/PackagingSpends.v ===== *)
(** * Packaging: nobody spends what they do not have

    The receipts of [package_next_block_body] bound what the packed transactions
    of a sender spend of an asset, as long as the sum stays in 64 bits. *)
From S2P Require Import Prelude Stream Uint256 Account Transaction Block BloomFilter MptNode Mpt.
From S2P Require Import AccountTrie Effects Ledger LedgerLaws LedgerSpec LedgerSupply Settings Packaging PackagingTheorems.

Section Spends.
Context {host : Host} `{HashHandler} {T : Type} `{AccountTrie T} `{!AccountTrieLaws T}.
Implicit Types (p : pack) (trans : transaction) (M : gmap uint256 account).

Definition spends (s : uint256) (t : Z) trans : Z :=
  match get_transaction_operator trans with
  | Append => if decide (get_sender trans = s) then on_asset (get_asset_type trans) t (get_count trans) else 0
  | _ => 0
  end.
Definition spent s t (l : list transaction) : Z := foldr Z.add 0 (map (spends s t) l).

Definition mints_to (s : uint256) (t : Z) trans : Z := if decide (get_sender trans = s) then mints t trans else 0.
Definition minted_to s t (l : list transaction) : Z := foldr Z.add 0 (map (mints_to s t) l).

(** What [s] may spend of [t]: what it has and what it brings into being. *)
Definition budget M s t (l : list transaction) : Z := balance_at M s t + minted_to s t l.

Lemma sum_app (f : transaction -> Z) l k :
  foldr Z.add 0 (map f (l ++ k)) = foldr Z.add 0 (map f l) + foldr Z.add 0 (map f k).
Proof. induction l as [|x l IH]; cbn in *; lia. Qed.

Lemma sum_nonneg (f : transaction -> Z) l : (forall x, x ∈ l -> 0 <= f x) -> 0 <= foldr Z.add 0 (map f l).
Proof.
  induction l as [|x l IH]; intros Hf; cbn; [done|]. specialize (IH (fun y Hy => Hf y ltac:(by right))).
  specialize (Hf x ltac:(left)). lia.
Qed.

Lemma sum_perm (f : transaction -> Z) l k : Permutation l k ->
  foldr Z.add 0 (map f l) = foldr Z.add 0 (map f k).
Proof. induction 1; cbn in *; lia. Qed.

Lemma spent_snoc s t l trans : spent s t (l ++ [transaction_copy trans]) = spent s t l + spends s t trans.
Proof.
  unfold spent. rewrite sum_app. cbn [map foldr]. change (spends s t (transaction_copy trans)) with (spends s t trans). lia.
Qed.

Lemma minted_snoc s t l trans : minted_to s t (l ++ [transaction_copy trans]) = minted_to s t l + mints_to s t trans.
Proof.
  unfold minted_to. rewrite sum_app. cbn [map foldr]. change (mints_to s t (transaction_copy trans)) with (mints_to s t trans). lia.
Qed.

Lemma mints_to_nonneg s t trans : 0 <= mints_to s t trans.
Proof. unfold mints_to. case_decide; [apply mints_nonneg|done]. Qed.

Lemma minted_to_nonneg s t l : 0 <= minted_to s t l.
Proof. apply sum_nonneg. intros. apply mints_to_nonneg. Qed.

(** The entry of a receipt for an asset. *)
Definition entry p s t : option (Z * Z) := receipts p !! s ≫= fun r => receipt_balances r !! t.

Lemma entry_insert p p' s r t : receipts p' = <[s := r]> (receipts p) -> entry p' s t = receipt_balances r !! t.
Proof. intros E. unfold entry. by rewrite E, lookup_insert_eq. Qed.

Lemma entry_insert_ne p p' s s' r t : receipts p' = <[s' := r]> (receipts p) -> s' <> s -> entry p' s t = entry p s t.
Proof. intros E Hn. unfold entry. by rewrite E, lookup_insert_ne. Qed.

(** A receipt that passes promises no more than there is. *)
Lemma check_passes r r' t e : check r = (true, r') -> receipt_balances r !! t = Some e -> e.2 <= e.1.
Proof.
  intros Ec E. destruct e as [have sp]. cbn. destruct (Z.le_gt_cases sp have) as [|Hlt]; [done|].
  pose proof (check_overdrawn r t have sp E Hlt) as Hc. by rewrite Ec in Hc.
Qed.

(** What a turn does to the entry that [s] has for [t]. *)
Inductive entry_turn M s t p trans p' : Prop :=
  | TurnNone : packed p' = packed p -> entry p' s t = entry p s t -> entry_turn M s t p trans p'
  | TurnBack h sp : packed p' = packed p -> entry p s t = Some (h, sp) ->
      entry p' s t = Some (h, u64 (u64 (sp + spends s t trans) - spends s t trans)) -> entry_turn M s t p trans p'
  | TurnOther : packed p' = packed p ++ [transaction_copy trans] -> entry p' s t = entry p s t ->
      spends s t trans = 0 -> mints_to s t trans = 0 -> entry_turn M s t p trans p'
  | TurnSpend h sp : packed p' = packed p ++ [transaction_copy trans] -> entry p s t = Some (h, sp) ->
      entry p' s t = Some (h, u64 (sp + spends s t trans)) -> u64 (sp + spends s t trans) <= h ->
      mints_to s t trans = 0 -> entry_turn M s t p trans p'
  | TurnOpen : packed p' = packed p ++ [transaction_copy trans] -> entry p s t = None ->
      entry p' s t = Some (balance_at M s t, spends s t trans) -> spends s t trans <= balance_at M s t ->
      mints_to s t trans = 0 -> entry_turn M s t p trans p'
  | TurnMint h sp : packed p' = packed p ++ [transaction_copy trans] -> default (0, 0) (entry p s t) = (h, sp) ->
      entry p' s t = Some (u64 (h + mints_to s t trans), sp) -> spends s t trans = 0 ->
      entry_turn M s t p trans p'.

(** The receipts are backed by the balances. *)
Definition backed M s t p : Prop :=
  0 <= spent s t (packed p) /\
  (spent s t (packed p) < 2 ^ 64 -> spent s t (packed p) <= budget M s t (packed p) /\
    match entry p s t with
    | None => spent s t (packed p) = 0
    | Some (h, sp) => sp = spent s t (packed p) /\ 0 <= h <= budget M s t (packed p)
    end).

Lemma u64_le x : 0 <= x -> u64 x <= x.
Proof. intros Hx. unfold wrap. apply Z.mod_le; lia. Qed.

Lemma u64_back x c : 0 <= x < 2 ^ 64 -> u64 (u64 (x + c) - c) = x.
Proof.
  intros Hx. unfold wrap. rewrite Zminus_mod_idemp_l. replace (x + c - c) with x by lia. by apply Z.mod_small.
Qed.

Lemma backed_turn M s t p trans p' : 0 <= balance_at M s t -> 0 <= spends s t trans ->
  entry_turn M s t p trans p' -> backed M s t p -> backed M s t p'.
Proof.
  intros Hb Hs Ht [H0' Hi]. unfold backed, budget in *.
  pose proof (mints_to_nonneg s t trans) as Hm. pose proof (minted_to_nonneg s t (packed p)) as Hm'.
  destruct Ht as [E1 E2|h sp E1 E2 E3|E1 E2 E3 E4|h sp E1 E2 E3 E4 E5|E1 E2 E3 E4 E5|h sp E1 E2 E3 E4];
    rewrite E1, ?spent_snoc, ?minted_snoc; (split; [lia|]); intros Hlt; (destruct Hi as [Hle He]; [lia|]).
  - by rewrite E2.
  - rewrite E2 in He. rewrite E3. split; [done|]. destruct He as [-> Hh]. split; [|lia]. by apply u64_back.
  - rewrite E2, E3, E4, !Z.add_0_r. done.
  - rewrite E2 in He. rewrite E3, E5, !Z.add_0_r. destruct He as [-> Hh].
    rewrite wrap_small in E4 |- * by (unfold is_uint; lia). lia.
  - rewrite E2 in He. rewrite E3, E5, !Z.add_0_r, He. rewrite He in Hle. lia.
  - rewrite E3, E4, !Z.add_0_r.
    assert (Hh : 0 <= h <= balance_at M s t + minted_to s t (packed p) /\ sp = spent s t (packed p)).
    { destruct (entry p s t) as [[h1 sp1]|]; cbn in E2; injection E2 as <- <-; [|lia]. by destruct He as [-> ?]. }
    destruct Hh as [Hh ->]. pose proof (u64_le (h + mints_to s t trans)).
    pose proof (wrap_range 64 (h + mints_to s t trans)). unfold is_uint in *. lia.
Qed.

(** ** The turns of the loop *)

(** The balances of a sender's receipt, none at first. *)
Definition balances_of p s : gmap Z (Z * Z) := from_option receipt_balances ∅ (receipts p !! s).

Lemma entry_balances p s t : entry p s t = balances_of p s !! t.
Proof. unfold entry, balances_of. by destruct (receipts p !! s). Qed.

(** The turn is about the asset [t] of [s]. *)
Definition own s t trans : Prop := get_sender trans = s /\ get_asset_type trans = t.

Lemma entry_set p p' s t trans r e : receipts p' = <[get_sender trans := r]> (receipts p) ->
  receipt_balances r = <[get_asset_type trans := e]> (balances_of p (get_sender trans)) ->
  entry p' s t = if decide (own s t trans) then Some e else entry p s t.
Proof.
  intros E Er. rewrite !entry_balances. unfold balances_of at 1. rewrite E. unfold own. case_decide as Hd.
  - destruct Hd as [<- <-]. rewrite lookup_insert_eq. cbn. by rewrite Er, lookup_insert_eq.
  - destruct (decide (get_sender trans = s)) as [<-|Hs].
    + rewrite lookup_insert_eq. cbn. rewrite Er, lookup_insert_ne; [done|]. intros Ha. by apply Hd.
    + by rewrite lookup_insert_ne.
Qed.

Lemma entry_same p p' s t trans r : receipts p' = <[get_sender trans := r]> (receipts p) ->
  receipt_balances r = balances_of p (get_sender trans) -> entry p' s t = entry p s t.
Proof.
  intros E Er. rewrite !entry_balances. unfold balances_of at 1. rewrite E.
  destruct (decide (get_sender trans = s)) as [<-|Hs]; [by rewrite lookup_insert_eq; cbn; rewrite Er|].
  by rewrite lookup_insert_ne.
Qed.

Lemma spends_append s t trans : get_transaction_operator trans = Append ->
  spends s t trans = if decide (own s t trans) then get_count trans else 0.
Proof. intros E. unfold spends, on_asset, own. rewrite E. repeat case_decide; naive_solver. Qed.

Lemma mints_append s t trans : get_transaction_operator trans = Append -> mints_to s t trans = 0.
Proof. intros E. unfold mints_to, mints. rewrite E. by case_decide. Qed.

Lemma spends_establish s t trans : get_transaction_operator trans = Establish -> spends s t trans = 0.
Proof. intros E. unfold spends. by rewrite E. Qed.

Lemma mints_establish s t trans : get_transaction_operator trans = Establish ->
  mints_to s t trans = if decide (own s t trans) then ASSET_MAX_COUNT else 0.
Proof. intros E. unfold mints_to, mints, on_asset, own. rewrite E. repeat case_decide; naive_solver. Qed.

Section Turn.
Context (M : gmap uint256 account) (s : uint256) (t : Z) (p p' : pack) (trans : transaction) (r : receipt) (e : Z * Z).
Context (Hr : receipts p' = <[get_sender trans := r]> (receipts p)).
Context (Hb : receipt_balances r = <[get_asset_type trans := e]> (balances_of p (get_sender trans))).
Context (Hp : packed p' = packed p ++ [transaction_copy trans]).

Lemma turn_spend h sp : get_transaction_operator trans = Append ->
  balances_of p (get_sender trans) !! get_asset_type trans = Some (h, sp) ->
  e = (h, u64 (sp + get_count trans)) -> e.2 <= e.1 -> entry_turn M s t p trans p'.
Proof.
  intros Eop Ee -> Hle. pose proof (entry_set p p' s t trans r _ Hr Hb) as Es.
  pose proof (mints_append s t trans Eop) as Hm. pose proof (spends_append s t trans Eop) as Hs.
  case_decide as Hd; [|by apply TurnOther]. destruct Hd as [<- <-].
  eapply TurnSpend; [done|by rewrite entry_balances|by rewrite Hs|by rewrite Hs|done].
Qed.

Lemma turn_open a : get_transaction_operator trans = Append -> M !! get_sender trans = Some a ->
  balances_of p (get_sender trans) !! get_asset_type trans = None ->
  e = (get_balance a (get_asset_type trans), get_count trans) -> e.2 <= e.1 -> entry_turn M s t p trans p'.
Proof.
  intros Eop Ea Ee -> Hle. pose proof (entry_set p p' s t trans r _ Hr Hb) as Es.
  pose proof (mints_append s t trans Eop) as Hm. pose proof (spends_append s t trans Eop) as Hs.
  case_decide as Hd; [|by apply TurnOther]. destruct Hd as [<- <-].
  assert (Hbal : balance_at M (get_sender trans) (get_asset_type trans) = get_balance a (get_asset_type trans))
    by (unfold balance_at; by rewrite Ea).
  apply TurnOpen; rewrite ?Hs, ?Hbal; try done. by rewrite entry_balances.
Qed.

Lemma turn_mint h sp : get_transaction_operator trans = Establish ->
  default (0, 0) (balances_of p (get_sender trans) !! get_asset_type trans) = (h, sp) ->
  e = (u64 (h + ASSET_MAX_COUNT), sp) -> entry_turn M s t p trans p'.
Proof.
  intros Eop Ee ->. pose proof (entry_set p p' s t trans r _ Hr Hb) as Es.
  pose proof (mints_establish s t trans Eop) as Hm. pose proof (spends_establish s t trans Eop) as Hs.
  case_decide as Hd; [|by apply TurnOther]. destruct Hd as [<- <-].
  eapply TurnMint; [done|by rewrite entry_balances|by rewrite Hm|done].
Qed.
End Turn.

(** A turn that fails and takes the count back. *)
Lemma turn_back M s t p p' trans r h sp : get_transaction_operator trans = Append -> packed p' = packed p ->
  receipts p' = <[get_sender trans := r]> (receipts p) ->
  balances_of p (get_sender trans) !! get_asset_type trans = Some (h, sp) ->
  receipt_balances r = <[get_asset_type trans := (h, u64 (u64 (sp + get_count trans) - get_count trans))]>
    (balances_of p (get_sender trans)) -> entry_turn M s t p trans p'.
Proof.
  intros Eop Hp Hr Ee Hb. pose proof (entry_set p p' s t trans r _ Hr Hb) as Es.
  pose proof (spends_append s t trans Eop) as Hs. case_decide as Hd; [|by apply TurnNone].
  destruct Hd as [<- <-]. eapply TurnBack; [done|by rewrite entry_balances|by rewrite Hs].
Qed.

Lemma balances_some p s r : receipts p !! s = Some r -> balances_of p s = receipt_balances r.
Proof. intros E. unfold balances_of. by rewrite E. Qed.
Lemma balances_none p s : receipts p !! s = None -> balances_of p s = ∅.
Proof. intros E. unfold balances_of. by rewrite E. Qed.

(** [check] of a receipt with an entry just set. *)
Lemma check_entry r t e ok r' : check (set_entry r t e) = (ok, r') ->
  receipt_balances r' = <[t := e]> (receipt_balances r) /\ (ok = true -> e.2 <= e.1).
Proof.
  intros Ec. pose proof (check_balances (set_entry r t e)) as Eb. rewrite Ec in Eb. split; [exact Eb|].
  intros ->. apply (check_passes _ _ t e Ec), lookup_insert_eq.
Qed.

Lemma sub_spent_back r r0 t h sp c : receipt_balances r0 = <[t := (h, sp)]> (receipt_balances r) ->
  receipt_balances (sub_spent r0 t c) = <[t := (h, u64 (sp - c))]> (receipt_balances r).
Proof.
  intros E. rewrite (sub_spent_at _ _ _ (h, sp)) by (rewrite E; apply lookup_insert_eq).
  rewrite E. apply insert_insert_eq.
Qed.

Lemma append_with_entry M s t p trans r h sp ok r1 p' : get_transaction_operator trans = Append ->
  receipts p !! get_sender trans = Some r -> receipt_balances r !! get_asset_type trans = Some (h, sp) ->
  check (set_entry (push_nonce r (get_nonce trans)) (get_asset_type trans) (add_spent (h, sp) (get_count trans))) = (ok, r1) ->
  (ok = true -> p' = take_transaction (with_receipt p (get_sender trans) r1) trans) ->
  (ok = false -> exists r2, receipt_balances r2 = receipt_balances r1 /\
    p' = with_receipt p (get_sender trans) (sub_spent r2 (get_asset_type trans) (get_count trans))) ->
  entry_turn M s t p trans p'.
Proof.
  intros Eop Er Ee Ec Htrue Hfalse. apply check_entry in Ec as [Eb Hle].
  pose proof (balances_some _ _ _ Er) as Hb. destruct ok.
  - rewrite (Htrue eq_refl). eapply turn_spend; [done| |done|done|by rewrite Hb|done|by apply Hle].
    by rewrite Eb, Hb.
  - destruct (Hfalse eq_refl) as (r2 & E2 & ->). eapply turn_back; [done|done|done|by rewrite Hb|].
    rewrite Hb. apply sub_spent_back. by rewrite E2.
Qed.

Lemma pack_append_entry M s t p trans p' m : get_transaction_operator trans = Append ->
  pack_append p trans (M !! get_sender trans) = (p', m) -> entry_turn M s t p trans p'.
Proof.
  intros Eop. unfold pack_append.
  destruct (M !! get_sender trans) as [a|] eqn:Ea, (receipts p !! get_sender trans) as [r|] eqn:Er; cbv zeta.
  - cbn [receipt_balances push_nonce]. destruct (receipt_balances r !! get_asset_type trans) as [[h sp]|] eqn:Ee.
    + destruct (check _) as [ok r1] eqn:Ec. intros E. eapply append_with_entry; [done..| |]; intros ->; injection E as <- _; eauto.
    + destruct (check _) as [[] r1] eqn:Ec; intros [= <- _]; apply check_entry in Ec as [Eb Hle];
        pose proof (balances_some _ _ _ Er) as Hb.
      * eapply turn_open; [done| |done|done|done|by rewrite Hb|done|by apply Hle]. by rewrite Eb, Hb.
      * apply TurnNone; [done|]. eapply entry_same; [done|]. rewrite Hb. cbn. rewrite Eb. by apply delete_insert_id.
  - set (r0 := {| nonce_start := _ |}). pose proof (balances_none _ _ Er) as Hb.
    destruct (check r0) as [[] r1] eqn:Ec; intros [= <- _]; [|by apply TurnNone].
    pose proof (check_balances r0) as Eb. rewrite Ec in Eb. cbn in Eb.
    eapply turn_open; [done| |done|done|done|by rewrite Hb|done|].
    + rewrite Eb, Hb. by rewrite insert_empty.
    + apply (check_passes _ _ (get_asset_type trans) _ Ec). cbn. apply lookup_singleton_eq.
  - destruct (receipt_balances r !! get_asset_type trans) as [[h sp]|] eqn:Ee; [|intros [= <- _]; by apply TurnNone].
    destruct (check _) as [ok r1] eqn:Ec. intros E. eapply append_with_entry; [done..| |]; intros ->; injection E as <- _; [done|].
    by exists (pop_nonce r1).
  - intros [= <- _]. by apply TurnNone.
Qed.

Lemma pack_establish_entry M s t p trans o p' m : get_transaction_operator trans = Establish ->
  pack_establish p trans o = (p', m) -> entry_turn M s t p trans p'.
Proof.
  intros Eop. unfold pack_establish. destruct (test _ _); [intros [= <- _]; by apply TurnNone|].
  cbv zeta. cbn [receipts with_filter]. destruct (receipts p !! get_sender trans) as [r|] eqn:Er.
  - pose proof (balances_some _ _ _ Er) as Hb.
    destruct (check_nonce (push_nonce r _)) as [[] r1] eqn:Ec; intros [= <- _];
      pose proof (check_nonce_balances (push_nonce r (get_nonce trans))) as Eb; rewrite Ec in Eb; cbn in Eb.
    + destruct (default (0, 0) (receipt_balances r1 !! get_asset_type trans)) as [h sp] eqn:Ee.
      eapply turn_mint; [done| |done|done|by rewrite Hb, <-Eb|done]. cbn. by rewrite Eb, Hb.
    + apply TurnNone; [done|]. eapply entry_same; [done|]. by rewrite Hb.
  - pose proof (balances_none _ _ Er) as Hb. set (r0 := {| nonce_start := _ |}).
    destruct (check r0) as [[] r1] eqn:Ec; intros [= <- _]; [|by apply TurnNone].
    pose proof (check_balances r0) as Eb. rewrite Ec in Eb. cbn in Eb.
    eapply turn_mint; [done| |done|done|by rewrite Hb|done]. by rewrite Eb, Hb, insert_empty.
Qed.

Lemma pack_step_entry mpt M s t p trans p' m : at_map mpt M -> uint256_wf (get_sender trans) ->
  pack_step mpt p trans = Ok (p', m) -> entry_turn M s t p trans p'.
Proof.
  intros HM Hw. unfold pack_step. rewrite (at_search_spec _ _ _ HM Hw). cbn [mbind res_bind].
  destruct (get_transaction_operator trans) eqn:Eop; intros E; injection E; clear E.
  - intros _ <-. by apply TurnNone.
  - intros E. eapply pack_append_entry; [done|]. by rewrite E.
  - intros E. eapply pack_establish_entry; [done|]. by rewrite E.
Qed.

(** ** The loops *)
Lemma spends_nonneg s t trans : 0 <= get_count trans -> 0 <= spends s t trans.
Proof. intros Hc. unfold spends, on_asset. repeat case_match; done. Qed.

Definition queue_ok (l : list transaction) : Prop :=
  Forall (fun x => uint256_wf (get_sender x) /\ 0 <= get_count x) l.

Lemma pack_pass_backed s t mpt M fuel _ini current p passed queue p' after : at_map mpt M ->
  0 <= balance_at M s t -> queue_ok passed -> queue_ok queue ->
  pack_pass fuel mpt _ini current p passed queue = Some (Ok (p', after)) -> backed M s t p ->
  backed M s t p' /\ queue_ok after.
Proof.
  intros HM Hb. revert p passed queue. induction fuel as [|fuel IH]; intros p passed queue Hpas Hq; [done|].
  destruct queue as [|trans rest]; cbn [pack_pass]; [by intros [= <- <-]|].
  inversion Hq as [|? ? [Hw Hc] Hrest]; subst.
  destruct (transaction_expired current trans); [by apply IH|].
  destruct (pack_step mpt p trans) as [[p1 m]|] eqn:E; [|done]. intros Eg Hi.
  pose proof (backed_turn M s t p trans p1 Hb (spends_nonneg _ _ _ Hc) (pack_step_entry _ _ _ _ _ _ _ _ HM Hw E) Hi) as Hi1.
  assert (Hpas' : queue_ok (passed ++ [trans])) by (apply Forall_app; split; [done|by constructor]).
  assert (Hlim : forall b q, queue_ok b -> queue_ok q ->
    (if transaction_maximum_number_in_block _ini <=? Z.of_nat (length (packed p1)) then Some (Ok (p1, b ++ q))
     else pack_pass fuel mpt _ini current p1 b q) = Some (Ok (p', after)) -> backed M s t p' /\ queue_ok after).
  { intros b q Hb' Hq'. destruct (_ <=? _); [|intros E'; exact (IH _ _ _ Hb' Hq' E' Hi1)].
    intros [= <- <-]. split; [done|]. by apply Forall_app. }
  destruct m.
  - by apply Hlim in Eg.
  - exact (IH _ _ _ Hpas' Hrest Eg Hi1).
  - by apply Hlim in Eg.
  - by apply Hlim in Eg.
Qed.

Lemma pack_transactions_backed s t mpt M fuel _ini current p queue p' after : at_map mpt M ->
  0 <= balance_at M s t -> queue_ok queue ->
  pack_transactions fuel mpt _ini current p queue = Some (Ok (p', after)) -> backed M s t p -> backed M s t p'.
Proof.
  intros HM Hb. revert p queue. induction fuel as [|fuel IH]; intros p queue Hq; [done|]. cbn [pack_transactions].
  destruct (pack_pass fuel mpt _ini current _ [] queue) as [[[p1 q1]|e]|] eqn:Ep; [|done..]. intros E Hi.
  eapply pack_pass_backed in Ep as [Hi1 Hq1]; [|done|exact Hb|by constructor|done|exact Hi].
  destruct (0 <? add_count p1); [by eapply IH|]. by injection E as <- <-.
Qed.

(** C13: in a packaged body nobody spends more of an asset than they have in the
    account tree and establish in that body, as long as the counts of the sender's
    queued transactions do not add up to [2 ^ 64]. *)
Theorem packed_within_balance (c : @connector_account T) (M : gmap uint256 account) (_ini : chain_ini)
    (current : Z) (blk blk' : block) (tq tq' : list transaction) (aq aq' : list affair) (fuel : nat)
    (s : uint256) (t : Z) :
  at_map (account_mpt c) M -> all_ok M -> Forall sender_wf tq -> Forall (fun x => 0 <= get_count x) tq ->
  spent s t tq < 2 ^ 64 -> transactions (body blk) = [] ->
  package_next_block_body fuel c _ini current blk tq aq = Some (Ok (blk', tq', aq')) ->
  spent s t (transactions (body blk')) <= balance_at M s t + minted_to s t (transactions (body blk')).
Proof.
  intros HM HMok Ht Hc Hs Hnil. unfold package_next_block_body. rewrite Hnil.
  destruct (pack_transactions fuel (account_mpt c) _ini current _ tq) as [[[p q]|e]|] eqn:Ep; [|done..].
  destruct (pack_affairs_loop _ _ _ _ aq) as [[qa|e]|]; [|done..]. intros [= <- _ _]. cbn [body transactions].
  assert (Hq : queue_ok tq).
  { apply Forall_forall. intros x Hx. split; [by apply (proj1 (Forall_forall _ _) Ht)|by apply (proj1 (Forall_forall _ _) Hc)]. }
  pose proof (pack_transactions_distributes _ _ _ _ _ _ _ _ Ep) as (taken & dropped & Hp & Et & _). cbn [packed app] in Et.
  assert (Hin : spent s t (packed p) <= spent s t tq).
  { unfold spent at 2. rewrite (sum_perm _ _ _ Hp), sum_app, Et. unfold spent. rewrite map_map.
    rewrite (map_ext _ (spends s t)) by done.
    pose proof (sum_nonneg (spends s t) (dropped ++ q)) as Hn.
    enough (0 <= foldr Z.add 0 (map (spends s t) (dropped ++ q))) by lia. apply Hn. intros x Hx.
    apply spends_nonneg, (proj1 (Forall_forall _ _) Hc). rewrite Hp. apply elem_of_app. by right. }
  pose proof (balance_le_supply M s t HMok) as [Hb0 _].
  eapply (pack_transactions_backed s t) in Ep as [_ Hi]; [|exact HM|exact Hb0|exact Hq|].
  - apply Hi. lia.
  - split; [done|]. intros _. cbn. unfold budget, entry. cbn. rewrite lookup_empty. cbn. split; [|done].
    unfold minted_to. cbn. change (spent s t []) with 0. lia.
Qed.
End Spends.
