(* ===== verification/PackagingScenarios.v ===== *)
(** * Packaging scenarios

    Runs of the packaging over the Merkle Patricia trie, evaluated: bodies the
    ledger refuses, limits that are passed, transactions that are lost; and the
    instances of the theorems on packaging. *)
From S2P Require Import Prelude Stream Uint256 Account Transaction Block BloomFilter MptNode Mpt MptTheorems.
From S2P Require Import AccountTrie Effects Ledger LedgerLaws LedgerSpec LedgerTheorems LedgerSupply LedgerScenarios.
From S2P Require Import Settings Packaging PackagingTheorems PackagingSpends.

Section PackagingScenarios.
Local Instance packaging_digest : HashHandler := toy_HashHandler.
Local Instance packaging_host : Host := LittleEndian.

Definition limits (transactions_max affairs_max : Z) : chain_ini :=
  with_limits chain_ini_default transactions_max affairs_max 0 0.
Definition empty_block : block := make_block 1 uint256_zero [] [].
Definition note (k : uint256) (n : Z) : affair := affair_make_full n k PureData 0 14 (b! "data").

(** The nonces of the packed transactions and affairs, whether the ledger's own
    check accepts them, and the nonces of the transactions left in the queue. *)
Abbreviation alices_ledger := (@connector_account (merkle_patricia_trie account)).
Definition observation : Type := list Z * list Z * bool * list Z.

Definition observe_parts (c : alices_ledger) (b : block_body) (tq : list transaction) : observation :=
  (map get_nonce (transactions b), map affair_nonce (affairs b),
   match check_block_body (account_mpt c) (asset_bloom_filter c) (make_block 1 uint256_zero (transactions b) (affairs b)) with
   | Ok ok => ok | Err _ => false end,
   map get_nonce tq).
Definition observe_body (c : alices_ledger) (r : option (res mpt_error (block * list transaction * list affair)))
    : option observation :=
  match r with Some (Ok (blk, tq, _)) => Some (observe_parts c (body blk) tq) | _ => None end.

(** The same without the header, whose hash of the filter takes long to evaluate. *)
Definition evaluate_body (fuel : nat) (c : alices_ledger) (_ini : chain_ini) (current : Z) (blk : block)
    (tq : list transaction) (aq : list affair) : option observation :=
  match pack_transactions fuel (account_mpt c) _ini current
          (Pack ∅ (asset_bloom_filter c) (transactions (body blk)) 0) tq with
  | Some (Ok (p, tq)) =>
      match pack_affairs_loop fuel (account_mpt c) current (PackAffairs (receipts p) (affairs (body blk)) 0) aq with
      | Some (Ok q) => Some (observe_parts c {| transactions := packed p; affairs := packed_affairs q |} tq)
      | _ => None
      end
  | _ => None
  end.

Lemma observe_evaluate fuel c _ini current blk tq aq :
  observe_body c (package_next_block_body fuel c _ini current blk tq aq) = evaluate_body fuel c _ini current blk tq aq.
Proof.
  unfold package_next_block_body, evaluate_body.
  destruct (pack_transactions _ _ _ _ _ _) as [[[p q]|]|]; [|done..].
  by destruct (pack_affairs_loop _ _ _ _ _) as [[]|].
Qed.

Definition package_for_alice (max : Z) (tq : list transaction) (aq : list affair) :=
  package_next_block_body 20 with_alice (limits max 10) 1 empty_block tq aq.
Lemma package_for_alice_eq max tq aq :
  package_for_alice max tq aq = package_next_block_body 20 with_alice (limits max 10) 1 empty_block tq aq.
Proof. reflexivity. Qed.
Definition pay_bob (n : Z) : transaction := pay alice n 7 10 [(bob, 10)].
Definition run_packaging (max : Z) (tq : list transaction) (aq : list affair) : option observation :=
  evaluate_body 20 with_alice (limits max 10) 1 empty_block tq aq.

(** An affair of a type that is checked at the level of the ledger. *)
Definition accuse (k : uint256) (n : Z) : affair := affair_make_full n k MaliciousBlock 0 14 (b! "data").

(** Bodies that [package_next_block_body] makes and [check_block_body] refuses.
    A transaction that comes too early leaves its nonce in the receipt, where it
    stands for a transaction that is not there: of the nonces 1, 3, 2, 4 those of
    1, 2 and 4 are packed.  The outputs of a payment are not compared with its
    count.  An affair with the nonce of a packed transaction is refused in one turn,
    which removes that nonce from the receipt, and taken in the next.  An affair that does
    not count for [check_block_body] uses up a nonce. *)
Theorem packaged_bodies_refused :
  observe_body with_alice (package_for_alice 10 [pay_bob 1; pay_bob 3; pay_bob 2; pay_bob 4] [])
    = Some ([1; 2; 4], [], false, [3]) /\
  observe_body with_alice (package_for_alice 10 [pay alice 1 7 10 [(bob, 1000)]] [])
    = Some ([1], [], false, []) /\
  observe_body with_alice (package_for_alice 10 [pay_bob 1] [accuse alice 1]) = Some ([1], [1], false, []) /\
  observe_body with_alice (package_for_alice 10 [pay_bob 1] [note alice 2; accuse alice 3])
    = Some ([1], [2; 3], false, []).
Proof. unfold package_for_alice. rewrite !observe_evaluate. vm_compute. repeat split. Qed.

(** The answer of [try_package_next_block_body], the number of transactions in the
    body and the nonces in the queue. *)
Definition observe_try (r : option (res mpt_error (bool * block * list transaction * list affair)))
    : option (bool * nat * list Z) :=
  match r with
  | Some (Ok (ok, blk, tq, _)) => Some (ok, length (transactions (body blk)), map get_nonce tq)
  | _ => None
  end.
Definition evaluate_try (fuel : nat) (c : alices_ledger) (_ini : chain_ini) (current : Z) (blk : block)
    (tq : list transaction) : option (bool * nat * list Z) :=
  match pack_transactions fuel (account_mpt c) _ini current
          (Pack ∅ (asset_bloom_filter c) (transactions (body blk)) 0) tq with
  | Some (Ok (p, tq)) =>
      let ok := within_limits _ini (make_block 1 uint256_zero (packed p) (affairs (body blk))) in
      Some (ok, length (packed p), map get_nonce (if ok then give_back tq (map transaction_copy (packed p)) else tq))
  | _ => None
  end.

Lemma observe_try_evaluate fuel c _ini current blk tq :
  observe_try (try_package_next_block_body (S (S fuel)) c _ini current blk tq [])
  = evaluate_try (S (S fuel)) c _ini current blk tq.
Proof.
  unfold try_package_next_block_body, package_next_block_body, evaluate_try.
  destruct (pack_transactions _ _ _ _ _ _) as [[[p q]|]|]; [|done..].
  change (pack_affairs_loop (S (S fuel)) (account_mpt c) current (PackAffairs (receipts p) (affairs (body blk)) 0) [])
    with (Some (Ok (E := mpt_error) (PackAffairs (receipts p) (affairs (body blk)) 0))).
  cbn [observe_try]. unfold within_limits, affair_number. cbn [body transactions affairs].
  by destruct (_ && _).
Qed.

(** The limit is looked at within a pass, and the loop makes another pass as long
    as the last one has taken something: with a limit of one, three payments are
    packed.  The body is then refused by [try_package_next_block_body], and its
    transactions are gone from the queue; only those of a body that is within the limits
    are put back, in reverse. *)
Theorem packaging_limit_passed :
  observe_try (try_package_next_block_body 20 with_alice (limits 1 10) 1 empty_block
    [pay_bob 1; pay_bob 2; pay_bob 3] []) = Some (false, 3%nat, []) /\
  observe_try (try_package_next_block_body 20 with_alice (limits 3 10) 1 empty_block
    [pay_bob 1; pay_bob 2; pay_bob 3] []) = Some (true, 3%nat, [3; 2; 1]).
Proof. rewrite !observe_try_evaluate. vm_compute. done. Qed.

(** A payment whose count makes the sum of the receipt wrap is packed and
    passes the check of the body, though the sender does not have a fraction of it. *)
Theorem packed_overdraft :
  let tq := [pay_bob 1; pay alice 2 7 (2 ^ 64 - 5) [(bob, 2 ^ 64 - 5)]] in
  observe_body with_alice (package_for_alice 10 tq []) = Some ([1; 2], [], true, []) /\
  spent alice 7 tq = 2 ^ 64 + 5 /\ get_balance (rich alice).2 7 = 100.
Proof. cbv zeta. unfold package_for_alice. rewrite observe_evaluate. vm_compute. done. Qed.

(** ** Instances of the general theorems *)
Definition queued : list transaction := [pay_bob 2; pay_bob 1].

Lemma queue_wf l : forallb sender_okb l = true -> Forall sender_wf l.
Proof.
  apply forallb_Forall. intros tsc [Hs Ho]%andb_true_iff.
  split; [by apply uint256_okb_sound|]. eapply forallb_Forall; [|exact Ho]. intros o. apply uint256_okb_sound.
Qed.

Definition one_assetb (l : list transaction) : bool :=
  forallb (fun x => forallb (fun y => negb (uint256_eqb (get_sender x) (get_sender y)) || (get_asset_type x =? get_asset_type y)) l) l.
Lemma one_assetb_sound l : one_assetb l = true -> one_asset l.
Proof.
  intros Hl x y Hx%list_elem_of_In Hy%list_elem_of_In E. unfold one_assetb in Hl.
  rewrite forallb_forall in Hl. specialize (Hl x Hx). rewrite forallb_forall in Hl. specialize (Hl y Hy).
  rewrite E in Hl. apply orb_true_iff in Hl as [Hl|Hl%Z.eqb_eq]; [|done].
  by rewrite uint256_eqb_refl in Hl.
Qed.

Lemma packaging_ends_witness :
  one_asset queued /\ exists blk' tq', package_for_alice 10 queued [] = Some (Ok (blk', tq', [])) /\
    affairs (body blk') = [].
Proof.
  assert (Ho : one_asset queued) by (apply one_assetb_sound; vm_compute; reflexivity).
  split; [exact Ho|].
  destruct (packaging_ends with_alice (list_to_map [rich alice]) (limits 10 10) 1 empty_block queued [])
    as [(blk' & tq' & taken & dropped & E & _ & _ & _ & Ea)|[Hn _]]; [exact (proj1 alice_settled)| | |exact Ho| |].
  - apply queue_wf. vm_compute. reflexivity.
  - constructor.
  - exists blk', tq'. split; [|exact Ea]. apply E. cbn. lia.
  - destruct Hn. reflexivity.
Defined.

Lemma packaging_spins_witness :
  package_next_block_body 1000 with_alice (limits 10 10) 1 empty_block [pay_bob 1; pay alice 2 8 1 [(bob, 1)]] [] = None.
Proof.
  apply (packaging_spins with_alice (list_to_map [rich alice]) (limits 10 10) 1 empty_block
    (pay_bob 1) (pay alice 2 8 1 [(bob, 1)]) (rich alice).2 [] [] 1000 (proj1 alice_settled)).
  - apply uint256_okb_sound. vm_compute. reflexivity.
  - vm_compute. reflexivity.
  - vm_compute. reflexivity.
  - vm_compute. reflexivity.
  - vm_compute. reflexivity.
  - vm_compute. reflexivity.
  - vm_compute. reflexivity.
  - vm_compute. discriminate.
  - vm_compute. reflexivity.
  - vm_compute. discriminate.
  - vm_compute. reflexivity.
  - vm_compute. reflexivity.
Defined.

Lemma observed_body c r o : observe_body c r = Some o -> exists blk' tq' aq', r = Some (Ok (blk', tq', aq')).
Proof. destruct r as [[[[blk' tq'] aq']|e]|]; [|done..]. eauto. Qed.

Lemma packed_within_balance_witness :
  exists blk' tq' aq', package_next_block_body 20 with_alice (limits 10 10) 1 empty_block queued [] = Some (Ok (blk', tq', aq')) /\
    spent alice 7 (transactions (body blk')) <= 100 + minted_to alice 7 (transactions (body blk')).
Proof.
  assert (Eo : evaluate_body 20 with_alice (limits 10 10) 1 empty_block queued [] = Some ([1; 2], [], true, []))
    by (vm_compute; reflexivity).
  rewrite <-observe_evaluate in Eo. apply observed_body in Eo as (blk' & tq' & aq' & E).
  exists blk', tq', aq'. split; [exact E|].
  apply (packed_within_balance with_alice (list_to_map [rich alice]) (limits 10 10) 1 empty_block blk' queued tq' [] aq' 20 alice 7
    (proj1 alice_settled)).
  - rewrite alice_accounts. apply map_Forall_singleton. apply map_Forall_singleton. vm_compute. split; [discriminate|reflexivity].
  - apply queue_wf. vm_compute. reflexivity.
  - repeat (apply Forall_cons; split; [vm_compute; discriminate|]). constructor.
  - vm_compute. reflexivity.
  - reflexivity.
  - exact E.
Defined.
End PackagingScenarios.
