(* ===== verification/LevelDB.v ===== *)
(** * LevelDB, as the chain uses it

    [leveldb::DB] is a third-party database; the class [LevelDB] is the part of it
    the chain calls, and [LevelDBLaws] what its documentation promises: a
    successful [Put] or [Write] is seen by every later [Get], and touches no other
    key.  Nothing is said of a call that fails. *)
From S2P Require Import Prelude.

Inductive batch_operation := BatchPut (key value : bytes) | BatchDelete (key : bytes).

(** A [Get] is [None] when its status is not [ok]; a [Put] or [Write] answers
    whether its status is [ok]. *)
Class LevelDB (D : Type) := {
  db_get : D -> bytes -> option bytes;
  db_put : D -> bytes -> bytes -> bool * D;
  db_write : D -> list batch_operation -> bool * D;
}.

(** What a batch leaves under a key. *)
Definition batch_step (key : bytes) (old : option bytes) (op : batch_operation) : option bytes :=
  match op with
  | BatchPut k v => if decide (k = key) then Some v else old
  | BatchDelete k => if decide (k = key) then None else old
  end.
Definition batch_get (key : bytes) (old : option bytes) (batch : list batch_operation) : option bytes :=
  foldl (batch_step key) old batch.

Class LevelDBLaws (D : Type) `{LevelDB D} := {
  db_put_ok d k v d' : db_put d k v = (true, d') ->
    forall k', db_get d' k' = if decide (k = k') then Some v else db_get d k';
  db_write_ok d b d' : db_write d b = (true, d') -> forall k, db_get d' k = batch_get k (db_get d k) b;
}.

Lemma db_put_same {D} `{LevelDBLaws D} d k v d' : db_put d k v = (true, d') -> db_get d' k = Some v.
Proof. intros E. rewrite (db_put_ok _ _ _ _ E). by rewrite decide_True. Qed.

Lemma db_put_other {D} `{LevelDBLaws D} d k v d' k' : db_put d k v = (true, d') -> k <> k' ->
  db_get d' k' = db_get d k'.
Proof. intros E Hn. rewrite (db_put_ok _ _ _ _ E). by rewrite decide_False. Qed.

(** A batch of puts, one per key. *)
Lemma batch_puts_other key old (l : list (bytes * bytes)) : key ∉ l.*1 ->
  batch_get key old (map (fun kv => BatchPut kv.1 kv.2) l) = old.
Proof.
  unfold batch_get. revert old. induction l as [|[k v] l IH]; intros old Hn; [done|]. cbn in *.
  apply not_elem_of_cons in Hn as [Hk Hn]. rewrite decide_False by done. by apply IH.
Qed.

Lemma batch_puts key old v (l : list (bytes * bytes)) : NoDup l.*1 -> (key, v) ∈ l ->
  batch_get key old (map (fun kv => BatchPut kv.1 kv.2) l) = Some v.
Proof.
  revert old. induction l as [|[k w] l IH]; intros old Hd Hin; [by apply not_elem_of_nil in Hin|].
  apply NoDup_cons in Hd as [Hk Hd]. apply elem_of_cons in Hin as [[= <- <-]|Hin].
  - unfold batch_get. cbn. rewrite decide_True by done. by apply batch_puts_other.
  - unfold batch_get. cbn. by apply IH.
Qed.

(** ** A database that never fails *)
#[export] Instance map_LevelDB : LevelDB (gmap bytes bytes) := {
  db_get d k := d !! k;
  db_put d k v := (true, <[k := v]> d);
  db_write d b := (true, foldl (fun d op => match op with
    | BatchPut k v => <[k := v]> d | BatchDelete k => delete k d end) d b);
}.

#[export] Instance map_LevelDBLaws : LevelDBLaws (gmap bytes bytes).
Proof.
  split.
  - intros d k v d' [= <-] k'. cbn. case_decide; [subst; apply lookup_insert_eq|by apply lookup_insert_ne].
  - intros d b d' [= <-] k. cbn. unfold batch_get. revert d. induction b as [|op b IH]; intros d; [done|].
    cbn. rewrite IH. f_equal. destruct op; cbn; case_decide; subst; by simplify_map_eq.
Qed.
