(* ===== verification/Ecc.v ===== *)
(** * Keys and signatures: [ecc_secp256k1.cpp]

    The class [OpenSSL] is the part of OpenSSL the functions call, over a type of
    keys; a call that fails is [None].  What the functions allocate inside and free
    again does not show. *)
From S2P Require Import Prelude Uint256.

Class OpenSSL (K : Type) := {
  (** [EC_POINT_point2oct] with [POINT_CONVERSION_UNCOMPRESSED] of the public point. *)
  EC_point2oct : K -> option bytes;
  (** [EC_POINT_oct2point] on the curve, and the key of that point. *)
  EC_oct2point : bytes -> option K;
  (** [EC_KEY_get0_private_key]. *)
  EC_private_key : K -> option Z;
  (** [EVP_DigestInit(EVP_sha3_256())], [EVP_DigestUpdate], [EVP_SignFinal]. *)
  EVP_sign : K -> bytes -> option bytes;
  (** The same with [EVP_VerifyFinal], and its result. *)
  EVP_verify : K -> bytes -> bytes -> Z;
}.

(** What OpenSSL documents: an uncompressed point is the byte 4 and two coordinates of
    32 bytes, and is read back as the same point; a signature made with a private key is
    verified with the public key of the pair. *)
Class OpenSSLLaws (K : Type) `{OpenSSL K} (pair : K -> K -> Prop) := {
  point2oct_form k p : EC_point2oct k = Some p -> exists xy, p = 4 :: xy /\ length xy = 64%nat /\ bytes_ok xy;
  oct2point_point2oct k p : EC_point2oct k = Some p ->
    exists k', EC_oct2point p = Some k' /\ EC_point2oct k' = Some p;
  private_key_positive k n : EC_private_key k = Some n -> 0 < n;
  verify_sign sk pk d s : pair sk pk -> EVP_sign sk d = Some s -> 0 < EVP_verify pk d s;
}.

Section Ecc.
Context `{HashHandler} {K : Type} `{OpenSSL K}.

Definition signature (key : K) (d : bytes) : option bytes := EVP_sign key d.
Definition verify (key : K) (d in_sig_data : bytes) : bool := 0 <? EVP_verify key d in_sig_data.

(** [None] is the null pointer; a failure gives the empty string. *)
Definition convert_public_key_no_compressed_64B (pub : option K) : bytes :=
  match pub with
  | None => []
  | Some pub =>
      match EC_point2oct pub with
      | None => []
      | Some result => drop 1 result
      end
  end.

Definition convert_compressed_64B_to_public_key (key_string : bytes) : option K :=
  EC_oct2point (4 :: key_string).

(** The bytes of a positive number, the most significant first: [BN_bn2bin]. *)
Fixpoint bn_bytes (fuel : nat) (n : Z) : bytes :=
  match fuel with
  | O => []
  | S fuel => if 0 <? n then bn_bytes fuel (n / 256) ++ [n mod 256] else []
  end.
Definition BN_bn2bin (n : Z) : bytes := bn_bytes (Z.to_nat (Z.log2 n + 1)) n.

Definition convert_private_key_32B (key : option K) : bytes :=
  match key with
  | None => []
  | Some key => match EC_private_key key with Some n => BN_bn2bin n | None => [] end
  end.

(** The answer and [out], which a failure leaves as it was. *)
Definition get_public_key_hash_no_compressed (evpPublicKey : K) (out : uint256) : bool * uint256 :=
  match EC_point2oct evpPublicKey with
  | None => (false, out)
  | Some keyBuffer => (true, hash_bytes keyBuffer)
  end.

Definition convert_public_key_no_compressed_64B_to_uint256 (key : option K) : uint256 :=
  hash_bytes (convert_public_key_no_compressed_64B key).
End Ecc.

(** ** Theorems *)
Lemma bn_bytes_spec fuel n : 0 <= n -> n < 256 ^ Z.of_nat fuel ->
  le_decode (reverse (bn_bytes fuel n)) = n /\ bytes_ok (bn_bytes fuel n) /\
  (0 < n -> 256 ^ (Z.of_nat (length (bn_bytes fuel n)) - 1) <= n) /\
  n < 256 ^ Z.of_nat (length (bn_bytes fuel n)).
Proof.
  revert n. induction fuel as [|fuel IH]; intros n Hn Hf.
  { cbn in Hf. assert (n = 0) as -> by lia. cbn. repeat (split; [done || lia || constructor|]). done. }
  cbn [bn_bytes]. destruct (0 <? n) eqn:E; [apply Z.ltb_lt in E|].
  2:{ apply Z.ltb_ge in E. assert (n = 0) as -> by lia. cbn.
      repeat (split; [done || lia || constructor|]). done. }
  pose proof (Z.div_mod n 256 ltac:(lia)) as Hd. pose proof (Z.mod_pos_bound n 256 ltac:(lia)) as Hm.
  assert (Hq : 0 <= n / 256) by (apply Z.div_pos; lia).
  destruct (IH (n / 256)) as (Ev & Hok & Hlow & Hup); [done| |].
  { apply Z.div_lt_upper_bound; [lia|]. rewrite Nat2Z.inj_succ, Z.pow_succ_r in Hf by lia. lia. }
  rewrite reverse_app. cbn [reverse rev_append app le_decode].
  change (reverse [n mod 256]) with [n mod 256]. cbn [app le_decode]. rewrite Ev.
  split; [lia|]. split; [apply Forall_app; split; [done|by apply Forall_singleton]|].
  rewrite length_app. cbn [length]. rewrite Nat2Z.inj_add. change (Z.of_nat 1) with 1.
  set (k := Z.of_nat (length (bn_bytes fuel (n / 256)))) in *. split.
  - intros _. replace (k + 1 - 1) with k by lia. destruct (decide (0 < n / 256)) as [Hp|Hp].
    + specialize (Hlow Hp). assert (1 <= k).
      { destruct (decide (k = 0)) as [Ek|]; [rewrite Ek in Hup; cbn in Hup; lia|lia]. }
      assert (256 ^ k = 256 * 256 ^ (k - 1)) by (rewrite <-Z.pow_succ_r by lia; apply (f_equal (Z.pow 256)); lia). lia.
    + assert (n / 256 = 0) as E0 by lia. assert (k = 0) as ->.
      { unfold k. rewrite E0. destruct fuel; reflexivity. } cbn. lia.
  - rewrite Z.pow_add_r by lia. change (256 ^ 1) with 256. lia.
Qed.

Lemma BN_bn2bin_spec n : 0 < n ->
  le_decode (reverse (BN_bn2bin n)) = n /\ bytes_ok (BN_bn2bin n) /\
  256 ^ (Z.of_nat (length (BN_bn2bin n)) - 1) <= n < 256 ^ Z.of_nat (length (BN_bn2bin n)).
Proof.
  intros Hn. unfold BN_bn2bin. destruct (bn_bytes_spec (Z.to_nat (Z.log2 n + 1)) n) as (Ev & Hok & Hl & Hu);
    [lia| |by split; [|split; [|split; [apply Hl|]]]].
  rewrite Z2Nat.id by (pose proof (Z.log2_nonneg n); lia).
  apply Z.lt_le_trans with (2 ^ (Z.log2 n + 1)).
  - replace (Z.log2 n + 1) with (Z.succ (Z.log2 n)) by lia. by apply Z.log2_spec.
  - apply Z.pow_le_mono_l. lia.
Qed.

Section Theorems.
Context `{HashHandler} {K : Type} {pair : K -> K -> Prop} `{OpenSSLLaws K pair}.

(** The 64 bytes of a public key are read back as a key with the same bytes, a
    signature verifies under the key of the pair, and a private key is written in as few
    bytes as it needs: in 32 only when it is at least 2^248. *)
Theorem keys_roundtrip (sk pk : K) (p d s : bytes) (n : Z) :
  pair sk pk -> EC_point2oct pk = Some p -> EC_private_key sk = Some n -> signature sk d = Some s -> n < 2 ^ 256 ->
  (exists pk', convert_compressed_64B_to_public_key (convert_public_key_no_compressed_64B (Some pk)) = Some pk' /\
     convert_public_key_no_compressed_64B (Some pk') = convert_public_key_no_compressed_64B (Some pk)) /\
  length (convert_public_key_no_compressed_64B (Some pk)) = 64%nat /\
  verify pk d s = true /\
  le_decode (reverse (convert_private_key_32B (Some sk))) = n /\
  (length (convert_private_key_32B (Some sk)) = 32%nat <-> 2 ^ 248 <= n).
Proof.
  intros Hp Ep En Es Hn. unfold convert_public_key_no_compressed_64B, convert_private_key_32B. rewrite Ep, En.
  destruct (point2oct_form _ _ Ep) as (xy & -> & Hl & _). cbn [drop].
  split; [|split; [exact Hl|split]].
  - unfold convert_compressed_64B_to_public_key. destruct (oct2point_point2oct _ _ Ep) as (k' & Ek & Ep').
    exists k'. split; [exact Ek|]. by rewrite Ep'.
  - unfold verify. apply Z.ltb_lt. by apply (verify_sign sk).
  - pose proof (private_key_positive _ _ En) as H0n.
    destruct (BN_bn2bin_spec n H0n) as (Ev & _ & Hlo & Hhi). split; [exact Ev|].
    set (k := length (BN_bn2bin n)) in *.
    assert (P : forall m, (256 ^ Z.of_nat m = 2 ^ (8 * Z.of_nat m))%Z).
    { intros m. rewrite Z.pow_mul_r by lia. done. }
    split.
    + intros Ek. rewrite Ek in Hlo. exact Hlo.
    + intros H248. assert (k <> 0%nat) by (intros E; rewrite E in Hhi; cbn in Hhi; lia). assert (248 < 8 * Z.of_nat k).
      { apply (Z.pow_lt_mono_r_iff 2); [lia..|]. rewrite <-P. lia. }
      assert (8 * (Z.of_nat k - 1) < 256).
      { apply (Z.pow_lt_mono_r_iff 2); [lia..|]. rewrite Z.pow_mul_r by lia. change (2 ^ 8) with 256. lia. }
      lia.
Qed.

(** The hash of a node's own key is over 65 bytes, the one an address is made with over
    the last 64 of them. *)
Lemma node_hash_of_point pk p out : EC_point2oct pk = Some p ->
  get_public_key_hash_no_compressed pk out = (true, hash_bytes p) /\
  convert_public_key_no_compressed_64B_to_uint256 (Some pk) = hash_bytes (drop 1 p).
Proof.
  intros E. unfold get_public_key_hash_no_compressed, convert_public_key_no_compressed_64B_to_uint256,
    convert_public_key_no_compressed_64B. by rewrite E.
Qed.
End Theorems.

(** ** A toy key: the coordinates, and the private number *)
Record toy_key := { toy_xy : bytes; toy_private : Z }.
Definition toy_key_ok (k : toy_key) : bool :=
  (length (toy_xy k) =? 64)%nat && forallb (fun b => (0 <=? b) && (b <? 256)) (toy_xy k) && (0 <? toy_private k).

#[export] Instance toy_OpenSSL : OpenSSL toy_key := {
  EC_point2oct k := if toy_key_ok k then Some (4 :: toy_xy k) else None;
  EC_oct2point l := match l with 4 :: xy => Some {| toy_xy := xy; toy_private := 1 |} | _ => None end;
  EC_private_key k := if toy_key_ok k then Some (toy_private k) else None;
  EVP_sign k d := Some (toy_xy k ++ d);
  EVP_verify k d s := if decide (s = toy_xy k ++ d) then 1 else 0;
}.

#[export] Instance toy_OpenSSLLaws : OpenSSLLaws toy_key (fun sk pk => toy_xy sk = toy_xy pk).
Proof.
  split; cbn; unfold toy_key_ok.
  - intros k p E. destruct ((length (toy_xy k) =? 64)%nat) eqn:El; [|done].
    destruct (forallb _ _) eqn:Ef; [|done]. destruct (0 <? toy_private k); [|done]. injection E as <-.
    exists (toy_xy k). split; [done|]. split; [by apply Nat.eqb_eq|].
    apply Forall_forall. intros b Hb. apply list_elem_of_In in Hb.
    pose proof (proj1 (forallb_forall _ _) Ef b Hb) as Hr. unfold byte_ok, is_uint. cbn in Hr. change (2 ^ 8) with 256. lia.
  - intros k p E. destruct ((length (toy_xy k) =? 64)%nat) eqn:El; [|done].
    destruct (forallb _ _) eqn:Ef; [|done]. destruct (0 <? toy_private k); [|done]. injection E as <-.
    eexists. split; [done|]. cbn. by rewrite El, Ef.
  - intros k n E. destruct (0 <? toy_private k) eqn:Eb; [|by rewrite andb_false_r in E].
    destruct (_ && true); [injection E as <-; lia|done].
  - intros sk pk d s Hp [= <-]. by rewrite Hp, decide_True.
Qed.

Definition sample_key (b n : Z) : toy_key := {| toy_xy := replicate 64 b; toy_private := n |}.

Lemma keys_roundtrip_witness :
  length (convert_private_key_32B (Some (sample_key 7 5))) <> 32%nat.
Proof.
  destruct (keys_roundtrip (sample_key 7 5) (sample_key 7 5) (4 :: replicate 64 7) [1; 2] (replicate 64 7 ++ [1; 2]) 5)
    as (_ & _ & _ & _ & Hl); [done|reflexivity|reflexivity|reflexivity|lia|].
  intros E. apply Hl in E. lia.
Defined.
