(* ===== verification/BlockStore.v ===== *)
(** * The blocks on disk: [connector_block.cpp], [application_state.cpp]

    The state of [connector_block], its cache of blocks that wait for the disk,
    the header of the next block, and the state of the application that is read
    when a node starts. *)
From S2P Require Import Prelude Stream Serializer SerializerLaws Uint256 Transaction Block BloomFilter MerkleTree Wire.
From S2P Require Import LevelDB MptNode Mpt AccountTrie Effects Ledger Settings Packaging.

(** ** The state of the application *)
Record application_state := {
  state_current_height : Z;
  state_top_block_hash : uint256;
  state_initial_block_hash : uint256;
}.
Definition STORE_STATE_KEY : bytes := b! "____CHAIN___APPLICATION___STATE___KEY____".

Abbreviation application_state_pack := (num S_uint64 * (uint256 * (uint256 * unit)))%type.

Section State.
Context {h : Host}.

#[export, program] Instance application_state_fields : MuseFields application_state application_state_pack := {
  to_fields x := (Num (state_current_height x), (state_top_block_hash x, (state_initial_block_hash x, tt)));
  of_fields '(n, (t, (i, _))) :=
    {| state_current_height := num_val n; state_top_block_hash := t; state_initial_block_hash := i |};
  copy x := x;
}.
Next Obligation. by intros []. Qed.
#[export] Instance ser_application_state : Serializable application_state :=
  ser_fields (P := application_state_pack).

Definition application_state_eqb (a other : application_state) : bool :=
  (state_current_height a =? state_current_height other)
  && uint256_eqb (state_initial_block_hash a) (state_initial_block_hash other)
  && uint256_eqb (state_top_block_hash a) (state_top_block_hash other).

(** ** Objects in the database *)

(** [serializer.input(v)] on a fresh serializer, and its bytes. *)
Definition serialized {S A} `{Serializable A} (v : A) : M S bytes := fun s =>
  match input v BinarySerializer_new with
  | (Ok _, ser) => Ret (byteStream ser) s
  | (Err (Stream.Throw _), _) => Throw StdException s
  | (Err _, _) => Undefined
  end.

(** [viewer.output(v)] on a view of [data], from the object [old]. *)
Definition deserialized {S A} `{Serializable A} (old : A) (data : bytes) : M S A := fun s =>
  match (output old (View_new data (Z.of_nat (length data)))).1 with
  | Ok v => Ret v s
  | Err (Stream.Throw _) => Throw StdException s
  | Err _ => Undefined
  end.

(** A [uint64_t] as a key: its bytes in memory. *)
Definition height_key (height : Z) : bytes := mem_encode host_order 8 height.
End State.

Record connector_block {D : Type} := ConnectorBlock {
  leveldb_blocks : option D;         (** [None] is [nullptr] *)
  leveldb_chain : option D;
  current_height : Z;
  top_block_hash : uint256;
  initial_block_hash : uint256;
  block_queue : list block;
  transactions_queue : list transaction;
  affairs_queue : list affair;
}.
Arguments connector_block D : clear implicits.

Section BlockStore.
Context {host : Host} `{HashHandler} {D : Type} `{LevelDB D}.
Implicit Types (c : connector_block D).

Definition connector_block_make (_leveldb_blocks _leveldb_chain : option D) (_state : application_state)
    : connector_block D :=
  ConnectorBlock D _leveldb_blocks _leveldb_chain (state_current_height _state) (state_top_block_hash _state)
    (state_initial_block_hash _state) [] [] [].

Definition with_queue c (queue : list block) : connector_block D :=
  ConnectorBlock D (leveldb_blocks c) (leveldb_chain c) (current_height c) (top_block_hash c)
    (initial_block_hash c) queue (transactions_queue c) (affairs_queue c).
Definition with_dbs c (blocks chain : option D) : connector_block D :=
  ConnectorBlock D blocks chain (current_height c) (top_block_hash c)
    (initial_block_hash c) (block_queue c) (transactions_queue c) (affairs_queue c).

(** The overloads for a reference and for an rvalue. *)
Definition input_block_cache (blk : block) c : connector_block D :=
  with_queue c (block_queue c ++ [block_copy blk]).
Definition input_block_cache_move (blk : block) c : connector_block D :=
  with_queue c (block_queue c ++ [block_move blk]).

Definition update_connector (_current_height : Z) (_top_block_hash : uint256) c : connector_block D :=
  ConnectorBlock D (leveldb_blocks c) (leveldb_chain c) _current_height _top_block_hash
    (initial_block_hash c) (block_queue c) (transactions_queue c) (affairs_queue c).

Definition get_current_height c : Z := current_height c.
Definition get_top_block_hash c : uint256 := top_block_hash c.

(** The root over a queue of hashes, none when there is nothing to hash. *)
Definition merkle_root_or {A} (old : uint256) (l : list A) (hash : A -> uint256) : res merkle_error uint256 :=
  match l with [] => Ok old | _ => get_merkle_root_queue (map hash l) end.

(** The answer and the block; the body is checked against the limits first. *)
Definition package_next_block_header (blk : block) (_ini : chain_ini) (blacks : list uint256) c
    : res merkle_error (bool * block) :=
  if negb (within_limits _ini blk) then Ok (false, blk)
  else
    let hd := header blk in
    affairs_root ← merkle_root_or (affairs_merkle_root hd) (affairs (body blk)) affair_get_hash;
    transactions_root ← merkle_root_or (transactions_merkle_root hd) (transactions (body blk)) transaction_get_hash;
    Ok (true, {| header := {| prev_block_hash := top_block_hash c;
                              assets_blf_hash := assets_blf_hash hd;
                              transactions_merkle_root := transactions_root;
                              affairs_merkle_root := affairs_root;
                              merkle_patricia_trie_root := merkle_patricia_trie_root hd;
                              black_block_hashes := match blacks with [] => black_block_hashes hd | _ => blacks end;
                              height := u64 (current_height c + 1);
                              header_create_time := header_create_time hd |};
                 body := body blk; block_signature := block_signature blk |}).

(** The block and [success]; without a database or an entry the block is empty. *)
Definition get_block_by_index (height : Z) : M (connector_block D) (block * bool) :=
  c ← get_state;
  match leveldb_blocks c with
  | None => mret (default_value, false)
  | Some db =>
      match db_get db (height_key height) with
      | Some data => blk ← deserialized default_value data; mret (blk, true)
      | None => mret (default_value, false)
      end
  end.

Definition store_index_hash (height : Z) (hash : uint256) : M (connector_block D) bool :=
  c ← get_state;
  match leveldb_chain c with
  | None => mret false
  | Some db =>
      let '(ok, db) := db_put db (height_key height) (data hash) in
      modify_state (fun c => with_dbs c (leveldb_blocks c) (Some db)) ;;
      mret ok
  end.

(** [success] is left alone when there is no database; a value of another length
    fails the assertion of the constructor of [uint256]. *)
Definition load_hash_by_index (height : Z) (success : bool) : M (connector_block D) (uint256 * bool) :=
  c ← get_state;
  match leveldb_chain c with
  | None => mret (uint256_zero, success)
  | Some db =>
      match db_get db (height_key height) with
      | Some out =>
          match uint256_of_buffer out (Z.of_nat (length out)) with
          | Ok hash => mret (hash, true)
          | Err _ => undefined
          end
      | None => mret (uint256_zero, false)
      end
  end.

Definition insert_block_to_levelDB (blk : block) : M (connector_block D) bool :=
  c ← get_state;
  match leveldb_blocks c with
  | None => mret false
  | Some db =>
      out ← serialized blk;
      let '(ok, db) := db_put db (height_key (height (header blk))) out in
      modify_state (fun c => with_dbs c (Some db) (leveldb_chain c)) ;;
      if ok : bool then mret true else throw StdException
  end.

Definition state_after (c : connector_block D) (blk : block) : application_state :=
  {| state_current_height := height (header blk);
     state_top_block_hash := get_block_hash (header blk);
     state_initial_block_hash := initial_block_hash c |}.

Definition insert_block_save_to_disk : M (connector_block D) bool :=
  c ← get_state;
  match block_queue c with
  | [] => mret false
  | blk :: queue =>
      result ← insert_block_to_levelDB blk;
      if negb result then mret false
      else
        out ← serialized (state_after c blk);
        c ← get_state;
        match leveldb_chain c with
        | None => undefined
        | Some db =>
            let '(ok, db) := db_put db STORE_STATE_KEY out in
            modify_state (fun c => with_dbs c (leveldb_blocks c) (Some db)) ;;
            if ok : bool then modify_state (fun c => with_queue c queue) ;; mret true
            else throw StdException
        end
  end.

(** The state a node starts from, when there is one ([application::initialize]). *)
Definition read_application_state {S} (old : application_state) (chain_db : D) : M S (option application_state) :=
  match db_get chain_db STORE_STATE_KEY with
  | Some data => state ← deserialized old data; mret (Some state)
  | None => mret None
  end.

(** ** [interface_db::transaction_pool_waiting_count] *)
Definition transaction_pool_waiting_count (current : Z) c : Z * connector_block D :=
  let transactions := List.filter (fun t => negb (transaction_expired current t)) (transactions_queue c) in
  let affairs := List.filter (fun a => negb (affair_expired current a)) (affairs_queue c) in
  (u64 (Z.of_nat (length transactions) + Z.of_nat (length affairs)),
   ConnectorBlock D (leveldb_blocks c) (leveldb_chain c) (current_height c) (top_block_hash c)
     (initial_block_hash c) (block_queue c) transactions affairs).
End BlockStore.
