(* ===== verification/BlockStoreTheorems.v ===== *)
(** * The blocks on disk: what is stored can be read *)
From S2P Require Import Prelude Stream Serializer SerializerLaws Uint256 Transaction Block BloomFilter MerkleTree Wire.
From S2P Require Import LevelDB MptNode Mpt AccountTrie Effects Ledger LedgerLaws Settings Packaging BlockStore.

Section Objects.
Context {h : Host} {HL : LittleEndianHost}.

#[export] Instance application_state_laws : SerializerLaws application_state.
Proof.
  refine (fields_laws (P := application_state_pack) _). repeat (split; [first [done | apply default_old]|]). done.
Defined.

(** A value of 32 bytes is accepted, in 70 bytes. *)
Lemma uint256_ser (x : uint256) : uint256_wf x -> ser_wf x.
Proof.
  intros [Hx _]. split; [|done]. split; [|split; [vm_compute; congruence|by apply Forall_true]].
  cbn. unfold uchars. by rewrite length_map.
Qed.

Lemma uchars_length l : length (encode_all (uchars l)) = (2 * length l)%nat.
Proof.
  induction l as [|x l IH]; [done|].
  change (encode_all (uchars (x :: l))) with (tag_byte UINT8 :: x :: encode_all (uchars l)). cbn [length]. lia.
Qed.

Lemma uint256_encode_length (x : uint256) : uint256_wf x -> length (encode x) = 70%nat.
Proof.
  intros [Hx _]. change (encode x) with (tag_byte MUSECLASS :: (encode_counted ARRAY 32 (encode_all (uchars (data x))) ++ [])).
  unfold encode_counted. cbn [length app]. rewrite !length_app, le_encode_length, uchars_length, Hx. done.
Qed.

Definition state_ok (st : application_state) : Prop :=
  0 <= state_current_height st < 2 ^ 64 /\ uint256_wf (state_top_block_hash st) /\ uint256_wf (state_initial_block_hash st).

Lemma state_ser st : state_ok st -> ser_wf st.
Proof.
  intros (Hh & Ht & Hi). split; [|split; [by apply uint256_ser|split; [by apply uint256_ser|done]]].
  cbn. unfold num_wf, scalar_value. cbn. by apply wrap_small.
Qed.

Lemma state_encode_length st : state_ok st -> Z.of_nat (length (encode st)) < 2 ^ 64.
Proof.
  intros (_ & Ht & Hi).
  change (encode st) with (tag_byte MUSECLASS :: (encode (Num (k := S_uint64) (state_current_height st))
    ++ encode (state_top_block_hash st) ++ encode (state_initial_block_hash st) ++ [])).
  cbn [length]. rewrite !length_app, !uint256_encode_length by done. cbn [encode num_laws length].
  rewrite le_encode_length. vm_compute. reflexivity.
Qed.

Lemma new_writable : writable BinarySerializer_new.
Proof. split; cbn; unfold MUSE_DEFAULT_CAPACITY; lia. Qed.

Lemma serialized_writes {S A} `{Serializable A} (v : A) l (s : S) : writes (input v) l ->
  serialized v s = Ret l s.
Proof.
  intros Hw. destruct (Hw _ new_writable) as (s' & E & EB & _). unfold serialized. rewrite E. by rewrite EB.
Qed.

Lemma deserialized_reads {S A} `{Serializable A} (old v : A) l (s : S) :
  reads (S := BinaryDeserializeView) (output old) l v -> Z.of_nat (length l) < 2 ^ 64 ->
  deserialized old l s = Ret v s.
Proof. intros Hr Hl. unfold deserialized. by rewrite (view_reads _ _ _ Hr Hl). Qed.

Lemma state_serialized {S} st (s : S) : state_ok st -> serialized st s = Ret (encode st) s.
Proof. intros Hst. apply serialized_writes. exact (input_writes st (state_ser st Hst)). Qed.

Lemma state_deserialized {S} old st (s : S) : ser_old old -> state_ok st -> deserialized old (encode st) s = Ret st s.
Proof.
  intros Ho Hst. apply deserialized_reads; [|by apply state_encode_length].
  exact (output_reads old st (state_ser st Hst) Ho).
Qed.

Lemma height_key_inj a b : 0 <= a < 2 ^ 64 -> 0 <= b < 2 ^ 64 -> height_key a = height_key b -> a = b.
Proof.
  intros Ha Hb E. apply (f_equal (mem_decode host_order)) in E. unfold height_key in E.
  by rewrite !mem_decode_encode, !wrap_small in E.
Qed.

(** The key of the state is longer than that of a height. *)
Lemma height_key_state a : height_key a <> STORE_STATE_KEY.
Proof. intros E. apply (f_equal length) in E. unfold height_key in E. by rewrite mem_encode_length in E. Qed.
End Objects.

Section Store.
Context {h : Host} {HL : LittleEndianHost} `{HashHandler} {D : Type} `{LevelDBLaws D}.
Implicit Types (c : connector_block D).

(** A block that fits the serializer's limits. *)
Definition storable (blk : block) : Prop :=
  Wire.block_wf blk /\ Z.of_nat (length (encode_block blk)) < 2 ^ 64 /\ 0 <= height (header blk) < 2 ^ 64.

Definition stored (blk : block) c : Prop :=
  exists db, leveldb_blocks c = Some db /\ db_get db (height_key (height (header blk))) = Some (encode_block blk).

Lemma stored_read_at n blk c db : storable blk -> leveldb_blocks c = Some db ->
  db_get db (height_key n) = Some (encode_block blk) -> get_block_by_index n c = Ret (received blk, true) c.
Proof.
  intros (Hw & Hl & _) Ed Eg. unfold get_block_by_index, get_state, mbind, M_bind. rewrite Ed, Eg.
  rewrite (deserialized_reads _ (received blk)); [done| |done].
  apply block_reads; [done|]. apply (default_old (A := block_header)).
Qed.

Lemma stored_read blk c : storable blk -> stored blk c ->
  get_block_by_index (height (header blk)) c = Ret (received blk, true) c.
Proof. intros Hs (db & Ed & Eg). by apply (stored_read_at _ _ _ db). Qed.

Lemma state_after_ok c blk : 0 <= height (header blk) < 2 ^ 64 -> uint256_wf (initial_block_hash c) ->
  state_ok (state_after c blk).
Proof.
  intros Hh Hi. unfold state_ok, state_after. cbn [state_current_height state_top_block_hash state_initial_block_hash].
  split; [exact Hh|]. split; [|exact Hi]. unfold get_block_hash. cbv zeta. apply get_sha3_256_wf.
Qed.

(** What a save does when it answers true. *)
Lemma save_spec c c' : insert_block_save_to_disk c = Ret true c' ->
  exists blk queue db db' ch ch' out, block_queue c = blk :: queue /\ leveldb_blocks c = Some db /\
    leveldb_chain c = Some ch /\
    serialized blk c = Ret out c /\ db_put db (height_key (height (header blk))) out = (true, db') /\
    (exists st, serialized (state_after c blk) (with_dbs c (Some db') (Some ch)) = Ret st (with_dbs c (Some db') (Some ch))
      /\ db_put ch STORE_STATE_KEY st = (true, ch')) /\
    c' = with_queue (with_dbs c (Some db') (Some ch')) queue.
Proof.
  unfold insert_block_save_to_disk, insert_block_to_levelDB, get_state, modify_state, mbind, M_bind.
  destruct (block_queue c) as [|blk queue]; [done|].
  destruct (leveldb_blocks c) as [db|] eqn:Eb; [|done].
  destruct (serialized blk c) as [out s| |] eqn:Es; [|done..].
  assert (s = c) as ->.
  { unfold serialized in Es. destruct (input blk _) as [[|[]] ?]; congruence. }
  destruct (db_put db _ out) as [[] db'] eqn:Ep; [|done]. cbn [negb mret M_ret].
  destruct (serialized (state_after c blk) _) as [st s| |] eqn:Et; [|done..].
  assert (s = with_dbs c (Some db') (leveldb_chain c)) as ->.
  { unfold serialized in Et. destruct (input (state_after c blk) _) as [[|[]] ?]; congruence. }
  cbn [with_dbs leveldb_chain leveldb_blocks]. destruct (leveldb_chain c) as [ch|] eqn:Ech; [|done].
  destruct (db_put ch _ st) as [[] ch'] eqn:Ep'; [|done]. intros [= <-].
  exists blk, queue, db, db', ch, ch', out. repeat (split; [done|]). split; [|done]. by exists st.
Qed.

Lemma save_stored c c' blk queue : insert_block_save_to_disk c = Ret true c' -> block_queue c = blk :: queue ->
  storable blk -> uint256_wf (initial_block_hash c) ->
  block_queue c' = queue /\ stored blk c' /\ initial_block_hash c' = initial_block_hash c /\
  (forall blk', 0 <= height (header blk') < 2 ^ 64 -> height (header blk') <> height (header blk) ->
    stored blk' c -> stored blk' c') /\
  exists ch, leveldb_chain c' = Some ch /\
    read_application_state (S := unit) default_value ch tt = Ret (Some (state_after c blk)) tt.
Proof.
  intros E Eq (Hw & Hl & Hh) Hi.
  apply save_spec in E as (blk0 & q & db & db' & ch & ch' & out & Eq0 & Eb & Ec & Es & Ep & (st & Et & Ep') & ->).
  rewrite Eq in Eq0. injection Eq0 as <- <-. rewrite (serialized_writes blk _ _ (block_writes blk Hw)) in Es.
  injection Es as <-. split; [done|]. split; [|split; [done|split]].
  - exists db'. split; [done|]. by eapply db_put_same.
  - intros blk' Hh' Hne (d & Ed & Eg). rewrite Eb in Ed. injection Ed as <-. exists db'. split; [done|].
    rewrite (db_put_other _ _ _ _ _ Ep); [done|]. intros Ek. by apply height_key_inj in Ek.
  - exists ch'. split; [done|].
    pose proof (state_after_ok c blk Hh Hi) as Hst.
    rewrite state_serialized in Et by exact Hst.
    assert (Est : st = encode (state_after c blk)) by congruence. clear Et. subst st.
    unfold read_application_state. rewrite (db_put_same _ _ _ _ Ep'). unfold mbind, M_bind.
    by rewrite state_deserialized by first [exact Hst|apply default_old].
Qed.

(** [insert_block_save_to_disk] until it has answered [n] times. *)
Fixpoint save_all (n : nat) : M (connector_block D) bool :=
  match n with
  | O => mret true
  | S n => ok ← insert_block_save_to_disk; if ok : bool then save_all n else mret false
  end.

Lemma save_all_stored queue c c' : block_queue c = queue -> Forall storable queue ->
  NoDup (map (fun blk => height (header blk)) queue) -> uint256_wf (initial_block_hash c) ->
  save_all (length queue) c = Ret true c' ->
  block_queue c' = [] /\ initial_block_hash c' = initial_block_hash c /\
  (forall blk, 0 <= height (header blk) < 2 ^ 64 ->
    blk ∈ queue \/ ((height (header blk) ∉ map (fun blk => height (header blk)) queue) /\ stored blk c) -> stored blk c') /\
  forall blk, last queue = Some blk -> exists ch, leveldb_chain c' = Some ch /\
    read_application_state (S := unit) default_value ch tt = Ret (Some (state_after c blk)) tt.
Proof.
  revert c. induction queue as [|blk queue IH]; intros c Eq Hst Hd Hi; cbn [length save_all].
  { intros [= <-]. repeat (split; [done|]). split; [|done].
    intros blk _ [Hin|[_ Hs]]; [by apply not_elem_of_nil in Hin|done]. }
  unfold mbind, M_bind. destruct (insert_block_save_to_disk c) as [[] c1| |] eqn:E; [|done..]. intros Es.
  inversion Hst as [|? ? Hblk Hrest]; subst. cbn [map] in Hd. apply NoDup_cons in Hd as [Hn Hd].
  destruct (save_stored c c1 blk queue E Eq Hblk Hi) as (Eq1 & Hs1 & Ei1 & Hkeep & ch & Ech & Est).
  rewrite <-Ei1 in Hi. destruct (IH c1 Eq1 Hrest Hd Hi Es) as (Eq' & Ei' & Hall & Hlast).
  split; [done|]. split; [congruence|]. split.
  - intros b Hb [[->|Hin]%elem_of_cons|[Hn' Hs]].
    + apply Hall; [done|]. by right.
    + apply Hall; [done|]. by left.
    + cbn [map] in Hn'. apply not_elem_of_cons in Hn' as [Hne Hn']. apply Hall; [done|]. right. split; [done|].
      by apply Hkeep.
  - intros b Hl. destruct queue as [|b2 queue].
    + cbn in Hl, Es. injection Hl as <-. injection Es as <-. by exists ch.
    + destruct (Hlast b Hl) as (ch' & Ech' & Er). exists ch'. split; [done|]. rewrite Er.
      unfold state_after. by rewrite Ei1.
Qed.

(** C16: blocks that are cached and saved one after the other can be read back by their
    height, with their headers and affairs as they were.  The signatures of the block and of
    its transactions are lost, since the copies leave them out; those of the affairs are
    kept.  The state a node restarts from is that of the last block saved. *)
Theorem saved_blocks_readable (blocks chain : D) (st : application_state) (l : list block) (c' : connector_block D) :
  Forall storable (map block_copy l) -> NoDup (map (fun blk => height (header blk)) l) ->
  uint256_wf (state_initial_block_hash st) ->
  save_all (length l) (foldl (fun c blk => input_block_cache blk c)
    (connector_block_make (Some blocks) (Some chain) st) l) = Ret true c' ->
  (forall blk, blk ∈ l -> exists blk', get_block_by_index (height (header blk)) c' = Ret (blk', true) c' /\
    header blk' = header blk /\ affairs (body blk') = affairs (body blk) /\
    transactions (body blk') = map transaction_copy (transactions (body blk)) /\ block_signature blk' = []) /\
  forall blk, last l = Some blk -> exists ch, leveldb_chain c' = Some ch /\
    read_application_state (S := unit) default_value ch tt =
      Ret (Some {| state_current_height := height (header blk); state_top_block_hash := get_block_hash (header blk);
                   state_initial_block_hash := state_initial_block_hash st |}) tt.
Proof.
  intros Hst Hd Hi. set (c0 := connector_block_make (Some blocks) (Some chain) st).
  assert (Hc : forall k c, foldl (fun c blk => input_block_cache blk c) c k = with_queue c (block_queue c ++ map block_copy k)).
  { induction k as [|b k IH]; intros c; cbn; [rewrite app_nil_r; by destruct c|].
    rewrite IH. unfold input_block_cache, with_queue. cbn. by rewrite <-app_assoc. }
  rewrite Hc. rewrite <-(length_map block_copy l).
  intros E. apply save_all_stored in E as (_ & _ & Hall & Hlast); [|done|done|by rewrite map_map|exact Hi].
  split.
  - intros blk Hin. assert (Hin' : block_copy blk ∈ map block_copy l) by (apply list_elem_of_fmap; eauto).
    pose proof (proj1 (Forall_forall _ _) Hst _ Hin') as Hok. pose proof Hok as (_ & _ & Hh).
    exists (received (block_copy blk)). split; [exact (stored_read (block_copy blk) c' Hok (Hall _ Hh (or_introl Hin')))|].
    split; [done|]. split; [done|]. split; [|done]. cbn. rewrite map_map. by apply map_ext.
  - intros blk Hl. apply (Hlast (block_copy blk)). rewrite fmap_last, Hl. done.
Qed.

(** ** The header of the next block *)
Lemma merkle_root_or_proof {A} old (l : list A) (hash : A -> uint256) : Z.of_nat (length l) < 2 ^ 32 ->
  Forall (fun x => uint256_wf (hash x)) l -> exists root, merkle_root_or old l hash = Ok root /\
  (forall x, x ∈ l -> exists proof, get_merkle_proof (hash x) (map hash l) 0 = Ok proof /\
    merkle_proof_verify proof (hash x) root = true) /\ (l = [] -> root = old).
Proof.
  intros Hl Hh. destruct l as [|y l].
  { exists old. split; [done|]. split; [|done]. intros x Hx. by apply not_elem_of_nil in Hx. }
  set (k := y :: l) in *. exists (root_spec (map hash k)). split.
  { apply root_queue_spec; [done|]. by rewrite length_map. }
  split; [|done]. intros x Hx. apply merkle_proof_root.
  - by rewrite length_map.
  - by apply Forall_map.
  - apply list_elem_of_fmap. eauto.
  - rewrite length_map. cbn. lia.
Qed.

Lemma transaction_hash_wf t : sender_wf t -> uint256_wf (transaction_get_hash t).
Proof.
  intros [Hs Ho]. unfold transaction_get_hash. cbv zeta.
  assert (Hr : uint256_wf (hash_bytes (tdata t) + get_sender t)%U) by (apply uint256_add_wf; [apply hash_bytes_wf|done]).
  revert Hr. generalize (hash_bytes (tdata t) + get_sender t)%U.
  induction Ho as [|o l Hw Ho IH]; intros r Hr; [done|]. cbn. apply IH.
  apply uint256_add_wf; [apply hash_bytes_wf|by apply uint256_add_wf].
Qed.
Lemma affair_hash_wf a : uint256_wf (affair_get_hash a).
Proof. rewrite affair_get_hash_eq. apply hash_bytes_wf. Qed.

(** C17: [package_next_block_header] refuses a body outside the limits and leaves the
    block alone; else it links the block to the top of the chain, and [get_merkle_proof]
    proves every transaction and every affair of the body against the roots of the
    header. *)
Theorem header_packaging_correct c (blk : block) (_ini : chain_ini) (blacks : list uint256) :
  Z.of_nat (length (transactions (body blk))) < 2 ^ 32 -> Z.of_nat (length (affairs (body blk))) < 2 ^ 32 ->
  Forall sender_wf (transactions (body blk)) ->
  if within_limits _ini blk then
    exists blk', package_next_block_header blk _ini blacks c = Ok (true, blk') /\ body blk' = body blk /\
      prev_block_hash (header blk') = get_top_block_hash c /\ height (header blk') = u64 (get_current_height c + 1) /\
      (forall t, t ∈ transactions (body blk) -> exists proof,
        get_merkle_proof (transaction_get_hash t) (map transaction_get_hash (transactions (body blk))) 0 = Ok proof /\
        merkle_proof_verify proof (transaction_get_hash t) (transactions_merkle_root (header blk')) = true) /\
      (forall a, a ∈ affairs (body blk) -> exists proof,
        get_merkle_proof (affair_get_hash a) (map affair_get_hash (affairs (body blk))) 0 = Ok proof /\
        merkle_proof_verify proof (affair_get_hash a) (affairs_merkle_root (header blk')) = true) /\
      merkle_patricia_trie_root (header blk') = merkle_patricia_trie_root (header blk)
  else package_next_block_header blk _ini blacks c = Ok (false, blk).
Proof.
  intros Ht Ha Hs. unfold package_next_block_header. destruct (within_limits _ini blk); [|done]. cbn [negb].
  destruct (merkle_root_or_proof (affairs_merkle_root (header blk)) (affairs (body blk)) affair_get_hash)
    as (ra & Ea & Pa & _); [done|apply Forall_true, affair_hash_wf|].
  destruct (merkle_root_or_proof (transactions_merkle_root (header blk)) (transactions (body blk)) transaction_get_hash)
    as (rt & Et & Pt & _); [done|by eapply Forall_impl; [exact Hs|apply transaction_hash_wf]|].
  rewrite Ea, Et. cbn [mbind res_bind]. eexists. split; [done|]. done.
Qed.

(** ** The index of hashes *)
Lemma buffer_uint256 x : uint256_wf x -> uint256_of_buffer (data x) (Z.of_nat (length (data x))) = Ok x.
Proof.
  intros [Hx _]. unfold uint256_of_buffer. rewrite Hx, decide_True, decide_False by (done || lia).
  rewrite <-Hx, firstn_all. by destruct x.
Qed.

(** A hash stored under a height is the hash loaded for that height, whatever
    [success] was; it changes neither the hash of another height nor the state a
    node restarts from, though they are in one database. *)
Theorem index_hash_roundtrip c c' (n : Z) (hash : uint256) (success : bool) :
  0 <= n < 2 ^ 64 -> uint256_wf hash -> store_index_hash n hash c = Ret true c' ->
  load_hash_by_index n success c' = Ret (hash, true) c' /\
  (forall m, 0 <= m < 2 ^ 64 -> m <> n -> forall x ok, load_hash_by_index m success c = Ret (x, ok) c ->
    load_hash_by_index m success c' = Ret (x, ok) c') /\
  exists ch ch', leveldb_chain c = Some ch /\ leveldb_chain c' = Some ch' /\
    read_application_state (S := unit) default_value ch' tt = read_application_state default_value ch tt.
Proof.
  intros Hn Hh. unfold store_index_hash, load_hash_by_index, get_state, modify_state, mbind, M_bind.
  destruct (leveldb_chain c) as [ch|] eqn:Ec; [|done].
  destruct (db_put ch (height_key n) (data hash)) as [[] ch'] eqn:Ep; [|done]. intros [= <-].
  cbn [with_dbs leveldb_chain]. split; [|split].
  - by rewrite (db_put_same _ _ _ _ Ep), buffer_uint256.
  - intros m Hm Hne x ok. rewrite (db_put_other _ _ _ _ (height_key m) Ep) by (intros E; apply height_key_inj in E; auto).
    destruct (db_get ch (height_key m)) as [out|]; [destruct (uint256_of_buffer _ _); [|done]|]; by intros [= -> ->].
  - exists ch, ch'. do 2 (split; [done|]). unfold read_application_state.
    by rewrite (db_put_other _ _ _ _ STORE_STATE_KEY Ep) by apply height_key_state.
Qed.
End Store.

(** ** Instances *)
Section Instances.
Local Instance store_digest : HashHandler := toy_HashHandler.
Local Instance store_host : Host := LittleEndian.
Local Instance store_little : LittleEndianHost := eq_refl.

Definition start_state : application_state :=
  {| state_current_height := 0; state_top_block_hash := sample_uint256; state_initial_block_hash := sample_uint256 |}.
Definition empty_db : gmap bytes bytes := ∅.

Lemma sample_storable : Forall storable (map block_copy [sample_block]).
Proof.
  constructor; [|constructor]. split; [|split].
  - repeat first [split | constructor]; vm_compute; congruence.
  - vm_compute. reflexivity.
  - vm_compute. split; [discriminate|reflexivity].
Qed.

Definition saved {D} (r : outcome (connector_block D) bool) (c : connector_block D) : connector_block D :=
  match r with Ret _ c' => c' | _ => c end.
Definition says_yes {D} (r : outcome (connector_block D) bool) : bool :=
  match r with Ret true _ => true | _ => false end.
Lemma says_yes_ret {D} (r : outcome (connector_block D) bool) c : says_yes r = true -> r = Ret true (saved r c).
Proof. by destruct r as [[]| |]. Qed.

Definition start : connector_block (gmap bytes bytes) :=
  connector_block_make (Some empty_db) (Some empty_db) start_state.
Definition one_cached : connector_block (gmap bytes bytes) := input_block_cache sample_block start.

Lemma saved_blocks_readable_witness :
  exists blk', get_block_by_index (height (header sample_block)) (saved (save_all 1 one_cached) one_cached)
    = Ret (blk', true) (saved (save_all 1 one_cached) one_cached)
    /\ length (transactions (body blk')) = 1%nat /\ block_signature blk' = [].
Proof.
  assert (E : save_all 1 one_cached = Ret true (saved (save_all 1 one_cached) one_cached))
    by (apply says_yes_ret; vm_compute; reflexivity).
  destruct (saved_blocks_readable empty_db empty_db start_state [sample_block] (saved (save_all 1 one_cached) one_cached))
    as [Hr _]; [exact sample_storable| | |exact E|].
  - cbn [map]. apply NoDup_singleton.
  - exact sample_uint256_wf.
  - destruct (Hr sample_block) as (blk' & E' & _ & _ & Et & Es); [by left|].
    exists blk'. split; [exact E'|]. split; [|exact Es]. rewrite Et. reflexivity.
Defined.

Definition loose_limits : chain_ini :=
  with_limits chain_ini_default 500 500 1 0.

Lemma header_packaging_correct_witness :
  exists blk', package_next_block_header sample_block loose_limits [] start = Ok (true, blk') /\
    height (header blk') = 1.
Proof.
  pose proof (header_packaging_correct start sample_block loose_limits []) as Hp.
  assert (El : within_limits loose_limits sample_block = true) by (vm_compute; reflexivity).
  rewrite El in Hp. destruct Hp as (blk' & E & _ & _ & Eh & _).
  - vm_compute. reflexivity.
  - vm_compute. reflexivity.
  - apply Forall_singleton. split; [|apply Forall_singleton; exact sample_uint256_wf].
    split; [vm_compute; reflexivity|]. vm_compute. repeat constructor; discriminate.
  - exists blk'. split; [exact E|]. rewrite Eh. vm_compute. reflexivity.
Defined.

Lemma index_hash_roundtrip_witness :
  let c' := saved (store_index_hash 7 sample_uint256 start) start in
  load_hash_by_index 7 false c' = Ret (sample_uint256, true) c'.
Proof.
  cbv zeta.
  destruct (index_hash_roundtrip start (saved (store_index_hash 7 sample_uint256 start) start) 7 sample_uint256 false) as [E _].
  - split; [discriminate|reflexivity].
  - exact sample_uint256_wf.
  - apply says_yes_ret. vm_compute. reflexivity.
  - exact E.
Defined.
End Instances.
