(* ===== verification/Application.v ===== *)
(** * The node: [application.cpp]

    A node's settings, its state and its two keys, with the files, the databases and the
    keys in memory they are about.  [initialize] reads the state a node was left in, or
    makes the genesis block.  A key in memory is a handle: freeing it twice, or using it
    after it was freed, is undefined behaviour. *)
From S2P Require Import Prelude Stream Serializer SerializerLaws Uint256 Transaction Block BloomFilter MerkleTree Wire.
From S2P Require Import LevelDB Ecc MptNode Mpt AccountTrie Effects Ledger Settings BlockStore.

Definition Minimum_Initialization_Nodes : Z := 10.
Definition EPOCH_MAX : Z := 255.

(** ** The system a node runs on *)

(** An entry of a directory, as [std::filesystem] describes it. *)
Record directory_entry := { entry_path : bytes; entry_is_regular : bool; entry_extension : bytes }.

(** The file system, the parser of ini files, and OpenSSL's reading of PEM files.
    [None] of [directory_iterator] is an exception. *)
Class System (F K : Type) := {
  path_exists : F -> bytes -> bool;
  is_directory : F -> bytes -> bool;
  create_directories : bytes -> M F bool;
  directory_iterator : F -> bytes -> option (list directory_entry);
  ini_file : F -> bytes -> bytes -> bytes -> option bytes;
  PEM_read_PUBKEY : F -> bytes -> option K;
  PEM_read_PrivateKey : F -> bytes -> bytes -> option K;
}.

(** Opening databases: which paths open, the database of a new directory, and what
    [DestroyDB] leaves of a database that is open. *)
Class Databases (F D : Type) := {
  db_opens : F -> bytes -> bool;
  db_new : D;
  db_destroy : D -> D;
}.

(** ** The state *)
Record application := Application {
  settings : loaded;
  state : application_state;
  private_key : option positive;    (** a handle, [None] is [nullptr] *)
  public_key : option positive;
  public_key_hash : uint256;
}.

(** Where a node runs: files, databases by their path, and the keys in memory. *)
Record machine {F D K : Type} := Machine {
  files : F;
  databases : gmap bytes D;
  keys : gmap positive K;
}.
Arguments machine F D K : clear implicits.
Arguments Machine {F D K}.

Record node {F D K : Type} := Node { where_it_runs : machine F D K; app : application }.
Arguments node F D K : clear implicits.
Arguments Node {F D K}.

Definition application_make (uninitialised : application_state) (hash : uint256) : application :=
  Application {| setting_ini := chain_ini_default; load := false |} uninitialised None None hash.

Section Node.
Context {host : Host} `{HashHandler} {F D K : Type} `{System F K} `{OpenSSL K} `{LevelDB D} `{Databases F D}.
Implicit Types (m : machine F D K) (a : application).

(** ** Keys in memory *)
Definition with_keys m (ks : gmap positive K) : machine F D K := Machine (files m) (databases m) ks.

Definition new_key (k : K) : M (machine F D K) positive :=
  m ← get_state;
  let h := fresh (dom (keys m)) in
  modify_state (fun m => with_keys m (<[h := k]> (keys m))) ;; mret h.
Definition EVP_PKEY_free (h : positive) : M (machine F D K) unit :=
  m ← get_state;
  match keys m !! h with
  | Some _ => modify_state (fun m => with_keys m (delete h (keys m)))
  | None => undefined
  end.
Definition use_key (h : positive) : M (machine F D K) K :=
  m ← get_state; match keys m !! h with Some k => mret k | None => undefined end.
(** [if (key != nullptr) EVP_PKEY_free(key)] *)
Definition free_if (key : option positive) : M (machine F D K) unit :=
  match key with Some h => EVP_PKEY_free h | None => mret tt end.
Fixpoint new_keys (ks : list K) : M (machine F D K) (list positive) :=
  match ks with
  | [] => mret []
  | k :: ks => h ← new_key k; hs ← new_keys ks; mret (h :: hs)
  end.

Definition read_public_key_from_file (path : bytes) : M (machine F D K) (option K) :=
  m ← get_state;
  mret (if path_exists (files m) path then PEM_read_PUBKEY (files m) path else None).
Definition read_private_key_from_file (path password : bytes) : M (machine F D K) (option K) :=
  m ← get_state;
  mret (match password with
        | [] => None
        | _ => if path_exists (files m) path then PEM_read_PrivateKey (files m) path password else None
        end).

(** ** The life of an [application] *)

Definition with_key_pair a (sk pk : option positive) (hash : uint256) : application :=
  Application (settings a) (state a) sk pk hash.

Definition destroy a : M (machine F D K) unit := free_if (private_key a) ;; free_if (public_key a).

(** The move constructor: the new object, and [other] afterwards.  A moved string or
    hash has no value that is used again; it is left as it was. *)
Definition application_move (other : application) : M (machine F D K) (application * application) :=
  let this := other in
  free_if (private_key this) ;;
  free_if (public_key this) ;;
  mret (this, with_key_pair other None None (public_key_hash other)).

Definition load_node_keys (_password : bytes) a : M (machine F D K) (bool * application) :=
  let ini := setting_ini (settings a) in
  m ← get_state;
  if negb (path_exists (files m) (private_key_path ini)) then throw StdException
  else if negb (path_exists (files m) (public_key_path ini)) then throw StdException
  else
    sk ← read_private_key_from_file (private_key_path ini) _password;
    pk ← read_public_key_from_file (public_key_path ini);
    match sk, pk with
    | Some sk, Some pk =>
        hs ← new_keys [sk; pk];
        free_if (private_key a) ;;
        free_if (public_key a) ;;
        match hs with
        | [hsk; hpk] =>
            k ← use_key hpk;
            mret (true, with_key_pair a (Some hsk) (Some hpk)
                          (get_public_key_hash_no_compressed k (public_key_hash a)).2)
        | _ => undefined
        end
    | Some k, None | None, Some k => h ← new_key k; mret (false, a)
    | None, None => mret (false, a)
    end.

(** The block, and [success]. *)
Definition package_inject_special_affairs (now : Z) (participants : list affair) a
    : M (machine F D K) (block * bool) :=
  let blk := default_value in
  match private_key a, public_key a with
  | Some sk, Some _ =>
      let air := {| affair_nonce := 0; owner := public_key_hash a; _affair_type := affair_code OwnerAddressHash;
                    affair_data := []; affair_signature := []; affair_create_time := now; epoch := EPOCH_MAX |} in
      k ← use_key sk;
      match signature k (data (affair_get_hash air)) with
      | None => mret (blk, false)
      | Some _out_sig =>
          let air := {| affair_nonce := affair_nonce air; owner := owner air; _affair_type := _affair_type air;
                        affair_data := affair_data air; affair_signature := _out_sig;
                        affair_create_time := affair_create_time air; epoch := epoch air |} in
          mret ({| header := header blk;
                   body := {| transactions := []; affairs := air :: participants |};
                   block_signature := block_signature blk |}, true)
      end
  | _, _ => mret (blk, false)
  end.

(** The answer, and the block. *)
Definition signature_block (blk : block) a : M (machine F D K) (bool * block) :=
  match private_key a with
  | None => mret (false, blk)
  | Some sk =>
      k ← use_key sk;
      match signature k (data (block_get_hash blk)) with
      | None => mret (false, blk)
      | Some s => mret (true, {| header := header blk; body := body blk; block_signature := s |})
      end
  end.

(** ** The genesis block *)

(** [std::string] is ordered by its bytes. *)
Fixpoint bytes_leb (a b : bytes) : bool :=
  match a, b with
  | [], _ => true
  | _ :: _, [] => false
  | x :: a, y :: b => if x =? y then bytes_leb a b else x <? y
  end.
Definition bytes_le (a b : bytes) : Prop := bytes_leb a b = true.
#[export] Instance bytes_le_dec : RelDecision bytes_le.
Proof. intros a b. unfold bytes_le. apply _. Defined.

Definition genesis_affair (create_time : Z) (address : bytes) : affair :=
  {| affair_nonce := 0; owner := uint256_fill 0; _affair_type := affair_code GenesisData;
     affair_data := address; affair_signature := []; affair_create_time := create_time;
     epoch := EPOCH_MAX |}.

Definition genesis_block (create_time : Z) (addresses : list bytes) : res merkle_error block :=
  let initial_affairs := map (genesis_affair create_time) addresses in
  '(affair_merkle_root, _) ← get_merkle_root_vector (map affair_get_hash initial_affairs);
  Ok {| header := {| prev_block_hash := uint256_fill 0; assets_blf_hash := uint256_zero;
                     transactions_merkle_root := uint256_fill 0; affairs_merkle_root := affair_merkle_root;
                     merkle_patricia_trie_root := uint256_fill 0; black_block_hashes := [];
                     height := 1; header_create_time := create_time |};
        body := {| transactions := []; affairs := initial_affairs |};
        block_signature := [] |}.

Definition genesis_state (genesis_block_hash : uint256) : application_state :=
  {| state_current_height := 0; state_top_block_hash := genesis_block_hash;
     state_initial_block_hash := genesis_block_hash |}.

(** ** [initialize] *)
Definition is_empty {A} (l : list A) : bool := match l with [] => true | _ => false end.

Definition ensure_directory (path : bytes) : M (machine F D K) unit :=
  m ← get_state;
  (if path_exists (files m) path then mret tt
   else result ← (fun m => match create_directories path (files m) with
                           | Ret ok fs => Ret ok (Machine fs (databases m) (keys m))
                           | Throw e fs => Throw e (Machine fs (databases m) (keys m))
                           | Undefined => Undefined
                           end);
        if result : bool then mret tt else throw StdException) ;;
  m ← get_state;
  if is_directory (files m) path then mret tt else throw StdException.

(** The database that is opened under a path, if it opens. *)
Definition open_db (path : bytes) : M (machine F D K) (option D) :=
  m ← get_state;
  if db_opens (files m) path then
    let db := default db_new (databases m !! path) in
    modify_state (fun m => Machine (files m) (<[path := db]> (databases m)) (keys m)) ;;
    mret (Some db)
  else mret None.
Definition put_at (path k v : bytes) : M (machine F D K) bool :=
  m ← get_state;
  match databases m !! path with
  | None => undefined
  | Some db =>
      let '(ok, db) := db_put db k v in
      modify_state (fun m => Machine (files m) (<[path := db]> (databases m)) (keys m)) ;; mret ok
  end.
Definition destroy_at (path : bytes) : M (machine F D K) unit :=
  modify_state (fun m => Machine (files m) (alter db_destroy path (databases m)) (keys m)).

(** The public keys of a directory, in its order. *)
Fixpoint read_keys (l : list directory_entry) : M (machine F D K) (list positive) :=
  match l with
  | [] => mret []
  | e :: l =>
      h ← (if entry_is_regular e && (if decide (entry_extension e = b! ".pub") then true else false)
           then k ← read_public_key_from_file (entry_path e);
                match k with Some k => h ← new_key k; mret [h] | None => mret [] end
           else mret []);
      hs ← read_keys l; mret (h ++ hs)
  end.

(** The addresses of the keys; one that has none is an error. *)
Fixpoint read_addresses (hs : list positive) : M (machine F D K) (list bytes) :=
  match hs with
  | [] => mret []
  | h :: hs =>
      k ← use_key h;
      match convert_public_key_no_compressed_64B (Some k) with
      | [] => throw StdException
      | address => rest ← read_addresses hs; mret (address :: rest)
      end
  end.

(** The branch without a state: the genesis block. *)
Definition create_genesis (create_time : Z) (ini : chain_ini) : M (machine F D K) application_state :=
  block_db ← open_db (block_db_path ini);
  match block_db with
  | None => throw StdException
  | Some _ =>
      m ← get_state;
      match directory_iterator (files m) (initial_keys_path ini) with
      | None => throw StdException
      | Some entries =>
          ks ← read_keys entries;
          if is_empty ks || (Z.of_nat (length ks) <? Minimum_Initialization_Nodes)
          then throw StdException
          else
            addresses ← read_addresses ks;
            for_each EVP_PKEY_free ks ;;
            let addresses := merge_sort bytes_le addresses in
            match genesis_block create_time addresses with
            | Err _ => undefined
            | Ok blk =>
                let st := genesis_state (block_get_hash blk) in
                out ← serialized st;
                ok ← put_at (chain_state_db_path ini) STORE_STATE_KEY out;
                if ok : bool then
                  result ← serialized blk;
                  ok ← put_at (block_db_path ini) (height_key 0) result;
                  if ok : bool then mret st
                  else destroy_at (chain_state_db_path ini) ;; destroy_at (block_db_path ini) ;;
                       throw StdException
                else throw StdException
            end
      end
  end.

(** [create_time] is the clock's reading.  The state of the application is read before
    anything can fail, so that a failure has no state to leave. *)
Definition initialize (create_time : Z) a : M (machine F D K) application :=
  let ini := setting_ini (settings a) in
  let finish st := Application (settings a) st (private_key a) (public_key a) (public_key_hash a) in
  if negb (load (settings a)) then throw StdException
  else if is_empty (initial_keys_path ini) then throw StdException
  else if is_empty (chain_state_db_path ini) then throw StdException
  else
    m ← get_state;
    if negb (is_directory (files m) (initial_keys_path ini)) || negb (path_exists (files m) (initial_keys_path ini))
    then throw StdException
    else
      for_each ensure_directory [chain_state_db_path ini; block_db_path ini; account_db_path ini;
                                 extensions_db_path ini; assets_db_path ini; log_file_path ini] ;;
      chain_db ← open_db (chain_state_db_path ini);
      match chain_db with
      | None => throw StdException
      | Some chain_ptr =>
          st ← read_application_state (state a) chain_ptr;
          match st with
          | Some st => mret (finish st)
          | None => st ← create_genesis create_time ini; mret (finish st)
          end
      end.

(** ** A start of the program: [main.cpp], without the network *)
Definition start_node (path password : bytes) (create_time : Z) a : M (machine F D K) (bool * application) :=
  m ← get_state;
  match load_setting_file (ini_file (files m) path) (path_exists (files m) path) (settings a) with
  | Undefined => undefined
  | Throw e _ => throw e
  | Ret false l => mret (false, Application l (state a) (private_key a) (public_key a) (public_key_hash a))
  | Ret true l =>
      a ← initialize create_time (Application l (state a) (private_key a) (public_key a) (public_key_hash a));
      '(_, a) ← load_node_keys password a;
      mret (true, a)
  end.

(** [interface_db::inject_levelDB]: the part of it that is about blocks. *)
Definition inject_blocks a : M (machine F D K) (connector_block D) :=
  let ini := setting_ini (settings a) in
  blocks_db ← open_db (block_db_path ini);
  chain_db ← open_db (chain_state_db_path ini);
  mret (connector_block_make blocks_db chain_db (state a)).
End Node.
