(* ===== verification/ApplicationTheorems.v ===== *)
(** * The node: settings, the first start and the next one, the keys *)
From S2P Require Import Prelude Stream Serializer SerializerLaws Uint256 Transaction Block BloomFilter MerkleTree Wire.
From S2P Require Import LevelDB Ecc MptNode Mpt AccountTrie Effects Ledger Settings Packaging BlockStore BlockStoreTheorems Application.

(** ** Runs of the monad *)

(** Splits a run that returns into the run of its first call and the rest. *)
Ltac split_run E := let a := fresh "r" in let s := fresh "m" in let E1 := fresh "E" in
  apply ret_bind in E as (a & s & E1 & E).
(** The same for a call that reads the state or changes it. *)
Ltac read_run E := unfold mbind at 1, M_bind at 1, get_state at 1 in E.

(** ** The settings *)

(** The decimal digits of a number. *)
Fixpoint decimal_digits (fuel : nat) (n : Z) : bytes :=
  match fuel with
  | O => []
  | S fuel => if n <? 10 then [48 + n] else decimal_digits fuel (n / 10) ++ [48 + n mod 10]
  end.
Definition decimal (n : Z) : bytes := decimal_digits (S (Z.to_nat (Z.log2 n))) n.

Lemma decimal_digits_spec fuel n : 0 <= n < 2 ^ Z.of_nat (S fuel) ->
  digits_value (decimal_digits (S fuel) n) = n /\ forallb is_digit (decimal_digits (S fuel) n) = true /\
  decimal_digits (S fuel) n <> [].
Proof.
  assert (Hbase : forall k n, 0 <= n < 10 -> digits_value (decimal_digits (S k) n) = n /\
    forallb is_digit (decimal_digits (S k) n) = true /\ decimal_digits (S k) n <> []).
  { intros k m Hm. cbn [decimal_digits]. destruct (m <? 10) eqn:E; [|lia]. unfold digits_value, is_digit. cbn.
    split; [lia|]. split; [lia|done]. }
  revert n. induction fuel as [|fuel IH]; intros n [Hn Hf].
  { change (2 ^ Z.of_nat 1) with 2 in Hf. apply Hbase. lia. }
  destruct (n <? 10) eqn:E; [apply Hbase; lia|].
  remember (S fuel) as k. cbn [decimal_digits]. rewrite E. subst k.
  apply Z.ltb_ge in E. pose proof (Z.div_mod n 10 ltac:(lia)) as Hd. pose proof (Z.mod_pos_bound n 10 ltac:(lia)) as Hm.
  rewrite Nat2Z.inj_succ, Z.pow_succ_r in Hf by lia.
  destruct (IH (n / 10)) as (Ev & Hg & _); [split; [apply Z.div_pos; lia|lia]|].
  unfold digits_value in *. rewrite foldl_app, Ev. cbn [foldl].
  split; [lia|]. split; [|by destruct (decimal_digits (S fuel) (n / 10))].
  rewrite forallb_app, Hg. cbn. unfold is_digit. lia.
Qed.

Lemma decimal_spec n : 0 <= n -> digits_value (decimal n) = n /\ forallb is_digit (decimal n) = true /\ decimal n <> [].
Proof.
  intros Hn. apply decimal_digits_spec. rewrite Nat2Z.inj_succ, Z2Nat.id by apply Z.log2_nonneg.
  split; [done|]. destruct (decide (n = 0)) as [->|]; [reflexivity|]. apply Z.log2_spec. lia.
Qed.

Lemma stoul_decimal {S} n rest (s : S) : 0 <= n < 2 ^ 64 -> (forall b, head rest = Some b -> is_digit b = false) ->
  stoul (decimal n ++ rest) s = Ret (n, Z.of_nat (length (decimal n))) s.
Proof.
  intros Hn Hr. destruct (decimal_spec n) as (Ev & Hg & Hne); [lia|]. unfold stoul. destruct (decimal n) as [|d l] eqn:El; [done|].
  assert (Hd : is_digit d = true) by (cbn in Hg; by apply andb_true_iff in Hg as [? _]).
  assert (Hs : span is_space (d :: l ++ rest) = ([], d :: l ++ rest)).
  { cbn. replace (is_space d) with false; [done|]. unfold is_space, is_digit in *. lia. }
  rewrite <-app_comm_cons, Hs.
  assert (Hsign : match d :: l ++ rest with
                  | 45 :: rest => ([45], rest) | 43 :: rest => ([43], rest) | _ => ([], d :: l ++ rest) end = ([], d :: l ++ rest)).
  { unfold is_digit in Hd. destruct d as [|d|d]; [done| |done]. repeat (destruct d as [d|d|]; try done). }
  rewrite Hsign. rewrite app_comm_cons, (span_all is_digit (d :: l) rest Hg Hr).
  cbn [app]. rewrite Ev. destruct (2 ^ 64 <=? n) eqn:E; [lia|]. done.
Qed.

Section SettingsTheorems.
Variable loader : bytes -> bytes -> option bytes.

Definition all_present : Prop := forall sk, sk ∈ required_keys -> is_Some (loader sk.1 sk.2).
(** The number [n] in decimal, and what follows it on the line. *)
Definition holds_number (key : bytes) (n : Z) : Prop :=
  0 <= n < 2 ^ 64 /\ exists rest, loader (b! "chain") key = Some (decimal n ++ rest) /\
    forall b, head rest = Some b -> is_digit b = false.

Lemma load_number_decimal key n store l : holds_number key n ->
  load_number (entry loader (b! "chain") key) store l =
    Ret true {| setting_ini := store (u32 n) (setting_ini l); load := load l |}.
Proof.
  intros (Hn & rest & E & Hr). unfold load_number, entry. rewrite E. unfold default, from_option, id.
  unfold mbind, M_bind. rewrite stoul_decimal by done.
  destruct (Z.of_nat (length (decimal n)) <=? 0) eqn:El; [|done]. exfalso.
  destruct (decimal_spec n) as (_ & _ & Hne); [lia|].
  destruct (decimal n); [done|]. apply Z.leb_le in El. cbn [length] in El. clear -El. lia.
Qed.

(** A settings file that has every key gives the paths without a final CR and the four
    limits modulo 2^32, so that a limit of 4294967296 is a limit of 0; a file without
    one of the keys gives false and leaves the settings alone, and so does a path that does not exist. *)
Theorem settings_loaded (l : loaded) (affair_max affair_min transaction_max transaction_min : Z) :
  holds_number (b! "affair_maximum_number_in_block") affair_max ->
  holds_number (b! "affair_minimum_number_in_block") affair_min ->
  holds_number (b! "transaction_maximum_number_in_block") transaction_max ->
  holds_number (b! "transaction_minimum_number_in_block") transaction_min ->
  load_setting_file loader false l = Ret false l /\
  (all_present -> load_setting_file loader true l = Ret true
    {| setting_ini := with_limits (load_paths loader (setting_ini l)) (u32 transaction_max) (u32 affair_max)
                        (u32 transaction_min) (u32 affair_min); load := true |}) /\
  (~ all_present -> load_setting_file loader true l = Ret false l).
Proof.
  intros H1 H2 H3 H4. split; [done|]. unfold load_setting_file. cbn [negb].
  destruct (forallb _ required_keys) eqn:Ef; cbn [negb]; (split; [intros Hall|intros Hn]).
  - unfold mbind, M_bind at 1, set_ini at 1, modify_state at 1. unfold M_bind.
    rewrite (load_number_decimal _ _ _ _ H1). cbn [negb]. rewrite (load_number_decimal _ _ _ _ H2). cbn [negb].
    rewrite (load_number_decimal _ _ _ _ H3). cbn [negb]. rewrite (load_number_decimal _ _ _ _ H4). done.
  - exfalso. apply Hn. intros sk Hin. apply list_elem_of_In in Hin.
    pose proof (proj1 (forallb_forall _ _) Ef sk Hin) as Hs. cbn in Hs.
    destruct (loader sk.1 sk.2); [by eexists|done].
  - exfalso. apply not_true_iff_false in Ef. apply Ef, forallb_forall. intros sk Hin. apply list_elem_of_In in Hin.
    destruct (Hall sk Hin) as [v ->]. done.
  - done.
Qed.
End SettingsTheorems.

(** ** What the file system and LevelDB promise to a start *)
Class SystemLaws (F K : Type) `{System F K} := {
  directory_exists (fs : F) p : is_directory fs p = true -> path_exists fs p = true;
  create_keeps (fs fs' : F) p ok q : create_directories p fs = Ret ok fs' ->
    is_directory fs q = true -> is_directory fs' q = true;
}.

Section Start.
Context {host : Host} {HL : LittleEndianHost} `{HashHandler} {F D K : Type} `{SystemLaws F K} `{OpenSSL K}.
Context `{LevelDBLaws D} `{Databases F D}.
Implicit Types (m : machine F D K) (a : application).

Lemma ensure_directory_spec p m m' : ensure_directory p m = Ret tt m' ->
  databases m' = databases m /\ keys m' = keys m /\ is_directory (files m') p = true /\
  forall q, is_directory (files m) q = true -> is_directory (files m') q = true.
Proof.
  unfold ensure_directory, get_state, mbind, M_bind. intros E.
  destruct (path_exists (files m) p).
  - cbn in E. destruct (is_directory (files m) p) eqn:Ed; [|done]. injection E as <-. done.
  - destruct (create_directories p (files m)) as [[] fs|? fs|] eqn:Ec; [|done..]. cbn in E.
    destruct (is_directory fs p) eqn:Ed; [|done]. injection E as <-. cbn.
    repeat (split; [done|]). intros q. by apply (create_keeps _ _ _ _ _ Ec).
Qed.

Lemma ensure_directory_done p m : is_directory (files m) p = true -> ensure_directory p m = Ret tt m.
Proof.
  intros Hd. unfold ensure_directory, get_state, mbind, M_bind. rewrite (directory_exists _ _ Hd). cbn. by rewrite Hd.
Qed.

Lemma ensure_all_spec l m m' : for_each ensure_directory l m = Ret tt m' ->
  databases m' = databases m /\ keys m' = keys m /\ Forall (fun p => is_directory (files m') p = true) l /\
  forall q, is_directory (files m) q = true -> is_directory (files m') q = true.
Proof.
  revert m. induction l as [|p l IH]; intros m E; cbn in E; [by injection E as <-|].
  split_run E. destruct r. apply ensure_directory_spec in E0 as (Ed & Ek & Hp & Hq).
  destruct (IH _ E) as (Ed' & Ek' & Hl & Hq'). rewrite Ed', Ek'. do 2 (split; [done|]). split; [|auto].
  constructor; auto.
Qed.

Lemma ensure_all_done l m : Forall (fun p => is_directory (files m) p = true) l ->
  for_each ensure_directory l m = Ret tt m.
Proof.
  induction 1 as [|p l Hp _ IH]; [done|]. cbn. unfold mbind, M_bind. by rewrite ensure_directory_done.
Qed.

(** ** Keys in memory *)
Lemma read_keys_spec l m hs m' : read_keys l m = Ret hs m' ->
  files m' = files m /\ databases m' = databases m /\ foldr delete (keys m') hs = keys m /\
  Forall (fun h => is_Some (keys m' !! h)) hs /\ NoDup hs /\ forall h, h ∈ hs -> keys m !! h = None.
Proof.
  revert m hs. induction l as [|e l IH]; intros m hs E; cbn in E.
  { injection E as <- <-. repeat (split; [first [done|constructor]|]). intros h Hh. by apply not_elem_of_nil in Hh. }
  split_run E. split_run E. injection E as <- <-. rename r0 into l', m1 into m'. destruct (IH _ _ E1) as (Hf & Hd & Hk & Hs & Hn & Hfresh).
  assert (Hr : r = [] /\ m0 = m \/ exists k, r = [fresh (dom (keys m))] /\
    m0 = with_keys m (<[fresh (dom (keys m)) := k]> (keys m))).
  { revert E0. clear. unfold read_public_key_from_file, new_key, get_state, modify_state, mbind, M_bind.
    destruct (_ && _); cbn; [|intros [= <- <-]; by left].
    destruct (if path_exists _ _ then _ else _) as [k|]; cbn; intros [= <- <-]; [right|by left]. by exists k. }
  destruct Hr as [[-> ->]|(k & -> & ->)]; cbn [app]; [done|]. cbn [with_keys files databases keys] in *.
  set (h := fresh (dom (keys m))) in *.
  assert (Hh : keys m !! h = None) by (apply not_elem_of_dom, is_fresh).
  assert (Hin : h ∉ l') by (intros Hin; specialize (Hfresh h Hin); rewrite lookup_insert_eq in Hfresh; done).
  assert (Hk' : keys m' !! h = Some k).
  { rewrite <-(lookup_insert_eq (keys m) h k), <-Hk. clear -Hin. induction l' as [|x l' IH]; [done|].
    apply not_elem_of_cons in Hin as [Hne Hin]. cbn. rewrite lookup_delete_ne by done. by apply IH. }
  split; [done|]. split; [done|]. split; [|split; [|split]].
  - cbn. rewrite Hk. by rewrite delete_insert_id.
  - constructor; [by eexists|done].
  - by constructor.
  - intros x [->|Hx]%elem_of_cons; [done|]. specialize (Hfresh x Hx).
    by apply lookup_insert_None in Hfresh as [? _].
Qed.

Lemma read_addresses_state hs m l m' : read_addresses hs m = Ret l m' -> m' = m /\ length l = length hs.
Proof.
  revert m l. induction hs as [|h hs IH]; intros m l E; cbn [read_addresses] in E; [by injection E as <- <-|].
  split_run E. unfold use_key, get_state, mbind, M_bind in E0. destruct (keys m !! h) as [k|]; [|done].
  injection E0 as <- <-. destruct (convert_public_key_no_compressed_64B (Some k)) as [|b address]; [done|].
  split_run E. injection E as <- <-. destruct (IH _ _ E0) as [-> Hl]. split; [done|]. cbn. by rewrite Hl.
Qed.

Lemma free_all hs m m' : for_each EVP_PKEY_free hs m = Ret tt m' ->
  files m' = files m /\ databases m' = databases m /\ keys m' = foldr delete (keys m) hs.
Proof.
  revert m. induction hs as [|h hs IH]; intros m E; cbn in E; [by injection E as <-|].
  split_run E. unfold EVP_PKEY_free, get_state, modify_state, mbind, M_bind in E0. destruct (keys m !! h) as [k|]; [|done].
  injection E0 as <- <-. destruct (IH _ E) as (Hf & Hd & Hk). split; [done|]. split; [done|].
  rewrite Hk. cbn. clear. induction hs as [|x hs IH]; [done|]. cbn. rewrite IH. apply delete_delete.
Qed.

(** ** The genesis block *)
Lemma state_genesis_ok x : uint256_wf x -> state_ok (genesis_state x).
Proof. intros Hx. by repeat split; cbn; try apply Hx. Qed.

Lemma block_hash_wf hd : uint256_wf (get_block_hash hd).
Proof. unfold get_block_hash. cbv zeta. apply get_sha3_256_wf. Qed.

Lemma open_db_spec p db m m' : open_db p m = Ret (Some db) m' ->
  db_opens (files m) p = true /\ db = default db_new (databases m !! p) /\
  m' = Machine (files m) (<[p := db]> (databases m)) (keys m).
Proof.
  unfold open_db, get_state, modify_state, mbind, M_bind. destruct (db_opens (files m) p); [|done].
  by intros [= <- <-].
Qed.

Lemma open_db_again p db m : db_opens (files m) p = true -> databases m !! p = Some db ->
  open_db p m = Ret (Some db) m.
Proof.
  intros Ho E. unfold open_db, get_state, modify_state, mbind, M_bind. rewrite Ho, E. cbn.
  rewrite insert_id by done. by destruct m.
Qed.

Lemma put_at_spec p k v m m' : put_at p k v m = Ret true m' ->
  exists db db', databases m !! p = Some db /\ db_put db k v = (true, db') /\
    m' = Machine (files m) (<[p := db']> (databases m)) (keys m).
Proof.
  unfold put_at, get_state, modify_state, mbind, M_bind. destruct (databases m !! p) as [db|]; [|done].
  destruct (db_put db k v) as [ok db'] eqn:E. intros [= -> <-]. by exists db, db'.
Qed.

Lemma serialized_state {S A} `{Serializable A} (v : A) l (s s' : S) : serialized v s = Ret l s' -> s' = s.
Proof. unfold serialized. destruct (input v _) as [[|[]] ?]; congruence. Qed.

Lemma genesis_block_shape t l blk : genesis_block t l = Ok blk ->
  received blk = blk /\ height (header blk) = 1 /\ map affair_data (affairs (body blk)) = l.
Proof.
  unfold genesis_block. cbv zeta. intros E. apply res_bind_ok in E as ([root c] & _ & [= <-]).
  split; [done|]. split; [done|]. cbn [affairs body]. rewrite map_map. cbn [affair_data genesis_affair]. apply map_id.
Qed.

Lemma create_genesis_spec t ini m st m' : chain_state_db_path ini <> block_db_path ini ->
  create_genesis t ini m = Ret st m' -> is_Some (databases m !! chain_state_db_path ini) ->
  exists addresses blk chain blocks out, (10 <= length addresses)%nat /\
    genesis_block t (merge_sort bytes_le addresses) = Ok blk /\
    st = genesis_state (block_get_hash blk) /\ files m' = files m /\ keys m' = keys m /\
    db_opens (files m) (block_db_path ini) = true /\
    databases m' !! chain_state_db_path ini = Some chain /\ db_get chain STORE_STATE_KEY = Some (encode st) /\
    databases m' !! block_db_path ini = Some blocks /\ db_get blocks (height_key 0) = Some out /\
    serialized blk tt = Ret out tt.
Proof.
  intros Hne E Hc. unfold create_genesis in E. split_run E. destruct r as [db|]; [|done].
  apply open_db_spec in E0 as (Ho & -> & ->). read_run E.
  destruct (directory_iterator _ _) as [entries|]; [|done]. split_run E.
  apply read_keys_spec in E0 as (Hf & Hd & Hk & _). cbn [files databases keys] in *.
  destruct (_ || _) eqn:Eten; [done|]. apply orb_false_iff in Eten as [_ Eten]. apply Z.ltb_ge in Eten.
  split_run E. apply read_addresses_state in E0 as [-> Hl]. split_run E. destruct r1.
  apply free_all in E0 as (Hf' & Hd' & Hk'). destruct (genesis_block t _) as [blk|] eqn:Eb; [|done].
  split_run E. rewrite state_serialized in E0 by apply state_genesis_ok, block_hash_wf. injection E0 as <- <-.
  split_run E. destruct r1; [|done]. apply put_at_spec in E0 as (chain & chain' & Ec & Ep & ->).
  split_run E. pose proof (serialized_state _ _ _ _ E0) as ->. split_run E. destruct r2; [|by repeat split_run E].
  apply put_at_spec in E1 as (blocks & blocks' & Eb' & Ep' & ->). cbn [files databases keys] in *.
  injection E as <- <-. exists r0, blk, chain', blocks', r1. cbn [files databases keys].
  split; [unfold Minimum_Initialization_Nodes in Eten; lia|]. split; [done|]. split; [done|].
  split; [congruence|]. split; [congruence|]. split; [done|].
  split; [rewrite lookup_insert_ne by done; apply lookup_insert_eq|].
  split; [exact (db_put_same _ _ _ _ Ep)|]. split; [apply lookup_insert_eq|].
  split; [exact (db_put_same _ _ _ _ Ep')|].
  revert E0. unfold serialized. destruct (input blk _) as [[|[]] ?]; congruence.
Qed.

(** The directories of a node that started. *)
Definition started_paths (ini : chain_ini) : list bytes :=
  [chain_state_db_path ini; block_db_path ini; account_db_path ini; extensions_db_path ini; assets_db_path ini;
   log_file_path ini].

Definition with_state a (st : application_state) : application :=
  Application (settings a) st (private_key a) (public_key a) (public_key_hash a).

Lemma first_start m a t a1 m1 : let ini := setting_ini (settings a) in
  chain_state_db_path ini <> block_db_path ini -> initialize t a m = Ret a1 m1 ->
  db_get (default db_new (databases m !! chain_state_db_path ini)) STORE_STATE_KEY = None ->
  load (settings a) = true /\ initial_keys_path ini <> [] /\ chain_state_db_path ini <> [] /\
  is_directory (files m1) (initial_keys_path ini) = true /\
  Forall (fun p => is_directory (files m1) p = true) (started_paths ini) /\
  db_opens (files m1) (chain_state_db_path ini) = true /\
  exists m2 st, a1 = with_state a st /\ keys m2 = keys m /\ files m1 = files m2 /\ create_genesis t ini m2 = Ret st m1 /\
    is_Some (databases m2 !! chain_state_db_path ini).
Proof.
  intros ini Hne E Hnone. unfold initialize in E. fold ini in E.
  destruct (load (settings a)); cbn [negb] in E; [|done].
  destruct (is_empty (initial_keys_path ini)) eqn:E1; [done|].
  destruct (is_empty (chain_state_db_path ini)) eqn:E2; [done|].
  read_run E. destruct (is_directory _ _) eqn:Edir; [|done]. destruct (path_exists _ _); [|done]. cbn [negb orb] in E.
  split_run E. destruct r. apply ensure_all_spec in E0 as (Hd & Hk & Hall & Hkeep).
  split_run E. destruct r as [db|]; [|done]. apply open_db_spec in E0 as (Ho & -> & ->).
  split_run E. unfold read_application_state in E0. rewrite Hd, Hnone in E0. injection E0 as <- <-.
  split_run E. injection E as <- <-.
  pose proof (create_genesis_spec _ _ _ _ _ Hne E0) as Hg. cbn [databases files keys] in Hg.
  destruct Hg as (? & ? & ? & ? & ? & _ & _ & _ & Hf & _); [rewrite lookup_insert_eq; by eexists|].
  rewrite Hf. cbn [databases files keys] in *. split; [done|]. split; [intros Hz; by rewrite Hz in E1|]. split; [intros Hz; by rewrite Hz in E2|].
  split; [by apply Hkeep|].
  split; [done|]. split; [done|]. eexists _, _. split; [done|]. split; [|split; [|split; [exact E0|]]].
  - exact Hk.
  - done.
  - cbn. rewrite lookup_insert_eq. by eexists.
Qed.

Lemma next_start m a t st chain : let ini := setting_ini (settings a) in
  load (settings a) = true -> initial_keys_path ini <> [] -> chain_state_db_path ini <> [] ->
  is_directory (files m) (initial_keys_path ini) = true ->
  Forall (fun p => is_directory (files m) p = true) (started_paths ini) ->
  db_opens (files m) (chain_state_db_path ini) = true ->
  databases m !! chain_state_db_path ini = Some chain -> db_get chain STORE_STATE_KEY = Some (encode st) ->
  state_ok st -> ser_old (state a) ->
  initialize t a m = Ret (with_state a st) m.
Proof.
  intros ini Hl Hk Hc Hd Hall Ho Ec Eg Hst Hold. unfold initialize. fold ini. rewrite Hl. cbn [negb].
  assert (E1 : is_empty (initial_keys_path ini) = false) by (by destruct (initial_keys_path ini)).
  assert (E2 : is_empty (chain_state_db_path ini) = false) by (by destruct (chain_state_db_path ini)).
  rewrite E1, E2. unfold get_state, mbind, M_bind. rewrite (directory_exists _ _ Hd), Hd. cbn [negb orb].
  fold (started_paths ini). rewrite ensure_all_done by done. rewrite (open_db_again _ chain) by done.
  unfold read_application_state. rewrite Eg. unfold mbind, M_bind. rewrite state_deserialized by done. done.
Qed.

(** C18: a node that finds no state makes a genesis block of at least ten addresses, in
    their order, and keeps none of the keys it read them from.  Every later start finds the
    same state and changes nothing on the machine.  The blocks handed to the database
    interface have the genesis block under height 0, its hash is the top of the chain, and
    the first block packaged after it is linked to it, with the height, 1, that the
    genesis block has itself. *)
Theorem genesis_restart m a t (a1 : application) m1 : let ini := setting_ini (settings a) in
  chain_state_db_path ini <> block_db_path ini ->
  db_get (default db_new (databases m !! chain_state_db_path ini)) STORE_STATE_KEY = None ->
  initialize t a m = Ret a1 m1 ->
  exists addresses blk, (10 <= length addresses)%nat /\
    genesis_block t (merge_sort bytes_le addresses) = Ok blk /\
    map affair_data (affairs (body blk)) = merge_sort bytes_le addresses /\
    state a1 = genesis_state (block_get_hash blk) /\ keys m1 = keys m /\
    (forall t' a', settings a' = settings a -> ser_old (state a') ->
       initialize t' a' m1 = Ret (with_state a' (state a1)) m1) /\
    (storable blk -> exists c, inject_blocks a1 m1 = Ret c m1 /\ get_block_by_index 0 c = Ret (blk, true) c /\
       get_top_block_hash c = block_get_hash blk /\
       forall b b' _ini blacks, package_next_block_header b _ini blacks c = Ok (true, b') ->
         prev_block_hash (header b') = block_get_hash blk /\ height (header b') = height (header blk)).
Proof.
  intros ini Hne Hnone E.
  destruct (first_start m a t a1 m1 Hne E Hnone) as (Hl & Hk & Hc & Hd & Hall & Ho & m2 & st & -> & Ekeys & Ef & Eg & Hsome).
  destruct (create_genesis_spec _ _ _ _ _ Hne Eg Hsome)
    as (addresses & blk & chain & blocks & out & Hten & Eb & -> & Ef' & Ek & Hob & Ec & Egc & Ebl & Egb & Es).
  destruct (genesis_block_shape _ _ _ Eb) as (Hrec & Hh & Hdata).
  exists addresses, blk. split; [done|]. split; [done|]. split; [done|]. split; [done|]. split; [congruence|].
  assert (Hst : state_ok (genesis_state (block_get_hash blk))) by apply state_genesis_ok, block_hash_wf.
  split.
  - intros t' a' Es' Hold. apply (next_start _ _ _ _ chain); rewrite ?Es'; try done.
  - intros Hsto. exists (connector_block_make (Some blocks) (Some chain) (genesis_state (block_get_hash blk))).
    split; [|split; [|split; [done|]]].
    + unfold inject_blocks. unfold mbind, M_bind. cbn [settings with_state]. fold ini.
      rewrite (open_db_again _ blocks), (open_db_again _ chain) by (done || congruence). done.
    + rewrite <-Hrec at 2. apply (stored_read_at 0 blk _ blocks); [done|done|].
      rewrite (serialized_writes blk _ _ (block_writes blk (proj1 Hsto))) in Es. injection Es as <-. exact Egb.
    + intros b b' _ini blacks Ep. unfold package_next_block_header in Ep. destruct (within_limits _ini b); [|done].
      cbn [negb] in Ep. apply res_bind_ok in Ep as (ra & _ & Ep). apply res_bind_ok in Ep as (rt & _ & [= <-]).
      cbn. split; [done|]. by rewrite Hh.
Qed.
End Start.

(** ** The keys of a node *)
Section Keys.
Context {host : Host} `{HashHandler} {F D K : Type} {pair : K -> K -> Prop} `{System F K} `{OpenSSLLaws K pair}.
Implicit Types (m : machine F D K) (a : application).

(** The application has no key, or two handles of its own that are in use. *)
Definition owns a m : Prop :=
  match private_key a, public_key a with
  | None, None => True
  | Some h1, Some h2 => h1 <> h2 /\ is_Some (keys m !! h1) /\ is_Some (keys m !! h2)
  | _, _ => False
  end.
(** The keys in memory that are not the application's. *)
Definition without_own a (ks : gmap positive K) : gmap positive K :=
  from_option (fun h => delete h) id (public_key a) (from_option (fun h => delete h) id (private_key a) ks).

Lemma free_live h m : is_Some (keys m !! h) -> EVP_PKEY_free h m = Ret tt (with_keys m (delete h (keys m))).
Proof. intros [k E]. unfold EVP_PKEY_free, get_state, mbind, M_bind. by rewrite E. Qed.
Lemma free_dead h m : keys m !! h = None -> EVP_PKEY_free h m = Undefined.
Proof. intros E. unfold EVP_PKEY_free, get_state, mbind, M_bind. by rewrite E. Qed.
Lemma use_dead h m : keys m !! h = None -> use_key h m = Undefined.
Proof. intros E. unfold use_key, get_state, mbind, M_bind. by rewrite E. Qed.

Lemma destroy_owned a m : owns a m -> destroy a m = Ret tt (with_keys m (without_own a (keys m))).
Proof.
  unfold owns, destroy, without_own. destruct (private_key a) as [h1|], (public_key a) as [h2|]; try done.
  - intros (Hne & Hx & Hy). cbn. unfold mbind, M_bind. rewrite free_live by done. rewrite free_live; [done|].
    cbn. by rewrite lookup_delete_ne.
  - intros _. cbn. by destruct m.
Qed.

Lemma new_key_spec k m : exists h, new_key k m = Ret h (with_keys m (<[h := k]> (keys m))) /\ keys m !! h = None.
Proof. exists (fresh (dom (keys m))). split; [reflexivity|]. apply not_elem_of_dom, is_fresh. Qed.

(** Two new keys, and the old ones freed. *)
Lemma replace_keys a m k1 k2 : owns a m -> exists h1 h2 m1 ma mb,
  new_keys [k1; k2] m = Ret [h1; h2] ma /\ free_if (private_key a) ma = Ret tt mb /\ free_if (public_key a) mb = Ret tt m1 /\
  h1 <> h2 /\ files m1 = files m /\ databases m1 = databases m /\
  keys m1 = <[h2 := k2]> (<[h1 := k1]> (without_own a (keys m))) /\
  without_own a (keys m) !! h1 = None /\ without_own a (keys m) !! h2 = None.
Proof.
  intros Ho. destruct (new_key_spec k1 m) as (h1 & E1 & Hf1).
  destruct (new_key_spec k2 (with_keys m (<[h1 := k1]> (keys m)))) as (h2 & E2 & Hf2). cbn [keys with_keys] in *.
  assert (Hne : h1 <> h2) by (intros ->; by rewrite lookup_insert_eq in Hf2).
  rewrite lookup_insert_ne in Hf2 by done.
  set (m2 := with_keys (with_keys m (<[h1 := k1]> (keys m))) (<[h2 := k2]> (<[h1 := k1]> (keys m)))) in *.
  assert (Hfresh : forall x y, keys m !! x = Some y -> x <> h1 /\ x <> h2) by (intros x y E; split; intros ->; congruence).
  assert (Ho2 : owns a m2).
  { revert Ho. unfold owns, m2. cbn [keys with_keys]. destruct (private_key a) as [x|], (public_key a) as [y|]; try done.
    intros (? & [p Hp] & [q Hq]). destruct (Hfresh _ _ Hp), (Hfresh _ _ Hq).
    rewrite !lookup_insert_ne by congruence. eauto. }
  pose proof (destroy_owned a m2 Ho2) as Ed. unfold destroy in Ed. apply ret_bind in Ed as ([] & mb & Ea & Eb).
  exists h1, h2, (with_keys m2 (without_own a (keys m2))), m2, mb.
  split; [|split; [exact Ea|split; [exact Eb|split; [done|split; [done|split; [done|split; [|split]]]]]]].
  - cbn [new_keys]. unfold mbind, M_bind in *. by rewrite E1, E2.
  - revert Ho. unfold owns, without_own, m2. cbn [keys with_keys].
    destruct (private_key a) as [x|], (public_key a) as [y|]; try done.
    intros (? & [p Hp] & [q Hq]). destruct (Hfresh _ _ Hp), (Hfresh _ _ Hq). cbn.
    by rewrite !delete_insert_ne by congruence.
  - unfold without_own. destruct (private_key a), (public_key a); cbn; rewrite ?lookup_delete_None; eauto.
  - unfold without_own. destruct (private_key a), (public_key a); cbn; rewrite ?lookup_delete_None; eauto.
Qed.

Lemma without_own_inserted a b ks h1 h2 k1 k2 : h1 <> h2 -> private_key b = Some h1 -> public_key b = Some h2 ->
  without_own a ks !! h1 = None -> without_own a ks !! h2 = None ->
  without_own b (<[h2 := k2]> (<[h1 := k1]> (without_own a ks))) = without_own a ks.
Proof.
  intros Hne E1 E2 H1n H2n. unfold without_own at 1. rewrite E1, E2. cbn.
  rewrite delete_insert_ne by done. rewrite (delete_insert_id _ h1) by done. by rewrite delete_insert_id.
Qed.

(** Once [load_node_keys] has answered true the application owns two keys, the ones it
    had are freed, and freeing its own leaves what was there before; with a matching pair,
    what [signature_block] and [package_inject_special_affairs] sign verifies under the
    public key, whose hash is the owner of the affair. *)
Theorem node_keys a m (pw : bytes) (a1 : application) m1 :
  owns a m -> load_node_keys pw a m = Ret (true, a1) m1 ->
  owns a1 m1 /\ destroy a1 m1 = Ret tt (with_keys m1 (without_own a (keys m))) /\
  exists sk pk, use_key (default xH (private_key a1)) m1 = Ret sk m1 /\ use_key (default xH (public_key a1)) m1 = Ret pk m1 /\
    public_key_hash a1 = (get_public_key_hash_no_compressed pk (public_key_hash a)).2 /\
    (pair sk pk ->
     (forall blk blk', signature_block blk a1 m1 = Ret (true, blk') m1 -> header blk' = header blk /\ body blk' = body blk /\
        verify pk (data (block_get_hash blk')) (block_signature blk') = true) /\
     (forall now l blk, package_inject_special_affairs now l a1 m1 = Ret (blk, true) m1 ->
        exists air, affairs (body blk) = air :: l /\ owner air = public_key_hash a1 /\
          verify pk (data (affair_get_hash air)) (affair_signature air) = true)).
Proof.
  intros Ho E. unfold load_node_keys in E. read_run E.
  destruct (path_exists _ _); [|done]. destruct (path_exists _ _); [|done]. cbn [negb] in E.
  split_run E. unfold read_private_key_from_file in E0. read_run E0. injection E0 as E0 <-.
  split_run E. unfold read_public_key_from_file in E1. read_run E1. injection E1 as E1 <-.
  destruct r as [sk|], r0 as [pk|]; [|by split_run E..|done].
  destruct (replace_keys a m sk pk Ho) as (h1 & h2 & m' & ma & mb & Ea & Eb & Ec & Hne & _ & _ & Ek & Hn1 & Hn2).
  unfold mbind, M_bind in E. rewrite Ea, Eb, Ec in E.
  assert (Eu1 : use_key h1 m' = Ret sk m').
  { unfold use_key, get_state, mbind, M_bind. rewrite Ek, lookup_insert_ne by done. by rewrite lookup_insert_eq. }
  assert (Eu2 : use_key h2 m' = Ret pk m').
  { unfold use_key, get_state, mbind, M_bind. rewrite Ek. by rewrite lookup_insert_eq. }
  rewrite Eu2 in E. injection E as <- <-. set (a1 := with_key_pair a _ _ _).
  assert (Ho1 : owns a1 m').
  { split; [exact Hne|]. rewrite Ek. rewrite lookup_insert_ne, !lookup_insert_eq by done. split; by eexists. }
  split; [exact Ho1|]. split.
  { rewrite destroy_owned by exact Ho1. rewrite Ek. by rewrite (without_own_inserted a a1 _ h1 h2). }
  exists sk, pk. split; [exact Eu1|]. split; [exact Eu2|]. split; [done|]. intros Hp. split.
  - intros blk blk' Es. unfold signature_block, mbind, M_bind in Es. cbn [private_key a1 with_key_pair] in Es.
    rewrite Eu1 in Es. destruct (signature sk _) as [sg|] eqn:Esg; [|done]. injection Es as <-.
    do 2 (split; [done|]). apply Z.ltb_lt. exact (verify_sign sk pk _ _ Hp Esg).
  - intros now l blk Es. unfold package_inject_special_affairs, mbind, M_bind in Es.
    cbn [private_key public_key a1 with_key_pair] in Es. rewrite Eu1 in Es.
    destruct (signature sk _) as [sg|] eqn:Esg; [|done]. injection Es as <-.
    eexists. split; [reflexivity|]. split; [done|]. apply Z.ltb_lt. exact (verify_sign sk pk _ _ Hp Esg).
Qed.

(** The move constructor frees the keys it has just taken: an application moved from one
    with keys cannot be destroyed, cannot sign, and cannot package, all of it undefined
    behaviour; two copies made by the default copy constructor cannot both be destroyed. *)
Theorem moved_application_unusable a m : owns a m -> private_key a <> None ->
  (exists b other m1, application_move a m = Ret (b, other) m1 /\ destroy other m1 = Ret tt m1 /\
    destroy b m1 = Undefined /\ (forall blk, signature_block blk b m1 = Undefined) /\
    forall now l, package_inject_special_affairs now l b m1 = Undefined) /\
  (destroy a ;; destroy a) m = Undefined.
Proof.
  intros Ho Hk. pose proof (destroy_owned a m Ho) as Ed.
  destruct (private_key a) as [h1|] eqn:E1; [|done].
  assert (Hdead : keys (with_keys m (without_own a (keys m))) !! h1 = None).
  { cbn. unfold without_own. rewrite E1. destruct (public_key a) as [h2|]; cbn; [|by rewrite lookup_delete_eq].
    apply lookup_delete_None. right. by rewrite lookup_delete_eq. }
  assert (Hd : destroy a (with_keys m (without_own a (keys m))) = Undefined).
  { unfold destroy, mbind, M_bind. rewrite E1. cbn [free_if]. by rewrite free_dead. }
  split.
  - exists a, (with_key_pair a None None (public_key_hash a)), (with_keys m (without_own a (keys m))).
    split; [|split; [done|split; [exact Hd|split]]].
    + unfold application_move. unfold destroy in Ed. unfold mbind, M_bind in *.
      destruct (free_if (private_key a) m) as [[] s| |]; [|done..].
      destruct (free_if (public_key a) s) as [[] s'| |]; [|done..]. by injection Ed as ->.
    + intros blk. unfold signature_block, mbind, M_bind. rewrite E1. by rewrite use_dead.
    + intros now l. unfold package_inject_special_affairs, mbind, M_bind. rewrite E1.
      unfold owns in Ho. rewrite E1 in Ho. destruct (public_key a) as [h2|]; [|done]. by rewrite use_dead.
  - unfold mbind at 1, M_bind at 1. by rewrite Ed.
Qed.
End Keys.

(** ** Instances *)
Section Instances.
(** A digest that is quick to evaluate. *)
Definition small_digest (n : nat) (l : bytes) : bytes :=
  le_encode n (foldl (fun h b => (h * 31 + b + 1) mod 2147483647) 7 l).
Local Instance node_digest : HashHandler.
Proof.
  refine {| sha3_256 := small_digest 32; md5 := small_digest 16 |}; intros; unfold small_digest;
    first [apply le_encode_length | apply le_encode_ok].
Defined.
Local Instance node_host : Host := LittleEndian.
Local Instance node_little : LittleEndianHost := eq_refl.

(** A settings file whose lines end in CR LF, with one limit that is too large. *)
Definition sample_ini (section key : bytes) : option bytes :=
  if decide (key = b! "affair_maximum_number_in_block") then Some (b! "4294967296")
  else if decide (key = b! "affair_minimum_number_in_block") then Some (b! "1" ++ [13])
  else if decide (key = b! "transaction_maximum_number_in_block") then Some (b! "500" ++ [13])
  else if decide (key = b! "transaction_minimum_number_in_block") then Some (b! "1" ++ [13])
  else Some (b! "/" ++ key ++ [13]).

Lemma settings_loaded_witness : exists l,
  load_setting_file sample_ini true {| setting_ini := chain_ini_default; load := false |} = Ret true l /\
  affair_maximum_number_in_block (setting_ini l) = 0 /\ block_db_path (setting_ini l) = b! "/blocks".
Proof.
  destruct (settings_loaded sample_ini {| setting_ini := chain_ini_default; load := false |} 4294967296 1 500 1) as (_ & Hl & _).
  - split; [lia|]. exists []. split; [vm_compute; reflexivity|]. discriminate.
  - split; [lia|]. exists [13]. split; [vm_compute; reflexivity|]. by intros b [= <-].
  - split; [lia|]. exists [13]. split; [vm_compute; reflexivity|]. by intros b [= <-].
  - split; [lia|]. exists [13]. split; [vm_compute; reflexivity|]. by intros b [= <-].
  - eexists. split; [apply Hl|split; vm_compute; reflexivity].
    intros sk Hin. repeat (apply elem_of_cons in Hin as [->|Hin]; [vm_compute; by eexists|]). by apply not_elem_of_nil in Hin.
Defined.

(** Directories that all exist, ten public keys and one private key. *)
Local Instance toy_System : System unit toy_key := {
  path_exists _ _ := true;
  is_directory _ _ := true;
  create_directories _ := mret true;
  directory_iterator _ _ := Some (map (fun i => {| entry_path := [i]; entry_is_regular := true; entry_extension := b! ".pub" |})
                                      [9; 3; 5; 1; 7; 2; 8; 4; 6; 0]);
  ini_file _ _ := sample_ini;
  PEM_read_PUBKEY _ path := Some (sample_key (default 0 (head path)) 5);
  PEM_read_PrivateKey _ path _ := Some (sample_key (default 0 (head path)) 5);
}.
Local Instance toy_SystemLaws : SystemLaws unit toy_key.
Proof. by split. Qed.
Local Instance toy_Databases : Databases unit (gmap bytes bytes) := {
  db_opens _ _ := true; db_new := ∅; db_destroy db := db;
}.

Definition sample_settings : chain_ini := load_paths sample_ini chain_ini_default.
Definition first_application : application :=
  Application {| setting_ini := sample_settings; load := true |} start_state None None sample_uint256.
Definition first_machine : machine unit (gmap bytes bytes) toy_key := Machine tt ∅ ∅.

Definition result {S A} (r : outcome S A) (a : A) (s : S) : A * S := match r with Ret a s => (a, s) | _ => (a, s) end.
Definition returns {S A} (r : outcome S A) : bool := match r with Ret _ _ => true | _ => false end.
Lemma returns_ret {S A} (r : outcome S A) a s : returns r = true -> r = Ret (result r a s).1 (result r a s).2.
Proof. by destruct r. Qed.

Lemma genesis_restart_witness :
  let r := result (initialize 5 first_application first_machine) first_application first_machine in
  (exists addresses, (10 <= length addresses)%nat /\ is_ok (genesis_block 5 (merge_sort bytes_le addresses)) = true) /\
  initialize 6 first_application r.2 = Ret (with_state first_application (state r.1)) r.2.
Proof.
  intros r.
  destruct (genesis_restart first_machine first_application 5 r.1 r.2) as (addresses & blk & Hten & Eb & _ & _ & _ & Hr & _).
  - vm_compute. discriminate.
  - vm_compute. reflexivity.
  - pose proof (returns_ret (initialize 5 first_application first_machine) first_application first_machine) as Er.
    fold r in Er. apply Er. vm_compute. reflexivity.
  - split; [exists addresses; split; [exact Hten|by rewrite Eb]|].
    apply Hr; [reflexivity|]. repeat constructor.
Defined.

Definition keys_loaded : (bool * application) * machine unit (gmap bytes bytes) toy_key :=
  result (load_node_keys (b! "secret") first_application first_machine) (false, first_application) first_machine.

Lemma node_keys_witness :
  owns keys_loaded.1.2 keys_loaded.2 /\
  destroy keys_loaded.1.2 keys_loaded.2 = Ret tt (with_keys keys_loaded.2 ∅).
Proof.
  destruct (node_keys (pair := fun sk pk => toy_xy sk = toy_xy pk) first_application first_machine (b! "secret") keys_loaded.1.2 keys_loaded.2)
    as (Ho & Ed & _); [exact I| |split; [exact Ho|exact Ed]].
  vm_compute. reflexivity.
Defined.

Lemma moved_application_unusable_witness :
  exists b other m1, application_move keys_loaded.1.2 keys_loaded.2 = Ret (b, other) m1 /\ destroy b m1 = Undefined.
Proof.
  destruct (moved_application_unusable keys_loaded.1.2 keys_loaded.2) as [(b & other & m1 & E & _ & Hd & _) _].
  - vm_compute. split; [discriminate|]. split; by eexists.
  - vm_compute. discriminate.
  - exists b, other, m1. split; [exact E|exact Hd].
Defined.
End Instances.
