(* ===== verification/TimerTree.v ===== *)
(** * The timer tree: [timer_tree.cpp]

    Tasks in a [std::set] ordered by expiry and number.  A callback is a label; whether
    it throws is a parameter, and a callback that uses the tree it is called from is not
    modelled.  Times are milliseconds, far from the ends of [time_t]. *)
From S2P Require Import Prelude.

Record TimeNode {L : Type} := { ID : Z; expire : Z; callBack : L }.
Arguments TimeNode L : clear implicits.

(** [TimeNodeBase]: what [setTimeout] returns. *)
Record TimeNodeBase := { base_ID : Z; base_expire : Z }.

(** [operator <] of the bases. *)
Definition base_lt (me other : TimeNodeBase) : bool :=
  if base_expire me <? base_expire other then true
  else if base_expire other <? base_expire me then false
  else base_ID me <? base_ID other.

Record TimerTree {L : Type} := { initID : Z; nodes : list (TimeNode L) }.
Arguments TimerTree L : clear implicits.

Section Tree.
Context {L : Type}.
Implicit Types (n : TimeNode L) (l : list (TimeNode L)) (t : TimerTree L).

Definition base n : TimeNodeBase := {| base_ID := ID n; base_expire := expire n |}.

(** ** [std::set], as the list of its elements in order *)
Fixpoint set_insert n l : list (TimeNode L) :=
  match l with
  | [] => [n]
  | y :: l' =>
      if base_lt (base n) (base y) then n :: l
      else if base_lt (base y) (base n) then y :: set_insert n l'
      else l
  end.
(** [find] and [erase]: the rest, if an equivalent element is there. *)
Fixpoint set_extract (b : TimeNodeBase) l : option (list (TimeNode L)) :=
  match l with
  | [] => None
  | y :: l' =>
      if base_lt (base y) b then rest ← set_extract b l'; Some (y :: rest)
      else if base_lt b (base y) then None
      else Some l'
  end.

(** ** The operations *)
Definition TimerTree_new : TimerTree L := {| initID := 0; nodes := [] |}.

Definition GenTimeTaskID t : Z * TimerTree L :=
  let id := u64 (initID t + 1) in (id, {| initID := id; nodes := nodes t |}).

(** The three overloads bind the callback in their own way and are the same otherwise. *)
Definition setTimeout (now milliseconds : Z) (callBack : L) t : TimeNodeBase * TimerTree L :=
  let '(id, t) := GenTimeTaskID t in
  let tNode := {| ID := id; expire := now + milliseconds; callBack := callBack |} in
  (base tNode, {| initID := initID t; nodes := set_insert tNode (nodes t) |}).

Definition clearTimeout (nodeBase : TimeNodeBase) t : bool * TimerTree L :=
  match set_extract nodeBase (nodes t) with
  | Some l => (true, {| initID := initID t; nodes := l |})
  | None => (false, t)
  end.

Definition checkTimeout (now : Z) t : Z :=
  match nodes t with
  | [] => -1
  | n :: _ => let diff := expire n - now in if 0 <? diff then diff else 0
  end.

(** What a run ends in, after the callbacks it called. *)
Inductive run_end := Returned (b : bool) | Threw.

Variable throws : L -> bool.

Definition runTask (now : Z) t : list (TimeNode L) * run_end * TimerTree L :=
  match nodes t with
  | [] => ([], Returned false, t)
  | n :: l =>
      if expire n - now <=? 0 then
        if throws (callBack n) then ([n], Threw, t)
        else ([n], Returned true, {| initID := initID t; nodes := l |})
      else ([], Returned false, t)
  end.

Fixpoint run_loop (current : Z) l : list (TimeNode L) * run_end * list (TimeNode L) :=
  match l with
  | [] => ([], Returned true, [])
  | n :: l' =>
      if expire n - current <=? 0 then
        if throws (callBack n) then ([n], Threw, l)
        else let '(ran, e, rest) := run_loop current l' in (n :: ran, e, rest)
      else ([], Returned true, l)
  end.
Definition runTaskLoop (now : Z) t : list (TimeNode L) * run_end * TimerTree L :=
  let '(ran, e, rest) := run_loop now (nodes t) in (ran, e, {| initID := initID t; nodes := rest |}).

(** ** Sequences of calls *)
Inductive call :=
| CallSet (now milliseconds : Z) (callBack : L)
| CallClear (nodeBase : TimeNodeBase)
| CallRunTask (now : Z)
| CallLoop (now : Z).

(** The nodes whose callbacks a call calls, and the tree after it. *)
Definition perform (c : call) t : list (TimeNode L) * TimerTree L :=
  match c with
  | CallSet now ms cb => ([], (setTimeout now ms cb t).2)
  | CallClear b => ([], (clearTimeout b t).2)
  | CallRunTask now => let '(ran, _, t) := runTask now t in (ran, t)
  | CallLoop now => let '(ran, _, t) := runTaskLoop now t in (ran, t)
  end.
Fixpoint perform_all (cs : list call) t : list (TimeNode L) * TimerTree L :=
  match cs with
  | [] => ([], t)
  | c :: cs => let '(ran, t) := perform c t in
               let '(more, t) := perform_all cs t in (ran ++ more, t)
  end.

(** ** The order *)
Definition node_before n n' : Prop := base_lt (base n) (base n') = true.

Lemma base_lt_spec a b : base_lt a b = true <-> base_expire a < base_expire b \/ base_expire a = base_expire b /\ base_ID a < base_ID b.
Proof.
  unfold base_lt. destruct (base_expire a <? base_expire b) eqn:E1; [lia|].
  destruct (base_expire b <? base_expire a) eqn:E2; lia.
Qed.

#[local] Instance node_before_trans : Transitive node_before.
Proof. intros a b c. unfold node_before. rewrite !base_lt_spec. lia. Qed.

Lemma equal_bases a b : base_lt a b = false -> base_lt b a = false -> a = b.
Proof.
  rewrite <-!not_true_iff_false, !base_lt_spec. destruct a, b. cbn. intros. f_equal; lia.
Qed.

Lemma lt_not_before a b : base_lt a b = true -> base_lt b a = false.
Proof. rewrite <-not_true_iff_false, !base_lt_spec. lia. Qed.

(** ** The set *)
Lemma set_insert_perm n l : ID n ∉ map ID l -> set_insert n l ≡ₚ n :: l.
Proof.
  induction l as [|y l IH]; intros Hn; cbn; [done|]. cbn in Hn. apply not_elem_of_cons in Hn as [Hy Hn].
  destruct (base_lt (base n) (base y)) eqn:E1; [done|].
  destruct (base_lt (base y) (base n)) eqn:E2; [rewrite IH by done; apply Permutation_swap|].
  pose proof (equal_bases _ _ E1 E2) as Eb. apply (f_equal base_ID) in Eb. cbn in Eb. congruence.
Qed.

Lemma set_insert_sorted n l : StronglySorted node_before l -> StronglySorted node_before (set_insert n l).
Proof.
  induction 1 as [|y l Hs IH Hy]; cbn; [repeat constructor|].
  destruct (base_lt (base n) (base y)) eqn:E1.
  { constructor; [by constructor|]. constructor; [exact E1|].
    eapply Forall_impl; [exact Hy|]. intros z Hz. by transitivity y. }
  destruct (base_lt (base y) (base n)) eqn:E2; [|by constructor].
  constructor; [exact IH|]. clear -Hy E2. induction l as [|z l IH]; cbn; [by repeat constructor|].
  apply Forall_cons in Hy as [Hz Hl]. repeat case_match; repeat constructor; auto.
Qed.

Lemma set_extract_spec b l : StronglySorted node_before l ->
  match set_extract b l with
  | Some rest => exists n, base n = b /\ (l ≡ₚ n :: rest) /\ StronglySorted node_before rest
  | None => b ∉ map base l
  end.
Proof.
  induction 1 as [|y l Hs IH Hy]; cbn; [by apply not_elem_of_nil|].
  destruct (base_lt (base y) b) eqn:E1.
  - destruct (set_extract b l) as [rest|]; cbn.
    + destruct IH as (n & Eb & Hp & Hr). exists n. split; [done|]. split; [rewrite Hp; apply Permutation_swap|].
      constructor; [done|]. rewrite Hp in Hy. by apply Forall_cons in Hy as [_ Hy].
    + apply not_elem_of_cons. split; [intros ->|done]. by rewrite (lt_not_before _ _ E1) in E1.
  - destruct (base_lt b (base y)) eqn:E2.
    + apply not_elem_of_cons. split; [intros ->; by rewrite E1 in E2|].
      intros (z & -> & Hz)%list_elem_of_fmap. pose proof (proj1 (Forall_forall _ _) Hy z Hz) as Hb.
      unfold node_before in Hb. rewrite (lt_not_before _ _ E2) in E1. rewrite (lt_not_before _ _ Hb) in E2. done.
    + exists y. split; [symmetry; by apply equal_bases|]. done.
Qed.

Definition due (now : Z) n : bool := expire n <=? now.

Lemma filter_none (p : TimeNode L -> bool) l : (forall x, x ∈ l -> p x = false) ->
  List.filter p l = [] /\ List.filter (fun x => negb (p x)) l = l.
Proof.
  induction l as [|x l IH]; intros Hl; [done|]. cbn. rewrite (Hl x) by left. cbn.
  destruct IH as [-> ->]; [|done]. intros y Hy. apply Hl. by right.
Qed.

Lemma run_loop_spec now l : (forall cb, throws cb = false) -> StronglySorted node_before l ->
  run_loop now l = (List.filter (due now) l, Returned true, List.filter (fun n => negb (due now n)) l).
Proof.
  intros Ht. induction 1 as [|n l Hs IH Hn]; cbn; [done|]. rewrite Ht, IH.
  assert (E : (expire n - now <=? 0) = due now n) by (unfold due; lia). rewrite E.
  destruct (due now n) eqn:Ed; [done|]. cbn.
  destruct (filter_none (due now) l) as [-> ->]; [|done]. intros x Hx.
  pose proof (proj1 (Forall_forall _ _) Hn x Hx) as Hb. unfold node_before in Hb.
  rewrite base_lt_spec in Hb. cbn in Hb. unfold due in *. lia.
Qed.

(** ** The invariant *)
Definition tree_ok t : Prop :=
  StronglySorted node_before (nodes t) /\ NoDup (map ID (nodes t)) /\
  Forall (fun n => 1 <= ID n <= initID t) (nodes t) /\ 0 <= initID t < 2 ^ 64.

Lemma tree_new_ok : tree_ok TimerTree_new.
Proof. repeat split; try constructor; cbn; lia. Qed.

Lemma same_id t n n' : tree_ok t -> n ∈ nodes t -> n' ∈ nodes t -> ID n = ID n' -> n = n'.
Proof.
  intros (_ & Hd & _ & _). induction (nodes t) as [|x l IH]; [by intros ?%not_elem_of_nil|].
  cbn in Hd. apply NoDup_cons in Hd as [Hx Hd].
  intros [->|Hn]%elem_of_cons [->|Hn']%elem_of_cons E; [done| | |by apply IH].
  - exfalso. apply Hx. rewrite E. by apply list_elem_of_fmap_2.
  - exfalso. apply Hx. rewrite <-E. by apply list_elem_of_fmap_2.
Qed.

Lemma tree_ok_part t l : tree_ok t -> StronglySorted node_before l -> (exists k, (nodes t ≡ₚ k ++ l)) ->
  tree_ok {| initID := initID t; nodes := l |}.
Proof.
  intros (_ & Hd & Hb & Hi) Hs [k Hp]. rewrite Hp in Hd, Hb. rewrite map_app in Hd.
  apply NoDup_app in Hd as (_ & _ & Hd). apply Forall_app in Hb as [_ Hb]. done.
Qed.

Lemma setTimeout_ok now ms cb t : tree_ok t -> initID t + 1 < 2 ^ 64 -> exists n,
  ID n = initID t + 1 /\ expire n = now + ms /\ callBack n = cb /\
  (setTimeout now ms cb t).1 = base n /\ initID (setTimeout now ms cb t).2 = initID t + 1 /\
  (nodes (setTimeout now ms cb t).2 ≡ₚ n :: nodes t) /\ tree_ok (setTimeout now ms cb t).2.
Proof.
  intros (Hs & Hd & Hb & Hi) Hlt. unfold setTimeout, GenTimeTaskID. cbn.
  rewrite (wrap_small 64 (initID t + 1)) by (unfold is_uint; lia).
  set (n := {| ID := initID t + 1; expire := now + ms; callBack := cb |}).
  assert (Hn : ID n ∉ map ID (nodes t)).
  { intros (x & E & Hx)%list_elem_of_fmap. pose proof (proj1 (Forall_forall _ _) Hb x Hx). cbn in *. lia. }
  exists n. repeat (split; [done|]). split; [by apply set_insert_perm|]. split; [by apply set_insert_sorted|].
  cbn [nodes initID]. rewrite (set_insert_perm _ _ Hn). split; [by constructor|]. split; [|lia].
  constructor; [cbn; lia|]. eapply Forall_impl; [exact Hb|]. cbn. lia.
Qed.

Lemma clearTimeout_ok b t : tree_ok t ->
  tree_ok (clearTimeout b t).2 /\ initID (clearTimeout b t).2 = initID t /\
  if (clearTimeout b t).1 then exists n, base n = b /\ (nodes t ≡ₚ n :: nodes (clearTimeout b t).2)
  else (b ∉ map base (nodes t)) /\ (clearTimeout b t).2 = t.
Proof.
  intros Hok. pose proof Hok as (Hs & _). unfold clearTimeout. pose proof (set_extract_spec b _ Hs) as Hx.
  destruct (set_extract b (nodes t)) as [rest|]; cbn; [|done].
  destruct Hx as (n & Eb & Hp & Hr). split; [|eauto]. apply tree_ok_part; [done|done|]. exists [n]. exact Hp.
Qed.

Lemma runTaskLoop_ok now t : (forall cb, throws cb = false) -> tree_ok t ->
  runTaskLoop now t = (List.filter (due now) (nodes t), Returned true,
    {| initID := initID t; nodes := List.filter (fun n => negb (due now n)) (nodes t) |}) /\
  tree_ok (runTaskLoop now t).2.
Proof.
  intros Ht Hok. pose proof Hok as (Hs & _). unfold runTaskLoop. rewrite (run_loop_spec now _ Ht Hs). split; [done|].
  apply tree_ok_part; [done| |].
  - clear -Hs. induction Hs as [|n l Hs IH Hn]; cbn; [constructor|]. destruct (negb _); [|done]. constructor; [done|].
    apply Forall_forall. intros x Hx. apply (proj1 (Forall_forall _ _) Hn). apply list_elem_of_In in Hx.
    apply list_elem_of_In. by apply filter_In in Hx as [? _].
  - exists (List.filter (due now) (nodes t)). clear. induction (nodes t) as [|n l IH]; [done|]. cbn.
    destruct (due now n); cbn; [by rewrite <-IH|]. rewrite <-Permutation_middle. by rewrite <-IH.
Qed.

(** What a call does to the nodes. *)
Lemma perform_spec c t ran t' : (forall cb, throws cb = false) -> tree_ok t -> initID t + 1 < 2 ^ 64 ->
  perform c t = (ran, t') ->
  tree_ok t' /\ initID t <= initID t' <= initID t + 1 /\ NoDup ran /\
  (forall n, n ∈ nodes t -> n ∈ nodes t' \/ n ∈ ran \/ c = CallClear (base n)) /\
  (forall n, n ∈ nodes t' -> n ∈ nodes t \/ ID n = initID t + 1) /\
  (forall n, n ∈ ran -> n ∈ nodes t /\ (n ∉ nodes t') /\ exists r, (c = CallLoop r \/ c = CallRunTask r) /\ expire n <= r).
Proof.
  intros Ht Hok Hlt E. pose proof Hok as (Hs & Hd & Hb & Hi).
  assert (Hnd : NoDup (nodes t)) by (by eapply NoDup_fmap_1).
  destruct c as [now ms cb|b|now|now]; cbn [perform] in E.
  - apply pair_eq in E as [<- <-]. destruct (setTimeout_ok now ms cb t Hok Hlt) as (n & En & _ & _ & _ & Ei & Hp & Hok').
    split; [done|]. split; [lia|]. split; [constructor|]. split; [|split; [|by intros ? ?%not_elem_of_nil]].
    + intros x Hx. left. rewrite Hp. by right.
    + intros x Hx. rewrite Hp in Hx. apply elem_of_cons in Hx as [->|Hx]; [by right|by left].
  - apply pair_eq in E as [<- <-]. destruct (clearTimeout_ok b t Hok) as (Hok' & Ei & Hc). split; [done|]. split; [lia|].
    split; [constructor|]. split; [|split; [|by intros ? ?%not_elem_of_nil]].
    + intros x Hx. destruct (clearTimeout b t) as [[] t']; cbn in *.
      * destruct Hc as (n & Eb & Hp). rewrite Hp in Hx. apply elem_of_cons in Hx as [->|Hx]; [|by left].
        right. right. by rewrite Eb.
      * destruct Hc as [_ ->]. by left.
    + intros x Hx. left. destruct (clearTimeout b t) as [[] t']; cbn in *.
      * destruct Hc as (n & Eb & Hp). rewrite Hp. by right.
      * by destruct Hc as [_ ->].
  - unfold runTask in E. destruct (nodes t) as [|n l] eqn:El.
    { injection E as <- <-. rewrite El. split; [done|]. split; [lia|]. split; [constructor|].
      split; [by left|]. split; [by left|]. by intros ? ?%not_elem_of_nil. }
    destruct (expire n - now <=? 0) eqn:Ed.
    + rewrite Ht in E. injection E as <- <-. split.
      { apply tree_ok_part; [done|by apply StronglySorted_inv in Hs as [? _]|]. exists [n]. by rewrite El. }
      cbn. split; [lia|]. split; [apply NoDup_singleton|]. apply NoDup_cons in Hnd as [Hn _].
      split; [|split].
      * intros x [->|Hx]%elem_of_cons; [right; left; by left|by left].
      * intros x Hx. left. by right.
      * intros x ->%list_elem_of_singleton. split; [by left|]. split; [done|]. exists now. split; [by right|lia].
    + injection E as <- <-. rewrite El. split; [done|]. split; [lia|]. split; [constructor|].
      split; [by left|]. split; [by left|]. by intros ? ?%not_elem_of_nil.
  - destruct (runTaskLoop_ok now t Ht Hok) as [Er Hok']. rewrite Er in *. injection E as <- <-. cbn in *.
    split; [done|]. split; [lia|]. split; [|split; [|split]].
    + apply NoDup_ListNoDup, List.NoDup_filter, NoDup_ListNoDup. done.
    + intros x Hx. rewrite !list_elem_of_In, !filter_In in *.
      destruct (due now x); [right; left|left]; done.
    + intros x Hx. left. rewrite list_elem_of_In, filter_In in Hx. rewrite list_elem_of_In. by destruct Hx.
    + intros x Hx. rewrite !list_elem_of_In, !filter_In in *. destruct Hx as [Hx Hdue]. split; [done|].
      split; [intros [_ Hf]; by rewrite Hdue in Hf|]. exists now. split; [by left|]. unfold due in Hdue. lia.
Qed.

(** The same for a sequence of calls that does not clear [n]. *)
Lemma perform_all_spec cs t ran t' : (forall cb, throws cb = false) -> tree_ok t ->
  initID t + Z.of_nat (length cs) < 2 ^ 64 -> perform_all cs t = (ran, t') ->
  tree_ok t' /\ initID t <= initID t' <= initID t + Z.of_nat (length cs) /\
  (forall n, n ∈ nodes t -> CallClear (base n) ∉ cs -> n ∈ nodes t' \/ n ∈ ran) /\
  (forall n, n ∈ ran -> (n ∉ nodes t') /\ (ID n <= initID t -> n ∈ nodes t) /\
     exists r, (CallLoop r ∈ cs \/ CallRunTask r ∈ cs) /\ expire n <= r) /\
  (forall n, n ∈ nodes t' -> ID n <= initID t -> n ∈ nodes t) /\ NoDup ran.
Proof.
  intros Ht. revert t ran. induction cs as [|c cs IH]; intros t ran Hok Hlt E.
  { cbn in E. injection E as <- <-. split; [done|]. split; [cbn; lia|]. split; [by left|].
    split; [by intros ? ?%not_elem_of_nil|]. split; [done|constructor]. }
  cbn [perform_all] in E. destruct (perform c t) as [ran1 t1] eqn:E1. destruct (perform_all cs t1) as [ran2 t2] eqn:E2.
  injection E as <- <-. cbn [length] in Hlt.
  destruct (perform_spec c t ran1 t1 Ht Hok) as (Hok1 & Hi1 & Hd1 & Hk1 & Hnew1 & Hr1); [lia|done|].
  destruct (IH t1 ran2 Hok1 ltac:(lia) E2) as (Hok2 & Hi2 & Hk2 & Hr2 & Hnew2 & Hd2).
  assert (Hold : forall n, n ∈ nodes t1 -> ID n <= initID t -> n ∈ nodes t).
  { intros n Hn Hid. destruct (Hnew1 n Hn); [done|lia]. }
  assert (Hgone : forall n, n ∈ ran1 -> (n ∉ nodes t2) /\ n ∉ ran2).
  { intros n Hn. destruct (Hr1 n Hn) as (Hin & Hout & _). pose proof Hok as (_ & _ & Hb & _).
    pose proof (proj1 (Forall_forall _ _) Hb n Hin) as Hid. cbn in Hid.
    split; intros Hx; apply Hout; [apply Hnew2; [done|lia]|]. destruct (Hr2 n Hx) as (_ & Ho & _). apply Ho. lia. }
  split; [done|]. split; [cbn [length]; lia|]. split; [|split; [|split]].
  - intros n Hn Hc. apply not_elem_of_cons in Hc as [Hc Hcs].
    destruct (Hk1 n Hn) as [Hn1|[Hr|Hc']]; [|right; apply elem_of_app; by left|by rewrite Hc' in Hc].
    destruct (Hk2 n Hn1 Hcs) as [?|?]; [by left|right; apply elem_of_app; by right].
  - intros n [Hn|Hn]%elem_of_app.
    + destruct (Hr1 n Hn) as (Hin & _ & r & Hc & Hr). split; [by apply Hgone|]. split; [done|].
      exists r. split; [|done]. destruct Hc as [Hc|Hc]; rewrite Hc; [left|right]; by left.
    + destruct (Hr2 n Hn) as (Hout & Ho & r & Hc & Hr). split; [done|]. split; [intros Hid; apply Hold; [apply Ho|]; lia|].
      exists r. split; [|done]. destruct Hc; [left|right]; by right.
  - intros n Hn Hid. apply Hold; [apply Hnew2; [done|lia]|done].
  - apply NoDup_app. split; [done|]. split; [|done]. intros n Hn. by apply Hgone.
Qed.

(** ** Theorems *)

(** The operations on a tree: [setTimeout] adds one node, with a number no node has and
    the expiry asked for; [clearTimeout] removes the node it is given and says whether it
    was there; [checkTimeout] is the time until the first node is due, 0 if one is and -1
    if there is none; [runTaskLoop] calls the callbacks of the due nodes, in the order of
    the tree, and leaves the others; all of them keep the order of the tree. *)
Theorem tree_operations_correct t (now ms : Z) (cb : L) (b : TimeNodeBase) : tree_ok t -> initID t + 1 < 2 ^ 64 ->
  (exists n, (setTimeout now ms cb t).1 = base n /\ expire n = now + ms /\ callBack n = cb /\
     (ID n ∉ map ID (nodes t)) /\ (nodes (setTimeout now ms cb t).2 ≡ₚ n :: nodes t) /\ tree_ok (setTimeout now ms cb t).2) /\
  (tree_ok (clearTimeout b t).2 /\ ((clearTimeout b t).1 = true <-> b ∈ map base (nodes t)) /\
     forall n, n ∈ nodes (clearTimeout b t).2 <-> n ∈ nodes t /\ base n <> b) /\
  ((nodes t = [] <-> checkTimeout now t = -1) /\ (forall n, n ∈ nodes t -> checkTimeout now t <= Z.max 0 (expire n - now)) /\
     (nodes t <> [] -> exists n, n ∈ nodes t /\ checkTimeout now t = Z.max 0 (expire n - now))) /\
  ((forall cb, throws cb = false) -> exists t', tree_ok t' /\ runTaskLoop now t =
     (List.filter (due now) (nodes t), Returned true, t') /\ nodes t' = List.filter (fun n => negb (due now n)) (nodes t)).
Proof.
  intros Hok Hlt. pose proof Hok as (Hs & Hd & Hb & Hi). split; [|split; [|split]].
  - destruct (setTimeout_ok now ms cb t Hok Hlt) as (n & En & Ee & Ec & E1 & _ & Hp & Hok').
    exists n. repeat (split; [done|]). split; [|done]. intros (x & Ex & Hx)%list_elem_of_fmap.
    pose proof (proj1 (Forall_forall _ _) Hb x Hx) as Hid. cbn in Hid. lia.
  - destruct (clearTimeout_ok b t Hok) as (Hok' & _ & Hc). split; [done|].
    destruct (clearTimeout b t) as [[] t']; cbn in *.
    + destruct Hc as (n & <- & Hp). split; [split; [intros _|done]; rewrite Hp; by left|].
      intros x. rewrite Hp in Hd. apply NoDup_cons in Hd as [Hn _]. rewrite Hp. split.
      * intros Hx. split; [by right|]. intros E. apply (f_equal base_ID) in E. cbn in E. apply Hn. rewrite <-E.
        by apply list_elem_of_fmap_2.
      * intros [[->|Hx]%elem_of_cons Hne]; done.
    + destruct Hc as [Hn ->]. split; [split; [done|intros Hx; by apply Hn in Hx]|].
      intros x. split; [|by intros [? _]]. intros Hx. split; [done|]. intros <-. by apply Hn, list_elem_of_fmap_2.
  - unfold checkTimeout. destruct (nodes t) as [|n l] eqn:El; [split; [done|]; split; [by intros ? ?%not_elem_of_nil|done]|].
    assert (E : (if 0 <? expire n - now then expire n - now else 0) = Z.max 0 (expire n - now))
      by (destruct (0 <? expire n - now) eqn:E; lia).
    cbv zeta. rewrite E. split; [split; [done|lia]|]. split; [|intros _; exists n; split; [by left|done]].
    apply StronglySorted_inv in Hs as [_ Hs]. intros x [->|Hx]%elem_of_cons; [done|].
    pose proof (proj1 (Forall_forall _ _) Hs x Hx) as Hb'. unfold node_before in Hb'. rewrite base_lt_spec in Hb'. cbn in Hb'. lia.
  - intros Ht. destruct (runTaskLoop_ok now t Ht Hok) as [Er Hok']. rewrite Er in *. by eexists.
Qed.

(** C22: a task runs exactly once: as long as it is not cleared and the clock has not reached
    its expiry no call runs it and it stays in the tree, the first [runTaskLoop] from then
    on runs it, and nothing runs it again. *)
Theorem timeout_runs_once t (now ms r : Z) (cb : L) (before after : list call) : (forall cb, throws cb = false) -> tree_ok t ->
  initID t + Z.of_nat (length before + length after + 2) < 2 ^ 64 ->
  (forall r', CallLoop r' ∈ before \/ CallRunTask r' ∈ before -> r' < now + ms) -> now + ms <= r ->
  CallClear (setTimeout now ms cb t).1 ∉ before ->
  exists n, callBack n = cb /\ expire n = now + ms /\ base n = (setTimeout now ms cb t).1 /\
    let '(ran1, t1) := perform_all before (setTimeout now ms cb t).2 in
    let '(ran2, t2) := perform (CallLoop r) t1 in
    let '(ran3, t3) := perform_all after t2 in
    (n ∉ ran1) /\ n ∈ nodes t1 /\ n ∈ ran2 /\ NoDup ran2 /\ (n ∉ nodes t2) /\ (n ∉ ran3) /\ n ∉ nodes t3.
Proof.
  intros Ht Hok Hlt Hbefore Hr Hclear. assert (initID t + 1 < 2 ^ 64) by lia.
  destruct (setTimeout_ok now ms cb t Hok) as (n & En & Ee & Ec & E1 & Ei & Hp & Hok'); [done|].
  exists n. split; [done|]. split; [done|]. split; [done|]. rewrite E1 in Hclear.
  destruct (setTimeout now ms cb t).2 as [i l] eqn:Et. rewrite <-Et in *. clear Et i l.
  destruct (perform_all before _) as [ran1 t1] eqn:Eb. destruct (perform _ t1) as [ran2 t2] eqn:El.
  destruct (perform_all after t2) as [ran3 t3] eqn:Ea.
  destruct (perform_all_spec before _ _ _ Ht Hok' ltac:(lia) Eb) as (Hok1 & Hi1 & Hk1 & Hr1 & _ & _).
  assert (Hn0 : n ∈ nodes (setTimeout now ms cb t).2) by (rewrite Hp; by left).
  assert (Hn1 : n ∉ ran1). { intros Hx. destruct (Hr1 n Hx) as (_ & _ & r' & Hc & He). apply Hbefore in Hc. lia. }
  destruct (Hk1 n Hn0 Hclear) as [Hin|]; [|done].
  destruct (perform_spec _ _ _ _ Ht Hok1 ltac:(lia) El) as (Hok2 & Hi2 & Hd2 & Hk2 & _ & Hr2).
  assert (Hrun : n ∈ ran2).
  { cbn [perform] in El. destruct (runTaskLoop_ok r t1 Ht Hok1) as [Er _]. rewrite Er in El. injection El as <- _.
    apply list_elem_of_In, filter_In. split; [by apply list_elem_of_In|]. unfold due. lia. }
  destruct (Hr2 n Hrun) as (_ & Hout & _).
  destruct (perform_all_spec after _ _ _ Ht Hok2 ltac:(lia) Ea) as (_ & _ & _ & Hr3 & Hnew3 & _).
  repeat (split; [done|]). split; intros Hx; apply Hout.
  - destruct (Hr3 n Hx) as (_ & Ho & _). apply Ho. lia.
  - apply Hnew3; [done|lia].
Qed.
End Tree.

(** ** Instances *)

(** A throwing callback is called by every run, and the tasks behind it are not. *)
Example throwing_task_stays :
  let t := (setTimeout 0 5 2%nat (setTimeout 0 1 1%nat TimerTree_new).2).2 in
  perform (fun cb => (cb =? 1)%nat) (CallLoop 100) t = (take 1 (nodes t), t).
Proof. vm_compute. reflexivity. Qed.

Definition no_throw (cb : nat) : bool := false.
Definition two_tasks : TimerTree nat := (setTimeout 0 5 2%nat (setTimeout 0 1 1%nat TimerTree_new).2).2.
Lemma two_tasks_ok : tree_ok two_tasks.
Proof.
  unfold two_tasks. edestruct (setTimeout_ok 0 1 1%nat TimerTree_new) as (? & _ & _ & _ & _ & _ & _ & Hok).
  - apply tree_new_ok.
  - done.
  - edestruct (setTimeout_ok 0 5 2%nat (setTimeout 0 1 1%nat TimerTree_new).2) as (? & _ & _ & _ & _ & _ & _ & Hok');
      [exact Hok|done|exact Hok'].
Qed.

Lemma tree_operations_correct_witness : checkTimeout 3 two_tasks = 0 /\
  exists t', runTaskLoop no_throw 3 two_tasks = (take 1 (nodes two_tasks), Returned true, t') /\ length (nodes t') = 1%nat.
Proof.
  destruct (tree_operations_correct no_throw two_tasks 3 1 7%nat {| base_ID := 1; base_expire := 1 |} two_tasks_ok eq_refl)
    as (_ & _ & _ & Hl). split; [reflexivity|].
  destruct (Hl (fun _ => eq_refl)) as (t' & _ & E & En). exists t'. split; [exact E|]. rewrite En. reflexivity.
Defined.

Lemma timeout_runs_once_witness : exists n, callBack n = 9%nat /\
  let '(ran1, t1) := perform_all no_throw [CallLoop 3; CallClear {| base_ID := 2; base_expire := 5 |}] (setTimeout 2 8 9%nat two_tasks).2 in
  n ∈ (perform no_throw (CallLoop 12) t1).1.
Proof.
  destruct (timeout_runs_once no_throw two_tasks 2 8 12 9%nat [CallLoop 3; CallClear {| base_ID := 2; base_expire := 5 |}] [])
    as (n & Ec & _ & _ & Hr); [done|exact two_tasks_ok|vm_compute; reflexivity| |lia| |].
  - intros r' [Hx|Hx]; repeat (apply elem_of_cons in Hx as [Hx|Hx]; [first [discriminate | injection Hx as ->; lia]|]); by apply not_elem_of_nil in Hx.
  - intros Hx. repeat (apply elem_of_cons in Hx as [Hx|Hx]; [discriminate|]). by apply not_elem_of_nil in Hx.
  - exists n. split; [exact Ec|]. revert Hr. destruct (perform_all _ _ _) as [ran1 t1].
    destruct (perform _ _ t1) as [ran2 t2]. destruct (perform_all _ _ t2) as [ran3 t3]. intros (_ & _ & Hin & _). exact Hin.
Defined.
