(* ===== verification/TimerWheel.v ===== *)
(** * The timer wheel: [timer_wheel.cpp]

    Five wheels of buckets.  A task is a shared object: the buckets hold references to a
    store, so that cancelling a task is seen wherever the task is.  The thread of the
    wheel is a sequence of turns, one for every tick, and the calls of other threads are
    taken between two turns.  Times are milliseconds, far from the ends of 64 bits. *)
From S2P Require Import Prelude.

Definition tickGap : Z := 5.
Definition LevelOneSize : Z := 256.
Definition LevelTwoSize : Z := 64.   (** and of the three levels above *)
Definition checkOne : Z := 255.
Definition checkTwo : Z := 16128.
Definition checkThree : Z := 1032192.
Definition checkFour : Z := 66060288.
Definition checkFive : Z := 4227858432.

Record TimerWheelTask {L : Type} := {
  callBack : L;
  expire : Z;
  addDateTime : Z;
  isCancel : bool;
  isDuplicate : bool;
  times : Z;
  delayInterval : Z;
  ID : Z;
}.
Arguments TimerWheelTask L : clear implicits.

Record Bucket := { initID : Z; tasks : list positive }.

(** [levels] holds the five arrays: the level and the index of a bucket are its place. *)
Record TimerWheel {L : Type} := {
  store : gmap positive (TimerWheelTask L);
  tick : Z;
  startDataTime : Z;
  levels : list (list Bucket);
}.
Arguments TimerWheel L : clear implicits.

(** The code's exceptions of [setTimeout] and [setInterval]. *)
Inductive wheel_error := DelayOutOfRange | DelayNotStandardized | IntervalTooShort.

(** A callback that was called, or handed to the pool, in the turn of a tick. *)
Record wheel_event := { at_tick : Z; event_task : positive; by_pool : bool }.

Section Wheel.
Context {L : Type}.
Implicit Types (w : TimerWheel L) (task : TimerWheelTask L).

(** ** Buckets *)
Definition bucket_at w (level index : nat) : list positive :=
  from_option tasks [] (default [] (levels w !! level) !! index).
Definition on_bucket (f : Bucket -> Bucket) (level index : nat) w : TimerWheel L :=
  {| store := store w; tick := tick w; startDataTime := startDataTime w;
     levels := alter (alter f index) level (levels w) |}.
Definition push (ref : positive) : nat -> nat -> TimerWheel L -> TimerWheel L :=
  on_bucket (fun b => {| initID := initID b; tasks := tasks b ++ [ref] |}).
Definition set_tasks (l : list positive) : nat -> nat -> TimerWheel L -> TimerWheel L :=
  on_bucket (fun b => {| initID := initID b; tasks := l |}).
Definition on_task (f : TimerWheelTask L -> TimerWheelTask L) (ref : positive) w : TimerWheel L :=
  {| store := alter f ref (store w); tick := tick w; startDataTime := startDataTime w; levels := levels w |}.

Definition bucket_id w (level index : nat) : Z :=
  from_option initID 0 (default [] (levels w !! level) !! index).

Definition set_id (id : Z) task : TimerWheelTask L :=
  {| callBack := callBack task; expire := expire task; addDateTime := addDateTime task; isCancel := isCancel task;
     isDuplicate := isDuplicate task; times := times task; delayInterval := delayInterval task; ID := id |}.

(** [task->ID = bucket.genTaskID(); bucket.tasks.push_back(task)] *)
Definition add_task (ref : positive) (level index : nat) w : TimerWheel L :=
  let id := u64 (bucket_id w level index + 1) in
  let w := on_bucket (fun b => {| initID := id; tasks := tasks b ++ [ref] |}) level index w in
  on_task (set_id id) ref w.

(** ** [setTimerWheelTask] *)

(** Where a task goes.  The three upper levels use [checkTwo]. *)
Definition place (tickPlace delay : Z) : nat * Z :=
  let Gaps := Z.quot delay tickGap in
  if Gaps <=? checkOne then
    (0%nat, Z.land (Z.land tickPlace checkOne + Z.land Gaps checkOne) (LevelOneSize - 1))
  else if Gaps <=? checkTwo then (1%nat, Z.shiftr (Z.land (tickPlace + Gaps) checkTwo) 8)
  else if Gaps <=? checkThree then (2%nat, Z.shiftr (Z.land (tickPlace + Gaps) checkTwo) 8)
  else if Gaps <=? checkFour then (3%nat, Z.shiftr (Z.land (tickPlace + Gaps) checkTwo) 20)
  else (4%nat, Z.shiftr (Z.land (tickPlace + Gaps) checkTwo) 26).

(** The caller may hold the mutex of a bucket of level one; locking it again never
    returns, which is [None]. *)
Definition setTimerWheelTask (held : option nat) (delay : Z) (ref : positive) w : option (TimerWheel L) :=
  let '(level, bucket) := place (tick w) delay in
  let bucket := Z.to_nat bucket in
  if decide (level = 0%nat /\ held = Some bucket) then None
  else Some (add_task ref level bucket (on_task (set_id delay) ref w)).

(** ** The calls *)
Definition TimerWheel_new (now : Z) : TimerWheel L :=
  let empty n := replicate n {| initID := 0; tasks := [] |} in
  {| store := ∅; tick := 0; startDataTime := now;
     levels := [empty 256%nat; empty 64%nat; empty 64%nat; empty 64%nat; empty 64%nat] |}.

Definition new_task (cb : L) (exp : Z) : TimerWheelTask L :=
  {| callBack := cb; expire := exp; addDateTime := 0; isCancel := false; isDuplicate := false; times := 0;
     delayInterval := 0; ID := 0 |}.
Definition allocate task w : positive * TimerWheel L :=
  let ref := fresh (dom (store w)) in
  (ref, {| store := <[ref := task]> (store w); tick := tick w; startDataTime := startDataTime w; levels := levels w |}).

(** A caller of another thread holds no bucket.  The two overloads bind differently and
    are the same otherwise. *)
Definition setTimeout (now delay : Z) (cb : L) w : res wheel_error (option (positive * TimerWheel L)) :=
  if 21474836480 <=? delay then Err DelayOutOfRange
  else if delay <=? 0 then Err DelayNotStandardized
  else
    let '(ref, w) := allocate (new_task cb (now + delay)) w in
    Ok (w ← setTimerWheelTask None delay ref w; Some (ref, w)).

(** [now] and [now'] are the two readings of the clock. *)
Definition setInterval (now now' delay : Z) (cb : L) w : res wheel_error (option (positive * TimerWheel L)) :=
  if 21474836480 <=? delay then Err DelayOutOfRange
  else if delay <=? 0 then Err DelayNotStandardized
  else if delay <=? 10 then Err IntervalTooShort
  else
    let task := {| callBack := cb; expire := now + delay; addDateTime := now'; isCancel := false; isDuplicate := true;
                   times := 0; delayInterval := delay; ID := 0 |} in
    let '(ref, w) := allocate task w in
    Ok (w ← setTimerWheelTask None delay ref w; Some (ref, w)).

Definition cancel task : TimerWheelTask L :=
  {| callBack := callBack task; expire := expire task; addDateTime := addDateTime task; isCancel := true;
     isDuplicate := isDuplicate task; times := times task; delayInterval := delayInterval task; ID := ID task |}.
Definition stop_repeating task : TimerWheelTask L :=
  {| callBack := callBack task; expire := expire task; addDateTime := addDateTime task; isCancel := isCancel task;
     isDuplicate := false; times := times task; delayInterval := delayInterval task; ID := ID task |}.
Definition clearTimeout : positive -> TimerWheel L -> TimerWheel L := on_task cancel.
Definition clearInterval (ref : positive) w : TimerWheel L := on_task stop_repeating ref (on_task cancel ref w).

(** ** A turn of the thread *)

(** [reading t k]: the [k]th reading of the clock in the turn of the tick [t]. [pool t ref]:
    whether the pool, if there is one, takes the executor of the task. *)
Variable reading : Z -> nat -> Z.
Variable pool : option (Z -> positive -> bool).

Definition live w (ref : positive) : bool :=
  match store w !! ref with Some task => negb (isCancel task) | None => false end.

(** One task, put in the level below; [where_to] is the index for what is left of the
    delay.  A cancelled task is dropped. *)
Definition move_task (now : Z) (to_level : nat) (where_to : Z -> Z) w (ref : positive) : TimerWheel L :=
  match store w !! ref with
  | Some task =>
      if isCancel task then w
      else let Gaps := Z.quot (Z.max 0 (expire task - now)) tickGap in
           push ref to_level (Z.to_nat (where_to Gaps)) w
  | None => w
  end.
(** The tasks of one bucket. *)
Definition move_down (now : Z) (from to_level index : nat) (where_to : Z -> Z) w : TimerWheel L :=
  set_tasks [] from index (foldl (move_task now to_level where_to) w (bucket_at w from index)).

(** The index of the hand of a level at a tick. *)
Definition hand (check shift tickPlace : Z) : Z := Z.shiftr (Z.land tickPlace check) shift.

(** One of the four blocks: nothing unless the hand of the level moves with this tick. *)
Definition cascade (check shift : Z) (from to_level : nat) (where_to : Z -> Z) w : TimerWheel L :=
  let index := hand check shift (tick w) in
  let next := hand check shift (u32 (tick w + 1)) in
  if Z.land (index + 1) (LevelTwoSize - 1) =? next
  then move_down (reading (tick w) 0) from to_level (Z.to_nat next) where_to w
  else w.

Definition cascade_five w : TimerWheel L :=
  cascade checkFive 26 4 3 (fun Gaps =>
    Z.land (hand checkFour 20 (u32 (tick w + 1)) + Z.shiftr (Z.land Gaps checkFour) 20) (LevelTwoSize - 1)) w.
Definition cascade_four w : TimerWheel L :=
  cascade checkFour 20 3 2 (fun Gaps =>
    Z.land (hand checkThree 14 (u32 (tick w + 1)) + Z.shiftr (Z.land Gaps checkThree) 14) (LevelTwoSize - 1)) w.
Definition cascade_three w : TimerWheel L :=
  cascade checkThree 14 2 1 (fun Gaps =>
    let Gaps := if checkTwo <=? Gaps then checkTwo else Gaps in
    Z.land (hand checkTwo 8 (u32 (tick w + 1)) + Z.shiftr (Z.land Gaps checkTwo) 8) (LevelTwoSize - 1)) w.
Definition cascade_two w : TimerWheel L :=
  cascade checkTwo 8 1 0 (fun Gaps =>
    let Gaps := if checkOne <=? Gaps then checkOne else Gaps in
    Z.land (Z.land (tick w) checkOne + Gaps) (LevelOneSize - 1)) w.

Definition rearmed task (nextTick : Z) : TimerWheelTask L :=
  {| callBack := callBack task; expire := nextTick; addDateTime := addDateTime task; isCancel := isCancel task;
     isDuplicate := isDuplicate task; times := u64 (times task + 1); delayInterval := delayInterval task; ID := ID task |}.

(** The tasks of the bucket the hand of level one is at, with its mutex held: what is run,
    and the tasks to repeat, put back. [k] counts the readings of the clock. *)
Fixpoint run_tasks (k index : nat) (l : list positive) w : option (TimerWheel L * list wheel_event) :=
  match l with
  | [] => Some (set_tasks [] 0 index w, [])
  | ref :: l =>
      match store w !! ref with
      | Some task =>
          if isCancel task then run_tasks k index l w
          else
            let commit := match pool with Some f => f (tick w) ref | None => false end in
            let event := {| at_tick := tick w; event_task := ref; by_pool := commit |} in
            if isDuplicate task then
              let nextTick := addDateTime task + (u64 (u64 (times task + 1) + 1)) * delayInterval task in
              let delay := nextTick - reading (tick w) k in
              let delay := if delay <? tickGap * 2 then tickGap * 2 else delay in
              w ← setTimerWheelTask (Some index) delay ref (on_task (fun task => rearmed task nextTick) ref w);
              '(w, events) ← run_tasks (S k) index l w;
              Some (w, event :: events)
            else
              '(w, events) ← run_tasks k index l w;
              Some (w, event :: events)
      | None => run_tasks k index l w
      end
  end.

Definition next_tick w : TimerWheel L :=
  {| store := store w; tick := u32 (tick w + 1); startDataTime := startDataTime w; levels := levels w |}.

(** What a turn runs, and the wheel after it; [None] when it blocks for ever. *)
Definition turn w : option (TimerWheel L * list wheel_event) :=
  let w := cascade_two (cascade_three (cascade_four (cascade_five w))) in
  let index := Z.to_nat (Z.land (tick w) checkOne) in
  '(w, events) ← run_tasks 1 index (bucket_at w 0 index) w;
  Some (next_tick w, events).

(** ** Histories *)
Inductive action :=
| Turn
| Timeout (now delay : Z) (cb : L)
| Interval (now now' delay : Z) (cb : L)
| ClearTimeout (ref : positive)
| ClearInterval (ref : positive).

Definition after_call (r : res wheel_error (option (positive * TimerWheel L))) w : option (TimerWheel L * list wheel_event) :=
  match r with
  | Err _ => Some (w, [])
  | Ok (Some (_, w)) => Some (w, [])
  | Ok None => None
  end.
Definition act (a : action) w : option (TimerWheel L * list wheel_event) :=
  match a with
  | Turn => turn w
  | Timeout now delay cb => after_call (setTimeout now delay cb w) w
  | Interval now now' delay cb => after_call (setInterval now now' delay cb w) w
  | ClearTimeout ref => Some (clearTimeout ref w, [])
  | ClearInterval ref => Some (clearInterval ref w, [])
  end.
Fixpoint history (l : list action) w : option (TimerWheel L * list wheel_event) :=
  match l with
  | [] => Some (w, [])
  | a :: l => '(w, events) ← act a w; '(w, more) ← history l w; Some (w, events ++ more)
  end.
Definition turns (l : list action) : nat := length (List.filter (fun a => match a with Turn => true | _ => false end) l).
End Wheel.
