(* ===== verification/TimerWheelTheorems.v ===== *)
(** * The timer wheel: when a task runs

    [occ ref w level index] counts the references to a task in a bucket.  A task that has
    just been set is in one bucket, once; a turn that does not reach that bucket leaves it
    there, and the turn that does either moves it to the level below or runs it. *)
From S2P Require Import Prelude TimerWheel.

Section Wheel.
Context {L : Type}.
Implicit Types (w : TimerWheel L) (task : TimerWheelTask L).

(** ** Places *)
Definition level_size (level : nat) : nat := match level with 0 => 256 | 1 | 2 | 3 | 4 => 64 | _ => 0 end%nat.
Definition in_range (level index : nat) : Prop := (index < level_size level)%nat.

Definition shape_ok w : Prop := map length (levels w) = [256; 64; 64; 64; 64]%nat.

(** Every reference in a bucket is to a task of the store. *)
Definition refs_ok w : Prop := forall level index ref, ref ∈ bucket_at w level index -> is_Some (store w !! ref).
Definition wheel_ok w : Prop := shape_ok w /\ is_uint 32 (tick w) /\ refs_ok w.

Definition occ (ref : positive) w (level index : nat) : nat :=
  length (List.filter (fun r => bool_decide (r = ref)) (bucket_at w level index)).

Lemma shape_bucket w level index : shape_ok w -> in_range level index ->
  exists row b, levels w !! level = Some row /\ row !! index = Some b.
Proof.
  unfold shape_ok, in_range. intros Hs Hi.
  assert (Hr : exists row, levels w !! level = Some row /\ length row = level_size level).
  { destruct (levels w) as [|r0 [|r1 [|r2 [|r3 [|r4 [|]]]]]]; try discriminate. injection Hs as H0 H1 H2 H3 H4.
    do 5 (destruct level as [|level]; [eexists; split; [reflexivity|done]|]). cbn in Hi. lia. }
  destruct Hr as (row & E & Hl). rewrite <-Hl in Hi. apply lookup_lt_is_Some in Hi as [b Eb]. by exists row, b.
Qed.

Lemma map_length_alter {A} (f : list A -> list A) k (l : list (list A)) : (forall x, length (f x) = length x) ->
  map length (alter f k l) = map length l.
Proof.
  intros Hf. revert k. induction l as [|x l IH]; intros [|k]; cbn; [done..|by rewrite Hf|]. f_equal. apply IH.
Qed.

Lemma on_bucket_shape f level index w : shape_ok w -> shape_ok (on_bucket f level index w).
Proof.
  unfold shape_ok, on_bucket. cbn. intros <-. apply map_length_alter. intros x. apply length_alter.
Qed.

Lemma bucket_on_bucket f level index w level' index' : shape_ok w -> in_range level index ->
  bucket_at (on_bucket f level index w) level' index' =
  if decide (level' = level /\ index' = index) then
    tasks (f {| initID := bucket_id w level index; tasks := bucket_at w level index |})
  else bucket_at w level' index'.
Proof.
  intros Hs Hi. destruct (shape_bucket w level index Hs Hi) as (row & b & Er & Eb).
  unfold bucket_at, bucket_id, on_bucket. cbn [levels].
  destruct (decide (level' = level)) as [->|Hl].
  - rewrite list_lookup_alter_eq, Er. cbn. destruct (decide (index' = index)) as [->|Hne].
    + rewrite list_lookup_alter_eq, Eb. rewrite decide_True by done. cbn. by destruct b.
    + rewrite list_lookup_alter_ne by done. rewrite decide_False by tauto. done.
  - rewrite list_lookup_alter_ne by done. rewrite decide_False by tauto. done.
Qed.

Lemma occ_push ref r level index w level' index' : shape_ok w -> in_range level index ->
  occ ref (push r level index w) level' index' =
  (occ ref w level' index' + if decide (r = ref /\ level' = level /\ index' = index) then 1 else 0)%nat.
Proof.
  intros Hs Hi. unfold occ, push. rewrite bucket_on_bucket by done.
  destruct (decide (level' = level /\ index' = index)) as [[-> ->]|Hne]; cbn [tasks].
  - rewrite List.filter_app, length_app. cbn. destruct (decide (r = ref)) as [->|Hr].
    + rewrite bool_decide_true by done. rewrite decide_True by done. done.
    + rewrite bool_decide_false by done. rewrite decide_False by tauto. done.
  - rewrite (decide_False (P := r = ref /\ _)) by tauto. lia.
Qed.

Lemma occ_set_tasks ref l level index w level' index' : shape_ok w -> in_range level index ->
  occ ref (set_tasks l level index w) level' index' =
  if decide (level' = level /\ index' = index) then length (List.filter (fun r => bool_decide (r = ref)) l)
  else occ ref w level' index'.
Proof.
  intros Hs Hi. unfold occ, set_tasks. rewrite bucket_on_bucket by done. by destruct (decide _).
Qed.

Lemma occ_in ref w level index : ref ∈ bucket_at w level index -> (1 <= occ ref w level index)%nat.
Proof.
  unfold occ. intros (l1 & l2 & ->)%list_elem_of_split. rewrite List.filter_app, length_app. cbn.
  rewrite bool_decide_true by done. cbn. lia.
Qed.
Lemma occ_zero ref w level index : occ ref w level index = 0%nat -> ref ∉ bucket_at w level index.
Proof. intros E Hin. apply occ_in in Hin. lia. Qed.
Lemma count_not_in (ref : positive) l : ref ∉ l -> length (List.filter (fun r => bool_decide (r = ref)) l) = 0%nat.
Proof.
  induction l as [|x l IH]; intros Hn; [done|]. apply not_elem_of_cons in Hn as [Hx Hn]. cbn.
  rewrite bool_decide_false by done. auto.
Qed.
Lemma occ_absent ref w level index : ref ∉ bucket_at w level index -> occ ref w level index = 0%nat.
Proof. apply count_not_in. Qed.

(** ** Hands *)
Lemma land_ones_mod x k : 0 <= k -> Z.land x (2 ^ k - 1) = x mod 2 ^ k.
Proof. intros Hk. rewrite <-Z.land_ones by done. by rewrite Z.ones_equiv, <-Z.sub_1_r. Qed.

Lemma hand_mod shift x : 0 <= shift -> hand (Z.shiftl 63 shift) shift x = (x / 2 ^ shift) mod 64.
Proof.
  intros Hs. unfold hand. rewrite Z.shiftr_land, Z.shiftr_shiftl_l by lia.
  rewrite Z.sub_diag, Z.shiftl_0_r, Z.shiftr_div_pow2 by lia. exact (land_ones_mod _ 6 ltac:(lia)).
Qed.

Lemma hand_range check shift x : 0 <= shift -> check = Z.shiftl 63 shift -> in_range 1 (Z.to_nat (hand check shift x)).
Proof.
  intros Hs ->. rewrite hand_mod by done. pose proof (Z.mod_pos_bound (x / 2 ^ shift) 64). unfold in_range. cbn. lia.
Qed.

Lemma land_63_range x : in_range 1 (Z.to_nat (Z.land x (LevelTwoSize - 1))).
Proof.
  unfold in_range, LevelTwoSize. change (64 - 1) with (2 ^ 6 - 1). rewrite land_ones_mod by lia.
  pose proof (Z.mod_pos_bound x (2 ^ 6) ltac:(lia)). change (2 ^ 6) with 64 in *. cbn. lia.
Qed.
Lemma land_255_range x : in_range 0 (Z.to_nat (Z.land x 255)).
Proof.
  unfold in_range. change 255 with (2 ^ 8 - 1). rewrite land_ones_mod by lia.
  pose proof (Z.mod_pos_bound x (2 ^ 8) ltac:(lia)). change (2 ^ 8) with 256 in *. cbn. lia.
Qed.

Lemma place_range t delay : 0 <= t -> 0 <= delay ->
  in_range (place t delay).1 (Z.to_nat (place t delay).2).
Proof.
  intros Ht Hd. unfold place.
  assert (H2 : forall s, 8 <= s -> in_range 1 (Z.to_nat (Z.shiftr (Z.land (t + Z.quot delay tickGap) checkTwo) s))).
  { intros s Hs. rewrite <-(Z.sub_add 8 s). replace (s - 8 + 8) with (8 + (s - 8)) by lia.
    rewrite <-Z.shiftr_shiftr by lia.
    fold (hand checkTwo 8 (t + Z.quot delay tickGap)). pose proof (hand_range checkTwo 8 (t + Z.quot delay tickGap) ltac:(lia) eq_refl) as Hh.
    unfold in_range in *. cbn in *. change checkTwo with (Z.shiftl 63 8) in *. rewrite hand_mod in * by lia.
    set (x := (_ / 2 ^ 8) mod 64) in *. assert (0 <= x) by (apply Z.mod_pos_bound; lia).
    rewrite Z.shiftr_div_pow2 by lia. assert (x / 2 ^ (s - 8) <= x) by (apply Z.div_le_upper_bound; nia).
    assert (0 <= x / 2 ^ (s - 8)) by (apply Z.div_pos; lia). lia. }
  repeat case_match; cbn [fst snd]; [exact (land_255_range _)|apply H2; lia..].
Qed.

(** ** Well-formed wheels *)
Lemma push_ok ref level index w : wheel_ok w -> in_range level index -> is_Some (store w !! ref) ->
  wheel_ok (push ref level index w).
Proof.
  intros (Hs & Ht & Hr) Hi Href. split; [by apply on_bucket_shape|]. split; [done|].
  intros l i r. unfold push. rewrite bucket_on_bucket by done. cbn [store on_bucket].
  destruct (decide _) as [[-> ->]|]; cbn [tasks]; [|apply Hr].
  intros [Hin| ->%list_elem_of_singleton]%elem_of_app; [by apply (Hr level index)|done].
Qed.

Lemma set_tasks_ok level index w : wheel_ok w -> in_range level index -> wheel_ok (set_tasks [] level index w).
Proof.
  intros (Hs & Ht & Hr) Hi. split; [by apply on_bucket_shape|]. split; [done|].
  intros l i r. unfold set_tasks. rewrite bucket_on_bucket by done. cbn [store on_bucket].
  destruct (decide _) as [[-> ->]|]; cbn [tasks]; [by intros ?%not_elem_of_nil|apply Hr].
Qed.

Lemma on_task_ok f ref w : wheel_ok w -> wheel_ok (on_task f ref w).
Proof.
  intros (Hs & Ht & Hr). split; [done|]. split; [done|]. intros l i r Hin. specialize (Hr l i r Hin).
  cbn. destruct (decide (r = ref)) as [->|Hne]; [|by rewrite lookup_alter_ne].
  rewrite lookup_alter_eq. destruct Hr as [task ->]. by eexists.
Qed.

Lemma add_task_eq ref level index w : exists id id', add_task ref level index w =
  on_task (set_id id) ref (on_bucket (fun b => {| initID := id'; tasks := tasks b ++ [ref] |}) level index w).
Proof. eexists _, _. reflexivity. Qed.

Lemma add_task_ok ref level index w : wheel_ok w -> in_range level index -> is_Some (store w !! ref) ->
  wheel_ok (add_task ref level index w).
Proof.
  intros Hok Hi Href. destruct (add_task_eq ref level index w) as (id & id' & ->). apply on_task_ok.
  destruct Hok as (Hs & Ht & Hr). split; [by apply on_bucket_shape|]. split; [done|].
  intros l i r. rewrite bucket_on_bucket by done. cbn [store on_bucket].
  destruct (decide _) as [[-> ->]|]; cbn [tasks]; [|apply Hr].
  intros [Hin| ->%list_elem_of_singleton]%elem_of_app; [by apply (Hr level index)|done].
Qed.

Lemma occ_on_task f r ref w level index : occ ref (on_task f r w) level index = occ ref w level index.
Proof. done. Qed.

Lemma occ_add_task ref r level index w level' index' : shape_ok w -> in_range level index ->
  occ ref (add_task r level index w) level' index' =
  (occ ref w level' index' + if decide (r = ref /\ level' = level /\ index' = index) then 1 else 0)%nat.
Proof.
  intros Hs Hi. destruct (add_task_eq r level index w) as (id & id' & ->). rewrite occ_on_task.
  rewrite <-(occ_push ref r level index w level' index') by done. unfold occ, push. f_equal. f_equal.
  rewrite !bucket_on_bucket by done. done.
Qed.

(** ** Moving a bucket down *)
Definition leaves (task : TimerWheelTask L) (now : Z) : Z := Z.quot (Z.max 0 (expire task - now)) tickGap.

Lemma move_tasks_spec now to_level where_to l w : wheel_ok w ->
  (forall g, in_range to_level (Z.to_nat (where_to g))) -> Forall (fun ref => is_Some (store w !! ref)) l ->
  let w' := foldl (move_task now to_level where_to) w l in
  wheel_ok w' /\ store w' = store w /\ tick w' = tick w /\
  forall ref level index, occ ref w' level index =
    (occ ref w level index + match store w !! ref with
      | Some task => if decide (isCancel task = false /\ level = to_level /\ index = Z.to_nat (where_to (leaves task now)))
                     then length (List.filter (fun r => bool_decide (r = ref)) l) else 0
      | None => 0
      end)%nat.
Proof.
  intros Hok Hto. revert w Hok. induction l as [|r l IH]; intros w Hok Hl.
  { cbn. do 3 (split; [done|]). intros ref level index. repeat case_match; lia. }
  apply Forall_cons in Hl as [[task Hr] Hl]. cbv zeta. cbn [foldl].
  destruct (isCancel task) eqn:Ec.
  - assert (Em : move_task now to_level where_to w r = w) by (unfold move_task; by rewrite Hr, Ec).
    rewrite Em. destruct (IH w Hok Hl) as (Hok' & Es & Et & Ho). do 3 (split; [done|]). intros ref level index. rewrite Ho.
    f_equal. cbn. destruct (decide (r = ref)) as [->|Hne].
    + rewrite Hr. by rewrite !decide_False by (intros (? & _); congruence).
    + rewrite bool_decide_false by done. done.
  - set (w1 := push r to_level (Z.to_nat (where_to (leaves task now))) w).
    assert (Em : move_task now to_level where_to w r = w1) by (unfold move_task; by rewrite Hr, Ec).
    rewrite Em.
    assert (Hok1 : wheel_ok w1) by (apply push_ok; [done|apply Hto|by eexists]).
    destruct (IH w1 Hok1 Hl) as (Hok' & Es & Et & Ho). do 3 (split; [done|]). intros ref level index. rewrite Ho.
    unfold w1. rewrite occ_push by (apply Hok || apply Hto). cbn [store push on_bucket]. cbn.
    destruct (decide (r = ref)) as [->|Hne].
    + rewrite Hr, bool_decide_true by done. cbn [length].
      destruct (decide (isCancel task = false /\ _)) as [(_ & -> & ->)|Hne]; [rewrite decide_True by done; lia|].
      rewrite decide_False by tauto. lia.
    + rewrite bool_decide_false by done. rewrite (decide_False (P := r = ref /\ _)) by tauto. lia.
Qed.

(** The references that reach a place from a bucket that is moved down. *)
Definition arrivals (now : Z) (from to_level index : nat) (where_to : Z -> Z) w (ref : positive) (level i : nat) : nat :=
  match store w !! ref with
  | Some task => if decide (isCancel task = false /\ level = to_level /\ i = Z.to_nat (where_to (leaves task now)))
                 then occ ref w from index else 0
  | None => 0
  end%nat.

Lemma move_down_spec now from to_level index where_to w : wheel_ok w -> in_range from index -> from <> to_level ->
  (forall g, in_range to_level (Z.to_nat (where_to g))) ->
  let w' := move_down now from to_level index where_to w in
  wheel_ok w' /\ store w' = store w /\ tick w' = tick w /\
  forall ref level i, occ ref w' level i =
    if decide (level = from /\ i = index) then 0%nat
    else (occ ref w level i + arrivals now from to_level index where_to w ref level i)%nat.
Proof.
  intros Hok Hi Hne Hto. pose proof Hok as (Hs & _ & Hr).
  destruct (move_tasks_spec now to_level where_to (bucket_at w from index) w Hok Hto) as (Hok' & Es & Et & Ho).
  { apply Forall_forall. intros ref Hin. by apply (Hr from index). }
  cbv zeta. unfold move_down. split; [by apply set_tasks_ok|]. split; [done|]. split; [done|].
  intros ref level i. rewrite occ_set_tasks by (apply Hok' || done).
  destruct (decide _) as [?|?]; [done|]. apply Ho.
Qed.

(** ** The four blocks *)
Variable reading : Z -> nat -> Z.
Variable pool : option (Z -> positive -> bool).

(** Whether the turn of a tick moves a bucket of a level down. *)
Definition moves (check shift t : Z) (index : nat) : Prop :=
  Z.land (hand check shift t + 1) 63 = hand check shift (u32 (t + 1)) /\
  index = Z.to_nat (hand check shift (u32 (t + 1))).
#[local] Instance moves_dec check shift t index : Decision (moves check shift t index).
Proof. unfold moves. apply _. Defined.

Lemma cascade_spec check shift from to_level where_to w : wheel_ok w -> 0 <= shift -> check = Z.shiftl 63 shift ->
  (1 <= from <= 4)%nat -> from <> to_level -> (forall g, in_range to_level (Z.to_nat (where_to g))) ->
  let w' := cascade reading check shift from to_level where_to w in
  wheel_ok w' /\ store w' = store w /\ tick w' = tick w /\
  (forall ref level i, (level <> from \/ ~ moves check shift (tick w) i) ->
     (forall j, moves check shift (tick w) j -> occ ref w from j = 0%nat) -> occ ref w' level i = occ ref w level i) /\
  (forall ref index, moves check shift (tick w) index -> forall level i, occ ref w' level i =
     if decide (level = from /\ i = index) then 0%nat
     else (occ ref w level i + arrivals (reading (tick w) 0) from to_level index where_to w ref level i)%nat).
Proof.
  intros Hok Hs Hc Hf Hne Hto. unfold cascade.
  change (LevelTwoSize - 1) with 63. destruct (Z.land _ 63 =? _) eqn:E.
  - apply Z.eqb_eq in E. set (index := Z.to_nat (hand check shift (u32 (tick w + 1)))).
    assert (Hi : in_range from index).
    { pose proof (hand_range check shift (u32 (tick w + 1)) Hs Hc) as Hr. unfold in_range in *.
      fold index in Hr. destruct from as [|[|[|[|[|]]]]]; cbn in *; lia. }
    destruct (move_down_spec (reading (tick w) 0) from to_level index where_to w Hok Hi Hne Hto) as (Hok' & Es & Et & Ho).
    do 3 (split; [done|]). assert (Hm : moves check shift (tick w) index) by (by split). split.
    + intros ref level i Hout Hz. rewrite Ho. destruct (decide _) as [[-> ->]|_].
      * by destruct Hout as [?|?].
      * unfold arrivals. rewrite (Hz index Hm). repeat case_match; lia.
    + intros ref index' [_ ->] level i. apply Ho.
  - do 3 (split; [done|]). split; [done|]. intros ref index [Hm _]. apply Z.eqb_neq in E. done.
Qed.

(** ** Setting a task again, with a bucket of level one locked *)
Lemma quot_delay delay : 0 <= delay -> Z.quot delay tickGap = delay / 5.
Proof. intros. by apply Z.quot_div_nonneg. Qed.

Lemma place_here t delay : 0 <= t -> 0 <= delay ->
  ((place t delay).1 = 0%nat /\ Z.to_nat (place t delay).2 = Z.to_nat (Z.land t 255)) <-> delay < 5.
Proof.
  intros Ht Hd. unfold place. rewrite quot_delay by done. set (g := delay / 5).
  assert (Hg : 0 <= g) by (apply Z.div_pos; lia). unfold checkOne, LevelOneSize. change (256 - 1) with 255.
  destruct (g <=? 255) eqn:E; [|repeat case_match; cbn; split; [intros [? _]; lia|intros; assert (g = 0) by (apply Z.div_small; lia); lia..]].
  cbn [fst snd]. change 255 with (2 ^ 8 - 1). rewrite !land_ones_mod by lia. change (2 ^ 8) with 256.
  rewrite (Z.mod_small g) by lia. pose proof (Z.mod_pos_bound t 256 ltac:(lia)) as Hm.
  pose proof (Z.mod_pos_bound (t mod 256 + g) 256 ltac:(lia)) as Hm2.
  pose proof (Z.div_mod delay 5 ltac:(lia)) as Hdd. pose proof (Z.mod_pos_bound delay 5 ltac:(lia)) as Hm5. fold g in Hdd.
  split.
  - intros [_ Eq]. apply Z2Nat.inj in Eq; [|lia..].
    destruct (decide (t mod 256 + g < 256)); [rewrite Z.mod_small in Eq; lia|].
    rewrite <-(Z.mod_add _ (-1)), Z.mod_small in Eq by lia. lia.
  - intros Hlt. assert (g = 0) as -> by lia. rewrite Z.add_0_r, Z.mod_mod by lia. done.
Qed.

Lemma set_wheel_task_spec held delay ref w : 0 <= tick w -> 0 <= delay ->
  (held = Some (Z.to_nat (Z.land (tick w) 255)) -> 5 <= delay) ->
  held = None \/ held = Some (Z.to_nat (Z.land (tick w) 255)) ->
  setTimerWheelTask held delay ref w =
    Some (add_task ref (place (tick w) delay).1 (Z.to_nat (place (tick w) delay).2) (on_task (set_id delay) ref w)).
Proof.
  intros Ht Hd Hh Hheld. unfold setTimerWheelTask. pose proof (place_here (tick w) delay Ht Hd) as Hp.
  destruct (place (tick w) delay) as [level index]. cbn [fst snd] in *.
  destruct (decide _) as [[-> E]|]; [|done]. destruct Hheld as [->| ->]; [done|]. specialize (Hh eq_refl).
  injection E as E. assert (delay < 5) by (apply Hp; auto). lia.
Qed.

Definition events_of (ref : positive) (l : list wheel_event) : list wheel_event :=
  List.filter (fun e => bool_decide (event_task e = ref)) l.
Definition count (ref : positive) (l : list positive) : nat := length (List.filter (fun r => bool_decide (r = ref)) l).

(** The time of the next run, and the delay until then. *)
Definition next_run task : Z := addDateTime task + u64 (u64 (times task + 1) + 1) * delayInterval task.
Definition rearm_delay task (now : Z) : Z :=
  if next_run task - now <? 10 then 10 else next_run task - now.

(** What a bucket that is run leaves of the places of a task. *)
Definition run_leaves (ref : positive) w w' (index level i : nat) (extra : nat) : Prop :=
  occ ref w' level i = ((if decide (level = 0%nat /\ i = index) then 0 else occ ref w level i) + extra)%nat.

Definition is_at (p : nat * Z) (level i : nat) : nat := if decide (level = p.1 /\ i = Z.to_nat p.2) then 1%nat else 0%nat.

(** The task at the head, put back. *)
Lemma rearm_spec ref task w k : wheel_ok w -> store w !! ref = Some task -> exists id w1,
  setTimerWheelTask (Some (Z.to_nat (Z.land (tick w) 255))) (rearm_delay task (reading (tick w) k)) ref
    (on_task (fun t => rearmed t (next_run task)) ref w) = Some w1 /\
  wheel_ok w1 /\ tick w1 = tick w /\ store w1 !! ref = Some (set_id id (rearmed task (next_run task))) /\
  (forall r, r <> ref -> store w1 !! r = store w !! r) /\
  forall r level i, occ r w1 level i =
    (occ r w level i + if decide (r = ref) then is_at (place (tick w) (rearm_delay task (reading (tick w) k))) level i else 0)%nat.
Proof.
  intros Hok E. pose proof Hok as (Hs & Ht & _). set (d := rearm_delay task (reading (tick w) k)).
  assert (Hd : 10 <= d) by (unfold d, rearm_delay; destruct (_ <? 10) eqn:?; lia).
  set (w0 := on_task (fun t => rearmed t (next_run task)) ref w).
  assert (Hok0 : wheel_ok w0) by by apply on_task_ok.
  assert (Hp : in_range (place (tick w) d).1 (Z.to_nat (place (tick w) d).2)) by (apply place_range; [apply Ht|lia]).
  assert (E0 : store w0 !! ref = Some (rearmed task (next_run task))) by (cbn; by rewrite lookup_alter_eq, E).
  set (w00 := on_task (set_id d) ref w0). assert (Hok00 : wheel_ok w00) by by apply on_task_ok.
  destruct (add_task_eq ref (place (tick w) d).1 (Z.to_nat (place (tick w) d).2) w00) as (id & id' & Ea).
  exists id, (add_task ref (place (tick w) d).1 (Z.to_nat (place (tick w) d).2) w00).
  split; [apply set_wheel_task_spec; [apply Ht|lia|lia|by right]|].
  assert (E00 : is_Some (store w00 !! ref)) by (cbn; rewrite !lookup_alter_eq, E; by eexists).
  split; [by apply add_task_ok|]. split; [by rewrite Ea|]. split; [|split].
  - rewrite Ea. cbn. rewrite !lookup_alter_eq, E. done.
  - intros r Hr. rewrite Ea. cbn. by rewrite !lookup_alter_ne by done.
  - intros r level i. rewrite occ_add_task by (apply Hok00 || done). unfold is_at. f_equal.
    destruct (decide (r = ref)) as [->|Hr]; [|by rewrite decide_False by (intros [? _]; congruence)].
    destruct (decide (level = _ /\ _)) as [[-> ->]|Hn]; [by rewrite decide_True|]. rewrite decide_False by tauto. done.
Qed.

(** ** Running a bucket *)
Definition leave_bucket (index level i : nat) (n : nat) : nat :=
  if decide (level = 0%nat /\ i = index) then 0%nat else n.

(** What the run of a bucket does to a task of it that is live. *)
Definition ran_as ref task w w' (index : nat) (ev : list wheel_event) : Prop :=
  exists b, events_of ref ev = [{| at_tick := tick w; event_task := ref; by_pool := b |}] /\
  if isDuplicate task then exists k id,
    store w' !! ref = Some (set_id id (rearmed task (next_run task))) /\
    forall level i, occ ref w' level i =
      leave_bucket index level i (occ ref w level i + is_at (place (tick w) (rearm_delay task (reading (tick w) k))) level i)
  else store w' !! ref = Some task /\
    forall level i, occ ref w' level i = leave_bucket index level i (occ ref w level i).

Lemma count_app ref l1 l2 : count ref (l1 ++ l2) = (count ref l1 + count ref l2)%nat.
Proof. unfold count. by rewrite List.filter_app, length_app. Qed.
Lemma occurrences_cons ref r l : count ref (r :: l) = ((if decide (r = ref) then 1 else 0) + count ref l)%nat.
Proof.
  unfold count. cbn. destruct (decide (r = ref)) as [->|Hr]; [by rewrite bool_decide_true|by rewrite bool_decide_false].
Qed.
Lemma count_zero ref l : count ref l = 0%nat -> ref ∉ l.
Proof. induction l as [|r l IH]; [intros _; by apply not_elem_of_nil|]. rewrite occurrences_cons.
  intros E. apply not_elem_of_cons. destruct (decide (r = ref)); [lia|]. split; [congruence|]. apply IH. lia. Qed.

(** Anything the run of a bucket does to a task that is not in it, or is cancelled. *)
Definition passed_over ref w w' (index : nat) (ev : list wheel_event) : Prop :=
  events_of ref ev = [] /\ store w' !! ref = store w !! ref /\
  forall level i, occ ref w' level i = leave_bucket index level i (occ ref w level i).

Lemma leave_leave index level i a b : a = leave_bucket index level i b ->
  leave_bucket index level i a = leave_bucket index level i b.
Proof. unfold leave_bucket. destruct (decide _); [done|]. by intros ->. Qed.

Lemma place_elsewhere task w k level i : wheel_ok w ->
  leave_bucket (Z.to_nat (Z.land (tick w) 255)) level i (is_at (place (tick w) (rearm_delay task (reading (tick w) k))) level i)
  = is_at (place (tick w) (rearm_delay task (reading (tick w) k))) level i.
Proof.
  intros (_ & [Ht _] & _). unfold leave_bucket, is_at. destruct (decide (level = 0%nat /\ _)) as [[-> ->]|]; [|done].
  assert (Hd : 10 <= rearm_delay task (reading (tick w) k)) by (unfold rearm_delay; destruct (_ <? 10) eqn:?; lia).
  destruct (decide (0%nat = _ /\ _)) as [[El Ei]|]; [|done]. exfalso.
  assert (rearm_delay task (reading (tick w) k) < 5); [|lia]. apply (place_here (tick w)); [done|lia|]. by rewrite El, Ei.
Qed.

Lemma events_of_other ref e ev : event_task e <> ref -> events_of ref (e :: ev) = events_of ref ev.
Proof. intros Hne. unfold events_of. cbn. by rewrite bool_decide_false. Qed.
Lemma events_of_this e ev : events_of (event_task e) (e :: ev) = e :: events_of (event_task e) ev.
Proof. unfold events_of. cbn. by rewrite bool_decide_true. Qed.

(** [ran_as] and [passed_over] from a wheel that agrees on the task. *)
Definition agrees ref w w1 : Prop :=
  tick w1 = tick w /\ store w1 !! ref = store w !! ref /\ forall level i, occ ref w1 level i = occ ref w level i.

Lemma passed_over_agrees ref w w1 w' index ev ev' : agrees ref w w1 -> events_of ref ev' = events_of ref ev ->
  passed_over ref w1 w' index ev -> passed_over ref w w' index ev'.
Proof.
  intros (_ & Es & Eo) Ee (H1 & H2 & H3). split; [congruence|]. split; [congruence|]. intros level i. by rewrite H3, Eo.
Qed.
Lemma ran_as_agrees ref task w w1 w' index ev ev' : agrees ref w w1 -> events_of ref ev' = events_of ref ev ->
  ran_as ref task w1 w' index ev -> ran_as ref task w w' index ev'.
Proof.
  intros (Et & Es & Eo) Ee (b & Hb & H). exists b. rewrite Et in *. split; [congruence|].
  destruct (isDuplicate task).
  - destruct H as (k & id & H2 & H3). exists k, id. split; [done|]. intros level i. by rewrite H3, Eo.
  - destruct H as [H2 H3]. split; [done|]. intros level i. by rewrite H3, Eo.
Qed.
Lemma agrees_refl ref w : agrees ref w w.
Proof. done. Qed.

Lemma live_spec w ref : live w ref = false <-> forall task, store w !! ref = Some task -> isCancel task = true.
Proof.
  unfold live. destruct (store w !! ref) as [task|]; [|by split].
  destruct (isCancel task) eqn:E; cbn; split; [by intros _ ? [= <-]|done|done|intros Hx; specialize (Hx task eq_refl); congruence].
Qed.

Definition run_effect index l w (r : option (TimerWheel L * list wheel_event)) : Prop := exists w' ev,
  r = Some (w', ev) /\ wheel_ok w' /\ tick w' = tick w /\
  (forall ref, is_Some (store w !! ref) -> is_Some (store w' !! ref)) /\
  forall ref, (ref ∉ l \/ live w ref = false -> passed_over ref w w' index ev) /\
    forall task, store w !! ref = Some task -> isCancel task = false -> count ref l = 1%nat -> ran_as ref task w w' index ev.

Lemma run_tasks_nil k index w : wheel_ok w -> in_range 0 index -> run_effect index [] w (run_tasks reading pool k index [] w).
Proof.
  intros Hok Hi. eexists _, _. split; [reflexivity|]. split; [by apply set_tasks_ok|]. do 2 (split; [done|]).
  intros ref. split; [intros _|by intros ? ? ? ?]. do 2 (split; [done|]). intros level i.
  rewrite occ_set_tasks by (apply Hok || done). done.
Qed.

Lemma run_tasks_spec index l : forall k w, wheel_ok w -> index = Z.to_nat (Z.land (tick w) 255) ->
  Forall (fun ref => is_Some (store w !! ref)) l -> run_effect index l w (run_tasks reading pool k index l w).
Proof.
  induction l as [|r l IH]; intros k w Hok Hidx Hl.
  { apply run_tasks_nil; [done|]. rewrite Hidx. apply land_255_range. }
  apply Forall_cons in Hl as [[task Er] Hl]. cbn [run_tasks]. rewrite Er. destruct (isCancel task) eqn:Ec.
  { destruct (IH k w Hok Hidx Hl) as (w' & ev & E & Hok' & Et & Hs & Hr). exists w', ev. do 4 (split; [done|]).
    intros ref. destruct (Hr ref) as [Hp Hrun]. split.
    - intros [Hn|Hn]; apply Hp; [left|by right]. by apply not_elem_of_cons in Hn as [_ ?].
    - intros task' E' Ec' Hc. apply Hrun; [done|done|]. rewrite occurrences_cons in Hc.
      destruct (decide (r = ref)) as [->|]; [congruence|done]. }
  set (b := match pool with Some f => f (tick w) r | None => false end).
  set (event := {| at_tick := tick w; event_task := r; by_pool := b |}).
  assert (Hnotlive : forall ref, live w ref = false -> r <> ref).
  { intros ref Hlive ->. rewrite live_spec in Hlive. specialize (Hlive task Er). congruence. }
  assert (Hstep : exists w1 k1, wheel_ok w1 /\ tick w1 = tick w /\ (forall ref, ref <> r -> agrees ref w w1) /\
    (forall ref, is_Some (store w !! ref) -> is_Some (store w1 !! ref)) /\
    (if isDuplicate task then exists k id, store w1 !! r = Some (set_id id (rearmed task (next_run task))) /\
       forall level i, occ r w1 level i = (occ r w level i + is_at (place (tick w) (rearm_delay task (reading (tick w) k))) level i)%nat
     else w1 = w) /\
    forall res, run_effect index l w1 (run_tasks reading pool k1 index l w1) -> res = run_tasks reading pool k1 index l w1 ->
      (if isDuplicate task then
        w0 ← setTimerWheelTask (Some index) (rearm_delay task (reading (tick w) k)) r (on_task (fun t => rearmed t (next_run task)) r w);
        '(w0, events) ← run_tasks reading pool (S k) index l w0; Some (w0, event :: events)
       else '(w0, events) ← run_tasks reading pool k index l w; Some (w0, event :: events))
      = '(w0, events) ← res; Some (w0, event :: events)).
  { destruct (isDuplicate task) eqn:Ed.
    - destruct (rearm_spec r task w k Hok Er) as (id & w1 & E1 & Hok1 & Et1 & Es1 & Eo1 & Eocc1).
      exists w1, (S k). split; [done|]. split; [done|]. split; [|split; [|split]].
      + intros ref Hne. split; [done|]. split; [by apply Eo1|]. intros level i. rewrite Eocc1.
        rewrite decide_False by congruence. lia.
      + intros ref Href. destruct (decide (ref = r)) as [->|Hne]; [rewrite Es1; by eexists|by rewrite Eo1].
      + exists k, id. split; [done|]. intros level i. rewrite Eocc1. by rewrite decide_True.
      + intros res _ ->. rewrite Hidx, E1. done.
    - exists w, k. split; [done|]. split; [done|]. split; [intros ref _; apply agrees_refl|]. split; [done|]. split; [done|].
      by intros res _ ->. }
  destruct Hstep as (w1 & k1 & Hok1 & Et1 & Hag & Hs1 & Hthis & Heq).
  assert (IH1 : run_effect index l w1 (run_tasks reading pool k1 index l w1)).
  { apply IH; [done|by rewrite Et1|]. eapply Forall_impl; [exact Hl|]. intros ref. apply Hs1. }
  pose proof (Heq _ IH1 eq_refl) as E. clear Heq. destruct IH1 as (w' & ev & E' & Hok' & Et' & Hs' & Hr). rewrite E' in E.
  exists w', (event :: ev). split; [exact E|]. split; [done|]. split; [congruence|]. split; [auto|].
  intros ref. destruct (Hr ref) as [Hp Hrun]. split.
  - intros Hn. assert (Hne : ref <> r) by (destruct Hn as [Hn|Hn]; [by apply not_elem_of_cons in Hn as [? _]|intros ->; by apply Hnotlive in Hn]).
    eapply passed_over_agrees; [by apply Hag|by apply events_of_other|]. apply Hp.
    destruct Hn as [Hn|Hn]; [left; by apply not_elem_of_cons in Hn as [_ ?]|right].
    rewrite live_spec in *. destruct (Hag ref Hne) as (_ & -> & _). done.
  - intros task' Es Ec' Hc. rewrite occurrences_cons in Hc. destruct (decide (r = ref)) as [->|Hne].
    + assert (task' = task) as -> by congruence. assert (Hn : ref ∉ l) by (apply count_zero; lia).
      destruct (Hp (or_introl Hn)) as (He & Es' & Eo'). exists b. split.
      { rewrite (events_of_this event). unfold event at 2. cbn [event_task]. by rewrite He. }
      destruct (isDuplicate task).
      * destruct Hthis as (k' & id & Ets & Eocc). exists k', id. split; [congruence|]. intros level i. by rewrite Eo', Eocc.
      * subst w1. split; [congruence|]. exact Eo'.
    + assert (Hne' : ref <> r) by congruence. eapply ran_as_agrees; [by apply Hag|by apply events_of_other|].
      apply Hrun; [|done|lia]. destruct (Hag ref Hne') as (_ & -> & _). done.
Qed.

(** ** A turn, seen by one task *)
Definition at_place ref w (p : nat * nat) : Prop :=
  forall level i, occ ref w level i = if decide ((level, i) = p) then 1%nat else 0%nat.
Definition gone ref w : Prop := forall level i, occ ref w level i = 0%nat.

Lemma at_place_in ref w level i : at_place ref w (level, i) -> ref ∈ bucket_at w level i.
Proof.
  intros Hp. specialize (Hp level i). rewrite decide_True in Hp by done. unfold occ in Hp.
  destruct (decide (ref ∈ bucket_at w level i)) as [|Hn]; [done|]. by rewrite (count_not_in _ _ Hn) in Hp.
Qed.

(** Where one of the blocks takes a task. *)
Definition descend (check shift : Z) (from to_level : nat) (where_to : Z -> Z) (t now : Z) task (p : nat * nat) : nat * nat :=
  if decide (p.1 = from /\ moves check shift t p.2) then (to_level, Z.to_nat (where_to (leaves task now))) else p.

Lemma cascade_place check shift from to_level where_to w : wheel_ok w -> 0 <= shift -> check = Z.shiftl 63 shift ->
  (1 <= from <= 4)%nat -> from <> to_level -> (forall g, in_range to_level (Z.to_nat (where_to g))) ->
  let w' := cascade reading check shift from to_level where_to w in
  wheel_ok w' /\ store w' = store w /\ tick w' = tick w /\ forall ref,
    (gone ref w -> gone ref w') /\
    forall task p, store w !! ref = Some task -> isCancel task = false -> at_place ref w p ->
      at_place ref w' (descend check shift from to_level where_to (tick w) (reading (tick w) 0) task p).
Proof.
  intros Hok Hs Hc Hf Hne Hto.
  destruct (cascade_spec check shift from to_level where_to w Hok Hs Hc Hf Hne Hto) as (Hok' & Es & Et & Hstay & Hmove).
  cbv zeta in *. do 3 (split; [done|]). intros ref. split.
  - intros Hg level i. destruct (decide (level = from /\ moves check shift (tick w) i)) as [[-> Hm]|Hn].
    + rewrite (Hmove ref i Hm). by rewrite decide_True.
    + rewrite Hstay; [apply Hg| |intros; apply Hg]. destruct (decide (level = from)); [right|left]; tauto.
  - intros task [pl pi] Est Ec Hp. unfold descend. cbn [fst snd].
    destruct (decide (pl = from /\ moves check shift (tick w) pi)) as [[-> Hm]|Hn].
    + intros level i. rewrite (Hmove ref pi Hm). unfold arrivals. rewrite Est, !Hp, Ec.
      rewrite (decide_True (P := (from, pi) = (from, pi))) by done.
      repeat case_decide; naive_solver.
    + intros level i.
      destruct (decide (level = from /\ moves check shift (tick w) i)) as [[-> Hm]|Hn'].
      * rewrite (Hmove ref i Hm), decide_True by done. rewrite decide_False; [done|]. intros [= <- <-]. by apply Hn.
      * rewrite Hstay; [apply Hp|destruct (decide (level = from)); [right|left]; tauto|].
        intros j Hm. rewrite Hp, decide_False; [done|]. intros [= -> ->]. by apply Hn.
Qed.

Definition where_five (t Gaps : Z) : Z := Z.land (hand checkFour 20 (u32 (t + 1)) + Z.shiftr (Z.land Gaps checkFour) 20) 63.
Definition where_four (t Gaps : Z) : Z := Z.land (hand checkThree 14 (u32 (t + 1)) + Z.shiftr (Z.land Gaps checkThree) 14) 63.
Definition where_three (t Gaps : Z) : Z :=
  let Gaps := if checkTwo <=? Gaps then checkTwo else Gaps in
  Z.land (hand checkTwo 8 (u32 (t + 1)) + Z.shiftr (Z.land Gaps checkTwo) 8) 63.
Definition where_two (t Gaps : Z) : Z :=
  let Gaps := if checkOne <=? Gaps then checkOne else Gaps in Z.land (Z.land t checkOne + Gaps) 255.

(** Where the four blocks of a turn take a task. *)
Definition after_cascades (t : Z) task (p : nat * nat) : nat * nat :=
  let now := reading t 0 in
  descend checkTwo 8 1 0 (where_two t) t now task
    (descend checkThree 14 2 1 (where_three t) t now task
      (descend checkFour 20 3 2 (where_four t) t now task
        (descend checkFive 26 4 3 (where_five t) t now task p))).

Definition cascades w : TimerWheel L :=
  cascade_two reading (cascade_three reading (cascade_four reading (cascade_five reading w))).

(** A part of a turn that runs nothing, and where it takes a task. *)
Definition block_spec (f : TimerWheel L -> TimerWheel L) (d : Z -> Z -> TimerWheelTask L -> nat * nat -> nat * nat) : Prop :=
  forall w, wheel_ok w -> wheel_ok (f w) /\ store (f w) = store w /\ tick (f w) = tick w /\ forall ref,
    (gone ref w -> gone ref (f w)) /\
    forall task p, store w !! ref = Some task -> isCancel task = false -> at_place ref w p ->
      at_place ref (f w) (d (tick w) (reading (tick w) 0) task p).

Lemma block_compose f g d e : block_spec f d -> block_spec g e ->
  block_spec (fun w => g (f w)) (fun t now task p => e t now task (d t now task p)).
Proof.
  intros Hf Hg w Hok. destruct (Hf w Hok) as (Hok1 & Es1 & Et1 & H1). destruct (Hg _ Hok1) as (Hok2 & Es2 & Et2 & H2).
  rewrite Es1 in *. rewrite Et1 in *. do 3 (split; [done|]). intros ref. split; [intros H; by apply H2, H1|].
  intros task p Est Ec Hp. apply H2; [done|done|]. by apply H1.
Qed.

Lemma cascades_spec : block_spec cascades (fun t _ task p => after_cascades t task p).
Proof.
  pose (D check shift from to_level where_to := fun t now task p => descend check shift from to_level (where_to t) t now task p).
  assert (H5 : block_spec (cascade_five reading) (D checkFive 26 4%nat 3%nat where_five)).
  { intros w Hok. apply (cascade_place checkFive 26 4 3 (where_five (tick w)) w Hok); [lia|done|lia|done|intros; apply land_63_range]. }
  assert (H4 : block_spec (cascade_four reading) (D checkFour 20 3%nat 2%nat where_four)).
  { intros w Hok. apply (cascade_place checkFour 20 3 2 (where_four (tick w)) w Hok); [lia|done|lia|done|intros; apply land_63_range]. }
  assert (H3 : block_spec (cascade_three reading) (D checkThree 14 2%nat 1%nat where_three)).
  { intros w Hok. apply (cascade_place checkThree 14 2 1 (where_three (tick w)) w Hok); [lia|done|lia|done|intros; apply land_63_range]. }
  assert (H2 : block_spec (cascade_two reading) (D checkTwo 8 1%nat 0%nat where_two)).
  { intros w Hok. apply (cascade_place checkTwo 8 1 0 (where_two (tick w)) w Hok); [lia|done|lia|done|intros; apply land_255_range]. }
  pose proof (block_compose _ _ _ _ (block_compose _ _ _ _ (block_compose _ _ _ _ H5 H4) H3) H2) as Hall.
  intros w Hok. apply (Hall w Hok).
Qed.

Definition index_of (t : Z) : nat := Z.to_nat (Z.land t 255).

(** What the turn of the tick of [w] does to a task that the four blocks take to [q]. *)
Definition turn_effect ref task (q : nat * nat) w w' (ev : list wheel_event) : Prop :=
  if decide (q = (0%nat, index_of (tick w))) then
    exists b, events_of ref ev = [{| at_tick := tick w; event_task := ref; by_pool := b |}] /\
    if isDuplicate task then exists k id,
      store w' !! ref = Some (set_id id (rearmed task (next_run task))) /\
      let pl := place (tick w) (rearm_delay task (reading (tick w) k)) in at_place ref w' (pl.1, Z.to_nat pl.2)
    else gone ref w'
  else events_of ref ev = [] /\ store w' !! ref = Some task /\ at_place ref w' q.

Lemma u32_range x : is_uint 32 (u32 x).
Proof. apply wrap_range. lia. Qed.

Lemma leave_first index level i n :
  leave_bucket index level i ((if decide ((level, i) = (0%nat, index)) then 1 else 0) + n)%nat = leave_bucket index level i n.
Proof.
  unfold leave_bucket. destruct (decide (level = 0%nat /\ i = index)) as [|Hn]; [done|].
  rewrite decide_False; [done|]. intros [= -> ->]. by apply Hn.
Qed.
Lemma leave_other index level i (p : nat * nat) : p <> (0%nat, index) ->
  leave_bucket index level i (if decide ((level, i) = p) then 1 else 0)%nat = if decide ((level, i) = p) then 1%nat else 0%nat.
Proof.
  intros Hne. unfold leave_bucket. destruct (decide (level = 0%nat /\ i = index)) as [[-> ->]|]; [|done].
  rewrite decide_False; [done|]. intros E. by apply Hne.
Qed.
Lemma is_at_pair (p : nat * Z) level i : is_at p level i = if decide ((level, i) = (p.1, Z.to_nat p.2)) then 1%nat else 0%nat.
Proof.
  unfold is_at. destruct (decide (level = p.1 /\ i = Z.to_nat p.2)) as [[-> ->]|Hn]; [by rewrite decide_True|].
  rewrite decide_False; [done|]. intros [= -> ->]. by apply Hn.
Qed.

Lemma turn_spec w : wheel_ok w -> exists w' ev, turn reading pool w = Some (w', ev) /\ wheel_ok w' /\
  tick w' = u32 (tick w + 1) /\ (forall ref, is_Some (store w !! ref) -> is_Some (store w' !! ref)) /\
  forall ref, (gone ref w -> gone ref w' /\ events_of ref ev = []) /\
    (live w ref = false -> events_of ref ev = [] /\ store w' !! ref = store w !! ref) /\
    forall task p, store w !! ref = Some task -> isCancel task = false -> at_place ref w p ->
      turn_effect ref task (after_cascades (tick w) task p) w w' ev.
Proof.
  intros Hok. destruct (cascades_spec w Hok) as (Hok1 & Es & Et & Hc). unfold turn. fold (cascades w).
  set (w1 := cascades w) in *. set (index := Z.to_nat (Z.land (tick w1) checkOne)).
  pose proof Hok1 as (Hshape & _ & Hrefs).
  destruct (run_tasks_spec index (bucket_at w1 0 index) 1 w1 Hok1 eq_refl) as (w' & ev & E & Hok' & Et' & Hs & Hr).
  { apply Forall_forall. intros ref Hin. by apply (Hrefs 0%nat index). }
  rewrite E. exists (next_tick w'), ev. split; [done|]. split; [|split; [cbn; by rewrite Et', Et|split; [cbn; by rewrite <-Es|]]].
  { destruct Hok' as (? & _ & ?). split; [done|]. split; [apply u32_range|done]. }
  intros ref. destruct (Hr ref) as [Hpass Hrun]. destruct (Hc ref) as [Hgone Hplace]. split; [|split].
  - intros Hg. specialize (Hgone Hg). destruct Hpass as (He & _ & Ho); [left; apply occ_zero, Hgone|]. split; [|done].
    intros level i. change (occ ref (next_tick w') level i) with (occ ref w' level i). rewrite Ho. unfold leave_bucket.
    destruct (decide _); [done|apply Hgone].
  - intros Hl. destruct Hpass as (He & Hst & _); [|by rewrite <-Es].
    right. rewrite live_spec in *. by rewrite Es.
  - intros task p Est Ec Hp. specialize (Hplace task p Est Ec Hp). cbv beta in Hplace.
    revert Hplace. generalize (after_cascades (tick w) task p). intros q Hplace. unfold turn_effect. cbv zeta.
    assert (Hidx : index = index_of (tick w)) by (unfold index; by rewrite Et). rewrite <-Hidx.
    destruct (decide (q = (0%nat, index))) as [Eq|Hne].
    + rewrite Eq in Hplace. assert (Hcount : count ref (bucket_at w1 0 index) = 1%nat).
      { change (occ ref w1 0 index = 1%nat). rewrite Hplace. by rewrite decide_True. }
      rewrite <-Es in Est. destruct (Hrun task Est Ec Hcount) as (b & He & Hk). exists b. rewrite Et in *. split; [done|].
      destruct (isDuplicate task).
      * destruct Hk as (k & id & Hst & Ho). exists k, id. split; [done|]. intros level i.
        change (occ ref (next_tick w') level i) with (occ ref w' level i). rewrite Ho, Hplace.
        pose proof (place_elsewhere task w1 k level i Hok1) as Hpe. rewrite Et in Hpe. fold (index_of (tick w)) in Hpe.
        rewrite <-Hidx in Hpe. by rewrite leave_first, Hpe, is_at_pair.
      * destruct Hk as [_ Ho]. intros level i. change (occ ref (next_tick w') level i) with (occ ref w' level i).
        rewrite Ho, Hplace. rewrite <-(Nat.add_0_r (if decide _ then _ else _)), leave_first.
        unfold leave_bucket. by destruct (decide _).
    + destruct Hpass as (He & Hst & Ho).
      { left. apply occ_zero. rewrite Hplace. rewrite decide_False; [done|]. intros Eq. by apply Hne. }
      split; [done|]. split; [cbn; by rewrite Hst, Es|]. intros level i.
      change (occ ref (next_tick w') level i) with (occ ref w' level i). rewrite Ho, Hplace. by apply leave_other.
Qed.
End Wheel.
