(* ===== verification/TimerWheelRuns.v ===== *)
(** * The timer wheel: the tick a task runs in

    [pending] says of a wheel that a task will run in a tick: the place of the task and
    the tick of the wheel determine it, whatever other calls are made. *)
From S2P Require Import Prelude TimerWheel TimerWheelTheorems.

(** ** Ticks *)
Lemma moves_spec shift t i : 0 <= shift <= 26 -> 0 <= t -> t + 1 < 2 ^ 32 ->
  moves (Z.shiftl 63 shift) shift t i <->
  (t + 1) mod 2 ^ shift = 0 /\ i = Z.to_nat (((t + 1) / 2 ^ shift) mod 64).
Proof.
  intros Hs Ht Hlt. unfold moves. rewrite (wrap_small 32 (t + 1)) by (unfold is_uint; lia).
  rewrite !hand_mod by lia. change 63 with (2 ^ 6 - 1). rewrite land_ones_mod by lia. change (2 ^ 6) with 64.
  assert (Hp : 0 < 2 ^ shift) by lia. set (p := 2 ^ shift) in *.
  rewrite Zplus_mod_idemp_l.
  pose proof (Z.div_mod t p ltac:(lia)) as Hd. pose proof (Z.mod_pos_bound t p Hp) as Hm.
  destruct (decide (t mod p = p - 1)) as [E|Hne].
  - assert (E1 : t + 1 = (t / p + 1) * p) by nia. rewrite E1, Z.div_mul, Z.mod_mul by lia. tauto.
  - assert (E1 : (t + 1) / p = t / p) by (symmetry; apply (Z.div_unique_pos _ _ _ (t mod p + 1)); lia).
    assert (E2 : (t + 1) mod p = t mod p + 1) by (symmetry; apply (Z.mod_unique_pos _ _ (t / p)); lia).
    rewrite E1, E2. split; [|lia]. intros [E _]. exfalso.
    pose proof (Z.div_mod (t / p + 1) 64 ltac:(lia)). pose proof (Z.div_mod (t / p) 64 ltac:(lia)).
    pose proof (Z.mod_pos_bound (t / p) 64 ltac:(lia)). lia.
Qed.

Lemma index_of_mod t : index_of t = Z.to_nat (t mod 256).
Proof. unfold index_of. change 255 with (2 ^ 8 - 1). by rewrite land_ones_mod by lia. Qed.

(** Numbers less than [n] apart have different remainders. *)
Lemma mod_apart n a b : 0 < n -> a < b -> b - a < n -> Z.to_nat (a mod n) <> Z.to_nat (b mod n).
Proof.
  intros Hn Hab Hlt E. pose proof (Z.mod_pos_bound a n Hn). pose proof (Z.mod_pos_bound b n Hn).
  apply Z2Nat.inj in E; [|lia..]. pose proof (Z.div_mod a n ltac:(lia)). pose proof (Z.div_mod b n ltac:(lia)).
  assert (Hk : n * (b / n - a / n) = b - a) by (rewrite Z.mul_sub_distr_l; lia).
  clear -Hk Hab Hlt Hn. set (k := b / n - a / n) in *. assert (k <= 0 \/ 1 <= k) as [?|?] by lia; nia.
Qed.

(** The next number after [a] whose remainder by 64 is [i]. *)
Definition next_multiple (a i : Z) : Z := a + 1 + (i - a - 1) mod 64.
Lemma next_multiple_spec a i : 0 <= i < 64 -> a < next_multiple a i <= a + 64 /\ next_multiple a i mod 64 = i.
Proof.
  intros Hi. unfold next_multiple. pose proof (Z.mod_pos_bound (i - a - 1) 64 ltac:(lia)). split; [lia|].
  rewrite Zplus_mod_idemp_r. replace (a + 1 + (i - a - 1)) with i by lia. by apply Z.mod_small.
Qed.

Definition clip (m g : Z) : Z := if m <=? g then m else g.
Lemma clip_range m g : 0 <= m -> 0 <= g -> 0 <= clip m g <= m.
Proof. unfold clip. destruct (m <=? g) eqn:E; lia. Qed.

Section Runs.
Context {L : Type}.
Variable reading : Z -> nat -> Z.
Variable pool : option (Z -> positive -> bool).
Implicit Types (w : TimerWheel L) (task : TimerWheelTask L).

(** The gaps left in the turn of [t] until [e]. *)
Definition gaps_left (e t : Z) : Z := Z.quot (Z.max 0 (e - reading t 0)) tickGap.
Lemma gaps_left_nonneg e t : 0 <= gaps_left e t.
Proof. unfold gaps_left, tickGap. rewrite Z.quot_div_nonneg by lia. apply Z.div_pos; lia. Qed.

(** The tick a task of level two runs in when its bucket is moved in the turn before
    tick [256 * q], and one of level three before [16384 * q]. *)
Definition tick_from_two (q e : Z) : Z := 256 * q - 1 + clip 255 (gaps_left e (256 * q - 1)).
Definition tick_from_three (q e : Z) : Z :=
  tick_from_two (64 * q + clip 16128 (gaps_left e (16384 * q - 1)) / 256) e.

Definition pending_place (e t R : Z) (p : nat * nat) : Prop :=
  (p = (0%nat, Z.to_nat (R mod 256)) /\ t <= R <= t + 255) \/
  (exists q, p = (1%nat, Z.to_nat (q mod 64)) /\ t / 256 < q <= t / 256 + 64 /\ R = tick_from_two q e) \/
  (exists q, p = (2%nat, Z.to_nat (q mod 64)) /\ t / 16384 < q <= t / 16384 + 64 /\ R = tick_from_three q e).

(** The latest tick it can be. *)
Lemma pending_place_bound e t R p : 0 <= t -> pending_place e t R p -> t <= R <= t + 2 ^ 20 + 2 ^ 15.
Proof.
  intros Ht H. assert (H2 : forall q, 256 * q - 1 <= tick_from_two q e <= 256 * q + 254).
  { intros q. unfold tick_from_two. pose proof (clip_range 255 _ ltac:(lia) (gaps_left_nonneg e (256 * q - 1))). lia. }
  pose proof (Z.div_mod t 256 ltac:(lia)). pose proof (Z.mod_pos_bound t 256 ltac:(lia)).
  pose proof (Z.div_mod t 16384 ltac:(lia)). pose proof (Z.mod_pos_bound t 16384 ltac:(lia)).
  change (2 ^ 20) with 1048576. change (2 ^ 15) with 32768.
  destruct H as [(_ & H)|[(q & _ & Hq & ->)|(q & _ & Hq & ->)]]; [lia|specialize (H2 q); lia|].
  unfold tick_from_three. pose proof (clip_range 16128 _ ltac:(lia) (gaps_left_nonneg e (16384 * q - 1))) as Hc.
  set (c := clip _ _) in *. specialize (H2 (64 * q + c / 256)).
  assert (0 <= c / 256 <= 63) by (split; [apply Z.div_pos; lia|apply Z.div_le_upper_bound; lia]). lia.
Qed.

(** ** One turn *)
Lemma descend_other check shift from to_level where_to t now task (p : nat * nat) : p.1 <> from ->
  descend check shift from to_level where_to t now task p = p.
Proof. intros Hne. unfold descend. by rewrite decide_False by tauto. Qed.

Lemma where_two_mod t g : t mod 256 = 255 -> 0 <= g -> Z.to_nat (where_two t g) = Z.to_nat ((t + clip 255 g) mod 256).
Proof.
  intros Ht Hg. unfold where_two, clip, checkOne. change 255 with (2 ^ 8 - 1). rewrite !land_ones_mod by lia.
  change (2 ^ 8) with 256. by rewrite Zplus_mod_idemp_l.
Qed.

Lemma land_checkTwo g : Z.shiftr (Z.land g checkTwo) 8 = (g / 256) mod 64.
Proof. change checkTwo with (Z.shiftl 63 8). exact (hand_mod 8 g ltac:(lia)). Qed.

Lemma where_three_mod t g : (t + 1) mod 16384 = 0 -> 0 <= t -> t + 1 < 2 ^ 32 -> 0 <= g ->
  Z.to_nat (where_three t g) = Z.to_nat (((t + 1) / 256 + clip 16128 g / 256) mod 64).
Proof.
  intros Ht H0 Hlt Hg. unfold where_three. change (if checkTwo <=? g then checkTwo else g) with (clip 16128 g).
  rewrite (wrap_small 32 (t + 1)) by (unfold is_uint; lia). rewrite land_checkTwo.
  change checkTwo with (Z.shiftl 63 8). rewrite hand_mod by lia. change 63 with (2 ^ 6 - 1). rewrite land_ones_mod by lia.
  change (2 ^ 6) with 64. change (2 ^ 8) with 256. by rewrite <-Z.add_mod by lia.
Qed.

(** A hand that is between [t] and the tick of a bucket does not move the bucket. *)
Lemma moves_next shift t q : 0 <= shift <= 26 -> 0 <= t -> t + 1 < 2 ^ 32 ->
  t / 2 ^ shift < q <= t / 2 ^ shift + 64 ->
  moves (Z.shiftl 63 shift) shift t (Z.to_nat (q mod 64)) <-> t + 1 = 2 ^ shift * q.
Proof.
  intros Hs Ht Hlt Hq. rewrite moves_spec by lia. assert (Hp : 0 < 2 ^ shift) by lia. set (p := 2 ^ shift) in *.
  split.
  - intros [Em Ei]. pose proof (Z.div_mod (t + 1) p ltac:(lia)) as Hd. rewrite Em, Z.add_0_r in Hd.
    set (m := (t + 1) / p) in *. assert (Hm : t / p = m - 1).
    { symmetry. apply (Z.div_unique_pos _ _ _ (p - 1)); nia. }
    destruct (decide (m = q)) as [->|Hne]; [done|]. exfalso. apply (mod_apart 64 m q); [lia..|]. by rewrite Ei.
  - intros ->. rewrite Z.mul_comm, Z.mod_mul, Z.div_mul by lia. done.
Qed.

(** Before the tick of its bucket it stays before it. *)
Lemma still_before p t q : 0 < p -> 0 <= t -> t / p < q <= t / p + 64 -> t + 1 <> p * q ->
  (t + 1) / p < q <= (t + 1) / p + 64.
Proof.
  intros Hp Ht [Hlo Hhi] Hne. pose proof (Z.div_le_mono t (t + 1) p Hp ltac:(lia)). split; [|lia].
  apply Z.div_lt_upper_bound; [done|]. pose proof (Z.div_mod t p ltac:(lia)). pose proof (Z.mod_pos_bound t p Hp).
  assert (t < p * q) by nia. lia.
Qed.

Definition turn_of_pending e t R (p : nat * nat) : Prop :=
  if decide (t = R) then p = (0%nat, index_of t)
  else p <> (0%nat, index_of t) /\ pending_place e (t + 1) R p.

Lemma pending_level_one t R : 0 <= t <= R -> R <= t + 255 -> forall e,
  turn_of_pending e t R (0%nat, Z.to_nat (R mod 256)).
Proof.
  intros Ht HR e. unfold turn_of_pending. rewrite index_of_mod. destruct (decide (t = R)) as [->|Hne]; [done|]. split.
  - intros [= E]. apply (mod_apart 256 t R); [lia..|congruence].
  - left. split; [done|lia].
Qed.

Lemma pending_level_two t task q : 0 <= t -> t + 2 ^ 21 < 2 ^ 32 -> t / 256 < q <= t / 256 + 64 ->
  turn_of_pending (expire task) t (tick_from_two q (expire task))
    (descend checkTwo 8 1 0 (where_two t) t (reading t 0) task (1%nat, Z.to_nat (q mod 64))).
Proof.
  intros Ht Hlt Hq. change checkTwo with (Z.shiftl 63 8). unfold descend. cbn [fst snd].
  pose proof (moves_next 8 t q ltac:(lia) Ht ltac:(lia) Hq) as Hmoves. change (2 ^ 8) with 256 in Hmoves.
  pose proof (gaps_left_nonneg (expire task) t) as Hg. set (e := expire task) in *.
  destruct (decide (1%nat = 1%nat /\ _)) as [[_ Hm]|Hn].
  - apply Hmoves in Hm. assert (Et : t = 256 * q - 1) by lia.
    rewrite where_two_mod; [|subst t; rewrite <-(Z.mod_unique_pos (256 * q - 1) 256 (q - 1) 255); lia|done].
    change (leaves task (reading t 0)) with (gaps_left e t).
    assert (ER : tick_from_two q e = t + clip 255 (gaps_left e t)) by (unfold tick_from_two; by rewrite <-Et).
    rewrite ER. pose proof (clip_range 255 _ ltac:(lia) Hg). apply pending_level_one; lia.
  - assert (Hne : t + 1 <> 256 * q) by tauto. unfold turn_of_pending. rewrite decide_False.
    + split; [done|]. right. left. exists q. split; [done|]. split; [|done]. by apply still_before; [lia..|].
    + unfold tick_from_two. pose proof (clip_range 255 _ ltac:(lia) (gaps_left_nonneg e (256 * q - 1))).
      pose proof (still_before 256 t q ltac:(lia) Ht Hq Hne) as [Hb _]. pose proof (Z.div_mod (t + 1) 256 ltac:(lia)).
      pose proof (Z.mod_pos_bound (t + 1) 256 ltac:(lia)). lia.
Qed.

Lemma pending_turn t R task p : 0 <= t -> t + 2 ^ 21 < 2 ^ 32 -> pending_place (expire task) t R p ->
  turn_of_pending (expire task) t R (after_cascades reading t task p).
Proof.
  intros Ht Hlt Hp. unfold after_cascades.
  assert (Hup : p.1 = 0%nat \/ p.1 = 1%nat \/ p.1 = 2%nat) by (destruct Hp as [[-> _]|[(? & -> & _)|(? & -> & _)]]; auto).
  rewrite (descend_other checkFive), (descend_other checkFour) by (rewrite ?descend_other; lia).
  destruct Hp as [(-> & HR)|[(q & -> & Hq & ->)|(q & -> & Hq & ->)]].
  - rewrite !descend_other by done. apply pending_level_one; lia.
  - rewrite (descend_other checkThree) by done. by apply pending_level_two.
  - pose proof (moves_next 14 t q ltac:(lia) Ht ltac:(lia) Hq) as Hmoves. change (2 ^ 14) with 16384 in Hmoves.
    pose proof (gaps_left_nonneg (expire task) t) as Hg. set (e := expire task) in *.
    unfold descend at 2. cbn [fst snd]. change checkThree with (Z.shiftl 63 14) at 1.
    destruct (decide (2%nat = 2%nat /\ _)) as [[_ Hm]|Hn].
    + apply Hmoves in Hm. assert (Et : t = 16384 * q - 1) by lia.
      pose proof (clip_range 16128 _ ltac:(lia) Hg) as Hc.
      rewrite where_three_mod; [|rewrite Hm, Z.mul_comm, Z.mod_mul; lia|lia|lia|done].
      change (leaves task (reading t 0)) with (gaps_left e t).
      assert (E64 : (t + 1) / 256 = 64 * q) by (rewrite Hm; replace (16384 * q) with (64 * q * 256) by lia; apply Z.div_mul; lia).
      assert (ER : tick_from_three q e = tick_from_two (64 * q + clip 16128 (gaps_left e t) / 256) e)
        by (unfold tick_from_three; by rewrite <-Et).
      rewrite E64, ER. set (c := clip 16128 (gaps_left e t)) in *.
      assert (0 <= c / 256 <= 63) by (split; [apply Z.div_pos; lia|apply Z.div_le_upper_bound; lia]).
      assert (t / 256 = 64 * q - 1) by (symmetry; apply (Z.div_unique_pos _ _ _ 255); lia).
      apply pending_level_two; [done|done|lia].
    + assert (Hne : t + 1 <> 16384 * q) by tauto. rewrite descend_other by done. unfold turn_of_pending. rewrite decide_False.
      * split; [done|]. right. right. exists q. split; [done|]. split; [|done]. by apply still_before; [lia..|].
      * pose proof (still_before 16384 t q ltac:(lia) Ht Hq Hne) as Hb.
        assert (Hpend : pending_place e (t + 1) (tick_from_three q e) (2%nat, Z.to_nat (q mod 64)))
          by (right; right; by exists q). apply pending_place_bound in Hpend; lia.
Qed.

(** ** The calls *)

(** A new task, set by a thread that holds no bucket. *)
Lemma set_new w task delay : wheel_ok w -> 0 <= delay -> exists ref w',
  (let '(ref, w) := allocate task w in w ← setTimerWheelTask None delay ref w; Some (ref, w)) = Some (ref, w') /\
  wheel_ok w' /\ tick w' = tick w /\ store w !! ref = None /\ (exists id, store w' !! ref = Some (set_id id task)) /\
  at_place ref w' ((place (tick w) delay).1, Z.to_nat (place (tick w) delay).2) /\
  (forall r, r <> ref -> agrees r w w') /\ (forall r, is_Some (store w !! r) -> is_Some (store w' !! r)).
Proof.
  intros Hok Hd. pose proof Hok as (Hs & Ht & Hr). unfold allocate. set (ref := fresh (dom (store w))).
  assert (Hnone : store w !! ref = None) by (apply not_elem_of_dom, is_fresh).
  set (w1 := {| store := <[ref := task]> (store w); tick := tick w; startDataTime := startDataTime w; levels := levels w |}).
  assert (Hok1 : wheel_ok w1).
  { split; [done|]. split; [done|]. intros l i r Hin. cbn. destruct (decide (r = ref)) as [->|Hne];
      [rewrite lookup_insert_eq; by eexists|rewrite lookup_insert_ne by done; by apply (Hr l i)]. }
  rewrite set_wheel_task_spec by (first [apply Ht | done | by left]). cbn [mbind option_bind].
  set (w2 := on_task (set_id delay) ref w1). assert (Hok2 : wheel_ok w2) by by apply on_task_ok.
  assert (Hp : in_range (place (tick w) delay).1 (Z.to_nat (place (tick w) delay).2)) by (apply place_range; [apply Ht|done]).
  assert (Href : is_Some (store w2 !! ref)) by (cbn; rewrite lookup_alter_eq, lookup_insert_eq; by eexists).
  destruct (add_task_eq ref (place (tick w) delay).1 (Z.to_nat (place (tick w) delay).2) w2) as (id & id' & Ea).
  exists ref, (add_task ref (place (tick w) delay).1 (Z.to_nat (place (tick w) delay).2) w2). split; [done|].
  split; [by apply add_task_ok|]. split; [by rewrite Ea|]. split; [done|].
  assert (Hocc : forall r level i, occ r w2 level i = occ r w level i) by done.
  split; [|split; [|split]].
  - exists id. rewrite Ea. cbn. by rewrite !lookup_alter_eq, lookup_insert_eq.
  - intros level i. rewrite occ_add_task by (apply Hok2 || done). rewrite Hocc.
    assert (E0 : occ ref w level i = 0%nat).
    { apply occ_absent. intros Hin. apply Hr in Hin. rewrite Hnone in Hin. by destruct Hin. }
    rewrite E0. destruct (decide (ref = ref /\ _)) as [(_ & -> & ->)|Hn]; [by rewrite decide_True|].
    rewrite decide_False; [done|]. intros [= -> ->]. by apply Hn.
  - intros r Hne. split; [by rewrite Ea|]. split.
    + rewrite Ea. cbn. rewrite !lookup_alter_ne by done. by rewrite lookup_insert_ne.
    + intros level i. rewrite occ_add_task by (apply Hok2 || done). rewrite decide_False by (intros [? _]; congruence).
      rewrite Hocc. lia.
  - intros r Hin. rewrite Ea. cbn. destruct (decide (r = ref)) as [->|Hne].
    + rewrite !lookup_alter_eq, lookup_insert_eq. by eexists.
    + rewrite !lookup_alter_ne by done. by rewrite lookup_insert_ne.
Qed.

Definition clears (ref : positive) (a : action (L := L)) : Prop := a = ClearTimeout ref \/ a = ClearInterval ref.

Lemma agrees_on_task f ref r w : r <> ref -> agrees r w (on_task f ref w).
Proof. intros Hne. split; [done|]. split; [cbn; by rewrite lookup_alter_ne|done]. Qed.
Lemma agrees_trans r w1 w2 w3 : agrees r w1 w2 -> agrees r w2 w3 -> agrees r w1 w3.
Proof. intros (H1 & H2 & H3) (H4 & H5 & H6). split; [congruence|]. split; [congruence|]. intros. by rewrite H6. Qed.
Lemma store_on_task f ref r w : is_Some (store w !! r) -> is_Some (store (on_task f ref w) !! r).
Proof. cbn. intros [x E]. destruct (decide (r = ref)) as [->|Hne]; [rewrite lookup_alter_eq, E|rewrite lookup_alter_ne by done]; by eexists. Qed.

(** Every call between two turns returns, and leaves the tasks it is not about alone. *)
Lemma call_spec (a : action (L := L)) w : a <> Turn -> wheel_ok w -> exists w', act reading pool a w = Some (w', []) /\
  wheel_ok w' /\ tick w' = tick w /\ (forall r, is_Some (store w !! r) -> is_Some (store w' !! r)) /\
  forall r, is_Some (store w !! r) -> ~ clears r a -> agrees r w w'.
Proof.
  intros Ha Hok.
  assert (Hset : forall task delay, 0 <= delay -> exists w',
    after_call (Ok (let '(ref, w) := allocate task w in w ← setTimerWheelTask None delay ref w; Some (ref, w))) w = Some (w', []) /\
    wheel_ok w' /\ tick w' = tick w /\ (forall r, is_Some (store w !! r) -> is_Some (store w' !! r)) /\
    forall r, is_Some (store w !! r) -> agrees r w w').
  { intros task delay Hd. destruct (set_new w task delay Hok Hd) as (ref & w' & E & Hok' & Et & Hnone & _ & _ & Hag & Hs).
    exists w'. rewrite E. do 4 (split; [done|]). intros r Hr. apply Hag. intros ->. rewrite Hnone in Hr. by destruct Hr. }
  assert (Herr : exists w', Some (w, []) = Some (w', @nil wheel_event) /\ wheel_ok w' /\ tick w' = tick w /\
    (forall r, is_Some (store w !! r) -> is_Some (store w' !! r)) /\ forall r, is_Some (store w !! r) -> agrees r w w').
  { exists w. do 4 (split; [done|]). intros r _. apply agrees_refl. }
  destruct a as [|now delay cb|now now' delay cb|ref|ref]; [done| | | |]; cbn [act].
  - unfold setTimeout. destruct (21474836480 <=? delay); [destruct Herr as (w' & ?); naive_solver|].
    destruct (delay <=? 0) eqn:Ed; [destruct Herr as (w' & ?); naive_solver|].
    destruct (Hset (new_task cb (now + delay)) delay ltac:(lia)) as (w' & E & H1 & H2 & H3 & H4).
    exists w'. split; [exact E|]. auto.
  - unfold setInterval. destruct (21474836480 <=? delay); [destruct Herr as (w' & ?); naive_solver|].
    destruct (delay <=? 0) eqn:Ed; [destruct Herr as (w' & ?); naive_solver|].
    destruct (delay <=? 10); [destruct Herr as (w' & ?); naive_solver|].
    edestruct (Hset {| callBack := cb; expire := now + delay; addDateTime := now'; isCancel := false; isDuplicate := true;
                   times := 0; delayInterval := delay; ID := 0 |} delay ltac:(lia)) as (w' & E & H1 & H2 & H3 & H4).
    exists w'. split; [exact E|]. auto.
  - exists (clearTimeout ref w). split; [done|]. split; [by apply on_task_ok|]. split; [done|].
    split; [intros r; apply store_on_task|]. intros r _ Hc. apply agrees_on_task. intros ->. apply Hc. by left.
  - exists (clearInterval ref w). split; [done|]. split; [by apply on_task_ok, on_task_ok|]. split; [done|].
    split; [intros r Hr; by apply store_on_task, store_on_task|]. intros r _ Hc.
    assert (r <> ref) by (intros ->; apply Hc; by right). eapply agrees_trans; by apply agrees_on_task.
Qed.

(** ** Histories *)
Notation act := (act reading pool).
Notation history := (history reading pool).
Notation turn := (turn reading pool).

Lemma turn_or_call (a : action (L := L)) : {a = Turn} + {a <> Turn}.
Proof. destruct a; [by left|by right..]. Qed.
Lemma clears_or (a : action (L := L)) ref : a = ClearTimeout ref \/ a = ClearInterval ref \/ ~ clears ref a.
Proof.
  unfold clears. destruct a as [| | |r|r]; try (right; right; intros [|]; discriminate);
    (destruct (decide (r = ref)) as [->|Hne]; [auto|right; right; intros [|]; congruence]).
Qed.

Lemma act_turn w : act Turn w = turn w.
Proof. done. Qed.

Lemma act_total a w : wheel_ok w -> exists w' ev, act a w = Some (w', ev) /\ wheel_ok w' /\
  forall r, is_Some (store w !! r) -> is_Some (store w' !! r).
Proof.
  intros Hok. destruct (turn_or_call a) as [->|Ha].
  - destruct (turn_spec reading pool w Hok) as (w' & ev & E & Hok' & _ & Hs & _). eauto.
  - destruct (call_spec a w Ha Hok) as (w' & E & Hok' & _ & Hs & _). eauto.
Qed.

(** A task that is nowhere is not run. *)
Lemma gone_act a w w' ev ref : wheel_ok w -> is_Some (store w !! ref) -> gone ref w -> act a w = Some (w', ev) ->
  gone ref w' /\ events_of ref ev = [].
Proof.
  intros Hok Hs Hg E. destruct (turn_or_call a) as [->|Ha].
  - destruct (turn_spec reading pool w Hok) as (w0 & ev0 & E0 & _ & _ & _ & Hr). rewrite act_turn, E0 in E.
    injection E as <- <-. by apply Hr.
  - destruct (call_spec a w Ha Hok) as (w0 & E0 & _ & _ & _ & Hag). rewrite E0 in E. injection E as <- <-. split; [|done].
    destruct (clears_or a ref) as [->|[->|Hc]]; [injection E0 as <-; done..|].
    destruct (Hag ref Hs Hc) as (_ & _ & Ho). intros level i. rewrite Ho. apply Hg.
Qed.

(** A cancelled task is not run, and stays cancelled. *)
Lemma cancelled_act a w w' ev ref : wheel_ok w -> is_Some (store w !! ref) -> live w ref = false -> act a w = Some (w', ev) ->
  live w' ref = false /\ events_of ref ev = [].
Proof.
  intros Hok Hs Hl E. destruct (turn_or_call a) as [->|Ha].
  - destruct (turn_spec reading pool w Hok) as (w0 & ev0 & E0 & _ & _ & _ & Hr). rewrite act_turn, E0 in E.
    injection E as <- <-. destruct (Hr ref) as (_ & Hc & _). destruct (Hc Hl) as [He Est]. split; [|done].
    rewrite live_spec in *. by rewrite Est.
  - destruct (call_spec a w Ha Hok) as (w0 & E0 & _ & _ & _ & Hag). rewrite E0 in E. injection E as <- <-. split; [|done].
    assert (Hf : forall f w, (forall t, isCancel t = true -> isCancel (f t) = true) -> live w ref = false ->
      live (on_task f ref w) ref = false).
    { intros f x Hmono. rewrite !live_spec. intros Hx task. cbn. rewrite lookup_alter_eq.
      destruct (store x !! ref) as [t|] eqn:Et; [|done]. intros [= <-]. apply Hmono. by apply Hx. }
    destruct (clears_or a ref) as [->|[->|Hc]]; [injection E0 as <-; by apply Hf|injection E0 as <-; by apply Hf, Hf|].
    destruct (Hag ref Hs Hc) as (_ & Est & _). rewrite live_spec in *. by rewrite Est.
Qed.

Lemma history_cons a l w r : history (a :: l) w = Some r -> exists w1 ev1 ev2, act a w = Some (w1, ev1) /\
  history l w1 = Some (r.1, ev2) /\ r.2 = ev1 ++ ev2.
Proof.
  cbn [history]. destruct (act a w) as [[w1 ev1]|]; [|done]. cbn. destruct (history l w1) as [[w2 ev2]|] eqn:E; [|done].
  cbn. intros [= <-]. by exists w1, ev1, ev2.
Qed.
Lemma events_of_app ref ev1 ev2 : events_of ref (ev1 ++ ev2) = events_of ref ev1 ++ events_of ref ev2.
Proof. apply List.filter_app. Qed.

Lemma history_total l w : wheel_ok w -> exists w' ev, history l w = Some (w', ev) /\ wheel_ok w'.
Proof.
  revert w. induction l as [|a l IH]; intros w Hok; [by eexists _, _|]. cbn [history].
  destruct (act_total a w Hok) as (w1 & ev1 & E1 & Hok1 & _). destruct (IH w1 Hok1) as (w2 & ev2 & E2 & Hok2).
  rewrite E1. cbn. rewrite E2. cbn. eauto.
Qed.

(** What holds of a task and keeps it from running holds for ever. *)
Lemma quiet_history (P : TimerWheel L -> Prop) ref :
  (forall a w w' ev, wheel_ok w -> is_Some (store w !! ref) -> P w -> act a w = Some (w', ev) -> P w' /\ events_of ref ev = []) ->
  forall l w w' ev, wheel_ok w -> is_Some (store w !! ref) -> P w -> history l w = Some (w', ev) -> P w' /\ events_of ref ev = [].
Proof.
  intros Hstep l. induction l as [|a l IH]; intros w w' ev Hok Hs HP E; [by injection E as <- <-|].
  apply history_cons in E as (w1 & ev1 & ev2 & E1 & E2 & Eev). cbn in E2, Eev.
  destruct (Hstep _ _ _ _ Hok Hs HP E1) as [HP1 He1].
  destruct (act_total a w Hok) as (w0 & ev0 & E0 & Hok1 & Hs1). rewrite E1 in E0. injection E0 as <- <-.
  destruct (IH w1 w' ev2 Hok1 (Hs1 _ Hs) HP1 E2) as [HP2 He2]. split; [done|]. by rewrite Eev, events_of_app, He1, He2.
Qed.

(** ** Pending tasks *)
Definition pending ref (e R : Z) w : Prop := exists task p,
  store w !! ref = Some task /\ isCancel task = false /\ isDuplicate task = false /\ expire task = e /\
  at_place ref w p /\ pending_place e (tick w) R p.

Definition run_once ref (R : Z) (ev : list wheel_event) : Prop :=
  exists b, events_of ref ev = [{| at_tick := R; event_task := ref; by_pool := b |}].

Lemma pending_call a w w' ev ref e R : a <> Turn -> wheel_ok w -> pending ref e R w -> ~ clears ref a -> act a w = Some (w', ev) ->
  pending ref e R w' /\ tick w' = tick w /\ events_of ref ev = [].
Proof.
  intros Ha Hok (task & p & Es & Hp) Hc E. destruct (call_spec a w Ha Hok) as (w0 & E0 & _ & _ & _ & Hag).
  rewrite E0 in E. injection E as <- <-. destruct (Hag ref ltac:(by eexists) Hc) as (Et & Est & Ho).
  split; [|done]. exists task, p. rewrite Et, Est. split; [done|].
  destruct Hp as (H1 & H2 & H3 & Hat & H4). repeat (split; [done|]). split; [|done]. intros level i. by rewrite Ho.
Qed.

Lemma next_u32 t : 0 <= t -> t + 2 ^ 21 < 2 ^ 32 -> u32 (t + 1) = t + 1.
Proof. intros. apply wrap_small. unfold is_uint. lia. Qed.

Lemma pending_turns w w' ev ref e R : wheel_ok w -> tick w + 2 ^ 21 < 2 ^ 32 -> pending ref e R w -> turn w = Some (w', ev) ->
  tick w' = tick w + 1 /\
  if decide (tick w = R) then gone ref w' /\ run_once ref R ev else pending ref e R w' /\ events_of ref ev = [].
Proof.
  intros Hok Hlt (task & p & Es & Hc & Hd & He & Hat & Hp) E.
  destruct (turn_spec reading pool w Hok) as (w0 & ev0 & E0 & _ & Et & _ & Hr). rewrite E0 in E. injection E as <- <-.
  pose proof Hok as (_ & [H0 _] & _). rewrite (next_u32 _ H0 Hlt) in Et.
  split; [exact Et|]. destruct (Hr ref) as (_ & _ & Heff). specialize (Heff task p Es Hc Hat).
  subst e. pose proof (pending_turn (tick w) R task p H0 Hlt Hp) as Ht.
  revert Ht Heff. generalize (after_cascades reading (tick w) task p). intros q Ht Heff. unfold turn_of_pending in Ht. unfold turn_effect in Heff. cbv zeta in Heff.
  destruct (decide (tick w = R)) as [<-|Hne].
  - rewrite decide_True in Heff by exact Ht. destruct Heff as (b & Hev & Hk). rewrite Hd in Hk. split; [exact Hk|]. exists b. exact Hev.
  - destruct Ht as [Hq Hp']. rewrite decide_False in Heff by exact Hq. destruct Heff as (Hev & Est & Hat'). split; [|exact Hev].
    exists task, q. rewrite Et. exact (conj Est (conj Hc (conj Hd (conj eq_refl (conj Hat' Hp'))))).
Qed.

Lemma pending_history ref e R l : forall w w' ev, wheel_ok w -> R + 2 ^ 21 < 2 ^ 32 -> pending ref e R w ->
  (forall a, a ∈ l -> ~ clears ref a) -> history l w = Some (w', ev) ->
  if decide (Z.of_nat (turns l) <= R - tick w) then pending ref e R w' /\ events_of ref ev = [] else run_once ref R ev.
Proof.
  induction l as [|a l IH]; intros w w' ev Hok Hlt Hp Hc E.
  - injection E as <- <-. pose proof Hp as (task & p & _ & _ & _ & _ & _ & Hpl). pose proof Hok as (_ & [H0 _] & _).
    apply pending_place_bound in Hpl; [|done]. rewrite decide_True by (cbn; lia). done.
  - pose proof Hp as (task & p & Es & _ & _ & _ & _ & Hpl). pose proof Hok as (_ & [H0 _] & _).
    apply pending_place_bound in Hpl; [|done].
    apply history_cons in E as (w1 & ev1 & ev2 & E1 & E2 & Eev). cbn in E2, Eev. subst ev.
    destruct (act_total a w Hok) as (w0 & ev0 & E0 & Hok1 & Hs1). rewrite E1 in E0. injection E0 as <- <-.
    assert (Hcl : forall a, a ∈ l -> ~ clears ref a) by (intros; apply Hc; by right).
    rewrite events_of_app. unfold run_once. rewrite events_of_app. destruct (turn_or_call a) as [->|Ha].
    + destruct (pending_turns _ _ _ _ _ _ Hok ltac:(lia) Hp E1) as [Et Hstep].
      assert (turns (Turn :: l) = S (turns l)) as -> by done. destruct (decide (tick w = R)) as [HR|HR].
      * rewrite decide_False by lia. destruct Hstep as [Hg (b & Hb)]. exists b. rewrite Hb.
        destruct (quiet_history (gone ref) ref (fun a w w' ev => gone_act a w w' ev ref) l w1 w' ev2 Hok1) as [_ ->];
          [apply Hs1; by eexists|done|done|done].
      * destruct Hstep as [Hp1 ->]. specialize (IH w1 w' ev2 Hok1 Hlt Hp1 Hcl E2). rewrite Et in IH.
        destruct (decide (Z.of_nat (turns l) <= R - (tick w + 1))); [rewrite decide_True by lia|rewrite decide_False by lia]; done.
    + destruct (pending_call a w w1 ev1 ref e R Ha Hok Hp (Hc a ltac:(by left)) E1) as (Hp1 & Et & ->).
      assert (turns (a :: l) = turns l) as -> by (destruct a; done).
      specialize (IH w1 w' ev2 Hok1 Hlt Hp1 Hcl E2). by rewrite Et in IH.
Qed.

(** ** The tick a timeout runs in *)
Definition run_tick (t delay e : Z) : Z :=
  let g := delay / 5 in
  if g <=? 255 then t + g
  else if g <=? 16128 then tick_from_two ((t + g) / 256) e
  else tick_from_three (next_multiple (t / 16384) (((t + g) / 256) mod 64)) e.

Lemma place_pending t delay e : 0 <= t -> 0 <= delay -> delay < 5160965 ->
  pending_place e t (run_tick t delay e) ((place t delay).1, Z.to_nat (place t delay).2).
Proof.
  intros Ht Hd Hlt. unfold place, run_tick. rewrite quot_delay by done. set (g := delay / 5).
  assert (Hg : 0 <= g < 1032193) by (split; [apply Z.div_pos; lia|apply Z.div_lt_upper_bound; lia]).
  unfold checkOne, checkTwo, checkThree, LevelOneSize. change (256 - 1) with 255.
  destruct (g <=? 255) eqn:E1; [|destruct (g <=? 16128) eqn:E2; [|destruct (g <=? 1032192) eqn:E3; [|lia]]]; cbn [fst snd].
  - left. split; [|lia]. change 255 with (2 ^ 8 - 1). rewrite !land_ones_mod by lia. change (2 ^ 8) with 256.
    by rewrite <-Z.add_mod by lia.
  - right. left. exists ((t + g) / 256). change 16128 with checkTwo. rewrite land_checkTwo. split; [done|]. split; [|done].
    pose proof (Z.div_mod t 256 ltac:(lia)). pose proof (Z.mod_pos_bound t 256 ltac:(lia)). split.
    + assert (t / 256 + 1 <= (t + g) / 256); [apply Z.div_le_lower_bound; lia|lia].
    + assert ((t + g) / 256 < t / 256 + 65); [|lia]. apply Z.div_lt_upper_bound; lia.
  - right. right. change 16128 with checkTwo. rewrite land_checkTwo.
    destruct (next_multiple_spec (t / 16384) (((t + g) / 256) mod 64)) as [Hb Hm]; [apply Z.mod_pos_bound; lia|].
    eexists. rewrite Hm. split; [done|]. split; [exact Hb|done].
Qed.

Lemma timeout_pending w now delay cb ref w1 : wheel_ok w -> 0 <= delay -> delay < 5160965 ->
  setTimeout now delay cb w = Ok (Some (ref, w1)) ->
  wheel_ok w1 /\ tick w1 = tick w /\ pending ref (now + delay) (run_tick (tick w) delay (now + delay)) w1.
Proof.
  intros Hok Hd Hlt E. unfold setTimeout in E. destruct (21474836480 <=? delay); [done|].
  destruct (delay <=? 0); [done|].
  destruct (set_new w (new_task cb (now + delay)) delay Hok Hd) as (r & w' & E' & Hok' & Et & _ & (id & Es) & Hat & _ & _).
  assert (Some (ref, w1) = Some (r, w')) as [= -> ->].
  { rewrite <-E'. revert E. destruct (allocate _ _) as [r0 w0]. by intros [= ->]. }
  split; [done|]. split; [done|]. exists (set_id id (new_task cb (now + delay))). eexists.
  split; [exact Es|]. do 3 (split; [done|]). split; [exact Hat|]. rewrite Et. apply place_pending; [apply Hok|lia..].
Qed.

(** C21: a timeout of less than 86 minutes runs exactly once, in the tick that [run_tick]
    gives, whatever other calls are made, unless it is cleared: the histories that reach
    that tick run it once, the shorter ones do not.  Below 1280 ms [run_tick] is the tick it
    is due in, [delay / 5] ticks later; from there to 80645 ms, with a clock that agrees
    with the ticks when the task is moved to the first level, it is the due tick or the one
    before; above, [run_tick] can be far from the due tick, as for 82 seconds and for 83
    minutes ([long_timeouts_misplaced]). *)
Theorem timeout_runs_on_time w (now delay : Z) (cb : L) ref w1 : wheel_ok w ->
  setTimeout now delay cb w = Ok (Some (ref, w1)) -> delay < 5160965 -> tick w + 2 ^ 22 < 2 ^ 32 ->
  let R := run_tick (tick w) delay (now + delay) in
  (forall l w2 ev, history l w1 = Some (w2, ev) -> (forall a, a ∈ l -> ~ clears ref a) ->
     if decide (Z.of_nat (turns l) <= R - tick w) then events_of ref ev = [] else run_once ref R ev) /\
  (delay < 1280 -> R = tick w + delay / 5) /\
  (let T := 256 * ((tick w + delay / 5) / 256) - 1 in let left := tick w + delay / 5 - T in
   1280 <= delay < 80645 -> 5 * left <= now + delay - reading T 0 < 5 * left + 5 ->
   tick w + delay / 5 - 1 <= R <= tick w + delay / 5).
Proof.
  intros Hok E Hlt Htick. assert (Hd : 0 <= delay).
  { unfold setTimeout in E. destruct (21474836480 <=? delay); [done|]. destruct (delay <=? 0) eqn:Ed; [done|]. lia. }
  cbv zeta. pose proof Hok as (_ & [H0 _] & _). split; [|split].
  - intros l w2 ev El Hc. destruct (timeout_pending _ _ _ _ _ _ Hok Hd Hlt E) as (Hok1 & Et & Hp).
    pose proof Hp as (task & p & _ & _ & _ & _ & _ & Hpl). rewrite <-Et in H0. apply pending_place_bound in Hpl; [|done].
    assert (HR : run_tick (tick w) delay (now + delay) + 2 ^ 21 < 2 ^ 32) by (rewrite Et in Hpl; lia).
    pose proof (pending_history ref (now + delay) _ l w1 w2 ev Hok1 HR Hp Hc El) as Hh. rewrite Et in Hh.
    by destruct (decide _); [destruct Hh|].
  - intros Hs. unfold run_tick. assert (delay / 5 < 256) by (apply Z.div_lt_upper_bound; lia).
    destruct (delay / 5 <=? 255) eqn:Eb; lia.
  - intros Hs Hclock. unfold run_tick. assert (256 <= delay / 5) by (apply Z.div_le_lower_bound; lia).
    assert (delay / 5 < 16129) by (apply Z.div_lt_upper_bound; lia).
    destruct (delay / 5 <=? 255) eqn:Eb; [lia|]. destruct (delay / 5 <=? 16128) eqn:Eb2; [|lia].
    unfold tick_from_two. set (T := 256 * _ - 1) in *. set (x := tick w + delay / 5) in *.
    assert (HT : x - 255 <= T + 1 <= x).
    { unfold T. pose proof (Z.div_mod x 256 ltac:(lia)). pose proof (Z.mod_pos_bound x 256 ltac:(lia)). lia. }
    assert (Eg : gaps_left (now + delay) T = x - T).
    { unfold gaps_left, tickGap. rewrite Z.max_r, Z.quot_div_nonneg by lia. symmetry.
      apply (Z.div_unique_pos _ _ _ (now + delay - reading T 0 - 5 * (x - T))); lia. }
    rewrite Eg. unfold clip. destruct (255 <=? x - T) eqn:?; lia.
Qed.

(** Above 80645 ms the bucket is computed with the mask of the second level and the
    task is late or early: set at tick 0, a timeout of 82 seconds does not run before
    87 minutes have passed, and one of 83 minutes runs after 4. *)
Theorem long_timeouts_misplaced w (now : Z) (cb : L) ref w1 l w2 ev : wheel_ok w -> tick w = 0 ->
  (forall a, a ∈ l -> ~ clears ref a) -> history l w1 = Some (w2, ev) ->
  (setTimeout now 81920 cb w = Ok (Some (ref, w1)) -> Z.of_nat (turns l) < 1048576 -> events_of ref ev = []) /\
  (setTimeout now 5000000 cb w = Ok (Some (ref, w1)) -> (forall t, reading t 0 = now + tickGap * t) ->
     49151 <= Z.of_nat (turns l) -> run_once ref 49150 ev).
Proof.
  intros Hok H0 Hc El. split; intros E.
  - intros Hlt. destruct (timeout_pending w now 81920 cb ref w1 Hok ltac:(lia) ltac:(lia) E) as (Hok1 & Et & Hp).
    rewrite H0 in *. set (R := run_tick 0 81920 (now + 81920)) in *.
    assert (HR : 1048575 <= R < 2 ^ 21).
    { assert (ER : R = tick_from_three 64 (now + 81920)) by reflexivity. rewrite ER. clear R ER Hp.
      unfold tick_from_three, tick_from_two.
      pose proof (clip_range 16128 _ ltac:(lia) (gaps_left_nonneg (now + 81920) (16384 * 64 - 1))) as Hr. set (c := clip 16128 _) in *.
      assert (0 <= c / 256 <= 63) by (split; [apply Z.div_pos; lia|apply Z.div_le_upper_bound; lia]).
      pose proof (clip_range 255 _ ltac:(lia) (gaps_left_nonneg (now + 81920) (256 * (64 * 64 + c / 256) - 1))) as Hr2. lia. }
    pose proof (pending_history ref _ R l w1 w2 ev Hok1 ltac:(lia) Hp Hc El) as Hh.
    rewrite decide_True in Hh by (rewrite Et; lia). by destruct Hh.
  - intros Hclock Hge. destruct (timeout_pending w now 5000000 cb ref w1 Hok ltac:(lia) ltac:(lia) E) as (Hok1 & Et & Hp). rewrite H0 in *.
    assert (Eg : forall t, gaps_left (now + 5000000) t = Z.quot (Z.max 0 (5000000 - 5 * t)) 5).
    { intros t. unfold gaps_left. rewrite Hclock. unfold tickGap. do 2 f_equal. lia. }
    assert (HR : run_tick 0 5000000 (now + 5000000) = 49150).
    { unfold run_tick, tick_from_three, tick_from_two. rewrite !Eg. vm_compute. reflexivity. }
    rewrite HR in Hp. pose proof (pending_history ref _ 49150 l w1 w2 ev Hok1 ltac:(lia) Hp Hc El) as Hh.
    rewrite decide_False in Hh by (rewrite Et; lia). done.
Qed.

(** C23: the wheel never blocks: from a well-formed wheel every history returns with a
    well-formed wheel, though tasks are put back with a bucket locked; a task that is
    cancelled is never run again.  A callback that is run by the thread itself and sets a
    timeout of less than 5 ms blocks it for ever. *)
Theorem wheel_never_blocks w (l : list action) ref delay : wheel_ok w -> 0 <= delay ->
  (exists w' ev, history l w = Some (w', ev) /\ wheel_ok w' /\
     (is_Some (store w !! ref) -> live w ref = false -> events_of ref ev = [] /\ live w' ref = false)) /\
  (is_Some (store w !! ref) -> forall a, clears ref a -> exists w', act a w = Some (w', []) /\ live w' ref = false) /\
  (setTimerWheelTask (Some (Z.to_nat (Z.land (tick w) checkOne))) delay ref w = None <-> delay < 5).
Proof.
  intros Hok Hd. split; [|split].
  - destruct (history_total l w Hok) as (w' & ev & E & Hok'). exists w', ev. do 2 (split; [done|]).
    intros Hs Hl. destruct (quiet_history (fun w => live w ref = false) ref (fun a w w' ev => cancelled_act a w w' ev ref) l w w' ev)
      as [Hl' He]; done.
  - intros [task Es] a [->| ->]; eexists; (split; [reflexivity|]); apply live_spec; cbn; intros task';
      rewrite !lookup_alter_eq, Es; by intros [= <-].
  - pose proof (place_here (tick w) delay (proj1 (proj1 (proj2 Hok))) Hd) as Hp. unfold setTimerWheelTask.
    destruct (place (tick w) delay) as [level index]. cbn [fst snd] in Hp. change checkOne with 255.
    destruct (decide _) as [[-> E]|Hn]; [injection E as E|]; (split; [|intros Hlt; apply Hp in Hlt]).
    + intros _. apply Hp. auto.
    + done.
    + done.
    + exfalso. apply Hn. destruct Hlt as [-> ->]. done.
Qed.

(** ** Intervals *)

(** An interval of [d] ms, set at [add], that has run [k] times and runs next in tick [R]. *)
Definition interval_at ref (add d k R : Z) w : Prop := exists task,
  store w !! ref = Some task /\ isCancel task = false /\ isDuplicate task = true /\ addDateTime task = add /\
  delayInterval task = d /\ times task = k /\ at_place ref w (0%nat, Z.to_nat (R mod 256)) /\ tick w <= R <= tick w + 255.

(** The [k]th run is in the tick it is due in, give or take the granularity. *)
Definition near (t0 d k R : Z) : Prop := k * d - 8 <= 5 * (R - t0) <= k * d + 4.

(** A clock that agrees with the ticks, and was read at [add] in tick [t0]. *)
Definition clock_agrees (s t0 add : Z) : Prop :=
  (forall t k, s + 5 * t <= reading t k < s + 5 * t + 5) /\ s + 5 * t0 <= add < s + 5 * t0 + 5.

Lemma place_first t delay : 0 <= t -> 0 <= delay < 1280 ->
  ((place t delay).1, Z.to_nat (place t delay).2) = (0%nat, Z.to_nat ((t + delay / 5) mod 256)).
Proof.
  intros Ht Hd. unfold place. rewrite quot_delay by lia.
  assert (0 <= delay / 5 < 256) by (split; [apply Z.div_pos; lia|apply Z.div_lt_upper_bound; lia]).
  unfold checkOne, LevelOneSize. change (256 - 1) with 255. destruct (delay / 5 <=? 255) eqn:E; [|lia]. cbn [fst snd].
  change 255 with (2 ^ 8 - 1). rewrite !land_ones_mod by lia. change (2 ^ 8) with 256. by rewrite <-Z.add_mod by lia.
Qed.

Lemma rearm_near s t0 add d k R task j : clock_agrees s t0 add -> 11 <= d <= 1267 -> 0 <= k < 2 ^ 32 ->
  addDateTime task = add -> delayInterval task = d -> times task = k -> near t0 d (k + 1) R ->
  let delay := rearm_delay task (reading R j) in 10 <= delay < 1280 /\ near t0 d (k + 2) (R + delay / 5).
Proof.
  intros [Hc Ha] Hd Hk Eadd Ed Ek Hn. unfold near in *. specialize (Hc R j). unfold rearm_delay, next_run.
  rewrite Eadd, Ed, Ek. rewrite (wrap_small 64 (k + 1)) by (unfold is_uint; lia).
  rewrite (wrap_small 64 (k + 1 + 1)) by (unfold is_uint; lia). set (raw := add + (k + 1 + 1) * d - reading R j).
  assert (Hraw : raw = add + (k + 1) * d + d - reading R j) by (unfold raw; lia).
  replace ((k + 2) * d) with ((k + 1) * d + d) by lia. set (kd := (k + 1) * d) in *. clearbody raw kd.
  destruct (raw <? 10) eqn:E; cbv zeta.
  - change (10 / 5) with 2. lia.
  - pose proof (Z.div_mod raw 5 ltac:(lia)). pose proof (Z.mod_pos_bound raw 5 ltac:(lia)). lia.
Qed.

Lemma interval_turn s t0 add d k R ref w w' ev : clock_agrees s t0 add -> 11 <= d <= 1267 -> 0 <= k < 2 ^ 32 ->
  wheel_ok w -> tick w + 2 ^ 21 < 2 ^ 32 -> interval_at ref add d k R w -> near t0 d (k + 1) R -> turn w = Some (w', ev) ->
  tick w' = tick w + 1 /\
  if decide (tick w = R) then run_once ref R ev /\ exists R', interval_at ref add d (k + 1) R' w' /\ near t0 d (k + 2) R'
  else interval_at ref add d k R w' /\ events_of ref ev = [].
Proof.
  intros Hclock Hd Hk Hok Hlt (task & Es & Hc & Hdup & Eadd & Ed & Ek & Hat & HR) Hn E.
  destruct (turn_spec reading pool w Hok) as (w0 & ev0 & E0 & _ & Et & _ & Hr). rewrite E0 in E. injection E as <- <-.
  pose proof Hok as (_ & [H0 _] & _). rewrite (next_u32 _ H0 Hlt) in Et. split; [exact Et|].
  destruct (Hr ref) as (_ & _ & Heff). specialize (Heff task _ Es Hc Hat).
  assert (Hq : after_cascades reading (tick w) task (0%nat, Z.to_nat (R mod 256)) = (0%nat, Z.to_nat (R mod 256)))
    by (unfold after_cascades; by rewrite !descend_other).
  rewrite Hq in Heff. pose proof (pending_level_one (tick w) R ltac:(lia) ltac:(lia) 0) as Ht. unfold turn_of_pending in Ht.
  unfold turn_effect in Heff. cbv zeta in Heff. destruct (decide (tick w = R)) as [HtR|Hne].
  - rewrite decide_True in Heff by exact Ht. destruct Heff as (b & Hev & Hkk). rewrite Hdup in Hkk.
    destruct Hkk as (j & id & Est & Hat'). split; [exists b; by rewrite <-HtR|]. rewrite HtR in *.
    destruct (rearm_near s t0 add d k R task j Hclock Hd Hk Eadd Ed Ek Hn) as [Hdelay Hnear]. cbv zeta in *.
    rewrite place_first in Hat' by lia. set (delay := rearm_delay task (reading R j)) in *.
    assert (2 <= delay / 5) by (apply Z.div_le_lower_bound; lia). assert (delay / 5 < 256) by (apply Z.div_lt_upper_bound; lia).
    exists (R + delay / 5). split; [|exact Hnear]. exists (set_id id (rearmed task (next_run task))). split; [exact Est|].
    split; [exact Hc|]. split; [exact Hdup|]. split; [exact Eadd|]. split; [exact Ed|]. split; [|split; [exact Hat'|lia]].
    cbn. rewrite Ek. apply wrap_small. unfold is_uint. lia.
  - rewrite decide_False in Heff by exact (proj1 Ht). destruct Heff as (Hev & Est & Hat'). split; [|exact Hev].
    exists task. rewrite Et. split; [exact Est|]. do 5 (split; [assumption|]). split; [exact Hat'|]. lia.
Qed.

Lemma interval_history s t0 add d ref l : clock_agrees s t0 add -> 11 <= d <= 1267 -> forall k R w w' ev, 0 <= k ->
  k + Z.of_nat (turns l) < 2 ^ 32 -> wheel_ok w -> tick w + Z.of_nat (turns l) + 2 ^ 21 < 2 ^ 32 ->
  interval_at ref add d k R w -> near t0 d (k + 1) R ->
  (forall a, a ∈ l -> ~ clears ref a) -> history l w = Some (w', ev) ->
  tick w' = tick w + Z.of_nat (turns l) /\
  (exists R', interval_at ref add d (k + Z.of_nat (length (events_of ref ev))) R' w' /\
     near t0 d (k + Z.of_nat (length (events_of ref ev)) + 1) R') /\
  forall i e, events_of ref ev !! i = Some e -> near t0 d (k + Z.of_nat i + 1) (at_tick e).
Proof.
  intros Hclock Hd. induction l as [|a l IH]; intros k R w w' ev Hk Hkl Hok Hlt Hi Hn Hc E.
  { injection E as <- <-. cbn. rewrite !Z.add_0_r. split; [done|]. split; [by exists R|]. by intros [|]. }
  apply history_cons in E as (w1 & ev1 & ev2 & E1 & E2 & Eev). cbn in E2, Eev. subst ev. rewrite events_of_app.
  destruct (act_total a w Hok) as (w0 & ev0 & E0 & Hok1 & _). rewrite E1 in E0. injection E0 as <- <-.
  assert (Hcl : forall a, a ∈ l -> ~ clears ref a) by (intros; apply Hc; by right).
  destruct (turn_or_call a) as [->|Ha].
  - assert (turns (Turn :: l) = S (turns l)) as Eturns by done. rewrite Eturns in *.
    destruct (interval_turn s t0 add d k R ref w w1 ev1 Hclock Hd ltac:(lia) Hok ltac:(lia) Hi Hn E1) as [Et Hstep].
    destruct (decide (tick w = R)) as [HR|HR].
    + destruct Hstep as ((b & Hb) & R1 & Hi1 & Hn1). rewrite Hb.
      destruct (IH (k + 1) R1 w1 w' ev2) as (Et2 & (R2 & Hi2 & Hn2) & Hall); [lia|lia|done|lia|done| |done|done|].
      { replace (k + 1 + 1) with (k + 2) by lia. done. }
      split; [lia|]. rewrite length_app. cbn [length]. split.
      * exists R2. replace (k + Z.of_nat (1 + length (events_of ref ev2))) with (k + 1 + Z.of_nat (length (events_of ref ev2))) by lia. done.
      * intros [|i] e; [replace (k + Z.of_nat 0 + 1) with (k + 1) by lia; by intros [= <-]|].
        change ((_ :: events_of ref ev2) !! S i) with (events_of ref ev2 !! i).
        intros He. apply Hall in He. by replace (k + Z.of_nat (S i) + 1) with (k + 1 + Z.of_nat i + 1) by lia.
    + destruct Hstep as [Hi1 ->]. cbn [app].
      destruct (IH k R w1 w' ev2) as (Et2 & Hrest & Hall); [lia|lia|done|lia|done..|]. split; [lia|]. done.
  - assert (turns (a :: l) = turns l) as Eturns by (destruct a; done). rewrite Eturns in *.
    destruct Hi as (task & Es & Hrest). destruct (call_spec a w Ha Hok) as (w0 & E0 & _ & _ & _ & Hag).
    rewrite E1 in E0. injection E0 as <- ->. destruct (Hag ref ltac:(by eexists) (Hc a ltac:(by left))) as (Et & Est & Ho).
    cbn [events_of List.filter app]. destruct (IH k R w1 w' ev2) as (Et2 & Hr & Hall); [lia|lia|done|lia| |done..|].
    { exists task. rewrite Et, Est. split; [done|]. destruct Hrest as (H1 & H2 & H3 & H4 & H5 & H6 & H7).
      do 5 (split; [assumption|]). split; [|done]. intros level i. by rewrite Ho. }
    split; [lia|]. done.
Qed.

(** An interval does not drift: with a clock that agrees with the ticks, the [i]th run of
    an interval of [d] ms is within 8 ms of [i * d] after it was set, until the tick counter
    is near 2^32, and every run that is due has been made. *)
Theorem interval_on_schedule w (s now now' d : Z) (cb : L) ref w1 (l : list action) w2 ev : wheel_ok w ->
  clock_agrees s (tick w) now' -> 11 <= d <= 1267 -> setInterval now now' d cb w = Ok (Some (ref, w1)) ->
  tick w + Z.of_nat (turns l) + 2 ^ 21 < 2 ^ 32 -> (forall a, a ∈ l -> ~ clears ref a) -> history l w1 = Some (w2, ev) ->
  (forall i e, events_of ref ev !! i = Some e ->
     (Z.of_nat i + 1) * d - 8 <= 5 * (at_tick e - tick w) <= (Z.of_nat i + 1) * d + 4) /\
  (forall m, m * d + 4 < 5 * Z.of_nat (turns l) -> m <= Z.of_nat (length (events_of ref ev))).
Proof.
  intros Hok Hclock Hd E Hlt Hc El. pose proof Hok as (_ & [H0 _] & _).
  unfold setInterval in E. destruct (21474836480 <=? d); [done|]. destruct (d <=? 0); [done|]. destruct (d <=? 10); [done|].
  set (task := {| callBack := cb; expire := now + d; addDateTime := now'; isCancel := false; isDuplicate := true;
                   times := 0; delayInterval := d; ID := 0 |}) in *.
  destruct (set_new w task d Hok ltac:(lia)) as (r & w' & E' & Hok' & Et & _ & (id & Es) & Hat & _ & _).
  assert (Some (ref, w1) = Some (r, w')) as [= -> ->].
  { rewrite <-E'. revert E. destruct (allocate _ _) as [r0 w0]. by intros [= ->]. }
  rewrite place_first in Hat by lia. pose proof (Z.div_mod d 5 ltac:(lia)). pose proof (Z.mod_pos_bound d 5 ltac:(lia)).
  destruct (interval_history s (tick w) now' d r l Hclock Hd 0 (tick w + d / 5) w' w2 ev) as (Et2 & (R' & Hi & Hn) & Hall);
    [lia|lia|done|by rewrite Et| |unfold near; lia|done|done|].
  { exists (set_id id task). rewrite Et. split; [done|]. do 5 (split; [done|]). split; [done|lia]. }
  split.
  - intros i e He. specialize (Hall i e He). unfold near in Hall. by rewrite Z.add_0_l in Hall.
  - intros m Hm. destruct Hi as (? & _ & _ & _ & _ & _ & _ & _ & HR). unfold near in Hn. rewrite Z.add_0_l in Hn.
    rewrite Et2, Et in HR. set (n := Z.of_nat (length _)) in *. nia.
Qed.
End Runs.

(** ** A new wheel *)
Lemma wheel_new_ok {L} (now : Z) : wheel_ok (TimerWheel_new (L := L) now).
Proof.
  split; [reflexivity|]. split; [done|]. intros level index ref H. exfalso. revert H. unfold bucket_at, TimerWheel_new. cbn [levels].
  do 5 (destruct level as [|level]; [cbn [lookup list_lookup default from_option]; unfold id;
    destruct (replicate _ _ !! index) as [b|] eqn:E; [apply lookup_replicate in E as [-> _]|]; cbn; apply not_elem_of_nil|]).
  cbn. apply not_elem_of_nil.
Qed.

Definition made (r : res wheel_error (option (positive * TimerWheel nat))) : positive * TimerWheel nat :=
  match r with Ok (Some p) => p | _ => (1%positive, TimerWheel_new 0) end.
Definition is_made (r : res wheel_error (option (positive * TimerWheel nat))) : bool :=
  match r with Ok (Some _) => true | _ => false end.
Lemma made_ok r : is_made r = true -> r = Ok (Some ((made r).1, (made r).2)).
Proof. by destruct r as [[[]|]|]. Qed.

(** A clock that is exact, no pool, a wheel that was started at time 0. *)
Definition exact_clock (t : Z) (k : nat) : Z := 5 * t.
Definition new_wheel : TimerWheel nat := TimerWheel_new 0.
Definition turns_of (n : nat) : list (action (L := nat)) := replicate n Turn.

Lemma turns_clear ref n a : a ∈ turns_of n -> ~ clears ref a.
Proof. intros Ha. apply elem_of_replicate in Ha as [-> _]. by intros [|]. Qed.

Lemma timeout_runs_on_time_witness : exists ref w1 w2 ev,
  setTimeout 0 100 7%nat new_wheel = Ok (Some (ref, w1)) /\ history exact_clock None (turns_of 25) w1 = Some (w2, ev) /\
  run_once ref 20 ev.
Proof.
  set (r := setTimeout 0 100 7%nat new_wheel). pose proof (made_ok r eq_refl) as Er.
  destruct (history exact_clock None (turns_of 25) (made r).2) as [[w2 ev]|] eqn:El; [|vm_compute in El; discriminate].
  exists (made r).1, (made r).2, w2, ev. split; [exact Er|]. split; [exact El|].
  destruct (timeout_runs_on_time exact_clock None new_wheel 0 100 7%nat _ _ (wheel_new_ok 0) Er eq_refl eq_refl) as [H _].
  exact (H _ _ _ El (turns_clear _ _)).
Defined.

Lemma long_timeouts_misplaced_witness : exists ref w1 w2 ev,
  setTimeout 0 81920 7%nat new_wheel = Ok (Some (ref, w1)) /\ history exact_clock None (turns_of 60) w1 = Some (w2, ev) /\
  events_of ref ev = [].
Proof.
  set (r := setTimeout 0 81920 7%nat new_wheel). pose proof (made_ok r eq_refl) as Er.
  destruct (history exact_clock None (turns_of 60) (made r).2) as [[w2 ev]|] eqn:El; [|vm_compute in El; discriminate].
  exists (made r).1, (made r).2, w2, ev. split; [exact Er|]. split; [exact El|].
  destruct (long_timeouts_misplaced exact_clock None new_wheel 0 7%nat (made r).1 _ _ _ _ (wheel_new_ok 0) eq_refl
    (turns_clear _ _) El) as [H _].
  exact (H Er eq_refl).
Defined.

Lemma wheel_never_blocks_witness : exists w' ev,
  history exact_clock None (turns_of 5) new_wheel = Some (w', ev) /\ wheel_ok w'.
Proof.
  destruct (wheel_never_blocks exact_clock None new_wheel (turns_of 5) 1%positive 5 (wheel_new_ok 0) ltac:(lia))
    as [(w' & ev & E & Hok & _) _].
  exists w', ev. split; [exact E|exact Hok].
Defined.

Lemma interval_on_schedule_witness : exists ref w1 w2 ev,
  setInterval 0 0 33 7%nat new_wheel = Ok (Some (ref, w1)) /\ history exact_clock None (turns_of 60) w1 = Some (w2, ev) /\
  8 <= Z.of_nat (length (events_of ref ev)).
Proof.
  set (r := setInterval 0 0 33 7%nat new_wheel). pose proof (made_ok r eq_refl) as Er.
  destruct (history exact_clock None (turns_of 60) (made r).2) as [[w2 ev]|] eqn:El; [|vm_compute in El; discriminate].
  exists (made r).1, (made r).2, w2, ev. split; [exact Er|]. split; [exact El|].
  assert (Hc : clock_agrees exact_clock 0 (tick new_wheel) 0)
    by (split; [intros; unfold exact_clock; lia|change (tick new_wheel) with 0; lia]).
  destruct (interval_on_schedule exact_clock None new_wheel 0 0 0 33 7%nat _ _ (turns_of 60) _ _ (wheel_new_ok 0) Hc ltac:(lia) Er
    eq_refl (turns_clear _ _) El) as [_ H].
  exact (H 8 eq_refl).
Defined.
