(* ===== verification/LedgerStore.v ===== *)
(** * The ledger on disk: the LevelDB side of [connector_account]

    The accounts, the nodes of the account tree and the asset filter are written
    when a block is confirmed ([total_commit_to_leveldb]), and the filter is read
    when a node restarts.  Reading the tree back from its nodes is not modelled:
    the constructor is given the tree. *)
From S2P Require Import Prelude Stream Serializer SerializerLaws Uint256 Account Transaction Block BloomFilter Wire.
From S2P Require Import LevelDB MptNode Mpt AccountTrie Effects Ledger BlockStore.

(** ** What is written *)
Abbreviation account_pack := (uint256 * (num S_uint64 * (gmap (num S_uint32) (num S_uint64) * unit)))%type.
Abbreviation bloom_filter_store_pack := (uint256 * (num S_uint64 * (cstring * unit)))%type.
Abbreviation mpt_node_storage_pack := (cstring * (cstring * (uint256 * (list cstring * unit))))%type.

(** The balances as the serializer sees them. *)
Definition to_nums (m : gmap Z Z) : gmap (num S_uint32) (num S_uint64) := kmap Num (Num <$> m).
Definition of_nums (m : gmap (num S_uint32) (num S_uint64)) : gmap Z Z := kmap num_val (num_val <$> m).

#[global] Instance Num_inj k : Inj (=) (=) (@Num k).
Proof. by intros a b [= ->]. Qed.
#[global] Instance num_val_inj k : Inj (=) (=) (@num_val k).
Proof. intros [a] [b]. cbn. by intros ->. Qed.

Lemma of_to_nums m : of_nums (to_nums m) = m.
Proof.
  unfold of_nums, to_nums. apply map_eq. intros i.
  pose proof (lookup_kmap (num_val (k := S_uint32)) (num_val <$> (kmap Num (Num (k := S_uint64) <$> m) : gmap (num S_uint32) _)) (Num i)) as E.
  cbn [num_val] in E. rewrite E, lookup_fmap, (lookup_kmap (Num (k := S_uint32))), lookup_fmap.
  by destruct (m !! i).
Qed.

Section Fields.
Context {h : Host}.

#[export, program] Instance account_fields : MuseFields account account_pack := {
  to_fields a := (address a, (Num (nonce a), (to_nums (balances a), tt)));
  of_fields '(k, (n, (b, _))) := {| address := k; nonce := num_val n; balances := of_nums b |};
  copy a := a;
}.
Next Obligation. intros []. simpl. by rewrite of_to_nums. Qed.
#[export] Instance ser_account : Serializable account := ser_fields (P := account_pack).

#[export, program] Instance bloom_filter_store_fields : MuseFields bloom_filter_store bloom_filter_store_pack := {
  to_fields s := (store_block_hash s, (Num (store_block_height s), (Str (bloom_filter_data s), tt)));
  of_fields '(k, (n, (d, _))) :=
    {| store_block_height := num_val n; store_block_hash := k; bloom_filter_data := str_bytes d |};
  copy s := s;
}.
Next Obligation. by intros []. Qed.
#[export] Instance ser_bloom_filter_store : Serializable bloom_filter_store :=
  ser_fields (P := bloom_filter_store_pack).

(** The operation is not a member that is written. *)
Definition input_mpt_node_storage (s : mpt_node_storage) : R BinarySerializer unit :=
  muse_serialize (A := mpt_node_storage_pack)
    (Str (storage_key s), (Str (storage_sub_key s), (storage_value_hash s, (map Str (storage_values s), tt)))).
End Fields.

(** [std::to_string] of a [uint64_t]: at most twenty digits. *)
Fixpoint decimal (fuel : nat) (n : Z) : bytes :=
  match fuel with
  | O => []
  | S fuel => (if n <? 10 then [] else decimal fuel (n / 10)) ++ [48 + n mod 10]
  end.
Definition to_string (n : Z) : bytes := decimal 20 n.

(** The key of the filter of a block. *)
Definition filter_key (hash : uint256) (height : Z) : bytes := get_hex hash ++ b! "___" ++ to_string height.

(** ** The state *)
Record stored_ledger {T D : Type} := Stored {
  ledger : @connector_account T;
  extensions_db : option D;
  accounts_db : option D;
  assets_db : option D;
}.
Arguments stored_ledger : clear implicits.
Arguments Stored {T D}.

Section LedgerStore.
Context {host : Host} `{HashHandler} {T : Type} `{AccountTrie T} {D : Type} `{LevelDB D}.
Abbreviation state := (stored_ledger T D).

(** A call of the ledger's own. *)
Definition on_ledger {A} (m : M (@connector_account T) A) : M state A := fun s =>
  match m (ledger s) with
  | Ret a c => Ret a (Stored c (extensions_db s) (accounts_db s) (assets_db s))
  | Throw e c => Throw e (Stored c (extensions_db s) (accounts_db s) (assets_db s))
  | Undefined => Undefined
  end.

(** The bytes of a node of the tree. *)
Definition serialized_node (s : mpt_node_storage) : M state bytes := fun st =>
  match input_mpt_node_storage s BinarySerializer_new with
  | (Ok _, ser) => Ret (byteStream ser) st
  | (Err (Stream.Throw _), _) => Throw StdException st
  | (Err _, _) => Undefined
  end.

(** The loop over the changed nodes, in the order of their keys. *)
Fixpoint extension_batch (l : list (bytes * mpt_node_storage)) : M state (list batch_operation) :=
  match l with
  | [] => mret []
  | (k, s) :: l =>
      op ← match storage_op s with
           | DELETE_OP_MUSE => mret (BatchDelete k)
           | _ => out ← serialized_node s; mret (BatchPut k out)
           end;
      batch ← extension_batch l;
      mret (op :: batch)
  end.

Definition commit_extensions_node_to_leveldb (extension_nodes : mpt_store) : M state bool :=
  on_ledger (ledger_call at_get_hash) ;;
  s ← get_state;
  match extensions_db s with
  | None => mret false
  | Some db =>
      batch ← extension_batch (map_to_list extension_nodes);
      let '(ok, db) := db_write db batch in
      modify_state (fun s => Stored (ledger s) (Some db) (accounts_db s) (assets_db s)) ;;
      mret ok
  end.

(** The serializers of the commit hold their accounts since [insert_block]. *)
Fixpoint account_batch (l : list (uint256 * account)) : M state (list batch_operation) :=
  match l with
  | [] => mret []
  | (k, a) :: l => out ← serialized a; batch ← account_batch l; mret (BatchPut (data k) out :: batch)
  end.

Definition commit_account_to_leveldb (lac : account_commit) : M state bool :=
  s ← get_state;
  match accounts_db s with
  | None => mret false
  | Some db =>
      batch ← account_batch (map_to_list (commit_values lac));
      let '(ok, db) := db_write db batch in
      modify_state (fun s => Stored (ledger s) (extensions_db s) (Some db) (assets_db s)) ;;
      mret ok
  end.

Definition commit_asset_bloom_filter_to_leveldb (blf : bloom_filter) : M state bool :=
  s ← get_state;
  match assets_db s with
  | None => mret false
  | Some db =>
      let store := to_store blf in
      value_slice ← serialized store;
      let '(ok, db) := db_put db (filter_key (store_block_hash store) (block_height blf)) value_slice in
      modify_state (fun s => Stored (ledger s) (extensions_db s) (accounts_db s) (Some db)) ;;
      mret ok
  end.

(** ** Confirmed blocks *)
Definition set_extensions (l : list mpt_store) (c : @connector_account T) : @connector_account T :=
  Connector (account_mpt c) (asset_bloom_filter c) (merkle_patricia_trie_root_hash c) (ledger_height c)
    (ledger_top_block_hash c) (account_bloom_filters c) (commits c) (rollbacks c) l.
Definition set_commits (l : list account_commit) (c : @connector_account T) : @connector_account T :=
  Connector (account_mpt c) (asset_bloom_filter c) (merkle_patricia_trie_root_hash c) (ledger_height c)
    (ledger_top_block_hash c) (account_bloom_filters c) l (rollbacks c) (extensions c).
Definition set_filters (l : list bloom_filter) (c : @connector_account T) : @connector_account T :=
  Connector (account_mpt c) (asset_bloom_filter c) (merkle_patricia_trie_root_hash c) (ledger_height c)
    (ledger_top_block_hash c) l (commits c) (rollbacks c) (extensions c).
Definition clear_rollbacks (c : @connector_account T) : @connector_account T :=
  Connector (account_mpt c) (asset_bloom_filter c) (merkle_patricia_trie_root_hash c) (ledger_height c)
    (ledger_top_block_hash c) (account_bloom_filters c) (commits c) [] (extensions c).

(** A list is emptied from the front, each element written as it is taken. *)
Fixpoint drain {A} (set_rest : list A -> @connector_account T -> @connector_account T)
    (commit : A -> M state bool) (l : list A) : M state bool :=
  match l with
  | [] => mret true
  | x :: l =>
      on_ledger (modify_state (set_rest l)) ;;
      ok ← commit x;
      if ok : bool then drain set_rest commit l else mret false
  end.

Definition total_commit_to_leveldb : M state bool :=
  s ← get_state;
  match extensions_db s with
  | None => mret false
  | Some _ =>
      ok ← drain set_extensions commit_extensions_node_to_leveldb (extensions (ledger s));
      if negb ok then mret false else
      s ← get_state;
      ok ← drain set_commits commit_account_to_leveldb (commits (ledger s));
      if negb ok then mret false else
      s ← get_state;
      ok ← match account_bloom_filters (ledger s) with
           | [] => mret true
           | blf :: rest =>
               on_ledger (modify_state (set_filters rest)) ;;
               commit_asset_bloom_filter_to_leveldb blf
           end;
      if negb ok then mret false else
      on_ledger (modify_state clear_rollbacks) ;;
      mret true
  end.

(** ** Starting from the disk *)

(** The constructor, with the tree [account_mpt(_extensions_db, _accounts_db)]
    makes; a filter that is not found is only logged. *)
Definition connector_account_make (mpt : T) (_extensions_db _accounts_db _assets_db : option D)
    (_state : application_state) : outcome unit (@connector_account T) :=
  let make t filter root :=
    Connector t filter root (state_current_height _state) (state_top_block_hash _state) [] [] [] [] in
  let with_root t filter :=
    match at_get_hash t with
    | Ok (root, t) => Ret (make t filter root) tt
    | Err MovedFrom => Throw StdException tt
    | Err _ => Undefined
    end in
  if 0 <? state_current_height _state then
    match _assets_db with
    | None => Throw (ChainDb leveldb_pointer_is_nullptr) tt
    | Some db =>
        match db_get db (filter_key (state_top_block_hash _state) (state_current_height _state)) with
        | Some out_data =>
            match deserialized default_value out_data tt with
            | Ret store _ =>
                match bloom_filter_of_store store with
                | Some filter => with_root mpt filter
                | None => Undefined
                end
            | Throw e _ => Throw e tt
            | Undefined => Undefined
            end
        | None => Ret (make mpt bloom_filter_new uint256_zero) tt
        end
    end
  else
    with_root mpt (set_block_height (set_block_hash bloom_filter_new (state_top_block_hash _state))
      (state_current_height _state)).
End LedgerStore.

(** ** [interface_db]: both halves behind one interface

    Each call takes the lock of the half it uses; the calls are modelled one at a
    time. *)
Record interface_db {T D : Type} := InterfaceDb {
  cbk : connector_block D;
  cat : @connector_account T;
}.
Arguments interface_db : clear implicits.
Arguments InterfaceDb {T D}.

Section Interface.
Context {host : Host} `{HashHandler} {T : Type} `{AccountTrie T} {D : Type} `{LevelDB D}.
Abbreviation db := (interface_db T D).

Definition on_cat {A} (m : M (@connector_account T) A) : M db A := fun s =>
  match m (cat s) with
  | Ret a c => Ret a (InterfaceDb (cbk s) c)
  | Throw e c => Throw e (InterfaceDb (cbk s) c)
  | Undefined => Undefined
  end.

Definition check_asset_exist (asset_id : Z) (block_hash : uint256) : M db bool := mret false.
Definition account_mpt_hash : M db uint256 := on_cat (ledger_call at_get_hash).
Definition check_transaction_pool : M db bool := mret true.
(** The answer of [check_block_body] is not used. *)
Definition check_block_legitimacy (blk : block) : M db bool :=
  content_check ← on_cat (c ← get_state;
    ledger_call (fun t => b ← check_block_body t (asset_bloom_filter c) blk; Ok (b, t)));
  mret true.
Definition check_transaction_legitimacy (now : Z) (tsn : transaction) : M db bool := on_cat (check_transaction now tsn).
Definition check_affair_legitimacy (afi : affair) : M db bool := on_cat (check_affair afi).
Definition get_chain_height (s : db) : Z := ledger_height (cat s).
Definition waiting_count (current : Z) : M db Z := fun s =>
  let '(n, c) := transaction_pool_waiting_count current (cbk s) in Ret n (InterfaceDb c (cat s)).
End Interface.
