(* ===== verification/LedgerStoreTheorems.v ===== *)
(** * The ledger on disk: what a confirmed block leaves there *)
From S2P Require Import Prelude Stream Serializer SerializerLaws Uint256 Account Transaction Block BloomFilter Wire.
From S2P Require Import LevelDB MptNode Mpt MptTheorems AccountTrie Effects Ledger LedgerLaws LedgerSpec LedgerTheorems LedgerScenarios.
From S2P Require Import Settings Packaging BlockStore BlockStoreTheorems LedgerStore.

(** ** The accounts a block touches *)
Section Touched.
Context {host : Host}.
Implicit Types (M : accounts).

Lemma not_singleton_ne (x k : uint256) : k ∉ ({[x]} : gset uint256) -> x <> k.
Proof. intros Hn ->. by apply Hn, elem_of_singleton. Qed.

Lemma credits_other t M l k ks : k ∉ receivers l ks -> foldl (credit t) M l !! k = M !! k /\ k ∉ ks.
Proof.
  revert M ks. induction l as [|o l IH]; intros M ks Hk; [done|]. cbn in *.
  destruct (IH (credit t M o) _ Hk) as [E Hn]. apply not_elem_of_union in Hn as [Hn Hks].
  split; [|done]. rewrite E. unfold credit. by apply lookup_insert_ne, not_singleton_ne.
Qed.

Lemma transaction_other M tsc M' k ks : apply_transaction M tsc = Done M' -> k ∉ commit_keys tsc ks ->
  M' !! k = M !! k /\ k ∉ ks.
Proof.
  unfold apply_transaction, commit_keys. destruct (get_transaction_operator tsc).
  - by intros [= ->].
  - destruct (M !! get_sender tsc) as [a|]; [|done]. destruct (debit tsc a) as [a'|]; [|done]. intros [= <-] Hk.
    apply not_elem_of_union in Hk as [Hs Hk]. destruct (credits_other (get_asset_type tsc) (<[get_sender tsc := a']> M) _ _ _ Hk) as [E Hn].
    split; [|done]. rewrite E. by apply lookup_insert_ne, not_singleton_ne.
  - intros [= <-] Hk. apply not_elem_of_union in Hk as [Hs Hk]. split; [|done].
    by apply lookup_insert_ne, not_singleton_ne.
Qed.

Lemma transactions_other M l M' k ks : apply_transactions M l = Done M' ->
  k ∉ foldl (fun ks tsc => commit_keys tsc ks) ks l -> M' !! k = M !! k /\ k ∉ ks.
Proof.
  revert M ks. induction l as [|tsc l IH]; intros M ks Hap Hk; cbn [apply_transactions foldl] in *.
  { by injection Hap as ->. }
  destruct (apply_transaction M tsc) as [M1|] eqn:E; [|done].
  destruct (IH M1 _ Hap Hk) as [E1 Hn]. destruct (transaction_other _ _ _ _ _ E Hn) as [E2 Hks].
  split; [congruence|done].
Qed.

Lemma affairs_other M l k ks : k ∉ foldl commit_affair ks l -> foldl apply_affair M l !! k = M !! k /\ k ∉ ks.
Proof.
  revert M ks. induction l as [|air l IH]; intros M ks Hk; [done|]. cbn in *.
  destruct (IH (apply_affair M air) _ Hk) as [E Hn]. rewrite E. unfold apply_affair, commit_affair in *.
  destruct (is_db_level_affair_type air); cbn [negb] in *; [|done].
  apply not_elem_of_union in Hn as [Hs Hn]. split; [|done]. by apply lookup_insert_ne, not_singleton_ne.
Qed.

Lemma block_other M M1 blk k : apply_transactions M (transactions (body blk)) = Done M1 ->
  k ∉ block_keys blk -> block_accounts M1 blk !! k = M !! k.
Proof.
  intros Hap Hk. unfold block_accounts. destruct (affairs_other M1 (affairs (body blk)) k _ Hk) as [-> Hn].
  by apply (transactions_other _ _ _ _ _ Hap Hn).
Qed.

(** The snapshot holds the accounts that are asked for. *)
Lemma snapshot_cons M k ks m :
  snapshot M (k :: ks) m = snapshot M ks (match M !! k with Some a => <[k := a]> m | None => m end).
Proof. done. Qed.

Lemma snapshot_other M ks m k : k ∉ ks -> snapshot M ks m !! k = m !! k.
Proof.
  revert m. induction ks as [|k' ks IH]; intros m Hk; [done|]. apply not_elem_of_cons in Hk as [Hne Hk].
  rewrite snapshot_cons, IH by done. destruct (M !! k'); [by apply lookup_insert_ne|done].
Qed.

Lemma snapshot_lookup M ks m k : k ∈ ks -> is_Some (M !! k) -> snapshot M ks m !! k = M !! k.
Proof.
  revert m. induction ks as [|k' ks IH]; intros m Hk Hs; [by apply not_elem_of_nil in Hk|].
  rewrite snapshot_cons. destruct (decide (k ∈ ks)) as [Hin|Hn]; [by apply IH|].
  apply elem_of_cons in Hk as [->|Hk]; [|done]. rewrite snapshot_other by done.
  destruct Hs as [a Ha]. rewrite Ha. apply lookup_insert_eq.
Qed.
End Touched.

(** ** What the account database holds *)
Section Disk.
Context {host : Host} `{HashHandler} {T : Type} `{AccountTrieLaws T} {D : Type} `{LevelDBLaws D}.
Abbreviation ledger_t := (@connector_account T).
Abbreviation state := (stored_ledger T D).
Implicit Types (M : accounts) (c : ledger_t) (s : state) (db : D).

(** The bytes of an object. *)
Definition bytes_of {A} `{Serializable A} (v : A) : option bytes :=
  match input v BinarySerializer_new with (Ok _, ser) => Some (byteStream ser) | _ => None end.

Lemma serialized_ret {S A} `{Serializable A} (v : A) (s s' : S) out : serialized v s = Ret out s' ->
  s' = s /\ bytes_of v = Some out.
Proof.
  unfold serialized, bytes_of. destruct (input v _) as [[|[]] ser]; by intros [= <- <-].
Qed.

(** The account [a] is under its key. *)
Definition on_disk db (k : uint256) (a : account) : Prop :=
  is_Some (bytes_of a) /\ db_get db (data k) = bytes_of a.

(** What the commits hold for a key: the last of them decides. *)
Definition pending (l : list account_commit) (k : uint256) : option account :=
  foldl (fun o lac => match commit_values lac !! k with Some a => Some a | None => o end) None l.

Lemma pending_snoc l lac k :
  pending (l ++ [lac]) k = match commit_values lac !! k with Some a => Some a | None => pending l k end.
Proof. unfold pending. by rewrite foldl_app. Qed.

(** Every account is on disk or in a commit. *)
Definition covered db (l : list account_commit) M : Prop :=
  forall k a, M !! k = Some a -> match pending l k with Some b => b = a | None => on_disk db k a end.

Lemma covered_accept db (st : ledger_spec) blk M1 root_of ck : accepts root_of blk ck st M1 ->
  keys_in (block_keys blk) (block_accounts M1 blk) ->
  covered db (commits st) (account_mpt st) ->
  covered db (commits (spec_accept root_of blk M1 st)) (block_accounts M1 blk).
Proof.
  intros (_ & _ & Hap & _) Hks Hc k a Ha. unfold spec_accept. cbn [commits]. rewrite pending_snoc. cbn [commit_values].
  destruct (decide (k ∈ block_keys blk)) as [Hin|Hn].
  - destruct (Hks k Hin) as [_ Hs]. rewrite snapshot_lookup; [by rewrite Ha|by apply elem_of_elements|done].
  - rewrite snapshot_other by (by rewrite elem_of_elements). rewrite lookup_empty.
    apply Hc. by rewrite <-(block_other _ _ _ _ Hap Hn).
Qed.

Lemma accepted_keys_in blk st M1 root_of ck : LedgerLaws.block_wf blk -> accepts root_of blk ck st M1 ->
  keys_in (block_keys blk) (block_accounts M1 blk).
Proof.
  intros [Ht Ha] (_ & _ & Hap & _). apply keys_in_affairs; [done|].
  eapply keys_in_transactions; [done|exact Hap|]. by intros k ?%elem_of_empty.
Qed.

(** Blocks that are inserted one after the other. *)
Fixpoint insert_all (check : bool) (l : list block) : M ledger_t bool :=
  match l with
  | [] => mret true
  | blk :: l => ok ← insert_block blk check; if ok : bool then insert_all check l else mret false
  end.

Lemma insert_all_covered db ck l c st c' : Forall LedgerLaws.block_wf l -> simulates c st ->
  covered db (commits c) (account_mpt st) -> insert_all ck l c = Ret true c' ->
  exists st', simulates c' st' /\ covered db (commits c') (account_mpt st').
Proof.
  revert c st. induction l as [|blk l IH]; intros c st Hl Hs Hc; cbn [insert_all].
  { intros [= <-]. eauto. }
  inversion Hl as [|? ? Hb Hrest]; subst. unfold mbind, M_bind.
  destruct (insert_block blk ck c) as [[] c1| |] eqn:E; [|done..]. intros E'.
  destruct (ledger_accepts blk ck c st c1 Hb Hs E) as (M1 & Ha & Hs1).
  pose proof Hs as (M0 & Est & _ & _). pose proof Hs1 as (M2 & Est1 & _ & _).
  eapply IH; [done|exact Hs1| |exact E'].
  assert (Ecs : commits st = commits c) by by rewrite Est.
  assert (Ecs1 : commits c1 = commits (spec_accept at_root blk M1 st)) by by rewrite Est1.
  rewrite Ecs1. eapply covered_accept; [exact Ha|by eapply accepted_keys_in|by rewrite Ecs].
Qed.

(** ** Writing *)
Lemma account_batch_spec l s batch s' : account_batch l s = Ret batch s' -> s' = s /\
  exists outs, map (fun kv => bytes_of kv.2) l = map Some outs /\
    batch = map (fun kv => BatchPut kv.1 kv.2) (zip (map (fun kv => data kv.1) l) outs).
Proof.
  revert s s' batch. induction l as [|[k a] l IH]; intros s s' batch; cbn [account_batch].
  { intros [= <- <-]. split; [done|]. by exists []. }
  unfold mbind, M_bind. destruct (serialized a s) as [out s1| |] eqn:E; [|done..].
  apply serialized_ret in E as [-> E]. destruct (account_batch l s) as [b s2| |] eqn:E2; [|done..].
  apply IH in E2 as (-> & outs & Eo & ->). intros [= <- <-]. split; [done|].
  exists (out :: outs). cbn. by rewrite E, Eo.
Qed.

Lemma data_inj (x y : uint256) : data x = data y -> x = y.
Proof. destruct x, y. cbn. by intros ->. Qed.

(** One commit on disk. *)
Lemma commit_account_spec lac s s' : commit_account_to_leveldb lac s = Ret true s' ->
  exists db db', accounts_db s = Some db /\ s' = Stored (ledger s) (extensions_db s) (Some db') (assets_db s) /\
    forall k, match commit_values lac !! k with
              | Some a => on_disk db' k a
              | None => db_get db' (data k) = db_get db (data k)
              end.
Proof.
  unfold commit_account_to_leveldb, get_state, modify_state, mbind, M_bind.
  destruct (accounts_db s) as [db|] eqn:Ed; [|done].
  destruct (account_batch _ s) as [batch s1| |] eqn:Eb; [|done..].
  apply account_batch_spec in Eb as (-> & outs & Eo & ->).
  destruct (db_write db _) as [ok db'] eqn:Ew. cbn. intros [= -> <-]. exists db, db'. do 2 (split; [done|]).
  intros k. pose proof (db_write_ok _ _ _ Ew (data k)) as Hg.
  set (l := map_to_list (commit_values lac)) in *.
  assert (Hlen : length outs = length l) by (apply (f_equal length) in Eo; by rewrite !length_map in Eo).
  assert (Hfst : (zip (map (fun kv : uint256 * account => data kv.1) l) outs).*1 = map (fun kv => data kv.1) l)
    by (apply fst_zip; rewrite length_map; lia).
  destruct (commit_values lac !! k) as [a|] eqn:Ek.
  - apply elem_of_map_to_list in Ek. fold l in Ek. apply list_elem_of_lookup in Ek as (i & Ei).
    destruct (lookup_lt_is_Some_2 outs i) as [out Eout].
    { rewrite Hlen. by eapply lookup_lt_Some. }
    assert (Ea : bytes_of a = Some out).
    { apply (f_equal (fun x => x !! i)) in Eo. rewrite !list_lookup_fmap, Ei, Eout in Eo. cbn in Eo. congruence. }
    split; [by rewrite Ea|]. rewrite Hg, Ea. apply batch_puts.
    + rewrite Hfst.
      replace (map (fun kv : uint256 * account => data kv.1) l) with (data <$> l.*1) by (by rewrite <-list_fmap_compose).
      apply NoDup_fmap_2; [intros x y; apply data_inj|]. apply NoDup_fst_map_to_list.
    + apply list_elem_of_lookup. exists i. rewrite lookup_zip_with, list_lookup_fmap, Ei, Eout. done.
  - rewrite Hg. apply batch_puts_other. rewrite Hfst. intros ((k' & a) & Ek' & Hin)%list_elem_of_fmap.
    cbn in Ek'. apply data_inj in Ek'. subst k'. apply elem_of_map_to_list in Hin. congruence.
Qed.

Lemma pending_cons lac l k :
  pending (lac :: l) k = match pending l k with Some a => Some a | None => commit_values lac !! k end.
Proof.
  unfold pending. cbn [foldl]. generalize (commit_values lac !! k). intros o.
  assert (Hg : forall o, foldl (fun o lac => match commit_values lac !! k with Some a => Some a | None => o end) o l
    = match foldl (fun o lac => match commit_values lac !! k with Some a => Some a | None => o end) None l with
      | Some a => Some a | None => o end).
  { induction l as [|x l IH] using rev_ind; intros o'; [done|]. rewrite !foldl_app. cbn.
    destruct (commit_values x !! k); [done|]. apply IH. }
  etrans; [apply Hg|]. by destruct o.
Qed.

Lemma set_commits_id c : commits c = [] -> set_commits [] c = c.
Proof. destruct c. cbn. by intros ->. Qed.

(** All commits on disk. *)
Lemma drain_commits_spec l s s' : commits (ledger s) = l ->
  drain set_commits commit_account_to_leveldb l s = Ret true s' ->
  ledger s' = set_commits [] (ledger s) /\ assets_db s' = assets_db s /\
  (l = [] -> accounts_db s' = accounts_db s) /\
  forall db, accounts_db s = Some db -> exists db', accounts_db s' = Some db' /\
    forall k, match pending l k with
              | Some a => on_disk db' k a
              | None => db_get db' (data k) = db_get db (data k)
              end.
Proof.
  revert s. induction l as [|lac l IH]; intros s El; cbn [drain].
  { intros [= <-]. split; [by rewrite set_commits_id|]. split; [done|]. split; [done|]. intros db Ed. by exists db. }
  unfold mbind, M_bind, on_ledger, modify_state.
  set (s1 := Stored _ _ _ _). destruct (commit_account_to_leveldb lac s1) as [[] s2| |] eqn:E; [|done..].
  apply commit_account_spec in E as (db & db' & Ed & -> & Hdb). intros E.
  apply IH in E as (El' & Ea & _ & Hrest); [|done]. split; [by rewrite El'|]. split; [done|]. split; [done|].
  intros db0 E0. cbn in Ed. rewrite E0 in Ed. injection Ed as <-.
  destruct (Hrest db' eq_refl) as (db'' & E'' & Hk). exists db''. split; [done|]. intros k. rewrite pending_cons.
  specialize (Hk k). specialize (Hdb k). destruct (pending l k) as [a|]; [done|].
  destruct (commit_values lac !! k) as [a|]; [|congruence].
  unfold on_disk in *. by rewrite Hk.
Qed.

(** The nodes of the tree: nothing else changes. *)
Lemma commit_extensions_spec x s s' M : at_map (account_mpt (ledger s)) M ->
  commit_extensions_node_to_leveldb x s = Ret true s' ->
  (exists t, at_map t M /\ ledger s' = with_mpt (ledger s) t) /\ accounts_db s' = accounts_db s /\
  assets_db s' = assets_db s.
Proof.
  intros Hm. unfold commit_extensions_node_to_leveldb, on_ledger, ledger_call, get_state, modify_state, mbind, M_bind.
  destruct (at_get_hash_spec _ _ Hm) as (t & -> & Ht). cbn [extensions_db ledger].
  destruct (extensions_db s) as [db|]; [|done].
  assert (Hb : forall l s batch s', extension_batch l s = Ret batch s' -> s' = s).
  { induction l as [|[k n] l IH]; intros s0 batch s1; cbn [extension_batch]; [by intros [= _ <-]|].
    unfold mbind, M_bind. destruct (storage_op n); cbn [mret M_ret];
      try (unfold serialized_node at 1; destruct (input_mpt_node_storage n _) as [[|[]] ser]; try done; cbn [mret M_ret]);
      destruct (extension_batch l s0) as [b s2| |] eqn:E; try done; apply IH in E as ->; by intros [= _ <-]. }
  set (s1 := Stored _ _ _ _). destruct (extension_batch _ s1) as [batch s2| |] eqn:E; [|done..].
  apply Hb in E as ->. destruct (db_write db batch) as [ok db']. cbn. intros [= -> <-]. split; [|done].
  exists t. split; [done|]. done.
Qed.

Lemma drain_extensions_spec l s s' M : extensions (ledger s) = l -> at_map (account_mpt (ledger s)) M ->
  drain set_extensions commit_extensions_node_to_leveldb l s = Ret true s' ->
  (exists t, at_map t M /\ ledger s' = set_extensions [] (with_mpt (ledger s) t)) /\
  accounts_db s' = accounts_db s /\ assets_db s' = assets_db s.
Proof.
  revert s. induction l as [|x l IH]; intros s El Hm; cbn [drain].
  { intros [= <-]. split; [|done]. exists (account_mpt (ledger s)). split; [done|].
    rewrite with_mpt_id. destruct (ledger s). cbn in *. by subst. }
  unfold mbind, M_bind, on_ledger at 1, modify_state. set (s1 := Stored _ _ _ _).
  destruct (commit_extensions_node_to_leveldb x s1) as [[] s2| |] eqn:E; [|done..].
  destruct (commit_extensions_spec x s1 s2 M Hm E) as ((t & Ht & El2) & Ea & Ef). intros E'.
  apply IH in E' as ((t' & Ht' & El') & Ea' & Ef'); [| by rewrite El2 |by rewrite El2].
  split; [|split; [by rewrite Ea'|by rewrite Ef']]. exists t'. split; [done|]. by rewrite El', El2.
Qed.

(** The filter of the oldest block. *)
Definition filter_written s (filters : list bloom_filter) s' : Prop :=
  match filters with
  | [] => assets_db s' = assets_db s
  | f :: _ => exists db db' out, assets_db s = Some db /\ bytes_of (to_store f) = Some out /\
      db_put db (filter_key (block_hash f) (block_height f)) out = (true, db') /\ assets_db s' = Some db'
  end.

Lemma commit_filter_spec f s s' : commit_asset_bloom_filter_to_leveldb f s = Ret true s' ->
  filter_written s [f] s' /\ ledger s' = ledger s /\ accounts_db s' = accounts_db s.
Proof.
  unfold commit_asset_bloom_filter_to_leveldb, get_state, modify_state, mbind, M_bind.
  destruct (assets_db s) as [db|] eqn:Ed; [|done].
  destruct (serialized (to_store f) s) as [out s1| |] eqn:E; [|done..].
  apply serialized_ret in E as [-> E]. destruct (db_put db _ out) as [ok db'] eqn:Ep. cbn. intros [= -> <-].
  split; [|done]. exists db, db', out. done.
Qed.

(** The oldest filter, when there is one. *)
Lemma first_filter_spec s s' :
  match account_bloom_filters (ledger s) with
  | [] => mret true
  | blf :: rest => on_ledger (modify_state (set_filters rest)) ;; commit_asset_bloom_filter_to_leveldb blf
  end s = Ret true s' ->
  filter_written s (account_bloom_filters (ledger s)) s' /\ accounts_db s' = accounts_db s /\
  ledger s' = set_filters (tail (account_bloom_filters (ledger s))) (ledger s).
Proof.
  destruct (account_bloom_filters (ledger s)) as [|f rest] eqn:Ef.
  - intros [= <-]. split; [done|]. split; [done|]. destruct (ledger s). cbn in *. by subst.
  - unfold on_ledger, modify_state, mbind, M_bind. intros E.
    apply commit_filter_spec in E as (Hf & El & Ea). by rewrite El.
Qed.

Lemma total_commit_spec s s' M : at_map (account_mpt (ledger s)) M ->
  total_commit_to_leveldb s = Ret true s' ->
  (at_map (account_mpt (ledger s')) M /\ commits (ledger s') = [] /\ rollbacks (ledger s') = [] /\
   extensions (ledger s') = [] /\ asset_bloom_filter (ledger s') = asset_bloom_filter (ledger s)) /\
  (forall db, accounts_db s = Some db -> exists db', accounts_db s' = Some db' /\
    forall k, match pending (commits (ledger s)) k with
              | Some a => on_disk db' k a
              | None => db_get db' (data k) = db_get db (data k)
              end) /\
  filter_written s (account_bloom_filters (ledger s)) s'.
Proof.
  intros Hm. unfold total_commit_to_leveldb, get_state, mbind, M_bind.
  destruct (extensions_db s); [|done].
  destruct (drain set_extensions _ _ s) as [[] s1| |] eqn:E1; [|done..].
  apply (drain_extensions_spec _ _ _ M) in E1 as ((t & Ht & El1) & Ea1 & Ef1); [|done..]. cbn [negb].
  destruct (drain set_commits _ _ s1) as [[] s2| |] eqn:E2; [|done..].
  apply drain_commits_spec in E2 as (El2 & Ef2 & _ & Hdb); [|done]. cbn [negb].
  match goal with |- context [match ?m s2 with Ret _ _ => _ | Throw _ _ => _ | Undefined => _ end] =>
    destruct (m s2) as [[] s3| |] eqn:E3; [|done..] end.
  apply first_filter_spec in E3 as (Hf & Ea3 & El3). cbn [negb]. unfold on_ledger, modify_state.
  intros [= <-]. cbn [ledger accounts_db assets_db]. rewrite El3, El2, El1. cbn. split; [done|].
  rewrite Ea3. rewrite El1 in Hdb. cbn [commits set_extensions with_mpt] in Hdb. split; [by rewrite <-Ea1|].
  revert Hf. rewrite El2. cbn. rewrite El1. cbn. unfold filter_written.
  destruct (account_bloom_filters (ledger s)); cbn; by rewrite Ef2, Ef1.
Qed.
End Disk.

(** ** Theorems *)
Section Theorems.
Context {host : Host} {HL : LittleEndianHost} `{HashHandler} {T : Type} `{AccountTrieLaws T} {D : Type} `{LevelDBLaws D}.
Abbreviation ledger_t := (@connector_account T).
Abbreviation state := (stored_ledger T D).

(** The account database holds exactly what is asked of it. *)
Definition disk_shows (db : D) (M : accounts) : Prop := forall k a, M !! k = Some a -> on_disk db k a.

(** C15: when blocks are inserted, with or without their checks, and then confirmed by
    [total_commit_to_leveldb], the account database holds every account of the
    tree, under its address, as it is after the last block; no rollback point and
    no commit is left. *)
Theorem confirmed_accounts_on_disk (s : state) (db : D) (M : accounts) (ck : bool) (l : list block) (c' : ledger_t) (s' : state) :
  at_map (account_mpt (ledger s)) M -> rollbacks_wf (rollbacks (ledger s)) -> commits (ledger s) = [] ->
  accounts_db s = Some db -> disk_shows db M -> Forall LedgerLaws.block_wf l ->
  insert_all ck l (ledger s) = Ret true c' ->
  total_commit_to_leveldb (Stored c' (extensions_db s) (accounts_db s) (assets_db s)) = Ret true s' ->
  exists M' db', at_map (account_mpt (ledger s')) M' /\ accounts_db s' = Some db' /\ disk_shows db' M' /\
    commits (ledger s') = [] /\ rollbacks (ledger s') = [].
Proof.
  intros Hm Hr Hc Hdb Hd Hl Ei Et.
  destruct (insert_all_covered db ck l (ledger s) (spec_of (ledger s) M) c' Hl) as (st' & (M' & -> & Hm' & _) & Hcov);
    [by exists M| |exact Ei|].
  { rewrite Hc. intros k a Ha. cbn. by apply Hd. }
  destruct (total_commit_spec (Stored c' _ _ _) s' M' Hm' Et) as ((Hm2 & Hc2 & Hr2 & _) & Hdbs & _).
  destruct (Hdbs db Hdb) as (db' & Edb' & Hk). exists M', db'. split; [done|]. split; [done|]. split; [|done].
  intros k a Ha. specialize (Hk k). specialize (Hcov k a Ha). cbn [ledger] in Hk.
  destruct (pending (commits c') k) as [b|]; [by subst b|].
  unfold on_disk in *. by rewrite Hk.
Qed.

(** An account as the serializer accepts it is read back. *)
#[export] Instance bloom_store_laws : SerializerLaws bloom_filter_store.
Proof. refine (fields_laws (P := bloom_filter_store_pack) _). split; [apply default_old|done]. Defined.

Lemma bytes_of_encode {A} `{SerializerLaws A} (v : A) : ser_wf v -> bytes_of v = Some (encode v).
Proof.
  intros Hv. destruct (input_writes v Hv _ new_writable) as (s' & E & EB & _). unfold bytes_of. by rewrite E, EB.
Qed.

Definition filter_ok (f : bloom_filter) : Prop :=
  bloom_wf f /\ uint256_wf (block_hash f) /\ 0 < block_height f < 2 ^ 64.

Lemma filter_store_ser f : filter_ok f -> ser_wf (to_store f).
Proof.
  intros (_ & Hh & Hn). split; [by apply uint256_ser|]. split; [|split; [|done]].
  - cbn. unfold num_wf, scalar_value. cbn. apply wrap_small. change (0 <= block_height f < 2 ^ 64). lia.
  - change (Z.of_nat (length (bloom_filter_data (to_store f))) <= MUSE_MAX_STRING_LENGTH).
    rewrite store_length. vm_compute. discriminate.
Qed.

Lemma filter_store_read f : filter_ok f -> exists out, bytes_of (to_store f) = Some out /\
  deserialized default_value out tt = Ret (to_store f) tt.
Proof.
  intros Hf. pose proof (filter_store_ser f Hf) as Hs. exists (encode (to_store f)).
  split; [by apply bytes_of_encode|]. apply deserialized_reads.
  - exact (output_reads default_value (to_store f) Hs default_old).
  - destruct Hf as (_ & Hh & _).
    change (encode (to_store f)) with (tag_byte MUSECLASS :: (encode (store_block_hash (to_store f))
      ++ encode (Num (k := S_uint64) (store_block_height (to_store f)))
      ++ encode (Str (bloom_filter_data (to_store f))) ++ [])).
    cbn [length]. rewrite !length_app. cbn [store_block_hash to_store].
    rewrite uint256_encode_length by done. cbn [encode num_laws string_laws str_bytes length].
    rewrite length_app, !le_encode_length.
    change (bloom_filter_data _) with (bloom_filter_data (to_store f)).
    rewrite store_length. vm_compute. reflexivity.
Qed.

(** A confirmation writes one filter, that of the oldest block.  A node that
    restarts at that block has the filter again.  A node that restarts at any other
    block whose filter was not on disk before starts with an empty filter, in which
    every asset type is free, and with a zero root hash. *)
Theorem only_oldest_filter_stored (s s' : state) (f : bloom_filter) (rest : list bloom_filter)
    (M Mt : accounts) (mpt : T) (ex ac : option D) (initial : uint256) :
  at_map (account_mpt (ledger s)) M -> total_commit_to_leveldb s = Ret true s' ->
  account_bloom_filters (ledger s) = f :: rest -> filter_ok f -> at_map mpt Mt ->
  (exists c, connector_account_make mpt ex ac (assets_db s')
      {| state_current_height := block_height f; state_top_block_hash := block_hash f;
         state_initial_block_hash := initial |} = Ret c tt /\
    asset_bloom_filter c = f /\ merkle_patricia_trie_root_hash c = at_root Mt) /\
  forall st, 0 < state_current_height st ->
    let k := filter_key (state_top_block_hash st) (state_current_height st) in
    k <> filter_key (block_hash f) (block_height f) ->
    (forall db, assets_db s = Some db -> db_get db k = None) ->
    exists c, connector_account_make mpt ex ac (assets_db s') st = Ret c tt /\
      asset (asset_bloom_filter c) = ∅ /\ merkle_patricia_trie_root_hash c = uint256_zero.
Proof.
  intros Hm Et Ef Hf Ht. destruct (total_commit_spec s s' M Hm Et) as (_ & _ & Hw).
  rewrite Ef in Hw. destruct Hw as (db & db' & out & Ed & Eb & Ep & Ed').
  destruct (filter_store_read f Hf) as (out' & Eb' & Er). rewrite Eb in Eb'. injection Eb' as <-.
  unfold connector_account_make. rewrite Ed'. split.
  - destruct Hf as (Hb & _ & Hh). cbn [state_current_height state_top_block_hash].
    rewrite (proj2 (Z.ltb_lt _ _)) by lia. rewrite (db_put_same _ _ _ _ Ep), Er.
    unfold bloom_filter_of_store. rewrite read_store_spec by done. cbn [mbind option_bind].
    destruct (at_get_hash_spec _ _ Ht) as (t' & -> & _). eexists. split; [done|]. split; [by destruct f|done].
  - intros st Hst. cbv zeta. intros Hne Habs. rewrite (proj2 (Z.ltb_lt _ _)) by done.
    rewrite (db_put_other _ _ _ _ _ Ep) by (intros E; by apply Hne). rewrite (Habs _ Ed).
    eexists. done.
Qed.
End Theorems.

(** ** Instances *)
Section Instances.
Local Instance ledger_store_digest : HashHandler := toy_HashHandler.
Local Instance ledger_store_host : Host := LittleEndian.
Local Instance ledger_store_little : LittleEndianHost := eq_refl.

Definition empty_store : option (gmap bytes bytes) := Some ∅.
Definition fresh_ledger : stored_ledger (merkle_patricia_trie account) (gmap bytes bytes) :=
  Stored (ledger_with []) empty_store empty_store empty_store.
Definition founded : @connector_account (merkle_patricia_trie account) :=
  state_of (insert_all false [founding_block] (ledger_with [])) (ledger_with []).
Definition founded_store : stored_ledger (merkle_patricia_trie account) (gmap bytes bytes) :=
  Stored founded empty_store empty_store empty_store.
Definition stored_after (r : outcome (stored_ledger (merkle_patricia_trie account) (gmap bytes bytes)) bool) :
    stored_ledger (merkle_patricia_trie account) (gmap bytes bytes) :=
  match r with Ret _ s => s | _ => founded_store end.
Definition confirms (r : outcome (stored_ledger (merkle_patricia_trie account) (gmap bytes bytes)) bool) : bool :=
  match r with Ret true _ => true | _ => false end.
Lemma confirms_ret r : confirms r = true -> r = Ret true (stored_after r).
Proof. by destruct r as [[]| |]. Qed.

Lemma founded_inserts : insert_all false [founding_block] (ledger_with []) = Ret true founded.
Proof. apply says_true_ret. vm_compute. reflexivity. Qed.

Lemma founded_confirms : confirms (total_commit_to_leveldb founded_store) = true.
Proof. vm_compute. reflexivity. Qed.

Lemma empty_disk : disk_shows (∅ : gmap bytes bytes) (∅ : accounts).
Proof. intros k a Ha. by rewrite lookup_empty in Ha. Qed.

Lemma confirmed_accounts_on_disk_witness :
  exists M' db', at_map (account_mpt (ledger (stored_after (total_commit_to_leveldb founded_store)))) M' /\
    accounts_db (stored_after (total_commit_to_leveldb founded_store)) = Some db' /\ disk_shows db' M'.
Proof.
  destruct (confirmed_accounts_on_disk fresh_ledger ∅ ∅ false [founding_block] founded
    (stored_after (total_commit_to_leveldb founded_store))) as (M' & db' & Hm & Ed & Hd & _).
  - exact (trie_with_map [] eq_refl).
  - constructor.
  - reflexivity.
  - reflexivity.
  - exact empty_disk.
  - apply Forall_singleton. exact founding_block_wf.
  - exact founded_inserts.
  - exact (confirms_ret _ founded_confirms).
  - exists M', db'. split; [exact Hm|]. split; [exact Ed|exact Hd].
Defined.

(** The filter after the first block. *)
Definition founded_filter : bloom_filter := List.hd bloom_filter_new (account_bloom_filters founded).

Lemma founded_filters : exists rest, account_bloom_filters founded = founded_filter :: rest.
Proof.
  unfold founded_filter. destruct (account_bloom_filters founded) as [|f rest] eqn:E; [|by exists rest].
  apply (f_equal length) in E. vm_compute in E. discriminate.
Qed.

Definition filter_okb (f : bloom_filter) : bool :=
  forallb (fun i => (0 <=? i) && (i <? BLOOM_FILTER_SIZE)) (elements (asset f)) && uint256_okb (block_hash f)
  && (0 <? block_height f) && (block_height f <? 2 ^ 64).
Lemma filter_okb_sound f : filter_okb f = true -> filter_ok f.
Proof.
  intros [[[Hb Hh]%andb_true_iff H1]%andb_true_iff H2]%andb_true_iff. split; [|split].
  - intros i Hi%elem_of_elements%list_elem_of_In. rewrite forallb_forall in Hb. specialize (Hb i Hi).
    apply andb_true_iff in Hb as [?%Z.leb_le ?%Z.ltb_lt]. lia.
  - by apply uint256_okb_sound.
  - apply Z.ltb_lt in H1, H2. lia.
Qed.

Lemma only_oldest_filter_stored_witness :
  exists c, connector_account_make (trie_new : merkle_patricia_trie account) None None
      (assets_db (stored_after (total_commit_to_leveldb founded_store)))
      {| state_current_height := block_height founded_filter; state_top_block_hash := block_hash founded_filter;
         state_initial_block_hash := uint256_zero |} = Ret c tt /\
    asset_bloom_filter c = founded_filter.
Proof.
  destruct (ledger_with_settled [] eq_refl) as (Hm & _).
  destruct founded_filters as [rest Ef].
  destruct (insert_all_covered (∅ : gmap bytes bytes) false [founding_block] (ledger_with [])
    (spec_of (ledger_with []) ∅) founded) as (st & (M & _ & HM & _) & _).
  - apply Forall_singleton. exact founding_block_wf.
  - exists ∅. split; [reflexivity|]. split; [exact Hm|constructor].
  - intros k a Ha. cbn in Ha. by rewrite lookup_empty in Ha.
  - exact founded_inserts.
  - destruct (only_oldest_filter_stored founded_store (stored_after (total_commit_to_leveldb founded_store))
      founded_filter rest M ∅ trie_new None None uint256_zero) as [(c & E & Ec & _) _].
    + exact HM.
    + exact (confirms_ret _ founded_confirms).
    + exact Ef.
    + apply filter_okb_sound. vm_compute. reflexivity.
    + exact empty_map.
    + exists c. split; [exact E|exact Ec].
Defined.
End Instances.
