(* ===== verification/NetNode.v ===== *)
(** * Nodes and addresses: [node_net.cpp], [chain_node.cpp], [chain_net.cpp]

    What a node knows of the others: their address on the network, their public key, and
    the routers and certificate authorities of the configuration.  A moved string is
    empty, as the standard library of the host leaves it; the array of a hash is copied. *)
From S2P Require Import Prelude Stream Serializer SerializerLaws Uint256 Transaction Block BloomFilter Wire.
From S2P Require Import LevelDB Effects Settings LedgerStore.

(** ** The data *)
Record node_net := NodeNet { address_hash : uint256; ip_address : bytes; node_port : Z }.
Record chain_node := ChainNode { host_address_ : uint256; net_address : node_net; pubkey_xy : bytes }.

Record router := Router { router_ip : bytes; router_id : bytes; router_port : Z; router_pubkey : bytes }.
Record CA := MakeCA { ca_ip : bytes; ca_id : bytes; ca_port : Z; ca_pubkey : bytes }.
Record chain_net := ChainNet { routers : list router; cas : list CA; net_port : Z }.

(** ** [node_net] *)
Section Net.
Context {h : Host}.

Definition node_net_new : node_net := NodeNet uint256_zero [] 0.

(** The new object, and what is left of the other. *)
Definition node_net_move (other : node_net) : node_net * node_net :=
  (NodeNet (address_hash other) (ip_address other) (node_port other),
   NodeNet (address_hash other) [] (node_port other)).

(** [inet_ntoa]: the bytes of the address, as they are in memory, in decimal. *)
Definition octet (b : Z) : bytes := decimal 3 b.
Definition dot : Z := 46.
Definition inet_ntoa (ip : Z) : bytes :=
  match mem_encode host_order 4 ip with
  | b :: l => octet b ++ concat (map (fun b => dot :: octet b) l)
  | [] => []
  end.

Definition uint32_t_to_ip_address (_ip : Z) (n : node_net) : bool * node_net :=
  (true, NodeNet (address_hash n) (inet_ntoa _ip) (node_port n)).

(** ** [chain_node] *)
Definition pubkey_size : nat := 64.   (** [sizeof(pub.data)] *)

Definition chain_node_new : chain_node := ChainNode uint256_zero node_net_new (replicate 64 0).

Definition set_host_address (_address : uint256) (n : chain_node) : chain_node :=
  ChainNode _address (NodeNet _address (ip_address (net_address n)) (node_port (net_address n))) (pubkey_xy n).

Definition set_net_address (_net : node_net) (n : chain_node) : chain_node :=
  ChainNode (host_address_ n) _net (pubkey_xy n).

(** [std::string::operator[]]: behind the last character is a terminator that may be read,
    and overwritten with itself only. *)
Definition string_at (s : bytes) (i : nat) : option Z := (s ++ [0]) !! i.
Definition string_set (i : nat) (b : Z) (s : bytes) : option bytes :=
  if decide (i < length s)%nat then Some (<[i := b]> s)
  else if decide (i = length s /\ b = 0) then Some s
  else None.

(** The two loops over the key; [None] is an access outside the string. *)
Fixpoint pubkey_writes (i : nat) (pub : bytes) (s : bytes) : option bytes :=
  match pub with
  | [] => Some s
  | b :: pub => s ← string_set i b s; pubkey_writes (S i) pub s
  end.
Definition set_pubkey_xy (pub : bytes) (n : chain_node) : option chain_node :=
  s ← pubkey_writes 0 pub (pubkey_xy n); Some (ChainNode (host_address_ n) (net_address n) s).

Definition get_pubkey_xy (n : chain_node) : option bytes := mapM (string_at (pubkey_xy n)) (seq 0 pubkey_size).

Definition get_host_address (n : chain_node) : uint256 := host_address_ n.
Definition get_net_address (n : chain_node) : node_net := net_address n.

Definition chain_node_move (other : chain_node) : chain_node * chain_node :=
  let '(net, net') := node_net_move (net_address other) in
  (ChainNode (host_address_ other) net (pubkey_xy other), ChainNode (host_address_ other) net' []).
End Net.

(** ** [chain_net]

    Neither constructor takes the port; both assignments do. *)
Definition chain_net_new : chain_net := ChainNet [] [] 0.
Definition chain_net_copy (other : chain_net) : chain_net := ChainNet (routers other) (cas other) 0.
Definition chain_net_move (other : chain_net) : chain_net * chain_net :=
  (ChainNet (routers other) (cas other) 0, ChainNet [] [] (net_port other)).
Definition chain_net_assign (this other : chain_net) : chain_net := ChainNet (routers other) (cas other) (net_port other).
Definition chain_net_move_assign (this other : chain_net) : chain_net * chain_net :=
  (ChainNet (routers other) (cas other) (net_port other), ChainNet [] [] (net_port other)).

(** ** How they are written *)
Abbreviation node_net_pack := (uint256 * (cstring * (num S_uint16 * unit)))%type.
Abbreviation chain_node_pack := (uint256 * (node_net * (cstring * unit)))%type.

Section Fields.
Context {h : Host}.

#[export, program] Instance node_net_fields : MuseFields node_net node_net_pack := {
  to_fields n := (address_hash n, (Str (ip_address n), (Num (node_port n), tt)));
  of_fields '(a, (s, (p, _))) := NodeNet a (str_bytes s) (num_val p);
  copy n := n;
}.
Next Obligation. by intros []. Qed.
#[export] Instance ser_node_net : Serializable node_net := ser_fields (P := node_net_pack).
#[export] Instance node_net_laws : SerializerLaws node_net.
Proof. refine (fields_laws (P := node_net_pack) _). split; [apply default_old|done]. Defined.

#[export, program] Instance chain_node_fields : MuseFields chain_node chain_node_pack := {
  to_fields n := (host_address_ n, (net_address n, (Str (pubkey_xy n), tt)));
  of_fields '(a, (net, (s, _))) := ChainNode a net (str_bytes s);
  copy n := n;
}.
Next Obligation. by intros []. Qed.
#[export] Instance ser_chain_node : Serializable chain_node := ser_fields (P := chain_node_pack).
#[export] Instance chain_node_laws : SerializerLaws chain_node.
Proof. refine (fields_laws (P := chain_node_pack) _). split; [apply default_old|]. split; [apply default_old|done]. Defined.
End Fields.

(** ** Addresses as text *)

(** Numbers in decimal, each but the last before a dot. *)
Fixpoint read_octets (n : nat) (l : bytes) : list Z :=
  match n with
  | O => []
  | S n => let '(digits, rest) := span is_digit l in digits_value digits :: read_octets n (drop 1 rest)
  end.

Lemma octet_read b : is_uint 8 b -> forallb is_digit (octet b) = true /\ digits_value (octet b) = b.
Proof.
  intros Hb. assert (H : Forall (fun b => forallb is_digit (octet b) && (digits_value (octet b) =? b)) (seqZ 0 256)).
  { apply (bool_decide_unpack _). vm_compute. exact I. }
  rewrite Forall_forall in H. specialize (H b). rewrite elem_of_seqZ in H. unfold is_uint in Hb.
  specialize (H ltac:(lia)). apply andb_prop_elim in H as [H1 H2]. apply Is_true_true in H1, H2. split; [done|lia].
Qed.

Lemma octets_read l : bytes_ok l ->
  match l with
  | b :: l' => read_octets (length l) (octet b ++ concat (map (fun b => dot :: octet b) l')) = l
  | [] => True
  end.
Proof.
  intros Hl. induction Hl as [|b l Hb Hl IH]; [done|]. destruct (octet_read b Hb) as [Hd Hv].
  cbn [length read_octets]. rewrite span_all; [|done|].
  - rewrite Hv. f_equal. destruct l as [|b' l]; [done|]. cbn [map concat drop app]. exact IH.
  - intros x. destruct l; [done|]. by intros [= <-].
Qed.

(** Every address is told by its text, which is written in network order whatever host
    the address comes from. *)
Theorem ip_text_read {h : Host} ip n : is_uint 32 ip ->
  mem_decode host_order (read_octets 4 (ip_address (uint32_t_to_ip_address ip n).2)) = ip.
Proof.
  intros Hip. cbn [uint32_t_to_ip_address snd ip_address]. pose proof (octets_read _ (mem_encode_ok host_order 4 ip)) as H.
  pose proof (mem_encode_length host_order 4 ip) as Hl. unfold inet_ntoa.
  destruct (mem_encode host_order 4 ip) as [|b l] eqn:E; [done|]. rewrite Hl in H. rewrite H, <-E, mem_decode_encode.
  by apply wrap_small.
Qed.

Lemma ip_text_read_witness :
  (ip_address (uint32_t_to_ip_address (h := LittleEndian) 16777343 node_net_new).2 = b! "127.0.0.1") /\
  mem_decode LittleEndian (read_octets 4 (ip_address (uint32_t_to_ip_address (h := LittleEndian) 16777343 node_net_new).2)) = 16777343.
Proof. split; [vm_compute; reflexivity|]. apply (ip_text_read (h := LittleEndian)). unfold is_uint. lia. Defined.

(** ** Public keys *)
Lemma pubkey_written pub : forall (i : nat) s, (i + length pub <= length s)%nat ->
  pubkey_writes i pub s = Some (take i s ++ pub ++ drop (i + length pub) s).
Proof.
  induction pub as [|b pub IH]; intros i s Hl; cbn [pubkey_writes length] in *.
  - by rewrite Nat.add_0_r, app_nil_l, take_drop.
  - unfold string_set. rewrite decide_True by lia. cbn [mbind option_bind]. rewrite IH by (rewrite length_insert; lia).
    f_equal. rewrite drop_insert_lt by lia. rewrite insert_take_drop by lia.
    replace (take (S i) (take i s ++ b :: drop (S i) s)) with (take i s ++ [b]).
    + rewrite <-!app_assoc. by replace (S i + length pub)%nat with (i + S (length pub))%nat by lia.
    + rewrite (cons_middle b (take i s) (drop (S i) s)), app_assoc, take_app_length'; [done|]. rewrite length_app, length_take. cbn. lia.
Qed.

Lemma string_read s : forall n i, mapM (string_at s) (seq i n) =
  if decide (n = 0 \/ i + n <= S (length s))%nat then Some (take n (drop i (s ++ [0]))) else None.
Proof.
  induction n as [|n IH]; intros i; [by rewrite decide_True by lia|]. cbn [seq mapM]. rewrite IH. unfold string_at.
  assert (Hl : length (s ++ [0]) = S (length s)) by (rewrite length_app; cbn; lia).
  destruct (decide (i + S n <= S (length s))%nat) as [Hi|Hi].
  - rewrite (decide_True (P := (S n = 0 \/ _)%nat)), decide_True by lia.
    destruct ((s ++ [0]) !! i) as [b|] eqn:E; [|apply lookup_ge_None in E; lia]. cbn.
    by rewrite (drop_S _ _ _ E).
  - rewrite (decide_False (P := (S n = 0 \/ _)%nat)) by lia.
    destruct ((s ++ [0]) !! i) as [b|] eqn:E; [|done]. apply lookup_lt_Some in E. cbn. by rewrite decide_False by lia.
Qed.

(** A key that is set is read back; the string of a node keeps its length. *)
Theorem pubkey_roundtrip n pub : length (pubkey_xy n) = pubkey_size -> length pub = pubkey_size ->
  exists n', set_pubkey_xy pub n = Some n' /\ get_pubkey_xy n' = Some pub /\ length (pubkey_xy n') = pubkey_size.
Proof.
  intros Hn Hp. unfold set_pubkey_xy. rewrite pubkey_written by lia. eexists. split; [reflexivity|]. cbn [take app Nat.add].
  rewrite Hp, drop_ge, app_nil_r by lia. split; [|by rewrite take_0]. unfold get_pubkey_xy. cbn [pubkey_xy]. rewrite string_read.
  unfold pubkey_size in *. rewrite take_0, app_nil_l, decide_True by lia. by rewrite drop_0, take_app_length'.
Qed.

Lemma pubkey_roundtrip_witness : exists n', set_pubkey_xy (seqZ 1 64) chain_node_new = Some n' /\ get_pubkey_xy n' = Some (seqZ 1 64).
Proof.
  destruct (pubkey_roundtrip chain_node_new (seqZ 1 64)) as (n' & E & Eg & _); [reflexivity..|]. exists n'. split; [exact E|exact Eg].
Defined.

(** No length is checked when a node is received: the key of a node whose string is
    shorter than 63 characters is read from behind the string. *)
Theorem pubkey_readable n : get_pubkey_xy n <> None <-> (63 <= length (pubkey_xy n))%nat.
Proof.
  unfold get_pubkey_xy. rewrite string_read. unfold pubkey_size. destruct (decide _) as [H|H]; (split; [intros Hc|]); [|done| |]; try lia.
  by destruct Hc.
Qed.

(** Such a node is what the move constructor leaves, and it can be received. *)
Lemma moved_node_unusable n pub : pubkey_size = length pub -> hd 0 pub <> 0 ->
  get_pubkey_xy (chain_node_move n).2 = None /\ set_pubkey_xy pub (chain_node_move n).2 = None.
Proof.
  intros Hp Hh. split.
  - destruct (get_pubkey_xy _) eqn:E; [|done]. exfalso.
    assert (63 <= length (pubkey_xy (chain_node_move n).2))%nat as Hl by (apply pubkey_readable; by rewrite E).
    cbn in Hl. lia.
  - destruct pub as [|b pub]; [done|]. cbn in Hh. unfold set_pubkey_xy. cbn [chain_node_move node_net_move snd pubkey_xy pubkey_writes].
    unfold string_set. rewrite decide_False, decide_False; [done|naive_solver|cbn; lia].
Qed.
Lemma short_key_received {h : Host} {HL : LittleEndianHost} (n old : chain_node) s : ser_wf n -> writable s ->
  (length (pubkey_xy n) < 63)%nat -> exists s', input n s = (Ok tt, s') /\ byteStream s' = byteStream s ++ encode n /\ get_pubkey_xy n = None.
Proof.
  intros Hw Hs Hl. destruct (input_writes n Hw s Hs) as (s' & E & HB & _). exists s'. split; [exact E|]. split; [exact HB|].
  destruct (get_pubkey_xy n) eqn:Eg; [|done]. exfalso. assert (63 <= length (pubkey_xy n))%nat; [apply pubkey_readable; by rewrite Eg|lia].
Qed.

(** ** Copies of a configuration *)
Theorem copies_forget_port net : net_port (chain_net_copy net) = 0 /\ net_port (chain_net_move net).1 = 0 /\
  net_port (chain_net_assign chain_net_new net) = net_port net /\ (chain_net_copy net = net <-> net_port net = 0).
Proof. destruct net as [r c p]. repeat split; cbn; [intros [= <-]|intros ->]; reflexivity. Qed.
