(* ===== verification/Pieces.v ===== *)
(** * The pieces of a message: [reqeust.hpp], [response.hpp], [response_data.hpp]

    A message is cut in pieces of at most 522 bytes, which may come in any order and more
    than once.  [Request] on the server and [ResponseData] on the client remember which
    pieces have come; the acknowledgement they give is the number of pieces before the
    first that is missing.  [Response] is the answer a server is sending. *)
From S2P Require Import Prelude Stream Protocol Effects.

(** ** Memory

    The blocks of a pool by their handles: what a fresh block holds is not known, and a
    block that is not there has been given back. *)
Abbreviation blocks := (gmap positive bytes).

Class Pool := {
  fresh_block : Z -> bytes;
  fresh_block_length n : 0 <= n -> Z.of_nat (length (fresh_block n)) = n;
  fresh_block_ok n : bytes_ok (fresh_block n);
}.

Definition allocate `{Pool} (n : Z) (b : blocks) : positive * blocks :=
  let h := fresh (dom b) in (h, <[h := fresh_block n]> b).

(** [None]: the block was given back before. *)
Definition deallocate (h : positive) (b : blocks) : option blocks :=
  if decide (is_Some (b !! h)) then Some (delete h b) else None.

(** [memcpy] from and to a place in an object; [None] is an access outside it. *)
Definition copy_from (off n : Z) (src : bytes) : option bytes :=
  if decide (0 <= off /\ 0 <= n /\ off + n <= Z.of_nat (length src)) then Some (slice (Z.to_nat off) (Z.to_nat n) src)
  else None.
Definition copy_to (off : Z) (d dst : bytes) : option bytes :=
  if decide (0 <= off /\ off + Z.of_nat (length d) <= Z.of_nat (length dst)) then Some (put (Z.to_nat off) d dst)
  else None.

(** ** Which pieces have come *)

(** [getAckNumber]: the index of the first piece that is missing. *)
Fixpoint getAckNumber (piece_state : list bool) : Z :=
  match piece_state with
  | true :: l => 1 + getAckNumber l
  | _ => 0
  end.

Section State.
Context {S : Type}.

(** The check lets the index [piece_count] through, which is behind the end of the vector. *)
Definition getPieceState (piece_count _index : Z) (piece_state : list bool) : M S bool :=
  if piece_count <? _index then throw StdException
  else match piece_state !! Z.to_nat _index with Some b => mret b | None => undefined end.
Definition setPieceState (piece_count _index : Z) (value : bool) (piece_state : list bool) : M S (list bool) :=
  if piece_count <? _index then throw StdException
  else if decide (Z.to_nat _index < length piece_state)%nat then mret (<[Z.to_nat _index := value]> piece_state)
  else undefined.

Definition lift_option {A} (o : option A) : M S A := match o with Some a => mret a | None => undefined end.
End State.

(** A port and an IP address, in host order. *)
Record address := { sin_port : Z; sin_addr : Z }.
#[global] Instance address_eq_dec : EqDecision address.
Proof. solve_decision. Defined.

(** ** A request, on the server *)
Record Servlet := { request_id : Z; client_port : Z; client_ip_address : Z }.

#[global] Instance Servlet_eq_dec : EqDecision Servlet.
Proof. solve_decision. Defined.
#[global] Instance Servlet_countable : Countable Servlet.
Proof.
  refine (inj_countable' (fun s => (request_id s, client_port s, client_ip_address s))
    (fun '(i, p, a) => {| request_id := i; client_port := p; client_ip_address := a |}) _). by intros [].
Defined.

(** [operator <], the order of the maps whose keys are servlets. *)
Definition Servlet_lt (me other : Servlet) : bool :=
  if negb (request_id me =? request_id other) then request_id me <? request_id other
  else if negb (client_ip_address me =? client_ip_address other)
  then client_ip_address other <? client_ip_address me
  else client_port other <? client_port me.

Record Request := {
  request_state : list bool;
  request_pieces : Z;
  request_size : Z;
  request_socket : Z;
  is_trigger : bool;
  active_dt : Z;
  request_data : positive;
}.

Definition Request_make (_pieces _data_size socket now : Z) (data : positive) : Request :=
  {| request_state := replicate (Z.to_nat _pieces) false; request_pieces := _pieces; request_size := _data_size;
     request_socket := socket; is_trigger := false; active_dt := now; request_data := data |}.
Definition with_state (l : list bool) (r : Request) : Request :=
  {| request_state := l; request_pieces := request_pieces r; request_size := request_size r;
     request_socket := request_socket r; is_trigger := is_trigger r; active_dt := active_dt r; request_data := request_data r |}.
Definition triggered (r : Request) : Request :=
  {| request_state := request_state r; request_pieces := request_pieces r; request_size := request_size r;
     request_socket := request_socket r; is_trigger := true; active_dt := active_dt r; request_data := request_data r |}.
Definition touched (now : Z) (r : Request) : Request :=
  {| request_state := request_state r; request_pieces := request_pieces r; request_size := request_size r;
     request_socket := request_socket r; is_trigger := is_trigger r; active_dt := now; request_data := request_data r |}.

(** ** A response, on the server

    [lastActive] is [None] when it holds no value: the copy constructor leaves it out. *)
Record Response := {
  response_servlet : Servlet;
  response_pieces : Z;
  last_piece_size : Z;
  response_size : Z;
  ack_accept : Z;
  lastActive : option Z;
  response_block : positive;
}.

(** The size of the last of the pieces of [n] bytes. *)
Definition last_size (n : Z) : Z :=
  if n mod defaultPieceLimitSize =? 0 then defaultPieceLimitSize else n mod defaultPieceLimitSize.

Definition Response_make (servlet : Servlet) (_pieces _data_size : Z) (_data : positive) (now : Z) : Response :=
  {| response_servlet := servlet; response_pieces := _pieces; last_piece_size := last_size _data_size;
     response_size := _data_size; ack_accept := 0; lastActive := Some now; response_block := _data |}.
Definition Response_copy (other : Response) : Response :=
  {| response_servlet := response_servlet other; response_pieces := response_pieces other;
     last_piece_size := last_piece_size other; response_size := response_size other; ack_accept := ack_accept other;
     lastActive := None; response_block := response_block other |}.
Definition response_active (now : Z) (r : Response) : Response :=
  {| response_servlet := response_servlet r; response_pieces := response_pieces r; last_piece_size := last_piece_size r;
     response_size := response_size r; ack_accept := ack_accept r; lastActive := Some now; response_block := response_block r |}.
Definition setAckAccept (_new_ack : Z) (r : Response) : Response :=
  if ack_accept r <? _new_ack then
    {| response_servlet := response_servlet r; response_pieces := response_pieces r; last_piece_size := last_piece_size r;
       response_size := response_size r; ack_accept := _new_ack; lastActive := lastActive r; response_block := response_block r |}
  else r.

(** ** A response, on the client *)
Inductive FailureReason := OK | ServerResourcesExhausted | NetworkTimeout | TheRunningLogicOfTheServerIncorrect.

Record ResponseData := {
  message_id : Z;
  piece_state : list bool;
  piece_total : Z;
  total_size : Z;
  is_initial : bool;
  isSuccess : bool;
  reason : FailureReason;
  data : bytes;
}.

Definition ResponseData_new : ResponseData :=
  {| message_id := 0; piece_state := []; piece_total := 0; total_size := 0; is_initial := false; isSuccess := false;
     reason := OK; data := [] |}.

Definition ResponseData_initialize `{Pool} (_message_id _piece_count _total_size : Z) (r : ResponseData) : ResponseData :=
  if is_initial r then r
  else {| message_id := _message_id; piece_state := replicate (Z.to_nat _piece_count) false; piece_total := _piece_count;
          total_size := _total_size; is_initial := true; isSuccess := isSuccess r; reason := reason r;
          data := fresh_block _total_size |}.
Definition with_pieces (l : list bool) (d : bytes) (r : ResponseData) : ResponseData :=
  {| message_id := message_id r; piece_state := l; piece_total := piece_total r; total_size := total_size r;
     is_initial := is_initial r; isSuccess := isSuccess r; reason := reason r; data := d |}.
Definition failed (why : FailureReason) (r : ResponseData) : ResponseData :=
  {| message_id := message_id r; piece_state := piece_state r; piece_total := piece_total r; total_size := total_size r;
     is_initial := is_initial r; isSuccess := false; reason := why; data := data r |}.
Definition succeeded (d : bytes) (r : ResponseData) : ResponseData :=
  {| message_id := message_id r; piece_state := piece_state r; piece_total := piece_total r;
     total_size := u32 (Z.of_nat (length d)); is_initial := is_initial r; isSuccess := true; reason := reason r; data := d |}.

(** ** Lemmas *)
Lemma getAckNumber_bounds l : 0 <= getAckNumber l <= Z.of_nat (length l).
Proof. induction l as [|[] l IH]; cbn [getAckNumber length]; lia. Qed.

(** The acknowledgement: every piece before it has come and it is missing, or all have come. *)
Lemma getAckNumber_spec l : take (Z.to_nat (getAckNumber l)) l = replicate (Z.to_nat (getAckNumber l)) true /\
  (getAckNumber l < Z.of_nat (length l) -> l !! Z.to_nat (getAckNumber l) = Some false).
Proof.
  induction l as [|[] l [IH1 IH2]]; [done| |done]. cbn [getAckNumber length]. pose proof (getAckNumber_bounds l).
  replace (Z.to_nat (1 + getAckNumber l)) with (S (Z.to_nat (getAckNumber l))) by lia. cbn. rewrite IH1.
  split; [done|]. intros. apply IH2. lia.
Qed.
Lemma getAckNumber_all l : getAckNumber l = Z.of_nat (length l) <-> l = replicate (length l) true.
Proof.
  split.
  - intros E. destruct (getAckNumber_spec l) as [H _]. rewrite E, Nat2Z.id, firstn_all in H. done.
  - generalize (length l). intros n ->. induction n as [|n IH]; [done|]. cbn [replicate getAckNumber]. rewrite IH. lia.
Qed.
Lemma getAckNumber_prefix n m : getAckNumber (replicate n true ++ replicate m false) = Z.of_nat n.
Proof. induction n as [|n IH]; cbn [replicate app getAckNumber]; [by destruct m|rewrite IH; lia]. Qed.

Lemma Servlet_lt_irreflexive s : Servlet_lt s s = false.
Proof. unfold Servlet_lt. rewrite !Z.eqb_refl. cbn. lia. Qed.
(** Two servlets that the order does not tell apart are the same. *)
Lemma Servlet_lt_total s t : s = t \/ Servlet_lt s t = true \/ Servlet_lt t s = true.
Proof.
  unfold Servlet_lt. destruct s as [i p a], t as [i' p' a']. cbn. rewrite (Z.eqb_sym i' i), (Z.eqb_sym a' a).
  destruct (Z.eqb_spec i i') as [->|]; cbn; [|lia]. destruct (Z.eqb_spec a a') as [->|]; cbn; [|lia].
  destruct (Z.lt_total p p') as [?|[->|?]]; [|by left|]; right; lia.
Qed.
Lemma Servlet_lt_asymmetric s t : Servlet_lt s t = true -> Servlet_lt t s = false.
Proof.
  unfold Servlet_lt. rewrite (Z.eqb_sym (request_id t)), (Z.eqb_sym (client_ip_address t)).
  destruct (_ =? _); cbn; [|lia]. destruct (_ =? _); cbn; lia.
Qed.

Lemma copy_from_spec off n src : 0 <= off -> 0 <= n -> off + n <= Z.of_nat (length src) ->
  copy_from off n src = Some (slice (Z.to_nat off) (Z.to_nat n) src).
Proof. intros. unfold copy_from. by rewrite decide_True. Qed.
Lemma copy_to_spec off d dst : 0 <= off -> off + Z.of_nat (length d) <= Z.of_nat (length dst) ->
  copy_to off d dst = Some (put (Z.to_nat off) d dst).
Proof. intros. unfold copy_to. by rewrite decide_True. Qed.
Lemma copy_to_length off d dst dst' : copy_to off d dst = Some dst' -> length dst' = length dst.
Proof. unfold copy_to. case_decide; [|done]. intros [= <-]. apply put_length. lia. Qed.

Lemma last_size_bounds n : 0 < last_size n <= defaultPieceLimitSize.
Proof.
  unfold last_size. pose proof (Z.mod_pos_bound n defaultPieceLimitSize ltac:(done)) as H.
  change defaultPieceLimitSize with 522 in *. destruct (Z.eqb_spec (n mod 522) 0); lia.
Qed.

(** The vector of pieces, within its bounds. *)
Lemma set_piece {A} p (mask : list bool) i : 0 <= i < p -> length mask = Z.to_nat p ->
  setPieceState p i true mask = (mret (<[Z.to_nat i := true]> mask) : M A (list bool)).
Proof.
  intros Hi Hl. unfold setPieceState. destruct (Z.ltb_spec p i); [lia|]. by rewrite decide_True by lia.
Qed.
Lemma get_piece {A} p (mask : list bool) i b : 0 <= i < p -> mask !! Z.to_nat i = Some b ->
  getPieceState p i mask = (mret b : M A bool).
Proof. intros Hi Hb. unfold getPieceState. destruct (Z.ltb_spec p i); [lia|]. by rewrite Hb. Qed.
