(* ===== verification/Reassembly.v ===== *)
(** * Putting a message together

    The pieces of a message cover it without overlap, so that a block in which every piece
    has been written, in whatever order and however often, is the message. *)
From S2P Require Import Prelude Stream Protocol Effects Pieces.

(** ** The pieces of [n] bytes *)
Definition pieces (n : Z) : Z := n / 522 + if n mod 522 =? 0 then 0 else 1.

(** The size of piece [i] of [p] pieces. *)
Definition size_of_piece (n p i : Z) : Z := if i =? p - 1 then last_size n else defaultPieceLimitSize.

Lemma pieces_bounds n : 0 <= n -> 522 * (pieces n - 1) < n <= 522 * pieces n \/ n = 0 /\ pieces n = 0.
Proof.
  intros Hn. unfold pieces. pose proof (Z.div_mod n 522 ltac:(lia)). pose proof (Z.mod_pos_bound n 522 ltac:(lia)).
  destruct (Z.eqb_spec (n mod 522) 0); lia.
Qed.
Lemma piece_count_pieces n : 0 <= n <= 65535 * 522 -> piece_count n = pieces n.
Proof.
  intros Hn. unfold piece_count. change defaultPieceLimitSize with 522. apply wrap_small. unfold is_uint.
  pose proof (pieces_bounds n ltac:(lia)). unfold pieces in *. lia.
Qed.

Lemma last_size_eq n : 0 < n -> last_size n = n - 522 * (pieces n - 1).
Proof.
  intros Hn. unfold last_size, pieces. change defaultPieceLimitSize with 522.
  pose proof (Z.div_mod n 522 ltac:(lia)). pose proof (Z.mod_pos_bound n 522 ltac:(lia)).
  destruct (Z.eqb_spec (n mod 522) 0); lia.
Qed.

Lemma size_of_piece_bounds n i : 0 <= i < pieces n -> 0 <= n ->
  0 < size_of_piece n (pieces n) i <= 522 /\ 522 * i + size_of_piece n (pieces n) i <= n.
Proof.
  intros Hi Hn. pose proof (pieces_bounds n Hn). unfold size_of_piece.
  destruct (Z.eqb_spec i (pieces n - 1)) as [->|]; [rewrite last_size_eq by lia; lia|].
  change defaultPieceLimitSize with 522. lia.
Qed.

(** The bytes of piece [i]. *)
Definition piece (data : bytes) (i : Z) : bytes :=
  let n := Z.of_nat (length data) in slice (Z.to_nat (522 * i)) (Z.to_nat (size_of_piece n (pieces n) i)) data.

Lemma piece_length data i : 0 <= i < pieces (Z.of_nat (length data)) ->
  Z.of_nat (length (piece data i)) = size_of_piece (Z.of_nat (length data)) (pieces (Z.of_nat (length data))) i.
Proof.
  intros Hi. destruct (size_of_piece_bounds _ i Hi ltac:(lia)) as [Hs Hb]. unfold piece. rewrite slice_length by lia. lia.
Qed.

Lemma slice_lookup off n (l : bytes) k : slice off n l !! k = if decide (k < n)%nat then l !! (off + k)%nat else None.
Proof.
  unfold slice. destruct (decide (k < n)%nat); [by rewrite lookup_take_lt, lookup_drop|by rewrite lookup_take_ge by lia].
Qed.

(** ** A block with some of the pieces *)
Definition holds (mask : list bool) (data block : bytes) : Prop :=
  length block = length data /\ length mask = Z.to_nat (pieces (Z.of_nat (length data))) /\
  forall i, mask !! Z.to_nat i = Some true -> 0 <= i -> piece block i = piece data i.

Lemma holds_fresh data block : length block = length data ->
  holds (replicate (Z.to_nat (pieces (Z.of_nat (length data)))) false) data block.
Proof.
  intros Hl. split; [done|]. split; [apply length_replicate|]. intros i Hi. by apply lookup_replicate in Hi as [].
Qed.

Lemma holds_range mask data block i b : holds mask data block -> mask !! Z.to_nat i = Some b -> 0 <= i ->
  i < pieces (Z.of_nat (length data)).
Proof. intros (_ & Hm & _) Hi H0. apply lookup_lt_Some in Hi. lia. Qed.

Lemma piece_put_same data block i : length block = length data -> 0 <= i < pieces (Z.of_nat (length data)) ->
  piece (put (Z.to_nat (522 * i)) (piece data i) block) i = piece data i.
Proof.
  intros Hl Hi. destruct (size_of_piece_bounds _ i Hi ltac:(lia)) as [Hs Hb]. pose proof (piece_length data i Hi) as Hp.
  unfold piece at 1. rewrite put_length by lia. rewrite Hl.
  rewrite slice_put_same by lia. done.
Qed.

Lemma piece_put_other data block i j : length block = length data -> 0 <= i < pieces (Z.of_nat (length data)) ->
  0 <= j < pieces (Z.of_nat (length data)) -> i <> j ->
  piece (put (Z.to_nat (522 * i)) (piece data i) block) j = piece block j.
Proof.
  intros Hl Hi Hj Hne. pose proof (size_of_piece_bounds _ i Hi ltac:(lia)). pose proof (size_of_piece_bounds _ j Hj ltac:(lia)).
  pose proof (piece_length data i Hi) as Hp. unfold piece at 1 3. rewrite put_length by lia. rewrite Hl.
  apply slice_put_other; lia.
Qed.

(** Writing a piece. *)
Lemma holds_put mask data block i : holds mask data block -> 0 <= i < pieces (Z.of_nat (length data)) ->
  holds (<[Z.to_nat i := true]> mask) data (put (Z.to_nat (522 * i)) (piece data i) block).
Proof.
  intros (Hl & Hm & Hh) Hi. pose proof (size_of_piece_bounds _ i Hi ltac:(lia)). pose proof (piece_length data i Hi) as Hp.
  split; [rewrite put_length by lia; done|]. split; [by rewrite length_insert|]. intros j Hj H0.
  destruct (decide (i = j)) as [<-|Hne]; [by apply piece_put_same|].
  rewrite list_lookup_insert_ne in Hj by lia. pose proof (lookup_lt_Some _ _ _ Hj).
  rewrite piece_put_other by lia. by apply Hh.
Qed.

(** All pieces: the block is the message. *)
Lemma holds_all data block mask : holds mask data block ->
  getAckNumber mask = pieces (Z.of_nat (length data)) -> block = data.
Proof.
  intros (Hl & Hm & Hh) Ha. assert (Hp : 0 <= pieces (Z.of_nat (length data)))
    by (pose proof (pieces_bounds (Z.of_nat (length data)) ltac:(lia)); lia).
  assert (Em : mask = replicate (length mask) true) by (apply getAckNumber_all; lia).
  apply list_eq. intros j. destruct (decide (j < length data)%nat) as [Hj|]; [|by rewrite !lookup_ge_None_2 by lia].
  pose proof (Z.div_mod (Z.of_nat j) 522 ltac:(lia)).
  pose proof (Z.mod_pos_bound (Z.of_nat j) 522 ltac:(lia)). pose proof (pieces_bounds (Z.of_nat (length data)) ltac:(lia)) as Hb.
  set (i := Z.of_nat j / 522) in *. clearbody i.
  assert (Hi : 0 <= i < pieces (Z.of_nat (length data))) by lia.
  assert (E : piece block i = piece data i).
  { apply Hh; [|lia]. rewrite Em. apply lookup_replicate. split; [done|]. lia. }
  pose proof (f_equal (fun l => l !! (j - Z.to_nat (522 * i))%nat) E) as Ej. cbv beta in Ej.
  unfold piece in Ej. rewrite !slice_lookup, Hl in Ej.
  assert (Hs : (j - Z.to_nat (522 * i) < Z.to_nat (size_of_piece (Z.of_nat (length data)) (pieces (Z.of_nat (length data))) i))%nat).
  { unfold size_of_piece. destruct (Z.eqb_spec i (pieces (Z.of_nat (length data)) - 1)) as [E'|].
    - rewrite last_size_eq by lia. rewrite <-E'. lia.
    - change defaultPieceLimitSize with 522. lia. }
  rewrite !decide_True in Ej by done. by replace (Z.to_nat (522 * i) + (j - Z.to_nat (522 * i)))%nat with j in Ej by lia.
Qed.

Lemma piece_ok data i : bytes_ok data -> bytes_ok (piece data i).
Proof. intros Hok. by apply slice_ok. Qed.

(** ** Which pieces have come, after those of [order] *)
Definition mask_of (count : Z) (order : list Z) : list bool :=
  foldl (fun mask i => <[Z.to_nat i := true]> mask) (replicate (Z.to_nat count) false) order.

Lemma mask_of_snoc count order i : mask_of count (order ++ [i]) = <[Z.to_nat i := true]> (mask_of count order).
Proof. unfold mask_of. by rewrite foldl_app. Qed.
Lemma mask_of_length count order : length (mask_of count order) = Z.to_nat count.
Proof.
  induction order as [|i order IH] using rev_ind; [apply length_replicate|]. by rewrite mask_of_snoc, length_insert.
Qed.
Lemma mask_of_lookup count order i : 0 <= i < count -> (forall j, j ∈ order -> 0 <= j) ->
  mask_of count order !! Z.to_nat i = Some (bool_decide (i ∈ order)).
Proof.
  intros Hi. induction order as [|j order IH] using rev_ind; intros H0.
  { unfold mask_of. cbn. rewrite bool_decide_false by (by intros ?%elem_of_nil). apply lookup_replicate. split; [done|]. lia. }
  rewrite mask_of_snoc. assert (0 <= j) by (apply H0, elem_of_app; right; by left).
  destruct (decide (i = j)) as [->|Hne].
  - rewrite list_lookup_insert_eq by (rewrite mask_of_length; lia). f_equal. symmetry. apply bool_decide_eq_true.
    apply elem_of_app. right. by left.
  - rewrite list_lookup_insert_ne by lia. rewrite IH by (intros; apply H0, elem_of_app; by left). f_equal.
    apply bool_decide_ext. rewrite elem_of_app, list_elem_of_singleton. naive_solver.
Qed.

(** All pieces have come when the acknowledgement is their number. *)
Lemma mask_of_all count order : 0 <= count -> (forall j, j ∈ order -> 0 <= j < count) ->
  getAckNumber (mask_of count order) = count <-> forall i, 0 <= i < count -> i ∈ order.
Proof.
  intros Hc Ho. assert (E : getAckNumber (mask_of count order) = count <->
    mask_of count order = replicate (length (mask_of count order)) true).
  { rewrite <-getAckNumber_all, mask_of_length. lia. }
  rewrite E, mask_of_length. split.
  - intros Em i Hi. pose proof (mask_of_lookup count order i Hi (fun j Hj => proj1 (Ho j Hj))) as Hl.
    rewrite Em in Hl. apply lookup_replicate in Hl as [Hl _]. by apply bool_decide_eq_true in Hl.
  - intros Ha. apply list_eq. intros k. destruct (decide (k < Z.to_nat count)%nat) as [Hk|].
    + pose proof (mask_of_lookup count order (Z.of_nat k) ltac:(lia) (fun j Hj => proj1 (Ho j Hj))) as Hl.
      rewrite Nat2Z.id in Hl. rewrite Hl, bool_decide_true by (apply Ha; lia). symmetry. by apply lookup_replicate.
    + rewrite !lookup_ge_None_2; [done|rewrite length_replicate; lia|rewrite mask_of_length; lia].
Qed.
