(* ===== verification/Packets.v ===== *)
(** * The packets of the two ends: the [send...] functions of [sub_reactor.cpp],
    [invoker.cpp] and [transmitter.cpp]

    Each starts a header with [initiateSenderProtocolHeader] and changes some of its
    fields; a piece has its bytes behind the header.  Whatever the byte orders of the two
    hosts, a packet is parsed as the header it was written for. *)
From S2P Require Import Prelude Stream Protocol Effects Pieces.

Definition bufferSize : Z := FullPieceSize + 1.

Section Build.
Context {h : Host}.

(** The first 26 bytes of a buffer after the operations on it. *)
Definition build (m : P unit) : bytes := match m (replicate 26 0) with Some (_, b) => b | None => [] end.
Definition start (_message_id size : Z) : P bool := initiateSenderProtocolHeader _message_id size protocolHeaderSize.

(** ** The server *)
Definition sendACK_packet (_ack_number _message_id : Z) : bytes :=
  build (_ ← start _message_id 0; _ ← setProtocolType ReceiverACK; setACKAcceptOrder _ack_number).
(** The phase that is asked for is not used. *)
Definition sendReset_packet (_message_id : Z) (phase : CommunicationPhase) : bytes :=
  build (_ ← start _message_id 0; setProtocolType StateReset).
(** The phase is set after the packet was written to the socket. *)
Definition sendHeartbeat_packet (_message_id : Z) (phase : CommunicationPhase) : bytes :=
  build (_ ← start _message_id 0; setProtocolType TimedOutResponseHeartbeat).
Definition sendExhausted_packet : bytes :=
  build (_ ← start 0 0; setProtocolType TheServerResourcesExhausted).
Definition response_piece (_message_id size k n : Z) : bytes :=
  build (_ ← start _message_id size; _ ← setProtocolType RequestSend; _ ← setProtocolPhase Protocol.Response;
         setProtocolOrderAndSize k n).

(** ** The clients *)
Definition request_piece (_message_id size i n : Z) : bytes :=
  build (_ ← start _message_id size; _ ← setProtocolType RequestSend; setProtocolOrderAndSize i n).
Definition request_ACK_packet (_message_id size : Z) : bytes :=
  build (_ ← start _message_id size; setProtocolType RequestACK).
Definition sendResponseACK_packet (_ack_number _message_id : Z) : bytes :=
  build (_ ← start _message_id 0; _ ← setProtocolType ReceiverACK; _ ← setProtocolPhase Protocol.Response;
         setACKAcceptOrder _ack_number).
Definition heartbeat_packet (_message_id : Z) (phase : CommunicationPhase) : bytes :=
  build (_ ← start _message_id 0; _ ← setProtocolType TimedOutResponseHeartbeat; setProtocolPhase phase).
Definition request_heartbeat_packet (_message_id : Z) (phase : CommunicationPhase) : bytes :=
  build (_ ← start _message_id 0; _ ← setProtocolType TimedOutRequestHeartbeat; setProtocolPhase phase).

(** ** Receiving

    [recvfrom] puts a datagram at the start of the buffer and cuts it at its end;
    [parse] is given the length. *)
Definition receive (datagram buffer : bytes) : bytes * Z :=
  let d := take (Z.to_nat bufferSize) datagram in (put 0 d buffer, Z.of_nat (length d)).
Definition parsed (buffer : bytes) (size : Z) : option ProtocolHeader :=
  match parse size buffer with Some ((header, true), _) => Some header | _ => None end.
(** [parse] does not leave the buffer. *)
Definition parses (buffer : bytes) (size : Z) : bool := bool_decide (is_Some (parse size buffer)).
End Build.

(** ** The headers of the packets *)
Definition header_with (_message_id size : Z) (p : CommunicationPhase) (t : ProtocolType) (order n accept : Z) :
    ProtocolHeader :=
  {| synchronousWord := defaultSynchronousWord; phase := p; type := t; pieceOrder := order; pieceSize := n;
     acceptMinOrder := 0; timePoint := _message_id; totalCount := piece_count size;
     pieceStandardSize := defaultPieceLimitSize; totalSize := size; acceptOrder := accept |}.

Section Headers.
Context {h : Host}.

Lemma start_eq id size (buf : bytes) : length buf = 26%nat ->
  start id size buf = Some (true, concat (header_fields (sender_header id size) [])).
Proof.
  intros Hl. unfold start. rewrite concat_header_fields, initiate_eq by lia.
  change (protocolHeaderSize <? protocolHeaderSize) with false. by rewrite drop_ge by lia.
Qed.

Lemma build_encode (m : bool -> P unit) id size hd :
  m true (concat (header_fields (sender_header id size) [])) = Some (tt, concat (header_fields hd [])) ->
  build (b ← start id size; m b) = encode_header hd.
Proof.
  intros E. unfold build. rewrite (P_bind_some _ _ _ _ _ (start_eq id size _ (length_replicate 26 0))), E.
  by rewrite concat_header_fields, app_nil_r.
Qed.

Ltac built :=
  apply (build_encode (fun _ => _)); cbv beta;
  repeat (erewrite P_bind_some by first [apply setProtocolType_eq | apply setProtocolPhase_eq |
    apply setProtocolOrderAndSize_eq | apply setACKAcceptOrder_eq]);
  first [apply setProtocolType_eq | apply setProtocolPhase_eq | apply setProtocolOrderAndSize_eq |
    apply setACKAcceptOrder_eq].

Lemma sendACK_eq n id : sendACK_packet n id =
  encode_header (header_with id 0 Protocol.Request ReceiverACK 0 protocolHeaderSize n).
Proof. built. Qed.
Lemma sendReset_eq id p : sendReset_packet id p =
  encode_header (header_with id 0 Protocol.Request StateReset 0 protocolHeaderSize 0).
Proof. built. Qed.
Lemma sendHeartbeat_eq id p : sendHeartbeat_packet id p =
  encode_header (header_with id 0 Protocol.Request TimedOutResponseHeartbeat 0 protocolHeaderSize 0).
Proof. built. Qed.
Lemma sendExhausted_eq : sendExhausted_packet =
  encode_header (header_with 0 0 Protocol.Request TheServerResourcesExhausted 0 protocolHeaderSize 0).
Proof. built. Qed.
Lemma response_piece_eq id size k n : response_piece id size k n =
  encode_header (header_with id size Protocol.Response RequestSend k n 0).
Proof. built. Qed.
Lemma request_piece_eq id size i n : request_piece id size i n =
  encode_header (header_with id size Protocol.Request RequestSend i n 0).
Proof. built. Qed.
Lemma request_ACK_eq id size : request_ACK_packet id size =
  encode_header (header_with id size Protocol.Request RequestACK 0 protocolHeaderSize 0).
Proof. built. Qed.
Lemma sendResponseACK_eq n id : sendResponseACK_packet n id =
  encode_header (header_with id 0 Protocol.Response ReceiverACK 0 protocolHeaderSize n).
Proof. built. Qed.
Lemma heartbeat_eq id p : heartbeat_packet id p =
  encode_header (header_with id 0 p TimedOutResponseHeartbeat 0 protocolHeaderSize 0).
Proof. built. Qed.
Lemma request_heartbeat_eq id p : request_heartbeat_packet id p =
  encode_header (header_with id 0 p TimedOutRequestHeartbeat 0 protocolHeaderSize 0).
Proof. built. Qed.

Lemma header_with_wf id size p t order n accept : is_uint 64 id -> is_uint 32 size -> is_uint 16 order ->
  is_uint 16 n -> is_uint 16 accept -> header_wf (header_with id size p t order n accept).
Proof.
  intros. assert (is_uint 16 (piece_count size)) by (apply wrap_range; lia).
  unfold header_wf, header_with, defaultSynchronousWord, defaultPieceLimitSize, protocolHeaderSize, is_uint in *. cbn. lia.
Qed.

(** Receiving a packet: the buffer starts with it, and it is parsed as its header. *)
Lemma receive_length d buffer : Z.of_nat (length buffer) = bufferSize ->
  Z.of_nat (length (receive d buffer).1) = bufferSize.
Proof.
  intros Hl. unfold receive. cbn [fst]. rewrite put_length; [done|]. rewrite length_take. unfold bufferSize in *. lia.
Qed.
Lemma receive_ok d buffer : bytes_ok d -> bytes_ok buffer -> bytes_ok (receive d buffer).1.
Proof. intros. apply put_ok; [|done]. by apply Forall_take. Qed.

Lemma receive_short d buffer : Z.of_nat (length d) <= bufferSize -> Z.of_nat (length buffer) = bufferSize ->
  receive d buffer = (d ++ drop (length d) buffer, Z.of_nat (length d)).
Proof. intros Hd Hl. unfold receive. rewrite take_ge by lia. unfold put. by rewrite take_0, Nat.add_0_l. Qed.

Lemma parsed_encode hd body buffer : header_wf hd -> bytes_ok (encode_header hd) -> bytes_ok body -> bytes_ok buffer ->
  Z.of_nat (length body) <= 522 -> Z.of_nat (length buffer) = bufferSize ->
  exists rest, receive (encode_header hd ++ body) buffer = (encode_header hd ++ body ++ rest, 26 + Z.of_nat (length body)) /\
    bytes_ok (body ++ rest) /\ Z.of_nat (length (body ++ rest)) = 523 /\
    parsed (encode_header hd ++ body ++ rest) (26 + Z.of_nat (length body)) = Some hd.
Proof.
  intros Hw Hh Hb Hok Hl Hbuf.
  rewrite receive_short; [|rewrite length_app, encode_header_length; change bufferSize with 549; lia|done].
  exists (drop (length (encode_header hd ++ body)) buffer). rewrite length_app, encode_header_length, <-app_assoc.
  split; [f_equal; lia|]. assert (bytes_ok (body ++ drop (26 + length body) buffer))
    by (apply Forall_app_2; [done|by apply Forall_drop]).
  split; [done|]. split; [rewrite length_app, length_drop; unfold bufferSize in Hbuf; change (FullPieceSize + 1) with 549 in Hbuf; lia|].
  unfold parsed. rewrite parse_encode; [done| |done|by apply Forall_app_2]. unfold protocolHeaderSize. lia.
Qed.

Lemma encode_header_ok hd : header_wf hd -> bytes_ok (encode_header hd).
Proof.
  intros (H1 & _). unfold encode_header. rewrite H1. repeat apply Forall_app_2; try apply bytes_ok_reverse, le_encode_ok.
  repeat constructor; unfold byte_ok, is_uint; destruct (phase hd), (type hd); vm_compute; congruence.
Qed.
End Headers.
