(* ===== verification/Middleware.v ===== *)
(** * The middleware of the RPC: [middleware_channel.cpp], [zlib_service.cpp]

    Services that messages go through: inwards from the first to the last, outwards from
    the last to the first.  The last service of a channel is the one that answers, and the
    ends of a call use the others. *)
From S2P Require Import Prelude Stream Effects Pieces.

(** A service, in a program whose state is [S]. *)
Record middleware_service {S : Type} := { In : bytes -> M S bytes; Out : bytes -> M S bytes }.
Arguments middleware_service S : clear implicits.

Section Channel.
Context {S : Type}.
Implicit Types services : list (middleware_service S).

Fixpoint through (l : list (bytes -> M S bytes)) (data : bytes) : M S bytes :=
  match l with
  | [] => mret data
  | f :: l => data ← f data; through l data
  end.

Definition MiddlewareChannel_In services : bytes -> M S bytes := through (map In services).
Definition MiddlewareChannel_Out services : bytes -> M S bytes := through (reverse (map Out services)).

(** All but the last: nothing when there is only one. *)
Definition outer services : list (middleware_service S) := take (length services - 1) services.
Definition ClientIn services : bytes -> M S bytes := through (map In (outer services)).
Definition ClientOut services : bytes -> M S bytes := through (reverse (map Out (outer services))).

(** [Register]: a service is added once; [same] compares the pointers of singletons. *)
Definition Register {I : Type} `{EqDecision I} (mp : I) (services : list I) : list I :=
  if decide (mp ∈ services) then services else services ++ [mp].

(** ** Laws *)

Lemma through_app l k data s : through (l ++ k) data s = (data ← through l data; through k data) s.
Proof.
  revert data s. induction l as [|f l IH]; intros data s; [done|]. cbn [app through].
  unfold mbind, M_bind. destruct (f data s); [apply IH|done..].
Qed.

(** The answer of the last service goes out through all of them. *)
Lemma channel_split services last : MiddlewareChannel_Out (services ++ [last]) =
  fun data => data ← Out last data; through (reverse (map Out services)) data.
Proof. unfold MiddlewareChannel_Out. by rewrite map_app, reverse_app. Qed.
Lemma outer_app services last : outer (services ++ [last]) = services.
Proof. unfold outer. rewrite length_app, Nat.add_sub. apply take_app_length. Qed.
End Channel.

(** ** Compression

    zlib: [compress] fails when there is no memory; [uncompress] has the source and the
    size of the destination, stops at the end of the stream and fails when the destination
    is too small. *)
Class Zlib := {
  compress : bytes -> option bytes;
  uncompress : bytes -> Z -> option bytes;
}.
Class ZlibLaws `{Zlib} : Prop := {
  compress_ok data : bytes_ok data -> exists out, compress data = Some out /\ bytes_ok out;
  uncompress_compress data out tail size : compress data = Some out -> Z.of_nat (length data) <= size ->
    uncompress (out ++ tail) size = Some data;
}.

Section Zlib.
Context {h : Host} `{Zlib} {S : Type}.
(** What is in memory behind the data. *)
Variable behind : bytes.

Definition try_option {A} (o : option A) : M S A := match o with Some a => mret a | None => throw StdException end.

(** The source is said to be four bytes longer than it is. *)
Definition ZlibService_In (data : bytes) : M S bytes :=
  size ← lift_option (copy_from 0 4 data);
  let originalSize := le_decode size in
  try_option (uncompress (drop 4 data ++ behind) originalSize).
Definition ZlibService_Out (data : bytes) : M S bytes :=
  let save_size := u32 (Z.of_nat (length data)) in
  dest ← try_option (compress data);
  mret (le_encode 4 save_size ++ dest).

Definition ZlibService : middleware_service S := {| In := ZlibService_In; Out := ZlibService_Out |}.

(** [data] with its size, compressed. *)
Definition zipped (data z : bytes) : bytes := le_encode 4 (u32 (Z.of_nat (length data))) ++ z.

Lemma zlib_out data z s : compress data = Some z -> ZlibService_Out data s = Ret (zipped data z) s.
Proof. intros E. unfold ZlibService_Out. by rewrite E. Qed.

Lemma zlib_in `{!ZlibLaws} data z s : compress data = Some z -> Z.of_nat (length data) < 2 ^ 32 ->
  ZlibService_In (zipped data z) s = Ret data s.
Proof.
  intros E Hl. unfold ZlibService_In, zipped.
  unfold lift_option. rewrite copy_from_spec by (rewrite ?length_app, ?le_encode_length; lia).
  cbn [Z.to_nat]. change (Pos.to_nat 4) with 4%nat. unfold slice. rewrite drop_0.
  rewrite (take_app_length' _ _ 4), (drop_app_length' _ _ 4) by (by rewrite le_encode_length).
  unfold mbind, M_bind, mret, M_ret. cbn [Z.to_nat].
  rewrite (le_decode_encode 4), !wrap_small by (rewrite ?wrap_small; unfold is_uint in *; lia).
  by rewrite (uncompress_compress data z behind _ E) by lia.
Qed.

Lemma zlib_out_in `{!ZlibLaws} data s : bytes_ok data -> Z.of_nat (length data) < 2 ^ 32 ->
  exists out, ZlibService_Out data s = Ret out s /\ bytes_ok out /\ forall s', ZlibService_In out s' = Ret data s'.
Proof.
  intros Hok Hl. destruct (compress_ok data Hok) as (dest & E & Hd). exists (zipped data dest).
  split; [by apply zlib_out|]. split; [apply Forall_app_2; [apply le_encode_ok|done]|]. intros s'. by apply zlib_in.
Qed.

(** The channel of a client or a server: compression, and a last service. *)
Lemma zlib_channel `{!ZlibLaws} last data s : bytes_ok data -> Z.of_nat (length data) < 2 ^ 32 ->
  exists out, ClientOut [ZlibService; last] data s = Ret out s /\ bytes_ok out /\
    forall s', ClientIn [ZlibService; last] out s' = Ret data s'.
Proof.
  intros Hok Hl. destruct (zlib_out_in data s Hok Hl) as (out & E & Ho & H1). exists out.
  unfold ClientOut, ClientIn. cbn. unfold mbind, M_bind. rewrite E. split; [done|]. split; [done|].
  intros s'. by rewrite H1.
Qed.
End Zlib.
