(* ===== verification/Invoker.v ===== *)
(** * The synchronous client: [invoker.cpp]

    [request] sends a message in pieces until the server has acknowledged all of them and
    then waits for the pieces of the response.  The network is a class: sending a datagram,
    and receiving one or a timeout.  The loops have fuel; [Running] is a call that has not
    returned when the fuel is used up. *)
From S2P Require Import Prelude Stream Protocol Effects Pieces Packets Middleware.

(** Sockets.  A receive has the timeout of the socket in microseconds, and gives the
    address of the sender with the datagram. *)
Class Network (N Addr : Type) := {
  sendto : Addr -> bytes -> M N unit;
  recvfrom : Z -> M N (option (bytes * Addr));
}.

Definition Invoker_timeout : Z := 500000.
Definition WaitingTimeout : Z := 600000.
Definition tryTimes : Z := 3.

(** The locals of [request], with the network and the address calls are sent to. *)
Record session {N Addr : Type} := Session {
  net : N;
  server_address : Addr;
  buffer : bytes;
  accepted : Z;                 (** [ack_accept] *)
  needTry : Z;
  receiveMessageCount : Z;
  response : ResponseData;
}.
Arguments session N Addr : clear implicits.
Arguments Session {N Addr}.

Inductive request_end := Answer (r : ResponseData) | Next | Running.

Section Invoker.
Context {h : Host} `{Pool} {N Addr : Type} `{Network N Addr}.
Implicit Types s : session N Addr.

Definition with_net (n : N) s : session N Addr :=
  Session n (server_address s) (buffer s) (accepted s) (needTry s) (receiveMessageCount s) (response s).
Definition with_address (a : Addr) s : session N Addr :=
  Session (net s) a (buffer s) (accepted s) (needTry s) (receiveMessageCount s) (response s).
Definition with_buffer (b : bytes) s : session N Addr :=
  Session (net s) (server_address s) b (accepted s) (needTry s) (receiveMessageCount s) (response s).
Definition with_accepted (n : Z) s : session N Addr :=
  Session (net s) (server_address s) (buffer s) n (needTry s) (receiveMessageCount s) (response s).
Definition with_tries (n : Z) s : session N Addr :=
  Session (net s) (server_address s) (buffer s) (accepted s) n (receiveMessageCount s) (response s).
Definition with_received (n : Z) s : session N Addr :=
  Session (net s) (server_address s) (buffer s) (accepted s) (needTry s) n (response s).
Definition with_response (r : ResponseData) s : session N Addr :=
  Session (net s) (server_address s) (buffer s) (accepted s) (needTry s) (receiveMessageCount s) r.

Definition in_net {A} (m : M N A) : M (session N Addr) A := fun s =>
  match m (net s) with
  | Ret a n => Ret a (with_net n s)
  | Throw e n => Throw e (with_net n s)
  | Undefined => Undefined
  end.

(** A packet to the server. *)
Definition send (packet : bytes) : M (session N Addr) unit :=
  s ← get_state; in_net (sendto (server_address s) packet).
(** A packet that is written in the buffer first. *)
Definition send_buffered (packet : bytes) : M (session N Addr) unit :=
  modify_state (fun s => with_buffer (put 0 packet (buffer s)) s) ;; send packet.

(** [recvfrom] into the buffer: the length, -1 for a timeout. *)
Definition recv (timeout : Z) : M (session N Addr) Z :=
  r ← in_net (recvfrom timeout);
  match r with
  | None => mret (-1)
  | Some (d, a) =>
      s ← get_state;
      let '(b, recvLength) := receive d (buffer s) in
      modify_state (fun s => with_address a (with_buffer b s)) ;; mret recvLength
  end.

(** [parse] of the buffer: [None] is [isSuccess = false]. *)
Definition parse_buffer (recvLength : Z) : M (session N Addr) (option ProtocolHeader) :=
  s ← get_state; if parses (buffer s) recvLength then mret (parsed (buffer s) recvLength) else undefined.

Section Request.
Variables (message_id : Z) (data : bytes).
Let data_size : Z := Z.of_nat (length data).
Let total_size : Z := u32 data_size.
Let piece_count : Z :=
  u16 (data_size / defaultPieceLimitSize + if total_size mod defaultPieceLimitSize =? 0 then 0 else 1).
Let last_piece_size : Z := last_size total_size.
Let times : Z := getSendCount piece_count.

(** ** Phase 1 *)
Definition send_piece (i : Z) : M (session N Addr) unit :=
  let pieceDataPartSize := if i =? piece_count - 1 then last_piece_size else defaultPieceLimitSize in
  body ← lift_option (copy_from (i * defaultPieceLimitSize) pieceDataPartSize data);
  send_buffered (request_piece message_id total_size i pieceDataPartSize ++ body).

(** How many pieces a turn sends, and how many answers it waits for. *)
Definition turn_size (ack_accept : Z) : Z := Z.min (u16 (ack_accept + times)) piece_count - ack_accept.

Fixpoint wait_acks (n : nat) : M (session N Addr) (option ResponseData) :=
  match n with
  | O => mret None
  | Datatypes.S n =>
      recvLength ← recv Invoker_timeout;
      if 0 <? recvLength then
        header ← parse_buffer recvLength;
        match header with
        | None => throw StdException
        | Some header =>
            if negb (timePoint header =? message_id) then wait_acks n
            else
              modify_state (fun s => with_tries tryTimes (with_received (receiveMessageCount s + 1) s)) ;;
              match phase header with
              | Protocol.Request =>
                  match type header with
                  | ReceiverACK =>
                      s ← get_state;
                      let ack := if accepted s <? acceptOrder header then acceptOrder header else accepted s in
                      modify_state (with_accepted ack) ;;
                      if ack =? piece_count then mret None else wait_acks n
                  | TheServerResourcesExhausted => s ← get_state; mret (Some (failed ServerResourcesExhausted (response s)))
                  | _ => wait_acks n
                  end
              | Protocol.Response => modify_state (with_accepted piece_count) ;; wait_acks n
              end
        end
      else send_buffered (request_ACK_packet message_id total_size) ;; mret None
  end.

Fixpoint phase_request (fuel : nat) : M (session N Addr) request_end :=
  match fuel with
  | O => mret Running
  | Datatypes.S fuel =>
      s ← get_state;
      if accepted s =? piece_count then mret Next
      else
        let n := turn_size (accepted s) in
        (if receiveMessageCount s =? 0 then mret tt else for_each send_piece (seqZ (accepted s) n)) ;;
        modify_state (with_received 0) ;;
        r ← wait_acks (Z.to_nat n);
        match r with
        | Some answer => mret (Answer answer)
        | None =>
            s ← get_state;
            if receiveMessageCount s =? 0 then
              modify_state (with_tries (needTry s - 1)) ;;
              if needTry s - 1 <=? 0 then mret (Answer (failed NetworkTimeout (response s))) else phase_request fuel
            else phase_request fuel
        end
  end.

(** ** Phase 2 *)

(** A piece of the response: the acknowledgement. *)
Definition accept_piece (header : ProtocolHeader) : M (session N Addr) Z :=
  modify_state (fun s => with_response
    (ResponseData_initialize (timePoint header) (totalCount header) (totalSize header) (response s)) s) ;;
  s ← get_state;
  let r := response s in
  present ← getPieceState (piece_total r) (pieceOrder header) (piece_state r);
  d ← (if present : bool then mret (Pieces.data r)
       else body ← lift_option (copy_from protocolHeaderSize (pieceSize header) (buffer s));
            lift_option (copy_to (pieceOrder header * defaultPieceLimitSize) body (Pieces.data r)));
  l ← setPieceState (piece_total r) (pieceOrder header) true (piece_state r);
  modify_state (with_response (with_pieces l d r)) ;;
  mret (getAckNumber l).

Fixpoint phase_response (fuel : nat) : M (session N Addr) request_end :=
  match fuel with
  | O => mret Running
  | Datatypes.S fuel =>
      recvLength ← recv WaitingTimeout;
      if 0 <? recvLength then
        header ← parse_buffer recvLength;
        match header with
        | None => phase_response fuel
        | Some header =>
            if negb (timePoint header =? message_id) then phase_response fuel
            else
              modify_state (with_tries tryTimes) ;;
              match phase header with
              | Protocol.Request => phase_response fuel
              | Protocol.Response =>
                  match type header with
                  | RequestSend =>
                      ACK ← accept_piece header;
                      send (sendResponseACK_packet ACK (timePoint header)) ;;
                      s ← get_state;
                      if ACK =? piece_total (response s) then mret Next else phase_response fuel
                  | RequestACK =>
                      s ← get_state;
                      let ackOrder := if is_initial (response s) then getAckNumber (piece_state (response s)) else 0 in
                      send (sendResponseACK_packet ackOrder (timePoint header)) ;; phase_response fuel
                  | TimedOutRequestHeartbeat =>
                      send (heartbeat_packet (timePoint header) Protocol.Response) ;; phase_response fuel
                  | _ => phase_response fuel
                  end
              end
        end
      else
        s ← get_state;
        modify_state (with_tries (needTry s - 1)) ;;
        send (request_heartbeat_packet message_id Protocol.Response) ;;
        if needTry s - 1 <=? 0 then mret (Answer (failed NetworkTimeout (response s))) else phase_response fuel
  end.
End Request.

(** ** [request] *)
Variable services : list (middleware_service (session N Addr)).

(** [now]: the milliseconds that are the number of the message. *)
Definition request (fuel : nat) (now : Z) (_data : bytes) : M (session N Addr) (option ResponseData) :=
  if 1024 * 1024 * 100 <? Z.of_nat (length _data) then throw StdException
  else
    data ← ClientOut services _data;
    modify_state (fun s => Session (net s) (server_address s) (buffer s) 0 tryTimes 1 ResponseData_new) ;;
    r ← phase_request now data fuel;
    match r with
    | Running => mret None
    | Answer answer => mret (Some answer)
    | Next =>
        modify_state (with_tries tryTimes) ;;
        r ← phase_response now fuel;
        match r with
        | Running => mret None
        | Answer answer => mret (Some answer)
        | Next =>
            s ← get_state;
            d ← ClientIn services (Pieces.data (response s));
            mret (Some (succeeded d (response s)))
        end
    end.
End Invoker.
