(* ===== verification/SubReactor.v ===== *)
(** * The server's end: [sub_reactor.cpp]

    A sub reactor keeps the messages that are coming in, by the servlet they are from, and
    a table of connections with the responses that are going out.  A complete message is a
    task for the thread pool; what the task computes goes back through the timer tree.
    Every operation is atomic: datagrams, timers and tasks are taken one after the other.
    Reading a block that was given back, giving it back twice, an index behind a vector
    and a value that was never set are undefined behaviour. *)
From S2P Require Import Prelude Stream Serializer Protocol TimerTree Effects Pieces Packets Middleware.

Definition ConnectionTimeOut : Z := 120000.
Definition RequestTimeOut : Z := 10000.
Definition ResponseTimeOut : Z := 15000.

(** ** The state *)
Record VirtualConnection := {
  socket_fd : Z;
  last_active : Z;
  addr : address;
  responses : gmap Z Response;
  received_messages : list Z;     (** [messages] *)
}.
Definition VirtualConnection_new : VirtualConnection :=
  {| socket_fd := -1; last_active := 0; addr := {| sin_port := 0; sin_addr := 0 |}; responses := ∅; received_messages := [] |}.

(** What the timer tree calls back; a connection is its index. *)
Inductive timer_task :=
| JudgeDelete (s : Servlet)
| CheckDeleteSocket (vir : nat)
| JudgeResponse (vir : nat) (message_id : Z)
| SendResponse (dt : positive) (vc : nat) (s : Servlet) (count : Z).

(** What was committed to the thread pool. *)
Record pool_task := { task_size : Z; task_data : positive; task_servlet : Servlet; task_connection : nat }.

Record new_connection := {
  new_fd : Z; recv_length : Z; new_addr : address; new_data : bytes; is_new : bool;
}.

(** The state of the reactor, the memory pool, the clock, and what has left: packets by
    their sockets, sockets that were closed, peers whose entry is to be removed, and tasks
    for the pool.  [application] is the state of the program that is called. *)
Record SubReactor {St : Type} := Server {
  newConnections : list new_connection;
  messages : gmap Servlet Request;
  connections : list VirtualConnection;
  lastEmptyPlace : nat;
  activeConnectionsCount : Z;
  pool : blocks;
  treeTimer : TimerTree timer_task;
  recvBuf : bytes;
  clock : Z;
  sent : list (Z * bytes);
  closed : list Z;
  retired : list address;
  pending : list pool_task;
  app_state : St;
}.
Arguments SubReactor St : clear implicits.
Arguments Server {St}.

Section Server.
Context {h : Host} {P : Pool} {St : Type}.
Implicit Types s : SubReactor St.

Definition with_queue q s : SubReactor St :=
  Server q (messages s) (connections s) (lastEmptyPlace s) (activeConnectionsCount s) (pool s) (treeTimer s) (recvBuf s)
    (clock s) (sent s) (closed s) (retired s) (pending s) (app_state s).
Definition with_messages m s : SubReactor St :=
  Server (newConnections s) m (connections s) (lastEmptyPlace s) (activeConnectionsCount s) (pool s) (treeTimer s)
    (recvBuf s) (clock s) (sent s) (closed s) (retired s) (pending s) (app_state s).
Definition with_connections c s : SubReactor St :=
  Server (newConnections s) (messages s) c (lastEmptyPlace s) (activeConnectionsCount s) (pool s) (treeTimer s)
    (recvBuf s) (clock s) (sent s) (closed s) (retired s) (pending s) (app_state s).
Definition with_places p n s : SubReactor St :=
  Server (newConnections s) (messages s) (connections s) p n (pool s) (treeTimer s) (recvBuf s) (clock s) (sent s)
    (closed s) (retired s) (pending s) (app_state s).
Definition with_pool b s : SubReactor St :=
  Server (newConnections s) (messages s) (connections s) (lastEmptyPlace s) (activeConnectionsCount s) b (treeTimer s)
    (recvBuf s) (clock s) (sent s) (closed s) (retired s) (pending s) (app_state s).
Definition with_timer t s : SubReactor St :=
  Server (newConnections s) (messages s) (connections s) (lastEmptyPlace s) (activeConnectionsCount s) (pool s) t
    (recvBuf s) (clock s) (sent s) (closed s) (retired s) (pending s) (app_state s).
Definition with_recvBuf b s : SubReactor St :=
  Server (newConnections s) (messages s) (connections s) (lastEmptyPlace s) (activeConnectionsCount s) (pool s)
    (treeTimer s) b (clock s) (sent s) (closed s) (retired s) (pending s) (app_state s).
Definition with_clock t s : SubReactor St :=
  Server (newConnections s) (messages s) (connections s) (lastEmptyPlace s) (activeConnectionsCount s) (pool s)
    (treeTimer s) (recvBuf s) t (sent s) (closed s) (retired s) (pending s) (app_state s).
Definition with_sent l s : SubReactor St :=
  Server (newConnections s) (messages s) (connections s) (lastEmptyPlace s) (activeConnectionsCount s) (pool s)
    (treeTimer s) (recvBuf s) (clock s) l (closed s) (retired s) (pending s) (app_state s).
Definition with_closed l r s : SubReactor St :=
  Server (newConnections s) (messages s) (connections s) (lastEmptyPlace s) (activeConnectionsCount s) (pool s)
    (treeTimer s) (recvBuf s) (clock s) (sent s) l r (pending s) (app_state s).
Definition with_pending l a s : SubReactor St :=
  Server (newConnections s) (messages s) (connections s) (lastEmptyPlace s) (activeConnectionsCount s) (pool s)
    (treeTimer s) (recvBuf s) (clock s) (sent s) (closed s) (retired s) l a.

Abbreviation SR := (M (SubReactor St)).

(** ** Small operations *)
Definition connection (vc : nat) : SR VirtualConnection := s ← get_state; lift_option (connections s !! vc).
Definition on_connection (f : VirtualConnection -> VirtualConnection) (vc : nat) : SR unit :=
  modify_state (fun s => with_connections (alter f vc (connections s)) s).
Definition set_response (id : Z) (r : Response) : nat -> SR unit :=
  on_connection (fun c => {| socket_fd := socket_fd c; last_active := last_active c; addr := addr c;
    responses := <[id := r]> (responses c); received_messages := received_messages c |}).
Definition push_message (id : Z) : nat -> SR unit :=
  on_connection (fun c => {| socket_fd := socket_fd c; last_active := last_active c; addr := addr c;
    responses := responses c; received_messages := received_messages c ++ [id] |}).

Definition write_packet (fd : Z) (packet : bytes) : SR unit := modify_state (fun s => with_sent (sent s ++ [(fd, packet)]) s).
Definition sendACK (fd _ack_number _message_id : Z) : SR unit := write_packet fd (sendACK_packet _ack_number _message_id).
Definition sendReset (fd _message_id : Z) (phase : CommunicationPhase) : SR unit :=
  write_packet fd (sendReset_packet _message_id phase).
Definition sendHeartbeat (fd _message_id : Z) (phase : CommunicationPhase) : SR unit :=
  write_packet fd (sendHeartbeat_packet _message_id phase).
Definition sendExhausted (fd : Z) : SR unit := write_packet fd sendExhausted_packet.

Definition close_fd (fd : Z) : SR unit := modify_state (fun s => with_closed (closed s ++ [fd]) (retired s) s).
Definition closeSocket (vc : nat) : SR unit :=
  c ← connection vc;
  close_fd (socket_fd c) ;; modify_state (fun s => with_closed (closed s) (retired s ++ [addr c]) s).

Definition set_timer (milliseconds : Z) (task : timer_task) : SR unit :=
  modify_state (fun s => with_timer (setTimeout (clock s) milliseconds task (treeTimer s)).2 s).

(** Blocks of the pool. *)
Definition new_block (n : Z) : SR positive :=
  s ← get_state; let '(block, b) := allocate n (pool s) in modify_state (with_pool b) ;; mret block.
Definition read_block (block : positive) : SR bytes := s ← get_state; lift_option (pool s !! block).
Definition write_block (block : positive) (d : bytes) : SR unit := modify_state (fun s => with_pool (<[block := d]> (pool s)) s).
Definition free_block (block : positive) : SR unit :=
  s ← get_state; b ← lift_option (deallocate block (pool s)); modify_state (with_pool b).

(** [responses.clear()] destroys every response, and a response gives its block back. *)
Definition clear_connection (vc : nat) : SR unit :=
  c ← connection vc;
  for_each (fun r => free_block (response_block r)) (map snd (map_to_list (responses c))) ;;
  on_connection (fun c => {| socket_fd := -1; last_active := last_active c; addr := addr c; responses := ∅;
    received_messages := [] |}) vc.

(** ** Requests *)
Definition setRequestTimeOutEvent (servlet : Servlet) : SR unit := set_timer RequestTimeOut (JudgeDelete servlet).
Definition judgeDelete (servlet : Servlet) : SR unit :=
  s ← get_state;
  match messages s !! servlet with
  | Some request =>
      if RequestTimeOut <? clock s - active_dt request then modify_state (with_messages (delete servlet (messages s)))
      else setRequestTimeOutEvent servlet
  | None => mret tt
  end.

(** Whether the queue of the thread pool takes the task of a servlet. *)
Variable commit : Servlet -> bool.

Definition trigger (data_size : Z) (_full_data : positive) (servlet : Servlet) (vic : nat) : SR unit :=
  if commit servlet then
    modify_state (fun s => with_pending (pending s ++
      [{| task_size := data_size; task_data := _full_data; task_servlet := servlet; task_connection := vic |}]) (app_state s) s)
  else c ← connection vic; sendExhausted (socket_fd c).

(** [pieceStandardSize * pieceOrder]: the two [uint16_t]s are multiplied as 32-bit [int]s,
    and a product of 2^31 or more overflows, which is undefined. *)
Definition piece_offset (header : ProtocolHeader) : option Z :=
  let offset := pieceStandardSize header * pieceOrder header in
  if offset <? 2 ^ 31 then Some offset else None.

(** A piece from [source], behind the header, to its place in a block. *)
Definition copy_piece (header : ProtocolHeader) (source : bytes) (block : positive) : SR unit :=
  d ← read_block block;
  offset ← lift_option (piece_offset header);
  body ← lift_option (copy_from protocolHeaderSize (pieceSize header) source);
  d ← lift_option (copy_to offset body d);
  write_block block d.

(** A piece of a message that is known and that has not come: the acknowledgement. *)
Definition store_piece (servlet : Servlet) (request : Request) (header : ProtocolHeader) (source : bytes) : SR Z :=
  copy_piece header source (request_data request) ;;
  l ← setPieceState (request_pieces request) (pieceOrder header) true (request_state request);
  modify_state (fun s => with_messages (<[servlet := with_state l request]> (messages s)) s) ;;
  mret (getAckNumber l).

(** The first piece of a message. *)
Definition first_piece (servlet : Servlet) (fd : Z) (header : ProtocolHeader) (source : bytes) : SR Z :=
  l ← setPieceState (totalCount header) (pieceOrder header) true (replicate (Z.to_nat (totalCount header)) false);
  block ← new_block (totalSize header);
  copy_piece header source block ;;
  modify_state (fun s => with_messages (<[servlet :=
    with_state l (Request_make (totalCount header) (totalSize header) fd (clock s) block)]> (messages s)) s) ;;
  setRequestTimeOutEvent servlet ;;
  mret (getAckNumber l).

(** After the acknowledgement: a complete message is handed over once. *)
Definition complete (servlet : Servlet) (ACK : Z) (header : ProtocolHeader) (vc : nat) : SR unit :=
  if ACK =? totalCount header then
    push_message (timePoint header) vc ;;
    s ← get_state;
    match messages s !! servlet with
    | Some request =>
        if is_trigger request then mret tt
        else
          modify_state (with_messages (<[servlet := triggered request]> (messages s))) ;;
          trigger (request_size request) (request_data request) servlet vc
    | None => undefined
    end
  else mret tt.

(** ** Responses *)
Definition setResponseClearTimeout (vir : nat) (_message_id : Z) : SR unit :=
  set_timer ResponseTimeOut (JudgeResponse vir _message_id).

Definition judgeResponseClearTimeout (vir : nat) (_message_id : Z) : SR unit :=
  c ← connection vir;
  if negb (socket_fd c =? -1) then
    match responses c !! _message_id with
    | Some r =>
        active ← lift_option (lastActive r);
        s ← get_state;
        if ResponseTimeOut <? clock s - active then
          free_block (response_block r) ;;
          on_connection (fun c => {| socket_fd := socket_fd c; last_active := last_active c; addr := addr c;
            responses := delete _message_id (responses c);
            received_messages := List.filter (fun id => negb (id =? _message_id)) (received_messages c) |}) vir
        else setResponseClearTimeout vir _message_id
    | None => mret tt
    end
  else mret tt.

(** One piece, the first that is not acknowledged. *)
Definition sendResponseDataToClient (vir : nat) (_message_id : Z) : SR unit :=
  c ← connection vir;
  match responses c !! _message_id with
  | None => mret tt
  | Some r =>
      if ack_accept r =? response_pieces r then mret tt
      else
        let k := ack_accept r in
        if (k <? u16 (ack_accept r + 1)) && (k <? response_pieces r) then
          let pieceDataPartSize := if k =? response_pieces r - 1 then last_piece_size r else defaultPieceLimitSize in
          d ← read_block (response_block r);
          body ← lift_option (copy_from (k * defaultPieceLimitSize) pieceDataPartSize d);
          write_packet (socket_fd c)
            (response_piece (request_id (response_servlet r)) (response_size r) k pieceDataPartSize ++ body)
        else mret tt
  end.

(** The callback that [triggerTask] sets.  The response in the map is a copy; the local
    one is destroyed at the end, with the block that both have. *)
Definition send_response (dt : positive) (vc : nat) (servlet : Servlet) (count : Z) : SR unit :=
  s ← get_state;
  let local := Response_make servlet (piece_count count) count dt (clock s) in
  c ← connection vc;
  (if decide (is_Some (responses c !! request_id servlet)) then set_response (request_id servlet) local vc
   else set_response (request_id servlet) (Response_copy local) vc ;; sendResponseDataToClient vc (request_id servlet)) ;;
  setResponseClearTimeout vc (request_id servlet) ;;
  free_block dt.

(** ** Connections *)
Definition checkDeleteSocket (vir : nat) : SR unit :=
  c ← connection vir;
  if negb (socket_fd c =? -1) then
    s ← get_state;
    if ConnectionTimeOut <? clock s - last_active c then closeSocket vir ;; clear_connection vir
    else set_timer ConnectionTimeOut (CheckDeleteSocket vir)
  else mret tt.

Definition clearTimeoutConnections : SR unit :=
  s ← get_state;
  for_each (fun i =>
    c ← connection i;
    if negb (socket_fd c =? -1) && (ConnectionTimeOut <? clock s - last_active c) then
      closeSocket i ;; clear_connection i ;;
      modify_state (fun s => with_places (lastEmptyPlace s) (activeConnectionsCount s - 1) s)
    else mret tt) (seq 0 (length (connections s))).

(** The places in the order they are tried in. *)
Definition places s : list nat :=
  map (fun i => Nat.modulo (lastEmptyPlace s + i) (length (connections s))) (seq 0 (length (connections s))).
Definition is_empty_place s (i : nat) : bool :=
  match connections s !! i with Some c => socket_fd c =? -1 | None => false end.

Definition findConnectionsEmptyPlace : SR (option nat) :=
  s ← get_state;
  (if Z.of_nat (length (connections s)) <=? activeConnectionsCount s then clearTimeoutConnections else mret tt) ;;
  s ← get_state;
  match List.find (is_empty_place s) (places s) with
  | Some idx => modify_state (with_places idx (activeConnectionsCount s)) ;; mret (Some idx)
  | None => mret None
  end.

Definition acceptConnection (fd length : Z) (a : address) (data : bytes) (new : bool) : SR unit :=
  modify_state (fun s => with_queue (newConnections s ++
    [{| new_fd := fd; recv_length := length; new_addr := a; new_data := data; is_new := new |}]) s).

Definition pop_connection : SR unit := modify_state (fun s => with_queue (tail (newConnections s)) s).

(** Whether a socket can be added to the poll. *)
Variable epoll_add : Z -> bool.
Definition wrong_protocol : bytes := b! "Please use the correct network protocol" ++ [239; 188; 129; 10].

Definition servlet_of (header : ProtocolHeader) (a : address) : Servlet :=
  {| request_id := timePoint header; client_port := sin_port a; client_ip_address := sin_addr a |}.

(** The datagram of a connection in the queue, once its place is known.  A piece that has
    come before is acknowledged with 0. *)
Definition first_datagram (n : new_connection) (header : ProtocolHeader) (vc : nat) : SR unit :=
  let servlet := servlet_of header (new_addr n) in
  s ← get_state;
  match type header with
  | RequestSend =>
      ACK ← (match messages s !! servlet with
             | Some request =>
                 let request := touched (clock s) request in
                 modify_state (with_messages (<[servlet := request]> (messages s))) ;;
                 present ← getPieceState (request_pieces request) (pieceOrder header) (request_state request);
                 if present : bool then mret 0 else store_piece servlet request header (new_data n)
             | None => first_piece servlet (new_fd n) header (new_data n)
             end);
      sendACK (new_fd n) ACK (timePoint header) ;;
      complete servlet ACK header vc
  | RequestACK =>
      match messages s !! servlet with
      | Some request => sendACK (new_fd n) (getAckNumber (request_state request)) (timePoint header)
      | None => sendReset (new_fd n) (timePoint header) (phase header)
      end
  | _ =>
      match messages s !! servlet with
      | Some _ => sendHeartbeat (new_fd n) (timePoint header) (phase header)
      | None => sendReset (new_fd n) (timePoint header) (phase header)
      end
  end.

(** The place of a connection that is in the table already. *)
Definition find_connection (fd : Z) s : option nat :=
  List.find (fun i => match connections s !! i with Some c => socket_fd c =? fd | None => false end) (places s).

(** One turn of the loop: [continue] leaves the entry at the front of the queue. *)
Definition new_connection_turn : SR unit :=
  s ← get_state;
  match newConnections s with
  | [] => undefined
  | n :: _ =>
      match parse (recv_length n) (new_data n) with
      | None => undefined
      | Some ((header, true), _) =>
          place ← (if is_new n then
              place ← findConnectionsEmptyPlace;
              match place with
              | None => sendExhausted (new_fd n) ;; close_fd (new_fd n) ;; mret None
              | Some idx =>
                  on_connection (fun c => {| socket_fd := new_fd n; last_active := clock s; addr := new_addr n;
                    responses := responses c; received_messages := received_messages c |}) idx ;;
                  modify_state (fun s => with_places (lastEmptyPlace s) (activeConnectionsCount s + 1) s) ;;
                  mret (Some idx)
              end
            else s ← get_state; mret (find_connection (new_fd n) s));
          match place with
          | None => mret tt
          | Some vc =>
              first_datagram n header vc ;;
              if is_new n then
                if epoll_add (new_fd n) then set_timer ConnectionTimeOut (CheckDeleteSocket vc) ;; pop_connection
                else close_fd (new_fd n)
              else pop_connection
          end
      | Some ((_, false), _) => write_packet (new_fd n) wrong_protocol ;; pop_connection
      end
  end.

Definition dealWithNewConnection : SR unit :=
  s ← get_state; for_each (fun _ => new_connection_turn) (newConnections s).

(** ** Datagrams on a connection *)
Definition on_request (vc : nat) (fd : Z) (servlet : Servlet) (header : ProtocolHeader) : SR unit :=
  s ← get_state;
  match type header with
  | RequestSend =>
      ACK ← (match messages s !! servlet with
             | Some request =>
                 present ← getPieceState (request_pieces request) (pieceOrder header) (request_state request);
                 if present : bool then mret (getAckNumber (request_state request))
                 else store_piece servlet request header (recvBuf s)
             | None => first_piece servlet fd header (recvBuf s)
             end);
      sendACK fd ACK (timePoint header) ;;
      complete servlet ACK header vc
  | RequestACK =>
      match messages s !! servlet with
      | Some request => sendACK fd (getAckNumber (request_state request)) (timePoint header)
      | None => sendReset fd (timePoint header) (phase header)
      end
  | TimedOutRequestHeartbeat =>
      match messages s !! servlet with
      | Some _ => sendHeartbeat fd (timePoint header) (phase header)
      | None => sendReset fd (timePoint header) (phase header)
      end
  | _ => sendReset fd (timePoint header) (phase header)
  end.

Definition on_response (vc : nat) (header : ProtocolHeader) : SR unit :=
  s ← get_state;
  c ← connection vc;
  if decide (timePoint header ∈ received_messages c) then
    match responses c !! timePoint header with
    | None => sendHeartbeat (socket_fd c) (timePoint header) Protocol.Response
    | Some r =>
        let r := response_active (clock s) r in
        set_response (timePoint header) r vc ;;
        match type header with
        | ReceiverACK =>
            let r := setAckAccept (acceptOrder header) r in
            set_response (timePoint header) r vc ;;
            if ack_accept r =? response_pieces r then mret tt
            else sendResponseDataToClient vc (request_id (response_servlet r))
        | TimedOutRequestHeartbeat =>
            if ack_accept r <? response_pieces r then sendResponseDataToClient vc (request_id (response_servlet r))
            else mret tt
        | _ => mret tt
        end
    end
  else sendReset (socket_fd c) (timePoint header) Protocol.Response.

(** A datagram from [a] on the socket of a connection. *)
Definition on_datagram (vc : nat) (datagram : bytes) (a : address) : SR unit :=
  s ← get_state;
  on_connection (fun c => {| socket_fd := socket_fd c; last_active := clock s; addr := addr c;
    responses := responses c; received_messages := received_messages c |}) vc ;;
  let '(b, recvLen) := receive datagram (recvBuf s) in
  modify_state (with_recvBuf b) ;;
  c ← connection vc;
  if 0 <? recvLen then
    if parses b recvLen then
      match parsed b recvLen with
      | None => write_packet (socket_fd c) wrong_protocol
      | Some header =>
          let servlet := servlet_of header a in
          modify_state (fun s => with_messages (alter (touched (clock s)) servlet (messages s)) s) ;;
          match phase header with
          | Protocol.Request => on_request vc (socket_fd c) servlet header
          | Protocol.Response => on_response vc header
          end
      end
    else undefined
  else mret tt.

(** ** The timers *)
Definition run_callback (task : timer_task) : SR unit :=
  match task with
  | JudgeDelete servlet => judgeDelete servlet
  | CheckDeleteSocket vir => checkDeleteSocket vir
  | JudgeResponse vir id => judgeResponseClearTimeout vir id
  | SendResponse dt vc servlet count => send_response dt vc servlet count
  end.

(** [runTaskLoop] with callbacks that use the tree: they set nothing that is due at once,
    so that no more tasks run than there were nodes. *)
Fixpoint run_due (n : nat) : SR unit :=
  match n with
  | O => mret tt
  | S n =>
      s ← get_state;
      match nodes (treeTimer s) with
      | [] => mret tt
      | node :: _ =>
          if expire node - clock s <=? 0 then
            run_callback (callBack node) ;;
            modify_state (fun s => with_timer (clearTimeout (base node) (treeTimer s)).2 s) ;;
            run_due n
          else mret tt
      end
  end.
Definition run_timers : SR unit := s ← get_state; run_due (length (nodes (treeTimer s))).

(** ** The tasks of the pool *)
Variable services : list (middleware_service St).

Definition prefix_name : bytes := b! "@context/".

(** A service whose name starts with the prefix is given the address of the caller as two
    more arguments. *)
Definition with_context (a : address) (pure_data : bytes) (readPosition : Z) : option bytes :=
  let no_other_args := Z.of_nat (length pure_data) =? readPosition in
  let ip_port : num S_uint32 * (num S_uint16 * unit) := (Num (htonl (sin_addr a)), (Num (htons (sin_port a)), tt)) in
  let '(r, serializer) := (if no_other_args then input_tuple ip_port else inputArgs ip_port) BinarySerializer_new in
  match r with
  | Err _ => None
  | Ok _ =>
      let dt := pure_data ++ byteStream serializer in
      if no_other_args then Some dt
      else
        let pos := readPosition + 1 in
        size ← copy_from pos 2 dt;
        copy_to pos (le_encode 2 (u16 (le_decode size + 2))) dt
  end.

Definition in_app {A} (m : M St A) : SR A := fun s =>
  match m (app_state s) with
  | Ret a st => Ret a (with_pending (pending s) st s)
  | Throw e st => Throw e (with_pending (pending s) st s)
  | Undefined => Undefined
  end.

(** What the channel answers to a message. *)
Definition answer (a : address) (full_data : bytes) : M St bytes :=
  pure_data ← ClientIn services full_data;
  let '(name, view) := View_output_string (View_new pure_data (Z.of_nat (length pure_data))) in
  match name with
  | Err _ => throw StdException
  | Ok name =>
      match last services with
      | None => undefined
      | Some router =>
          data ← (if decide (prefix_name `prefix_of` str_bytes name) then
                    dt ← lift_option (with_context a pure_data (src_pos view)); In router dt
                  else In router pure_data);
          MiddlewareChannel_Out services data
      end
  end.

Definition triggerTask (data_size : Z) (_full_data : positive) (servlet : Servlet) (vc : nat) : SR unit :=
  full ← read_block _full_data;
  c ← connection vc;
  data ← in_app (answer (addr c) full);
  block ← new_block (Z.of_nat (length data));
  write_block block data ;;
  set_timer 5 (SendResponse block vc servlet (u32 (Z.of_nat (length data)))).

(** The pool runs its first task; an exception ends the task and nothing else. *)
Definition run_pool_task : SR unit :=
  s ← get_state;
  match pending s with
  | [] => mret tt
  | t :: l =>
      modify_state (with_pending l (app_state s)) ;;
      try_catch (triggerTask (task_size t) (task_data t) (task_servlet t) (task_connection t)) (fun _ => mret tt)
  end.

(** ** A turn of the loop *)
Record readiness := { ready_connection : nat; ready_error : bool; ready_data : option (bytes * address) }.

Definition on_event (e : readiness) : SR unit :=
  (if ready_error e then closeSocket (ready_connection e) else mret tt) ;;
  match ready_data e with
  | Some (d, a) => on_datagram (ready_connection e) d a
  | None => mret tt
  end.

Definition loop_turn (now : Z) (events : list readiness) : SR unit :=
  modify_state (with_clock now) ;; run_timers ;; dealWithNewConnection ;; for_each on_event events.

Definition SubReactor_new (openMaxConnection : nat) (now : Z) (buffer : bytes) (st : St) : SubReactor St :=
  Server [] ∅ (replicate openMaxConnection VirtualConnection_new) 0 0 ∅ TimerTree_new buffer now [] [] [] [] st.
End Server.
