(* ===== verification/SubReactorLaws.v ===== *)
(** * The server's end: what a piece does

    [receiving] says which pieces of a message a server has.  A piece that comes, in any
    order and for the first time or not, adds itself, is acknowledged, and when it is the
    last the whole message is committed to the pool, once. *)
From S2P Require Import Prelude Stream Serializer Protocol TimerTree Effects Pieces Reassembly Packets Middleware SubReactor.

Lemma alter_at {A} (f : A -> A) (l : list A) i x : l !! i = Some x -> alter f i l = <[i := f x]> l.
Proof.
  intros Hi. apply list_eq. intros j. pose proof (lookup_lt_Some _ _ _ Hi). destruct (decide (i = j)) as [<-|Hne].
  - rewrite list_lookup_alter_eq, Hi, list_lookup_insert_eq by done. done.
  - by rewrite list_lookup_alter_ne, list_lookup_insert_ne by done.
Qed.

(** What is read. *)
Lemma connection_some {St} vc (s : SubReactor St) c : connections s !! vc = Some c -> connection vc s = Ret c s.
Proof. intros Hc. unfold connection. step. by rewrite Hc. Qed.

(** ** Timers *)
Section Timers.
Context {L : Type}.
Implicit Types (n : TimeNode L) (t : TimerTree L).

Lemma set_insert_forall (Q : TimeNode L -> Prop) n l : Q n -> Forall Q l -> Forall Q (set_insert n l).
Proof.
  intros Hn. induction 1 as [|x l Hx Hl IH]; [by constructor|]. cbn. destruct (base_lt _ _); [by repeat constructor|].
  destruct (base_lt _ _); by constructor.
Qed.
Lemma set_insert_front n l : Forall (fun x => expire n < expire x) l -> set_insert n l = n :: l.
Proof.
  intros [|x l' Hx _]%Forall_cons_1 || intros Hl. destruct l as [|x l]; [done|]. cbn. unfold base_lt. cbn.
  apply Forall_cons_1 in Hl as [Hx _]. by rewrite (proj2 (Z.ltb_lt _ _) Hx).
Qed.
Lemma set_insert_behind n m l : expire n < expire m -> set_insert m (n :: l) = n :: set_insert m l.
Proof.
  intros Hlt. cbn. unfold base_lt. cbn. destruct (Z.ltb_spec (expire m) (expire n)); [lia|].
  by rewrite (proj2 (Z.ltb_lt _ _) Hlt).
Qed.
Lemma set_extract_front n l : set_extract (base n) (n :: l) = Some l.
Proof. cbn. unfold base_lt. cbn. by rewrite !Z.ltb_irrefl. Qed.
Lemma setTimeout_nodes now ms (cb : L) t : exists id,
  nodes (setTimeout now ms cb t).2 = set_insert {| ID := id; expire := now + ms; callBack := cb |} (nodes t).
Proof. by eexists. Qed.
End Timers.

Section Laws.
Context {h : Host} {P : Pool} {St : Type}.
Implicit Types s : SubReactor St.

(** ** Messages *)
Variables (commit : Servlet -> bool) (epoll_add : Z -> bool) (services : list (middleware_service St)).
Variables (data : bytes) (id : Z) (a : address).
Abbreviation n := (Z.of_nat (length data)).
Abbreviation p := (pieces n).
Hypotheses (Hn : 0 < n <= 65535 * 522) (Hid : is_uint 64 id) (Hdata : bytes_ok data).

Definition piece_header (i : Z) : ProtocolHeader := header_with id n Protocol.Request RequestSend i (size_of_piece n p i) 0.
Definition piece_packet (i : Z) : bytes := encode_header (piece_header i) ++ piece data i.
Definition sv : Servlet := {| request_id := id; client_port := sin_port a; client_ip_address := sin_addr a |}.

(** The state of the message on the server. *)
Definition receiving s (mask : list bool) : Prop :=
  mask = replicate (Z.to_nat p) false /\ messages s !! sv = None \/
  exists r block, messages s !! sv = Some r /\ request_state r = mask /\ request_pieces r = p /\ request_size r = n /\
    is_trigger r = bool_decide (getAckNumber mask = p) /\ pool s !! request_data r = Some block /\ holds mask data block.

Definition buffer_ok s : Prop := Z.of_nat (length (recvBuf s)) = bufferSize /\ bytes_ok (recvBuf s).
(** No timer is due in the next [d] milliseconds. *)
Definition quiet (d : Z) s : Prop := Forall (fun node => clock s + d < expire node) (nodes (treeTimer s)).

Lemma p_bounds : 0 < p /\ p <= 65535 /\ 522 * (p - 1) < n <= 522 * p.
Proof. pose proof (pieces_bounds (Z.of_nat (length data)) ltac:(lia)). lia. Qed.

Lemma piece_header_wf i : 0 <= i < p -> header_wf (piece_header i).
Proof.
  intros Hi. pose proof p_bounds. pose proof (size_of_piece_bounds n i ltac:(done) ltac:(lia)).
  apply header_with_wf; unfold is_uint in *; lia.
Qed.
Lemma piece_header_count i : totalCount (piece_header i) = p.
Proof. cbn. apply piece_count_pieces. lia. Qed.

(** What [receive] leaves in the buffer, and what is copied from it. *)
Lemma piece_received i buffer : 0 <= i < p -> Z.of_nat (length buffer) = bufferSize -> bytes_ok buffer ->
  exists source, receive (piece_packet i) buffer = (source, 26 + Z.of_nat (length (piece data i))) /\
    parsed source (26 + Z.of_nat (length (piece data i))) = Some (piece_header i) /\
    parses source (26 + Z.of_nat (length (piece data i))) = true /\
    Z.of_nat (length source) = bufferSize /\ bytes_ok source /\
    copy_from protocolHeaderSize (pieceSize (piece_header i)) source = Some (piece data i).
Proof.
  intros Hi Hl Hok. pose proof (size_of_piece_bounds n i ltac:(done) ltac:(lia)) as [Hs _].
  pose proof (piece_length data i Hi) as Hp.
  pose proof (encode_header_ok _ (piece_header_wf i Hi)) as Hh.
  destruct (parsed_encode (piece_header i) (piece data i) buffer) as (rest & E & Hr & Hlr & Hpar);
    [by apply piece_header_wf|done|by apply piece_ok|done|lia|done|].
  eexists. split; [exact E|]. split; [exact Hpar|]. split; [|split; [|split]].
  - unfold parses. apply bool_decide_eq_true. unfold parsed in Hpar. destruct (parse _ _) as [[]|]; [by eexists|done].
  - rewrite length_app, encode_header_length. change bufferSize with 549. lia.
  - by apply Forall_app_2.
  - change (pieceSize (piece_header i)) with (size_of_piece n p i). unfold protocolHeaderSize.
    rewrite copy_from_spec; [|lia|lia|rewrite length_app, encode_header_length; lia].
    change (Z.to_nat 26) with 26%nat. unfold slice.
    rewrite drop_app_length' by (by rewrite encode_header_length). f_equal. apply take_app_length'. lia.
Qed.

(** ** A piece in its message *)

(** Nothing but the message changes; a timer that is set is not due. *)
Record same s s1 : Prop := {
  same_queue : newConnections s1 = newConnections s;
  same_connections : connections s1 = connections s;
  same_places : lastEmptyPlace s1 = lastEmptyPlace s /\ activeConnectionsCount s1 = activeConnectionsCount s;
  same_buffer : recvBuf s1 = recvBuf s;
  same_clock : clock s1 = clock s;
  same_sent : sent s1 = sent s /\ closed s1 = closed s /\ retired s1 = retired s;
  same_pending : pending s1 = pending s /\ app_state s1 = app_state s;
  same_quiet d : d < RequestTimeOut -> quiet d s -> quiet d s1;
  same_messages t : t <> sv -> messages s1 !! t = messages s !! t;
}.

Lemma same_refl s : same s s.
Proof. by constructor. Qed.

(** The message as a request of the server. *)
Definition request_is s (mask : list bool) (trig : bool) (r : Request) (block : bytes) : Prop :=
  messages s !! sv = Some r /\ request_state r = mask /\ request_pieces r = p /\ request_size r = n /\
  is_trigger r = trig /\ pool s !! request_data r = Some block /\ holds mask data block.

Lemma receiving_length s mask : receiving s mask -> length mask = Z.to_nat p.
Proof. intros [[-> _]|(r & b & _ & _ & _ & _ & _ & _ & _ & Hm & _)]; [apply length_replicate|done]. Qed.

(** The places of the pieces of a message are far below the limit of an [int]. *)
Lemma piece_header_offset i : 0 <= i < p -> piece_offset (piece_header i) = Some (522 * i).
Proof.
  intros Hi. unfold piece_offset.
  change (pieceStandardSize (piece_header i) * pieceOrder (piece_header i)) with (522 * i).
  pose proof p_bounds. rewrite (proj2 (Z.ltb_lt _ _)); [done|lia].
Qed.

Lemma copy_piece_run s i source h' block : 0 <= i < p ->
  copy_from protocolHeaderSize (pieceSize (piece_header i)) source = Some (piece data i) ->
  pool s !! h' = Some block -> length block = length data ->
  copy_piece (piece_header i) source h' s =
  Ret tt (with_pool (<[h' := put (Z.to_nat (522 * i)) (piece data i) block]> (pool s)) s).
Proof.
  intros Hi Hc Hb Hl. pose proof (size_of_piece_bounds n i ltac:(done) ltac:(lia)) as [_ Hs].
  pose proof (piece_length data i Hi) as Hpl. unfold copy_piece, read_block.
  rewrite run_bind_assoc. erewrite run_bind by reflexivity. rewrite Hb. erewrite run_bind by reflexivity.
  rewrite piece_header_offset by done. erewrite run_bind by reflexivity.
  rewrite Hc. erewrite run_bind by reflexivity.
  rewrite copy_to_spec by lia. by erewrite run_bind by reflexivity.
Qed.

Lemma store_piece_spec s mask trig r block i source : 0 <= i < p ->
  copy_from protocolHeaderSize (pieceSize (piece_header i)) source = Some (piece data i) ->
  request_is s mask trig r block ->
  exists s1 r1 block1, store_piece sv r (piece_header i) source s = Ret (getAckNumber (<[Z.to_nat i := true]> mask)) s1 /\
    same s s1 /\ request_is s1 (<[Z.to_nat i := true]> mask) trig r1 block1.
Proof.
  intros Hi Hc (Hr & Hm & Hp & Hsz & Ht & Hb & Hh). unfold store_piece.
  rewrite (run_bind _ _ _ _ _ (copy_piece_run s i source _ block Hi Hc Hb (proj1 Hh))). rewrite Hp, Hm.
  change (pieceOrder (piece_header i)) with i. rewrite set_piece by (done || apply Hh).
  do 2 (erewrite run_bind by reflexivity). eexists _, _, _. split; [reflexivity|]. split.
  - constructor; try done. intros t Ht'. cbn. by rewrite lookup_insert_ne.
  - split; [cbn; apply lookup_insert_eq|]. split; [done|]. split; [done|]. split; [done|]. split; [done|].
    split; [cbn; apply lookup_insert_eq|]. by apply holds_put.
Qed.

Lemma first_piece_spec s fd i source : 0 <= i < p ->
  copy_from protocolHeaderSize (pieceSize (piece_header i)) source = Some (piece data i) ->
  let mask := <[Z.to_nat i := true]> (replicate (Z.to_nat p) false) in
  exists s1 r1 block1, first_piece sv fd (piece_header i) source s = Ret (getAckNumber mask) s1 /\
    same s s1 /\ request_is s1 mask false r1 block1.
Proof.
  intros Hi Hc mask. unfold first_piece. rewrite piece_header_count. change (pieceOrder (piece_header i)) with i.
  rewrite set_piece by (done || apply length_replicate). erewrite run_bind by reflexivity.
  change (totalSize (piece_header i)) with n. unfold new_block, allocate. rewrite run_bind_assoc.
  erewrite run_bind by reflexivity. cbv beta iota zeta. rewrite run_bind_assoc. do 2 (erewrite run_bind by reflexivity).
  set (b := fresh (dom (pool s))). pose proof (fresh_block_length n ltac:(lia)) as Hl.
  set (s2 := with_pool (<[b := fresh_block n]> (pool s)) s).
  assert (Hb : pool s2 !! b = Some (fresh_block n)) by apply lookup_insert_eq.
  rewrite (run_bind _ _ _ _ _ (copy_piece_run s2 i source b _ Hi Hc Hb ltac:(lia))).
  do 2 (erewrite run_bind by reflexivity). eexists _, _, _. split; [reflexivity|]. split.
  - constructor; try done.
    + intros d Hd Hq. unfold quiet in *. cbn. apply set_insert_forall; [cbn; lia|done].
    + intros t Ht. cbn. by rewrite lookup_insert_ne.
  - split; [cbn; apply lookup_insert_eq|]. split; [done|]. split; [done|]. split; [done|]. split; [done|].
    split; [cbn; apply lookup_insert_eq|]. apply holds_put; [|done]. apply holds_fresh. lia.
Qed.

(** ** The acknowledgement and the hand over *)
Lemma complete_mask mask i : length mask = Z.to_nat p -> getAckNumber mask = p -> 0 <= i < p ->
  <[Z.to_nat i := true]> mask = mask.
Proof.
  intros Hl Ha Hi. apply list_insert_id. rewrite (proj1 (getAckNumber_all mask)) by lia.
  apply lookup_replicate. split; [done|]. lia.
Qed.

Definition handed (mask : list bool) : bool := bool_decide (getAckNumber mask = p).

Lemma receiving_present s mask r : receiving s mask -> messages s !! sv = Some r ->
  exists block, request_is s mask (handed mask) r block.
Proof.
  intros [[_ E]|(r' & block & E & H)] E'; [by rewrite E in E'|]. rewrite E in E'. injection E' as ->. by exists block.
Qed.
Lemma receiving_absent s mask : receiving s mask -> messages s !! sv = None ->
  mask = replicate (Z.to_nat p) false /\ handed mask = false.
Proof.
  intros [[-> _]|(r' & block & E & H)] E'; [|by rewrite E in E']. split; [done|]. apply bool_decide_eq_false.
  pose proof p_bounds. pose proof (getAckNumber_prefix 0 (Z.to_nat p)) as E0. cbn [replicate app] in E0. rewrite E0. lia.
Qed.

(** The part of the handlers that takes the piece. *)
Definition take_piece (fd i : Z) (source : bytes) (duplicate : list bool -> Z) : M (SubReactor St) Z :=
  s ← get_state;
  match messages s !! sv with
  | Some request =>
      present ← getPieceState (request_pieces request) (pieceOrder (piece_header i)) (request_state request);
      if present : bool then mret (duplicate (request_state request))
      else store_piece sv request (piece_header i) source
  | None => first_piece sv fd (piece_header i) source
  end.

Lemma take_piece_spec s mask fd i source : receiving s mask -> 0 <= i < p ->
  copy_from protocolHeaderSize (pieceSize (piece_header i)) source = Some (piece data i) ->
  exists s1 r1 block1, take_piece fd i source getAckNumber s = Ret (getAckNumber (<[Z.to_nat i := true]> mask)) s1 /\
    same s s1 /\ request_is s1 (<[Z.to_nat i := true]> mask) (handed mask) r1 block1 /\
    (handed mask = true -> pool s1 = pool s).
Proof.
  intros Hr Hi Hc. unfold take_piece. erewrite run_bind by reflexivity.
  destruct (messages s !! sv) as [r|] eqn:Em.
  - destruct (receiving_present s mask r Hr Em) as (block & Hq). pose proof Hq as (_ & Hm & Hp & _).
    change (pieceOrder (piece_header i)) with i. rewrite Hp, Hm.
    assert (Hl : (Z.to_nat i < length mask)%nat) by (rewrite (receiving_length s mask Hr); lia).
    apply lookup_lt_is_Some in Hl as [[] Hb]; rewrite (get_piece p mask i _ Hi Hb); erewrite run_bind by reflexivity.
    + rewrite (list_insert_id mask _ _ Hb). exists s, r, block. split; [done|]. split; [apply same_refl|done].
    + destruct (store_piece_spec s mask _ r block i source Hi Hc Hq) as (s1 & r1 & block1 & E & H1 & H2).
      exists s1, r1, block1. split_and!; [done..|]. intros Hd%bool_decide_eq_true. exfalso.
      rewrite (proj1 (getAckNumber_all mask)) in Hb by (rewrite (receiving_length s mask Hr); lia).
      by apply lookup_replicate in Hb as [].
  - destruct (receiving_absent s mask Hr Em) as [-> Hf]. rewrite Hf.
    destruct (first_piece_spec s fd i source Hi Hc) as (s1 & r1 & block1 & E & H1 & H2). by exists s1, r1, block1.
Qed.

(** What a piece has done when it has been dealt with on connection [vc]. *)
Record took (fd : Z) (vc : nat) (mask : list bool) (i : Z) s s1 : Prop := {
  took_message : receiving s1 (<[Z.to_nat i := true]> mask);
  took_sent : sent s1 = sent s ++ [(fd, sendACK_packet (getAckNumber (<[Z.to_nat i := true]> mask)) id)];
  took_connection : exists c c1, connections s !! vc = Some c /\ connections s1 = <[vc := c1]> (connections s) /\
    socket_fd c1 = socket_fd c /\ addr c1 = addr c /\ responses c1 = responses c /\
    received_messages c1 = received_messages c ++ if handed (<[Z.to_nat i := true]> mask) then [id] else [];
  took_pending : if handed (<[Z.to_nat i := true]> mask) && negb (handed mask) then
      exists block, pending s1 = pending s ++
        [{| task_size := n; task_data := block; task_servlet := sv; task_connection := vc |}] /\ pool s1 !! block = Some data
    else pending s1 = pending s;
  took_rest : newConnections s1 = newConnections s /\ clock s1 = clock s /\ app_state s1 = app_state s /\
    closed s1 = closed s /\ (forall d, d < RequestTimeOut -> quiet d s -> quiet d s1) /\ (buffer_ok s -> buffer_ok s1);
  took_others t : t <> sv -> messages s1 !! t = messages s !! t;
  took_blocks : handed mask = true -> pool s1 = pool s;
}.

Lemma acknowledge_spec s s1 mask fd i vc c r1 block1 : commit sv = true -> 0 <= i < p -> length mask = Z.to_nat p ->
  connections s !! vc = Some c -> same s s1 -> (handed mask = true -> pool s1 = pool s) ->
  request_is s1 (<[Z.to_nat i := true]> mask) (handed mask) r1 block1 ->
  exists s2, (sendACK fd (getAckNumber (<[Z.to_nat i := true]> mask)) (timePoint (piece_header i)) ;;
      complete commit sv (getAckNumber (<[Z.to_nat i := true]> mask)) (piece_header i) vc) s1 = Ret tt s2 /\
    took fd vc mask i s s2.
Proof.
  intros Hcommit Hi Hlm Hc Hs Hbl Hq. pose proof Hq as (Hm & Hst & Hp & Hsz & Ht & Hb & Hh). set (mask1 := <[Z.to_nat i := true]> mask) in *.
  change (timePoint (piece_header i)) with id. unfold sendACK, write_packet. erewrite run_bind by reflexivity.
  unfold complete. rewrite piece_header_count. pose proof (same_sent _ _ Hs) as (Es1 & Es2 & Es3).
  destruct (Z.eqb_spec (getAckNumber mask1) p) as [Ea|Ea].
  - change (timePoint (piece_header i)) with id. unfold push_message, on_connection. do 2 (erewrite run_bind by reflexivity).
    cbn [messages with_sent with_connections]. rewrite Hm, Ht.
    assert (Hh1 : handed mask1 = true) by (by apply bool_decide_eq_true).
    destruct (handed mask) eqn:Ed.
    + eexists. split; [reflexivity|]. constructor.
      * right. exists r1, block1. rewrite Ea. rewrite bool_decide_true by done. by split_and!.
      * cbn. by rewrite Es1.
      * eexists c, _. split; [done|]. split; [cbn; rewrite (same_connections _ _ Hs); by apply alter_at|].
        cbn. fold mask1; by rewrite Hh1.
      * fold mask1; rewrite Hh1, ?Ed. cbn. apply Hs.
      * unfold buffer_ok. cbn. destruct Hs as [? ? ? -> ? ? [] ? ?]. by split_and!.
      * intros. cbn. by apply Hs.
      * intros _. cbn. by apply Hbl.
    + erewrite run_bind by reflexivity. unfold trigger. rewrite Hcommit. eexists. split; [reflexivity|].
      assert (block1 = data) as -> by (by apply (holds_all data block1 mask1)). constructor.
      * right. exists (triggered r1), data. rewrite Ea. rewrite bool_decide_true by done. split; [cbn; apply lookup_insert_eq|].
        by split_and!.
      * cbn. by rewrite Es1.
      * eexists c, _. split; [done|]. split; [cbn; rewrite (same_connections _ _ Hs); by apply alter_at|].
        cbn. fold mask1; by rewrite Hh1.
      * fold mask1; rewrite Hh1, Ed. cbn. exists (request_data r1). rewrite Hsz. destruct (same_pending _ _ Hs) as [-> _]. done.
      * unfold buffer_ok. cbn. destruct Hs as [? ? ? -> ? ? [] ? ?]. by split_and!.
      * intros t Hne. cbn. rewrite lookup_insert_ne by done. by apply Hs.
      * congruence.
  - assert (Hh1 : handed mask1 = false) by (by apply bool_decide_eq_false).
    assert (Ed : handed mask = false).
    { apply bool_decide_eq_false. intros E. apply Ea. unfold mask1. by rewrite complete_mask. }
    eexists. split; [reflexivity|]. constructor.
    * right. exists r1, block1. rewrite bool_decide_false by done. rewrite Ed in Ht. by split_and!.
    * cbn. by rewrite Es1.
    * eexists c, c. split; [done|]. split; [cbn; rewrite (same_connections _ _ Hs); by rewrite list_insert_id|].
      fold mask1; rewrite Hh1, app_nil_r. done.
    * fold mask1; rewrite Hh1, ?Ed. cbn. apply Hs.
    * unfold buffer_ok. cbn. destruct Hs as [? ? ? -> ? ? [] ? ?]. by split_and!.
    * intros. cbn. by apply Hs.
    * congruence.
Qed.

(** ** A piece on a connection *)

(** [s0] differs from [s] in the time a connection was active, in the buffer and in the
    time the message was active. *)
Lemma took_from fd vc mask i s s0 s1 c c0 : connections s !! vc = Some c -> connections s0 = <[vc := c0]> (connections s) ->
  socket_fd c0 = socket_fd c -> addr c0 = addr c -> responses c0 = responses c -> received_messages c0 = received_messages c ->
  sent s0 = sent s -> pending s0 = pending s -> newConnections s0 = newConnections s -> clock s0 = clock s ->
  app_state s0 = app_state s -> closed s0 = closed s -> treeTimer s0 = treeTimer s -> (buffer_ok s -> buffer_ok s0) ->
  pool s0 = pool s ->
  (forall t, t <> sv -> messages s0 !! t = messages s !! t) -> took fd vc mask i s0 s1 -> took fd vc mask i s s1.
Proof.
  intros Hc Hc0 Ef Ea Er Em Es Ep Eq Ek Eapp Ecl Et Hb Epool Ho [H1 H2 (c1 & c2 & Hc1 & Hc2 & Hr) H4 (H5 & H6 & H7 & H8 & H9 & H10) H11 H12].
  pose proof (lookup_lt_Some _ _ _ Hc). rewrite Hc0, list_lookup_insert_eq in Hc1 by done. injection Hc1 as <-.
  rewrite Es in H2. rewrite Ep in H4. rewrite Hc0, list_insert_insert_eq in Hc2. rewrite Ef, Ea, Er, Em in Hr.
  constructor; [done|done|by eexists c, c2|done| |intros; rewrite H11 by done; by apply Ho|intros; by rewrite H12, Epool by done].
  rewrite Eq in H5. rewrite Ek in H6. rewrite Eapp in H7. rewrite Ecl in H8. split_and!; [done..| |by auto].
  intros d Hd Hq. apply H9; [done|]. unfold quiet in *. by rewrite Et, Ek.
Qed.

Lemma receiving_touched s s0 mask : receiving s mask -> messages s0 = alter (touched (clock s)) sv (messages s) ->
  pool s0 = pool s -> receiving s0 mask.
Proof.
  intros [[-> E]|(r & block & E & H)] Em Ep; [left|right].
  - split; [done|]. rewrite Em, lookup_alter_eq, E. done.
  - exists (touched (clock s) r), block. split; [rewrite Em, lookup_alter_eq, E; done|]. by rewrite Ep.
Qed.

Lemma on_piece s mask vc c i : commit sv = true -> buffer_ok s -> receiving s mask -> 0 <= i < p ->
  connections s !! vc = Some c ->
  exists s', on_datagram commit vc (piece_packet i) a s = Ret tt s' /\ took (socket_fd c) vc mask i s s'.
Proof.
  intros Hcommit [Hbl Hbo] Hr Hi Hc. unfold on_datagram. erewrite run_bind by reflexivity.
  unfold on_connection at 1. erewrite run_bind by reflexivity.
  destruct (piece_received i (recvBuf s) Hi Hbl Hbo) as (source & E & Hp & Hps & Hl & Hok & Hcopy).
  rewrite E. erewrite run_bind by reflexivity.
  set (c0 := {| socket_fd := socket_fd c; last_active := clock s; addr := addr c; responses := responses c;
                received_messages := received_messages c |}).
  assert (Ec : connections s !! vc = Some c) by done.
  unfold connection at 1. rewrite run_bind_assoc. erewrite run_bind by reflexivity.
  cbn [connections with_recvBuf with_connections]. rewrite list_lookup_alter_eq, Hc. cbn [fmap option_fmap option_map lift_option].
  erewrite run_bind by reflexivity. cbn [socket_fd]. pose proof (piece_length data i Hi) as Hpl.
  rewrite (proj2 (Z.ltb_lt 0 _)) by lia. rewrite Hps, Hp. erewrite run_bind by reflexivity.
  change (phase (piece_header i)) with Protocol.Request. cbv iota.
  change (servlet_of (piece_header i) a) with sv. unfold on_request. erewrite run_bind by reflexivity.
  change (type (piece_header i)) with RequestSend. cbv iota.
  match goal with |- context [mbind _ _ ?x] => set (s0 := x) end.
  assert (Hr0 : receiving s0 mask) by (by apply (receiving_touched s)).
  destruct (take_piece_spec s0 mask (socket_fd c) i source Hr0 Hi Hcopy) as (s1 & r1 & block1 & Et & Hs & Hq & Hbk).
  unfold take_piece in Et. erewrite run_bind in Et by reflexivity. change (recvBuf s0) with source in *.
  rewrite (run_bind _ _ _ _ _ Et).
  assert (Ec0 : connections s0 !! vc = Some c0) by (cbn; by rewrite list_lookup_alter_eq, Hc).
  destruct (acknowledge_spec s0 s1 mask (socket_fd c) i vc c0 r1 block1 Hcommit Hi (receiving_length _ _ Hr0) Ec0 Hs Hbk Hq)
    as (s2 & E2 & Htook).
  exists s2. split; [exact E2|]. eapply (took_from _ _ _ _ s s0 s2 c c0); try done.
  - cbn. by rewrite (alter_at _ _ _ c Hc).
  - intros t Ht. cbn. by rewrite lookup_alter_ne.
Qed.
End Laws.
