(* ===== verification/SubReactorTheorems.v ===== *)
(** * The server's end: theorems

    Messages are put together whatever order their pieces come in.  What a datagram, a
    full table of connections and a response of more than one piece do wrong. *)
From S2P Require Import Prelude Stream Serializer Protocol TimerTree Effects Pieces Reassembly Packets Middleware SubReactor.
From S2P Require Import SubReactorLaws.

Section Theorems.
Context {h : Host} {P : Pool} {St : Type}.
Implicit Types s : SubReactor St.

(** ** Messages *)

Section Message.
Variables (commit : Servlet -> bool) (data : bytes) (id : Z) (a : address) (vc : nat).
Abbreviation n := (Z.of_nat (length data)).
Abbreviation p := (pieces n).
Hypotheses (Hn : 0 < n <= 65535 * 522) (Hid : is_uint 64 id) (Hdata : bytes_ok data) (Hcommit : commit (sv id a) = true).

Definition deliver_all (order : list Z) : M (SubReactor St) unit :=
  for_each (fun i => on_datagram commit vc (piece_packet data id i) a) order.

(** The acknowledgements of the pieces of [order]. *)
Definition acks (order : list Z) : list Z := map (fun k => getAckNumber (mask_of p (take (S k) order))) (seq 0 (length order)).

Lemma acks_snoc order i : acks (order ++ [i]) = acks order ++ [getAckNumber (mask_of p (order ++ [i]))].
Proof.
  unfold acks. rewrite length_app, seq_app, map_app. cbn. f_equal.
  - apply map_ext_in. intros k Hk. apply in_seq in Hk. rewrite take_app_le by lia. done.
  - by rewrite take_ge by (rewrite length_app; cbn; lia).
Qed.

Definition the_task (block : positive) : pool_task :=
  {| task_size := n; task_data := block; task_servlet := sv id a; task_connection := vc |}.

Lemma deliver_app order i s s1 : deliver_all order s = Ret tt s1 ->
  deliver_all (order ++ [i]) s = on_datagram commit vc (piece_packet data id i) a s1.
Proof.
  unfold deliver_all. revert s. induction order as [|j order IH]; intros s.
  - cbn. intros [= ->]. unfold mbind, M_bind. by destruct (on_datagram _ _ _ _ _) as [[]| |].
  - cbn. unfold mbind, M_bind. destruct (on_datagram commit vc _ a s) as [[] s2| |]; [|done..]. apply IH.
Qed.

Lemma deliver_spec order s c : buffer_ok s -> messages s !! sv id a = None -> connections s !! vc = Some c ->
  (forall i, i ∈ order -> 0 <= i < p) ->
  exists s1 c1, deliver_all order s = Ret tt s1 /\ buffer_ok s1 /\ receiving data id a s1 (mask_of p order) /\
    connections s1 !! vc = Some c1 /\ socket_fd c1 = socket_fd c /\
    sent s1 = sent s ++ map (fun k => (socket_fd c, sendACK_packet k id)) (acks order) /\
    (forall t, t <> sv id a -> messages s1 !! t = messages s !! t) /\ app_state s1 = app_state s /\
    if handed data (mask_of p order)
    then exists block, pending s1 = pending s ++ [the_task block] /\ pool s1 !! block = Some data
    else pending s1 = pending s.
Proof.
  intros Hb Hm Hc. induction order as [|i order IH] using rev_ind; intros Ho.
  { exists s, c. assert (Hh : handed data (mask_of p []) = false).
    { apply bool_decide_eq_false. unfold mask_of. cbn [foldl]. pose proof (p_bounds data Hn).
      pose proof (getAckNumber_prefix 0 (Z.to_nat p)) as E. cbn [replicate app] in E. rewrite E. lia. }
    rewrite Hh. split_and!; try done; [by left|]. cbn. by rewrite app_nil_r. }
  destruct IH as (s1 & c1 & E & Hb1 & Hr1 & Hc1 & Hf1 & Hs1 & Ho1 & Ha1 & Hp1); [intros; apply Ho, elem_of_app; by left|].
  assert (Hi : 0 <= i < p) by (apply Ho, elem_of_app; right; by left).
  destruct (on_piece commit data id a Hn Hid Hdata s1 _ vc c1 i Hcommit Hb1 Hr1 Hi Hc1) as (s2 & E2 & T).
  destruct T as [T1 T2 (c' & c2 & Hc' & Hc2 & Hf2 & _) T4 (T5 & T6 & T7 & T8 & T9 & T10) T11 T12].
  rewrite Hc1 in Hc'. injection Hc' as <-. exists s2, c2. rewrite (deliver_app _ _ _ _ E). rewrite mask_of_snoc.
  pose proof (lookup_lt_Some _ _ _ Hc1). split_and!; try done.
  - auto.
  - rewrite Hc2. by apply list_lookup_insert_eq.
  - congruence.
  - rewrite T2, Hs1, acks_snoc, map_app, <-app_assoc, mask_of_snoc, Hf1. done.
  - intros t Ht. rewrite T11 by done. by apply Ho1.
  - congruence.
  - destruct (handed data (mask_of p order)) eqn:Ed.
    + assert (E1 : <[Z.to_nat i := true]> (mask_of p order) = mask_of p order).
      { apply (complete_mask data); [apply mask_of_length|by apply bool_decide_eq_true in Ed|done]. }
      rewrite E1, Ed in *. cbn in T4. destruct Hp1 as (block & Hp1 & Hbl). exists block.
      rewrite T4, T12 by done. done.
    + rewrite andb_true_r in T4. destruct (handed data (<[Z.to_nat i := true]> (mask_of p order))).
      * destruct T4 as (block & T4 & Hbl). exists block. rewrite T4, Hp1. done.
      * by rewrite T4.
Qed.

(** C24: a message is put together whatever order its pieces come in and however often
    each comes: every piece is acknowledged with the number of pieces before the first that
    is missing, other messages are not touched, and the message itself, byte for byte, is
    committed to the pool once, when the last of its pieces has come, and not before. *)
Theorem message_reassembled order s c : buffer_ok s -> messages s !! sv id a = None -> connections s !! vc = Some c ->
  (forall i, i ∈ order -> 0 <= i < p) ->
  exists s1, deliver_all order s = Ret tt s1 /\
    sent s1 = sent s ++ map (fun k => (socket_fd c, sendACK_packet k id)) (acks order) /\
    (forall t, t <> sv id a -> messages s1 !! t = messages s !! t) /\
    ((forall i, 0 <= i < p -> i ∈ order) ->
       exists block, pending s1 = pending s ++ [the_task block] /\ pool s1 !! block = Some data) /\
    (~ (forall i, 0 <= i < p -> i ∈ order) -> pending s1 = pending s).
Proof.
  intros Hb Hm Hc Ho. destruct (deliver_spec order s c Hb Hm Hc Ho) as (s1 & c1 & E & _ & _ & _ & _ & Hs & Hot & _ & Hp).
  exists s1. do 3 (split; [done|]). pose proof (p_bounds data Hn) as (Hp0 & _).
  unfold handed in Hp. pose proof (mask_of_all p order ltac:(lia) Ho) as Hall. split; intros Ha.
  - apply Hall in Ha. by rewrite bool_decide_true in Hp by done.
  - rewrite bool_decide_false in Hp; [done|]. intros E'. by apply Ha, Hall.
Qed.
End Message.

(** ** A datagram of a stranger *)

(** Whether the piece a header announces is inside the message it announces, and the
    buffer, and its place can be computed in an [int]. *)
Definition fits (hd : ProtocolHeader) : Prop :=
  pieceSize hd <= 523 /\ pieceStandardSize hd * pieceOrder hd < 2 ^ 31 /\
  pieceStandardSize hd * pieceOrder hd + pieceSize hd <= totalSize hd.

(** The state in which a datagram with header [hd] is dealt with. *)
Definition before_request vc a (hd : ProtocolHeader) (source : bytes) s : SubReactor St :=
  let s := with_recvBuf source (with_connections (alter (fun c => {| socket_fd := socket_fd c; last_active := clock s;
    addr := addr c; responses := responses c; received_messages := received_messages c |}) vc (connections s)) s) in
  with_messages (alter (touched (clock s)) (servlet_of hd a) (messages s)) s.

Lemma on_datagram_eq commit vc (hd : ProtocolHeader) body a s c : buffer_ok s -> connections s !! vc = Some c ->
  header_wf hd -> bytes_ok body -> Z.of_nat (length body) <= 522 ->
  exists rest, Z.of_nat (length (body ++ rest)) = 523 /\ bytes_ok (body ++ rest) /\
    on_datagram commit vc (encode_header hd ++ body) a s =
    (match phase hd with
     | Protocol.Request => on_request commit vc (socket_fd c) (servlet_of hd a) hd
     | Protocol.Response => on_response vc hd
     end) (before_request vc a hd (encode_header hd ++ body ++ rest) s).
Proof.
  intros [Hbl Hbo] Hc Hw Hb Hl. destruct (parsed_encode hd body (recvBuf s)) as (rest & E & Hok & Hlr & Hp);
    [done|by apply encode_header_ok|done..|]. exists rest. split; [done|]. split; [done|].
  unfold on_datagram, on_connection. do 2 (erewrite run_bind by reflexivity). rewrite E. erewrite run_bind by reflexivity.
  unfold connection at 1. rewrite run_bind_assoc. erewrite run_bind by reflexivity.
  cbn [connections with_recvBuf with_connections]. rewrite list_lookup_alter_eq, Hc. cbn [fmap option_fmap option_map lift_option].
  erewrite run_bind by reflexivity. cbn [socket_fd]. rewrite (proj2 (Z.ltb_lt 0 _)) by lia.
  assert (Hps : parses (encode_header hd ++ body ++ rest) (26 + Z.of_nat (length body)) = true).
  { apply bool_decide_eq_true. unfold parsed in Hp. destruct (parse _ _) as [[]|]; [by eexists|done]. }
  rewrite Hps, Hp. by erewrite run_bind by reflexivity.
Qed.

Lemma copy_piece_cases (hd : ProtocolHeader) source block d s : header_wf hd -> Z.of_nat (length source) = 549 ->
  pool s !! block = Some d -> Z.of_nat (length d) = totalSize hd ->
  (fits hd -> exists d1, copy_piece hd source block s = Ret tt (with_pool (<[block := d1]> (pool s)) s)) /\
  (~ fits hd -> copy_piece hd source block s = Undefined).
Proof.
  intros (_ & [Ho _] & [Hsz _] & _ & _ & _ & [Hst _] & _) Hlen Hb Hd. unfold copy_piece, read_block.
  rewrite run_bind_assoc. erewrite run_bind by reflexivity. rewrite Hb. erewrite run_bind by reflexivity.
  assert (Hsl : pieceSize hd <= 523 ->
    Z.of_nat (length (slice (Z.to_nat protocolHeaderSize) (Z.to_nat (pieceSize hd)) source)) = pieceSize hd).
  { intros. rewrite slice_length; [lia|]. change (Z.to_nat protocolHeaderSize) with 26%nat. lia. }
  unfold fits, piece_offset, copy_from, copy_to, protocolHeaderSize in *. cbv zeta. split.
  - intros (H1 & H0 & H2). rewrite (proj2 (Z.ltb_lt _ _) H0). erewrite run_bind by reflexivity. rewrite decide_True by lia. erewrite run_bind by reflexivity. rewrite decide_True by (rewrite Hsl by lia; nia).
    erewrite run_bind by reflexivity. by eexists.
  - intros Hf. destruct (Z.ltb_spec (pieceStandardSize hd * pieceOrder hd) (2 ^ 31)) as [H0|]; [|done].
    erewrite run_bind by reflexivity. case_decide as H1; [|done]. erewrite run_bind by reflexivity. rewrite Hsl by lia.
    rewrite decide_False by (intros [_ H2]; apply Hf; lia). done.
Qed.

Lemma first_piece_cases servlet fd (hd : ProtocolHeader) source s : header_wf hd -> Z.of_nat (length source) = 549 ->
  let r := first_piece servlet fd hd source s in
  (totalCount hd < pieceOrder hd -> r = Throw StdException s) /\ (pieceOrder hd = totalCount hd -> r = Undefined) /\
  (pieceOrder hd < totalCount hd -> fits hd -> exists ack s1 q, r = Ret ack s1 /\ sent s1 = sent s /\
     connections s1 = connections s /\ messages s1 !! servlet = Some q) /\
  (pieceOrder hd < totalCount hd -> ~ fits hd -> r = Undefined).
Proof.
  intros Hw Hlen. pose proof Hw as (_ & [Ho _] & _ & _ & _ & [Htc _] & _ & [Hts _] & _).
  unfold first_piece, setPieceState. rewrite length_replicate. cbv zeta.
  assert (Hgo : pieceOrder hd < totalCount hd -> exists l s2 b d, pool s2 !! b = Some d /\
    Z.of_nat (length d) = totalSize hd /\ sent s2 = sent s /\ connections s2 = connections s /\
    first_piece servlet fd hd source s = (copy_piece hd source b ;;
      modify_state (fun s => with_messages (<[servlet :=
        with_state l (Request_make (totalCount hd) (totalSize hd) fd (clock s) b)]> (messages s)) s) ;;
      setRequestTimeOutEvent servlet ;; mret (getAckNumber l)) s2).
  { intros Hlt. unfold first_piece, setPieceState. rewrite length_replicate, (proj2 (Z.ltb_ge _ _)) by lia.
    rewrite decide_True by lia. erewrite run_bind by reflexivity. unfold new_block, allocate. rewrite run_bind_assoc.
    erewrite run_bind by reflexivity. cbv beta iota zeta. rewrite run_bind_assoc. do 2 (erewrite run_bind by reflexivity).
    eexists _, (with_pool (<[fresh (dom (pool s)) := fresh_block (totalSize hd)]> (pool s)) s), _, _.
    split; [apply lookup_insert_eq|]. split; [apply fresh_block_length; lia|]. done. }
  split_and!.
  - intros Hlt. by rewrite (proj2 (Z.ltb_lt _ _) Hlt).
  - intros E. by rewrite E, Z.ltb_irrefl, decide_False by lia.
  - intros Hlt Hf. destruct (Hgo Hlt) as (l & s2 & b & d & Hb & Hd & Es & Ec & E). unfold first_piece, setPieceState in E.
    rewrite length_replicate in E. rewrite E. destruct (proj1 (copy_piece_cases hd source b d s2 Hw Hlen Hb Hd) Hf) as (d1 & E1).
    rewrite (run_bind _ _ _ _ _ E1). eexists _, _, _. split; [reflexivity|]. split; [done|]. split; [done|]. apply lookup_insert_eq.
  - intros Hlt Hf. destruct (Hgo Hlt) as (l & s2 & b & d & Hb & Hd & Es & Ec & E). unfold first_piece, setPieceState in E.
    rewrite length_replicate in E. rewrite E. unfold mbind, M_bind. by rewrite (proj2 (copy_piece_cases hd source b d s2 Hw Hlen Hb Hd)).
Qed.

Lemma complete_returns commit servlet ACK (hd : ProtocolHeader) vc s c q : connections s !! vc = Some c ->
  messages s !! servlet = Some q ->
  exists s1, complete commit servlet ACK hd vc s = Ret tt s1 /\ (length (sent s) <= length (sent s1))%nat.
Proof.
  intros Hc Hq. unfold complete. destruct (_ =? _); [|by exists s]. unfold push_message, on_connection.
  do 2 (erewrite run_bind by reflexivity). cbn [messages with_connections]. rewrite Hq. destruct (is_trigger q); [by eexists|].
  erewrite run_bind by reflexivity. unfold trigger. destruct (commit _); [by eexists|].
  unfold connection. rewrite run_bind_assoc. erewrite run_bind by reflexivity. cbn [connections with_messages with_connections].
  rewrite list_lookup_alter_eq, Hc. cbn [fmap option_fmap option_map lift_option]. erewrite run_bind by reflexivity.
  eexists. split; [reflexivity|]. cbn. rewrite length_app. lia.
Qed.

(** C25: what one datagram with the first piece of an unknown message does to the server,
    by its header alone: an index beyond the count ends the thread with an exception, the
    index that equals the count is let through and used behind the end of the vector, and
    a piece that does not lie inside its message, or whose place overflows a 32-bit [int],
    is copied outside the block or to no defined place; otherwise it is answered. *)
Theorem first_datagram_outcome commit vc (hd : ProtocolHeader) body a s c : buffer_ok s ->
  connections s !! vc = Some c -> header_wf hd -> bytes_ok body -> Z.of_nat (length body) <= 522 ->
  phase hd = Protocol.Request -> type hd = RequestSend -> messages s !! servlet_of hd a = None ->
  let r := on_datagram commit vc (encode_header hd ++ body) a s in
  (totalCount hd < pieceOrder hd -> exists s1, r = Throw StdException s1) /\
  (pieceOrder hd = totalCount hd -> r = Undefined) /\
  (pieceOrder hd < totalCount hd -> fits hd -> exists s1, r = Ret tt s1 /\ (length (sent s) < length (sent s1))%nat) /\
  (pieceOrder hd < totalCount hd -> ~ fits hd -> r = Undefined).
Proof.
  intros Hbuf Hc Hw Hb Hl Hph Hty Hm. cbv zeta.
  destruct (on_datagram_eq commit vc hd body a s c Hbuf Hc Hw Hb Hl) as (rest & Hlr & Hok & ->). rewrite Hph.
  set (source := encode_header hd ++ body ++ rest). set (s0 := before_request vc a hd source s).
  assert (Hm0 : messages s0 !! servlet_of hd a = None) by (cbn; by rewrite lookup_alter_eq, Hm).
  assert (Hlen : Z.of_nat (length source) = 549) by (unfold source; rewrite length_app, encode_header_length; lia).
  unfold on_request. erewrite run_bind by reflexivity. rewrite Hty, Hm0. change (recvBuf s0) with source.
  destruct (first_piece_cases (servlet_of hd a) (socket_fd c) hd source s0 Hw Hlen) as (H1 & H2 & H3 & H4). split_and!.
  - intros Hlt. eexists. unfold mbind, M_bind. by rewrite H1.
  - intros E. unfold mbind, M_bind. by rewrite H2.
  - intros Hlt Hf. destruct (H3 Hlt Hf) as (ack & s1 & q & E & Es & Ec & Eq). rewrite (run_bind _ _ _ _ _ E).
    unfold sendACK, write_packet. erewrite run_bind by reflexivity.
    match goal with |- context [complete _ _ _ _ _ ?x] => destruct (complete_returns commit (servlet_of hd a) ack hd vc x
      {| socket_fd := socket_fd c; last_active := clock s; addr := addr c; responses := responses c;
         received_messages := received_messages c |} q) as (s2 & E2 & Hle) end; [|done|].
    { cbn. rewrite Ec. cbn. by rewrite list_lookup_alter_eq, Hc. }
    exists s2. split; [exact E2|]. cbn in Hle. rewrite length_app, Es in Hle. cbn in Hle. lia.
  - intros Hlt Hf. unfold mbind, M_bind. by rewrite H4.
Qed.

(** ** A response *)
Section Response.
Variables (commit : Servlet -> bool) (vc : nat) (servlet : Servlet) (dt : positive) (result : bytes).
Abbreviation id := (request_id servlet).
Abbreviation count := (Z.of_nat (length result)).
Hypothesis Hcount : 0 < count <= 65535 * 522.

(** The response as the table has it. *)
Definition stored_response (now : Z) : Response :=
  Response_copy (Response_make servlet (pieces count) count dt now).

Lemma send_response_run s c : connections s !! vc = Some c -> responses c !! id = None -> pool s !! dt = Some result ->
  exists s1 c1, send_response dt vc servlet count s = Ret tt s1 /\ connections s1 = <[vc := c1]> (connections s) /\
    socket_fd c1 = socket_fd c /\ addr c1 = addr c /\ last_active c1 = last_active c /\
    received_messages c1 = received_messages c /\ responses c1 = <[id := stored_response (clock s)]> (responses c) /\
    sent s1 = sent s ++ [(socket_fd c, response_piece id count 0 (size_of_piece count (pieces count) 0) ++ piece result 0)] /\
    pool s1 = delete dt (pool s) /\ treeTimer s1 = (setTimeout (clock s) ResponseTimeOut (JudgeResponse vc id) (treeTimer s)).2 /\
    clock s1 = clock s /\ newConnections s1 = newConnections s /\ app_state s1 = app_state s /\ recvBuf s1 = recvBuf s /\
    pending s1 = pending s /\ messages s1 = messages s.
Proof.
  intros Hc Hr Hp. pose proof (pieces_bounds count ltac:(lia)) as Hb.
  destruct (size_of_piece_bounds count 0 ltac:(lia) ltac:(lia)) as [Hs1 Hs2].
  unfold send_response, connection. step. step.
  rewrite Hc. cbn [lift_option]. step. rewrite Hr. rewrite decide_False by (by intros [? ?]).
  rewrite piece_count_pieces by lia. unfold set_response, on_connection. step.
  set (c1 := {| socket_fd := socket_fd c; last_active := last_active c; addr := addr c;
    responses := <[id := stored_response (clock s)]> (responses c); received_messages := received_messages c |}).
  match goal with |- context [mbind _ _ ?x] => assert (Hc1 : connections x !! vc = Some c1) end.
  { cbn. by rewrite list_lookup_alter_eq, Hc. }
  unfold sendResponseDataToClient, connection. step.
  rewrite Hc1. cbn [lift_option]. step.
  cbn [responses c1]. rewrite lookup_insert_eq. cbn [ack_accept response_pieces stored_response Response_copy Response_make].
  destruct (Z.eqb_spec 0 (pieces count)); [lia|]. change (0 <? u16 (0 + 1)) with true. rewrite (proj2 (Z.ltb_lt 0 _)) by lia.
  cbn [andb]. unfold read_block. step.
  cbn [pool with_connections]. cbn [response_block stored_response Response_copy Response_make]. rewrite Hp. cbn [lift_option].
  step.
  cbn [last_piece_size response_size response_servlet stored_response Response_copy Response_make].
  fold (size_of_piece count (pieces count) 0). rewrite copy_from_spec by lia. cbn [lift_option]. step.
  unfold write_packet, setResponseClearTimeout, set_timer, free_block.
  do 3 step. unfold deallocate. cbn [pool with_timer with_sent with_connections].
  rewrite decide_True by (rewrite Hp; by eexists). cbn [lift_option]. step.
  eexists _, c1. split; [reflexivity|]. split; [cbn; by rewrite (alter_at _ _ _ c Hc)|]. by split_and!.
Qed.

(** An acknowledgement from the client. *)
Definition ack_packet (k : Z) : bytes := encode_header (header_with id 0 Protocol.Response ReceiverACK 0 protocolHeaderSize k).

Lemma ack_packet_wf k : is_uint 64 id -> is_uint 16 k ->
  header_wf (header_with id 0 Protocol.Response ReceiverACK 0 protocolHeaderSize k).
Proof. intros. apply header_with_wf; unfold is_uint, protocolHeaderSize in *; lia. Qed.

(** An acknowledgement that is new: a response that is complete is left alone, of another
    the next piece is sent. *)
Lemma ack_run s c a r k : buffer_ok s -> connections s !! vc = Some c -> id ∈ received_messages c ->
  responses c !! id = Some r -> is_uint 64 id -> is_uint 16 k -> ack_accept r < k ->
  exists s2 c2, on_datagram commit vc (ack_packet k) a s =
    (if k =? response_pieces r then mret tt else sendResponseDataToClient vc (request_id (response_servlet r))) s2 /\
    connections s2 = <[vc := c2]> (connections s) /\ socket_fd c2 = socket_fd c /\ addr c2 = addr c /\
    last_active c2 = clock s /\ received_messages c2 = received_messages c /\
    responses c2 = <[id := setAckAccept k (response_active (clock s) r)]> (responses c) /\
    pool s2 = pool s /\ sent s2 = sent s /\ clock s2 = clock s /\ newConnections s2 = newConnections s /\
    app_state s2 = app_state s /\ pending s2 = pending s /\ treeTimer s2 = treeTimer s /\ buffer_ok s2.
Proof.
  intros Hb Hc Hin Hr Hid Hk Hlt. unfold ack_packet. set (hd := header_with id 0 Protocol.Response ReceiverACK 0 protocolHeaderSize k).
  assert (Hw : header_wf hd) by (by apply ack_packet_wf).
  destruct (on_datagram_eq commit vc hd [] a s c Hb Hc Hw) as (rest & Hl & Hok & E); [constructor|cbn; lia|].
  rewrite app_nil_r in E. rewrite E. clear E. change (phase hd) with Protocol.Response. cbv iota.
  set (source := encode_header hd ++ [] ++ rest). set (s0 := before_request vc a hd source s).
  set (c0 := {| socket_fd := socket_fd c; last_active := clock s; addr := addr c; responses := responses c;
    received_messages := received_messages c |}).
  assert (Hc0 : connections s0 !! vc = Some c0) by (cbn; by rewrite list_lookup_alter_eq, Hc).
  unfold on_response, connection. step. step. rewrite Hc0. cbn [lift_option]. step. change (timePoint hd) with id.
  rewrite decide_True by done. cbn [responses c0]. rewrite Hr. change (type hd) with ReceiverACK. cbv iota.
  unfold set_response, on_connection. step. step. change (acceptOrder hd) with k.
  assert (Hack : ack_accept (setAckAccept k (response_active (clock s) r)) = k).
  { unfold setAckAccept. cbn. by rewrite (proj2 (Z.ltb_lt _ _) Hlt). }
  assert (Hpc : response_pieces (setAckAccept k (response_active (clock s) r)) = response_pieces r)
    by (unfold setAckAccept; by destruct (_ <? _)).
  assert (Hsv : response_servlet (setAckAccept k (response_active (clock s) r)) = response_servlet r)
    by (unfold setAckAccept; by destruct (_ <? _)).
  change (clock s0) with (clock s). rewrite Hack, Hpc, Hsv.
  eexists _, {| socket_fd := socket_fd c; last_active := clock s; addr := addr c;
    responses := <[id := setAckAccept k (response_active (clock s) r)]> (<[id := response_active (clock s) r]> (responses c));
    received_messages := received_messages c |}. split; [reflexivity|]. split.
  - cbn. rewrite (alter_at _ (connections s) _ c Hc). pose proof (lookup_lt_Some _ _ _ Hc).
    rewrite (alter_at _ (<[vc := _]> (connections s)) vc c0) by (by apply list_lookup_insert_eq). rewrite list_insert_insert_eq.
    rewrite (alter_at _ (<[vc := _]> (connections s)) vc _) by (by apply list_lookup_insert_eq). by rewrite list_insert_insert_eq.
  - cbn [responses]. rewrite insert_insert_eq. destruct Hb as [Hb1 Hb2]. split_and!; try done.
    split; [|by apply Forall_app_2; [apply encode_header_ok|]]. change (recvBuf _) with source. unfold source.
    rewrite length_app, encode_header_length. change bufferSize with 549. lia.
Qed.

(** The response of the table once its first piece is acknowledged. *)
Lemma stored_acked t now : setAckAccept 1 (response_active t (stored_response now)) =
  {| response_servlet := servlet; response_pieces := pieces count; last_piece_size := last_size count;
     response_size := count; ack_accept := 1; lastActive := Some t; response_block := dt |}.
Proof. done. Qed.

(** The second piece of a response is read from a block that is gone. *)
Lemma second_piece_undefined s c a now : buffer_ok s -> connections s !! vc = Some c -> id ∈ received_messages c ->
  responses c !! id = Some (stored_response now) -> pool s !! dt = None -> is_uint 64 id -> 522 < count ->
  on_datagram commit vc (ack_packet 1) a s = Undefined.
Proof.
  intros Hb Hc Hin Hr Hd Hid Hlong. pose proof (pieces_bounds count ltac:(lia)) as Hpb.
  destruct (ack_run s c a _ 1 Hb Hc Hin Hr Hid ltac:(done) ltac:(done)) as
    (s2 & c2 & E2 & Hc2 & _ & _ & _ & _ & Hr2 & Hp2 & _).
  assert (Hc2' : connections s2 !! vc = Some c2) by (rewrite Hc2; apply list_lookup_insert_eq; by eapply lookup_lt_Some).
  cbn [response_pieces response_servlet stored_response Response_copy Response_make] in E2. rewrite stored_acked in Hr2.
  destruct (Z.eqb_spec 1 (pieces count)) as [|Hne]; [lia|]. rewrite E2.
  unfold sendResponseDataToClient, connection. step. rewrite Hc2'. cbn [lift_option]. step.
  rewrite Hr2, lookup_insert_eq. cbn [ack_accept response_pieces]. destruct (Z.eqb_spec 1 (pieces count)); [lia|].
  change (1 <? u16 (1 + 1)) with true. rewrite (proj2 (Z.ltb_lt 1 _)) by lia. cbn [andb]. unfold read_block. step.
  cbn [response_block]. by rewrite Hp2, Hd.
Qed.

Lemma free_block_eq b s :
  free_block b s = match deallocate b (pool s) with Some p => Ret tt (with_pool p s) | None => Undefined end.
Proof. unfold free_block. step. by destruct (deallocate _ _). Qed.

Lemma free_lost_block (l : list Response) r s : r ∈ l -> pool s !! response_block r = None ->
  for_each (fun r => free_block (response_block r)) l s = Undefined.
Proof.
  revert s. induction l as [|x l IH]; intros s Hin Hd; [by apply elem_of_nil in Hin|]. cbn [for_each].
  unfold mbind, M_bind. rewrite free_block_eq. unfold deallocate. case_decide as Hx; [|done].
  apply elem_of_cons in Hin as [->|Hin]; [rewrite Hd in Hx; by destruct Hx|]. apply IH; [done|]. cbn.
  destruct (decide (response_block x = response_block r)) as [->|]; [apply lookup_delete_eq|by rewrite lookup_delete_ne].
Qed.

(** C26: the block of a response is given back as soon as its first piece has been sent,
    while the table of the connection still has it.  When the first piece of a longer
    response is acknowledged the second is read from a block that is gone; and every
    response ends in undefined behaviour when it is cleared: the time of its copy was never
    set, and its block is given back twice, by the timer or with the connection. *)
Theorem response_used_after_free s c a : buffer_ok s -> connections s !! vc = Some c -> socket_fd c <> -1 ->
  id ∈ received_messages c -> responses c !! id = None -> pool s !! dt = Some result -> is_uint 64 id ->
  exists s1, send_response dt vc servlet count s = Ret tt s1 /\
    sent s1 = sent s ++ [(socket_fd c, response_piece id count 0 (size_of_piece count (pieces count) 0) ++ piece result 0)] /\
    (522 < count -> on_datagram commit vc (ack_packet 1) a s1 = Undefined) /\
    judgeResponseClearTimeout vc id s1 = Undefined /\
    (count <= 522 -> exists s2, on_datagram commit vc (ack_packet 1) a s1 = Ret tt s2 /\
       forall later, clock s + ResponseTimeOut < later -> judgeResponseClearTimeout vc id (with_clock later s2) = Undefined) /\
    (forall later, last_active c + ConnectionTimeOut < later -> checkDeleteSocket vc (with_clock later s1) = Undefined).
Proof.
  intros Hb Hc Hfd Hin Hr Hp Hid. destruct (send_response_run s c Hc Hr Hp) as
    (s1 & c1 & E & Hc1 & Hf1 & Ha1 & Hl1 & Hm1 & Hr1 & Hs1 & Hp1 & Ht1 & Hk1 & _ & _ & Hb1 & _).
  pose proof (lookup_lt_Some _ _ _ Hc) as Hlt. pose proof (pieces_bounds count ltac:(lia)) as Hpb.
  assert (Hc1' : connections s1 !! vc = Some c1) by (rewrite Hc1; by apply list_lookup_insert_eq).
  assert (Hr1' : responses c1 !! id = Some (stored_response (clock s))) by (rewrite Hr1; apply lookup_insert_eq).
  assert (Hd1 : pool s1 !! dt = None) by (rewrite Hp1; apply lookup_delete_eq).
  assert (Hbuf : buffer_ok s1) by (unfold buffer_ok; by rewrite Hb1).
  assert (Hin1 : id ∈ received_messages c1) by (by rewrite Hm1).
  destruct (ack_run s1 c1 a _ 1 Hbuf Hc1' Hin1 Hr1' Hid ltac:(done) ltac:(done)) as
    (s2 & c2 & E2 & Hc2 & Hf2 & _ & _ & _ & Hr2 & Hp2 & _ & Hk2 & _).
  assert (Hc2' : connections s2 !! vc = Some c2) by (rewrite Hc2; apply list_lookup_insert_eq; by eapply lookup_lt_Some).
  cbn [response_pieces response_servlet stored_response Response_copy Response_make] in E2. rewrite stored_acked in Hr2.
  exists s1. split; [done|]. split; [done|]. split_and!.
  - intros Hlong. by apply (second_piece_undefined s1 c1 a (clock s)).
  - unfold judgeResponseClearTimeout, connection. step. rewrite Hc1'. cbn [lift_option]. step.
    rewrite Hf1, (proj2 (Z.eqb_neq _ _)) by done. cbn [negb]. by rewrite Hr1'.
  - intros Hshort. destruct (Z.eqb_spec 1 (pieces count)) as [_|]; [|lia]. exists s2. split; [exact E2|]. intros later Hlater.
    unfold judgeResponseClearTimeout, connection. step. cbn [connections with_clock]. rewrite Hc2'. cbn [lift_option]. step.
    rewrite Hf2, Hf1, (proj2 (Z.eqb_neq _ _)) by done. cbn [negb]. rewrite Hr2, lookup_insert_eq.
    cbn [lastActive lift_option]. do 2 step. cbn [clock with_clock]. rewrite Hk1, (proj2 (Z.ltb_lt _ _)) by lia. unfold mbind, M_bind. rewrite free_block_eq.
    cbn [pool with_clock response_block]. unfold deallocate. by rewrite Hp2, decide_False by (rewrite Hd1; by intros [? ?]).
  - intros later Hlater. unfold checkDeleteSocket, connection. step. cbn [connections with_clock]. rewrite Hc1'.
    cbn [lift_option]. step. rewrite Hf1, (proj2 (Z.eqb_neq _ _)) by done. cbn [negb]. step. cbn [clock with_clock].
    rewrite Hl1, (proj2 (Z.ltb_lt _ _)) by lia. unfold closeSocket, connection, close_fd. step. cbn [connections with_clock].
    rewrite Hc1'. cbn [lift_option]. do 3 step. unfold clear_connection, connection. step.
    cbn [connections with_clock with_closed]. rewrite Hc1'. cbn [lift_option]. step. unfold mbind, M_bind.
    rewrite (free_lost_block _ (stored_response (clock s))); [done| |exact Hd1].
    apply list_elem_of_fmap. exists (id, stored_response (clock s)). split; [done|]. by apply elem_of_map_to_list.
Qed.
End Response.
End Theorems.
