(* ===== verification/Turns.v ===== *)
(** * The server's end: turns of the loop

    A turn in which no timer is due is the datagrams it has; the first datagram of a peer
    makes a connection of an empty place; and five milliseconds after the pool has run the
    task of a message its answer is sent. *)
From S2P Require Import Prelude Stream Serializer Protocol TimerTree Effects Pieces Reassembly Packets Middleware SubReactor SubReactorLaws SubReactorTheorems.

Section Turns.
Context {h : Host} {P : Pool} {St : Type}.
Implicit Types s : SubReactor St.
Variables (commit : Servlet -> bool) (epoll_add : Z -> bool) (services : list (middleware_service St)).

(** ** Quiet turns *)
Lemma quiet_mono d d' s : d' <= d -> quiet d s -> quiet d' s.
Proof. intros Hd Hq. unfold quiet in *. eapply Forall_impl; [exact Hq|]. intros x Hx. cbn beta in *. lia. Qed.
Lemma quiet_later d d' s : quiet d s -> d' <= d -> quiet (d - d') (with_clock (clock s + d') s).
Proof. intros Hq Hd. unfold quiet in *. cbn. eapply Forall_impl; [exact Hq|]. intros x Hx. cbn beta in *. lia. Qed.

Lemma run_due_quiet n s : Forall (fun node => clock s < expire node) (nodes (treeTimer s)) -> run_due n s = Ret tt s.
Proof.
  intros Hq. destruct n as [|n]; [done|]. cbn [run_due]. step. destruct Hq as [|x l Hx _]; [done|].
  by rewrite (proj2 (Z.leb_gt _ _)) by lia.
Qed.

Lemma with_clock_same s : with_clock (clock s) s = s.
Proof. by destruct s. Qed.

Lemma quiet_turn d d' s events : quiet d s -> d' <= d -> newConnections s = [] ->
  loop_turn commit epoll_add (clock s + d') events s =
  for_each (on_event commit) events (with_clock (clock s + d') s).
Proof.
  intros Hq Hd Hn. unfold loop_turn. step. unfold run_timers. step.
  assert (E : run_due (length (nodes (treeTimer (with_clock (clock s + d') s)))) (with_clock (clock s + d') s) =
    Ret tt (with_clock (clock s + d') s)).
  { apply run_due_quiet. cbn. eapply Forall_impl; [exact Hq|]. intros x Hx. cbn beta in *. lia. }
  run E. unfold dealWithNewConnection. step. cbn [newConnections with_clock]. rewrite Hn. cbn [for_each]. by step.
Qed.

Lemma datagram_turn d s vc packet a : quiet d s -> 0 <= d -> newConnections s = [] ->
  loop_turn commit epoll_add (clock s) [{| ready_connection := vc; ready_error := false; ready_data := Some (packet, a) |}] s =
  on_datagram commit vc packet a s.
Proof.
  intros Hq Hd Hn. pose proof (quiet_turn d 0 s [{| ready_connection := vc; ready_error := false; ready_data := Some (packet, a) |}]
    Hq Hd Hn) as E. rewrite Z.add_0_r, with_clock_same in E. rewrite E. cbn [for_each].
  unfold on_event. cbn [ready_error ready_data ready_connection]. step. unfold mbind, M_bind.
  by destruct (on_datagram commit vc packet a s) as [[]| |].
Qed.

(** ** The first datagram of a peer *)
Section First.
Variables (data : bytes) (id : Z) (a : address) (fd : Z).
Abbreviation n := (Z.of_nat (length data)).
Abbreviation p := (pieces n).
Hypotheses (Hn : 0 < n <= 65535 * 522) (Hid : is_uint 64 id) (Hdata : bytes_ok data).
Hypotheses (Hcommit : commit (sv id a) = true) (Hepoll : epoll_add fd = true).

(** A server that can take a new peer: no timer is due for [d] milliseconds, nothing waits,
    and place [vc] is the first that is empty. *)
Record can_accept (d : Z) (vc : nat) s : Prop := {
  ca_quiet : quiet d s;
  ca_queue : newConnections s = [];
  ca_buffer : buffer_ok s;
  ca_free : activeConnectionsCount s < Z.of_nat (length (connections s));
  ca_place : List.find (is_empty_place s) (places s) = Some vc;
  ca_clean c : connections s !! vc = Some c -> responses c = ∅ /\ received_messages c = [];
}.

Lemma is_empty_at (s : SubReactor St) vc : is_empty_place s vc = true ->
  exists c, connections s !! vc = Some c /\ socket_fd c = -1.
Proof.
  unfold is_empty_place. destruct (connections s !! vc) as [c|]; [|done]. intros E%Z.eqb_eq. by exists c.
Qed.

(** The entry of the queue for a datagram. *)
Definition entry (datagram : bytes) : new_connection :=
  let '(dt, recvLen) := receive datagram (fresh_block bufferSize) in
  {| new_fd := fd; recv_length := recvLen; new_addr := a; new_data := dt; is_new := true |}.

Lemma piece_parse i buffer : 0 <= i < p -> Z.of_nat (length buffer) = bufferSize -> bytes_ok buffer ->
  exists source r, receive (piece_packet data id i) buffer = (source, 26 + Z.of_nat (length (piece data i))) /\
    parse (26 + Z.of_nat (length (piece data i))) source = Some ((piece_header data id i, true), r).
Proof.
  intros Hi Hl Hok. destruct (piece_received data id Hn Hid Hdata i buffer Hi Hl Hok) as (source & Er & Hpar & _).
  exists source. unfold parsed in Hpar. destruct (parse _ _) as [[[hd []] r]|]; [|done..]. injection Hpar as ->. by exists r.
Qed.

Lemma first_turn d vc s : 0 <= d < RequestTimeOut -> can_accept d vc s -> messages s !! sv id a = None ->
  let mask := <[0%nat := true]> (replicate (Z.to_nat p) false) in
  exists s' c', loop_turn commit epoll_add (clock s) [] (with_queue [entry (piece_packet data id 0)] s) = Ret tt s' /\
    receiving data id a s' mask /\ sent s' = sent s ++ [(fd, sendACK_packet (getAckNumber mask) id)] /\
    connections s' = <[vc := c']> (connections s) /\ (vc < length (connections s))%nat /\
    socket_fd c' = fd /\ addr c' = a /\ responses c' = ∅ /\
    received_messages c' = (if handed data mask then [id] else []) /\
    (if handed data mask then exists block, pending s' = pending s ++ [the_task data id a vc block] /\ pool s' !! block = Some data
     else pending s' = pending s) /\
    newConnections s' = [] /\ clock s' = clock s /\ app_state s' = app_state s /\ quiet d s' /\ buffer_ok s'.
Proof.
  intros Hd [Hq Hqu Hb Hfree Hplace Hclean] Hm mask.
  assert (Hp : 0 < p) by (pose proof (p_bounds data Hn); lia).
  destruct (piece_received data id Hn Hid Hdata 0 (fresh_block bufferSize)) as (source & Er & Hpar & _ & Hl & Hok & Hcopy);
    [lia|by apply fresh_block_length|apply fresh_block_ok|].
  set (s0 := with_queue [entry (piece_packet data id 0)] s).
  assert (Een : entry (piece_packet data id 0) = {| new_fd := fd; recv_length := 26 + Z.of_nat (length (piece data 0));
    new_addr := a; new_data := source; is_new := true |}) by (unfold entry; by rewrite Er).
  assert (Hparse : exists r, parse (26 + Z.of_nat (length (piece data 0))) source = Some ((piece_header data id 0, true), r)).
  { unfold parsed in Hpar. destruct (parse _ _) as [[[hd []] r]|]; [|done..]. injection Hpar as ->. by exists r. }
  destruct Hparse as (r & Hparse).
  apply find_some in Hplace as Hp'. destruct Hp' as [_ He]. apply is_empty_at in He as (c0 & Hc0 & Hfd0).
  destruct (Hclean c0 Hc0) as [Hr0 Hrm0].
  unfold loop_turn. step. change (with_clock (clock s) s0) with s0. unfold run_timers. step.
  assert (Eq : run_due (length (nodes (treeTimer s0))) s0 = Ret tt s0).
  { apply run_due_quiet. eapply Forall_impl; [exact Hq|]. intros x Hx. cbn beta in *. change (clock s0) with (clock s). lia. }
  run Eq. unfold dealWithNewConnection. step. change (newConnections s0) with [entry (piece_packet data id 0)].
  cbn [for_each]. unfold new_connection_turn. step. change (newConnections s0) with [entry (piece_packet data id 0)].
  rewrite Een. cbn [recv_length new_data is_new new_fd new_addr]. rewrite Hparse.
  unfold findConnectionsEmptyPlace. step. change (connections s0) with (connections s).
  change (activeConnectionsCount s0) with (activeConnectionsCount s). rewrite (proj2 (Z.leb_gt _ _)) by lia. do 2 step.
  change (List.find (is_empty_place s0) (places s0)) with (List.find (is_empty_place s) (places s)). rewrite Hplace.
  do 3 step. cbv iota.
  match goal with |- context [mbind _ _ ?x] => set (s1 := x) end.
  set (c1 := {| socket_fd := fd; last_active := clock s; addr := a; responses := responses c0; received_messages := received_messages c0 |}).
  assert (Hc1 : connections s1 = <[vc := c1]> (connections s)) by (cbn; by rewrite (alter_at _ _ _ c0 Hc0)).
  pose proof (lookup_lt_Some _ _ _ Hc0) as Hlt.
  assert (Hc1' : connections s1 !! vc = Some c1) by (rewrite Hc1; by apply list_lookup_insert_eq).
  change (servlet_of (piece_header data id 0) a) with (sv id a) in *.
  destruct (first_piece_spec data id a Hn s1 fd 0 source ltac:(lia) Hcopy) as (s2 & r2 & block2 & E2 & Hs2 & Hq2).
  change (Z.to_nat 0) with 0%nat in *. fold mask in E2, Hq2.
  assert (Hrec : receiving data id a s1 (replicate (Z.to_nat p) false)) by (left; split; [done|exact Hm]).
  assert (Hh0 : handed data (replicate (Z.to_nat p) false) = false) by (by destruct (receiving_absent data id a Hn s1 _ Hrec Hm)).
  destruct (acknowledge_spec commit data id a Hn s1 s2 (replicate (Z.to_nat p) false) fd 0 vc c1 r2 block2 Hcommit
    ltac:(lia) (length_replicate _ _) Hc1' Hs2) as (s3 & E3 & [T1 T2 (c & c' & Hcc & Hc' & Hf' & Ha' & Hr' & Hrm') T4 (T5 & T6 & T7 & _ & T9 & T10) _ _]).
  { by rewrite Hh0. } { rewrite Hh0. exact Hq2. }
  change (Z.to_nat 0) with 0%nat in *. fold mask in E3, T1, T2, T4, Hrm'.
  assert (E : first_datagram commit {| new_fd := fd; recv_length := 26 + Z.of_nat (length (piece data 0)); new_addr := a;
    new_data := source; is_new := true |} (piece_header data id 0) vc s1 = Ret tt s3).
  { unfold first_datagram. cbn [new_addr new_data new_fd]. step. change (servlet_of (piece_header data id 0) a) with (sv id a).
    change (type (piece_header data id 0)) with RequestSend. cbv iota. change (messages s1) with (messages s). rewrite Hm.
    run E2. exact E3. }
  run E. rewrite Hepoll. unfold set_timer, pop_connection. do 2 step. rewrite Hc1' in Hcc. injection Hcc as <-.
  rewrite Hh0, andb_true_r in T4. rewrite Hc1, list_insert_insert_eq in Hc'.
  eexists _, c'. split; [reflexivity|].
  assert (Hqs : quiet d s1) by exact Hq. apply T9 in Hqs; [|lia].
  split_and!; try done.
  - cbn. by rewrite Hr'.
  - rewrite Hrm'. cbn. by rewrite Hrm0.
  - cbn. by rewrite T5.
  - unfold quiet in *. cbn. apply set_insert_forall; [|done]. cbn. unfold RequestTimeOut, ConnectionTimeOut in *. lia.
  - unfold buffer_ok. by apply T10.
Qed.
End First.

(** ** A heartbeat of a client that waits for its answer *)
Lemma heartbeat_run id a vc s c : buffer_ok s -> connections s !! vc = Some c -> id ∈ received_messages c ->
  responses c !! id = None -> is_uint 64 id ->
  exists s2 c2, on_datagram commit vc (request_heartbeat_packet id Protocol.Response) a s = Ret tt s2 /\
    connections s2 = <[vc := c2]> (connections s) /\ socket_fd c2 = socket_fd c /\ addr c2 = addr c /\
    received_messages c2 = received_messages c /\ responses c2 = responses c /\
    sent s2 = sent s ++ [(socket_fd c, sendHeartbeat_packet id Protocol.Response)] /\
    pool s2 = pool s /\ clock s2 = clock s /\ newConnections s2 = newConnections s /\
    app_state s2 = app_state s /\ pending s2 = pending s /\ treeTimer s2 = treeTimer s /\ buffer_ok s2.
Proof.
  intros Hb Hc Hin Hr Hid. rewrite request_heartbeat_eq.
  set (hd := header_with id 0 Protocol.Response TimedOutRequestHeartbeat 0 protocolHeaderSize 0).
  assert (Hw : header_wf hd) by (apply header_with_wf; unfold is_uint, protocolHeaderSize in *; lia).
  destruct (on_datagram_eq commit vc hd [] a s c Hb Hc Hw) as (rest & Hl & Hok & E); [constructor|cbn; lia|].
  rewrite app_nil_r in E. rewrite E. clear E. change (phase hd) with Protocol.Response. cbv iota.
  set (source := encode_header hd ++ [] ++ rest). set (s0 := before_request vc a hd source s).
  set (c0 := {| socket_fd := socket_fd c; last_active := clock s; addr := addr c; responses := responses c;
    received_messages := received_messages c |}).
  assert (Hc0 : connections s0 !! vc = Some c0) by (cbn; by rewrite list_lookup_alter_eq, Hc).
  unfold on_response. step. run (connection_some vc s0 c0 Hc0). change (timePoint hd) with id.
  rewrite decide_True by done. cbn [responses c0]. rewrite Hr. unfold sendHeartbeat, write_packet.
  eexists _, c0. split; [reflexivity|]. split; [cbn; by rewrite (alter_at _ _ _ c Hc)|]. split_and!; try done.
  destruct Hb as [Hb1 Hb2]. split; [|by apply Forall_app_2; [apply encode_header_ok|]].
  change (recvBuf _) with source. unfold source. rewrite length_app, encode_header_length. change bufferSize with 549. lia.
Qed.

(** ** The answer *)
Lemma clear_front {L} (node : TimeNode L) l t : nodes t = node :: l -> nodes (clearTimeout (base node) t).2 = l.
Proof. intros E. unfold clearTimeout. by rewrite E, set_extract_front. Qed.

Section Answer.
Variables (data : bytes) (id : Z) (a : address) (vc : nat) (result : bytes) (app' : St).
Abbreviation count := (Z.of_nat (length result)).
Hypothesis Hcount : 0 < count <= 65535 * 522.

(** The task has run: its answer is in a block, and a timer will send it. *)
Lemma task_run s c block : connections s !! vc = Some c -> addr c = a -> pending s = [the_task data id a vc block] ->
  pool s !! block = Some data -> answer services a data (app_state s) = Ret result app' ->
  exists s1 dt node, run_pool_task services s = Ret tt s1 /\ pool s1 !! dt = Some result /\ connections s1 = connections s /\
    sent s1 = sent s /\ pending s1 = [] /\ app_state s1 = app' /\ clock s1 = clock s /\ recvBuf s1 = recvBuf s /\
    newConnections s1 = newConnections s /\ messages s1 = messages s /\
    nodes (treeTimer s1) = set_insert node (nodes (treeTimer s)) /\
    expire node = clock s + 5 /\ callBack node = SendResponse dt vc (sv id a) count.
Proof.
  intros Hc Ha Hp Hb E. unfold run_pool_task. step. rewrite Hp. step. unfold try_catch, attempt.
  cbn [task_size task_data task_servlet task_connection the_task].
  set (s0 := with_pending [] (app_state s) s).
  assert (Et : exists s1 dt node, triggerTask services (Z.of_nat (length data)) block (sv id a) vc s0 = Ret tt s1 /\
    pool s1 !! dt = Some result /\ connections s1 = connections s /\
    sent s1 = sent s /\ pending s1 = [] /\ app_state s1 = app' /\ clock s1 = clock s /\ recvBuf s1 = recvBuf s /\
    newConnections s1 = newConnections s /\ messages s1 = messages s /\
    nodes (treeTimer s1) = set_insert node (nodes (treeTimer s)) /\
    expire node = clock s + 5 /\ callBack node = SendResponse dt vc (sv id a) count).
  { unfold triggerTask, read_block. step. change (pool s0) with (pool s). rewrite Hb. cbn [lift_option]. step.
    run (connection_some vc s0 c Hc). rewrite Ha.
    assert (Ei : in_app (answer services a data) s0 = Ret result (with_pending [] app' s0)).
    { unfold in_app. change (app_state s0) with (app_state s). by rewrite E. }
    run Ei. unfold new_block, allocate, write_block, set_timer. step. cbv beta iota zeta. do 3 step.
    replace (u32 count) with count by (symmetry; apply wrap_small; unfold is_uint; lia).
    eexists _, _, _. split; [reflexivity|]. split; [cbn; apply lookup_insert_eq|]. split_and!; reflexivity. }
  destruct Et as (s1 & dt & node & Et & H1). exists s1, dt, node. split; [|exact H1].
  unfold mbind, M_bind. by rewrite Et.
Qed.

(** Five milliseconds after the task: the first piece of the answer is sent. *)
Lemma answer_turn d s c block : 5 <= d < RequestTimeOut -> quiet d s -> newConnections s = [] -> connections s !! vc = Some c ->
  addr c = a -> responses c !! id = None ->
  pending s = [the_task data id a vc block] -> pool s !! block = Some data ->
  answer services a data (app_state s) = Ret result app' ->
  exists s1 c1 dt, (run_pool_task services ;; s ← get_state; loop_turn commit epoll_add (clock s + 5) []) s = Ret tt s1 /\
    connections s1 = <[vc := c1]> (connections s) /\ socket_fd c1 = socket_fd c /\ addr c1 = a /\
    received_messages c1 = received_messages c /\
    responses c1 = <[id := stored_response (sv id a) dt result (clock s1)]> (responses c) /\
    sent s1 = sent s ++ [(socket_fd c, response_piece id count 0 (size_of_piece count (pieces count) 0) ++ piece result 0)] /\
    pool s1 !! dt = None /\ clock s1 = clock s + 5 /\ newConnections s1 = [] /\ app_state s1 = app' /\ pending s1 = [] /\
    quiet (d - 5) s1 /\ recvBuf s1 = recvBuf s.
Proof.
  intros Hd Hq Hqu Hc Ha Hr Hp Hb E.
  destruct (task_run s c block Hc Ha Hp Hb E) as (s1 & dt & node & Et & Hdt & Hc1 & Hs1 & Hp1 & Ha1 & Hk1 & Hb1 & Hq1 & Hm1 & Hn1 & Hex & Hcb).
  run Et. step. unfold loop_turn. step. set (s2 := with_clock (clock s1 + 5) s1). unfold run_timers. step.
  assert (Hfr : Forall (fun x => clock s + 5 < expire x) (nodes (treeTimer s))).
  { eapply Forall_impl; [exact Hq|]. intros x Hx. cbn beta in *. lia. }
  assert (Hnodes : nodes (treeTimer s2) = node :: nodes (treeTimer s)).
  { change (treeTimer s2) with (treeTimer s1). rewrite Hn1. apply set_insert_front. by rewrite Hex. }
  rewrite Hnodes. cbn [length run_due]. change (clock s2) with (clock s1 + 5).
  assert (Hc2 : connections s2 !! vc = Some c) by (cbn; by rewrite Hc1).
  destruct (send_response_run vc (sv id a) dt result Hcount s2 c Hc2 Hr Hdt) as
    (s3 & c3 & Es & Hc3 & Hf3 & Ha3 & _ & Hrm3 & Hr3 & Hs3 & Hp3 & Ht3 & Hk3 & Hq3 & Happ3 & Hb3 & Hpe3 & _).
  destruct (setTimeout_nodes (clock s2) ResponseTimeOut (JudgeResponse vc (request_id (sv id a))) (treeTimer s2)) as (idn & En).
  set (jr := {| ID := idn; expire := clock s2 + ResponseTimeOut; callBack := JudgeResponse vc (request_id (sv id a)) |}) in *.
  assert (Hn3 : nodes (treeTimer s3) = node :: set_insert jr (nodes (treeTimer s))).
  { rewrite Ht3, En, Hnodes. apply set_insert_behind. rewrite Hex. cbn. unfold ResponseTimeOut. lia. }
  assert (Hl : Forall (fun x => clock s + 5 + (d - 5) < expire x) (set_insert jr (nodes (treeTimer s)))).
  { apply set_insert_forall; [cbn; unfold ResponseTimeOut, RequestTimeOut in *; lia|].
    eapply Forall_impl; [exact Hq|]. intros x Hx. cbn beta in *. lia. }
  set (s4 := with_timer (clearTimeout (base node) (treeTimer s3)).2 s3).
  assert (Hn4 : nodes (treeTimer s4) = set_insert jr (nodes (treeTimer s))) by (by apply clear_front).
  assert (Hk4 : clock s4 = clock s + 5) by (change (clock s4) with (clock s3); rewrite Hk3; change (clock s2) with (clock s1 + 5); lia).
  assert (Hq4 : newConnections s4 = []) by (change (newConnections s4) with (newConnections s3); rewrite Hq3; cbn; congruence).
  step. rewrite Hnodes. change (clock s2) with (clock s1 + 5). rewrite Hex, Hk1, (proj2 (Z.leb_le _ _)) by lia.
  rewrite Hcb. cbn [run_callback]. run Es. step. fold s4.
  assert (Ed : run_due (length (nodes (treeTimer s))) s4 = Ret tt s4).
  { apply run_due_quiet. rewrite Hn4, Hk4. eapply Forall_impl; [exact Hl|]. intros x Hx. cbn beta in *. lia. }
  run Ed. unfold dealWithNewConnection. step. rewrite Hq4. cbn [for_each]. step.
  exists s4, c3, dt. split; [reflexivity|]. split; [change (connections s4) with (connections s3); rewrite Hc3; cbn; by rewrite Hc1|].
  split; [done|]. split; [congruence|]. split; [done|]. split; [rewrite Hr3, Hk4; cbn; by rewrite Hk1|].
  split; [change (sent s4) with (sent s3); rewrite Hs3; cbn; by rewrite Hs1|].
  split; [change (pool s4) with (pool s3); rewrite Hp3; apply lookup_delete_eq|]. split; [done|]. split; [done|].
  split; [change (app_state s4) with (app_state s3); rewrite Happ3; done|].
  split; [change (pending s4) with (pending s3); rewrite Hpe3; done|].
  split; [unfold quiet; rewrite Hn4, Hk4; done|]. change (recvBuf s4) with (recvBuf s3). rewrite Hb3. done.
Qed.
End Answer.
End Turns.
