(* ===== verification/SubReactorScenarios.v ===== *)
(** * The server's end: its queue, and concrete runs

    What a full table does to the queue of new connections, and the theorems of the
    server's end on a small server. *)
From S2P Require Import Prelude Stream Serializer Protocol TimerTree Effects Pieces Reassembly Packets Middleware SubReactor SubReactorLaws SubReactorTheorems.

Section Queue.
Context {h : Host} {P : Pool} {St : Type}.
Implicit Types s : SubReactor St.
Variables (commit : Servlet -> bool) (epoll_add : Z -> bool).

(** No place is empty, and none can be cleared. *)
Definition full s : Prop :=
  Forall (fun c => socket_fd c <> -1 /\ clock s <= last_active c + ConnectionTimeOut) (connections s).

(** The connection [n] is refused [k] times. *)
Definition refused (k : nat) (n : new_connection) s : SubReactor St :=
  with_closed (closed s ++ replicate k (new_fd n)) (retired s)
    (with_sent (sent s ++ replicate k (new_fd n, sendExhausted_packet)) s).

Lemma clear_nothing s : full s -> clearTimeoutConnections s = Ret tt s.
Proof.
  intros Hf. unfold clearTimeoutConnections. step.
  assert (Hl : forall i, i ∈ seq 0 (length (connections s)) -> (i < length (connections s))%nat)
    by (intros i Hi; apply elem_of_seq in Hi; lia).
  induction (seq 0 (length (connections s))) as [|i l IH]; [done|]. cbn [for_each].
  destruct (lookup_lt_is_Some_2 (connections s) i) as [c Hc]; [apply Hl; by left|].
  run (connection_some i s c Hc).
  destruct (proj1 (Forall_lookup _ _) Hf _ _ Hc) as [H1 H2].
  rewrite (proj2 (Z.ltb_ge _ _)) by lia. rewrite andb_false_r. step. apply IH. intros j Hj. apply Hl. by right.
Qed.

Lemma no_place s : full s -> findConnectionsEmptyPlace s = Ret None s.
Proof.
  intros Hf. unfold findConnectionsEmptyPlace. step.
  assert (E : (if Z.of_nat (length (connections s)) <=? activeConnectionsCount s then clearTimeoutConnections else mret tt) s
    = Ret tt s) by (destruct (_ <=? _); [by apply clear_nothing|done]). run E. step.
  destruct (List.find _ _) as [i|] eqn:Ei; [|done]. apply find_some in Ei as [_ Ei]. unfold is_empty_place in Ei.
  destruct (connections s !! i) as [c|] eqn:Hc; [|done]. apply (proj1 (Forall_lookup _ _) Hf) in Hc as [Hc _].
  by apply Z.eqb_eq in Ei.
Qed.

Lemma refused_turn s n q hd r k : full s -> newConnections s = n :: q -> is_new n = true ->
  parse (recv_length n) (new_data n) = Some ((hd, true), r) ->
  new_connection_turn commit epoll_add (refused k n s) = Ret tt (refused (S k) n s).
Proof.
  intros Hf Hq Hn Hp. unfold new_connection_turn. step. change (newConnections (refused k n s)) with (newConnections s).
  rewrite Hq. cbv iota. rewrite Hp, Hn. run (no_place (refused k n s) Hf). unfold sendExhausted, write_packet, close_fd.
  repeat step. unfold refused. by rewrite !replicate_S_end, !app_assoc.
Qed.

(** C28: when every place of the table is taken the connection at the front of the queue is
    refused, and stays in the queue: the loop refuses it, and closes its socket, once for
    every connection that waits; nothing else changes, so that the next turns do the same
    and a connection behind it is neither served nor refused. *)
Theorem queue_blocked s n q hd r turns : full s -> newConnections s = n :: q -> is_new n = true ->
  parse (recv_length n) (new_data n) = Some ((hd, true), r) ->
  for_each (fun _ => dealWithNewConnection commit epoll_add) (seq 0 turns) s =
    Ret tt (refused (turns * length (newConnections s)) n s).
Proof.
  intros Hf Hq Hn Hp.
  assert (Ht : forall (l : list new_connection) k, for_each (fun _ => new_connection_turn commit epoll_add) l (refused k n s)
    = Ret tt (refused (length l + k) n s)).
  { induction l as [|x l IH]; intros k; [done|]. cbn [for_each]. run (refused_turn s n q hd r k Hf Hq Hn Hp).
    rewrite IH. do 2 f_equal. cbn. lia. }
  assert (H0 : s = refused 0 n s) by (unfold refused; rewrite !app_nil_r; by destruct s).
  assert (Hd : forall l k, for_each (fun _ : nat => dealWithNewConnection commit epoll_add) l (refused k n s) =
    Ret tt (refused (length l * length (newConnections s) + k) n s)).
  { induction l as [|x l IH]; intros k; [done|]. cbn [for_each].
    assert (E : dealWithNewConnection commit epoll_add (refused k n s) =
      Ret tt (refused (length (newConnections s) + k) n s)).
    { unfold dealWithNewConnection. step. apply Ht. }
    run E. rewrite IH. do 2 f_equal. cbn. lia. }
  rewrite H0 at 1. rewrite Hd, length_seq. by rewrite Nat.add_0_r.
Qed.
End Queue.

(** ** A small server: little-endian, zeroed memory, one connection, and every task taken *)
Section Scenarios.
Local Instance small_host : Host := LittleEndian.
Local Instance small_pool : Pool.
Proof.
  refine {| fresh_block n := replicate (Z.to_nat n) 0 |}.
  - intros n Hn. by rewrite length_replicate, Z2Nat.id.
  - intros n. by apply Forall_replicate.
Defined.

Definition peer : address := {| sin_port := 4000; sin_addr := 2130706433 |}.
Definition a_connection (received : list Z) : VirtualConnection :=
  {| socket_fd := 4; last_active := 0; addr := peer; responses := ∅; received_messages := received |}.
Definition small_server (received : list Z) (b : blocks) : SubReactor unit :=
  with_pool b (with_connections [a_connection received] (SubReactor_new 1 0 (replicate 549 0) tt)).
Definition always (_ : Servlet) : bool := true.

Lemma small_buffer_ok received b : buffer_ok (small_server received b).
Proof. split; [done|]. by apply Forall_replicate. Qed.

(** Two pieces, the second twice. *)
Lemma message_reassembled_witness :
  exists s1, deliver_all always (replicate 523 1) 7 peer 0 [1; 0; 1] (small_server [] ∅) = Ret tt s1 /\
    sent s1 = [(4, sendACK_packet 0 7); (4, sendACK_packet 2 7); (4, sendACK_packet 2 7)] /\
    exists block, pending s1 = [the_task (replicate 523 1) 7 peer 0 block] /\ pool s1 !! block = Some (replicate 523 1).
Proof.
  destruct (message_reassembled always (replicate 523 1) 7 peer 0%nat ltac:(done) ltac:(done)
    ltac:(by apply Forall_replicate) eq_refl [1; 0; 1] (small_server [] ∅) (a_connection [])
    (small_buffer_ok _ _) eq_refl eq_refl) as (s1 & E & Hs & _ & Hall & _).
  - intros i Hi. change (pieces _) with 2. repeat (apply elem_of_cons in Hi as [->|Hi]; [done|]). by apply elem_of_nil in Hi.
  - exists s1. split; [exact E|]. split; [exact Hs|]. apply Hall. change (pieces _) with 2. intros i Hi.
    assert (i = 0 \/ i = 1) as [-> | ->] by lia; [right; left|left].
Defined.

(** One datagram whose index equals the count. *)
Definition forged (order size : Z) : ProtocolHeader := header_with 7 100 Protocol.Request RequestSend order size 0.
(** A header whose place, 65535 * 40000, overflows an [int] although it is in the message. *)
Definition far_piece : ProtocolHeader :=
  {| synchronousWord := defaultSynchronousWord; phase := Protocol.Request; type := RequestSend;
     pieceOrder := 40000; pieceSize := 8; acceptMinOrder := 0; timePoint := 7; totalCount := 40001;
     pieceStandardSize := 65535; totalSize := 4294967295; acceptOrder := 0 |}.

Lemma first_datagram_outcome_witness :
  on_datagram always 0 (encode_header (forged 1 10)) peer (small_server [] ∅) = Undefined /\
  (exists s1, on_datagram always 0 (encode_header (forged 2 10)) peer (small_server [] ∅) = Throw StdException s1) /\
  (exists s1, on_datagram always 0 (encode_header (forged 0 10)) peer (small_server [] ∅) = Ret tt s1) /\
  on_datagram always 0 (encode_header (forged 0 101)) peer (small_server [] ∅) = Undefined /\
  on_datagram always 0 (encode_header far_piece) peer (small_server [] ∅) = Undefined.
Proof.
  assert (Hw : forall i n, is_uint 16 i -> is_uint 16 n -> header_wf (forged i n)) by (intros; by apply header_with_wf).
  pose proof (fun i n H1 H2 => first_datagram_outcome always 0%nat (forged i n) [] peer (small_server [] ∅) (a_connection [])
    (small_buffer_ok _ _) eq_refl (Hw i n H1 H2) ltac:(constructor) ltac:(done) eq_refl eq_refl eq_refl) as H.
  cbv zeta in H. setoid_rewrite app_nil_r in H. split_and!.
  - destruct (H 1 10 ltac:(by split) ltac:(by split)) as (_ & E & _). by apply E.
  - destruct (H 2 10 ltac:(by split) ltac:(by split)) as (E & _). by apply E.
  - destruct (H 0 10 ltac:(by split) ltac:(by split)) as (_ & _ & E & _).
    destruct E as (s1 & E & _); [done|by split_and!|by exists s1].
  - destruct (H 0 101 ltac:(by split) ltac:(by split)) as (_ & _ & _ & E). apply E; [done|]. intros (_ & _ & Hf). by apply Hf.
  - destruct (first_datagram_outcome always 0%nat far_piece [] peer (small_server [] ∅) (a_connection [])
      (small_buffer_ok _ _) eq_refl) as (_ & _ & _ & E); [by split_and!|constructor|done..|].
    rewrite app_nil_r in E. apply E; [done|]. intros (_ & Hf & _). vm_compute in Hf. discriminate.
Defined.

(** A response of 523 bytes: its first piece is sent, and its second never. *)
Lemma response_used_after_free_witness :
  exists s1, send_response 1 0 (sv 7 peer) 523 (small_server [7] {[ 1%positive := replicate 523 1 ]}) = Ret tt s1 /\
    on_datagram always 0 (ack_packet (sv 7 peer) 1) peer s1 = Undefined.
Proof.
  destruct (response_used_after_free always 0%nat (sv 7 peer) 1 (replicate 523 1) ltac:(done)
    (small_server [7] {[ 1%positive := replicate 523 1 ]}) (a_connection [7]) peer (small_buffer_ok _ _) eq_refl
    ltac:(done) ltac:(by left) eq_refl eq_refl ltac:(done)) as (s1 & E & _ & H & _).
  exists s1. split; [exact E|]. by apply H.
Defined.

(** Two connections wait for the only place. *)
Definition waiting (fd : Z) : new_connection :=
  {| new_fd := fd; recv_length := 26; new_addr := peer; new_data := encode_header (forged 0 0) ++ replicate 523 0; is_new := true |}.
Lemma queue_blocked_witness :
  let s := with_queue [waiting 5; waiting 6] (small_server [] ∅) in
  for_each (fun _ => dealWithNewConnection always (fun _ => true)) (seq 0 2) s = Ret tt (refused 4 (waiting 5) s).
Proof.
  intros s. eapply (queue_blocked always (fun _ => true) s (waiting 5) [waiting 6] _ _ 2%nat).
  - by repeat constructor.
  - done.
  - done.
  - vm_compute. reflexivity.
Defined.
End Scenarios.
