(* ===== verification/Reactor.v ===== *)
(** * The main reactor: [reactor.cpp]

    The main reactor takes the datagrams that come to the port of the server, from peers
    that no socket is connected to yet.  It opens a socket for a new peer, gives it to one
    sub reactor after the other, and remembers which peer has which socket until the sub
    reactor closes it.  Starting and stopping, and the epoll, are not modelled; whether a
    socket can be made and connected is told with every datagram. *)
From S2P Require Import Prelude Stream Protocol Effects Pieces Packets Middleware SubReactor.

#[global] Instance address_countable : Countable address.
Proof.
  refine (inj_countable' (fun a => (sin_port a, sin_addr a)) (fun '(p, i) => {| sin_port := p; sin_addr := i |}) _).
  by intros [].
Defined.

(** [operator <] of [Peer]. *)
Definition Peer_lt (me other : address) : bool :=
  if negb (sin_addr me =? sin_addr other) then sin_addr other <? sin_addr me else sin_port other <? sin_port me.

Record SocketConnection := { socket : Z; SubReactor_index : nat }.

(** A datagram for the asynchronous client of the server. *)
Record handover := { handed_id : Z; handed_data : bytes; handed_length : Z; handed_addr : address }.

(** [Reactor] with what [GlobalEntry] keeps. *)
Record Reactor {St : Type} := Main {
  subs : list (SubReactor St);
  counter : Z;
  con_queue : gmap address SocketConnection;
  active_queue : gset Servlet;
  transmitter_linker : bool;            (** whether there is one *)
  linker_queue : list handover;
  replies : list (address * bytes);     (** written to the socket of the port *)
}.
Arguments Reactor St : clear implicits.
Arguments Main {St}.

Section Reactor.
Context {h : Host} {P : Pool} {St : Type}.
Implicit Types m : Reactor St.
Abbreviation MR := (M (Reactor St)).

Definition with_subs l m : Reactor St :=
  Main l (counter m) (con_queue m) (active_queue m) (transmitter_linker m) (linker_queue m) (replies m).
Definition with_queue_of c q m : Reactor St :=
  Main (subs m) c q (active_queue m) (transmitter_linker m) (linker_queue m) (replies m).
Definition with_links a l m : Reactor St :=
  Main (subs m) (counter m) (con_queue m) a (transmitter_linker m) l (replies m).
Definition with_replies r m : Reactor St :=
  Main (subs m) (counter m) (con_queue m) (active_queue m) (transmitter_linker m) (linker_queue m) r.

Definition Reactor_new (_sub_reactor_count _open_max_connection : nat) (now : Z) (buffer : bytes) (st : St) (link : bool) :
    Reactor St :=
  Main (replicate _sub_reactor_count (SubReactor_new _open_max_connection now buffer st)) 0 ∅ ∅ link [] [].

(** Something a sub reactor does. *)
Definition in_sub {A} (i : nat) (f : M (SubReactor St) A) : MR A := fun m =>
  match subs m !! i with
  | None => Undefined
  | Some s =>
      match f s with
      | Ret a s => Ret a (with_subs (<[i := s]> (subs m)) m)
      | Throw e s => Throw e (with_subs (<[i := s]> (subs m)) m)
      | Undefined => Undefined
      end
  end.

(** [subs[counter % subReactorCount]] *)
Definition next_sub m : nat := Z.to_nat (counter m mod Z.of_nat (length (subs m))).

(** A datagram from [a]; [son] is the socket that is made for it and connected to [a]. *)
Definition accept_datagram (d : bytes) (a : address) (son : option Z) : MR unit :=
  let '(dt, recvLen) := receive d (fresh_block bufferSize) in
  match parse recvLen dt with
  | None => undefined
  | Some ((_, false), _) => modify_state (fun m => with_replies (replies m ++ [(a, wrong_protocol)]) m)
  | Some ((header, true), _) =>
      m ← get_state;
      if transmitter_linker m && bool_decide (servlet_of header a ∈ active_queue m) then
        modify_state (with_links (active_queue m) (linker_queue m ++
          [{| handed_id := timePoint header; handed_data := dt; handed_length := recvLen; handed_addr := a |}]))
      else
        match con_queue m !! a with
        | Some c => in_sub (SubReactor_index c) (acceptConnection (socket c) recvLen a dt false)
        | None =>
            match son with
            | None => mret tt
            | Some fd =>
                let idx := next_sub m in
                modify_state (with_queue_of (u32 (counter m + 1)) (con_queue m)) ;;
                in_sub idx (acceptConnection fd recvLen a dt true) ;;
                modify_state (fun m => with_queue_of (counter m)
                  (<[a := {| socket := fd; SubReactor_index := idx |}]> (con_queue m)) m)
            end
        end
  end.

(** The task that [closeSocket] leaves: the first of sub reactor [i] is run. *)
Definition erase_peer (i : nat) : MR unit :=
  m ← get_state;
  match subs m !! i with
  | Some s =>
      match retired s with
      | [] => mret tt
      | a :: l =>
          modify_state (with_subs (<[i := with_closed (closed s) l s]> (subs m))) ;;
          modify_state (fun m => with_queue_of (counter m) (delete a (con_queue m)) m)
      end
  | None => undefined
  end.

(** [send]: a request of the server itself, to [a]; the id is the one it will have. *)
Definition send_event (id : Z) (a : address) : MR bool :=
  m ← get_state;
  if transmitter_linker m then
    modify_state (with_links ({[ {| request_id := id; client_port := sin_port a; client_ip_address := sin_addr a |} ]} ∪
      active_queue m) (linker_queue m)) ;; mret true
  else mret false.

(** ** Lemmas *)
Lemma in_sub_run {A} i s (f : M (SubReactor St) A) x s' m : subs m !! i = Some s -> f s = Ret x s' ->
  in_sub i f m = Ret x (with_subs (<[i := s']> (subs m)) m).
Proof. intros Hi E. unfold in_sub. by rewrite Hi, E. Qed.

Lemma next_sub_lt m : 0 <= counter m -> subs m <> [] -> (next_sub m < length (subs m))%nat.
Proof.
  intros Hc Hs. unfold next_sub. destruct (subs m); [done|]. cbn [length] in *.
  pose proof (Z.mod_pos_bound (counter m) (Z.of_nat (S (length l))) ltac:(lia)). lia.
Qed.

Lemma Peer_lt_total a b : a = b \/ Peer_lt a b = true \/ Peer_lt b a = true.
Proof.
  unfold Peer_lt. destruct a as [p i], b as [p' i']. cbn. rewrite (Z.eqb_sym i' i).
  destruct (Z.eqb_spec i i') as [->|]; cbn; [|lia]. destruct (Z.lt_total p p') as [?|[->|?]]; [|by left|]; right; lia.
Qed.
End Reactor.
