(* ===== verification/Exchange.v ===== *)
(** * A client and a server

    The synchronous client over a network that loses nothing, with the main reactor and
    its sub reactors at the other end.  The kernel gives a datagram to the socket that is
    connected to its sender, and to the port of the server when there is none; the server
    deals with it before the client goes on.  While the client waits, the server takes a
    turn of its loop; the thread pool, which may be busy during the first [slow] of these
    turns, runs a task, and five milliseconds later the loop takes another turn.  An
    exception that leaves the loop of a reactor ends the process of the server, and the
    exchange has no outcome. *)
From S2P Require Import Prelude Stream Protocol Effects Pieces Packets Middleware Invoker SubReactor Reactor.

Record world {St : Type} := World {
  main : Reactor St;
  inbox : list bytes;      (** datagrams for the client *)
  slow : nat;
}.
Arguments world St : clear implicits.
Arguments World {St}.

Section Exchange.
Context {h : Host} {P : Pool} {St : Type}.
Implicit Types w : world St.
Variables (commit : Servlet -> bool) (epoll_add : Z -> bool) (services : list (middleware_service St)).
(** The addresses of the two, and the socket that is made for the client. *)
Variables (me server_at : address) (fd : Z).
Abbreviation WR := (M (world St)).

Definition with_main m w : world St := World m (inbox w) (slow w).
Definition with_inbox l w : world St := World (main w) l (slow w).
Definition with_slow n w : world St := World (main w) (inbox w) n.

(** The packets of a list that go to the client. *)
Definition packets (l : list (Z * bytes)) : list bytes := omap (fun p => if p.1 =? fd then Some p.2 else None) l.
Definition answers (l : list (address * bytes)) : list bytes := omap (fun p => if decide (p.1 = me) then Some p.2 else None) l.

(** Something sub reactor [i] does. *)
Definition on_sub (i : nat) (f : M (SubReactor St) unit) : WR unit := fun w =>
  match subs (main w) !! i with
  | None => Undefined
  | Some s =>
      match f s with
      | Ret _ s' => Ret tt (World (with_subs (<[i := s']> (subs (main w))) (main w))
                             (inbox w ++ packets (drop (length (sent s)) (sent s'))) (slow w))
      | _ => Undefined
      end
  end.
Definition on_main (f : M (Reactor St) unit) : WR unit := fun w =>
  match f (main w) with
  | Ret _ m => Ret tt (World m (inbox w ++ answers (drop (length (replies (main w))) (replies m))) (slow w))
  | _ => Undefined
  end.

(** The sub reactor of the client, and its connection when the socket is open. *)
Definition mine w : option nat := SubReactor_index <$> con_queue (main w) !! me.
Definition has_socket (s : SubReactor St) (i : nat) : bool :=
  match connections s !! i with Some c => socket_fd c =? fd | None => false end.
Definition route w : option (nat * nat) :=
  i ← mine w; s ← subs (main w) !! i;
  vc ← List.find (has_socket s) (seq 0 (length (connections s))); Some (i, vc).

(** A turn of a sub reactor [d] milliseconds later. *)
Definition turn (d : Z) (events : list readiness) : M (SubReactor St) unit :=
  s ← get_state; loop_turn commit epoll_add (clock s + d) events.

Definition transmit (packet : bytes) : WR unit :=
  w ← get_state;
  match route w with
  | Some (i, vc) =>
      on_sub i (turn 0 [{| ready_connection := vc; ready_error := false; ready_data := Some (packet, me) |}])
  | None =>
      on_main (accept_datagram packet me (Some fd)) ;;
      w ← get_state;
      match mine w with Some i => on_sub i (turn 0 []) | None => mret tt end
  end.

(** What happens while the client waits for [timeout] microseconds. *)
Definition wait (timeout : Z) : WR unit :=
  w ← get_state;
  match mine w with
  | None => mret tt
  | Some i =>
      match slow w with
      | S k => modify_state (with_slow k) ;; on_sub i (turn (timeout / 1000) [])
      | O =>
          on_sub i (run_pool_task services ;; turn 5 []) ;;
          w ← get_state;
          match inbox w with
          | [] => on_sub i (turn (timeout / 1000) [])
          | _ => mret tt
          end
      end
  end.

Definition pop_inbox : WR (option (bytes * address)) :=
  w ← get_state;
  match inbox w with
  | [] => mret None
  | d :: l => modify_state (with_inbox l) ;; mret (Some (d, server_at))
  end.

#[export] Instance exchange_network : Network (world St) address := {
  sendto a packet := if decide (a = server_at) then transmit packet else mret tt;
  recvfrom timeout :=
    r ← pop_inbox;
    match r with
    | Some x => mret (Some x)
    | None => wait timeout ;; pop_inbox
    end;
}.
End Exchange.
