(* ===== verification/ExchangeTheorems.v ===== *)
(** * A client and a server: theorems

    A call over a network that loses nothing, however long the pool is busy within the
    time the client has, is answered with what the services of the server computed. *)
From S2P Require Import Prelude Stream Serializer Protocol TimerTree Effects Pieces Reassembly Packets Middleware Invoker SubReactor SubReactorLaws SubReactorTheorems Turns Reactor Exchange.

(** ** Lists *)
Lemma find_only (f : nat -> bool) n i : (i < n)%nat -> f i = true -> (forall j, (j < n)%nat -> f j = true -> j = i) ->
  List.find f (seq 0 n) = Some i.
Proof.
  intros Hi Hf Ho. destruct (List.find f (seq 0 n)) as [j|] eqn:E.
  - apply find_some in E as [Hj Hfj]. apply in_seq in Hj. f_equal. apply Ho; [lia|done].
  - exfalso. eapply find_none in E; [|apply in_seq; split; [lia|exact Hi]]. congruence.
Qed.

Lemma drop_app_length_eq {A} (l k : list A) : drop (length l) (l ++ k) = k.
Proof. apply drop_app_length. Qed.

(** The pieces before [k] have come. *)
Definition prefix (p k : Z) : list bool := replicate (Z.to_nat k) true ++ replicate (Z.to_nat (p - k)) false.
Lemma prefix_0 p : 0 <= p -> prefix p 0 = replicate (Z.to_nat p) false.
Proof. intros. unfold prefix. by rewrite Z.sub_0_r. Qed.
Lemma prefix_set p k : 0 <= k < p -> <[Z.to_nat k := true]> (prefix p k) = prefix p (k + 1).
Proof.
  intros Hk. unfold prefix. rewrite insert_app_r_alt by (rewrite length_replicate; lia). rewrite length_replicate, Nat.sub_diag.
  replace (Z.to_nat (p - k)) with (S (Z.to_nat (p - (k + 1)))) by lia.
  replace (Z.to_nat (k + 1)) with (Z.to_nat k + 1)%nat by lia. cbn [replicate].
  rewrite replicate_add, <-app_assoc. done.
Qed.
Lemma prefix_ack p k : 0 <= k -> getAckNumber (prefix p k) = k.
Proof. intros. unfold prefix. rewrite getAckNumber_prefix. lia. Qed.

Section Theorems.
Context {h : Host} {P : Pool} {St : Type}.
Variables (commit : Servlet -> bool) (epoll_add : Z -> bool) (services : list (middleware_service St)).
Variables (me server_at : address) (fd : Z) (idx vc : nat).
Variables (data : bytes) (id : Z).
Abbreviation n := (Z.of_nat (length data)).
Abbreviation p := (pieces n).
Hypotheses (Hn : 0 < n <= 65528 * 522) (Hid : is_uint 64 id) (Hdata : bytes_ok data).
Hypotheses (Hcommit : commit (sv id me) = true) (Hepoll : epoll_add fd = true).
#[local] Instance net_instance : Network (world St) address := exchange_network commit epoll_add services me server_at fd.
Implicit Types (s : SubReactor St) (w : world St) (t : session (world St) address).
Variables (d : Z) (st : St).
Hypothesis Hd : 5 <= d < RequestTimeOut.

Lemma Hn' : 0 < n <= 65535 * 522.
Proof. lia. Qed.
Lemma p_range : 0 < p <= 65528.
Proof. pose proof (pieces_bounds n ltac:(lia)). lia. Qed.

(** ** The server during a call *)

(** The client has no connection yet. *)
Record idle w : Prop := {
  idle_sub : exists s, subs (main w) !! idx = Some s /\ can_accept d vc s /\ messages s !! sv id me = None /\
    (forall i c, connections s !! i = Some c -> socket_fd c <> fd) /\ pending s = [] /\ app_state s = st;
  idle_next : next_sub (main w) = idx;
  idle_peer : con_queue (main w) !! me = None;
  idle_links : sv id me ∉ active_queue (main w);
}.

(** The client is connected: [Q] is what its sub reactor and its connection satisfy. *)
Definition connected (Q : SubReactor St -> VirtualConnection -> Prop) w : Prop :=
  con_queue (main w) !! me = Some {| socket := fd; SubReactor_index := idx |} /\
  exists s c, subs (main w) !! idx = Some s /\ connections s !! vc = Some c /\ socket_fd c = fd /\ addr c = me /\
    (forall i c', connections s !! i = Some c' -> socket_fd c' = fd -> i = vc) /\
    newConnections s = [] /\ buffer_ok s /\ Q s c.

(** [k] pieces have come. *)
Definition has_pieces (k : Z) s (c : VirtualConnection) : Prop :=
  receiving data id me s (prefix p k) /\ responses c !! id = None /\ (k = p -> id ∈ received_messages c) /\
  app_state s = st /\ quiet d s /\
  if decide (k = p) then exists block, pending s = [the_task data id me vc block] /\ pool s !! block = Some data
  else pending s = [].

Definition progress (k : Z) w : Prop := if decide (k = 0) then idle w else connected (has_pieces k) w.

Lemma progress_pos k w : k <> 0 -> connected (has_pieces k) w -> progress k w.
Proof. intros Hk Hw. unfold progress. by rewrite decide_False. Qed.

Lemma handed_prefix k : 0 <= k -> handed data (prefix p k) = bool_decide (k = p).
Proof. intros. unfold handed. by rewrite prefix_ack. Qed.

Lemma packets_one x : packets fd [(fd, x)] = [x].
Proof. unfold packets. cbn. by rewrite Z.eqb_refl. Qed.

(** A step of the sub reactor of the client. *)
Lemma on_sub_run w s f s' out : subs (main w) !! idx = Some s -> f s = Ret tt s' -> sent s' = sent s ++ out ->
  on_sub fd idx f w = Ret tt (World (with_subs (<[idx := s']> (subs (main w))) (main w)) (inbox w ++ packets fd out) (slow w)).
Proof. intros Hs E Ho. unfold on_sub. by rewrite Hs, E, Ho, drop_app_length_eq. Qed.

Lemma connected_route Q w : connected Q w -> route me fd w = Some (idx, vc).
Proof.
  intros (Hq & s & c & Hs & Hc & Hf & _ & Ho & _). unfold route, mine. rewrite Hq. cbn. rewrite Hs. cbn.
  rewrite (find_only _ _ vc); [done|by eapply lookup_lt_Some| |].
  - unfold has_socket. rewrite Hc. by apply Z.eqb_eq.
  - intros j _. unfold has_socket. destruct (connections s !! j) eqn:Ej; [|done]. intros E%Z.eqb_eq. by eapply Ho.
Qed.

(** A datagram of the client on its connection. *)
Lemma transmit_run Q Q' w packet out : connected Q w ->
  (forall s c, subs (main w) !! idx = Some s -> connections s !! vc = Some c -> Q s c -> buffer_ok s ->
     socket_fd c = fd -> addr c = me -> exists s' c', on_datagram commit vc packet me s = Ret tt s' /\ quiet 0 s /\ sent s' = sent s ++ out /\
     connections s' = <[vc := c']> (connections s) /\ socket_fd c' = socket_fd c /\ addr c' = addr c /\
     newConnections s' = newConnections s /\ buffer_ok s' /\ Q' s' c') ->
  exists w', transmit commit epoll_add me fd packet w = Ret tt w' /\ connected Q' w' /\
    inbox w' = inbox w ++ packets fd out /\ slow w' = slow w.
Proof.
  intros Hw Hrun. unfold transmit. erewrite run_bind by reflexivity. rewrite (connected_route Q w Hw).
  destruct Hw as (Hq & s & c & Hs & Hc & Hf & Ha & Ho & Hnew & Hb & HQ).
  destruct (Hrun s c Hs Hc HQ Hb Hf Ha) as (s' & c' & E & Hqu & Hout & Hc' & Hf' & Ha' & Hnew' & Hb' & HQ').
  pose proof (lookup_lt_Some _ _ _ Hs) as Hlt. pose proof (lookup_lt_Some _ _ _ Hc) as Hvlt.
  assert (Et : turn commit epoll_add 0 [{| ready_connection := vc; ready_error := false; ready_data := Some (packet, me) |}] s = Ret tt s').
  { unfold turn. erewrite run_bind by reflexivity. rewrite Z.add_0_r. rewrite (datagram_turn commit epoll_add 0) by done. done. }
  rewrite (on_sub_run w s _ s' out Hs Et Hout). eexists. split; [reflexivity|].
  split; [|done].
  split; [done|]. exists s', c'. split; [cbn; by apply list_lookup_insert_eq|].
  split; [rewrite Hc'; by apply list_lookup_insert_eq|]. split; [congruence|]. split; [congruence|].
  split; [|split; [congruence|done]]. intros i x Hi Hx. rewrite Hc' in Hi. destruct (decide (i = vc)) as [|Hne]; [done|].
  rewrite list_lookup_insert_ne in Hi by done. by eapply Ho.
Qed.

(** ** A piece *)
Lemma piece_transmit_connected k w : connected (has_pieces k) w -> 0 <= k < p ->
  exists w', transmit commit epoll_add me fd (piece_packet data id k) w = Ret tt w' /\ connected (has_pieces (k + 1)) w' /\
    inbox w' = inbox w ++ [sendACK_packet (k + 1) id] /\ slow w' = slow w.
Proof.
  intros Hw Hk. rewrite <-(packets_one (sendACK_packet (k + 1) id)).
  apply (transmit_run (has_pieces k) (has_pieces (k + 1))); [done|].
  intros s c Hs Hc (Hr & Hre & Hrm & Happ & Hq & Hp) Hb Hf Ha.
  destruct (on_piece commit data id me Hn' Hid Hdata s _ vc c k Hcommit Hb Hr Hk Hc) as (s' & E & T).
  destruct T as [T1 T2 (c' & c2 & Hc' & Hc2 & Hf2 & Ha2 & Hr2 & Hrm2) T4 (T5 & T6 & T7 & T8 & T9 & T10) T11 T12].
  rewrite Hc in Hc'. injection Hc' as <-. rewrite prefix_set in T1, T2, Hrm2, T4 by done. rewrite prefix_ack in T2 by lia.
  rewrite handed_prefix in Hrm2, T4 by lia. rewrite handed_prefix in T4 by lia. rewrite Hf in T2.
  exists s', c2. split_and!; try done; [eapply quiet_mono; [|exact Hq]; lia|by apply T10|].
  split; [done|]. split; [by rewrite Hr2|]. split; [|split; [congruence|split; [apply T9; [lia|done]|]]].
  - intros Hkp. rewrite bool_decide_true in Hrm2 by done. rewrite Hrm2. apply elem_of_app. right. by left.
  - rewrite (bool_decide_false (k = p)) in T4 by lia. rewrite andb_true_r in T4. rewrite decide_False in Hp by lia. rewrite Hp in T4.
    case_decide as Hkp; [rewrite bool_decide_true in T4 by done|by rewrite bool_decide_false in T4 by done].
    destruct T4 as (block & T4 & Hbl). by exists block.
Qed.

Lemma piece_transmit_first w : idle w ->
  exists w', transmit commit epoll_add me fd (piece_packet data id 0) w = Ret tt w' /\ connected (has_pieces 1) w' /\
    inbox w' = inbox w ++ [sendACK_packet 1 id] /\ slow w' = slow w.
Proof.
  intros [(s & Hs & Hca & Hm & Hfd & Hpe & Happ) Hnext Hpeer Hlink].
  pose proof p_range. pose proof (lookup_lt_Some _ _ _ Hs) as Hlt.
  unfold transmit. erewrite run_bind by reflexivity. unfold route at 1, mine at 1. rewrite Hpeer. cbn [fmap option_fmap option_map mbind option_bind].
  destruct (piece_parse data id Hn' Hid Hdata 0 (fresh_block bufferSize)) as (source & r & Er & Hparse);
    [lia|by apply fresh_block_length|apply fresh_block_ok|].
  destruct (first_turn commit epoll_add data id me fd Hn' Hid Hdata Hcommit Hepoll d vc s ltac:(lia) Hca Hm) as
    (s' & c' & E & Hrec & Hsent & Hc' & Hvlt & Hf' & Ha' & Hr' & Hrm' & Hp' & Hnew' & Hk' & Happ' & Hq' & Hb').
  set (q := {| socket := fd; SubReactor_index := idx |}).
  set (m1 := with_queue_of (u32 (counter (main w) + 1)) (<[me := q]> (con_queue (main w)))
    (with_subs (<[idx := with_queue [entry me fd (piece_packet data id 0)] s]> (subs (main w))) (main w))).
  assert (Em : accept_datagram (piece_packet data id 0) me (Some fd) (main w) = Ret tt m1).
  { unfold accept_datagram. rewrite Er, Hparse. erewrite run_bind by reflexivity.
    change (servlet_of (piece_header data id 0) me) with (sv id me). rewrite bool_decide_false, andb_false_r by done.
    rewrite Hpeer, Hnext. erewrite run_bind by reflexivity. unfold in_sub at 1, mbind, M_bind. cbn [subs with_queue_of]. rewrite Hs.
    unfold acceptConnection, modify_state. rewrite (ca_queue _ _ _ Hca). unfold m1, entry. by rewrite Er. }
  unfold on_main at 1, mbind, M_bind. rewrite Em. cbn [replies m1 with_queue_of with_subs].
  rewrite drop_ge by lia. cbn [answers omap list_omap]. rewrite app_nil_r. unfold get_state.
  unfold mine. cbn [main con_queue m1 with_queue_of]. rewrite lookup_insert_eq. cbn [fmap option_fmap option_map SubReactor_index q].
  set (w1 := World m1 (inbox w) (slow w)).
  assert (Hs1 : subs (main w1) !! idx = Some (with_queue [entry me fd (piece_packet data id 0)] s))
    by (cbn; by apply list_lookup_insert_eq).
  assert (Emask : <[0%nat := true]> (replicate (Z.to_nat p) false) = prefix p 1).
  { rewrite <-prefix_0 by lia. change 0%nat with (Z.to_nat 0). by rewrite prefix_set by lia. }
  rewrite Emask in *. rewrite prefix_ack in Hsent by lia. rewrite handed_prefix in Hrm', Hp' by lia.
  rewrite (on_sub_run w1 _ (turn commit epoll_add 0 []) s' [(fd, sendACK_packet 1 id)] Hs1);
    [|unfold turn; erewrite run_bind by reflexivity; rewrite Z.add_0_r; exact E|exact Hsent].
  rewrite packets_one. eexists. split; [reflexivity|]. split; [|done]. split; [cbn; apply lookup_insert_eq|].
  exists s', c'. split; [cbn; rewrite list_insert_insert_eq; by apply list_lookup_insert_eq|].
  split; [rewrite Hc'; by apply list_lookup_insert_eq|]. do 2 (split; [done|]). split.
  { intros i x Hi Hx. destruct (decide (i = vc)) as [|Hne]; [done|]. rewrite Hc', list_lookup_insert_ne in Hi by done.
    by destruct (Hfd i x Hi). }
  do 2 (split; [done|]). split; [done|]. split; [by rewrite Hr'|]. split; [|split; [congruence|split; [done|]]].
  - intros Hk. rewrite Hrm', bool_decide_true by done. by left.
  - rewrite Hpe in Hp'. case_decide; [by rewrite bool_decide_true in Hp'|by rewrite bool_decide_false in Hp'].
Qed.

Lemma piece_transmit k w : progress k w -> 0 <= k < p ->
  exists w', transmit commit epoll_add me fd (piece_packet data id k) w = Ret tt w' /\ progress (k + 1) w' /\
    inbox w' = inbox w ++ [sendACK_packet (k + 1) id] /\ slow w' = slow w.
Proof.
  intros Hw Hk. assert (exists w', transmit commit epoll_add me fd (piece_packet data id k) w = Ret tt w' /\
    connected (has_pieces (k + 1)) w' /\ inbox w' = inbox w ++ [sendACK_packet (k + 1) id] /\ slow w' = slow w)
    as (w' & E & Hc & H1).
  { unfold progress in Hw. case_decide; [subst k; by apply piece_transmit_first|by apply piece_transmit_connected]. }
  exists w'. split; [done|]. split; [|done]. apply progress_pos; [lia|done].
Qed.

Lemma progress_main k w w' : main w' = main w -> progress k w -> progress k w'.
Proof.
  intros E. unfold progress, connected. case_decide; [|by rewrite E]. intros [H1 H2 H3 H4]. constructor; by rewrite E.
Qed.

(** ** The client *)
Definition buffer_fine t : Prop := Z.of_nat (length (buffer t)) = bufferSize /\ bytes_ok (buffer t).

Record client (acc received : Z) t : Prop := {
  client_address : server_address t = server_at;
  client_buffer : buffer_fine t;
  client_response : response t = ResponseData_new;
  client_accepted : accepted t = acc;
  client_received : receiveMessageCount t = received;
}.

Lemma send_run t packet w' : server_address t = server_at -> transmit commit epoll_add me fd packet (net t) = Ret tt w' ->
  send packet t = Ret tt (with_net w' t).
Proof.
  intros Ha E. unfold send. erewrite run_bind by reflexivity. unfold in_net. cbn [sendto net_instance exchange_network].
  rewrite Ha, decide_True by done. by rewrite E.
Qed.

Lemma piece_size_packet i : 0 <= i < p ->
  request_piece id n i (size_of_piece n p i) ++ piece data i = piece_packet data id i.
Proof. intros Hi. by rewrite request_piece_eq. Qed.

Lemma piece_packet_ok i : 0 <= i < p -> bytes_ok (piece_packet data id i) /\ Z.of_nat (length (piece_packet data id i)) <= 548.
Proof.
  intros Hi. pose proof (size_of_piece_bounds n i Hi ltac:(lia)) as [Hs _]. pose proof (piece_length data i Hi).
  split; [apply Forall_app_2; [apply encode_header_ok, piece_header_wf; [exact Hn'|done|done]|by apply piece_ok]|].
  unfold piece_packet. rewrite length_app, encode_header_length. lia.
Qed.

Lemma send_piece_run i t w' acc r : client acc r t -> 0 <= i < p ->
  transmit commit epoll_add me fd (piece_packet data id i) (net t) = Ret tt w' ->
  exists t', send_piece id data i t = Ret tt t' /\ client acc r t' /\ net t' = w'.
Proof.
  intros [Ha [Hb1 Hb2] Hr Hac Hrc] Hi E. pose proof p_range. pose proof (size_of_piece_bounds n i Hi ltac:(lia)) as [Hs Hs2].
  assert (En : u32 n = n) by (apply wrap_small; unfold is_uint; lia).
  assert (Ep : u16 (n / defaultPieceLimitSize + (if n mod defaultPieceLimitSize =? 0 then 0 else 1)) = p)
    by (change (u16 p = p); apply wrap_small; unfold is_uint; lia).
  unfold send_piece. cbv zeta. rewrite !En, !Ep. fold (size_of_piece n p i).
  rewrite copy_from_spec by (change defaultPieceLimitSize with 522; lia). cbn [lift_option]. erewrite run_bind by reflexivity.
  change (slice (Z.to_nat (i * defaultPieceLimitSize)) (Z.to_nat (size_of_piece n p i)) data)
    with (slice (Z.to_nat (i * 522)) (Z.to_nat (size_of_piece n p i)) data). rewrite (Z.mul_comm i 522).
  fold (piece data i). rewrite piece_size_packet by done. unfold send_buffered. erewrite run_bind by reflexivity.
  rewrite (send_run _ _ w') by done. eexists. split; [reflexivity|]. split; [|done].
  destruct (piece_packet_ok i Hi) as [Hok Hlen]. constructor; try done. split; cbn [buffer with_buffer with_net].
  - change bufferSize with 549 in *. rewrite put_length by lia. done.
  - by apply put_ok.
Qed.

Abbreviation ack k := (sendACK_packet k id).

Lemma send_turn m : forall k t acc r, client acc r t -> progress k (net t) -> 0 <= k -> k + Z.of_nat m <= p ->
  exists t', for_each (send_piece id data) (seqZ k (Z.of_nat m)) t = Ret tt t' /\ client acc r t' /\
    progress (k + Z.of_nat m) (net t') /\ slow (net t') = slow (net t) /\
    inbox (net t') = inbox (net t) ++ map (fun k => ack k) (seqZ (k + 1) (Z.of_nat m)).
Proof.
  induction m as [|m IH]; intros k t acc r Hc Hp Hk Hm.
  { exists t. change (Z.of_nat 0) with 0. rewrite Z.add_0_r. cbn. rewrite app_nil_r. by split_and!. }
  rewrite !(seqZ_cons _ (Z.of_nat (S m))) by lia. replace (Z.pred (Z.of_nat (S m))) with (Z.of_nat m) by lia. cbn [for_each map].
  destruct (piece_transmit k (net t) Hp ltac:(lia)) as (w1 & E1 & Hp1 & Hi1 & Hs1).
  destruct (send_piece_run k t w1 acc r Hc ltac:(lia) E1) as (t1 & Et1 & Hc1 & Hn1). rewrite (run_bind _ _ _ _ _ Et1).
  subst w1. replace (Z.succ k) with (k + 1) by lia.
  destruct (IH (k + 1) t1 acc r Hc1 Hp1 ltac:(lia) ltac:(lia)) as (t2 & E2 & Hc2 & Hp2 & Hs2 & Hi2). exists t2.
  replace (k + Z.of_nat (S m)) with (k + 1 + Z.of_nat m) by lia. replace (Z.succ (k + 1)) with (k + 1 + 1) by lia. split_and!; try done; [congruence|].
  by rewrite Hi2, Hi1, <-app_assoc.
Qed.

(** A packet that waits for the client. *)
Lemma recv_packet timeout t hd body l acc r : client acc r t -> inbox (net t) = (encode_header hd ++ body) :: l ->
  header_wf hd -> bytes_ok body -> Z.of_nat (length body) <= 522 ->
  exists t' rest, recv timeout t = Ret (26 + Z.of_nat (length body)) t' /\ client acc r t' /\ needTry t' = needTry t /\
    net t' = with_inbox l (net t) /\ buffer t' = encode_header hd ++ body ++ rest /\
    parse_buffer (26 + Z.of_nat (length body)) t' = Ret (Some hd) t'.
Proof.
  intros [Ha [Hb1 Hb2] Hr Hac Hrc] Hi Hw Hok Hl.
  destruct (parsed_encode hd body (buffer t)) as (rest & E & Hok' & Hlen & Hpar); [done|by apply encode_header_ok|done..|].
  unfold recv. cbn [recvfrom net_instance exchange_network].
  assert (En : in_net (recvfrom timeout) t = Ret (Some (encode_header hd ++ body, server_at)) (with_net (with_inbox l (net t)) t)).
  { unfold in_net. cbn [recvfrom net_instance exchange_network].
    assert (Ep : pop_inbox server_at (net t) = Ret (Some (encode_header hd ++ body, server_at)) (with_inbox l (net t))).
    { unfold pop_inbox. erewrite run_bind by reflexivity. by rewrite Hi. }
    by rewrite (run_bind _ _ _ _ _ Ep). }
  cbn [recvfrom net_instance exchange_network] in En. rewrite (run_bind _ _ _ _ _ En).
  erewrite run_bind by reflexivity. change (buffer (with_net (with_inbox l (net t)) t)) with (buffer t). rewrite E.
  erewrite run_bind by reflexivity. eexists _, rest. split; [reflexivity|]. split; [|split; [done|split; [done|split; [done|]]]].
  - constructor; try done. split; cbn [buffer with_address with_buffer with_net].
    + rewrite length_app, encode_header_length. change bufferSize with 549. lia.
    + by apply Forall_app_2; [apply encode_header_ok|].
  - unfold parse_buffer. erewrite run_bind by reflexivity. cbn [buffer with_address with_buffer with_net].
    assert (Hps : parses (encode_header hd ++ body ++ rest) (26 + Z.of_nat (length body)) = true).
    { apply bool_decide_eq_true. unfold parsed in Hpar. destruct (parse _ _) as [[]|]; [by eexists|done]. }
    by rewrite Hps, Hpar.
Qed.

Definition ack_header (k : Z) : ProtocolHeader := header_with id 0 Protocol.Request ReceiverACK 0 protocolHeaderSize k.
Lemma ack_header_wf k : is_uint 16 k -> header_wf (ack_header k).
Proof. intros. apply header_with_wf; unfold is_uint, protocolHeaderSize in *; lia. Qed.

Lemma message_count : u16 (n / defaultPieceLimitSize + (if u32 n mod defaultPieceLimitSize =? 0 then 0 else 1)) = p.
Proof.
  pose proof p_range. assert (En : u32 n = n) by (apply wrap_small; unfold is_uint; lia). rewrite En.
  change (u16 p = p). apply wrap_small. unfold is_uint. lia.
Qed.

(** The acknowledgements of a turn. *)
Lemma wait_all m : forall k t r, client k r t -> inbox (net t) = map (fun k => ack k) (seqZ (k + 1) (Z.of_nat m)) -> 0 <= k ->
  k + Z.of_nat m <= p ->
  exists t', wait_acks id data m t = Ret None t' /\ client (k + Z.of_nat m) (r + Z.of_nat m) t' /\ net t' = with_inbox [] (net t).
Proof.
  induction m as [|m IH]; intros k t r Hc Hi Hk Hm.
  { exists t. change (Z.of_nat 0) with 0 in *. rewrite !Z.add_0_r. split; [done|]. split; [done|]. change (inbox (net t) = []) in Hi.
    unfold with_inbox. rewrite <-Hi. by destruct (net t). }
  pose proof p_range. rewrite seqZ_cons in Hi by lia. cbn [map] in Hi. rewrite sendACK_eq in Hi.
  replace (Z.pred (Z.of_nat (S m))) with (Z.of_nat m) in Hi by lia.
  destruct (recv_packet Invoker_timeout t (ack_header (k + 1)) [] _ k r Hc ltac:(rewrite app_nil_r; exact Hi)) as
    (t1 & rest & E1 & Hc1 & _ & Hn1 & _ & Hp1); [apply ack_header_wf; unfold is_uint; lia|constructor|cbn; lia|].
  change (26 + Z.of_nat (length [])) with 26 in *.
  cbn [wait_acks]. rewrite (run_bind _ _ _ _ _ E1). change (0 <? 26) with true. cbv iota. rewrite (run_bind _ _ _ _ _ Hp1).
  change (timePoint (ack_header (k + 1))) with id. rewrite Z.eqb_refl. cbn [negb]. erewrite run_bind by reflexivity.
  change (phase (ack_header (k + 1))) with Protocol.Request. change (type (ack_header (k + 1))) with ReceiverACK. cbv iota.
  erewrite run_bind by reflexivity. destruct Hc1 as [Ha1 Hb1 Hr1 Hac1 Hrc1]. cbn [accepted with_tries with_received]. rewrite Hac1.
  change (acceptOrder (ack_header (k + 1))) with (k + 1). rewrite (proj2 (Z.ltb_lt k (k + 1))) by lia. erewrite run_bind by reflexivity.
  match goal with |- context [(if _ then _ else _) ?x] => set (t2 := x) end.
  assert (Hc2 : client (k + 1) (r + 1) t2) by (constructor; [done..|cbn; by rewrite Hrc1]).
  assert (Hn2 : net t2 = with_inbox (map (fun k => ack k) (seqZ (k + 1 + 1) (Z.of_nat m))) (net t))
    by (cbn; rewrite Hn1; do 3 f_equal; lia).
  pose proof message_count as Ecount. cbv zeta. rewrite Ecount.
  destruct (Z.eqb_spec (k + 1) p) as [Hkp|].
  - assert (m = 0%nat) as -> by lia. exists t2. split; [done|]. split; [|exact Hn2]. by replace (Z.of_nat 1) with 1 by lia.
  - destruct (IH (k + 1) t2 (r + 1) Hc2) as (t3 & E3 & Hc3 & Hn3); [by rewrite Hn2|lia|lia|]. exists t3.
    replace (k + Z.of_nat (S m)) with (k + 1 + Z.of_nat m) by lia. replace (r + Z.of_nat (S m)) with (r + 1 + Z.of_nat m) by lia.
    split; [done|]. split; [done|]. by rewrite Hn3, Hn2.
Qed.

Lemma turn_size_range k : 0 <= k < p -> 0 < turn_size data k /\ k + turn_size data k <= p.
Proof.
  intros Hk. pose proof p_range. unfold turn_size. rewrite message_count.
  assert (Hs : 1 <= getSendCount p <= 7).
  { unfold getSendCount. destruct (_ <=? 3); [lia|]. destruct (_ && _); [lia|]. destruct (_ && _); lia. }
  replace (u16 (k + getSendCount p)) with (k + getSendCount p) by (symmetry; apply wrap_small; unfold is_uint; lia). lia.
Qed.

(** Phase 1: every piece is sent once, and acknowledged. *)
Lemma phase1 fuel : forall k t r, client k r t -> r <> 0 -> progress k (net t) -> inbox (net t) = [] -> 0 <= k <= p ->
  p - k < Z.of_nat fuel ->
  exists t' r', phase_request id data fuel t = Ret Next t' /\ client p r' t' /\ progress p (net t') /\ inbox (net t') = [] /\
    slow (net t') = slow (net t).
Proof.
  induction fuel as [|fuel IH]; intros k t r Hc Hr Hp Hi Hk Hf; [lia|]. cbn [phase_request]. erewrite run_bind by reflexivity.
  rewrite message_count, (client_accepted _ _ _ Hc), (client_received _ _ _ Hc).
  destruct (Z.eqb_spec k p) as [->|Hne]; [by exists t, r|]. rewrite (proj2 (Z.eqb_neq r 0)) by done.
  destruct (turn_size_range k ltac:(lia)) as [Hm1 Hm2]. set (m := turn_size data k) in *.
  replace m with (Z.of_nat (Z.to_nat m)) by lia. set (mn := Z.to_nat m) in *. rewrite Nat2Z.id.
  destruct (send_turn mn k t k r Hc Hp ltac:(lia) ltac:(lia)) as (t1 & E1 & Hc1 & Hp1 & Hs1 & Hi1).
  rewrite (run_bind _ _ _ _ _ E1). erewrite run_bind by reflexivity.
  set (t2 := with_received 0 t1). destruct Hc1 as [Ha1 Hb1 Hre1 Hac1 Hrc1].
  assert (Hc2 : client k 0 t2) by (by constructor).
  destruct (wait_all mn k t2 0 Hc2) as (t3 & E3 & Hc3 & Hn3);
    [change (net t2) with (net t1); by rewrite Hi1, Hi|lia|lia|]. rewrite (run_bind _ _ _ _ _ E3).
  erewrite run_bind by reflexivity. rewrite (client_received _ _ _ Hc3), (proj2 (Z.eqb_neq _ 0)) by lia.
  destruct (IH (k + Z.of_nat mn) t3 (0 + Z.of_nat mn) Hc3 ltac:(lia)) as (t4 & r4 & E4 & Hc4 & Hp4 & Hi4 & Hs4);
    [rewrite Hn3; by apply (progress_main _ (net t1))|by rewrite Hn3|lia|lia|].
  exists t4, r4. split_and!; try done. by rewrite Hs4, Hn3, <-Hs1.
Qed.

(** ** While the server computes *)
Definition computing (e : Z) s (c : VirtualConnection) : Prop :=
  responses c !! id = None /\ id ∈ received_messages c /\ app_state s = st /\ quiet e s /\
  exists block, pending s = [the_task data id me vc block] /\ pool s !! block = Some data.

Lemma all_pieces w : progress p w -> connected (computing d) w.
Proof.
  pose proof p_range. unfold progress. rewrite decide_False by lia. intros (Hq & s & c & H1 & H2 & H3 & H4 & H5 & H6 & H7 & H8).
  destruct H8 as (_ & R1 & R2 & R3 & R4 & R5). rewrite decide_True in R5 by done. split; [done|]. exists s, c. unfold computing. split_and!; try done. by apply R2.
Qed.

Lemma heartbeat_transmit e w : 0 <= e -> connected (computing e) w ->
  exists w', transmit commit epoll_add me fd (request_heartbeat_packet id Protocol.Response) w = Ret tt w' /\
    connected (computing e) w' /\ inbox w' = inbox w ++ [sendHeartbeat_packet id Protocol.Response] /\ slow w' = slow w.
Proof.
  intros He Hw. rewrite <-(packets_one (sendHeartbeat_packet id Protocol.Response)).
  apply (transmit_run (computing e)); [done|]. intros s c Hs Hc (R1 & R2 & R3 & R4 & block & R5 & R6) Hb Hf Ha.
  destruct (heartbeat_run commit id me vc s c Hb Hc R2 R1 Hid) as
    (s2 & c2 & E & Hc2 & Hf2 & Ha2 & Hrm2 & Hr2 & Hs2 & Hp2 & Hk2 & Hn2 & Happ2 & Hpe2 & Ht2 & Hb2).
  exists s2, c2. rewrite Hf in Hs2. split_and!; try done; [eapply quiet_mono; [|exact R4]; lia|].
  split; [by rewrite Hr2|]. split; [by rewrite Hrm2|]. split; [congruence|].
  split; [unfold quiet in *; by rewrite Ht2, Hk2|]. exists block. by rewrite Hpe2, Hp2.
Qed.

(** A turn in which the pool is still busy. *)
Lemma busy_turn e e' w k : 0 <= e' <= e -> connected (computing e) w -> slow w = S k -> inbox w = [] ->
  exists w', wait commit epoll_add services me fd (e' * 1000) w = Ret tt w' /\ connected (computing (e - e')) w' /\
    inbox w' = [] /\ slow w' = k.
Proof.
  intros He (Hq & s & c & Hs & Hc & Hf & Ha & Ho & Hnew & Hb & R1 & R2 & R3 & R4 & block & R5 & R6) Hsl Hi.
  pose proof (lookup_lt_Some _ _ _ Hs). unfold wait. erewrite run_bind by reflexivity. unfold mine. rewrite Hq.
  cbn [fmap option_fmap option_map SubReactor_index]. rewrite Hsl. erewrite run_bind by reflexivity.
  rewrite Z.div_mul by lia. set (w1 := with_slow k w).
  assert (E : turn commit epoll_add e' [] s = Ret tt (with_clock (clock s + e') s)).
  { unfold turn. erewrite run_bind by reflexivity. by rewrite (quiet_turn commit epoll_add e e') by (done || lia). }
  rewrite (on_sub_run w1 s _ (with_clock (clock s + e') s) [] Hs E) by (by rewrite app_nil_r).
  eexists. split; [reflexivity|]. cbn. rewrite Hi. split; [|done]. split; [done|].
  exists (with_clock (clock s + e') s), c. split; [cbn; by apply list_lookup_insert_eq|]. split_and!; try done.
  split_and!; try done; [|by exists block]. apply quiet_later; [done|lia].
Qed.

Lemma client_with_net acc r t w : client acc r t -> client acc r (with_net w t).
Proof. by intros []. Qed.

Lemma pop_empty w : inbox w = [] -> pop_inbox server_at w = Ret None w.
Proof. intros Hi. unfold pop_inbox. erewrite run_bind by reflexivity. by rewrite Hi. Qed.
Lemma pop_full w x l : inbox w = x :: l -> pop_inbox server_at w = Ret (Some (x, server_at)) (with_inbox l w).
Proof. intros Hi. unfold pop_inbox. erewrite run_bind by reflexivity. by rewrite Hi. Qed.

(** Receiving when nothing is there. *)
Lemma recv_wait timeout t w1 : inbox (net t) = [] -> wait commit epoll_add services me fd timeout (net t) = Ret tt w1 ->
  recv timeout t = if decide (inbox w1 = []) then Ret (-1) (with_net w1 t) else recv timeout (with_net w1 t).
Proof.
  intros Hi E. unfold recv.
  assert (En : in_net (recvfrom timeout) t = match pop_inbox server_at w1 with
    Ret a w => Ret a (with_net w t) | Throw e w => Throw e (with_net w t) | Undefined => Undefined end).
  { unfold in_net. cbn [recvfrom net_instance exchange_network]. rewrite (run_bind _ _ _ _ _ (pop_empty _ Hi)).
    by rewrite (run_bind _ _ _ _ _ E). }
  destruct (inbox w1) as [|x l] eqn:Ei.
  - rewrite (pop_empty _ Ei) in En. by rewrite (run_bind _ _ _ _ _ En), decide_True.
  - rewrite (pop_full _ _ _ Ei) in En. rewrite (run_bind _ _ _ _ _ En), decide_False by done.
    assert (En2 : in_net (recvfrom timeout) (with_net w1 t) = Ret (Some (x, server_at)) (with_net (with_inbox l w1) t)).
    { unfold in_net. cbn [recvfrom net_instance exchange_network net with_net]. by rewrite (run_bind _ _ _ _ _ (pop_full _ _ _ Ei)). }
    by rewrite (run_bind _ _ _ _ _ En2).
Qed.

Definition heartbeat_header : ProtocolHeader := header_with id 0 Protocol.Request TimedOutResponseHeartbeat 0 protocolHeaderSize 0.
Lemma heartbeat_header_wf : header_wf heartbeat_header.
Proof. apply header_with_wf; unfold is_uint, protocolHeaderSize in *; lia. Qed.

(** One timeout of the client: it asks, and the server says that it is there. *)
Lemma slow_turn fuel e t r k : client p r t -> connected (computing e) (net t) -> inbox (net t) = [] -> slow (net t) = S k ->
  600 <= e -> needTry t = tryTimes ->
  exists t', phase_response id (S (S fuel)) t = phase_response id fuel t' /\ client p r t' /\
    connected (computing (e - 600)) (net t') /\ inbox (net t') = [] /\ slow (net t') = k /\ needTry t' = tryTimes.
Proof.
  intros Hc Hw Hi Hs He Ht. destruct (busy_turn e 600 (net t) k ltac:(lia) Hw Hs Hi) as (w1 & E1 & Hw1 & Hi1 & Hs1).
  cbn [phase_response]. assert (Er : recv WaitingTimeout t = Ret (-1) (with_net w1 t))
    by (change WaitingTimeout with (600 * 1000); rewrite (recv_wait _ _ w1) by done; by rewrite decide_True).
  rewrite (run_bind _ _ _ _ _ Er). change (0 <? -1) with false. cbv iota. do 2 (erewrite run_bind by reflexivity).
  cbn [needTry with_net]. rewrite Ht.
  destruct (heartbeat_transmit (e - 600) w1 ltac:(lia) Hw1) as (w2 & E2 & Hw2 & Hi2 & Hs2).
  set (t1 := with_tries (tryTimes - 1) (with_net w1 t)).
  assert (Es : send (request_heartbeat_packet id Protocol.Response) t1 = Ret tt (with_net w2 t1))
    by (apply send_run; [by apply Hc|exact E2]).
  rewrite (run_bind _ _ _ _ _ Es). change (tryTimes - 1 <=? 0) with false. cbv iota.
  assert (Hc2 : client p r (with_net w2 t1)) by (destruct Hc; by constructor).
  rewrite Hi1 in Hi2. cbn [app] in Hi2. rewrite sendHeartbeat_eq in Hi2.
  destruct (recv_packet WaitingTimeout (with_net w2 t1) heartbeat_header [] [] p r Hc2) as
    (t2 & rest & E3 & Hc3 & _ & Hn3 & _ & Hp3);
    [cbn [net with_net]; by rewrite app_nil_r|apply heartbeat_header_wf|constructor|cbn; lia|].
  change (26 + Z.of_nat (length [])) with 26 in *. rewrite (run_bind _ _ _ _ _ E3). change (0 <? 26) with true. cbv iota.
  rewrite (run_bind _ _ _ _ _ Hp3). change (timePoint heartbeat_header) with id. rewrite Z.eqb_refl. cbn [negb].
  erewrite run_bind by reflexivity. change (phase heartbeat_header) with Protocol.Request. cbv iota.
  exists (with_tries tryTimes t2). split; [done|]. split; [destruct Hc3; by constructor|]. cbn [net with_tries]. rewrite Hn3.
  split_and!; try done. cbn. congruence.
Qed.

Lemma slow_loop k : forall fuel e t r, client p r t -> connected (computing e) (net t) -> inbox (net t) = [] ->
  slow (net t) = k -> 600 * Z.of_nat k <= e -> needTry t = tryTimes ->
  exists t', phase_response id (2 * k + fuel) t = phase_response id fuel t' /\ client p r t' /\
    connected (computing (e - 600 * Z.of_nat k)) (net t') /\ inbox (net t') = [] /\ slow (net t') = 0%nat /\ needTry t' = tryTimes.
Proof.
  induction k as [|k IH]; intros fuel e t r Hc Hw Hi Hs He Ht.
  { exists t. replace (e - 600 * Z.of_nat 0) with e by lia. by split_and!. }
  replace (2 * S k + fuel)%nat with (S (S (2 * k + fuel))) by lia.
  destruct (slow_turn (2 * k + fuel) e t r k Hc Hw Hi Hs ltac:(lia) Ht) as (t1 & E1 & Hc1 & Hw1 & Hi1 & Hs1 & Ht1).
  destruct (IH fuel (e - 600) t1 r Hc1 Hw1 Hi1 Hs1 ltac:(lia) Ht1) as (t2 & E2 & H2). exists t2. rewrite E1, E2.
  replace (e - 600 * Z.of_nat (S k)) with (e - 600 - 600 * Z.of_nat k) by lia. done.
Qed.

(** ** The answer *)
Section Answer.
Variables (result : bytes) (st' : St).
Abbreviation count := (Z.of_nat (length result)).
Hypotheses (Hcount : 0 < count <= 65535 * 522) (Hresult : bytes_ok result).
Hypothesis Hanswer : answer services me data st = Ret result st'.

Definition answered s (c : VirtualConnection) : Prop :=
  id ∈ received_messages c /\ app_state s = st' /\ pending s = [] /\ quiet 0 s /\
  exists dt now, responses c !! id = Some (stored_response (sv id me) dt result now) /\ pool s !! dt = None.

Definition first_answer : bytes :=
  response_piece id count 0 (size_of_piece count (pieces count) 0) ++ piece result 0.

Lemma answer_wait timeout e w : 5 <= e < RequestTimeOut -> connected (computing e) w -> slow w = 0%nat -> inbox w = [] ->
  exists w', wait commit epoll_add services me fd timeout w = Ret tt w' /\ connected answered w' /\ inbox w' = [first_answer].
Proof.
  intros He (Hq & s & c & Hs & Hc & Hf & Ha & Ho & Hnew & Hb & R1 & R2 & R3 & R4 & block & R5 & R6) Hsl Hi.
  pose proof (lookup_lt_Some _ _ _ Hs). pose proof (lookup_lt_Some _ _ _ Hc).
  rewrite <-R3 in Hanswer.
  destruct (answer_turn commit epoll_add services data id me vc result st' Hcount e s c block He R4 Hnew Hc Ha R1 R5 R6 Hanswer) as
    (s1 & c1 & dt & E & Hc1 & Hf1 & Ha1 & Hrm1 & Hr1 & Hs1 & Hd1 & Hk1 & Hn1 & Happ1 & Hp1 & Hq1 & Hb1).
  unfold wait. erewrite run_bind by reflexivity. unfold mine. rewrite Hq.
  cbn [fmap option_fmap option_map SubReactor_index]. rewrite Hsl. rewrite Hf in Hs1.
  rewrite (run_bind _ _ _ _ _ (on_sub_run w s (run_pool_task services ;; turn commit epoll_add 5 []) s1 _ Hs E Hs1)).
  rewrite packets_one, Hi. erewrite run_bind by reflexivity. cbn [inbox Datatypes.app].
  eexists. split; [reflexivity|]. split; [|done]. split; [done|].
  exists s1, c1. split; [cbn; by apply list_lookup_insert_eq|]. split; [rewrite Hc1; by apply list_lookup_insert_eq|].
  split; [congruence|]. split; [done|]. split.
  { intros i x Hx Hfx. destruct (decide (i = vc)) as [|Hne]; [done|]. rewrite Hc1, list_lookup_insert_ne in Hx by done. by eapply Ho. }
  split; [done|]. split; [unfold buffer_ok; by rewrite Hb1|].
  split; [by rewrite Hrm1|]. split; [done|]. split; [done|]. split; [eapply quiet_mono; [|exact Hq1]; lia|].
  exists dt, (clock s1). split; [rewrite Hr1; apply lookup_insert_eq|done].
Qed.

Definition finished s (c : VirtualConnection) : Prop := app_state s = st' /\ pending s = [].

(** The acknowledgement of the first piece: the call is over, or the server is. *)
Lemma ack_transmit_short w : count <= 522 -> connected answered w ->
  exists w', transmit commit epoll_add me fd (sendResponseACK_packet 1 id) w = Ret tt w' /\ connected finished w'.
Proof.
  intros Hs Hw. destruct (transmit_run answered finished w (sendResponseACK_packet 1 id) [] Hw) as (w' & E & Hc & _); [|by exists w'].
  intros s c _ Hc (R1 & R2 & R3 & R4 & dt & now & R5 & R6) Hb Hf Ha.
  destruct (ack_run commit vc (sv id me) result s c me _ 1 Hb Hc R1 R5 Hid ltac:(done) ltac:(done)) as
    (s2 & c2 & E2 & Hc2 & Hf2 & Ha2 & _ & _ & _ & _ & Hs2 & _ & Hn2 & Happ2 & Hp2 & _ & Hb2).
  exists s2, c2. rewrite sendResponseACK_eq. pose proof (pieces_bounds count ltac:(lia)).
  cbn [response_pieces stored_response Response_copy Response_make] in E2.
  rewrite (proj2 (Z.eqb_eq 1 (pieces count))) in E2 by lia.
  split_and!; try done; [by rewrite app_nil_r|]. split; congruence.
Qed.

Lemma ack_transmit_long w : 522 < count -> connected answered w ->
  transmit commit epoll_add me fd (sendResponseACK_packet 1 id) w = Undefined.
Proof.
  intros Hl Hw. unfold transmit. erewrite run_bind by reflexivity. rewrite (connected_route _ w Hw).
  destruct Hw as (Hq & s & c & Hs & Hc & Hf & Ha & Ho & Hnew & Hb & R1 & R2 & R3 & R4 & dt & now & R5 & R6).
  unfold on_sub. rewrite Hs. unfold turn, mbind, M_bind. cbn [get_state]. rewrite Z.add_0_r.
  rewrite (datagram_turn commit epoll_add 0) by done. rewrite sendResponseACK_eq.
  by rewrite (second_piece_undefined commit vc (sv id me) dt result Hcount s c me now).
Qed.

Definition answer_header : ProtocolHeader :=
  header_with id count Protocol.Response RequestSend 0 (size_of_piece count (pieces count) 0) 0.
Definition answer_response : ResponseData :=
  with_pieces (prefix (pieces count) 1) (put 0 (piece result 0) (fresh_block count))
    (ResponseData_initialize id (pieces count) count ResponseData_new).

Lemma answer_pieces : 0 < pieces count <= 65535 /\ (pieces count = 1 <-> count <= 522).
Proof. pose proof (pieces_bounds count ltac:(lia)). lia. Qed.

Lemma answer_header_wf : header_wf answer_header.
Proof.
  pose proof answer_pieces. pose proof (size_of_piece_bounds count 0 ltac:(lia) ltac:(lia)).
  apply header_with_wf; unfold is_uint in *; lia.
Qed.

(** The client stores the piece, and acknowledges it. *)
Lemma accept_answer t rest : response t = ResponseData_new -> buffer t = encode_header answer_header ++ piece result 0 ++ rest ->
  accept_piece answer_header t = Ret 1 (with_response answer_response t).
Proof.
  intros Hr Hb. pose proof answer_pieces as [Hp _]. pose proof (size_of_piece_bounds count 0 ltac:(lia) ltac:(lia)) as [Hs1 Hs2].
  pose proof (piece_length result 0 ltac:(lia)) as Hpl. pose proof (fresh_block_length count ltac:(lia)) as Hfl.
  unfold accept_piece. erewrite run_bind by reflexivity. rewrite Hr. erewrite run_bind by reflexivity. cbv zeta.
  change (totalCount answer_header) with (piece_count count). rewrite piece_count_pieces by lia.
  cbn [response with_response ResponseData_initialize is_initial ResponseData_new piece_total piece_state Pieces.data].
  change (pieceOrder answer_header) with 0.
  assert (Hget : replicate (Z.to_nat (pieces count)) false !! Z.to_nat 0 = Some false) by (apply lookup_replicate; split; [done|lia]).
  unfold getPieceState. rewrite (proj2 (Z.ltb_ge (pieces count) 0)) by lia. rewrite Hget. erewrite run_bind by reflexivity.
  cbn [buffer with_response]. rewrite Hb. change (pieceSize answer_header) with (size_of_piece count (pieces count) 0).
  assert (Hcf : copy_from protocolHeaderSize (size_of_piece count (pieces count) 0) (encode_header answer_header ++ piece result 0 ++ rest)
    = Some (piece result 0)).
  { unfold protocolHeaderSize. rewrite copy_from_spec; [|lia|lia|rewrite !length_app, encode_header_length; lia].
    change (Z.to_nat 26) with 26%nat. unfold slice. rewrite drop_app_length' by (by rewrite encode_header_length).
    f_equal. apply take_app_length'. lia. }
  rewrite Hcf. cbn [lift_option]. rewrite run_bind_assoc. erewrite run_bind by reflexivity.
  change (0 * defaultPieceLimitSize) with 0. change (totalSize answer_header) with count.
  rewrite copy_to_spec by lia. erewrite run_bind by reflexivity.
  unfold setPieceState. rewrite (proj2 (Z.ltb_ge (pieces count) 0)) by lia.
  rewrite decide_True by (rewrite length_replicate; lia). do 2 (erewrite run_bind by reflexivity).
  rewrite <-(prefix_0 (pieces count)) by lia. rewrite prefix_set by lia. change (0 + 1) with 1. rewrite prefix_ack by lia.
  done.
Qed.

Lemma answer_complete : count <= 522 -> Pieces.data answer_response = result.
Proof.
  intros Hs. pose proof answer_pieces as [Hp H1]. apply H1 in Hs.
  pose proof (fresh_block_length count ltac:(lia)) as Hfl. cbn [answer_response with_pieces Pieces.data].
  apply (holds_all result _ (<[Z.to_nat 0 := true]> (replicate (Z.to_nat (pieces count)) false))).
  - apply (holds_put _ _ _ 0); [apply holds_fresh; lia|lia].
  - rewrite <-(prefix_0 (pieces count)) by lia. rewrite prefix_set by lia. rewrite prefix_ack by lia. by rewrite Hs.
Qed.

Lemma phase2 fuel e t r : client p r t -> connected (computing e) (net t) -> inbox (net t) = [] -> slow (net t) = 0%nat ->
  5 <= e < RequestTimeOut ->
  (count <= 522 -> exists t', phase_response id (S fuel) t = Ret Next t' /\ response t' = answer_response /\
     connected finished (net t')) /\
  (522 < count -> phase_response id (S fuel) t = Undefined).
Proof.
  intros Hc Hw Hi Hs He. pose proof answer_pieces as [Hp H1]. pose proof (size_of_piece_bounds count 0 ltac:(lia) ltac:(lia)) as [Hs1 _].
  pose proof (piece_length result 0 ltac:(lia)) as Hpl.
  destruct (answer_wait WaitingTimeout e (net t) He Hw Hs Hi) as (w1 & E1 & Hw1 & Hi1).
  unfold first_answer in Hi1. rewrite response_piece_eq in Hi1. fold answer_header in Hi1.
  destruct (recv_packet WaitingTimeout (with_net w1 t) answer_header (piece result 0) [] p r (client_with_net _ _ _ _ Hc) Hi1) as
    (t2 & rest & E3 & Hc3 & _ & Hn3 & Hb3 & Hp3); [apply answer_header_wf|by apply piece_ok|lia|].
  assert (Er : recv WaitingTimeout t = Ret (26 + Z.of_nat (length (piece result 0))) t2)
    by (rewrite (recv_wait _ _ w1) by done; rewrite decide_False by (by rewrite Hi1); exact E3).
  assert (E : phase_response id (S fuel) t = (send (sendResponseACK_packet 1 id) ;;
      s ← get_state;
      if 1 =? piece_total (response s) then mret Next else phase_response id fuel)
      (with_response answer_response (with_tries tryTimes t2))).
  { cbn [phase_response]. rewrite (run_bind _ _ _ _ _ Er). rewrite (proj2 (Z.ltb_lt 0 _)) by lia.
    rewrite (run_bind _ _ _ _ _ Hp3). change (timePoint answer_header) with id. rewrite Z.eqb_refl. cbn [negb].
    erewrite run_bind by reflexivity. change (phase answer_header) with Protocol.Response.
    change (type answer_header) with RequestSend. cbv iota.
    destruct Hc3. by rewrite (run_bind _ _ _ _ _ (accept_answer (with_tries tryTimes t2) rest ltac:(done) ltac:(done))). }
  set (t3 := with_response answer_response (with_tries tryTimes t2)) in *.
  assert (Hw3 : connected answered (net t3)) by (cbn; rewrite Hn3; exact Hw1). split; intros Hshort; rewrite E.
  - destruct (ack_transmit_short (net t3) Hshort Hw3) as (w4 & E4 & Hw4).
    assert (Hsend : send (sendResponseACK_packet 1 id) t3 = Ret tt (with_net w4 t3)) by (apply send_run; [by apply Hc3|done]).
    rewrite (run_bind _ _ _ _ _ Hsend). erewrite run_bind by reflexivity.
    change (piece_total (response (with_net w4 t3))) with (pieces count). rewrite (proj2 (Z.eqb_eq 1 _)) by (symmetry; by apply H1).
    by eexists.
  - assert (Hsend : send (sendResponseACK_packet 1 id) t3 = Undefined).
    { unfold send. erewrite run_bind by reflexivity. unfold in_net. cbn [sendto net_instance exchange_network].
      rewrite decide_True by (by apply Hc3). by rewrite (ack_transmit_long (net t3) Hshort Hw3). }
    unfold mbind, M_bind. by rewrite Hsend.
Qed.

(** A request over a network that loses nothing: the client sends every piece once, asks in
    each of its timeouts and goes on waiting; then the services have been called once, with
    the message, and a client whose answer fits in one piece has it.  A longer answer is
    never received. *)
Lemma request_answered (client_services : list (middleware_service (session (world St) address))) fuel t _data :
  Z.of_nat (length _data) <= 1024 * 1024 * 100 -> ClientOut client_services _data t = Ret data t ->
  server_address t = server_at -> buffer_fine t -> idle (net t) -> inbox (net t) = [] ->
  600 * Z.of_nat (slow (net t)) + 5 <= d -> p < Z.of_nat fuel -> (2 * slow (net t) < fuel)%nat ->
  (count <= 522 -> forall out, (forall t', ClientIn client_services result t' = Ret out t') ->
     exists t' r, request client_services fuel id _data t = Ret (Some r) t' /\
       isSuccess r = true /\ Pieces.data r = out /\ connected finished (net t')) /\
  (522 < count -> request client_services fuel id _data t = Undefined).
Proof.
  intros Hlen Hout Ha Hb Hidle Hi Hslow Hf1 Hf2. pose proof p_range as Hp.
  set (t1 := Session (net t) (server_address t) (buffer t) 0 tryTimes 1 ResponseData_new).
  assert (Hc1 : client 0 1 t1) by (by constructor).
  destruct (phase1 fuel 0 t1 1 Hc1 ltac:(done) ltac:(exact Hidle) Hi ltac:(lia) ltac:(lia)) as (t2 & r2 & E2 & Hc2 & Hp2 & Hi2 & Hs2).
  change (slow (net t1)) with (slow (net t)) in Hs2. set (t3 := with_tries tryTimes t2).
  assert (Hc3 : client p r2 t3) by (destruct Hc2; by constructor).
  destruct (slow_loop (slow (net t)) (fuel - 2 * slow (net t)) d t3 r2 Hc3 (all_pieces _ Hp2) Hi2 Hs2 ltac:(lia) eq_refl) as
    (t4 & E4 & Hc4 & Hw4 & Hi4 & Hs4 & _).
  replace (2 * slow (net t) + (fuel - 2 * slow (net t)))%nat with fuel in E4 by lia.
  destruct (fuel - 2 * slow (net t))%nat as [|fuel'] eqn:Ef; [lia|].
  destruct (phase2 fuel' _ t4 r2 Hc4 Hw4 Hi4 Hs4 ltac:(lia)) as [H1 H2].
  assert (E : request client_services fuel id _data t = (r ← phase_response id fuel;
      match r with
      | Running => mret None
      | Answer answer => mret (Some answer)
      | Next => s ← get_state; d ← ClientIn client_services (Pieces.data (response s)); mret (Some (succeeded d (response s)))
      end) t3).
  { unfold request. rewrite (proj2 (Z.ltb_ge _ _)) by lia. rewrite (run_bind _ _ _ _ _ Hout). erewrite run_bind by reflexivity.
    fold t1. rewrite (run_bind _ _ _ _ _ E2). by erewrite run_bind by reflexivity. }
  rewrite E. split.
  - intros Hs out Hin. destruct (H1 Hs) as (t5 & E5 & Hr5 & Hw5). rewrite <-E4 in E5. rewrite (run_bind _ _ _ _ _ E5).
    erewrite run_bind by reflexivity. rewrite Hr5, (answer_complete Hs). rewrite (run_bind _ _ _ _ _ (Hin t5)).
    by eexists _, _.
  - intros Hl. unfold mbind at 1, M_bind at 1. by rewrite E4, (H2 Hl).
Qed.
End Answer.
End Theorems.
