(* ===== verification/Registry.v ===== *)
(** * Methods by name: [registry.hpp], [synchronous_registry.hpp], [route_service.cpp],
    [client.hpp]

    A method is registered under a name.  The last service of the channel reads the name
    and the arguments of a message, runs the method, and answers with a header and the
    result; the client writes the message and reads the answer.  A method is a function on
    the state of the program that may throw; the mutex of a synchronous method, taken
    around the whole call, is not modelled, because methods run one after the other. *)
From S2P Require Import Prelude Stream Serializer SerializerLaws Effects Pieces Middleware.

(** ** The header of an answer *)
Inductive RpcFailureReason :=
| Success | ParameterError | MethodNotExist | ClientInnerException | ServerInnerException
| MethodExecutionError | UnexpectedReturnValue.

(** The value of an enumerator. *)
Definition reason_code (r : RpcFailureReason) : Z :=
  match r with
  | Success => 0 | ParameterError => 1 | MethodNotExist => 2 | ClientInnerException => 3
  | ServerInnerException => 4 | MethodExecutionError => 5 | UnexpectedReturnValue => 6
  end.

Record RpcResponseHeader := { ok : bool; header_reason : num S_int32 }.

Abbreviation header_pack := (bool * (num S_int32 * unit))%type.
Definition header_fields_of (r : RpcResponseHeader) : header_pack := (ok r, (header_reason r, tt)).
Section Header.
Context {h : Host}.
#[export] Program Instance header_muse : MuseFields RpcResponseHeader header_pack := {|
  to_fields := header_fields_of;
  of_fields '(o, (r, _)) := {| ok := o; header_reason := r |};
  copy r := r;
|}.
Next Obligation. by intros []. Qed.

End Header.

Definition header_new : RpcResponseHeader := {| ok := false; header_reason := Num (reason_code Success) |}.
Definition setOkState (_ok : bool) (r : RpcResponseHeader) : RpcResponseHeader :=
  {| ok := _ok; header_reason := header_reason r |}.
Definition setReason (_reason : RpcFailureReason) (r : RpcResponseHeader) : RpcResponseHeader :=
  {| ok := ok r; header_reason := Num (reason_code _reason) |}.

Section HeaderWire.
Context {h : Host}.
(** How it is written. *)
#[export] Instance header_serializable : Serializable RpcResponseHeader := ser_fields (P := header_pack).
#[export] Instance header_laws : SerializerLaws RpcResponseHeader.
Proof. refine (fields_laws (P := header_pack) _). by split_and!. Defined.

End HeaderWire.

(** What a call ends in: the value, the header of the answer, and a failure of the protocol. *)
Record Outcome {Res : Type} := { value : Res; outcome_response : RpcResponseHeader; protocolReason : FailureReason }.
Arguments Outcome Res : clear implicits.

Definition isOK {Res} (o : Outcome Res) : bool :=
  ok (outcome_response o) && match protocolReason o with OK => true | _ => false end.

(** ** Running a serializer

    A [BinarySerializerException] is thrown on, with the serializer as it is then; an
    access outside the buffer and a loop without end are undefined. *)
Section Registry.
Context {h : Host} {St : Type}.
Abbreviation MS := (M St).

Definition ser_run {A} (m : R BinarySerializer A) (serializer : BinarySerializer) : MS ((ErrorNumber + A) * BinarySerializer) :=
  match m serializer with
  | (Ok a, s) => mret (inr a, s)
  | (Err (Stream.Throw e), s) => mret (inl e, s)
  | _ => undefined
  end.

(** [input(header)] on a cleared serializer. *)
Definition answer_with (header : RpcResponseHeader) (serializer : BinarySerializer) : MS BinarySerializer :=
  r ← ser_run (input header) (clear serializer);
  match r with
  | (inr _, s) => mret s
  | (inl _, _) => throw StdException
  end.

(** ** Methods *)
Section CallBind.
Context {A : Type} {PA : ArgPack A} `{!Serializable (tuple A)}.

(** [MUSE_REGISTRY_CHECK_PARAMETERS] and the call: what [after] writes behind the header
    is the result. *)
Definition callBind_with (func : A -> MS (R BinarySerializer unit)) (serializer : BinarySerializer) : MS BinarySerializer :=
  r ← ser_run (output (Tuple default_pack)) serializer;
  match r with
  | (inl _, s) => answer_with (setReason ParameterError header_new) s
  | (inr tpl, s) =>
      r ← attempt (func (tuple_fields tpl));
      match r with
      | inl _ => answer_with (setReason MethodExecutionError header_new) s
      | inr result =>
          r ← ser_run (_ ← input (setOkState true header_new); result) (clear s);
          match r with
          | (inr _, s) => mret s
          | (inl _, s) => answer_with (setReason MethodExecutionError (setOkState true header_new)) s
          end
      end
  end.

(** A method with a result, and one without. *)
Definition callBind {Res} `{Serializable Res} (func : A -> MS Res) : BinarySerializer -> MS BinarySerializer :=
  callBind_with (fun args => v ← func args; mret (input v)).
Definition callBind_void (func : A -> MS unit) : BinarySerializer -> MS BinarySerializer :=
  callBind_with (fun args => func args ;; mret (mret tt)).
End CallBind.

(** ** The registries *)
Definition dictionary := (gmap bytes (BinarySerializer -> MS BinarySerializer)).

Definition Bind (name : cstring) (func : BinarySerializer -> MS BinarySerializer) (d : dictionary) : bool * dictionary :=
  match d !! str_bytes name with
  | None => (true, <[str_bytes name := func]> d)
  | Some _ => (false, d)
  end.
Definition check (name : cstring) (d : dictionary) : bool := bool_decide (is_Some (d !! str_bytes name)).

(** A [std::function] that is empty throws when it is called. *)
Definition runEnsured (name : cstring) (d : dictionary) (serializer : BinarySerializer) : MS BinarySerializer :=
  match d !! str_bytes name with Some f => f serializer | None => throw StdException end.
Definition runSafely (name : cstring) (d : dictionary) (serializer : BinarySerializer) : MS BinarySerializer :=
  if check name d then runEnsured name d serializer else mret serializer.
(** [SynchronousRegistry]: both take the mutex of a null pointer when there is no method. *)
Definition runEnsured_sync (name : cstring) (d : dictionary) (serializer : BinarySerializer) : MS BinarySerializer :=
  match d !! str_bytes name with Some f => f serializer | None => undefined end.

(** ** [RouteService] *)
Variables registry concurrent_registry : dictionary.

Definition RouteService_In (data : bytes) : MS bytes :=
  w ← ser_run (write data) BinarySerializer_new;
  let serializer := w.2 in
  s ← try_catch
    (r ← ser_run (output (Str [])) serializer;
     match r with
     | (inl _, _) => throw StdException
     | (inr request_name, s) =>
         let isExist := check request_name registry in
         let isExistConcurrent := check request_name concurrent_registry in
         if negb (isExist || isExistConcurrent) then
           answer_with (setReason MethodNotExist (setOkState false header_new)) s
         else if isExist then runEnsured request_name registry s
         else runEnsured_sync request_name concurrent_registry s
     end)
    (fun _ => answer_with (setReason MethodExecutionError (setOkState false header_new)) serializer);
  mret (byteStream s).
Definition RouteService_Out (data : bytes) : MS bytes := mret data.
Definition RouteService : middleware_service St := {| In := RouteService_In; Out := RouteService_Out |}.

(** ** [Client::call] *)
Section Call.
Context {A : Type} {PA : ArgPack A} `{!Serializable (tuple A)} {Res : Type} `{Serializable Res}.

(** The message of a call. *)
Definition message (Name : cstring) (args : A) : R BinarySerializer unit :=
  _ ← input Name; input (Tuple args).

(** What the client makes of an answer.  The value of an outcome without a result is not
    set; here it is the default. *)
Definition read_outcome (data : bytes) (serializer : BinarySerializer) : MS (Outcome Res) :=
  let unexpected (v : Res) (r : RpcResponseHeader) :=
    {| value := v; outcome_response := setReason UnexpectedReturnValue (setOkState false r); protocolReason := OK |} in
  w ← ser_run (write data) (clear serializer);
  r ← ser_run (output header_new) w.2;
  match r with
  | (inl _, _) => mret (unexpected default_value header_new)
  | (inr response, s) =>
      if ok response then
        r ← ser_run (output default_value) s;
        match r with
        | (inl _, _) => mret (unexpected default_value response)
        | (inr v, _) => mret {| value := v; outcome_response := response; protocolReason := OK |}
        end
      else mret {| value := default_value; outcome_response := response; protocolReason := OK |}
  end.

(** A failure of the protocol is compared with the field and not stored in it.  [request]
    gives nothing when it does not return. *)
Definition call (request : bytes -> MS (option ResponseData)) (Name : cstring) (args : A) : MS (option (Outcome Res)) :=
  r ← ser_run (message Name args) BinarySerializer_new;
  match r with
  | (inl _, _) => throw StdException
  | (inr _, serializer) =>
      responseData ← request (byteStream serializer);
      match responseData with
      | None => mret None
      | Some r =>
          if isSuccess r then o ← read_outcome (Pieces.data r) serializer; mret (Some o)
          else mret (Some {| value := default_value; outcome_response := header_new; protocolReason := OK |})
      end
  end.
End Call.

(** A method without a result: here the failure is stored. *)
Definition read_outcome_void (data : bytes) (serializer : BinarySerializer) : MS (Outcome unit) :=
  w ← ser_run (write data) (clear serializer);
  r ← ser_run (output header_new) w.2;
  match r with
  | (inl _, _) => mret {| value := tt; outcome_response := setReason UnexpectedReturnValue (setOkState false header_new);
                          protocolReason := OK |}
  | (inr response, _) => mret {| value := tt; outcome_response := response; protocolReason := OK |}
  end.
Definition call_void {A} {PA : ArgPack A} `{!Serializable (tuple A)} (request : bytes -> MS (option ResponseData))
    (Name : cstring) (args : A) : MS (option (Outcome unit)) :=
  r ← ser_run (message Name args) BinarySerializer_new;
  match r with
  | (inl _, _) => throw StdException
  | (inr _, serializer) =>
      responseData ← request (byteStream serializer);
      match responseData with
      | None => mret None
      | Some r =>
          if isSuccess r then o ← read_outcome_void (Pieces.data r) serializer; mret (Some o)
          else mret (Some {| value := tt; outcome_response := header_new; protocolReason := reason r |})
      end
  end.
End Registry.
