(* ===== verification/RegistryTheorems.v ===== *)
(** * Methods by name: theorems

    What the router answers to a message, and what a client makes of it. *)
From S2P Require Import Prelude Stream Serializer SerializerLaws SerializerTheorems Effects Pieces Middleware Registry.

Section Theorems.
Context {h : Host} {St : Type}.

(** ** Serializers *)
Lemma ser_run_ok {A} (m : R BinarySerializer A) s a s' (st : St) : m s = (Ok a, s') -> ser_run m s st = Ret (inr a, s') st.
Proof. intros E. unfold ser_run. by rewrite E. Qed.
Lemma ser_run_throw {A} (m : R BinarySerializer A) s e s' (st : St) :
  m s = (Err (Stream.Throw e), s') -> ser_run m s st = Ret (inl e, s') st.
Proof. intros E. unfold ser_run. by rewrite E. Qed.

Lemma fresh_writable : writable BinarySerializer_new.
Proof. split; vm_compute; congruence. Qed.
Lemma clear_writable s : writable (clear s).
Proof. apply fresh_writable. Qed.

(** A cleared serializer that something is written to. *)
Lemma writes_clear m l s : writes m l -> exists s', m (clear s) = (Ok tt, s') /\ byteStream s' = l /\ writable s' /\ readPosition s' = 0.
Proof.
  intros Hw. destruct (Hw (clear s) (clear_writable s)) as (s' & E & HB & HP & Hwr). by exists s'.
Qed.

(** A serializer that holds [l], of which nothing has been read. *)
Definition holding (l : bytes) (s : BinarySerializer) : Prop := at_bytes l s /\ writable s.

Lemma loaded l s (st : St) : Z.of_nat (length l) < 2 ^ 64 ->
  exists s', ser_run (write l) (clear s) st = Ret (inr tt, s') st /\ at_bytes l s'.
Proof.
  intros Hl. destruct (writes_clear (write l) l s (write_writes l)) as (s' & E & HB & _ & HP).
  exists s'. split; [by apply ser_run_ok|]. unfold at_bytes. cbn [src_pos src_size src_data BinarySerializer_source].
  rewrite HP, HB. repeat split; try lia.
Qed.

(** Reading a value at the front. *)
Lemma output_run {A} `{SerializerLaws A} (old v : A) rest s (st : St) : ser_wf v -> ser_old old -> at_bytes (encode v ++ rest) s ->
  exists s', ser_run (output old) s st = Ret (inr v, s') st /\ at_bytes rest s'.
Proof.
  intros Hv Ho Ha. eexists. split; [apply ser_run_ok, (output_reads old v Hv Ho rest s Ha)|]. by apply at_bytes_skip.
Qed.

Lemma answer_with_run header s (st : St) : ser_wf header -> exists s', answer_with header s st = Ret s' st /\ byteStream s' = encode header.
Proof.
  intros Hh. destruct (writes_clear (input header) (encode header) s (input_writes header Hh)) as (s' & E & HB & _).
  exists s'. split; [|done]. unfold answer_with. by rewrite (run_bind _ _ _ _ _ (ser_run_ok _ _ _ _ st E)).
Qed.

Lemma header_wf_any b r : ser_wf {| ok := b; header_reason := Num (reason_code r) |}.
Proof. split; [done|]. split; [|done]. by destruct r. Qed.

(** ** A call of a method where the method is *)

(** The outcome, and the state of the program after it. *)
Definition local_call {A Res} `{Serializable Res} (f : A -> M St Res) (args : A) (st : St) : option (Outcome Res * St) :=
  match f args st with
  | Ret v st' => Some ({| value := v; outcome_response := setOkState true header_new; protocolReason := OK |}, st')
  | Throw _ st' =>
      Some ({| value := default_value; outcome_response := setReason MethodExecutionError header_new; protocolReason := OK |}, st')
  | Undefined => None
  end.

(** How an outcome goes over the wire. *)
Definition encode_outcome {Res} `{SerializerLaws Res} (o : Outcome Res) : bytes :=
  encode (outcome_response o) ++ if ok (outcome_response o) then encode (value o) else [].

Section Method.
Context {A : Type} {PA : ArgPack A} {ST : Serializable (tuple A)} {LT : SerializerLaws (tuple A)}.
Context {Res : Type} {SR : Serializable Res} {LR : SerializerLaws Res}.
Hypothesis default_args : ser_old (Tuple (default_pack (A := A))).
Variable f : A -> M St Res.

(** The values of an outcome are values of the overloads. *)
Definition outcome_wf (o : Outcome Res) : Prop := ok (outcome_response o) = true -> ser_wf (value o).

Lemma callBind_run args s st o st' : ser_wf (Tuple args) -> at_bytes (encode (Tuple args)) s ->
  local_call f args st = Some (o, st') -> outcome_wf o ->
  exists s', callBind f s st = Ret s' st' /\ byteStream s' = encode_outcome o.
Proof.
  intros Hargs Ha Hl Ho. unfold callBind, callBind_with.
  destruct (output_run (Tuple default_pack) (Tuple args) [] s st Hargs default_args) as (s1 & E1 & _); [by rewrite app_nil_r|].
  rewrite (run_bind _ _ _ _ _ E1). unfold attempt, mbind at 1, M_bind at 1. unfold mbind at 1, M_bind at 1.
  cbn [tuple_fields]. unfold local_call in Hl. destruct (f args st) as [v st1|e st1|]; [| |done].
  - injection Hl as <- <-. cbn [mret M_ret].
    assert (Hw : writes (_ ← input (setOkState true header_new); input v) (encode (setOkState true header_new) ++ encode v)).
    { apply writes_bind; [apply input_writes, (header_wf_any true Success)|by apply input_writes, Ho]. }
    destruct (writes_clear _ _ s1 Hw) as (s2 & E2 & HB & _). exists s2. split; [|exact HB].
    by rewrite (run_bind _ _ _ _ _ (ser_run_ok _ _ _ _ st1 E2)).
  - injection Hl as <- <-. destruct (answer_with_run (setReason MethodExecutionError header_new) s1 st1) as (s2 & E2 & HB);
      [apply header_wf_any|]. exists s2. split; [exact E2|]. rewrite HB. unfold encode_outcome. cbn [ok outcome_response setReason header_new].
    by rewrite app_nil_r.
Qed.

(** What the client reads of it. *)
Lemma read_outcome_run o s (st : St) : outcome_wf o -> ser_wf (outcome_response o) -> (ok (outcome_response o) = false -> value o = default_value) -> protocolReason o = OK ->
  Z.of_nat (length (encode_outcome o)) < 2 ^ 64 ->
  read_outcome (encode_outcome o) s st = Ret o st.
Proof.
  intros Ho Hh Hd Hp Hl. unfold read_outcome. destruct (loaded (encode_outcome o) s st Hl) as (s1 & E1 & Ha).
  rewrite (run_bind _ _ _ _ _ E1). cbn [snd]. unfold encode_outcome in Ha.
  destruct (output_run header_new (outcome_response o) _ s1 st Hh ltac:(by split_and!) Ha) as (s2 & E2 & Ha2).
  rewrite (run_bind _ _ _ _ _ E2). destruct (ok (outcome_response o)) eqn:Eo.
  - rewrite <-(app_nil_r (encode (value o))) in Ha2.
    destruct (output_run default_value (value o) [] s2 st (Ho Eo) default_old Ha2) as (s3 & E3 & _).
    rewrite (run_bind _ _ _ _ _ E3). rewrite <-Hp. by destruct o.
  - rewrite <-(Hd eq_refl), <-Hp. by destruct o.
Qed.

(** ** The router *)
Variables registry concurrent_registry : dictionary (St := St).

Definition the_message (Name : cstring) (args : A) : bytes := encode Name ++ encode (Tuple args).

(** Asynchronous methods come first. *)
Definition registered Name : Prop :=
  registry !! str_bytes Name = Some (callBind f) \/
  registry !! str_bytes Name = None /\ concurrent_registry !! str_bytes Name = Some (callBind f).

(** The name of a message, and what the router does with it. *)
Lemma route_named Name rest st : ser_wf Name -> Z.of_nat (length (encode Name ++ rest)) < 2 ^ 64 ->
  exists s0 s1, at_bytes rest s1 /\ RouteService_In registry concurrent_registry (encode Name ++ rest) st =
    (s ← try_catch
      (if negb (check Name registry || check Name concurrent_registry) then
         answer_with (setReason MethodNotExist (setOkState false header_new)) s1
       else if check Name registry then runEnsured Name registry s1
       else runEnsured_sync Name concurrent_registry s1)
      (fun _ => answer_with (setReason MethodExecutionError (setOkState false header_new)) s0); mret (byteStream s)) st.
Proof.
  intros Hn Hl. destruct (loaded (encode Name ++ rest) BinarySerializer_new st Hl) as (s0 & E0 & Ha).
  destruct (output_run (Str []) Name rest s0 st Hn I Ha) as (s1 & E1 & Ha1). exists s0, s1. split; [done|].
  unfold RouteService_In. change (clear BinarySerializer_new) with BinarySerializer_new in E0. rewrite (run_bind _ _ _ _ _ E0).
  cbn [snd]. unfold try_catch. rewrite !run_bind_assoc. unfold mbind at 1 5, M_bind at 1 5. unfold attempt.
  by rewrite (run_bind _ _ _ _ _ E1).
Qed.

Lemma route_registered Name args st o st' : ser_wf Name -> ser_wf (Tuple args) ->
  Z.of_nat (length (the_message Name args)) < 2 ^ 64 ->
  registered Name -> local_call f args st = Some (o, st') -> outcome_wf o ->
  RouteService_In registry concurrent_registry (the_message Name args) st = Ret (encode_outcome o) st'.
Proof.
  intros Hn Ha Hl Hreg Hloc Ho. destruct (route_named Name (encode (Tuple args)) st Hn Hl) as (s0 & s1 & Hs1 & E). unfold the_message.
  rewrite E. destruct (callBind_run args s1 st o st' Ha Hs1 Hloc Ho) as (s2 & E2 & HB).
  assert (Et : (if negb (check Name registry || check Name concurrent_registry) then
         answer_with (setReason MethodNotExist (setOkState false header_new)) s1
       else if check Name registry then runEnsured Name registry s1
       else runEnsured_sync Name concurrent_registry s1) st = Ret s2 st').
  { unfold check, runEnsured, runEnsured_sync. destruct Hreg as [Hreg|[Hreg1 Hreg2]].
    - rewrite Hreg. exact E2.
    - by rewrite Hreg1, Hreg2. }
  unfold try_catch. rewrite run_bind_assoc. unfold mbind at 1, M_bind at 1. unfold attempt at 1. rewrite Et.
  erewrite run_bind by reflexivity. unfold mret, M_ret. by rewrite HB.
Qed.

(** Every way of reading [l] ends in an exception of the serializer. *)
Definition unreadable {B} `{Serializable B} (old : B) (l : bytes) : Prop :=
  forall s, at_bytes l s -> exists e s', output (S := BinarySerializer) old s = (Err (Stream.Throw e), s').

(** C27: the router answers every message and never throws: a call of a registered method
    with the outcome of the method, exceptions included, and the state it leaves; a call
    whose arguments cannot be read, of a method nobody registered, or without a name with
    the reason, and the state of the program as it was. *)
Theorem route_answers Name args rest st :
  ser_wf Name -> ser_wf (Tuple args) -> Z.of_nat (length (the_message Name args)) < 2 ^ 64 ->
  Z.of_nat (length (encode Name ++ rest)) < 2 ^ 64 ->
  (registered Name -> forall o st', local_call f args st = Some (o, st') -> outcome_wf o ->
     RouteService_In registry concurrent_registry (the_message Name args) st = Ret (encode_outcome o) st') /\
  (registered Name -> unreadable (Tuple (default_pack (A := A))) rest ->
     RouteService_In registry concurrent_registry (encode Name ++ rest) st =
       Ret (encode (setReason ParameterError header_new)) st) /\
  (registry !! str_bytes Name = None -> concurrent_registry !! str_bytes Name = None ->
     RouteService_In registry concurrent_registry (encode Name ++ rest) st =
       Ret (encode (setReason MethodNotExist header_new)) st) /\
  (unreadable (Str []) rest -> Z.of_nat (length rest) < 2 ^ 64 ->
     RouteService_In registry concurrent_registry rest st = Ret (encode (setReason MethodExecutionError header_new)) st).
Proof.
  intros Hn Ha Hl Hl2. split_and!.
  - intros Hreg o st' Hloc Ho. by apply route_registered.
  - intros Hreg Hun. destruct (route_named Name rest st Hn Hl2) as (s0 & s1 & Hs1 & ->).
    destruct (Hun s1 Hs1) as (e & s2 & Eo). destruct (answer_with_run (setReason ParameterError header_new) s2 st) as (s3 & E3 & HB);
      [apply header_wf_any|].
    assert (Ec : callBind f s1 st = Ret s3 st).
    { unfold callBind, callBind_with. by rewrite (run_bind _ _ _ _ _ (ser_run_throw _ _ _ _ st Eo)). }
    assert (Et : (if negb (check Name registry || check Name concurrent_registry) then
           answer_with (setReason MethodNotExist (setOkState false header_new)) s1
         else if check Name registry then runEnsured Name registry s1
         else runEnsured_sync Name concurrent_registry s1) st = Ret s3 st).
    { unfold check, runEnsured, runEnsured_sync. destruct Hreg as [Hreg|[Hreg1 Hreg2]]; [by rewrite Hreg|by rewrite Hreg1, Hreg2]. }
    unfold try_catch. rewrite run_bind_assoc. unfold mbind at 1, M_bind at 1. unfold attempt at 1. rewrite Et.
    erewrite run_bind by reflexivity. unfold mret, M_ret. by rewrite HB.
  - intros H1 H2. destruct (route_named Name rest st Hn Hl2) as (s0 & s1 & Hs1 & ->).
    unfold check. rewrite H1, H2. cbn [negb orb bool_decide]. rewrite !bool_decide_false by (intros [? ?]; done). cbn [negb orb].
    destruct (answer_with_run (setReason MethodNotExist (setOkState false header_new)) s1 st) as (s3 & E3 & HB); [apply header_wf_any|].
    unfold try_catch. rewrite run_bind_assoc. unfold mbind at 1, M_bind at 1. unfold attempt at 1. rewrite E3.
    erewrite run_bind by reflexivity. unfold mret, M_ret. by rewrite HB.
  - intros Hun Hr. destruct (loaded rest BinarySerializer_new st Hr) as (s0 & E0 & Ha0).
    destruct (Hun s0 Ha0) as (e & s1 & Eo). unfold RouteService_In.
    change (clear BinarySerializer_new) with BinarySerializer_new in E0. rewrite (run_bind _ _ _ _ _ E0). cbn [snd].
    destruct (answer_with_run (setReason MethodExecutionError (setOkState false header_new)) s0 st) as (s3 & E3 & HB);
      [apply header_wf_any|].
    unfold try_catch. rewrite run_bind_assoc. unfold mbind at 1, M_bind at 1. unfold attempt at 1.
    rewrite (run_bind _ _ _ _ _ (ser_run_throw _ _ _ _ st Eo)). cbn [throw]. rewrite (run_bind _ _ _ _ _ E3).
    unfold mret, M_ret. by rewrite HB.
Qed.
End Method.
End Theorems.
