(* ===== verification/ArgParse.v ===== *)
(** * The command line: [argparse.hpp]

    A parser that is told which options and arguments there are, takes them from the
    command line, and gives their values by name and type.  What it prints is not
    modelled; that the program ends with it is.  Numbers with a fraction are left out. *)
From S2P Require Import Prelude Stream Effects Settings LedgerStore.

(** ** Types of values

    [type_string], [to_string] (a stream written) and [parse_value] (a stream read). *)
Class OptionType (T : Type) := {
  type_string : bytes;
  option_text : T -> bytes;
  parse_value : bytes -> T;
}.

(** [>>] into a string: the first word. *)
Definition first_word (l : bytes) : bytes := (span (fun b => negb (is_space b)) (span is_space l).2).1.

#[export] Instance string_option : OptionType bytes := {
  type_string := b! "string"; option_text v := v; parse_value := first_word;
}.

(** [>>] into a signed integer of [w] bits: a number that does not fit is the nearest one,
    and where there is none it is zero. *)
Definition clamp (w : Z) (n : Z) : Z := Z.max (- 2 ^ (w - 1)) (Z.min (2 ^ (w - 1) - 1) n).
Definition read_integer (l : bytes) : option Z :=
  let rest := (span is_space l).2 in
  let '(negative, rest) := match rest with
                           | b :: l => if b =? 45 then (true, l) else if b =? 43 then (false, l) else (false, rest)
                           | [] => (false, rest)
                           end in
  match (span is_digit rest).1 with
  | [] => None
  | digits => Some (if negative then - digits_value digits else digits_value digits)
  end.
Definition write_integer (n : Z) : bytes := if n <? 0 then 45 :: to_string (- n) else to_string n.

Record integer (w : Z) := Integer { integer_value : Z }.
Arguments Integer {w}.  Arguments integer_value {w}.
Definition integer_text {w} (v : integer w) : bytes := write_integer (integer_value v).
Definition integer_parse {w} (l : bytes) : integer w := Integer (clamp w (default 0 (read_integer l))).
#[export] Instance int_option : OptionType (integer 32) := {
  type_string := b! "int"; option_text := integer_text; parse_value := integer_parse;
}.
#[export] Instance int64_option : OptionType (integer 64) := {
  type_string := b! "int64_t"; option_text := integer_text; parse_value := integer_parse;
}.
(** [>>] into a boolean takes a number: everything but zero is true. *)
#[export] Instance bool_option : OptionType bool := {
  type_string := b! "bool"; option_text v := [if v : bool then 49 else 48];
  parse_value l := negb (default 0 (read_integer l) =? 0);
}.

(** ** The parser *)
Record short_circuit_option := SCOption { sc_short : bytes; sc_long : bytes }.
Record program_option := POption { short_name : bytes; long_name : bytes; option_type : bytes; option_value : bytes }.
Record argument := Argument { argument_name : bytes; argument_type : bytes; argument_value : bytes }.

Record argparser := Parser {
  program_name : bytes;
  short_circuit_options : list short_circuit_option;
  options : list program_option;
  short_name_index : gmap Z nat;
  named_arguments : list argument;
  arguments : list argument;
}.

(** A call ends, or the program does: with a code, after the callback of an option or not. *)
Inductive ended (A : Type) := Gives (a : A) | Exits (code : Z) (called : option nat) | Breaks.
Arguments Gives {A}.  Arguments Exits {A}.  Arguments Breaks {A}.
#[global] Instance ended_ret : MRet ended := fun A => Gives.
#[global] Instance ended_bind : MBind ended := fun A B f m =>
  match m with Gives a => f a | Exits c k => Exits c k | Breaks => Breaks end.
Definition failure {A} : ended A := Exits (-1) None.

Definition dash : Z := 45.

Definition argparser_new : argparser := Parser [] [] [] ∅ [] [].
Definition set_program_name (name : bytes) (p : argparser) : argparser :=
  Parser name (short_circuit_options p) (options p) (short_name_index p) (named_arguments p) (arguments p).
Definition with_options (l : list program_option) (p : argparser) : argparser :=
  Parser (program_name p) (short_circuit_options p) l (short_name_index p) (named_arguments p) (arguments p).
Definition with_index (i : gmap Z nat) (p : argparser) : argparser :=
  Parser (program_name p) (short_circuit_options p) (options p) i (named_arguments p) (arguments p).
Definition with_arguments (named positional : list argument) (p : argparser) : argparser :=
  Parser (program_name p) (short_circuit_options p) (options p) (short_name_index p) named positional.

(** *** Telling it *)
Definition check_add_option_sname (key : bytes) (p : argparser) : ended unit :=
  match key with
  | [d; ch] => if negb (d =? dash) then failure else match short_name_index p !! ch with Some _ => failure | None => Gives tt end
  | _ => failure
  end.
Definition check_add_option_lname (key : bytes) (p : argparser) : ended unit :=
  match key with
  | [] => failure
  | _ =>
      if bool_decide (take 2 key <> [dash; dash]) then failure
      else if existsb (fun o => bool_decide (long_name o = key)) (options p) ||
              existsb (fun o => bool_decide (sc_long o = key)) (short_circuit_options p) then failure
      else Gives tt
  end.

(** The index of a short name, which may be left out: the number of the option in its own
    list. *)
Definition index_name (sname : bytes) (n : nat) (p : argparser) : ended argparser :=
  match sname with
  | [] => Gives p
  | _ => check_add_option_sname sname p ;; Gives (with_index (<[List.last sname 0 := n]> (short_name_index p)) p)
  end.

Definition add_sc_option (sname lname : bytes) (p : argparser) : ended argparser :=
  check_add_option_lname lname p ;;
  p ← index_name sname (length (short_circuit_options p)) p;
  Gives (Parser (program_name p) (short_circuit_options p ++ [SCOption sname lname]) (options p) (short_name_index p)
           (named_arguments p) (arguments p)).
Definition add_help_option : argparser -> ended argparser := add_sc_option (b! "-?") (b! "--help").

Definition add_an_option (sname lname type value : bytes) (p : argparser) : ended argparser :=
  check_add_option_lname lname p ;;
  p ← index_name sname (length (options p)) p;
  Gives (with_options (options p ++ [POption sname lname type value]) p).
Definition add_option {T} `{OptionType T} (sname lname : bytes) (default_value : T) : argparser -> ended argparser :=
  add_an_option sname lname (type_string (T := T)) (option_text default_value).
Definition add_flag (sname lname : bytes) : argparser -> ended argparser :=
  add_an_option sname lname (b! "bool") [48].

Definition check_add_argument_name (type key : bytes) (p : argparser) : ended unit :=
  if bool_decide (type = b! "bool") then failure
  else
    match key with
    | [] => failure
    | _ => if existsb (fun a => bool_decide (argument_name a = key)) (arguments p ++ named_arguments p) then failure else Gives tt
    end.
Definition add_argument (type name : bytes) (p : argparser) : ended argparser :=
  check_add_argument_name type name p ;; Gives (with_arguments (named_arguments p) (arguments p ++ [Argument name type []]) p).
Definition add_named_argument (type name : bytes) (p : argparser) : ended argparser :=
  check_add_argument_name type name p ;; Gives (with_arguments (named_arguments p ++ [Argument name type []]) (arguments p) p).

(** *** Asking it *)
Definition get_option {T} `{OptionType T} (name : bytes) (p : argparser) : ended T :=
  let found := match List.find (fun o => bool_decide (short_name o = name)) (options p) with
               | Some o => Some o
               | None => List.find (fun o => bool_decide (long_name o = name)) (options p)
               end in
  match found with
  | None => failure
  | Some o => if bool_decide (option_type o = type_string (T := T)) then Gives (parse_value (option_value o)) else failure
  end.

Definition get_argument {T} `{OptionType T} (name : bytes) (p : argparser) : ended T :=
  let found := match List.find (fun a => bool_decide (argument_name a = name)) (arguments p) with
               | Some a => Some a
               | None => List.find (fun a => bool_decide (argument_name a = name)) (named_arguments p)
               end in
  match found with
  | None => failure
  | Some a => if bool_decide (argument_type a = type_string (T := T)) then Gives (parse_value (argument_value a)) else failure
  end.

(** *** The command line *)
Definition names (tok : bytes) (short long : bytes) : bool := bool_decide (tok = short) || bool_decide (tok = long).

(** [std::find_if]: what comes before the first that is meant, and what comes after. *)
Fixpoint split_at {A} (f : A -> bool) (l : list A) : option (list A * A * list A) :=
  match l with
  | [] => None
  | x :: l => if f x then Some ([], x, l) else '(a, y, b) ← split_at f l; Some (x :: a, y, b)
  end.

(** The first option of the list that ends the program, if the line has it. *)
Fixpoint find_called (i : nat) (l : list short_circuit_option) (tokens : list bytes) : option nat :=
  match l with
  | [] => None
  | o :: l => if existsb (fun t => names t (sc_short o) (sc_long o)) tokens then Some i else find_called (S i) l tokens
  end.

Definition set_value (v : bytes) (o : program_option) : program_option := POption (short_name o) (long_name o) (option_type o) v.

Fixpoint parse_options (l : list program_option) (tokens : list bytes) : ended (list program_option * list bytes) :=
  match l with
  | [] => Gives ([], tokens)
  | o :: l =>
      '(o, tokens) ←
        match split_at (fun t => names t (short_name o) (long_name o)) tokens with
        | None => Gives (o, tokens)
        | Some (before, _, after) =>
            if bool_decide (option_type o = b! "bool") then Gives (set_value [49] o, before ++ after)
            else match after with
                 | [] => failure
                 | v :: after => Gives (set_value v o, before ++ after)
                 end
        end;
      '(l, tokens) ← parse_options l tokens;
      Gives (o :: l, tokens)
  end.

(** Several short names behind one dash.  [operator[]] of the index makes an entry for a
    name that has none; [back] of an empty name is undefined. *)
Definition indexed (ch : Z) (p : argparser) : nat * argparser :=
  match short_name_index p !! ch with
  | Some i => (i, p)
  | None => (0%nat, with_index (<[ch := 0%nat]> (short_name_index p)) p)
  end.
Fixpoint aggregated_calls (short_names : bytes) (p : argparser) : ended argparser :=
  match short_names with
  | [] => Gives p
  | ch :: l =>
      let '(i, p) := indexed ch p in
      match short_circuit_options p !! i with
      | None => aggregated_calls l p
      | Some o =>
          match sc_short o with
          | [] => Breaks
          | n => if List.last n 0 =? ch then Exits 0 (Some i) else aggregated_calls l p
          end
      end
  end.
Fixpoint aggregated_flags (short_names : bytes) (p : argparser) : ended argparser :=
  match short_names with
  | [] => Gives p
  | ch :: l =>
      let '(i, p) := indexed ch p in
      match options p !! i with
      | None => failure
      | Some o =>
          match short_name o with
          | [] => Breaks
          | n =>
              if negb (List.last n 0 =? ch) then failure
              else if bool_decide (option_type o <> b! "bool") then failure
              else aggregated_flags l (with_options (<[i := set_value [49] o]> (options p)) p)
          end
      end
  end.

(** The first token with a dash in front; [front] of an empty token is undefined. *)
Fixpoint split_dashed (tokens : list bytes) : ended (option (list bytes * bytes * list bytes)) :=
  match tokens with
  | [] => Gives None
  | [] :: _ => Breaks
  | (b :: w) :: l =>
      if b =? dash then Gives (Some ([], b :: w, l))
      else r ← split_dashed l; Gives ('(x, t, y) ← r; Some ((b :: w) :: x, t, y))
  end.
Definition parse_aggregation (tokens : list bytes) (p : argparser) : ended (argparser * list bytes) :=
  r ← split_dashed tokens;
  match r with
  | None => Gives (p, tokens)
  | Some (before, tok, after) =>
      match tok with
      | [] | [_] => failure
      | _ :: b :: _ =>
          if b =? dash then failure
          else
            p ← aggregated_calls (tail tok) p;
            p ← aggregated_flags (tail tok) p;
            Gives (p, before ++ after)
      end
  end.

(** [try_parse_named_argument]: the value behind the first equals sign. *)
Definition equals : Z := 61.
Definition named_value (line name : bytes) : option bytes :=
  match split_at (fun b => b =? equals) line with
  | Some (before, _, value) => if bool_decide (before = name) then Some value else None
  | None => None
  end.
Fixpoint parse_named (l : list argument) (tokens : list bytes) : ended (list argument * list bytes) :=
  match l with
  | [] => Gives ([], tokens)
  | a :: l =>
      let '(a, tokens) :=
        match split_at (fun t => bool_decide (is_Some (named_value t (argument_name a)))) tokens with
        | Some (before, t, after) =>
            (Argument (argument_name a) (argument_type a) (default [] (named_value t (argument_name a))), before ++ after)
        | None => (a, tokens)
        end in
      if bool_decide (argument_value a = []) then failure
      else '(l, tokens) ← parse_named l tokens; Gives (a :: l, tokens)
  end.

Definition parse_positions (tokens : list bytes) (p : argparser) : ended argparser :=
  if negb (length tokens =? length (arguments p))%nat then failure
  else Gives (with_arguments (named_arguments p)
    (zip_with (fun a v => Argument (argument_name a) (argument_type a) v) (arguments p) tokens) p).

(** [argv0] is the name the program was called by. *)
Definition parse (argv0 : bytes) (tokens : list bytes) (p : argparser) : ended argparser :=
  let p := match program_name p with [] => set_program_name argv0 p | _ => p end in
  match tokens with
  | [] => Exits 0 None
  | _ =>
      match find_called 0 (short_circuit_options p) tokens with
      | Some i => Exits 0 (Some i)
      | None =>
          '(os, tokens) ← parse_options (options p) tokens;
          '(p, tokens) ← parse_aggregation tokens (with_options os p);
          if (length tokens <? length (named_arguments p))%nat then failure
          else
            '(named, tokens) ← parse_named (named_arguments p) tokens;
            parse_positions tokens (with_arguments named (arguments p) p)
      end
  end.

(** ** The parser of [main] *)
Definition main_parser : ended argparser :=
  p ← add_help_option (set_program_name (b! "muse") argparser_new);
  p ← add_option (b! "-p") (b! "--password") ([] : bytes) p;
  add_option (b! "-s") (b! "--setting") ([] : bytes) p.

(** The password and the path of the settings. *)
Definition main_arguments (argv0 : bytes) (tokens : list bytes) : ended (bytes * bytes) :=
  p ← main_parser;
  p ← parse argv0 tokens p;
  password ← get_option (T := bytes) (b! "-p") p;
  path ← get_option (T := bytes) (b! "-s") p;
  Gives (password, path).

(** ** Numbers *)
Lemma decimal_value fuel n : 0 <= n < 10 ^ Z.of_nat fuel -> (0 < fuel)%nat ->
  digits_value (decimal fuel n) = n /\ forallb is_digit (decimal fuel n) = true /\ decimal fuel n <> [].
Proof.
  revert n. induction fuel as [|fuel IH]; intros n Hn Hf; [lia|]. cbn [decimal].
  pose proof (Z.mod_pos_bound n 10 ltac:(lia)) as Hm. pose proof (Z.div_mod n 10 ltac:(lia)) as Hd.
  assert (Hlast : forall l, digits_value (l ++ [48 + n mod 10]) = 10 * digits_value l + n mod 10).
  { intros l. unfold digits_value. rewrite foldl_app. cbn [foldl]. lia. }
  assert (Hdig : forall l, forallb is_digit l = true -> forallb is_digit (l ++ [48 + n mod 10]) = true).
  { intros l Hl. rewrite forallb_app, Hl. cbn. unfold is_digit. lia. }
  assert (Hne : forall l, l ++ [48 + n mod 10] <> []) by (intros [|]; done).
  rewrite Hlast. destruct (n <? 10) eqn:E; [split; [cbn; rewrite Z.mod_small; lia|]; split; [by apply Hdig|by apply Hne]|].
  rewrite Nat2Z.inj_succ, Z.pow_succ_r in Hn by lia.
  assert (0 < fuel)%nat by (destruct fuel; [change (10 ^ Z.of_nat 0) with 1 in Hn; lia|lia]).
  destruct (IH (n / 10)) as (Hv & Hg & _); [split; [apply Z.div_pos; lia|apply Z.div_lt_upper_bound; lia]|done|].
  rewrite Hv. split; [lia|]. split; [by apply Hdig|by apply Hne].
Qed.

Lemma digit_not_space b : is_digit b = true -> is_space b = false /\ (b =? 45) = false /\ (b =? 43) = false.
Proof. unfold is_digit, is_space. lia. Qed.

Lemma span_none {A} (q : A -> bool) l : (forall x, head l = Some x -> q x = false) -> span q l = ([], l).
Proof. intros Hx. destruct l as [|x l]; [done|]. cbn. by rewrite (Hx x eq_refl). Qed.

Lemma integer_read n : - 10 ^ 20 < n < 10 ^ 20 -> read_integer (write_integer n) = Some n.
Proof.
  intros Hn. unfold write_integer, read_integer, to_string.
  assert (Hspan : forall m, 0 <= m < 10 ^ 20 -> (span is_digit (decimal 20 m)).1 = decimal 20 m /\ digits_value (decimal 20 m) = m /\
    exists b l, decimal 20 m = b :: l /\ is_digit b = true).
  { intros m Hm. destruct (decimal_value 20 m) as (Hv & Hg & Hne); [done|lia|]. split.
    - rewrite <-(app_nil_r (decimal 20 m)) at 1. by rewrite (span_all is_digit (decimal 20 m) [] Hg).
    - split; [done|]. destruct (decimal 20 m) as [|b l]; [done|]. exists b, l. split; [done|].
      cbn in Hg. by apply andb_prop in Hg as [? _]. }
  destruct (n <? 0) eqn:E.
  - destruct (Hspan (- n)) as (Hs & Hv & b & l & Eb & _); [lia|].
    rewrite span_none by (by intros x [= <-]). cbn [snd]. change (45 =? 45) with true. cbv beta iota zeta. rewrite Hs, Eb. cbv beta iota. rewrite <-Eb, Hv. f_equal. lia.
  - destruct (Hspan n) as (Hs & Hv & b & l & Eb & Hb); [lia|]. destruct (digit_not_space b Hb) as (H1 & H2 & H3).
    rewrite span_none by (intros x; rewrite Eb; by intros [= <-]). cbn [snd]. rewrite Eb, H2, H3, <-Eb. cbv beta iota zeta.
    rewrite Hs, Eb. cbv beta iota. by rewrite <-Eb, Hv.
Qed.

(** A default that is a number is read back, whatever is printed in between. *)
Theorem default_integer_read w (v : integer w) : 0 < w <= 64 -> - 2 ^ (w - 1) <= integer_value v < 2 ^ (w - 1) ->
  integer_parse (integer_text v) = v.
Proof.
  intros Hw Hv. assert (2 ^ (w - 1) <= 2 ^ 63) by (apply Z.pow_le_mono_r; lia).
  unfold integer_parse, integer_text. rewrite integer_read by lia. cbn [default]. unfold clamp.
  destruct v as [n]. cbn [integer_value] in *. f_equal. cbn. lia.
Qed.

(** ** Lines of names and values *)
Definition named_by (n : bytes) (o : program_option) : bool := names n (short_name o) (long_name o).
Definition line_tokens (line : list (bytes * bytes)) : list bytes := concat (map (fun nv => [nv.1; nv.2]) line).

(** What an option has after a line. *)
Definition told (line : list (bytes * bytes)) (o : program_option) : program_option :=
  match List.find (fun nv => named_by nv.1 o) line with Some nv => set_value nv.2 o | None => o end.

Lemma split_at_spec {A} (f : A -> bool) l :
  match split_at f l with
  | Some (a, x, b) => l = a ++ x :: b /\ f x = true /\ forallb (fun y => negb (f y)) a = true
  | None => forallb (fun y => negb (f y)) l = true
  end.
Proof.
  induction l as [|x l IH]; [done|]. cbn [split_at]. destruct (f x) eqn:E; [done|].
  destruct (split_at f l) as [[[a y] b]|]; cbn [mbind option_bind forallb].
  - destruct IH as (-> & Hy & Ha). by rewrite E.
  - by rewrite E.
Qed.

Lemma find_app_none {A} (f : A -> bool) a l : forallb (fun y => negb (f y)) a = true -> List.find f (a ++ l) = List.find f l.
Proof. induction a as [|y a IH]; [done|]. cbn. intros [Hy Ha]%andb_prop. apply negb_true_iff in Hy. rewrite Hy. by apply IH. Qed.

Lemma split_line o line : (forall nv, nv ∈ line -> named_by nv.2 o = false) ->
  split_at (fun t => named_by t o) (line_tokens line) =
    '(a, nv, b) ← split_at (fun nv => named_by nv.1 o) line; Some (line_tokens a, nv.1, nv.2 :: line_tokens b).
Proof.
  induction line as [|[n v] line IH]; intros Hv; [done|]. unfold line_tokens. cbn [map concat app split_at fst snd].
  destruct (named_by n o); [done|]. pose proof (Hv (n, v) ltac:(by left)) as Hnv. cbn [snd] in Hnv. rewrite Hnv. fold (line_tokens line).
  rewrite IH by (intros nv Hin; apply Hv; by right). destruct (split_at _ line) as [[[a [n' v']] b]|]; done.
Qed.

Definition one_or_none {A} (f : A -> bool) (l : list A) : Prop := forall a x b, l = a ++ x :: b -> f x = true ->
  forallb (fun y => negb (f y)) a = true /\ forallb (fun y => negb (f y)) b = true.

Lemma one_or_none_tail {A} (f : A -> bool) x l : one_or_none f (x :: l) -> one_or_none f l.
Proof.
  intros H a y b -> Hy. destruct (H (x :: a) y b eq_refl Hy) as [Ha Hb]. cbn in Ha. by apply andb_prop in Ha as [_ Ha].
Qed.

Lemma one_or_none_remove {A} (f : A -> bool) a x b : one_or_none f (a ++ x :: b) -> one_or_none f (a ++ b).
Proof.
  intros H a' y b' E Hy. assert (Hor : (exists l, a = a' ++ y :: l /\ b' = l ++ b) \/ (exists l, b = l ++ y :: b' /\ a' = a ++ l)).
  { apply app_eq_app in E as [l [[-> E]|[-> E]]].
    - destruct l as [|z l]; [right; exists []; rewrite !app_nil_r; by split|]. injection E as <- ->. left. by exists l.
    - right. by exists l. }
  destruct Hor as [(l & -> & ->)|(l & -> & ->)].
  - destruct (H a' y (l ++ x :: b)) as [H1 H2]; [by rewrite <-app_assoc|done|]. split; [done|].
    rewrite forallb_app in *. apply andb_prop in H2 as [H2 H3]. cbn in H3. apply andb_prop in H3 as [_ H3]. by rewrite H2, H3.
  - destruct (H (a ++ x :: l) y b') as [H1 H2]; [by rewrite <-app_assoc|done|]. split; [|done].
    rewrite forallb_app in *. apply andb_prop in H1 as [H1 H3]. cbn in H3. apply andb_prop in H3 as [_ H3]. by rewrite H1, H3.
Qed.

(** The options take values, no value is a name, and the names of the line and the options
    are matched one to one. *)
Record readable (os : list program_option) (line : list (bytes * bytes)) : Prop := {
  readable_types : forall o, o ∈ os -> option_type o <> b! "bool";
  readable_values : forall o nv, o ∈ os -> nv ∈ line -> named_by nv.2 o = false;
  readable_once : forall o, o ∈ os -> one_or_none (fun nv => named_by nv.1 o) line;
  readable_name : forall nv, nv ∈ line -> one_or_none (fun o => named_by nv.1 o) os;
}.

(** What a list of options leaves of a line. *)
Definition rest_of (os : list program_option) (line : list (bytes * bytes)) : list (bytes * bytes) :=
  List.filter (fun nv => negb (existsb (named_by nv.1) os)) line.

Lemma filter_all {A} (f : A -> bool) l : forallb f l = true -> List.filter f l = l.
Proof. induction l as [|x l IH]; [done|]. cbn. intros [-> Hl]%andb_prop. by rewrite IH. Qed.

Lemma rest_of_nil line : rest_of [] line = line.
Proof. apply filter_all. by apply forallb_forall. Qed.

Lemma rest_of_cons o os l : forallb (fun nv => negb (named_by nv.1 o)) l = true -> rest_of (o :: os) l = rest_of os l.
Proof.
  intros Hl. unfold rest_of. induction l as [|nv l IH]; [done|]. cbn [forallb List.filter existsb] in *.
  apply andb_prop in Hl as [Hn Hl]. apply negb_true_iff in Hn. rewrite Hn, (IH Hl). done.
Qed.
Lemma rest_of_app os a b : rest_of os (a ++ b) = rest_of os a ++ rest_of os b.
Proof. apply List.filter_app. Qed.
Lemma line_tokens_app a b : line_tokens (a ++ b) = line_tokens a ++ line_tokens b.
Proof. unfold line_tokens. by rewrite map_app, concat_app. Qed.

Lemma parse_options_read os : forall line, readable os line ->
  parse_options os (line_tokens line) = Gives (map (told line) os, line_tokens (rest_of os line)).
Proof.
  induction os as [|o os IH]; intros line [Ht Hv Ho Hn]; cbn [parse_options map]; [by rewrite rest_of_nil|].
  change (fun t => names t (short_name o) (long_name o)) with (fun t => named_by t o).
  rewrite split_line by (intros nv Hin; apply Hv; [by left|done]).
  pose proof (split_at_spec (fun nv => named_by nv.1 o) line) as Hs.
  destruct (split_at _ line) as [[[a [n v]] b]|]; cbn [mbind option_bind ended_bind fst snd].
  - destruct Hs as (-> & Hm & Ha). destruct (Ho o ltac:(by left) a (n, v) b eq_refl Hm) as [_ Hb].
    rewrite bool_decide_eq_false_2 by (apply Ht; by left). cbv beta iota delta [mbind ended_bind]. rewrite <-line_tokens_app.
    assert (Hr : readable os (a ++ b)).
    { constructor.
      - intros o' Hin. apply Ht. by right.
      - intros o' nv Hin Hnv. apply Hv; [by right|]. rewrite !elem_of_app, elem_of_cons in *. tauto.
      - intros o' Hin. eapply one_or_none_remove, Ho. by right.
      - intros nv Hnv. eapply one_or_none_tail, Hn. rewrite !elem_of_app, elem_of_cons in *. tauto. }
    rewrite (IH _ Hr). cbv beta iota. f_equal. f_equal; [f_equal|].
    + unfold told. rewrite find_app_none by done. cbn. cbn in Hm. by rewrite Hm.
    + apply map_ext_in. intros o' Hin. apply list_elem_of_In in Hin. unfold told.
      assert (Hno : named_by n o' = false).
      { destruct (Hn (n, v) ltac:(apply elem_of_app; right; by left) [] o os eq_refl Hm) as [_ H]. cbn [fst] in H.
        rewrite forallb_forall in H. apply negb_true_iff, H. by apply list_elem_of_In. }
      assert (Hf : forall l, List.find (fun nv : bytes * bytes => named_by nv.1 o') (l ++ b) =
                  List.find (fun nv => named_by nv.1 o') (l ++ (n, v) :: b)).
      { induction l as [|nv l IHl]; [cbn; by rewrite Hno|]. cbn. by destruct (named_by nv.1 o'). }
      by rewrite Hf.
    + f_equal. rewrite !rest_of_app, (rest_of_cons _ _ a Ha). f_equal. unfold rest_of at 2. cbn [List.filter existsb fst].
      cbn in Hm. rewrite Hm. cbn. symmetry. by apply rest_of_cons.
  - assert (Hr : readable os line).
    { constructor; [intros o' Hin; apply Ht; by right|intros o' nv Hin; apply Hv; by right|intros o' Hin; apply Ho; by right|].
      intros nv Hnv. by eapply one_or_none_tail, Hn. }
    cbv beta iota delta [mbind ended_bind]. rewrite (IH _ Hr). f_equal. f_equal; [|by rewrite rest_of_cons]. f_equal. unfold told.
    rewrite <-(app_nil_r line), find_app_none by done. done.
Qed.

Lemma not_called l tokens : forall i, (forall t o, t ∈ tokens -> o ∈ l -> names t (sc_short o) (sc_long o) = false) ->
  find_called i l tokens = None.
Proof.
  induction l as [|o l IH]; intros i H; [done|]. cbn [find_called].
  assert (E : existsb (fun t => names t (sc_short o) (sc_long o)) tokens = false).
  { apply not_true_is_false. rewrite existsb_exists. intros (t & Hin%list_elem_of_In & Ht). rewrite (H t o) in Ht; [done|done|by left]. }
  rewrite E. apply IH. intros t o' Ht Ho. apply H; [done|by right].
Qed.

(** A parser without arguments takes a line of names and values, in any order, and leaves
    everything else as it was. *)
Lemma command_line_read p argv0 line : named_arguments p = [] -> arguments p = [] -> line <> [] ->
  readable (options p) line -> (forall nv, nv ∈ line -> exists o, o ∈ options p /\ named_by nv.1 o = true) ->
  (forall t o, t ∈ line_tokens line -> o ∈ short_circuit_options p -> names t (sc_short o) (sc_long o) = false) ->
  exists name, parse argv0 (line_tokens line) p = Gives (with_options (map (told line) (options p)) (set_program_name name p)).
Proof.
  intros Hna Ha Hne Hr Hall Hsc. set (name := match program_name p with [] => argv0 | n => n end). exists name.
  assert (Hrest : rest_of (options p) line = []).
  { unfold rest_of. clear Hne Hr Hsc. induction line as [|nv line IH]; [done|]. cbn [List.filter].
    destruct (Hall nv ltac:(by left)) as (o & Ho & Hn). rewrite (proj2 (existsb_exists (named_by nv.1) (options p)));
      [|exists o; by rewrite <-list_elem_of_In]. apply IH. intros nv' Hin. apply Hall. by right. }
  unfold parse. replace (match program_name p with [] => _ | _ => p end) with (set_program_name name p)
    by (unfold name; destruct p as [n ? ? ? ? ?]; by destruct n).
  destruct (line_tokens line) as [|t l] eqn:El; [destruct line; done|]. rewrite <-El.
  cbn [short_circuit_options set_program_name options]. rewrite not_called by (rewrite El; exact Hsc).
  rewrite parse_options_read by done. rewrite Hrest. cbv beta iota delta [mbind ended_bind]. cbn. rewrite Hna, Ha. cbn.
  destruct p. cbn in *. subst. done.
Qed.

(** ** What [main] gets *)
Definition word (l : bytes) : Prop := forallb (fun b => negb (is_space b)) l = true.

Lemma span_rest {A} (q : A -> bool) l : (forall x, head (span q l).2 = Some x -> q x = false) /\ forallb q (span q l).1 = true /\
  (span q l).1 ++ (span q l).2 = l.
Proof.
  induction l as [|x l IH]; [done|]. cbn [span]. destruct (q x) eqn:E.
  - destruct (span q l) as [a b]. cbn in *. destruct IH as (H1 & H2 & H3). rewrite E, H2, H3. done.
  - cbn. split; [by intros y [= <-]|done].
Qed.

Lemma first_word_word l : word (first_word l).
Proof. unfold word, first_word. by destruct (span_rest (fun b => negb (is_space b)) (span is_space l).2) as (_ & H & _). Qed.

Lemma first_word_of l : word l -> first_word l = l.
Proof.
  intros Hl. unfold first_word. rewrite (span_none is_space l).
  - cbn [snd]. pose proof (span_all _ l [] Hl ltac:(done)) as E. rewrite app_nil_r in E. by rewrite E.
  - intros x Hx. destruct l as [|b l]; [done|]. injection Hx as ->. unfold word in Hl. cbn in Hl. apply andb_prop in Hl as [Hl _].
    by apply negb_true_iff.
Qed.

(** The first word of a value, with what is around it. *)
Lemma first_word_cut space w rest : forallb is_space space = true -> word w -> w <> [] ->
  (forall b, head rest = Some b -> is_space b = true) -> first_word (space ++ w ++ rest) = w.
Proof.
  intros Hs Hw Hne Hr. unfold first_word. rewrite span_all; [|done|].
  - cbn [snd]. rewrite span_all; [done|exact Hw|]. intros x Hx. by rewrite (Hr x Hx).
  - destruct w as [|b w]; [done|]. intros x [= <-]. unfold word in Hw. cbn in Hw. apply andb_prop in Hw as [Hw _]. by apply negb_true_iff.
Qed.

Definition o_password : program_option := POption (b! "-p") (b! "--password") (b! "string") [].
Definition o_setting : program_option := POption (b! "-s") (b! "--setting") (b! "string") [].
Definition main_options : list program_option := [o_password; o_setting].
Lemma main_parser_made : exists p, main_parser = Gives p /\ options p = main_options /\
  short_circuit_options p = [SCOption (b! "-?") (b! "--help")] /\ named_arguments p = [] /\ arguments p = [].
Proof. eexists. split; [vm_compute; reflexivity|]. vm_compute. auto. Qed.

Definition reserved : list bytes := [b! "-?"; b! "--help"; b! "-p"; b! "--password"; b! "-s"; b! "--setting"].

Lemma main_line argv0 line pw path : line <> [] ->
  readable main_options line -> (forall nv, nv ∈ line -> exists o, o ∈ main_options /\ named_by nv.1 o = true) ->
  (forall t, t ∈ line_tokens line -> t <> b! "-?" /\ t <> b! "--help") ->
  map (fun o => option_value (told line o)) main_options = [pw; path] ->
  main_arguments argv0 (line_tokens line) = Gives (first_word pw, first_word path).
Proof.
  intros Hne Hr Hall Hsc Hv. destruct main_parser_made as (p & Ep & Eo & Es & En & Ea). unfold main_arguments. rewrite Ep.
  destruct (command_line_read p argv0 line En Ea Hne) as (name & E).
  - by rewrite Eo.
  - by rewrite Eo.
  - intros t o Ht. rewrite Es. intros [->|Hn]%elem_of_cons; [|by apply not_elem_of_nil in Hn]. destruct (Hsc t Ht) as [H1 H2].
    unfold names. cbn [sc_short sc_long]. by rewrite !bool_decide_eq_false_2.
  - cbv beta iota delta [mbind ended_bind]. rewrite E, Eo. cbn [map main_options] in Hv. injection Hv as H1 H2.
    assert (Hn : forall o, short_name (told line o) = short_name o /\ option_type (told line o) = option_type o)
      by (intros o; unfold told; by destruct (List.find _ _)).
    destruct (Hn o_password) as [Sp Tp]. destruct (Hn o_setting) as [Ss Ts].
    unfold get_option. cbn [options with_options map main_options List.find]. rewrite Sp, Ss.
    rewrite (bool_decide_eq_true_2 (short_name o_password = _)), (bool_decide_eq_false_2 (short_name o_password = _)),
      (bool_decide_eq_true_2 (short_name o_setting = _)) by done.
    rewrite Tp, Ts. rewrite (bool_decide_eq_true_2 (option_type o_password = _)), (bool_decide_eq_true_2 (option_type o_setting = _)) by done.
    by rewrite H1, H2.
Qed.

Lemma one_or_none_pair {A} (f : A -> bool) x y : f x = false \/ f y = false -> one_or_none f [x; y].
Proof.
  intros H a z b E Hz. destruct a as [|a1 [|a2 a]]; [injection E as -> <-|injection E as -> -> <-|by destruct a].
  - split; [done|]. cbn. destruct H as [H|H]; [congruence|by rewrite H].
  - split; [|done]. cbn. destruct H as [H|H]; [by rewrite H|congruence].
Qed.
Lemma one_or_none_one {A} (f : A -> bool) x : one_or_none f [x].
Proof. intros a z b E Hz. destruct a as [|a1 a]; [by injection E as -> <-|by destruct a]. Qed.

(** The four names: whose they are. *)
Definition password_names : list bytes := [b! "-p"; b! "--password"].
Definition setting_names : list bytes := [b! "-s"; b! "--setting"].
Lemma password_named n : n ∈ password_names -> named_by n o_password = true /\ named_by n o_setting = false /\ n <> b! "-?" /\ n <> b! "--help".
Proof. intros [->|[->|[]%not_elem_of_nil]%elem_of_cons]%elem_of_cons; by split_and!. Qed.
Lemma setting_named n : n ∈ setting_names -> named_by n o_password = false /\ named_by n o_setting = true /\ n <> b! "-?" /\ n <> b! "--help".
Proof. intros [->|[->|[]%not_elem_of_nil]%elem_of_cons]%elem_of_cons; by split_and!. Qed.
Lemma value_named v : v ∉ reserved -> named_by v o_password = false /\ named_by v o_setting = false /\ v <> b! "-?" /\ v <> b! "--help".
Proof.
  unfold reserved. rewrite !not_elem_of_cons. intros (H1 & H2 & H3 & H4 & H5 & H6 & _). unfold named_by, names.
  split; [by rewrite !bool_decide_eq_false_2|]. split; [by rewrite !bool_decide_eq_false_2|done].
Qed.

Lemma main_line_of argv0 line pw path : line <> [] ->
  (forall nv, nv ∈ line -> (nv.1 ∈ password_names \/ nv.1 ∈ setting_names) /\ nv.2 ∉ reserved) ->
  (forall o, o ∈ main_options -> one_or_none (fun nv => named_by nv.1 o) line) ->
  map (fun o => option_value (told line o)) main_options = [pw; path] ->
  main_arguments argv0 (line_tokens line) = Gives (first_word pw, first_word path).
Proof.
  intros Hne Hl Hone Hv. apply main_line; [exact Hne| | | |exact Hv].
  - constructor; [|intros o nv Ho Hin|exact Hone|intros nv Hin].
    + intros o [->|[->|[]%not_elem_of_nil]%elem_of_cons]%elem_of_cons; by vm_compute.
    + destruct (value_named nv.2 ltac:(by apply Hl)) as (H1 & H2 & _).
      by apply elem_of_cons in Ho as [->|[->|[]%not_elem_of_nil]%elem_of_cons].
    + apply one_or_none_pair. destruct (Hl nv Hin) as [[Hn|Hn] _]; [right; apply (password_named _ Hn)|left; apply (setting_named _ Hn)].
  - intros nv Hin. destruct (Hl nv Hin) as [[Hn|Hn] _].
    + exists o_password. split; [by left|apply (password_named _ Hn)].
    + exists o_setting. split; [right; by left|apply (setting_named _ Hn)].
  - intros t Ht. unfold line_tokens in Ht. apply list_elem_of_In, in_concat in Ht as (l & Hl1 & Ht).
    apply in_map_iff in Hl1 as (nv & <- & Hin%list_elem_of_In). destruct (Hl nv Hin) as [Hn Hr].
    destruct (value_named nv.2 Hr) as (_ & _ & H1 & H2). destruct Ht as [<-|[<-|[]]]; [|done].
    destruct Hn as [Hn|Hn]; [by destruct (password_named _ Hn) as (_ & _ & ? & ?)|by destruct (setting_named _ Hn) as (_ & _ & ? & ?)].
Qed.

(** C20: the program takes its password and the path of its settings in either order and by
    either name, and without one of them it has nothing for it.  It gets the first word of
    what was given: a value with a blank is cut there, and no command line whatever gives
    the program a password or a path that has a blank. *)
Theorem main_reads argv0 : (forall np ns pw path, np ∈ password_names -> ns ∈ setting_names -> pw ∉ reserved -> path ∉ reserved ->
    main_arguments argv0 [np; pw; ns; path] = Gives (first_word pw, first_word path) /\
    main_arguments argv0 [ns; path; np; pw] = Gives (first_word pw, first_word path) /\
    main_arguments argv0 [np; pw] = Gives (first_word pw, []) /\
    main_arguments argv0 [ns; path] = Gives ([], first_word path)) /\
  (forall tokens pw path, main_arguments argv0 tokens = Gives (pw, path) -> word pw /\ word path) /\
  (forall v, word v -> first_word v = v).
Proof.
  split; [|split].
  - intros np ns pw path Hnp Hns Hpw Hpath. destruct (password_named np Hnp) as (P1 & P2 & _). destruct (setting_named ns Hns) as (S1 & S2 & _).
    assert (Hv : forall line, map (fun o => option_value (told line o)) main_options =
      [option_value (told line o_password); option_value (told line o_setting)]) by done.
    assert (Hin : forall nv, nv ∈ [(np, pw); (ns, path)] -> (nv.1 ∈ password_names \/ nv.1 ∈ setting_names) /\ nv.2 ∉ reserved).
    { intros nv [->|[->|[]%not_elem_of_nil]%elem_of_cons]%elem_of_cons; cbn [fst snd]; auto. }
    split; [|split; [|split]].
    + apply (main_line_of argv0 [(np, pw); (ns, path)]); [done|exact Hin| |].
      * intros o [->|[->|[]%not_elem_of_nil]%elem_of_cons]%elem_of_cons; apply one_or_none_pair; cbn [fst]; auto.
      * rewrite Hv. unfold told. cbn [List.find fst snd]. by rewrite P1, P2, S2.
    + apply (main_line_of argv0 [(ns, path); (np, pw)]); [done| | |].
      * intros nv Hnv. apply Hin. rewrite !elem_of_cons in *. tauto.
      * intros o [->|[->|[]%not_elem_of_nil]%elem_of_cons]%elem_of_cons; apply one_or_none_pair; cbn [fst]; auto.
      * rewrite Hv. unfold told. cbn [List.find fst snd]. by rewrite S1, P1, S2.
    + rewrite <-(first_word_of []) by done. apply (main_line_of argv0 [(np, pw)]); [done| | |].
      * intros nv [->|[]%not_elem_of_nil]%elem_of_cons. apply Hin. by left.
      * intros o _. apply one_or_none_one.
      * rewrite Hv. unfold told. cbn [List.find fst snd]. by rewrite P1, P2.
    + rewrite <-(first_word_of []) by done. apply (main_line_of argv0 [(ns, path)]); [done| | |].
      * intros nv [->|[]%not_elem_of_nil]%elem_of_cons. apply Hin. right. by left.
      * intros o _. apply one_or_none_one.
      * rewrite Hv. unfold told. cbn [List.find fst snd]. by rewrite S1, S2.
  - intros tokens pw path E. unfold main_arguments in E. destruct main_parser as [p| |]; [|done..].
    cbv beta iota delta [mbind ended_bind] in E. destruct (parse argv0 tokens p) as [p1| |]; [|done..].
    assert (Hg : forall name v, get_option (T := bytes) name p1 = Gives v -> word v).
    { intros name v Eg. unfold get_option in Eg. destruct (match List.find _ _ with Some o => _ | None => _ end) as [o|]; [|done].
      destruct (bool_decide _); [injection Eg as <-; apply first_word_word|done]. }
    destruct (get_option (b! "-p") p1) as [v1| |] eqn:E1; [|done..]. destruct (get_option (b! "-s") p1) as [v2| |] eqn:E2; [|done..].
    injection E as <- <-. split; by eapply Hg.
  - apply first_word_of.
Qed.

Lemma main_reads_witness :
  main_arguments (b! "muse") [b! "-p"; b! "my secret"; b! "--setting"; b! "/etc/muse.ini"] = Gives (b! "my", b! "/etc/muse.ini").
Proof.
  destruct (main_reads (b! "muse")) as [H _].
  destruct (H (b! "-p") (b! "--setting") (b! "my secret") (b! "/etc/muse.ini")) as [E _];
    [by apply (bool_decide_unpack _)..|]. rewrite E. vm_compute. reflexivity.
Defined.

(** What else a line can come to: the help, a value that is missing, a dash in front of the
    rest, an empty token that is left over. *)
Example main_other_lines :
  main_arguments [] [b! "-s"; b! "a"; b! "--help"] = Exits 0 (Some 0%nat) /\
  main_arguments [] [b! "-p"; b! "a"; b! "-s"] = failure /\
  main_arguments [] [b! "-p"; b! "a"; b! "-x"] = failure /\
  main_arguments [] [b! "-p"; b! "-s"; b! "a"] = failure /\
  main_arguments [] [b! "-p"; b! "a"; []] = Breaks.
Proof. vm_compute. auto. Qed.

(** Short names share one index, whatever list they are in: behind one dash, a flag is
    looked up among the options that end the program, and [back] of one that has no short
    name is undefined. *)
Example shared_index :
  (p ← add_sc_option [] (b! "--version") argparser_new; p ← add_flag (b! "-a") (b! "--all") p;
   p ← add_flag (b! "-b") (b! "--brief") p; parse [] [b! "-ab"] p) = Breaks.
Proof. vm_compute. reflexivity. Qed.
