(* ===== verification/P2P.v ===== *)
(** * The routers, and the start of the program: [p2p_router.cpp], [main.cpp]

    A start reads the settings and the configuration of the network, sets up the RPC and
    the log, asks every router of the network for a sign of life, and only goes on when one
    has answered.  The requests go over a world of their own; the machine is that of
    [Application]. *)
From S2P Require Import Prelude Stream Serializer SerializerLaws Uint256 Transaction Block BloomFilter Wire.
From S2P Require Import LevelDB Ecc MptNode Mpt AccountTrie Effects Ledger Settings BlockStore BlockStoreTheorems Application ApplicationTheorems.
From S2P Require Import Pieces Registry LedgerStore NetNode ArgParse.

(** [Disposition::Prefix] and [route_path]. *)
Definition Prefix : bytes := b! "@context/".
Definition RouterHeartBeatTest : bytes := Prefix ++ b! "routing_center/heart_beat".

Record P2P_router := P2P {
  p2p_host_address : uint256;
  p2p_net : node_net;
  p2p_routers : list (router * bool);
  CAS : list (CA * bool);
  p2p_nodes : gmap uint256 chain_node;
}.

(** The hash is not initialised. *)
Definition P2P_new (host_address : uint256) : P2P_router := P2P host_address node_net_new [] [] ∅.
Definition with_routers (l : list (router * bool)) (p : P2P_router) : P2P_router :=
  P2P (p2p_host_address p) (p2p_net p) l (CAS p) (p2p_nodes p).

(** Nothing is removed: a second call appends. *)
Definition set_routers_and_ca (net : chain_net) (p : P2P_router) : bool * P2P_router :=
  match routers net with
  | [] => (false, p)
  | _ => (true, P2P (p2p_host_address p) (p2p_net p) (p2p_routers p ++ map (fun r => (r, true)) (routers net))
                  (CAS p ++ map (fun c => (c, true)) (cas net)) (p2p_nodes p))
  end.

Definition register_node (p : P2P_router) : bool :=
  match p2p_routers p with
  | _ :: _ => false
  | [] => forallb snd (p2p_routers p)
  end.

(** ** Asking the routers *)
Section Link.
Context {h : Host} {N : Type}.
(** A client for a router can be made: its address can be read.  Otherwise the
    constructor throws a [ClientException]. *)
Variable reachable : router -> bool.
(** The requests of that client. *)
Variable request : router -> bytes -> M N (option ResponseData).
(** Whether the exception that a call has left is a [ClientException]: [Effects] does not
    tell the exceptions of the standard library apart. *)
Variable is_client_exception : router -> exn -> N -> bool.

(** One turn of the loop, without the flag; [None] is a call that does not return. *)
Definition heart_beat (r : router) : M N (option bool) :=
  if negb (reachable r) then mret (Some false)
  else
    resp ← attempt (call (Res := num S_int32) (request r) (Str RouterHeartBeatTest) tt);
    match resp with
    | inr None => mret None
    | inr (Some resp) => mret (Some (isOK resp))
    | inl e => n ← get_state; if is_client_exception r e n then mret (Some false) else throw e
    end.

(** The routers before the loop and those it has yet to ask; [false] is a loop that has
    not come to its end. *)
Definition in_world {A} (m : M N A) : M (P2P_router * N) A := fun s =>
  match m s.2 with
  | Ret a n => Ret a (s.1, n)
  | Throw e n => Throw e (s.1, n)
  | Undefined => Undefined
  end.
Fixpoint link_loop (done todo : list (router * bool)) : M (P2P_router * N) bool :=
  match todo with
  | [] => mret true
  | (r, _) :: todo =>
      b ← in_world (heart_beat r);
      match b with
      | None => mret false
      | Some b =>
          modify_state (fun s => (with_routers (done ++ (r, b) :: todo) s.1, s.2)) ;;
          link_loop (done ++ [(r, b)]) todo
      end
  end.

Definition try_link_router : M (P2P_router * N) (option bool) :=
  s ← get_state;
  ends ← link_loop [] (p2p_routers s.1);
  if ends : bool then s ← get_state; mret (Some (foldl orb false (map snd (p2p_routers s.1))))
  else mret None.

(** ** What asking them comes to *)

(** The answers of a list of routers, one after the other. *)
Fixpoint ask (l : list router) : M N (option (list bool)) :=
  match l with
  | [] => mret (Some [])
  | r :: l =>
      b ← heart_beat r;
      match b with
      | None => mret None
      | Some b => bs ← ask l; mret (cons b <$> bs)
      end
  end.

(** What becomes of the loop when the answers are known. *)
Definition link_end (done todo : list (router * bool)) (p : P2P_router) (r : outcome N (option (list bool))) (e : outcome (P2P_router * N) bool) : Prop :=
  match r with
  | Ret (Some bs) n => e = Ret true (with_routers (done ++ zip (map fst todo) bs) p, n) /\ length bs = length todo
  | Ret None n => exists l, e = Ret false (with_routers l p, n) /\ map fst l = map fst (done ++ todo)
  | Throw x n => exists l, e = Throw x (with_routers l p, n) /\ map fst l = map fst (done ++ todo)
  | Undefined => e = Undefined
  end.

Lemma with_own_routers p : with_routers (p2p_routers p) p = p.
Proof. by destruct p. Qed.

Lemma link_loop_ask todo : forall done p n, p2p_routers p = done ++ todo ->
  link_end done todo p (ask (map fst todo) n) (link_loop done todo (p, n)).
Proof.
  induction todo as [|[r b0] todo IH]; intros done p n Hp; cbn [map ask fst link_loop].
  { cbn. by rewrite app_nil_r, <-(app_nil_r done), <-Hp, with_own_routers. }
  assert (Hkeep : p = with_routers (done ++ (r, b0) :: todo) p) by (by rewrite <-Hp, with_own_routers).
  unfold mbind, M_bind, in_world. cbn [snd fst]. destruct (heart_beat r n) as [[b|] n1|e n1|]; cbn [link_end].
  - cbn [modify_state snd fst]. set (p1 := with_routers _ p).
    specialize (IH (done ++ [(r, b)]) p1 n1 ltac:(cbn; by rewrite <-app_assoc)).
    destruct (ask (map fst todo) n1) as [[bs|] n2|e n2|]; cbn [mret M_ret fmap option_fmap option_map link_end] in *.
    + destruct IH as [-> Hl]. split; [|cbn; lia]. by rewrite <-app_assoc.
    + destruct IH as (l & -> & Hl). exists l. split; [done|]. by rewrite Hl, <-app_assoc, !map_app.
    + destruct IH as (l & -> & Hl). exists l. split; [done|]. by rewrite Hl, <-app_assoc, !map_app.
    + exact IH.
  - eexists. by split; [rewrite Hkeep at 1|].
  - eexists. by split; [rewrite Hkeep at 1|].
  - done.
Qed.

Lemma any_available l : foldl orb false l = existsb id l.
Proof.
  assert (H : forall a, foldl orb a l = a || existsb id l); [|apply H].
  induction l as [|b l IH]; intros a; cbn; [by rewrite orb_false_r|]. by rewrite IH, orb_assoc.
Qed.

(** Every router is asked once, in the order of the configuration, whatever the others
    answer; each gets the flag of its answer, and the result is whether one has answered.
    A call that does not return is where the loop stays, and an exception that is not a
    [ClientException] leaves it, with the routers in their places. *)
Theorem link_asks_all p n : let asked := map fst (p2p_routers p) in
  match ask asked n with
  | Ret (Some bs) n' => length bs = length asked /\
      try_link_router (p, n) = Ret (Some (existsb id bs)) (with_routers (zip asked bs) p, n')
  | Ret None n' => exists l, map fst l = asked /\ try_link_router (p, n) = Ret None (with_routers l p, n')
  | Throw e n' => exists l, map fst l = asked /\ try_link_router (p, n) = Throw e (with_routers l p, n')
  | Undefined => try_link_router (p, n) = Undefined
  end.
Proof.
  intros asked. pose proof (link_loop_ask (p2p_routers p) [] p n eq_refl) as H. unfold try_link_router.
  erewrite run_bind by reflexivity. cbn [fst]. unfold mbind at 1 3 5 7, M_bind at 1 3 5 7. fold asked in H.
  destruct (ask asked n) as [[bs|] n'|e n'|]; cbn [link_end] in H.
  - destruct H as [-> Hl]. split; [by unfold asked; rewrite length_map|]. unfold mbind, M_bind. cbn [get_state mret M_ret fst p2p_routers with_routers app].
    rewrite any_available. fold asked. do 3 f_equal. rewrite app_nil_l. change (map snd (zip asked bs)) with ((zip asked bs).*2).
    rewrite snd_zip; [done|unfold asked; rewrite length_map; lia].
  - destruct H as (l & -> & Hl). by exists l.
  - destruct H as (l & -> & Hl). by exists l.
  - by rewrite H.
Qed.
End Link.

(** ** The start of the program *)

(** The classes of the services; a channel has at most one object of each. *)
Inductive service_class := Zlib_service | Route_service.
#[export] Instance service_class_dec : EqDecision service_class.
Proof. solve_decision. Defined.

(** The static members of [ThreadPoolSetting]. *)
Record pool_setting := PoolSetting {
  MinThreadCount : Z;
  MaxThreadCount : Z;
  TaskQueueLength : Z;
  DynamicThreadVacantMillisecond : Z;
}.

(** What [Server_Configure] sets up in the process: the services of the channel, the
    settings of the pool, and the pool, which is made once, with the settings of that time,
    and has no thread until its first task. *)
Record rpc_process := Process {
  channel : list service_class;
  thread_setting : pool_setting;
  the_pool : option pool_setting;
}.
Definition process_new : rpc_process := Process [] (PoolSetting 4 4 4096 3000) None.

(** [MiddlewareChannel::configure]. *)
Definition register_service (c : service_class) (p : rpc_process) : rpc_process :=
  if decide (c ∈ channel p) then p else Process (channel p ++ [c]) (thread_setting p) (the_pool p).

(** [GetThreadPoolSingleton]: the constructor of the pool refuses more threads than the
    maximum. *)
Definition GetThreadPoolSingleton : M rpc_process unit :=
  p ← get_state;
  match the_pool p with
  | Some _ => mret tt
  | None =>
      if MaxThreadCount (thread_setting p) <? MinThreadCount (thread_setting p) then throw StdException
      else modify_state (fun p => Process (channel p) (thread_setting p) (Some (thread_setting p)))
  end.

(** [MUSE_FILE_NAME]. *)
Definition MUSE_FILE_NAME : bytes := b! "muse.log".

(** What a program that starts has: its machine, its routers, its part of the RPC, and
    what its requests go over. *)
Record program {F D K N : Type} := Program {
  the_machine : machine F D K;
  the_router : P2P_router;
  the_process : rpc_process;
  world_of : N;
}.
Arguments program F D K N : clear implicits.
Arguments Program {F D K N}.

Section Start.
Context {host : Host} `{HashHandler} {F D K N : Type} `{System F K} `{OpenSSL K} `{LevelDB D} `{Databases F D}.
Abbreviation prog := (program F D K N).
(** The file of the network can be opened; what the parser of JSON makes of it, nothing
    when it throws. *)
Variables (file_opens : F -> bytes -> bool) (net_file : F -> bytes -> option chain_net).
Variables (reachable : router -> bool) (request : router -> bytes -> M N (option ResponseData)).
Variable is_client_exception : router -> exn -> N -> bool.
(** What becomes of the files when spdlog makes and registers a logger that writes to the
    file with this name, and to the console or not; [false] when it throws a
    [spdlog_ex]. *)
Variable spdlog_logger : bytes -> bool -> F -> bool * F.

Definition in_machine {A} (m : M (machine F D K) A) : M prog A := fun s =>
  match m (the_machine s) with
  | Ret a k => Ret a (Program k (the_router s) (the_process s) (world_of s))
  | Throw e k => Throw e (Program k (the_router s) (the_process s) (world_of s))
  | Undefined => Undefined
  end.
Definition in_process {A} (m : M rpc_process A) : M prog A := fun s =>
  match m (the_process s) with
  | Ret a p => Ret a (Program (the_machine s) (the_router s) p (world_of s))
  | Throw e p => Throw e (Program (the_machine s) (the_router s) p (world_of s))
  | Undefined => Undefined
  end.
Definition in_network {A} (m : M (P2P_router * N) A) : M prog A := fun s =>
  match m (the_router s, world_of s) with
  | Ret a (p, n) => Ret a (Program (the_machine s) p (the_process s) n)
  | Throw e (p, n) => Throw e (Program (the_machine s) p (the_process s) n)
  | Undefined => Undefined
  end.

Definition load_net_chain_net (ini : chain_ini) : M (machine F D K) chain_net :=
  m ← get_state;
  let path := net_config_file_path ini in
  if negb (path_exists (files m) path) then throw StdException
  else if negb (file_opens (files m) path) then throw StdException
  else match net_file (files m) path with Some net => mret net | None => throw StdException end.

(** [InitSystemLogger]: the name of the directory and that of the file are put together
    without a separator. *)
Definition InitSystemLogger (log_directory : bytes) (console_open_state : bool) : M (machine F D K) unit :=
  m ← get_state;
  let '(success, fs) := spdlog_logger (log_directory ++ MUSE_FILE_NAME) console_open_state (files m) in
  modify_state (fun m => Machine fs (databases m) (keys m)) ;;
  if success then mret tt else throw StdException.

(** [Disposition::Server_Configure]: the directory of the log is looked at, the services are
    registered, the settings of the pool set, the pool made and the log opened. *)
Definition Server_Configure (setting : pool_setting) (logfile_directory : bytes) (console_open_state : bool) : M prog unit :=
  s ← get_state;
  let fs := files (the_machine s) in
  if negb (is_directory fs logfile_directory) then throw StdException
  else if negb (path_exists fs logfile_directory) then throw StdException
  else
    in_process (modify_state (register_service Zlib_service)) ;;
    in_process (modify_state (register_service Route_service)) ;;
    in_process (modify_state (fun p => Process (channel p) setting (the_pool p))) ;;
    in_process GetThreadPoolSingleton ;;
    in_machine (InitSystemLogger logfile_directory console_open_state).

(** The arguments of [main]. *)
Definition main_setting : pool_setting := PoolSetting 2 4 4096 5000.

Definition set_routers (net : chain_net) : M prog bool := fun s =>
  let '(b, p) := set_routers_and_ca net (the_router s) in Ret b (Program (the_machine s) p (the_process s) (world_of s)).

(** From the check of the network on: the exit code. *)
Definition enter_chain (create_time : Z) (password : bytes) (a : application) : M (machine F D K) Z :=
  a ← initialize create_time a;
  '(_, a) ← load_node_keys password a;
  _ ← inject_blocks a;
  destroy a ;;
  mret 0.

(** [main] behind its command line, up to its first use of the ledger; [None] is a start
    that waits for an answer for ever. *)
Definition start_program (path password : bytes) (create_time : Z) (uninitialised : application_state) (hash : uint256) : M prog (option Z) :=
  s ← get_state;
  let m := the_machine s in
  let a := application_make uninitialised hash in
  match load_setting_file (ini_file (files m) path) (path_exists (files m) path) (settings a) with
  | Undefined => undefined
  | Throw e _ => throw e
  | Ret false _ => mret (Some 1)
  | Ret true l =>
      let a := Application l (state a) (private_key a) (public_key a) (public_key_hash a) in
      net ← in_machine (load_net_chain_net (setting_ini l));
      set_routers net ;;
      Server_Configure main_setting (log_file_path (setting_ini l)) true ;;
      success ← in_network (try_link_router reachable request is_client_exception);
      match success with
      | None => mret None
      | Some false => mret (Some 1)
      | Some true => code ← in_machine (enter_chain create_time password a); mret (Some code)
      end
  end.

Definition main_program (argv0 : bytes) (tokens : list bytes) (create_time : Z) (uninitialised : application_state) (hash : uint256) :
    M prog (option Z) :=
  match main_arguments argv0 tokens with
  | Gives (password, path) => start_program path password create_time uninitialised hash
  | Exits code _ => mret (Some code)
  | Breaks => undefined
  end.

(** ** What a start needs *)
Section Needs.
Variables (path password : bytes) (create_time : Z) (uninitialised : application_state) (hash : uint256).
Variables (argv0 : bytes) (tokens : list bytes).
Hypothesis command_line : main_arguments argv0 tokens = Gives (password, path).
Let start := main_program argv0 tokens create_time uninitialised hash.

(** The settings and the configuration of the network have been read. *)
Definition configured (s : prog) (ini : chain_ini) (net : chain_net) : Prop :=
  (exists l, load_setting_file (ini_file (files (the_machine s)) path) (path_exists (files (the_machine s)) path)
     (settings (application_make uninitialised hash)) = Ret true l /\ setting_ini l = ini) /\
  path_exists (files (the_machine s)) (net_config_file_path ini) = true /\
  file_opens (files (the_machine s)) (net_config_file_path ini) = true /\
  net_file (files (the_machine s)) (net_config_file_path ini) = Some net.

Definition log_ready (s : prog) (ini : chain_ini) : bool :=
  is_directory (files (the_machine s)) (log_file_path ini) && path_exists (files (the_machine s)) (log_file_path ini).

(** The routers after the configuration has been taken over. *)
Definition routers_of (s : prog) (net : chain_net) : P2P_router := (set_routers_and_ca net (the_router s)).2.

Lemma network_loaded s ini net r : configured s ini net ->
  in_machine (load_net_chain_net ini) s = r -> r = Ret net s.
Proof.
  intros (_ & He & Ho & Hn) <-. unfold in_machine, load_net_chain_net. erewrite run_bind by reflexivity.
  cbv zeta. rewrite He, Ho, Hn. by destruct s.
Qed.

Lemma network_loaded_inv s ini : in_machine (load_net_chain_net ini) s = Throw StdException s \/
  exists net, in_machine (load_net_chain_net ini) s = Ret net s /\
    path_exists (files (the_machine s)) (net_config_file_path ini) = true /\
    file_opens (files (the_machine s)) (net_config_file_path ini) = true /\
    net_file (files (the_machine s)) (net_config_file_path ini) = Some net.
Proof.
  unfold in_machine, load_net_chain_net. erewrite run_bind by reflexivity. cbv zeta.
  destruct (path_exists _ _); [|left; by destruct s]. destruct (file_opens _ _); [|left; by destruct s].
  destruct (net_file _ _) as [net|]; [|left; by destruct s]. right. exists net. by destruct s.
Qed.

(** Whether the log opens, and the machine and the process after that. *)
Definition log_opens (s : prog) (ini : chain_ini) : bool :=
  (spdlog_logger (log_file_path ini ++ MUSE_FILE_NAME) true (files (the_machine s))).1.
Definition logged (m : machine F D K) (ini : chain_ini) : machine F D K :=
  Machine (spdlog_logger (log_file_path ini ++ MUSE_FILE_NAME) true (files m)).2 (databases m) (keys m).
Definition serving (p : rpc_process) : rpc_process :=
  Process (channel (register_service Route_service (register_service Zlib_service p))) main_setting
    (match the_pool p with Some t => Some t | None => Some main_setting end).

Lemma register_keeps c p : the_pool (register_service c p) = the_pool p.
Proof. unfold register_service. by case_decide. Qed.

Lemma log_checked s ini : Server_Configure main_setting (log_file_path ini) true s =
  if log_ready s ini then
    (if log_opens s ini then mret tt else throw StdException)
      (Program (logged (the_machine s) ini) (the_router s) (serving (the_process s)) (world_of s))
  else Throw StdException s.
Proof.
  unfold Server_Configure, log_ready. erewrite run_bind by reflexivity. cbv zeta.
  destruct (is_directory _ _); [|by destruct s]. destruct (path_exists _ _); [|by destruct s]. cbn [negb andb].
  do 3 (erewrite run_bind by reflexivity). cbn [the_process the_machine the_router world_of].
  set (p1 := Process _ main_setting _). set (s1 := Program _ _ p1 _).
  assert (E : in_process GetThreadPoolSingleton s1 =
    Ret tt (Program (the_machine s) (the_router s) (serving (the_process s)) (world_of s))).
  { unfold in_process, GetThreadPoolSingleton, serving. erewrite run_bind by reflexivity. subst s1 p1.
    cbn [the_process the_pool the_machine the_router world_of]. rewrite !register_keeps.
    by destruct (the_pool (the_process s)). }
  rewrite (run_bind _ _ _ _ _ E). unfold in_machine, InitSystemLogger, log_opens, logged. cbn [the_machine].
  erewrite run_bind by reflexivity. destruct (spdlog_logger _ _ _) as [[] fs]; by erewrite run_bind by reflexivity.
Qed.

Lemma chain_entered a m c m' : enter_chain create_time password a m = Ret c m' -> c = 0.
Proof.
  unfold enter_chain. intros E. apply ret_bind in E as (a1 & m1 & _ & E). apply ret_bind in E as ([b a2] & m2 & _ & E).
  apply ret_bind in E as (x & m3 & _ & E). apply ret_bind in E as ([] & m4 & _ & E). by injection E as <-.
Qed.

(** A start with its configuration goes on to the log, and then to the routers. *)
Definition after_network (a : application) : M prog (option Z) :=
  success ← in_network (try_link_router reachable request is_client_exception);
  match success with
  | None => mret None
  | Some false => mret (Some 1)
  | Some true => code ← in_machine (enter_chain create_time password a); mret (Some code)
  end.

(** Where a start with its configuration stands before and behind [Server_Configure]. *)
Definition before_log (s : prog) (net : chain_net) : prog :=
  Program (the_machine s) (routers_of s net) (the_process s) (world_of s).
Definition behind_log (s : prog) (ini : chain_ini) (net : chain_net) : prog :=
  Program (logged (the_machine s) ini) (routers_of s net) (serving (the_process s)) (world_of s).

Lemma start_configured s ini net : configured s ini net -> exists a,
  start s = if log_ready s ini then (if log_opens s ini then after_network a else throw StdException) (behind_log s ini net)
            else Throw StdException (before_log s net).
Proof.
  intros Hc. pose proof Hc as ((l & El & <-) & _). eexists. unfold start, main_program. rewrite command_line. unfold start_program.
  erewrite run_bind by reflexivity. cbv zeta. rewrite El.
  rewrite (run_bind _ _ _ _ _ (network_loaded s _ net _ Hc eq_refl)).
  unfold behind_log, before_log, set_routers, routers_of. unfold mbind at 1, M_bind at 1.
  destruct (set_routers_and_ca net (the_router s)) as [b p].
  cbn [snd]. set (s1 := Program _ _ _ _).
  change (log_ready s (setting_ini l)) with (log_ready s1 (setting_ini l)).
  change (log_opens s (setting_ini l)) with (log_opens s1 (setting_ini l)). pose proof (log_checked s1 (setting_ini l)) as Hl.
  unfold mbind at 1, M_bind at 1. rewrite Hl. destruct (log_ready s1 (setting_ini l)); [|done].
  by destruct (log_opens s1 (setting_ini l)).
Qed.

Lemma start_returned s c s' : start s = Ret (Some c) s' ->
  c = 1 \/ exists ini net, configured s ini net /\ log_ready s ini = true /\ log_opens s ini = true.
Proof.
  intros E. unfold start, main_program in E. rewrite command_line in E. unfold start_program in E. apply ret_bind in E as (s0 & s1 & [= <- <-] & E). cbv zeta in E.
  destruct (load_setting_file _ _ _) as [[] l| |] eqn:El; [|left; by injection E as <-|done..].
  apply ret_bind in E as (net & s1 & En & E). right. exists (setting_ini l), net.
  destruct (network_loaded_inv s (setting_ini l)) as [Ht|(net' & Er & He & Ho & Hn)]; [by rewrite Ht in En|].
  rewrite Er in En. injection En as <- <-. assert (Hc : configured s (setting_ini l) net').
  { split; [|done]. by exists l. }
  split; [exact Hc|]. apply ret_bind in E as (b & s2 & Es & E). apply ret_bind in E as ([] & s3 & Eg & E).
  unfold set_routers in Es. destruct (set_routers_and_ca net' (the_router s)) as [b' p]. injection Es as <- <-.
  rewrite log_checked in Eg. change (log_ready s (setting_ini l)) with (log_ready (Program (the_machine s) p (the_process s) (world_of s)) (setting_ini l)).
  change (log_opens s (setting_ini l)) with (log_opens (Program (the_machine s) p (the_process s) (world_of s)) (setting_ini l)).
  destruct (log_ready _ _); [|done]. by destruct (log_opens _ _).
Qed.

Lemma routers_taken s net : p2p_routers (the_router s) = [] -> map fst (p2p_routers (routers_of s net)) = routers net.
Proof.
  intros Hr. unfold routers_of, set_routers_and_ca. destruct (routers net) as [|r l] eqn:E; cbn [snd]; [by rewrite Hr|].
  cbn [p2p_routers]. by rewrite Hr, app_nil_l, map_map, map_id.
Qed.

Lemma answered_routers s ini net bs n a : p2p_routers (the_router s) = [] ->
  ask reachable request is_client_exception (routers net) (world_of s) = Ret (Some bs) n ->
  after_network a (behind_log s ini net) =
    (if existsb id bs then code ← in_machine (enter_chain create_time password a); mret (Some code) else mret (Some 1))
    (Program (logged (the_machine s) ini) (with_routers (zip (routers net) bs) (routers_of s net)) (serving (the_process s)) n).
Proof.
  intros Hr Ha. pose proof (link_asks_all reachable request is_client_exception (routers_of s net) (world_of s)) as Hask.
  cbv zeta in Hask. rewrite (routers_taken s net Hr), Ha in Hask. destruct Hask as [_ Hask].
  unfold after_network, behind_log. unfold mbind at 1, M_bind at 1. unfold in_network at 1. cbn [the_router world_of the_machine the_process].
  rewrite Hask. by destruct (existsb id bs).
Qed.

End Needs.
End Start.

(** ** A network of two routers *)
Section Scenario.
Local Instance start_host : Host := LittleEndian.
Definition first_router : router := Router (b! "127.0.0.1") (b! "R1") 15000 [].
Definition second_router : router := Router (b! "nowhere") (b! "R2") 15001 [].
Definition two_routers : chain_net := ChainNet [first_router; second_router] [] 15000.

(** The first answers every request with a 7, unless it is down; the second has no address. *)
Definition reached (r : router) : bool := bool_decide (router_ip r <> b! "nowhere").
Definition seven : bytes := encode (setOkState true header_new) ++ encode (Num 7 : num S_int32).
Definition answers_seven (down : bool) (r : router) (_ : bytes) : M nat (option ResponseData) :=
  modify_state S ;;
  mret (Some (if down then failed NetworkTimeout ResponseData_new else succeeded seven ResponseData_new)).

Lemma link_asks_all_example :
  try_link_router reached (answers_seven false) (fun _ _ _ => true)
    (with_routers [(second_router, true); (first_router, true)] (P2P_new uint256_zero), O) =
  Ret (Some true) (with_routers [(second_router, false); (first_router, true)] (P2P_new uint256_zero), 1%nat).
Proof. vm_compute. reflexivity. Qed.

(** The directories and files of [ApplicationTheorems], where everything exists. *)
#[local] Existing Instances node_digest toy_System toy_Databases.
Definition fresh_program : program unit (gmap bytes bytes) toy_key nat :=
  Program first_machine (P2P_new uint256_zero) process_new O.
(** A log that opens, and leaves the files of the example as they are. *)
Definition quiet_logger (_ : bytes) (_ : bool) (fs : unit) : bool * unit := (true, fs).
Definition start_line : list bytes := [b! "-p"; b! "secret"; b! "-s"; b! "setting.ini"].
Abbreviation started down :=
  (main_program (fun _ _ => true) (fun _ _ => Some two_routers) reached (answers_seven down) (fun _ _ _ => true) quiet_logger
    [] start_line 5 start_state uint256_zero fresh_program).

End Scenario.
