(* ===== verification/RemoteCall.v ===== *)
(** * A remote call

    Everything between a client's [call] and a method of the server: the message, the
    compression of both ends, the pieces and their acknowledgements, the reactors, the
    thread pool, the router and the registry, and the way back. *)
From S2P Require Import Prelude Stream Serializer SerializerLaws SerializerTheorems Protocol TimerTree Effects Pieces Reassembly Packets Middleware Invoker SubReactor SubReactorLaws SubReactorTheorems Turns Reactor Exchange ExchangeTheorems Registry RegistryTheorems.

Section RemoteCall.
Context {h : Host} {P : Pool} {Zl : Zlib} {ZL : ZlibLaws} {St : Type}.
(** The server: what the pool and the poll take, its registries, and what is in memory
    behind the data that is compressed. *)
Variables (commit : Servlet -> bool) (epoll_add : Z -> bool) (registry concurrent_registry : dictionary (St := St)).
Variables (behind behind' : bytes).
Variables (me server_at : address) (fd : Z) (idx vc : nat) (id d : Z).
Variable client_router : middleware_service (session (world St) address).
(** The method. *)
Context {A : Type} {PA : ArgPack A} {ST : Serializable (tuple A)} {LT : SerializerLaws (tuple A)}.
Context {Res : Type} {SR : Serializable Res} {LR : SerializerLaws Res}.
Hypothesis default_args : ser_old (Tuple (default_pack (A := A))).
Variable f : A -> M St Res.

(** The channels that [Server_Configure] and [Client_Configure] make. *)
Definition server_channel : list (middleware_service St) :=
  [ZlibService behind; RouteService registry concurrent_registry].
Definition client_channel : list (middleware_service (session (world St) address)) := [ZlibService behind'; client_router].

(** ** The task of the server *)
Lemma message_named Name args : Z.of_nat (length (the_message Name args)) < 2 ^ 64 -> ser_wf Name ->
  exists v, View_output_string (View_new (the_message Name args) (Z.of_nat (length (the_message Name args)))) = (Ok Name, v).
Proof.
  intros Hl Hn. eexists. apply (output_reads (S := BinaryDeserializeView) (Str []) Name Hn I (encode (Tuple args))).
  by apply at_bytes_view.
Qed.

Lemma answer_run Name args z o st st' z' : compress (the_message Name args) = Some z ->
  Z.of_nat (length (the_message Name args)) < 2 ^ 32 -> ser_wf Name -> ser_wf (Tuple args) ->
  ~ prefix_name `prefix_of` str_bytes Name -> registered f registry concurrent_registry Name ->
  local_call f args st = Some (o, st') -> outcome_wf o -> compress (encode_outcome o) = Some z' ->
  answer server_channel me (zipped (the_message Name args) z) st = Ret (zipped (encode_outcome o) z') st'.
Proof.
  intros Hz Hl Hn Ha Hpre Hreg Hloc Ho Hz'. unfold answer.
  assert (E1 : ClientIn server_channel (zipped (the_message Name args) z) st = Ret (the_message Name args) st).
  { unfold ClientIn, outer, server_channel. cbn [length Nat.sub take map through In ZlibService].
    by rewrite (run_bind _ _ _ _ _ (zlib_in behind _ _ st Hz Hl)). }
  rewrite (run_bind _ _ _ _ _ E1). destruct (message_named Name args ltac:(lia) Hn) as (v & ->).
  cbn [last server_channel]. rewrite decide_False by done.
  assert (E2 : In (RouteService registry concurrent_registry) (the_message Name args) st = Ret (encode_outcome o) st').
  { cbn [In RouteService]. by apply (route_registered default_args f _ _ _ _ _ _ _ Hn Ha ltac:(lia) Hreg Hloc Ho). }
  rewrite (run_bind _ _ _ _ _ E2). unfold MiddlewareChannel_Out. cbn [map server_channel Out RouteService ZlibService].
  change (reverse [ZlibService_Out; RouteService_Out]) with [RouteService_Out (St := St); ZlibService_Out].
  cbn [through]. unfold RouteService_Out. erewrite run_bind by reflexivity.
  by rewrite (run_bind _ _ _ _ _ (zlib_out _ _ st' Hz')).
Qed.

(** ** The call *)
Lemma message_written Name args : ser_wf Name -> ser_wf (Tuple args) ->
  exists s, message Name args BinarySerializer_new = (Ok tt, s) /\ byteStream s = the_message Name args.
Proof.
  intros Hn Ha. destruct (writes_bind _ _ _ _ (input_writes Name Hn) (input_writes (Tuple args) Ha) _ fresh_writable) as (s & E & HB & _).
  exists s. split; [exact E|]. by rewrite HB.
Qed.

Lemma local_outcome_shape args st o st' : local_call f args st = Some (o, st') ->
  ser_wf (outcome_response o) /\ (ok (outcome_response o) = false -> value o = default_value) /\ protocolReason o = OK.
Proof.
  unfold local_call. destruct (f args st); intros [= <- <-]; (split; [apply header_wf_any|]); done.
Qed.

#[local] Instance remote_network : Network (world St) address :=
  exchange_network commit epoll_add server_channel me server_at fd.

(** A client that can call, and a server that no timer disturbs for [d] milliseconds; its
    pool is busy for the first [slow] timeouts of the client, and for less than [d]. *)
Record ready (st : St) (t : session (world St) address) : Prop := {
  ready_address : server_address t = server_at;
  ready_buffer : buffer_fine t;
  ready_server : idle me fd idx vc id d st (net t);
  ready_inbox : inbox (net t) = [];
  ready_pool : 5 <= d < RequestTimeOut /\ 600 * Z.of_nat (slow (net t)) + 5 <= d;
  ready_taken : commit (sv id me) = true /\ epoll_add fd = true /\ is_uint 64 id;
}.

(** A call of a method that the server has, with values the serializer takes; [z] is its
    message compressed. *)
Record callable Name (args : A) (z : bytes) : Prop := {
  call_name : ser_wf Name /\ ~ prefix_name `prefix_of` str_bytes Name;
  call_args : ser_wf (Tuple args);
  call_method : registered f registry concurrent_registry Name;
  call_bytes : bytes_ok (the_message Name args) /\ Z.of_nat (length (the_message Name args)) <= 1024 * 1024 * 100;
  call_packed : compress (the_message Name args) = Some z /\ 0 < Z.of_nat (length z) <= 65528 * 522 - 4;
}.

(** C2: a remote call is a call.  Over a network that loses nothing, with a message of up to
    34 MB and a pool that may be busy for seconds, the client gets what the method gives on
    the state of the server, its exception included, and the server is left in the state
    the method leaves, which has run once; as long as the answer fits in one piece.  When
    it does not, acknowledging its first piece makes the server read a block that it has
    given back. *)
Theorem remote_call Name args z z' o st st' fuel t :
  ready st t -> callable Name args z -> local_call f args st = Some (o, st') -> outcome_wf o ->
  bytes_ok (encode_outcome o) -> Z.of_nat (length (encode_outcome o)) < 2 ^ 32 ->
  compress (encode_outcome o) = Some z' -> Z.of_nat (length z') <= 65535 * 522 - 4 -> 65536 <= Z.of_nat fuel ->
  let remote := call (Res := Res) (request client_channel fuel id) Name args t in
  (Z.of_nat (length z') <= 518 -> exists t', remote = Ret (Some o) t' /\
     exists s, subs (main (net t')) !! idx = Some s /\ app_state s = st' /\ pending s = []) /\
  (518 < Z.of_nat (length z') -> remote = Undefined).
Proof.
  intros [Hsrv Hbuf Hidle Hin [Hd Hslow] (Hcommit & Hepoll & Hid)] [[Hn Hpre] Ha Hreg [Hmok Hml] [Hz Hzl]] Hloc Ho Hrok Hrl Hz' Hzl' Hfuel.
  destruct (message_written Name args Hn Ha) as (s & Em & Hs).
  assert (Hlz : forall data x, Z.of_nat (length (zipped data x)) = 4 + Z.of_nat (length x))
    by (intros; unfold zipped; rewrite length_app, le_encode_length; lia).
  assert (Hzok : forall data x, bytes_ok data -> compress data = Some x -> bytes_ok (zipped data x)).
  { intros data x Hd1 Hx. apply Forall_app_2; [apply le_encode_ok|]. destruct (compress_ok data Hd1) as (y & Ey & Hy).
    rewrite Ey in Hx. by injection Hx as <-. }
  assert (Hfuels : pieces (Z.of_nat (length (zipped (the_message Name args) z))) < Z.of_nat fuel /\ (2 * slow (net t) < fuel)%nat).
  { rewrite Hlz. pose proof (pieces_bounds (4 + Z.of_nat (length z)) ltac:(lia)). unfold RequestTimeOut in *. lia. }
  assert (Hwire : ClientOut client_channel (the_message Name args) t = Ret (zipped (the_message Name args) z) t).
  { unfold ClientOut, outer, client_channel. cbn [length Nat.sub take map Out ZlibService].
    change (reverse [ZlibService_Out]) with [ZlibService_Out (S := session (world St) address)]. cbn [through].
    by rewrite (run_bind _ _ _ _ _ (zlib_out _ _ t Hz)). }
  assert (Hback : forall t', ClientIn client_channel (zipped (encode_outcome o) z') t' = Ret (encode_outcome o) t').
  { intros t'. unfold ClientIn, outer, client_channel. cbn [length Nat.sub take map In ZlibService through].
    by rewrite (run_bind _ _ _ _ _ (zlib_in behind' _ _ t' Hz' Hrl)). }
  destruct (local_outcome_shape args st o st' Hloc) as (Hh & Hdef & Hp).
  destruct (request_answered commit epoll_add server_channel me server_at fd idx vc (zipped (the_message Name args) z) id
    ltac:(rewrite Hlz; lia) Hid (Hzok _ _ Hmok Hz) Hcommit Hepoll d st Hd (zipped (encode_outcome o) z') st'
    ltac:(rewrite Hlz; lia) (Hzok _ _ Hrok Hz')
    (answer_run Name args z o st st' z' Hz ltac:(lia) Hn Ha Hpre Hreg Hloc Ho Hz')
    client_channel fuel t (the_message Name args) Hml Hwire Hsrv Hbuf Hidle Hin Hslow (proj1 Hfuels) (proj2 Hfuels)) as [H1 H2].
  rewrite Hlz in H1, H2. cbv zeta. unfold call. rewrite (run_bind _ _ _ _ _ (ser_run_ok _ _ _ _ t Em)). rewrite Hs. split.
  - intros Hshort. destruct (H1 ltac:(lia) (encode_outcome o) Hback) as (t' & r & E & Hok & Hdata & Hfin). exists t'.
    erewrite run_bind by exact E. cbv beta iota. rewrite Hok, Hdata.
    rewrite (run_bind _ _ _ _ _ (read_outcome_run o s t' Ho Hh Hdef Hp ltac:(lia))). split; [done|].
    destruct Hfin as (_ & s' & c & Hs' & _ & _ & _ & _ & _ & _ & Happ & Hpend). by exists s'.
  - intros Hlong. unfold mbind at 1, M_bind at 1. specialize (H2 ltac:(lia)). unfold net_instance in H2. unfold remote_network. by rewrite H2.
Qed.
End RemoteCall.

(** ** A call of a counter *)
Section Scenario.
Local Instance call_host : Host := LittleEndian.
Local Instance call_pool : Pool.
Proof.
  refine {| fresh_block n := replicate (Z.to_nat n) 0 |}.
  - intros n Hn. by rewrite length_replicate, Z2Nat.id.
  - intros n. by apply Forall_replicate.
Defined.

(** A compression that puts a mark before every byte, and one at the end. *)
Fixpoint mark (data : bytes) : bytes := match data with [] => [0] | b :: l => 1 :: b :: mark l end.
Fixpoint unmark (src : bytes) : option bytes :=
  match src with
  | 1 :: b :: l => cons b <$> unmark l
  | 0 :: _ => Some []
  | _ => None
  end.
Local Instance call_zlib : Zlib := {
  compress data := Some (mark data);
  uncompress src size := data ← unmark src; if Z.of_nat (length data) <=? size then Some data else None;
}.
Local Instance call_zlib_laws : ZlibLaws.
Proof.
  split.
  - intros data Hok. exists (mark data). split; [done|]. induction Hok as [|b l Hb _ IH]; cbn; [by apply Forall_singleton|].
    constructor; [done|]. by constructor.
  - intros data out tail size [= <-] Hs. cbn [uncompress call_zlib].
    assert (E : unmark (mark data ++ tail) = Some data) by (induction data as [|b l IH]; [done|cbn; rewrite IH; [done|cbn in Hs; lia]]).
    rewrite E. cbn. by rewrite (proj2 (Z.leb_le _ _)).
Qed.

(** The state of the server is a number; a negative argument is an exception. *)
Definition add (args : num S_int32 * unit) : M Z (num S_int32) :=
  let n := num_val args.1 in
  if n <? 0 then throw StdException else modify_state (Z.add n) ;; s ← get_state; mret (Num s).
Definition methods : dictionary (St := Z) := {[ b! "add" := callBind add ]}.

Definition caller : address := {| sin_port := 4000; sin_addr := 2130706433 |}.
Definition callee : address := {| sin_port := 5000; sin_addr := 2130706434 |}.
Definition the_server : Reactor Z := Reactor_new 1 1 0 (replicate 549 0) 7 false.
Definition the_client : session (world Z) address :=
  Session (World the_server [] 2) callee (replicate 549 0) 0 tryTimes 1 ResponseData_new.
Definition everything {A} (_ : A) : bool := true.
Local Instance call_network : Network (world Z) address :=
  exchange_network everything everything (server_channel methods ∅ []) caller callee 9.
Definition any_router : middleware_service (session (world Z) address) := {| In := mret; Out := mret |}.

Lemma call_ready : ready everything everything caller callee 9 0 0 7 9000 7 the_client.
Proof.
  split; try done.
  - split; [done|]. by apply Forall_replicate.
  - constructor; [|done..|by apply not_elem_of_empty]. eexists. split; [reflexivity|]. split.
    + constructor; try done; [by constructor|split; [done|by apply Forall_replicate]|]. intros c [= <-]. done.
    + split; [reflexivity|]. split; [|by split]. intros i c Hi. change (([VirtualConnection_new] : list VirtualConnection) !! i = Some c) in Hi.
      destruct i as [|i]; [by injection Hi as <-|by destruct i].
Qed.

Lemma add_default : ser_old (Tuple (default_pack (A := num S_int32 * unit))).
Proof. by repeat split. Qed.

Lemma remote_call_witness :
  exists t', call (Res := num S_int32) (request (client_channel [] any_router) (Z.to_nat 65536) 7) (Str (b! "add"))
      (Num 5 : num S_int32, tt) the_client =
    Ret (Some {| value := Num 12; outcome_response := setOkState true header_new; protocolReason := OK |}) t' /\
    exists s, subs (main (net t')) !! 0%nat = Some s /\ app_state s = 12 /\ pending s = [].
Proof.
  set (o := {| value := Num 12 : num S_int32; outcome_response := setOkState true header_new; protocolReason := OK |}).
  destruct (remote_call everything everything methods ∅ [] [] caller callee 9 0 0 7 9000 any_router add_default add
    (Str (b! "add")) (Num 5, tt) (mark (the_message (Str (b! "add")) (Num 5 : num S_int32, tt))) (mark (encode_outcome o)) o 7 12
    (Z.to_nat 65536) the_client) as [H _].
  - exact call_ready.
  - constructor; [split; [done|]|done|left; reflexivity| |].
    + by apply (bool_decide_unpack _).
    + split; [by apply (bool_decide_unpack _)|done].
    + split; [reflexivity|done].
  - reflexivity.
  - intros _. reflexivity.
  - by apply (bool_decide_unpack _).
  - done.
  - reflexivity.
  - done.
  - rewrite Z2Nat.id; lia.
  - apply H. vm_compute. congruence.
Defined.

(** The method is known, "sub" is not, and a negative argument is an exception. *)
Lemma route_answers_witness :
  RouteService_In methods ∅ (the_message (Str (b! "add")) (Num 5 : num S_int32, tt)) 7 =
    Ret (encode (setOkState true header_new) ++ encode (Num 12 : num S_int32)) 12 /\
  RouteService_In methods ∅ (the_message (Str (b! "add")) (Num (-5) : num S_int32, tt)) 7 =
    Ret (encode (setReason MethodExecutionError header_new)) 7 /\
  RouteService_In methods ∅ (encode (Str (b! "sub")) ++ []) 7 = Ret (encode (setReason MethodNotExist header_new)) 7.
Proof.
  split; [|split].
  - destruct (route_answers (A := num S_int32 * unit) add_default add methods ∅ (Str (b! "add")) (Num 5, tt) [] 7) as [H _]; [done..|].
    apply (H ltac:(left; reflexivity) {| value := Num 12; outcome_response := setOkState true header_new; protocolReason := OK |} 12);
      [reflexivity|intros _; reflexivity].
  - destruct (route_answers (A := num S_int32 * unit) add_default add methods ∅ (Str (b! "add")) (Num (-5), tt) [] 7) as [H _]; [done..|].
    apply (H ltac:(left; reflexivity)
      {| value := default_value; outcome_response := setReason MethodExecutionError header_new; protocolReason := OK |} 7);
      [reflexivity|done].
  - destruct (route_answers (A := num S_int32 * unit) add_default add methods ∅ (Str (b! "sub")) (Num 5, tt) [] 7) as (_ & _ & H & _);
      [done..|]. by apply H.
Defined.
End Scenario.
