(* ===== verification/InvokerTheorems.v ===== *)
(** * The synchronous client: theorems

    A call that nobody answers ends after three timeouts of each phase; a server that has
    forgotten the call keeps it waiting for ever. *)
From S2P Require Import Prelude Stream Protocol Effects Pieces Reassembly Packets Middleware Invoker.

Section Theorems.
Context {h : Host} {P : Pool}.

Lemma message_count_of (data : bytes) : 0 < Z.of_nat (length data) <= 65528 * 522 ->
  u16 (Z.of_nat (length data) / defaultPieceLimitSize +
    (if u32 (Z.of_nat (length data)) mod defaultPieceLimitSize =? 0 then 0 else 1)) = pieces (Z.of_nat (length data)) /\
  u32 (Z.of_nat (length data)) = Z.of_nat (length data) /\ 0 < pieces (Z.of_nat (length data)) <= 65528.
Proof.
  intros Hn. set (n := Z.of_nat (length data)) in *. pose proof (pieces_bounds n ltac:(lia)).
  assert (En : u32 n = n) by (apply wrap_small; unfold is_uint; lia). rewrite En. split_and!; try lia.
  change (u16 (pieces n) = pieces n). apply wrap_small. unfold is_uint. lia.
Qed.

(** ** A network that is silent: its state is what was sent *)
Section Silent.
Local Instance silent_network : Network (list bytes) unit := {
  sendto _ packet := modify_state (fun l => l ++ [packet]);
  recvfrom _ := mret None;
}.
Implicit Types t : session (list bytes) unit.
Variables (data : bytes) (id : Z).
Abbreviation n := (Z.of_nat (length data)).
Abbreviation p := (pieces n).
Hypothesis Hn : 0 < n <= 65528 * 522.

Definition piece_of (i : Z) : bytes := request_piece id n i (size_of_piece n p i) ++ piece data i.

Lemma send_logged packet t : send packet t = Ret tt (with_net (net t ++ [packet]) t).
Proof. unfold send. by erewrite run_bind by reflexivity. Qed.
Lemma send_buffered_logged packet t :
  send_buffered packet t = Ret tt (with_net (net t ++ [packet]) (with_buffer (put 0 packet (buffer t)) t)).
Proof. unfold send_buffered. erewrite run_bind by reflexivity. by rewrite send_logged. Qed.
Lemma recv_silent timeout t : recv timeout t = Ret (-1) t.
Proof. unfold recv. erewrite run_bind by reflexivity. by destruct t. Qed.

Lemma send_pieces_logged m : forall k t, 0 <= k -> k + Z.of_nat m <= p ->
  exists b, for_each (send_piece id data) (seqZ k (Z.of_nat m)) t =
    Ret tt (with_net (net t ++ map piece_of (seqZ k (Z.of_nat m))) (with_buffer b t)).
Proof.
  destruct (message_count_of data Hn) as (Ec & En & Hp).
  induction m as [|m IH]; intros k t Hk Hm.
  { exists (buffer t). change (seqZ k (Z.of_nat 0)) with (@nil Z). cbn. rewrite app_nil_r. by destruct t. }
  rewrite seqZ_cons by lia. replace (Z.pred (Z.of_nat (S m))) with (Z.of_nat m) by lia. cbn [for_each map].
  assert (Es : send_piece id data k t = send_buffered (piece_of k) t).
  { pose proof (size_of_piece_bounds n k ltac:(lia) ltac:(lia)) as [Hs1 Hs2].
    unfold send_piece. cbv zeta. rewrite Ec, En. fold (size_of_piece n p k).
    rewrite copy_from_spec by (change defaultPieceLimitSize with 522; lia). cbn [lift_option]. erewrite run_bind by reflexivity.
    unfold piece_of, piece. do 4 f_equal. change defaultPieceLimitSize with 522. lia. }
  rewrite (run_bind _ _ _ _ _ (eq_trans Es (send_buffered_logged _ _))).
  destruct (IH (Z.succ k) (with_net (net t ++ [piece_of k]) (with_buffer (put 0 (piece_of k) (buffer t)) t)) ltac:(lia) ltac:(lia)) as (b & E).
  exists b. rewrite E. cbn. by rewrite <-app_assoc.
Qed.

Definition ask : bytes := request_ACK_packet id n.

(** A turn in which nothing comes. *)
Lemma wait_silent m t : wait_acks id data (S m) t =
  Ret None (with_net (net t ++ [ask]) (with_buffer (put 0 ask (buffer t)) t)).
Proof.
  destruct (message_count_of data Hn) as (_ & En & _). cbn [wait_acks]. rewrite (run_bind _ _ _ _ _ (recv_silent _ _)).
  change (0 <? -1) with false. cbv iota. by rewrite En, (run_bind _ _ _ _ _ (send_buffered_logged _ _)).
Qed.

(** The turns after the first send no piece. *)
Lemma silent_turns k : forall t fuel, accepted t = 0 -> receiveMessageCount t = 0 -> needTry t = Z.of_nat (S k) ->
  exists t', phase_request id data (S k + fuel) t = Ret (Answer (failed NetworkTimeout (response t))) t' /\
    net t' = net t ++ replicate (S k) ask.
Proof.
  destruct (message_count_of data Hn) as (Ec & En & Hp).
  assert (Ht : exists m, Z.to_nat (turn_size data 0) = S m).
  { unfold turn_size. cbv zeta. rewrite Ec. assert (Hs : 1 <= getSendCount p <= 7).
    { unfold getSendCount. destruct (_ <=? 3); [lia|]. destruct (_ && _); [lia|]. destruct (_ && _); lia. }
    exists (Z.to_nat (turn_size data 0) - 1)%nat. unfold turn_size. cbv zeta. rewrite Ec.
    replace (u16 (0 + getSendCount p)) with (getSendCount p) by (symmetry; apply wrap_small; unfold is_uint; lia). lia. }
  destruct Ht as (m & Em). induction k as [|k IH]; intros t fuel Ha Hr Ht.
  - cbn [Nat.add phase_request]. erewrite run_bind by reflexivity. cbv zeta. rewrite Ec, Ha, (proj2 (Z.eqb_neq 0 p)) by lia. rewrite Hr.
    change (0 =? 0) with true. cbv iota. do 2 (erewrite run_bind by reflexivity). rewrite Em.
    rewrite (run_bind _ _ _ _ _ (wait_silent _ _)). erewrite run_bind by reflexivity. cbn [receiveMessageCount with_net with_buffer with_received].
    change (0 =? 0) with true. cbv iota. erewrite run_bind by reflexivity. cbn [needTry with_net with_buffer with_received]. rewrite Ht.
    change (Z.of_nat 1 - 1 <=? 0) with true. cbv iota. by eexists.
  - replace (S (S k) + fuel)%nat with (S (S k + fuel)) by lia. cbn [phase_request]. erewrite run_bind by reflexivity. cbv zeta.
    rewrite Ec, Ha, (proj2 (Z.eqb_neq 0 p)) by lia. rewrite Hr.
    change (0 =? 0) with true. cbv iota. do 2 (erewrite run_bind by reflexivity). rewrite Em.
    rewrite (run_bind _ _ _ _ _ (wait_silent _ _)). erewrite run_bind by reflexivity. cbn [receiveMessageCount with_net with_buffer with_received].
    change (0 =? 0) with true. cbv iota. erewrite run_bind by reflexivity. cbn [needTry with_net with_buffer with_received]. rewrite Ht.
    rewrite (proj2 (Z.leb_gt _ _)) by lia.
    match goal with |- context [phase_request id data (S k + fuel) ?x] => destruct (IH x fuel) as (t' & E & Hnet) end;
      [done|done|cbn; lia|]. exists t'. split; [exact E|]. rewrite Hnet. cbn. by rewrite <-app_assoc.
Qed.

Definition heartbeat : bytes := request_heartbeat_packet id Protocol.Response.

Lemma silent_phase2 k : forall t fuel, needTry t = Z.of_nat (S k) ->
  exists t', phase_response id (S k + fuel) t = Ret (Answer (failed NetworkTimeout (response t))) t' /\
    net t' = net t ++ replicate (S k) heartbeat.
Proof.
  induction k as [|k IH]; intros t fuel Ht.
  - cbn [Nat.add phase_response]. rewrite (run_bind _ _ _ _ _ (recv_silent _ _)). change (0 <? -1) with false. cbv iota.
    do 2 (erewrite run_bind by reflexivity). rewrite (run_bind _ _ _ _ _ (send_logged _ _)). rewrite Ht.
    change (Z.of_nat 1 - 1 <=? 0) with true. cbv iota. by eexists.
  - replace (S (S k) + fuel)%nat with (S (S k + fuel)) by lia. cbn [phase_response].
    rewrite (run_bind _ _ _ _ _ (recv_silent _ _)). change (0 <? -1) with false. cbv iota.
    do 2 (erewrite run_bind by reflexivity). rewrite (run_bind _ _ _ _ _ (send_logged _ _)). rewrite Ht.
    rewrite (proj2 (Z.leb_gt _ _)) by lia.
    match goal with |- context [phase_response id (S k + fuel) ?x] => destruct (IH x fuel) as (t' & E & Hnet) end;
      [cbn; lia|]. exists t'. split; [exact E|]. rewrite Hnet. cbn. by rewrite <-app_assoc.
Qed.

(** C29: a call that nobody answers ends.  The pieces of the first turn are sent once and
    never again; after three timeouts, in each of which the client asks for an
    acknowledgement, the call fails with [NetworkTimeout]; and a call whose server falls
    silent after the last acknowledgement ends after three heartbeats. *)
Theorem silent_call_ends (services : list (middleware_service (session (list bytes) unit))) fuel t _data :
  Z.of_nat (length _data) <= 1024 * 1024 * 100 -> ClientOut services _data t = Ret data t -> (3 <= fuel)%nat ->
  (exists t', request services fuel id _data t = Ret (Some (failed NetworkTimeout ResponseData_new)) t' /\
     net t' = net t ++ map piece_of (seqZ 0 (turn_size data 0)) ++ [ask; ask; ask]) /\
  (needTry t = tryTimes -> exists t', phase_response id fuel t = Ret (Answer (failed NetworkTimeout (response t))) t' /\
     net t' = net t ++ [heartbeat; heartbeat; heartbeat]).
Proof.
  intros Hl Hout Hf. destruct (message_count_of data Hn) as (Ec & En & Hp). split.
  - set (t1 := Session (net t) (server_address t) (buffer t) 0 tryTimes 1 ResponseData_new).
    assert (Hs : 1 <= getSendCount p <= 7).
    { unfold getSendCount. destruct (_ <=? 3); [lia|]. destruct (_ && _); [lia|]. destruct (_ && _); lia. }
    assert (Hts : 0 < turn_size data 0 <= p).
    { unfold turn_size. cbv zeta. rewrite Ec.
      replace (u16 (0 + getSendCount p)) with (getSendCount p) by (symmetry; apply wrap_small; unfold is_uint; lia). lia. }
    set (m := turn_size data 0) in *.
    destruct (send_pieces_logged (Z.to_nat m) 0 t1 ltac:(lia) ltac:(lia)) as (b & Es). rewrite Z2Nat.id in Es by lia.
    unfold request. rewrite (proj2 (Z.ltb_ge _ _)) by lia. rewrite (run_bind _ _ _ _ _ Hout). erewrite run_bind by reflexivity. fold t1.
    destruct fuel as [|fuel]; [lia|]. cbn [phase_request]. cbv zeta. rewrite run_bind_assoc. erewrite run_bind by reflexivity.
    rewrite Ec. change (accepted t1) with 0. rewrite (proj2 (Z.eqb_neq 0 p)) by lia. change (receiveMessageCount t1 =? 0) with false.
    cbv iota. fold m. rewrite run_bind_assoc, (run_bind _ _ _ _ _ Es). rewrite run_bind_assoc. erewrite run_bind by reflexivity.
    destruct (Z.to_nat m) as [|m'] eqn:Em; [lia|]. rewrite run_bind_assoc, (run_bind _ _ _ _ _ (wait_silent _ _)).
    cbv beta iota. rewrite run_bind_assoc. erewrite run_bind by reflexivity.
    cbn [receiveMessageCount needTry with_net with_buffer with_received t1]. change (0 =? 0) with true. cbv iota.
    rewrite run_bind_assoc. erewrite run_bind by reflexivity. change (tryTimes - 1 <=? 0) with false. cbv iota.
    destruct fuel as [|[|fuel]]; [lia..|].
    match goal with |- context [mbind _ _ ?x] => destruct (silent_turns 1 x fuel) as (t' & E & Hnet) end; [done..|].
    exists t'. cbn [Nat.add] in E. rewrite (run_bind _ _ _ _ _ E). split; [done|]. rewrite Hnet. cbn. by rewrite <-!app_assoc.
  - intros Ht. destruct fuel as [|[|[|fuel]]]; [lia..|]. destruct (silent_phase2 2 t fuel Ht) as (t' & E & Hnet). by exists t'.
Qed.
End Silent.

(** ** A server that has forgotten the call: it answers every packet with a reset *)
Section Forgotten.
Variable id : Z.
Hypothesis Hid : is_uint 64 id.
Local Instance forgetful_network : Network (list bytes) unit := {
  sendto _ packet := modify_state (fun l => l ++ [sendReset_packet id Protocol.Response]);
  recvfrom _ := l ← get_state;
    match l with [] => mret None | d :: l => modify_state (fun _ => l) ;; mret (Some (d, tt)) end;
}.
Implicit Types t : session (list bytes) unit.

Definition reset_header : ProtocolHeader := header_with id 0 Protocol.Request StateReset 0 protocolHeaderSize 0.

Lemma reset_wf : header_wf reset_header.
Proof. apply header_with_wf; unfold is_uint, protocolHeaderSize in *; lia. Qed.

(** A reset only sets the number of tries back. *)
Lemma reset_ignored fuel t : net t = [sendReset_packet id Protocol.Response] -> Z.of_nat (length (buffer t)) = bufferSize ->
  bytes_ok (buffer t) ->
  exists b, phase_response id (S fuel) t =
    phase_response id fuel (with_tries tryTimes (with_address tt (with_buffer b (with_net [] t)))) /\
    Z.of_nat (length b) = bufferSize /\ bytes_ok b.
Proof.
  intros Hnet Hl Hok. rewrite sendReset_eq in Hnet. fold reset_header in Hnet.
  destruct (parsed_encode reset_header [] (buffer t)) as (rest & E & Hok' & Hlen & Hpar);
    [apply reset_wf|apply encode_header_ok, reset_wf|constructor|done|cbn; lia|done|].
  rewrite app_nil_r in E. change (26 + Z.of_nat (length [])) with 26 in *. cbn [phase_response].
  assert (Er : recv WaitingTimeout t = Ret 26 (with_address tt (with_buffer (encode_header reset_header ++ [] ++ rest) (with_net [] t)))).
  { unfold recv.
    assert (En : in_net (recvfrom WaitingTimeout) t = Ret (Some (encode_header reset_header, tt)) (with_net [] t)).
    { unfold in_net. cbn [recvfrom forgetful_network]. erewrite run_bind by reflexivity. rewrite Hnet. by erewrite run_bind by reflexivity. }
    rewrite (run_bind _ _ _ _ _ En). erewrite run_bind by reflexivity. change (buffer (with_net [] t)) with (buffer t). rewrite E.
    by erewrite run_bind by reflexivity. }
  match type of Er with _ = Ret _ ?x => assert (Ep : parse_buffer 26 x = Ret (Some reset_header) x) end.
  { unfold parse_buffer. erewrite run_bind by reflexivity. cbn [buffer with_address with_buffer].
    assert (Hps : parses (encode_header reset_header ++ [] ++ rest) 26 = true).
    { apply bool_decide_eq_true. unfold parsed in Hpar. destruct (parse _ _) as [[]|]; [by eexists|done]. }
    by rewrite Hps, Hpar. }
  rewrite (run_bind _ _ _ _ _ Er). change (0 <? 26) with true. cbv iota. rewrite (run_bind _ _ _ _ _ Ep). clear Ep.
  change (timePoint reset_header) with id. rewrite Z.eqb_refl. cbn [negb].
  erewrite run_bind by reflexivity. eexists. split; [reflexivity|]. split.
  - rewrite length_app, encode_header_length. change bufferSize with 549. lia.
  - by apply Forall_app_2; [apply encode_header_ok, reset_wf|].
Qed.

(** A client that waits for its response never gives up when its server has forgotten
    the call and answers every heartbeat with a reset: the reset has the phase of requests,
    counts as an answer, and is ignored. *)
Theorem forgotten_call_waits fuel t : net t = [] -> Z.of_nat (length (buffer t)) = bufferSize -> bytes_ok (buffer t) ->
  2 <= needTry t -> exists t', phase_response id fuel t = Ret Running t' /\ response t' = response t.
Proof.
  revert t. induction (lt_wf fuel) as [fuel _ IH]. intros t Hnet Hl Hok Ht.
  destruct fuel as [|fuel]; [by eexists|]. cbn [phase_response].
  assert (Er : recv WaitingTimeout t = Ret (-1) (with_net [] t)).
  { unfold recv. assert (En : in_net (recvfrom WaitingTimeout) t = Ret None (with_net [] t)).
    { unfold in_net. cbn [recvfrom forgetful_network]. erewrite run_bind by reflexivity. by rewrite Hnet. }
    by rewrite (run_bind _ _ _ _ _ En). }
  rewrite (run_bind _ _ _ _ _ Er). change (0 <? -1) with false. cbv iota. do 2 (erewrite run_bind by reflexivity).
  cbn [needTry with_net]. set (t1 := with_tries (needTry t - 1) (with_net [] t)).
  assert (Es : send (request_heartbeat_packet id Protocol.Response) t1 = Ret tt (with_net [sendReset_packet id Protocol.Response] t1)).
  { unfold send. by erewrite run_bind by reflexivity. }
  rewrite (run_bind _ _ _ _ _ Es). rewrite (proj2 (Z.leb_gt _ _)) by lia. destruct fuel as [|fuel]; [by eexists|].
  destruct (reset_ignored fuel (with_net [sendReset_packet id Protocol.Response] t1)) as (b & E & Hb1 & Hb2); [done..|].
  rewrite E. match goal with |- context [phase_response id fuel ?x] => destruct (IH fuel ltac:(lia) x) as (t' & E' & Hr) end;
    [done..|]. by exists t'.
Qed.
End Forgotten.
End Theorems.

(** ** A small client *)
Section Scenario.
Local Instance invoker_host : Host := LittleEndian.
Local Instance invoker_pool : Pool.
Proof.
  refine {| fresh_block n := replicate (Z.to_nat n) 0 |}.
  - intros n Hn. by rewrite length_replicate, Z2Nat.id.
  - intros n. by apply Forall_replicate.
Defined.
Definition small_client : session (list bytes) unit := Session [] tt (replicate 549 0) 0 tryTimes 1 ResponseData_new.

(** A message of 523 bytes is two pieces, of which a turn sends one. *)
Lemma silent_call_ends_witness :
  exists t', request (H0 := silent_network) [] 3 7 (replicate 523 1) small_client =
    Ret (Some (failed NetworkTimeout ResponseData_new)) t' /\
    net t' = [request_piece 7 523 0 522 ++ replicate 522 1; request_ACK_packet 7 523; request_ACK_packet 7 523; request_ACK_packet 7 523].
Proof.
  destruct (silent_call_ends (replicate 523 1) 7 ltac:(done) [] 3 small_client (replicate 523 1)) as [(t' & E & Hn) _];
    [done|reflexivity|lia|]. exists t'. split; [exact E|]. rewrite Hn. reflexivity.
Defined.

Lemma forgotten_call_waits_witness :
  exists t', phase_response (H0 := forgetful_network 7) 7 (Z.to_nat 1000000) small_client = Ret Running t' /\
    response t' = ResponseData_new.
Proof.
  apply (forgotten_call_waits 7 ltac:(done) (Z.to_nat 1000000) small_client); [done|done|by apply Forall_replicate|done].
Defined.
End Scenario.
