(* ===== verification/TransmitterEvent.v ===== *)
(** * Requests of the asynchronous client: [transmitter_event.hpp], [transmitter_event.cpp]

    An event is a call that is to be made and the function that is told its outcome.  The
    four overloads of [callBind] differ in how the function is called. *)
From S2P Require Import Prelude Stream Serializer SerializerLaws Effects Pieces Middleware Registry.

Record TransmitterEvent {St : Type} := Event {
  ip_address : bytes;
  event_port : Z;
  serializer : BinarySerializer;
  is_set_callback : bool;
  is_set_remote_func : bool;
  event_callBack : ResponseData -> M St unit;
}.
Arguments TransmitterEvent St : clear implicits.
Arguments Event {St}.

Section Event.
Context {h : Host} {St : Type}.
Abbreviation MS := (M St).

(** A [std::function] that is empty throws. *)
Definition TransmitterEvent_new (_ip_address : bytes) (_port : Z) : TransmitterEvent St :=
  Event _ip_address _port BinarySerializer_new false false (fun _ => throw StdException).

(** [call]: an exception of the serializer is the caller's. *)
Definition event_call {A} {PA : ArgPack A} `{!Serializable (tuple A)} (Name : cstring) (args : A)
    (e : TransmitterEvent St) : MS (TransmitterEvent St) :=
  r ← ser_run (message Name args) (clear (serializer e));
  match r with
  | (inr _, s) => mret (Event (ip_address e) (event_port e) s (is_set_callback e) true (event_callBack e))
  | (inl _, _) => throw StdException
  end.

(** Reading with a view, of which only the value is used. *)
Definition view_run {A} (m : R BinaryDeserializeView A) (v : BinaryDeserializeView) :
    MS ((ErrorNumber + A) * BinaryDeserializeView) :=
  match m v with
  | (Ok a, v) => mret (inr a, v)
  | (Err (Stream.Throw e), v) => mret (inl e, v)
  | _ => undefined
  end.

(** What the function is told about a call with a result. *)
Definition event_outcome {Res} `{Serializable Res} (responseData : ResponseData) : MS (Outcome Res) :=
  if isSuccess responseData then
    r ← view_run (output header_new) (View_new (data responseData) (total_size responseData));
    match r with
    | (inl _, _) =>
        mret {| value := default_value; outcome_response := setReason UnexpectedReturnValue (setOkState false header_new);
                protocolReason := OK |}
    | (inr response, v) =>
        if ok response then
          r ← view_run (output default_value) v;
          match r with
          | (inl _, _) =>
              mret {| value := default_value;
                      outcome_response := setReason UnexpectedReturnValue (setOkState false response);
                      protocolReason := OK |}
          | (inr x, _) => mret {| value := x; outcome_response := response; protocolReason := OK |}
          end
        else mret {| value := default_value; outcome_response := response; protocolReason := OK |}
    end
  else mret {| value := default_value; outcome_response := header_new; protocolReason := reason responseData |}.
Definition event_outcome_void (responseData : ResponseData) : MS (Outcome unit) :=
  if isSuccess responseData then
    r ← view_run (output header_new) (View_new (data responseData) (total_size responseData));
    match r with
    | (inl _, _) =>
        mret {| value := tt; outcome_response := setReason UnexpectedReturnValue (setOkState false header_new);
                protocolReason := OK |}
    | (inr response, _) => mret {| value := tt; outcome_response := response; protocolReason := OK |}
    end
  else mret {| value := tt; outcome_response := header_new; protocolReason := reason responseData |}.

Definition callBind_event {Res} `{Serializable Res} (func : Outcome Res -> MS unit) (responseData : ResponseData) : MS unit :=
  o ← event_outcome responseData; func o.
Definition callBind_event_void (func : Outcome unit -> MS unit) (responseData : ResponseData) : MS unit :=
  o ← event_outcome_void responseData; func o.

(** [set_callBack], with the function bound by one of the two above. *)
Definition set_callBack (callBack : ResponseData -> MS unit) (e : TransmitterEvent St) : TransmitterEvent St :=
  Event (ip_address e) (event_port e) (serializer e) true (is_set_remote_func e) callBack.
Definition trigger_callBack (e : TransmitterEvent St) (responseData : ResponseData) : MS unit :=
  event_callBack e responseData.
End Event.
