(* ===== verification/Transmitter.v ===== *)
(** * The asynchronous client: [transmitter.cpp], [global_id.cpp]

    A transmitter keeps the calls that are under way.  A turn of its loop sends what may be
    sent, takes the datagrams that come until none has come for a while, and runs the first
    timer that is due.  A call ends with a task for the thread pool, which tells the
    outcome to the function of the call.  Turns, calls of [send] and tasks are atomic.  A
    task of the pool holds a pointer to its message; here it is looked up by its number,
    because a message is only deleted after its task has run. *)
From S2P Require Import Prelude Stream Serializer Protocol TimerTree Effects Pieces Packets Middleware TransmitterEvent.

Definition Transmitter_Request_TimeOut : Z := 1000.
Definition Transmitter_Response_TimeOut : Z := 900.
Definition Transmitter_Try_Times : Z := 3.

(** [GlobalTransmitterId], from the clock in nanoseconds and the last number. *)
Definition GlobalTransmitterId (nanoseconds tick : Z) : Z := if nanoseconds <=? tick then u64 (tick + 1) else nanoseconds.

Record TransmitterTask {St : Type} := Task {
  response_data : ResponseData;
  event : TransmitterEvent St;
  task_phase : CommunicationPhase;
  task_size : Z;                (** [total_size] *)
  task_pieces : Z;              (** [piece_count] *)
  task_data : bytes;
  task_ack : Z;                 (** [ack_accept] *)
  ack_expect : Z;
  timeout_time : Z;
  send_time : Z;
  task_last_piece : Z;          (** [last_piece_size] *)
  task_active : Z;              (** [last_active]; 0 before anything was sent *)
  task_address : address;       (** [server_address] *)
  task_triggered : bool;        (** [is_trigger] *)
}.
Arguments TransmitterTask St : clear implicits.
Arguments Task {St}.

Inductive timer_call := TimeoutEvent (id cur_ack : Z) | ResponseTimeoutEvent (id last : Z) | DeleteMessage (id : Z).

(** The state, the clock, the last number that was given, what was sent, the tasks in the
    pool, the functions that were called, and the servlets that the main reactor is to
    forget. *)
Record Transmitter {St : Type} := Trans {
  calls : gmap Z (TransmitterTask St);        (** [messages] *)
  new_calls : gmap Z (TransmitterTask St);    (** [new_messages] *)
  timer : TimerTree timer_call;
  read_buffer : bytes;
  request_timeout : Z;
  response_timeout : Z;
  try_time : Z;
  workers : bool;
  run_state : bool;
  time : Z;
  tick : Z;
  packets : list (address * bytes);
  committed : list Z;
  called : list Z;
  released : list Servlet;
  app : St;
}.
Arguments Transmitter St : clear implicits.
Arguments Trans {St}.

Section Transmitter.
Context {h : Host} {P : Pool} {St : Type}.
Implicit Types (s : Transmitter St) (t : TransmitterTask St).

(** ** Fields *)
Definition with_calls m s : Transmitter St :=
  Trans m (new_calls s) (timer s) (read_buffer s) (request_timeout s) (response_timeout s) (try_time s) (workers s)
    (run_state s) (time s) (tick s) (packets s) (committed s) (called s) (released s) (app s).
Definition with_new_calls m s : Transmitter St :=
  Trans (calls s) m (timer s) (read_buffer s) (request_timeout s) (response_timeout s) (try_time s) (workers s)
    (run_state s) (time s) (tick s) (packets s) (committed s) (called s) (released s) (app s).
Definition with_timers m s : Transmitter St :=
  Trans (calls s) (new_calls s) m (read_buffer s) (request_timeout s) (response_timeout s) (try_time s) (workers s)
    (run_state s) (time s) (tick s) (packets s) (committed s) (called s) (released s) (app s).
Definition with_read_buffer b s : Transmitter St :=
  Trans (calls s) (new_calls s) (timer s) b (request_timeout s) (response_timeout s) (try_time s) (workers s)
    (run_state s) (time s) (tick s) (packets s) (committed s) (called s) (released s) (app s).
Definition with_settings req resp tries run s : Transmitter St :=
  Trans (calls s) (new_calls s) (timer s) (read_buffer s) req resp tries (workers s) run (time s) (tick s) (packets s)
    (committed s) (called s) (released s) (app s).
Definition with_time n s : Transmitter St :=
  Trans (calls s) (new_calls s) (timer s) (read_buffer s) (request_timeout s) (response_timeout s) (try_time s)
    (workers s) (run_state s) n (tick s) (packets s) (committed s) (called s) (released s) (app s).
Definition with_tick n s : Transmitter St :=
  Trans (calls s) (new_calls s) (timer s) (read_buffer s) (request_timeout s) (response_timeout s) (try_time s)
    (workers s) (run_state s) (time s) n (packets s) (committed s) (called s) (released s) (app s).
Definition with_packets l s : Transmitter St :=
  Trans (calls s) (new_calls s) (timer s) (read_buffer s) (request_timeout s) (response_timeout s) (try_time s)
    (workers s) (run_state s) (time s) (tick s) l (committed s) (called s) (released s) (app s).
Definition with_work l c r s : Transmitter St :=
  Trans (calls s) (new_calls s) (timer s) (read_buffer s) (request_timeout s) (response_timeout s) (try_time s)
    (workers s) (run_state s) (time s) (tick s) (packets s) l c r (app s).
Definition with_app st s : Transmitter St :=
  Trans (calls s) (new_calls s) (timer s) (read_buffer s) (request_timeout s) (response_timeout s) (try_time s)
    (workers s) (run_state s) (time s) (tick s) (packets s) (committed s) (called s) (released s) st.

Definition with_response_data r t : TransmitterTask St :=
  Task r (event t) (task_phase t) (task_size t) (task_pieces t) (task_data t) (task_ack t) (ack_expect t) (timeout_time t)
    (send_time t) (task_last_piece t) (task_active t) (task_address t) (task_triggered t).
Definition with_progress ph ack t : TransmitterTask St :=
  Task (response_data t) (event t) ph (task_size t) (task_pieces t) (task_data t) ack (ack_expect t) (timeout_time t)
    (send_time t) (task_last_piece t) (task_active t) (task_address t) (task_triggered t).
Definition with_expect n t : TransmitterTask St :=
  Task (response_data t) (event t) (task_phase t) (task_size t) (task_pieces t) (task_data t) (task_ack t) n
    (timeout_time t) (send_time t) (task_last_piece t) (task_active t) (task_address t) (task_triggered t).
Definition with_activity timeouts active t : TransmitterTask St :=
  Task (response_data t) (event t) (task_phase t) (task_size t) (task_pieces t) (task_data t) (task_ack t) (ack_expect t)
    timeouts (send_time t) (task_last_piece t) active (task_address t) (task_triggered t).
Definition with_trigger t : TransmitterTask St :=
  Task (response_data t) (event t) (task_phase t) (task_size t) (task_pieces t) (task_data t) (task_ack t) (ack_expect t)
    (timeout_time t) (send_time t) (task_last_piece t) (task_active t) (task_address t) true.

Abbreviation TM := (M (Transmitter St)).

(** [isSuccess = true] *)
Definition with_success (r : ResponseData) : ResponseData :=
  {| message_id := message_id r; piece_state := piece_state r; piece_total := piece_total r; total_size := total_size r;
     is_initial := is_initial r; isSuccess := true; reason := reason r; data := data r |}.

(** ** Small operations *)
Definition on_app {A} (m : M St A) : TM A := fun s =>
  match m (app s) with
  | Ret a st => Ret a (with_app st s)
  | Throw e st => Throw e (with_app st s)
  | Undefined => Undefined
  end.
Definition on_call (f : TransmitterTask St -> TransmitterTask St) (id : Z) : TM unit :=
  modify_state (fun s => with_calls (alter f id (calls s)) s).
Definition the_call (id : Z) : TM (TransmitterTask St) := s ← get_state; lift_option (calls s !! id).
Definition set_timer (milliseconds : Z) (c : timer_call) : TM unit :=
  modify_state (fun s => with_timers (setTimeout (time s) milliseconds c (timer s)).2 s).
Definition send_packet t (packet : bytes) : TM unit :=
  modify_state (fun s => with_packets (packets s ++ [(task_address t, packet)]) s).

Definition request_ACK (id : Z) t : TM unit := send_packet t (request_ACK_packet id (task_size t)).
Definition send_response_ACK (id _ack_number : Z) t : TM unit := send_packet t (sendResponseACK_packet _ack_number id).
Definition send_heart_beat (id : Z) (ph : CommunicationPhase) t : TM unit := send_packet t (heartbeat_packet id ph).
Definition send_request_heart_beat (id : Z) (ph : CommunicationPhase) t : TM unit :=
  send_packet t (request_heartbeat_packet id ph).

(** Where the loop of [send_data] ends. *)
Definition send_end t : Z := Z.min (u16 (task_ack t + send_time t)) (task_pieces t).
Definition send_data (id : Z) : TM unit :=
  t ← the_call id;
  for_each (fun i =>
    let pieceDataPartSize := if i =? task_pieces t - 1 then task_last_piece t else defaultPieceLimitSize in
    body ← lift_option (copy_from (i * defaultPieceLimitSize) pieceDataPartSize (task_data t));
    send_packet t (request_piece id (task_size t) i pieceDataPartSize ++ body))
    (seqZ (task_ack t) (send_end t - task_ack t)) ;;
  on_call (with_expect (Z.max (task_ack t) (send_end t))) id.

(** ** The end of a call *)
Variable services : list (middleware_service St).
(** Whether the queue of the pool takes the task of a message. *)
Variable commit : Z -> bool.
(** Whether this is the transmitter of a server. *)
Variable linked : bool.

(** [locked]: the caller has [timer_mtx], and waits for this to return; then nobody goes on. *)
Definition trigger (locked : bool) (id : Z) : TM unit :=
  t ← the_call id;
  (if isSuccess (response_data t) then
     d ← on_app (ClientIn services (data (response_data t)));
     on_call (with_response_data (succeeded d (response_data t))) id
   else mret tt) ;;
  t ← the_call id;
  modify_state (fun s => with_work (committed s) (called s ++ [id]) (released s) s) ;;
  on_app (trigger_callBack (event t) (response_data t)) ;;
  if locked then undefined else set_timer 0 (DeleteMessage id).

Definition servlet_of_call (id : Z) t : Servlet :=
  {| request_id := id; client_port := sin_port (task_address t); client_ip_address := sin_addr (task_address t) |}.

(** Without a place in the queue a thread of its own runs the task, and is waited for. *)
Definition try_trigger (locked : bool) (id : Z) : TM unit :=
  t ← the_call id;
  if task_triggered t then mret tt
  else
    on_call with_trigger id ;;
    s ← get_state;
    if workers s then
      (if linked then modify_state (fun s => with_work (committed s) (called s) (released s ++ [servlet_of_call id t]) s)
       else mret tt) ;;
      if commit id then modify_state (fun s => with_work (committed s ++ [id]) (called s) (released s) s)
      else attempt (trigger locked id) ;; mret tt
    else trigger locked id.

(** ** Timers *)
Definition response_timeout_event (locked : bool) (id last : Z) : TM unit :=
  s ← get_state;
  match calls s !! id with
  | None => mret tt
  | Some t =>
      if task_active t =? last then
        on_call (with_activity (timeout_time t + 1) (task_active t)) id ;;
        if try_time s <? timeout_time t + 1 then
          if task_triggered t then mret tt
          else on_call (with_response_data (failed NetworkTimeout (response_data t))) id ;; try_trigger locked id
        else send_request_heart_beat id Protocol.Response t ;; set_timer (request_timeout s) (ResponseTimeoutEvent id last)
      else mret tt
  end.

Definition timeout_event (locked : bool) (id cur_ack : Z) : TM unit :=
  s ← get_state;
  match calls s !! id with
  | None => mret tt
  | Some t =>
      if (task_ack t =? cur_ack) && negb (task_ack t =? task_pieces t) then
        on_call (with_activity (timeout_time t + 1) (task_active t)) id ;;
        if try_time s <? timeout_time t + 1 then
          on_call (with_response_data (failed NetworkTimeout (response_data t))) id ;; try_trigger locked id
        else request_ACK id t ;; set_timer (request_timeout s) (TimeoutEvent id cur_ack)
      else mret tt
  end.

Definition delete_message (id : Z) : TM unit := modify_state (fun s => with_calls (delete id (calls s)) s).

Definition run_call (c : timer_call) : TM unit :=
  match c with
  | TimeoutEvent id cur_ack => timeout_event true id cur_ack
  | ResponseTimeoutEvent id last => response_timeout_event true id last
  | DeleteMessage id => delete_message id
  end.

(** [runTask]: one timer, which is erased when its callback has returned. *)
Definition run_timer : TM unit :=
  s ← get_state;
  match nodes (timer s) with
  | [] => mret tt
  | node :: _ =>
      if expire node - time s <=? 0 then
        run_call (callBack node) ;;
        modify_state (fun s => with_timers (clearTimeout (base node) (timer s)).2 s)
      else mret tt
  end.

(** ** Datagrams *)
Definition on_request_phase (id : Z) (header : ProtocolHeader) : TM unit :=
  t ← the_call id;
  s ← get_state;
  match type header with
  | ReceiverACK =>
      if task_ack t <? acceptOrder header then
        on_call (with_progress (task_phase t) (acceptOrder header)) id ;;
        if acceptOrder header =? task_pieces t then
          on_call (with_progress Protocol.Response (acceptOrder header)) id ;;
          response_timeout_event false id (task_active t)
        else mret tt
      else mret tt
  | StateReset =>
      on_call (fun t => with_activity 0 (task_active t) (with_progress (task_phase t) 0 t)) id ;;
      send_data id ;; set_timer (request_timeout s) (TimeoutEvent id 0)
  | TheServerResourcesExhausted =>
      on_call (with_response_data (failed ServerResourcesExhausted (response_data t))) id ;; try_trigger false id
  | TimedOutRequestHeartbeat => send_heart_beat id (phase header) t
  | _ => mret tt
  end.

(** A piece of the response from [source]; the acknowledgement. *)
Definition accept_piece (id : Z) (header : ProtocolHeader) (source : bytes) : TM Z :=
  on_call (fun t => with_response_data
    (ResponseData_initialize (timePoint header) (totalCount header) (totalSize header) (response_data t)) t) id ;;
  t ← the_call id;
  let r := response_data t in
  present ← getPieceState (piece_total r) (pieceOrder header) (piece_state r);
  d ← (if present : bool then mret (data r)
       else body ← lift_option (copy_from protocolHeaderSize (pieceSize header) source);
            lift_option (copy_to (pieceOrder header * defaultPieceLimitSize) body (data r)));
  l ← setPieceState (piece_total r) (pieceOrder header) true (piece_state r);
  on_call (with_response_data (with_pieces l d r)) id ;;
  mret (getAckNumber l).

Definition on_response_phase (id : Z) (header : ProtocolHeader) (source : bytes) : TM unit :=
  t ← the_call id;
  match task_phase t with
  | Protocol.Request => on_call (with_progress Protocol.Response (task_pieces t)) id
  | Protocol.Response =>
      match type header with
      | RequestSend =>
          ACK ← accept_piece id header source;
          send_response_ACK id ACK t ;;
          t ← the_call id;
          if ACK =? piece_total (response_data t) then
            on_call (fun t => with_response_data (with_success (response_data t)) t) id ;;
            try_trigger false id
          else response_timeout_event false id (task_active t)
      | RequestACK =>
          let r := response_data t in
          l ← setPieceState (piece_total r) (pieceOrder header) true (piece_state r);
          on_call (with_response_data (with_pieces l (data r) r)) id ;;
          send_response_ACK id (getAckNumber l) t
      | TimedOutResponseHeartbeat => response_timeout_event false id (task_active t)
      | TimedOutRequestHeartbeat => send_heart_beat id Protocol.Response t
      | _ => mret tt
      end
  end.

(** A packet for a message that is known. *)
Definition handle (header : ProtocolHeader) (source : bytes) : TM unit :=
  let id := timePoint header in
  s ← get_state;
  on_call (with_activity 0 (time s)) id ;;
  match phase header with
  | Protocol.Request => on_request_phase id header
  | Protocol.Response => on_response_phase id header source
  end.

(** ** The loop *)

(** [messages] has priority. *)
Definition take_new : TM unit := modify_state (fun s => with_new_calls ∅ (with_calls (calls s ∪ new_calls s) s)).

Definition send_step (id : Z) : TM unit :=
  s ← get_state;
  match calls s !! id with
  | None => mret tt
  | Some t =>
      if task_active t =? 0 then
        send_data id ;; on_call (with_activity (timeout_time t) (time s)) id ;;
        set_timer (request_timeout s) (TimeoutEvent id (task_ack t))
      else
        match task_phase t with
        | Protocol.Request =>
            if (timeout_time t <? try_time s) && (ack_expect t - send_time t <? task_ack t) then
              send_data id ;; set_timer (request_timeout s) (TimeoutEvent id (task_ack t))
            else mret tt
        | Protocol.Response => mret tt
        end
  end.

(** One datagram; whether the loop goes on. *)
Definition on_arrival (datagram : bytes) : TM bool :=
  s ← get_state;
  let '(b, recvLen) := receive datagram (read_buffer s) in
  modify_state (with_read_buffer b) ;;
  (if protocolHeaderSize <=? recvLen then
     if parses b recvLen then
       match parsed b recvLen with
       | Some header => if decide (is_Some (calls s !! timePoint header)) then handle header b else mret tt
       | None => mret tt
       end
     else undefined
   else mret tt) ;;
  mret (0 <? recvLen).

(** The datagrams that come, with their times; an empty one ends the loop and leaves the rest. *)
Fixpoint read_loop (arrivals : list (Z * bytes)) : TM (list (Z * bytes)) :=
  match arrivals with
  | [] => mret []
  | (now, d) :: rest =>
      modify_state (with_time now) ;;
      more ← on_arrival d;
      if more : bool then read_loop rest else mret rest
  end.

(** A turn: [order] is the order of the hash map, and until [until] no other datagram
    comes.  Without messages the thread sleeps. *)
Definition loop_turn (order : list Z) (arrivals : list (Z * bytes)) (until : Z) : TM (list (Z * bytes)) :=
  s ← get_state;
  if run_state s && negb (bool_decide (calls s = ∅ /\ new_calls s = ∅)) then
    take_new ;;
    for_each send_step order ;;
    rest ← read_loop arrivals;
    modify_state (with_time until) ;;
    run_timer ;;
    mret rest
  else mret arrivals.

(** ** The calls of other threads *)
(** [inet_aton], and the clock in nanoseconds. *)
Variable inet_aton : bytes -> option Z.

Definition TransmitterTask_new (e : TransmitterEvent St) (ip : Z) (d : bytes) : TransmitterTask St :=
  let n := u32 (Z.of_nat (length d)) in
  Task ResponseData_new e Protocol.Request n (piece_count n) d 0 0 0 (getSendCount (piece_count n)) (last_size n) 0
    {| sin_port := event_port e; sin_addr := ip |} false.

Definition send_as (id : Z) (e : TransmitterEvent St) : TM bool :=
  match inet_aton (ip_address e) with
  | None => throw StdException
  | Some ip =>
      d ← on_app (ClientOut services (byteStream (serializer e)));
      s ← get_state;
      if decide (calls s !! id = None) then
        modify_state (with_calls (<[id := TransmitterTask_new e ip d]> (calls s))) ;; mret true
      else mret false
  end.
Definition send (nanoseconds : Z) (e : TransmitterEvent St) : TM bool :=
  if is_set_callback e && is_set_remote_func e then
    s ← get_state;
    let id := GlobalTransmitterId nanoseconds (tick s) in
    modify_state (with_tick id) ;; send_as id e
  else mret false.

(** A task of the pool; what it throws stays in its future. *)
Definition pool_turn (k : nat) : TM unit :=
  s ← get_state;
  match committed s !! k with
  | None => mret tt
  | Some id =>
      modify_state (with_work (delete k (committed s)) (called s) (released s)) ;;
      attempt (trigger false id) ;; mret tt
  end.

Definition set_request_timeout (_timeout : Z) : TM unit :=
  modify_state (fun s => with_settings _timeout (response_timeout s) (try_time s) (run_state s) s).
Definition set_response_timeout (_timeout : Z) : TM unit :=
  modify_state (fun s => with_settings (request_timeout s) _timeout (try_time s) (run_state s) s).
Definition set_try_time (_try : Z) : TM unit :=
  modify_state (fun s => with_settings (request_timeout s) (response_timeout s) _try (run_state s) s).
Definition start : TM unit :=
  modify_state (fun s => with_settings (request_timeout s) (response_timeout s) (try_time s) true s).
Definition stop_immediately : TM unit :=
  modify_state (fun s => with_settings (request_timeout s) (response_timeout s) (try_time s) false s).
(** [stop]: whether it has returned, or sleeps again. *)
Definition stop : TM bool :=
  s ← get_state;
  if bool_decide (calls s = ∅ /\ new_calls s = ∅) then stop_immediately ;; mret true else mret false.

Definition Transmitter_new (buffer : bytes) (st : St) (now last_tick : Z) : Transmitter St :=
  Trans ∅ ∅ TimerTree_new buffer Transmitter_Request_TimeOut Transmitter_Response_TimeOut Transmitter_Try_Times true false
    now last_tick [] [] [] [] st.
End Transmitter.
