(* ===== verification/TransmitterLaws.v ===== *)
(** * The asynchronous client: every call is answered once

    [sound] is an invariant of the steps of a transmitter: a call whose task was committed
    or whose function was called is marked, and only a call whose function was called is
    deleted. *)
From S2P Require Import Prelude Stream Protocol TimerTree Effects Pieces Packets Middleware TransmitterEvent Transmitter.

Section Laws.
Context {h : Host} {P : Pool} {St : Type}.
Variable services : list (middleware_service St).
Implicit Types (s : Transmitter St) (t : TransmitterTask St).
Abbreviation TM := (M (Transmitter St)).

(** [x]: the calls whose task is running. *)
Record sound (x : list Z) s : Prop := {
  sound_once : NoDup (called s ++ committed s ++ x);
  sound_open id : id ∈ committed s ++ x -> is_Some (calls s !! id);
  sound_marked id t : id ∈ called s ++ committed s ++ x -> calls s !! id = Some t -> task_triggered t = true;
  sound_old id : id ∈ called s \/ is_Some (calls s !! id) -> id <= tick s;
  sound_new : new_calls s = ∅;
  sound_timers n id : n ∈ nodes (timer s) -> callBack n = DeleteMessage id -> id ∈ called s;
  sound_tick : 0 <= tick s;
}.

(** A computation that keeps the invariant, however it ends. *)
Definition keeps {A} (x : list Z) (m : TM A) : Prop := forall s, sound x s ->
  match m s with Ret _ s' | Throw _ s' => sound x s' | Undefined => True end.

Lemma keeps_ret {A} x (a : A) : keeps x (mret a).
Proof. by intros s. Qed.
Lemma keeps_get x : keeps x get_state.
Proof. by intros s. Qed.
Lemma keeps_bind {A B} x (m : TM A) (f : A -> TM B) : keeps x m -> (forall a, keeps x (f a)) -> keeps x (m ≫= f).
Proof.
  intros Hm Hf s Hs. specialize (Hm s Hs). unfold mbind, M_bind. destruct (m s) as [a s1|e s1|]; [|done..].
  by apply Hf.
Qed.
Lemma keeps_undefined {A} x : keeps x (undefined (A := A)).
Proof. by intros s. Qed.
Lemma keeps_throw {A} x e : keeps x (throw (A := A) e).
Proof. intros s Hs. exact Hs. Qed.
Lemma keeps_option {A} x (o : option A) : keeps x (lift_option o).
Proof. intros s Hs. by destruct o. Qed.
Lemma keeps_attempt {A} x (m : TM A) : keeps x m -> keeps x (attempt m).
Proof. intros Hm s Hs. specialize (Hm s Hs). unfold attempt. by destruct (m s). Qed.
Lemma keeps_for_each {A} x (f : A -> TM unit) l : (forall a, keeps x (f a)) -> keeps x (for_each f l).
Proof. intros Hf. induction l as [|a l IH]; [apply keeps_ret|]. by apply keeps_bind. Qed.

(** Changes of the state that the invariant does not see. *)
Lemma keeps_unseen x f : (forall s, calls (f s) = calls s /\ new_calls (f s) = new_calls s /\ committed (f s) = committed s /\
  called (f s) = called s /\ tick (f s) = tick s /\ timer (f s) = timer s) -> keeps x (modify_state f).
Proof.
  intros Hf s [H1 H2 H3 H4 H5 H6 H7]. destruct (Hf s) as (E1 & E2 & E3 & E4 & E5 & E6).
  constructor; rewrite ?E1, ?E2, ?E3, ?E4, ?E5, ?E6; done.
Qed.
Lemma keeps_on_app {A} x (m : M St A) : keeps x (on_app m).
Proof. intros s Hs. unfold on_app. destruct (m (app s)); [by destruct Hs..|done]. Qed.

Lemma keeps_on_call x f id : (forall t, task_triggered t = true -> task_triggered (f t) = true) -> keeps x (on_call f id).
Proof.
  intros Hf s [H1 H2 H3 H4 H5 H6 H7]. constructor; cbn; try done.
  - intros i Hi. rewrite lookup_alter. destruct (decide _) as [<-|]; [|by apply H2].
    destruct (H2 id Hi) as [t ->]. by eexists.
  - intros i t Hi. rewrite lookup_alter. destruct (decide _) as [<-|]; [|by apply H3].
    destruct (calls s !! id) as [t0|] eqn:E; [|done]. intros [= <-]. by eapply Hf, H3.
  - intros i [Hi|Hi]; apply H4; [by left|right]. revert Hi. rewrite lookup_alter. destruct (decide _) as [<-|]; [|done].
    destruct (calls s !! id); [by eexists|by intros []].
Qed.

Lemma set_insert_elem {L} (n m : TimeNode L) l : m ∈ set_insert n l -> m = n \/ m ∈ l.
Proof.
  induction l as [|y l IH]; cbn; [by intros ?%list_elem_of_singleton; left|].
  repeat case_match; rewrite ?elem_of_cons; [done| |by right].
  intros [->|Hm]; [by right; left|]. destruct (IH Hm); [by left|by right; right].
Qed.
Lemma set_extract_elem {L} b (m : TimeNode L) l l' : set_extract b l = Some l' -> m ∈ l' -> m ∈ l.
Proof.
  revert l'. induction l as [|y l IH]; intros l'; cbn; [done|]. case_match.
  - destruct (set_extract b l) as [r|]; [|done]. intros [= <-]. rewrite !elem_of_cons. intros [->|Hm]; [by left|right].
    by apply (IH r).
  - case_match; [done|]. intros [= <-] ?. by right.
Qed.

Lemma keeps_timer x ms c : (forall id, c <> DeleteMessage id) -> keeps x (set_timer ms c).
Proof.
  intros Hc s [H1 H2 H3 H4 H5 H6 H7]. constructor; cbn; try done.
  intros n id [->|Hn]%set_insert_elem Hn2; [|by eapply H6]. by destruct (Hc id).
Qed.

Create HintDb keeps.
#[local] Hint Resolve keeps_ret keeps_get keeps_undefined keeps_throw keeps_option keeps_on_app : keeps.
Ltac keep :=
  repeat first
    [ solve [auto 2 with keeps nocore] | apply keeps_attempt; solve [keep] | apply keeps_bind; [|intros ?]
    | apply keeps_for_each; intros ? | apply keeps_on_call; done | apply keeps_timer; done
    | apply keeps_unseen; done | case_match ].

Lemma the_call_bind {A} id (f : TransmitterTask St -> TM A) s :
  (t ← the_call id; f t) s = match calls s !! id with Some t => f t s | None => Undefined end.
Proof.
  unfold the_call. rewrite run_bind_assoc. erewrite run_bind by reflexivity. destruct (calls s !! id); [|done].
  by erewrite run_bind by reflexivity.
Qed.

(** ** The end of a call *)

Lemma running_perm (l k x : list Z) id : l ++ k ++ id :: x ≡ₚ id :: l ++ k ++ x.
Proof. solve_Permutation. Qed.

(** Marking a call that is not marked yet. *)
Lemma sound_mark x id t s : sound x s -> calls s !! id = Some t -> task_triggered t = false ->
  sound (id :: x) (with_calls (alter with_trigger id (calls s)) s).
Proof.
  intros [H1 H2 H3 H4 H5 H6 H7] Ht Hf.
  assert (Hin : id ∉ called s ++ committed s ++ x) by (intros Hi; rewrite (H3 id t Hi Ht) in Hf; done).
  constructor; cbn; try done.
  - rewrite running_perm. by apply NoDup_cons.
  - intros i Hi. rewrite lookup_alter. destruct (decide _) as [<-|Hne]; [rewrite Ht; by eexists|]. apply H2. set_solver.
  - intros i t' Hi. rewrite lookup_alter. destruct (decide _) as [<-|Hne].
    + rewrite Ht. by intros [= <-].
    + apply H3. set_solver.
  - intros i [Hi|Hi]; apply H4; [by left|right]. revert Hi. rewrite lookup_alter. destruct (decide _) as [<-|]; [|done].
    rewrite Ht. by eexists.
Qed.
Lemma sound_drop x id s : sound (id :: x) s -> sound x s.
Proof.
  intros [H1 H2 H3 H4 H5 H6 H7]. constructor; try done.
  - rewrite running_perm in H1. by apply NoDup_cons in H1 as [_ H1].
  - intros i Hi. apply H2. set_solver.
  - intros i t Hi. apply H3. set_solver.
Qed.

(** A task that runs: its call is not answered before, and is afterwards. *)
Lemma trigger_spec locked id x s : sound (id :: x) s ->
  match trigger services locked id s with Ret _ s' | Throw _ s' => sound x s' | Undefined => True end.
Proof.
  intros Hs. unfold trigger.
  assert (Hdel : forall ms s0, sound x s0 -> id ∈ called s0 ->
    match set_timer ms (DeleteMessage id) s0 with Ret _ s' | Throw _ s' => sound x s' | Undefined => True end).
  { intros ms s0 [H1 H2 H3 H4 H5 H6 H7] Hi. constructor; cbn; try done.
    intros n i [->|Hn]%set_insert_elem Hn2; [by injection Hn2 as <-|by eapply H6]. }
  assert (Hcall : forall t s0, sound (id :: x) s0 ->
    match (modify_state (fun s => with_work (committed s) (called s ++ [id]) (released s) s) ;;
      on_app (trigger_callBack (event t) (response_data t)) ;;
      if locked then undefined else set_timer 0 (DeleteMessage id)) s0 with
    | Ret _ s' | Throw _ s' => sound x s' | Undefined => True end).
  { intros t s0 [H1 H2 H3 H4 H5 H6 H7]. erewrite run_bind by reflexivity.
    set (s1 := with_work _ _ _ _). assert (Hs1 : sound x s1).
    { constructor; cbn; try done.
      - rewrite <-(app_assoc (called s0)). cbn. by rewrite <-Permutation_middle, <-running_perm.
      - intros i Hi. apply H2. set_solver.
      - intros i t' Hi. apply H3. set_solver.
      - intros i [Hi|Hi]; [|by apply H4; right]. apply elem_of_app in Hi as [Hi|Hi]; [by apply H4; left|].
        apply list_elem_of_singleton in Hi as ->. apply H4. right. apply H2. set_solver.
      - intros n i Hn Hi. apply elem_of_app. left. by eapply H6. }
    unfold mbind at 1, M_bind at 1, on_app at 1. destruct (trigger_callBack _ _ (app s1)) as [a st|e st|]; [|by destruct Hs1|done].
    destruct locked; [done|]. apply Hdel; [by destruct Hs1|]. cbn. set_solver. }
  rewrite the_call_bind. destruct (calls s !! id) as [t|]; [|done].
  unfold mbind at 1, M_bind at 1.
  assert (Hk : keeps (id :: x) (if isSuccess (response_data t) then
    d ← on_app (ClientIn services (data (response_data t))); on_call (with_response_data (succeeded d (response_data t))) id
    else mret tt)) by keep.
  specialize (Hk s Hs). destruct (_ s) as [a s1|e s1|]; [|by apply (sound_drop _ id)|done].
  rewrite the_call_bind. destruct (calls s1 !! id) as [t1|]; [|done]. by apply Hcall.
Qed.

Variables (commit : Z -> bool) (linked : bool).

Lemma keeps_try_trigger x locked id : keeps x (try_trigger services commit linked locked id).
Proof.
  intros s Hs. unfold try_trigger. rewrite the_call_bind. destruct (calls s !! id) as [t|] eqn:Et; [|done].
  destruct (task_triggered t) eqn:Em; [done|]. erewrite run_bind by reflexivity. erewrite run_bind by reflexivity.
  pose proof (sound_mark x id t s Hs Et Em) as Hm. set (s1 := with_calls _ _) in *.
  destruct (workers s1); [|by apply trigger_spec].
  assert (Hl : forall s0, sound (id :: x) s0 ->
    match (if commit id then modify_state (fun s => with_work (committed s ++ [id]) (called s) (released s) s)
      else attempt (trigger services locked id) ;; mret tt) s0 with Ret _ s' | Throw _ s' => sound x s' | Undefined => True end).
  { intros s0 Hs0. destruct (commit id).
    - destruct Hs0 as [H1 H2 H3 H4 H5 H6 H7]. constructor; cbn; try done.
      + by rewrite <-(app_assoc (committed s0)).
      + intros i Hi. apply H2. set_solver.
      + intros i t' Hi. apply H3. set_solver.
    - unfold mbind at 1, M_bind at 1, attempt. pose proof (trigger_spec locked id x s0 Hs0). by destruct (trigger _ _ _ s0). }
  destruct linked; [|by apply Hl]. erewrite run_bind by reflexivity. apply Hl. by destruct Hm.
Qed.

(** ** The other operations *)
Lemma keeps_the_call x id : keeps x (the_call id).
Proof. unfold the_call. keep. Qed.
#[local] Hint Resolve keeps_the_call keeps_try_trigger : keeps.
Lemma keeps_send_data x id : keeps x (send_data id).
Proof. unfold send_data, send_packet. keep. Qed.
#[local] Hint Resolve keeps_send_data : keeps.
Lemma keeps_response_timeout x locked id last :
  keeps x (response_timeout_event services commit linked locked id last).
Proof.
  unfold response_timeout_event, send_request_heart_beat, send_packet. keep.
Qed.
#[local] Hint Resolve keeps_response_timeout : keeps.
Lemma keeps_timeout x locked id ack : keeps x (timeout_event services commit linked locked id ack).
Proof. unfold timeout_event, request_ACK, send_packet. keep. Qed.
#[local] Hint Resolve keeps_timeout : keeps.

Lemma keeps_request_phase x id header : keeps x (on_request_phase services commit linked id header).
Proof.
  unfold on_request_phase, send_heart_beat, send_packet. keep.
Qed.
#[local] Hint Resolve keeps_request_phase : keeps.
Lemma keeps_accept_piece x id header source : keeps x (accept_piece id header source).
Proof.
  unfold accept_piece, getPieceState, setPieceState. keep.
Qed.
#[local] Hint Resolve keeps_accept_piece : keeps.
Lemma keeps_response_phase x id header source : keeps x (on_response_phase services commit linked id header source).
Proof.
  unfold on_response_phase, send_heart_beat, send_response_ACK, send_packet, setPieceState.
  keep.
Qed.
#[local] Hint Resolve keeps_response_phase : keeps.
Lemma keeps_handle x header source : keeps x (handle services commit linked header source).
Proof. unfold handle. keep. Qed.
#[local] Hint Resolve keeps_handle : keeps.

Lemma keeps_send_step x id : keeps x (send_step id).
Proof. unfold send_step. keep. Qed.
#[local] Hint Resolve keeps_send_step : keeps.
Lemma keeps_arrival x d : keeps x (on_arrival services commit linked d).
Proof. unfold on_arrival. keep. Qed.
#[local] Hint Resolve keeps_arrival : keeps.
Lemma keeps_read_loop x arrivals : keeps x (read_loop services commit linked arrivals).
Proof.
  induction arrivals as [|[now d] arrivals IH]; cbn [read_loop]; [keep|].
  keep.
Qed.
#[local] Hint Resolve keeps_read_loop : keeps.

Lemma keeps_run_timer x : keeps x (run_timer services commit linked).
Proof.
  intros s Hs. unfold run_timer. erewrite run_bind by reflexivity. destruct (nodes (timer s)) as [|n l] eqn:En; [done|].
  destruct (_ <=? 0); [|done].
  assert (Hc : match run_call services commit linked (callBack n) s with Ret _ s' | Throw _ s' => sound x s' | Undefined => True end).
  { destruct (callBack n) as [id a|id a|id] eqn:Ec; cbn [run_call]; [by apply keeps_timeout|by apply keeps_response_timeout|].
    assert (Hi : id ∈ called s) by (apply (sound_timers x s Hs n); [rewrite En; left|done]).
    assert (Hno : forall i, i ∈ committed s ++ x -> i <> id).
    { intros i Hx ->. pose proof (sound_once x s Hs) as Hd. apply NoDup_app in Hd as (_ & Hd & _). by apply (Hd id). }
    destruct Hs as [H1 H2 H3 H4 H5 H6 H7]. constructor; cbn; try done.
    - intros i Hx. rewrite lookup_delete_ne by (intros ->; by apply (Hno i)). by apply H2.
    - intros i t Hx [_ Ht]%lookup_delete_Some. by apply (H3 i).
    - intros i [Hx|Hx]; apply H4; [by left|right]. destruct Hx as [t [_ Ht]%lookup_delete_Some]. by eexists. }
  unfold mbind, M_bind. destruct (run_call _ _ _ _ s) as [[] s1|e s1|]; [|done..].
  destruct Hc as [H1 H2 H3 H4 H5 H6 H7]. constructor; cbn; try done.
  intros m id Hm. apply H6. unfold clearTimeout in Hm. destruct (set_extract _ _) eqn:Ex; cbn in Hm; [|done].
  by apply (set_extract_elem (base n) m _ l0).
Qed.
#[local] Hint Resolve keeps_run_timer : keeps.

Lemma keeps_loop_turn x order arrivals until : keeps x (loop_turn services commit linked order arrivals until).
Proof.
  unfold loop_turn. apply keeps_bind; [apply keeps_get|]. intros s. destruct (_ && _); [|apply keeps_ret].
  apply keeps_bind.
  { intros s0 [H1 H2 H3 H4 H5 H6 H7]. constructor; cbn; rewrite ?H5, ?(right_id_L ∅ (∪)); done. }
  intros _. keep.
Qed.

Lemma keeps_pool_turn k : keeps [] (pool_turn services k).
Proof.
  intros s Hs. unfold pool_turn. erewrite run_bind by reflexivity. destruct (committed s !! k) as [id|] eqn:Ek; [|done].
  erewrite run_bind by reflexivity. apply delete_Permutation in Ek. set (s1 := with_work _ _ _ _).
  assert (Hs1 : sound [id] s1).
  { destruct Hs as [H1 H2 H3 H4 H5 H6 H7].
    assert (Hp : delete k (committed s) ++ [id] ≡ₚ committed s ++ []) by (rewrite app_nil_r; etrans; [apply Permutation_app_comm|by symmetry]).
    constructor; cbn; try done.
    - by rewrite Hp.
    - intros i Hi. apply H2. by rewrite <-Hp.
    - intros i t Hi. apply H3. by rewrite <-Hp. }
  unfold mbind at 1, M_bind at 1, attempt. pose proof (trigger_spec false id [] s1 Hs1). by destruct (trigger _ _ _ s1).
Qed.

(** Numbers: the clock and the counter are far from the end of 64 bits. *)
Variable inet_aton : bytes -> option Z.

Lemma keeps_send x ns e : (0 <= ns < 2 ^ 63) ->
  forall s, sound x s -> tick s < 2 ^ 63 ->
  match send services inet_aton ns e s with Ret _ s' | Throw _ s' => sound x s' | Undefined => True end.
Proof.
  intros Hn s Hs Ht. pose proof (sound_tick x s Hs). unfold send. destruct (_ && _); [|done].
  do 2 (erewrite run_bind by reflexivity). set (id := GlobalTransmitterId ns (tick s)).
  assert (Hid : tick s < id <= 2 ^ 63).
  { unfold id, GlobalTransmitterId. destruct (Z.leb_spec ns (tick s)); [|lia].
    replace (u64 (tick s + 1)) with (tick s + 1) by (symmetry; apply wrap_small; unfold is_uint; lia). lia. }
  assert (Hs1 : sound x (with_tick id s)).
  { destruct Hs as [H1 H2 H3 H4 H5 H6 H7]. constructor; cbn; try done; [|lia]. intros i Hi. specialize (H4 i Hi). lia. }
  assert (Hfresh : id ∉ called s ++ committed s ++ x).
  { intros [Hi|Hi]%elem_of_app; [pose proof (sound_old x s Hs id (or_introl Hi))|
      pose proof (sound_old x s Hs id (or_intror (sound_open x s Hs id Hi)))]; lia. }
  unfold send_as. destruct (inet_aton _) as [ip|]; [|done].
  unfold mbind at 1, M_bind at 1, on_app. destruct (ClientOut _ _ _) as [d st|e' st|]; [|by destruct Hs1|done].
  erewrite run_bind by reflexivity. case_decide as Hc; [|by destruct Hs1].
  erewrite run_bind by reflexivity.
  destruct Hs1 as [H1 H2 H3 H4 H5 H6 H7]. cbn in *. constructor; cbn; try done.
  - intros i Hi. rewrite lookup_insert. case_decide; [by eexists|]. by apply H2.
  - intros i t Hi. rewrite lookup_insert. case_decide as He; [subst i; done|]. by apply H3.
  - intros i. rewrite lookup_insert. case_decide as He; [subst i; intros; lia|]. intros Hi. by apply H4.
Qed.
End Laws.
