(* ===== verification/TransmitterTheorems.v ===== *)
(** * The asynchronous client: theorems

    A call is answered at most once, and one that nobody answers is answered with a timeout.
    What a lost acknowledgement and a full queue of the thread pool do wrong, and how a
    response is put together. *)
From S2P Require Import Prelude Stream Protocol TimerTree Effects Pieces Reassembly Packets Middleware TransmitterEvent Transmitter TransmitterLaws.

Section Theorems.
Context {h : Host} {P : Pool} {St : Type}.
Variables (services : list (middleware_service St)) (commit : Z -> bool) (linked : bool) (inet_aton : bytes -> option Z).
Implicit Types (s : Transmitter St) (t : TransmitterTask St).
Abbreviation TM := (M (Transmitter St)).

(** ** Histories *)
Inductive move s : Transmitter St -> Prop :=
| move_send ns e b s' : 0 <= ns < 2 ^ 63 -> tick s < 2 ^ 63 -> send services inet_aton ns e s = Ret b s' -> move s s'
| move_refused ns e x s' : 0 <= ns < 2 ^ 63 -> tick s < 2 ^ 63 -> send services inet_aton ns e s = Throw x s' -> move s s'
| move_turn order arrivals until rest s' : loop_turn services commit linked order arrivals until s = Ret rest s' -> move s s'
| move_pool k s' : pool_turn services k s = Ret tt s' -> move s s'
| move_settings req resp tries run : move s (with_settings req resp tries run s).

Lemma new_sound buffer (st : St) now last : 0 <= last -> sound [] (Transmitter_new buffer st now last).
Proof.
  intros Hl. constructor; cbn; try done; [constructor|..]; try set_solver.
  intros id [?|[? ?]]; set_solver.
Qed.

(** C31: whatever calls are made, whatever datagrams come and whenever the pool runs its
    tasks, the function of a call is called at most once, and a task of the pool finds its
    message. *)
Theorem answered_once buffer (st : St) now last s : 0 <= last ->
  rtc move (Transmitter_new buffer st now last) s ->
  NoDup (called s ++ committed s) /\ forall id, id ∈ committed s -> is_Some (calls s !! id).
Proof.
  intros Hlast Hr. assert (Hs : sound [] s).
  { revert Hr. generalize (new_sound buffer st now last Hlast). generalize (Transmitter_new buffer st now last).
    intros s0 H0 Hr. revert H0. induction Hr as [|s0 s1 s2 Hm _ IH]; [done|]. intros H0. apply IH.
    destruct Hm as [ns e b s' Hn Hb E|ns e x s' Hn Hb E|order arrivals until rest s' E|k s' E|req resp tries run].
    - pose proof (keeps_send services inet_aton [] ns e Hn s0 H0 Hb) as Hk. by rewrite E in Hk.
    - pose proof (keeps_send services inet_aton [] ns e Hn s0 H0 Hb) as Hk. by rewrite E in Hk.
    - pose proof (keeps_loop_turn services commit linked [] order arrivals until s0 H0) as Hk. by rewrite E in Hk.
    - pose proof (keeps_pool_turn services k s0 H0) as Hk. by rewrite E in Hk.
    - by destruct H0. }
  destruct Hs as [H1 H2 _ _ _ _ _]. by rewrite !app_nil_r in *.
Qed.

(** ** The two halves of a turn *)
Definition first_half (id : Z) : TM unit := take_new ;; for_each send_step [id].
Definition second_half (until : Z) : TM unit :=
  modify_state (with_time until) ;; run_timer services commit linked.

Lemma halves id until s : run_state s = true -> (calls s <> ∅) ->
  loop_turn services commit linked [id] [] until s = (first_half id ;; second_half until ;; mret []) s.
Proof.
  intros Hr Hc. unfold loop_turn. erewrite run_bind by reflexivity. rewrite Hr, bool_decide_false by naive_solver.
  cbn [andb negb]. unfold first_half, second_half, take_new, mbind, M_bind, modify_state. cbn [read_loop].
  destruct (for_each _ _ _) as [[] s1|x s1|]; [|done..]. unfold mret, M_ret. by destruct (run_timer _ _ _ _).
Qed.

(** ** A call that nobody answers *)

(** Turns that end at the times [us] pass [tries] timeouts and one more, the first at
    [expiry], and each is set again when the one before has passed; the last turn passes
    the last. *)
Fixpoint expires (r expiry : Z) (tries : nat) (us : list Z) : bool :=
  match us with
  | [] => false
  | u :: us =>
      if u <? expiry then expires r expiry tries us
      else match tries with O => bool_decide (us = []) | S tries => expires r (u + r) tries us end
  end.

Section Call.
Variables (id : Z) (e : TransmitterEvent St) (ip : Z) (d : bytes).
Abbreviation n := (Z.of_nat (length d)).
Abbreviation p := (pieces n).
Hypothesis Hn : 0 < n <= 65528 * 522.

Definition receiver : address := {| sin_port := event_port e; sin_addr := ip |}.
Definition piece_packet (i : Z) : address * bytes :=
  (receiver, request_piece id n i (size_of_piece n p i) ++ piece d i).

(** A call as [send] makes it, and after its first pieces were sent. *)
Definition fresh_task : TransmitterTask St := TransmitterTask_new e ip d.
Definition sent_task (tries active : Z) : TransmitterTask St :=
  with_activity tries active (with_expect (getSendCount p) fresh_task).

Lemma fresh_fields : task_size fresh_task = n /\ task_pieces fresh_task = p /\ task_last_piece fresh_task = last_size n /\
  send_time fresh_task = getSendCount p.
Proof.
  pose proof (pieces_bounds n ltac:(lia)). assert (En : u32 n = n) by (apply wrap_small; unfold is_uint; lia).
  unfold fresh_task, TransmitterTask_new. cbn. rewrite En, piece_count_pieces by lia. done.
Qed.
Lemma send_count_bounds : 1 <= getSendCount p <= Z.min 7 p.
Proof.
  pose proof (pieces_bounds n ltac:(lia)). unfold getSendCount. repeat (case_match; [lia|]). lia.
Qed.

Lemma send_loop_logged t m : task_size t = n -> task_pieces t = p -> task_last_piece t = last_size n -> task_data t = d ->
  task_address t = receiver -> forall k s, 0 <= k -> k + Z.of_nat m <= p ->
  for_each (fun i =>
    let pieceDataPartSize := if i =? task_pieces t - 1 then task_last_piece t else defaultPieceLimitSize in
    body ← lift_option (copy_from (i * defaultPieceLimitSize) pieceDataPartSize (task_data t));
    send_packet t (request_piece id (task_size t) i pieceDataPartSize ++ body)) (seqZ k (Z.of_nat m)) s =
  Ret tt (with_packets (packets s ++ map piece_packet (seqZ k (Z.of_nat m))) s).
Proof.
  intros E1 E2 E3 E4 E5. induction m as [|m IH]; intros k s Hk Hm.
  { change (seqZ k (Z.of_nat 0)) with (@nil Z). cbn. rewrite app_nil_r. by destruct s. }
  rewrite seqZ_cons by lia. replace (Z.pred (Z.of_nat (S m))) with (Z.of_nat m) by lia. cbn [for_each map].
  assert (Ec : copy_from (k * defaultPieceLimitSize) (size_of_piece n p k) d = Some (piece d k)).
  { pose proof (size_of_piece_bounds n k ltac:(lia) ltac:(lia)) as [Hs1 Hs2].
    rewrite copy_from_spec by (change defaultPieceLimitSize with 522; lia).
    unfold piece. do 2 f_equal. change defaultPieceLimitSize with 522. lia. }
  rewrite E1, E2, E3, E4 in *. fold (size_of_piece n p k). rewrite Ec. cbn [lift_option].
  rewrite run_bind_assoc. erewrite run_bind by reflexivity. erewrite run_bind by reflexivity. rewrite IH by lia. cbn.
  rewrite <-app_assoc. unfold piece_packet. by rewrite E5.
Qed.

(** Waiting for an acknowledgement: [tries] timeouts so far, the next at [expiry]. *)
Record waiting (tries expiry : Z) (l : list (address * bytes)) s : Prop := {
  waiting_call : exists active, active <> 0 /\ calls s = {[id := sent_task tries active]} /\ new_calls s = ∅;
  waiting_timer : exists nd, nodes (timer s) = [nd] /\ expire nd = expiry /\ callBack nd = TimeoutEvent id 0;
  waiting_packets : packets s = l;
  waiting_state : run_state s = true /\ workers s = true /\ committed s = [];
}.

Lemma first_half_fresh s : calls s = {[id := fresh_task]} -> new_calls s = ∅ -> nodes (timer s) = [] -> time s <> 0 ->
  run_state s = true -> workers s = true -> committed s = [] ->
  exists s', first_half id s = Ret tt s' /\
    waiting 0 (time s + request_timeout s) (packets s ++ map piece_packet (seqZ 0 (getSendCount p))) s' /\
    request_timeout s' = request_timeout s /\ try_time s' = try_time s /\ app s' = app s /\ called s' = called s.
Proof.
  intros Hc Hnew Hnd Ht Hr Hw Hcm. destruct fresh_fields as (E1 & E2 & E3 & E4). pose proof send_count_bounds as Hb.
  unfold first_half, take_new. erewrite run_bind by reflexivity. rewrite Hnew, (right_id_L ∅ (∪)). cbn [for_each].
  unfold send_step. rewrite run_bind_assoc. erewrite run_bind by reflexivity. cbn [calls with_calls with_new_calls]. rewrite Hc.
  rewrite lookup_singleton_eq. change (task_active fresh_task =? 0) with true. cbv iota.
  unfold send_data. rewrite !run_bind_assoc. rewrite the_call_bind. cbn [calls with_calls with_new_calls].
  rewrite lookup_singleton_eq.
  assert (Ee : send_end fresh_task = getSendCount p).
  { unfold send_end. rewrite E2, E4. change (task_ack fresh_task) with 0.
    replace (u16 (0 + getSendCount p)) with (getSendCount p) by (symmetry; apply wrap_small; unfold is_uint; lia). lia. }
  change (task_ack fresh_task) with 0. rewrite Ee, Z.sub_0_r, Z.max_r by lia.
  rewrite run_bind_assoc. erewrite run_bind; [|rewrite <-(Z2Nat.id (getSendCount p)) by lia;
    exact (send_loop_logged fresh_task (Z.to_nat (getSendCount p)) E1 E2 E3 eq_refl eq_refl 0 _ ltac:(lia) ltac:(lia))].
  rewrite Z2Nat.id by lia.
  unfold on_call, set_timer. do 3 step. eexists. split; [reflexivity|]. split; [|done].
  split; cbn; try done.
  - exists (time s). rewrite !alter_singleton_eq. done.
  - rewrite Hnd. cbn. by eexists.
Qed.

Lemma first_half_waiting tries expiry l s : waiting tries expiry l s -> first_half id s = Ret tt s.
Proof.
  intros [(a & Ha & Hc & Hnew) _ _ _]. destruct fresh_fields as (E1 & E2 & E3 & E4). pose proof send_count_bounds as Hb.
  unfold first_half, take_new. erewrite run_bind by reflexivity. rewrite Hnew, (right_id_L ∅ (∪)). cbn [for_each].
  unfold send_step. rewrite run_bind_assoc. erewrite run_bind by reflexivity. cbn [calls with_calls with_new_calls].
  rewrite Hc, lookup_singleton_eq. cbn [task_active sent_task with_activity]. rewrite (proj2 (Z.eqb_neq a 0)) by done.
  cbn [task_phase sent_task with_activity with_expect fresh_task TransmitterTask_new ack_expect send_time task_ack].
  change (send_time fresh_task) with (getSendCount (piece_count (u32 n))) in E4. rewrite E4, Z.sub_diag.
  rewrite Z.ltb_irrefl, andb_false_r. erewrite run_bind by reflexivity. unfold mret, M_ret. f_equal.
  destruct s; cbn in *. by subst.
Qed.

(** Nothing is due. *)
Lemma second_half_before tries expiry l until s : waiting tries expiry l s -> until < expiry ->
  second_half until s = Ret tt (with_time until s) /\ waiting tries expiry l (with_time until s).
Proof.
  intros Hw Hu. split; [|by destruct Hw]. destruct Hw as [_ (nd & Hnd & He & _) _ _]. unfold second_half, run_timer.
  do 2 (erewrite run_bind by reflexivity). cbn [nodes timer time with_time]. rewrite Hnd, He, (proj2 (Z.leb_gt _ _)) by lia. done.
Qed.

(** A timeout that is not the last. *)
Lemma second_half_again tries expiry l until s : waiting tries expiry l s -> expiry <= until -> 0 < request_timeout s ->
  tries < try_time s -> exists s', second_half until s = Ret tt s' /\
    waiting (tries + 1) (until + request_timeout s) (l ++ [(receiver, request_ACK_packet id n)]) s' /\
    request_timeout s' = request_timeout s /\ try_time s' = try_time s /\ app s' = app s /\ called s' = called s.
Proof.
  intros [(a & Ha & Hc & Hnew) (nd & Hnd & He & Hcb) Hp (Hr & Hw & Hcm)] Hu Hpos Htry.
  destruct fresh_fields as (E1 & E2 & E3 & E4). pose proof send_count_bounds as Hb.
  unfold second_half, run_timer. do 2 (erewrite run_bind by reflexivity). cbn [nodes timer time with_time].
  rewrite Hnd, He, (proj2 (Z.leb_le _ _)) by lia. rewrite Hcb. cbn [run_call]. unfold timeout_event.
  rewrite run_bind_assoc. erewrite run_bind by reflexivity. cbn [calls with_time]. rewrite Hc, lookup_singleton_eq.
  change (task_ack (sent_task tries a)) with 0. change (task_pieces (sent_task tries a)) with (task_pieces fresh_task).
  rewrite E2, (proj2 (Z.eqb_neq 0 p)) by lia. cbn [Z.eqb andb negb]. rewrite run_bind_assoc. erewrite run_bind by reflexivity.
  cbn [try_time with_time timeout_time sent_task with_activity]. rewrite (proj2 (Z.ltb_ge _ _)) by lia.
  rewrite run_bind_assoc. erewrite run_bind by reflexivity. unfold set_timer. erewrite run_bind by reflexivity.
  eexists. split; [reflexivity|]. split; [|done]. split; cbn; try done.
  - exists a. rewrite Hc, alter_singleton_eq. done.
  - rewrite Hnd. unfold clearTimeout. cbn. unfold base_lt, base. cbn. rewrite He.
    rewrite (proj2 (Z.ltb_ge (until + request_timeout s) expiry)) by lia.
    rewrite (proj2 (Z.ltb_lt expiry (until + request_timeout s))) by lia. cbn. unfold base_lt. cbn.
    rewrite He, !Z.ltb_irrefl. cbn. by eexists.
  - change (task_size fresh_task) with (u32 n) in E1. by rewrite Hp, E1.
Qed.

(** What is left when the last timeout has passed. *)
Record timed_out (l : list (address * bytes)) s : Prop := {
  out_call : exists t, calls s !! id = Some t /\ task_triggered t = true /\ event t = e /\
    response_data t = failed NetworkTimeout ResponseData_new;
  out_packets : packets s = l;
  out_committed : committed s = [id];
}.

(** The last timeout hands the call to the pool; when the pool has no place, the thread
    that has the mutex of the timers waits for a thread that waits for that mutex. *)
Lemma second_half_last tries expiry l until s : waiting tries expiry l s -> expiry <= until -> try_time s <= tries ->
  if commit id then exists s', second_half until s = Ret tt s' /\ timed_out l s' /\ app s' = app s /\ called s' = called s
  else (forall x st, event_callBack e (failed NetworkTimeout ResponseData_new) (app s) <> Throw x st) ->
    second_half until s = Undefined.
Proof.
  intros [(a & Ha & Hc & Hnew) (nd & Hnd & He & Hcb) Hp (Hr & Hw & Hcm)] Hu Htry.
  destruct fresh_fields as (E1 & E2 & E3 & E4). pose proof send_count_bounds as Hb.
  unfold second_half, run_timer. do 2 (erewrite run_bind by reflexivity). cbn [nodes timer time with_time].
  rewrite Hnd, He, (proj2 (Z.leb_le _ _)) by lia. rewrite Hcb. cbn [run_call]. unfold timeout_event.
  step. cbn [calls with_time]. rewrite Hc, lookup_singleton_eq.
  change (task_ack (sent_task tries a)) with 0. change (task_pieces (sent_task tries a)) with (task_pieces fresh_task).
  rewrite E2, (proj2 (Z.eqb_neq 0 p)) by lia. cbn [Z.eqb andb negb]. step.
  cbn [try_time with_time timeout_time sent_task with_activity]. rewrite (proj2 (Z.ltb_lt _ _)) by lia.
  unfold on_call. step. unfold try_trigger. rewrite ?run_bind_assoc, the_call_bind. cbn [calls with_calls with_time].
  rewrite Hc, !alter_singleton_eq, lookup_singleton_eq. cbn [task_triggered with_response_data with_activity sent_task fresh_task
    with_expect TransmitterTask_new]. unfold on_call. do 2 step. cbn [workers with_calls with_time]. rewrite Hw.
  rewrite ?run_bind_assoc.
  assert (Hend : forall s3 t3, calls s3 = {[id := t3]} -> task_triggered t3 = true -> event t3 = e ->
    response_data t3 = failed NetworkTimeout ResponseData_new -> packets s3 = l -> committed s3 = [] -> app s3 = app s ->
    called s3 = called s ->
    if commit id then exists s', ((if commit id then modify_state (fun s => with_work (committed s ++ [id]) (called s) (released s) s)
        else attempt (trigger services true id) ;; mret tt) ;;
        modify_state (fun s => with_timers (clearTimeout (base nd) (timer s)).2 s)) s3 = Ret tt s' /\
        timed_out l s' /\ app s' = app s /\ called s' = called s
    else (forall x st, event_callBack e (failed NetworkTimeout ResponseData_new) (app s) <> Throw x st) ->
      ((if commit id then modify_state (fun s => with_work (committed s ++ [id]) (called s) (released s) s)
        else attempt (trigger services true id) ;; mret tt) ;;
        modify_state (fun s => with_timers (clearTimeout (base nd) (timer s)).2 s)) s3 = Undefined).
  { intros s3 t3 H1 H2 H3 H4 H5 H6 H7 H8. destruct (commit id).
    - step. eexists. split; [reflexivity|]. split; [|done]. split; cbn; [|done|by rewrite H6].
      exists t3. by rewrite H1, lookup_singleton_eq.
    - intros Hth. unfold mbind at 1, M_bind at 1. unfold mbind at 1, M_bind at 1. unfold attempt, trigger.
      rewrite the_call_bind, H1, lookup_singleton_eq, H4. change (isSuccess (failed _ _)) with false. cbv iota. step.
      rewrite the_call_bind, H1, lookup_singleton_eq. step. unfold mbind, M_bind, on_app, trigger_callBack. cbn [app with_work].
      rewrite H3, H4, H7.
      destruct (event_callBack e (failed NetworkTimeout ResponseData_new) (app s)) as [a0 st|x st|] eqn:Ecb; [done| |done].
      by destruct (Hth x st). }
  destruct linked; step.
  all: eapply Hend; [cbn [calls with_calls with_work with_time]; rewrite ?Hc, !alter_singleton_eq; reflexivity|done..].
Qed.

Definition silent_turns (us : list Z) : TM unit :=
  for_each (fun u => loop_turn services commit linked [id] [] u ;; mret tt) us.

Lemma turn_waiting tries expiry l u s : waiting tries expiry l s ->
  loop_turn services commit linked [id] [] u s = (second_half u ;; mret []) s.
Proof.
  intros Hw. rewrite halves; [|apply Hw|].
  - by rewrite (run_bind _ _ _ _ _ (first_half_waiting _ _ _ _ Hw)).
  - destruct Hw as [(a & _ & -> & _) _ _ _]. apply map_non_empty_singleton.
Qed.

Definition outcome_of (l : list (address * bytes)) (m : TM unit) s : Prop :=
  if commit id then exists s', m s = Ret tt s' /\ timed_out l s' /\ app s' = app s /\ called s' = called s
  else (forall x st, event_callBack e (failed NetworkTimeout ResponseData_new) (app s) <> Throw x st) -> m s = Undefined.

Lemma silent_waiting us : forall k tries expiry l s, waiting tries expiry l s -> 0 < request_timeout s ->
  try_time s = tries + Z.of_nat k -> expires (request_timeout s) expiry k us = true ->
  outcome_of (l ++ replicate k (receiver, request_ACK_packet id n)) (silent_turns us) s.
Proof.
  induction us as [|u us IH]; intros k tries expiry l s Hw Hr Ht Hx; [done|]. cbn [expires] in Hx.
  assert (Et : forall s', second_half u s = Ret tt s' -> silent_turns (u :: us) s = silent_turns us s').
  { intros s' E. unfold silent_turns. cbn [for_each]. rewrite run_bind_assoc.
    assert (El : loop_turn services commit linked [id] [] u s = Ret [] s').
    { rewrite (turn_waiting _ _ _ _ _ Hw). by rewrite (run_bind _ _ _ _ _ E). }
    rewrite (run_bind _ _ _ _ _ El). by step. }
  destruct (Z.ltb_spec u expiry) as [Hu|Hu].
  - destruct (second_half_before _ _ _ _ _ Hw Hu) as [E Hw']. unfold outcome_of. rewrite (Et _ E).
    by apply (IH k tries expiry l (with_time u s)).
  - destruct k as [|k].
    + apply bool_decide_eq_true in Hx as ->. rewrite app_nil_r.
      pose proof (second_half_last tries expiry l u s Hw Hu ltac:(lia)) as Hlast. unfold outcome_of.
      destruct (commit id).
      * destruct Hlast as (s' & E & Hs'). exists s'. by rewrite (Et _ E).
      * intros Hth. unfold silent_turns. cbn [for_each]. rewrite run_bind_assoc. unfold mbind at 1, M_bind at 1.
        rewrite (turn_waiting _ _ _ _ _ Hw). unfold mbind at 1, M_bind at 1. by rewrite Hlast.
    + destruct (second_half_again tries expiry l u s Hw Hu Hr ltac:(lia)) as (s' & E & Hw' & E1 & E2 & E3 & E4).
      specialize (IH k (tries + 1) _ _ s' Hw'). rewrite E1, E2 in IH. specialize (IH Hr ltac:(lia) Hx).
      unfold outcome_of in *. rewrite (Et _ E), <-E3, <-E4. cbn [replicate]. by rewrite <-app_assoc in IH.
Qed.

Lemma silent_fresh us k s : calls s = {[id := fresh_task]} -> new_calls s = ∅ -> nodes (timer s) = [] -> time s <> 0 ->
  run_state s = true -> workers s = true -> committed s = [] -> 0 < request_timeout s -> try_time s = Z.of_nat k ->
  expires (request_timeout s) (time s + request_timeout s) k us = true ->
  outcome_of ((packets s ++ map piece_packet (seqZ 0 (getSendCount p))) ++ replicate k (receiver, request_ACK_packet id n))
    (silent_turns us) s.
Proof.
  intros Hc Hnew Hnd Ht Hrun Hw Hcm Hr Hk Hx.
  destruct (first_half_fresh s Hc Hnew Hnd Ht Hrun Hw Hcm) as (s' & E & Hw' & E1 & E2 & E3 & E4).
  destruct us as [|u us]; [done|].
  assert (Et : silent_turns (u :: us) s = silent_turns (u :: us) s').
  { assert (El : loop_turn services commit linked [id] [] u s = loop_turn services commit linked [id] [] u s').
    { rewrite (turn_waiting _ _ _ _ _ Hw'), halves; [|done|rewrite Hc; apply map_non_empty_singleton].
      by rewrite (run_bind _ _ _ _ _ E). }
    unfold silent_turns. cbn [for_each]. rewrite !run_bind_assoc. unfold mbind, M_bind. by rewrite El. }
  pose proof (silent_waiting (u :: us) k 0 _ _ s' Hw') as H. rewrite E1, E2 in H. specialize (H Hr ltac:(lia) Hx).
  unfold outcome_of in *. by rewrite Et, <-E3, <-E4.
Qed.
End Call.

(** A transmitter that runs and has nothing to do. *)
Record resting s : Prop := {
  rest_calls : calls s = ∅ /\ new_calls s = ∅;
  rest_timers : nodes (timer s) = [];
  rest_work : committed s = [];
  rest_runs : run_state s = true /\ workers s = true /\ time s <> 0;
  rest_settings : 0 < request_timeout s /\ 0 <= try_time s;
}.

(** C32: a call that nobody answers ends.  Its first pieces are sent once, after every
    timeout but the last the server is asked for an acknowledgement, and with the last the
    call is handed to the pool, which tells its function that the network has failed.  When
    the pool has no place, the thread waits for itself for ever. *)
Theorem unanswered_call ns e ip d st s us :
  resting s -> is_set_callback e = true -> is_set_remote_func e = true -> inet_aton (ip_address e) = Some ip ->
  ClientOut services (byteStream (serializer e)) (app s) = Ret d st -> 0 < Z.of_nat (length d) <= 65528 * 522 ->
  expires (request_timeout s) (time s + request_timeout s) (Z.to_nat (try_time s)) us = true ->
  let id := GlobalTransmitterId ns (tick s) in
  let size := Z.of_nat (length d) in
  let run := send services inet_aton ns e ;; silent_turns id us in
  let answer := failed NetworkTimeout ResponseData_new in
  if commit id then exists s', run s = Ret tt s' /\ app s' = st /\
    packets s' = packets s ++ map (piece_packet id e ip d) (seqZ 0 (getSendCount (pieces size))) ++
      replicate (Z.to_nat (try_time s)) (receiver e ip, request_ACK_packet id size) /\
    forall st', event_callBack e answer st = Ret tt st' ->
      exists s'', pool_turn services 0 s' = Ret tt s'' /\ app s'' = st' /\ called s'' = called s ++ [id]
  else (forall x st', event_callBack e answer st <> Throw x st') -> run s = Undefined.
Proof.
  intros [[Hc Hnew] Hnd Hcm (Hrun & Hw & Ht) [Hr Htry]] Hcb Hrem Hip Hout Hd Hx id size run answer.
  set (s1 := with_calls {[id := fresh_task e ip d]} (with_app st (with_tick id s))).
  assert (Es : send services inet_aton ns e s = Ret true s1).
  { unfold send. rewrite Hcb, Hrem. cbn [andb]. do 2 step. unfold send_as. rewrite Hip. unfold mbind at 1, M_bind at 1, on_app.
    cbn [app with_tick]. fold id. rewrite Hout. step. cbn [calls with_app with_tick]. rewrite Hc, decide_True by done. by step. }
  pose proof (silent_fresh id e ip d Hd us (Z.to_nat (try_time s)) s1) as H.
  assert (Hs : outcome_of id e ((packets s1 ++ map (piece_packet id e ip d) (seqZ 0 (getSendCount (pieces size)))) ++
    replicate (Z.to_nat (try_time s)) (receiver e ip, request_ACK_packet id size)) (silent_turns id us) s1)
    by (apply H; try done; cbn; lia).
  unfold outcome_of in Hs. unfold run. rewrite (run_bind _ _ _ _ _ Es). destruct (commit id); [|exact Hs].
  destruct Hs as (s' & E & [(t & Ht1 & Ht2 & Ht3 & Ht4) Hp Hcm'] & Ha & Hcl). exists s'. split; [done|]. split; [done|].
  split; [by rewrite Hp, <-app_assoc|]. intros st' Hcall. unfold pool_turn. step. rewrite Hcm'. cbn [lookup list_lookup]. step.
  unfold mbind at 1, M_bind at 1, attempt, trigger. rewrite the_call_bind. cbn [calls with_work]. rewrite Ht1, Ht4.
  change (isSuccess (failed _ _)) with false. cbv iota. step. rewrite the_call_bind. cbn [calls with_work]. rewrite Ht1. step.
  assert (Eapp : on_app (trigger_callBack (event t) (response_data t)) (with_work [] (called s' ++ [id]) (released s') s') =
    Ret tt (with_app st' (with_work [] (called s' ++ [id]) (released s') s'))).
  { unfold on_app, trigger_callBack. cbn [app with_work]. rewrite Ht3, Ht4, Ha. unfold answer in Hcall. change (app s1) with st. by rewrite Hcall. }
  cbn [delete list_delete]. rewrite (run_bind _ _ _ _ _ Eapp). unfold set_timer. eexists. split; [reflexivity|]. cbn. by rewrite Hcl.
Qed.

(** ** Datagrams *)
Lemma alter_lookup (f : TransmitterTask St -> TransmitterTask St) (m : gmap Z (TransmitterTask St)) i t : m !! i = Some t -> alter f i m = <[i := f t]> m.
Proof.
  intros Hi. apply map_eq. intros j. rewrite lookup_alter, lookup_insert. case_decide; [subst j; by rewrite Hi|done].
Qed.

(** [recvfrom] and [parse] of a packet. *)
Lemma arrival_run hd body s : header_wf hd -> bytes_ok body -> Z.of_nat (length body) <= 522 ->
  bytes_ok (read_buffer s) -> Z.of_nat (length (read_buffer s)) = bufferSize ->
  exists b, on_arrival services commit linked (encode_header hd ++ body) s =
    ((if decide (is_Some (calls s !! timePoint hd)) then handle services commit linked hd b else mret tt) ;; mret true)
      (with_read_buffer b s) /\
    bytes_ok b /\ Z.of_nat (length b) = bufferSize /\
    copy_from protocolHeaderSize (Z.of_nat (length body)) b = Some body.
Proof.
  intros Hw Hok Hl Hb1 Hb2.
  destruct (parsed_encode hd body (read_buffer s)) as (rest & E & Hok' & Hlen & Hpar); [done|by apply encode_header_ok|done..|].
  exists (encode_header hd ++ body ++ rest). split; [|split; [|split]].
  - unfold on_arrival. step. rewrite E. step. rewrite (proj2 (Z.leb_le protocolHeaderSize _)) by (unfold protocolHeaderSize; lia).
    assert (Hps : parses (encode_header hd ++ body ++ rest) (26 + Z.of_nat (length body)) = true).
    { apply bool_decide_eq_true. unfold parsed in Hpar. destruct (parse _ _) as [[]|]; [by eexists|done]. }
    rewrite Hps, Hpar. by rewrite (proj2 (Z.ltb_lt 0 _)) by lia.
  - apply Forall_app_2; [by apply encode_header_ok|done].
  - rewrite length_app, encode_header_length. change bufferSize with 549. lia.
  - unfold protocolHeaderSize. rewrite copy_from_spec; [|lia|lia|rewrite !length_app, encode_header_length; lia].
    change (Z.to_nat 26) with 26%nat. unfold slice. rewrite drop_app_length' by (by rewrite encode_header_length).
    f_equal. apply take_app_length'. lia.
Qed.

(** ** A response that comes before the last acknowledgement *)
Section Lost.
Variable id : Z.

(** Only timeouts of requests are set. *)
Definition request_timers s : Prop := forall nd, nd ∈ nodes (timer s) -> exists a, callBack nd = TimeoutEvent id a.

Record stuck s : Prop := {
  stuck_call : exists t, calls s = {[id := t]} /\ task_phase t = Protocol.Response /\ task_ack t = task_pieces t /\
    task_active t <> 0 /\ task_triggered t = false;
  stuck_new : new_calls s = ∅;
  stuck_timers : request_timers s;
  stuck_runs : run_state s = true;
}.

Lemma request_timers_erase s b : request_timers s ->
  request_timers (with_timers (clearTimeout b (timer s)).2 s).
Proof.
  intros H nd Hnd. apply H. cbn in Hnd. unfold clearTimeout in Hnd. destruct (set_extract _ _) eqn:Ex; [|done].
  by apply (set_extract_elem b nd _ l).
Qed.

(** A timer of a call that is acknowledged does nothing. *)
Lemma stuck_timer s until : stuck s -> exists s', (modify_state (with_time until) ;; run_timer services commit linked) s = Ret tt s' /\
  stuck s' /\ packets s' = packets s /\ committed s' = committed s /\ called s' = called s /\ calls s' = calls s.
Proof.
  intros [(t & Hc & Hp & Ha & Hact & Ht) Hnew Htm Hr]. unfold run_timer. do 2 step. cbn [nodes timer time with_time].
  destruct (nodes (timer s)) as [|nd l] eqn:En.
  { eexists. split; [reflexivity|]. split; [|done]. constructor; cbn; [by exists t|done| |done].
    intros nd Hnd. apply Htm. exact Hnd. }
  destruct (_ <=? 0).
  - destruct (Htm nd) as [a Ec]; [rewrite En; left|]. rewrite Ec. cbn [run_call]. unfold timeout_event. step.
    cbn [calls with_time]. rewrite Hc, lookup_singleton_eq, Ha, Z.eqb_refl, andb_false_r. step.
    eexists. split; [reflexivity|]. split; [|done]. constructor; cbn; [by exists t|done| |done].
    apply (request_timers_erase (with_time until s)). exact Htm.
  - eexists. split; [reflexivity|]. split; [|done]. constructor; cbn; [by exists t|done| |done]. exact Htm.
Qed.

Lemma stuck_loop_turn s until : stuck s -> exists s', loop_turn services commit linked [id] [] until s = Ret [] s' /\
  stuck s' /\ packets s' = packets s /\ committed s' = committed s /\ called s' = called s /\ calls s' = calls s.
Proof.
  intros Hs. destruct (stuck_timer s until Hs) as (s' & E & H). exists s'. split; [|exact H].
  destruct Hs as [(t & Hc & Hp & Ha & Hact & Ht) Hnew Htm Hr].
  rewrite halves; [|done|rewrite Hc; apply map_non_empty_singleton].
  assert (Ef : first_half id s = Ret tt s).
  { unfold first_half, take_new. step. rewrite Hnew, (right_id_L ∅ (∪)). cbn [for_each]. unfold send_step. step.
    cbn [calls with_calls with_new_calls]. rewrite Hc, lookup_singleton_eq, (proj2 (Z.eqb_neq _ 0)) by done. rewrite Hp. step.
    unfold mret, M_ret. f_equal. destruct s; cbn in *. by subst. }
  rewrite (run_bind _ _ _ _ _ Ef). unfold second_half. by rewrite (run_bind _ _ _ _ _ E).
Qed.

(** When the acknowledgement of the last pieces is lost and the response comes in its
    place, the transmitter takes the response as that acknowledgement and drops it: no
    packet asks for it again, no timer is left that ends the call, its function is never
    called, and [stop] never returns, however many turns there are without a datagram. *)
Theorem response_taken_for_acknowledgement t hd body now until s :
  calls s = {[id := t]} -> new_calls s = ∅ -> run_state s = true -> request_timers s ->
  task_phase t = Protocol.Request -> task_active t <> 0 -> task_triggered t = false -> task_ack t <= ack_expect t - send_time t ->
  bytes_ok (read_buffer s) -> Z.of_nat (length (read_buffer s)) = bufferSize ->
  header_wf hd -> bytes_ok body -> Z.of_nat (length body) <= 522 -> phase hd = Protocol.Response -> timePoint hd = id -> now <> 0 ->
  exists s1, loop_turn services commit linked [id] [(now, encode_header hd ++ body)] until s = Ret [] s1 /\
    forall us, exists s2, silent_turns id us s1 = Ret tt s2 /\ packets s2 = packets s /\ committed s2 = committed s /\
      called s2 = called s /\ is_Some (calls s2 !! id) /\ stop s2 = Ret false s2.
Proof.
  intros Hc Hnew Hr Htm Hp Ha Ht Hexp Hb1 Hb2 Hw Hok Hl Hph Hid Hnow.
  destruct (arrival_run hd body (with_time now s) Hw Hok Hl Hb1 Hb2) as (b & E & Hb1' & Hb2' & _).
  set (t1 := with_progress Protocol.Response (task_pieces t) (with_activity 0 now t)).
  set (s0 := with_calls {[id := t1]} (with_read_buffer b (with_time now s))).
  assert (E0 : on_arrival services commit linked (encode_header hd ++ body) (with_time now s) = Ret true s0).
  { rewrite E. cbn [calls with_read_buffer with_time]. rewrite Hid, Hc, lookup_singleton_eq, decide_True by done.
    unfold handle. step. rewrite Hid, Hph. unfold on_call at 1. step. unfold on_response_phase. rewrite ?run_bind_assoc, the_call_bind.
    cbn [calls with_calls with_read_buffer with_time]. rewrite Hc, alter_singleton_eq, lookup_singleton_eq.
    cbn [task_phase with_activity]. rewrite Hp. unfold on_call. step. cbn [calls with_calls]. rewrite alter_singleton_eq. reflexivity. }
  assert (Hs0 : stuck s0).
  { constructor; cbn; [|done..]. exists t1. done. }
  destruct (stuck_timer s0 until Hs0) as (s1 & E1 & Hs1 & H1 & H2 & H3 & H4).
  exists s1. split.
  - unfold loop_turn. step. rewrite Hr, Hc, Hnew, bool_decide_false; [|intros [He _]; by apply (map_non_empty_singleton id t)].
    cbn [andb negb]. unfold take_new. step. rewrite Hc, Hnew, (right_id_L ∅ (∪)).
    assert (Es : with_new_calls ∅ (with_calls {[id := t]} s) = s) by (destruct s; cbn in *; by subst). rewrite Es.
    cbn [for_each]. unfold send_step at 1. step. rewrite Hc, lookup_singleton_eq, (proj2 (Z.eqb_neq _ 0)), Hp by done.
    rewrite (proj2 (Z.ltb_ge (ack_expect t - send_time t) (task_ack t))), andb_false_r by lia. do 2 step. cbn [read_loop].
    step. run E0. cbv iota. step. rewrite <-run_bind_assoc. by rewrite (run_bind _ _ _ _ _ E1).
  - intros us. assert (Hu : forall us s1, stuck s1 -> exists s2, silent_turns id us s1 = Ret tt s2 /\ stuck s2 /\
      packets s2 = packets s1 /\ committed s2 = committed s1 /\ called s2 = called s1 /\ calls s2 = calls s1).
    { clear. induction us as [|u us IH]; intros s1 Hs; [by exists s1|].
      destruct (stuck_loop_turn s1 u Hs) as (s2 & E & Hs2 & H1 & H2 & H3 & H4).
      destruct (IH s2 Hs2) as (s3 & E3 & Hs3 & H5 & H6 & H7 & H8). exists s3. unfold silent_turns. cbn [for_each]. run E. step.
      split; [exact E3|]. split; [done|]. by rewrite H5, H6, H7, H8. }
    destruct (Hu us s1 Hs1) as (s2 & E2 & Hs2 & H5 & H6 & H7 & H8). exists s2. split; [done|].
    rewrite H5, H6, H7, H8, H1, H2, H3, H4. do 3 (split; [done|]). split; [exists t1; exact (lookup_singleton_eq id t1)|].
    unfold stop. step. rewrite bool_decide_false; [done|]. rewrite H8, H4. intros [He _]. by apply (map_non_empty_singleton id t1).
Qed.
End Lost.

(** ** A response *)
Section Response.
Variables (id : Z) (result : bytes) (a : address) (e : TransmitterEvent St) (before : list Z).
Abbreviation n := (Z.of_nat (length result)).
Abbreviation p := (pieces n).
Hypothesis Hn : 0 < n <= 65535 * 522.
Hypothesis Hid : is_uint 64 id.
Hypothesis Hok : bytes_ok result.
Hypothesis Hcommit : commit id = true.

Definition part_header (k : Z) : ProtocolHeader :=
  header_with id n Protocol.Response RequestSend k (size_of_piece n p k) 0.
Definition part (k : Z) : bytes := response_piece id n k (size_of_piece n p k) ++ piece result k.
Definition complete_mask (mask : list bool) : bool := bool_decide (getAckNumber mask = p).
(** What is sent when the pieces of [mask] have come. *)
Definition reply (mask : list bool) : list (address * bytes) :=
  (a, sendResponseACK_packet (getAckNumber mask) id) ::
  if complete_mask mask then [] else [(a, request_heartbeat_packet id Protocol.Response)].

(** The response, as far as it has come. *)
Definition response_is (mask : list bool) (r : ResponseData) : Prop :=
  r = ResponseData_new /\ mask = replicate (Z.to_nat p) false \/
  is_initial r = true /\ piece_state r = mask /\ piece_total r = p /\ total_size r = n /\ holds mask result (Pieces.data r) /\
  isSuccess r = complete_mask mask /\ reason r = OK.

Record receiving (mask : list bool) s : Prop := {
  rc_call : exists t, calls s !! id = Some t /\ task_phase t = Protocol.Response /\ task_address t = a /\ event t = e /\
    response_is mask (response_data t) /\ task_triggered t = complete_mask mask;
  rc_mask : length mask = Z.to_nat p;
  rc_buffer : bytes_ok (read_buffer s) /\ Z.of_nat (length (read_buffer s)) = bufferSize;
  rc_settings : workers s = true /\ 1 <= try_time s;
  rc_committed : committed s = before ++ if complete_mask mask then [id] else [];
}.

Lemma p_positive : 0 < p <= 65535.
Proof. pose proof (pieces_bounds n ltac:(lia)). lia. Qed.
Lemma part_header_wf k : 0 <= k < p -> header_wf (part_header k).
Proof.
  intros Hk. pose proof p_positive. pose proof (size_of_piece_bounds n k Hk ltac:(lia)).
  apply header_with_wf; unfold is_uint in *; lia.
Qed.
Lemma part_count k : totalCount (part_header k) = p.
Proof. cbn. apply piece_count_pieces. lia. Qed.

(** A piece is put in its place, once. *)
Lemma accept_part k b mask s t : 0 <= k < p -> calls s !! id = Some t -> response_is mask (response_data t) ->
  length mask = Z.to_nat p -> copy_from protocolHeaderSize (size_of_piece n p k) b = Some (piece result k) ->
  let mask' := <[Z.to_nat k := true]> mask in
  exists r, accept_piece id (part_header k) b s =
      Ret (getAckNumber mask') (with_calls (<[id := with_response_data r t]> (calls s)) s) /\
    is_initial r = true /\ piece_state r = mask' /\ piece_total r = p /\ total_size r = n /\
    holds mask' result (Pieces.data r) /\ isSuccess r = isSuccess (response_data t) /\ reason r = reason (response_data t).
Proof.
  intros Hk Ht Hr Hm Hcf mask'. pose proof p_positive as Hp. pose proof (fresh_block_length n ltac:(lia)) as Hfl.
  set (r0 := ResponseData_initialize id p n (response_data t)).
  assert (Hr0 : is_initial r0 = true /\ piece_state r0 = mask /\ piece_total r0 = p /\ total_size r0 = n /\
    holds mask result (Pieces.data r0) /\ isSuccess r0 = isSuccess (response_data t) /\ reason r0 = reason (response_data t)).
  { unfold r0, ResponseData_initialize. destruct Hr as [[-> ->]|(H1 & H2 & H3 & H4 & H5 & H6 & H7)].
    - cbn. split_and!; try done. apply holds_fresh. lia.
    - rewrite H1. done. }
  destruct Hr0 as (H1 & H2 & H3 & H4 & H5 & H6 & H7). unfold accept_piece, on_call. step.
  rewrite part_count. change (timePoint (part_header k)) with id. change (totalSize (part_header k)) with n.
  rewrite the_call_bind. cbn [calls with_calls]. rewrite lookup_alter_eq, Ht. cbn [fmap option_fmap option_map].
  change (response_data (with_response_data _ _)) with r0. change (pieceOrder (part_header k)) with k.
  change (pieceSize (part_header k)) with (size_of_piece n p k). rewrite H3, H2.
  assert (Hl : is_Some (mask !! Z.to_nat k)) by (apply lookup_lt_is_Some; lia). destruct Hl as [b0 Hl].
  rewrite (get_piece p mask k b0 Hk Hl). step.
  assert (Hput : exists d', (if b0 : bool then mret (Pieces.data r0)
       else body ← lift_option (copy_from protocolHeaderSize (size_of_piece n p k) b);
            lift_option (copy_to (k * defaultPieceLimitSize) body (Pieces.data r0))) =
       (fun s => Ret d' s : outcome (Transmitter St) bytes) /\ holds mask' result d').
  { destruct b0.
    - exists (Pieces.data r0). split; [done|]. unfold mask'. by rewrite (list_insert_id mask _ _ Hl).
    - rewrite Hcf. pose proof (piece_length result k Hk). pose proof (size_of_piece_bounds n k Hk ltac:(lia)) as [Hs1 Hs2].
      exists (put (Z.to_nat (522 * k)) (piece result k) (Pieces.data r0)). split; [|by apply holds_put].
      cbn [lift_option]. unfold mbind, M_bind, mret, M_ret. rewrite copy_to_spec.
      + replace (k * defaultPieceLimitSize) with (522 * k) by (change defaultPieceLimitSize with 522; lia). done.
      + change defaultPieceLimitSize with 522. lia.
      + destruct H5 as [Hd _]. change defaultPieceLimitSize with 522. lia. }
  destruct Hput as (d' & -> & Hd'). step. rewrite set_piece by done. do 2 step.
  exists (with_pieces mask' d' r0). split; [|done]. unfold mret, M_ret. f_equal. cbn [calls with_calls].
  rewrite (alter_lookup _ (calls s) id t Ht), (alter_lookup _ _ id _ (lookup_insert_eq _ _ _)), insert_insert_eq. reflexivity.
Qed.

Lemma receiving_mask mask k : 0 <= k < p -> length mask = Z.to_nat p -> complete_mask mask = true ->
  complete_mask (<[Z.to_nat k := true]> mask) = true.
Proof.
  intros Hk Hm Hc%bool_decide_eq_true. apply bool_decide_eq_true. rewrite list_insert_id; [done|].
  rewrite (proj1 (getAckNumber_all mask)) by lia. apply lookup_replicate. split; [done|]. lia.
Qed.

(** What follows a piece: the call is handed to the pool when it was the last, and else the
    server is asked for more. *)
Lemma after_part mask mask' t r s :
  calls s !! id = Some (with_response_data r t) -> task_phase t = Protocol.Response -> task_address t = a -> event t = e ->
  timeout_time t = 0 -> task_triggered t = complete_mask mask -> isSuccess r = complete_mask mask ->
  (complete_mask mask = true -> complete_mask mask' = true) -> length mask' = Z.to_nat p ->
  is_initial r = true -> piece_state r = mask' -> piece_total r = p -> total_size r = n -> holds mask' result (Pieces.data r) -> reason r = OK ->
  bytes_ok (read_buffer s) /\ Z.of_nat (length (read_buffer s)) = bufferSize -> workers s = true /\ 1 <= try_time s ->
  committed s = before ++ (if complete_mask mask then [id] else []) ->
  exists s', ((t ← the_call id;
    if getAckNumber mask' =? piece_total (response_data t) then
      on_call (fun t => with_response_data (with_success (response_data t)) t) id ;; try_trigger services commit linked false id
    else response_timeout_event services commit linked false id (task_active t)) ;; mret true) s = Ret true s' /\
    receiving mask' s' /\ app s' = app s /\ called s' = called s /\
    packets s' = packets s ++ if complete_mask mask' then [] else [(a, request_heartbeat_packet id Protocol.Response)].
Proof.
  intros Hc Hph Ha He Hti Htr Hsu Hmono Hm R1 R2 R3 R4 R5 R6 Hb [Hw Htry] Hcm.
  rewrite ?run_bind_assoc, the_call_bind, Hc. cbn [response_data with_response_data]. rewrite R3.
  destruct (Z.eqb_spec (getAckNumber mask') p) as [Eall|Eall].
  - assert (Hcomp : complete_mask mask' = true) by by apply bool_decide_eq_true.
    unfold on_call. step. rewrite (alter_lookup _ _ id _ Hc).
    set (t4 := with_response_data (with_success _) _). set (s4 := with_calls _ s).
    unfold try_trigger. rewrite ?run_bind_assoc, the_call_bind. cbn [calls s4 with_calls]. rewrite lookup_insert_eq.
    change (task_triggered t4) with (task_triggered t). rewrite Htr. destruct (complete_mask mask) eqn:Eold.
    + repeat step. eexists. split; [reflexivity|]. split; [|split; [done|]; split; [done|]; by rewrite Hcomp, app_nil_r].
      constructor; [|done..|cbn; by rewrite Hcomp]. exists t4. cbn. rewrite lookup_insert_eq, Hcomp. split_and!; try done.
      right. cbn. by rewrite R1, R2, R3, R4, Hcomp.
    + unfold on_call. step. cbn [calls s4 with_calls]. rewrite (alter_lookup _ _ id _ (lookup_insert_eq _ _ _)), insert_insert_eq.
      step. change (workers _) with (workers s). rewrite Hw, Hcommit.
      destruct linked; repeat step; eexists; (split; [reflexivity|]);
        (split; [|split; [done|]; split; [done|]; by rewrite Hcomp, app_nil_r]);
        (constructor; [|done..|cbn; by rewrite Hcomp, Hcm, app_nil_r]);
        exists (with_trigger t4); cbn; rewrite lookup_insert_eq, Hcomp; split_and!; try done; right; cbn;
        by rewrite R1, R2, R3, R4, Hcomp.
  - assert (Hcomp : complete_mask mask' = false) by by apply bool_decide_eq_false.
    assert (Hold : complete_mask mask = false) by (destruct (complete_mask mask); [by rewrite Hmono in Hcomp|done]).
    unfold response_timeout_event. step. rewrite Hc. cbn [task_active with_response_data]. rewrite Z.eqb_refl.
    unfold on_call. step. rewrite (alter_lookup _ _ id _ Hc). change (timeout_time (with_response_data r t)) with (timeout_time t).
    rewrite Hti, (proj2 (Z.ltb_ge _ _)) by lia. unfold send_request_heart_beat, send_packet, set_timer. repeat step.
    eexists. split; [reflexivity|]. split; [|split; [done|]; split; [done|]; cbn; by rewrite Hcomp, Ha].
    constructor; [|done..|cbn; by rewrite Hcomp, Hcm, Hold].
    eexists. cbn. rewrite lookup_insert_eq, Hcomp. split_and!; try done; [|by cbn; rewrite Htr].
    right. cbn. by rewrite R1, R2, R3, R4, Hsu, Hold, Hcomp.
Qed.

(** A packet of the response comes. *)
Lemma receive_part k mask s : receiving mask s -> 0 <= k < p ->
  let mask' := <[Z.to_nat k := true]> mask in
  exists s', on_arrival services commit linked (part k) s = Ret true s' /\ receiving mask' s' /\
    packets s' = packets s ++ reply mask' /\ app s' = app s /\ called s' = called s.
Proof.
  intros [(t & Ht & Hph & Ha & He & Hr & Htr) Hm [Hb1 Hb2] Hset Hcm] Hk mask'. pose proof p_positive as Hp.
  pose proof (size_of_piece_bounds n k Hk ltac:(lia)) as [Hs1 _]. pose proof (piece_length result k Hk) as Hpl.
  destruct (arrival_run (part_header k) (piece result k) s (part_header_wf k Hk) (piece_ok _ _ Hok)) as (b & E & Hb1' & Hb2' & Hcf);
    [lia|done|done|]. rewrite Hpl in Hcf. unfold part. rewrite response_piece_eq. fold (part_header k). rewrite E.
  cbn [calls with_read_buffer]. change (timePoint (part_header k)) with id. rewrite Ht, decide_True by done.
  set (t1 := with_activity 0 (time s) t). set (s1 := with_calls (<[id := t1]> (calls s)) (with_read_buffer b s)).
  assert (Eh : on_call (with_activity 0 (time s)) id (with_read_buffer b s) = Ret tt s1).
  { unfold on_call, modify_state, s1. by rewrite (alter_lookup _ _ _ _ Ht). }
  unfold handle. step. change (timePoint (part_header k)) with id. run Eh. change (phase (part_header k)) with Protocol.Response.
  cbv iota. unfold on_response_phase. rewrite ?run_bind_assoc, the_call_bind. cbn [calls s1 with_calls]. rewrite lookup_insert_eq.
  cbn [task_phase t1 with_activity]. rewrite Hph. change (type (part_header k)) with RequestSend. cbv iota.
  assert (Ht1 : calls s1 !! id = Some t1) by apply lookup_insert_eq.
  destruct (accept_part k b mask s1 t1 Hk Ht1 Hr Hm Hcf) as (r & Eacc & R1 & R2 & R3 & R4 & R5 & R6 & R7). fold mask' in Eacc, R2, R5.
  run Eacc. set (s2 := with_calls _ s1). unfold send_response_ACK, send_packet. step. set (s3 := with_packets _ s2).
  assert (Hsu : isSuccess r = complete_mask mask).
  { rewrite R6. change (response_data t1) with (response_data t).
    destruct Hr as [[-> ->]|(_ & _ & _ & _ & _ & Hr & _)]; [|done]. symmetry. apply bool_decide_eq_false.
    pose proof (getAckNumber_prefix 0 (Z.to_nat p) : getAckNumber (replicate (Z.to_nat p) false) = 0) as ->. lia. }
  destruct (after_part mask mask' t1 r s3) as (s' & E' & Hrc & H1 & H2 & H3); try done.
  - cbn. by rewrite insert_insert_eq, lookup_insert_eq.
  - intros Hc. by apply receiving_mask.
  - unfold mask'. by rewrite length_insert.
  - rewrite R7. change (response_data t1) with (response_data t). by destruct Hr as [[-> _]|(_ & _ & _ & _ & _ & _ & ->)].
  - exists s'. rewrite ?run_bind_assoc in E'. rewrite ?run_bind_assoc. split; [exact E'|]. split; [done|]. split; [|done].
    rewrite H3. cbn. unfold reply. by rewrite Ha, <-app_assoc.
Qed.

Lemma receive_parts order : forall done s, receiving (mask_of p done) s -> (forall k, k ∈ order.*2 -> 0 <= k < p) ->
  exists s', read_loop services commit linked (map (fun '(now, k) => (now, part k)) order) s = Ret [] s' /\
    receiving (mask_of p (done ++ order.*2)) s' /\ app s' = app s /\ called s' = called s /\
    packets s' = packets s ++ concat (map (fun i => reply (mask_of p (done ++ take (S i) order.*2))) (seq 0 (length order))).
Proof.
  induction order as [|[now k] order IH]; intros done s Hs Hk.
  { exists s. cbn. by rewrite !app_nil_r. }
  cbn [map read_loop]. step.
  destruct (receive_part k (mask_of p done) (with_time now s)) as (s1 & E1 & Hs1 & H1 & H2 & H3); [by destruct Hs|apply Hk; left|].
  rewrite <-mask_of_snoc in Hs1, H1. run E1. cbv iota.
  destruct (IH (done ++ [k]) s1 Hs1) as (s2 & E2 & Hs2 & H4 & H5 & H6); [intros i Hi; apply Hk; by right|].
  exists s2. split; [exact E2|]. cbn [fmap list_fmap]. rewrite <-app_assoc in Hs2. split; [exact Hs2|].
  split; [by rewrite H4|]. split; [by rewrite H5|]. rewrite H6, H1. cbn [length seq map concat]. rewrite <-seq_shift, map_map.
  cbn [take]. rewrite take_0, <-app_assoc. cbn [packets with_time]. do 3 f_equal. apply map_ext. intros i.
  by rewrite <-app_assoc.
Qed.

(** The task of a call that has succeeded. *)
Lemma pool_success s k t r d st st' : committed s !! k = Some id -> calls s !! id = Some t -> response_data t = r ->
  isSuccess r = true -> ClientIn services (Pieces.data r) (app s) = Ret d st ->
  event_callBack (event t) (succeeded d r) st = Ret tt st' ->
  exists s', pool_turn services k s = Ret tt s' /\ app s' = st' /\ called s' = called s ++ [id].
Proof.
  intros Hk Ht Hr Hs Hin Hcb. unfold pool_turn. step. rewrite Hk. step.
  assert (Et : exists s', trigger services false id (with_work (delete k (committed s)) (called s) (released s) s) = Ret tt s' /\
    app s' = st' /\ called s' = called s ++ [id]).
  { unfold trigger. rewrite the_call_bind. cbn [calls with_work]. rewrite Ht, Hr, Hs.
    assert (E1 : on_app (ClientIn services (Pieces.data r)) (with_work (delete k (committed s)) (called s) (released s) s) =
      Ret d (with_app st (with_work (delete k (committed s)) (called s) (released s) s))).
    { unfold on_app. cbn [app with_work]. by rewrite Hin. }
    run E1. unfold on_call. step. rewrite the_call_bind. cbn [calls with_calls with_app with_work].
    rewrite (alter_lookup _ _ id _ Ht), lookup_insert_eq. step.
    match goal with |- context [on_app ?m ≫= _] =>
      match goal with |- context [(on_app m ≫= _) ?x] => assert (E2 : on_app m x = Ret tt (with_app st' x)) end end.
    { unfold on_app, trigger_callBack. cbn [event response_data with_response_data app with_work with_calls with_app].
      by rewrite Hcb. }
    run E2. eexists. split; [reflexivity|done]. }
  destruct Et as (s' & E & H1 & H2). exists s'. split; [|done]. unfold mbind at 1, M_bind at 1, attempt. by rewrite E.
Qed.
End Response.

(** C30: a response is put together whatever order its pieces come in and however often, and
    every piece is acknowledged.  When all have come the call is handed to the pool, once,
    and its function is told the response, byte for byte; until then nothing is told. *)
Theorem response_delivered id result t order s :
  0 < Z.of_nat (length result) <= 65535 * 522 -> is_uint 64 id -> bytes_ok result -> commit id = true ->
  calls s !! id = Some t -> task_phase t = Protocol.Response -> task_triggered t = false -> response_data t = ResponseData_new ->
  bytes_ok (read_buffer s) -> Z.of_nat (length (read_buffer s)) = bufferSize -> workers s = true -> 1 <= try_time s ->
  let count := pieces (Z.of_nat (length result)) in
  (forall k, k ∈ order.*2 -> 0 <= k < count) ->
  exists s', read_loop services commit linked (map (fun '(now, k) => (now, part id result k)) order) s = Ret [] s' /\
    packets s' = packets s ++ concat (map (fun i =>
      reply id result (task_address t) (mask_of count (take (S i) order.*2))) (seq 0 (length order))) /\
    (forall k, 0 <= k < count -> k ∉ order.*2 -> committed s' = committed s) /\
    ((forall k, 0 <= k < count -> k ∈ order.*2) -> committed s' = committed s ++ [id] /\ exists r, reason r = OK /\
       forall d st st', ClientIn services result (app s) = Ret d st -> event_callBack (event t) (succeeded d r) st = Ret tt st' ->
       exists s'', pool_turn services (length (committed s)) s' = Ret tt s'' /\ app s'' = st' /\ called s'' = called s ++ [id]).
Proof.
  intros Hn Hid Hok Hcm Ht Hph Htr Hr Hb1 Hb2 Hw Htry count Hk.
  assert (Hp : 0 < count <= 65535) by (apply p_positive; done).
  assert (Hnot : complete_mask result (mask_of count []) = false).
  { apply bool_decide_eq_false. pose proof (getAckNumber_prefix 0 (Z.to_nat count)) as E0. unfold mask_of. cbn in *.
    rewrite E0. fold count. lia. }
  assert (H0 : receiving id result (task_address t) (event t) (committed s) (mask_of count []) s).
  { constructor; try done; [|apply mask_of_length|by rewrite Hnot, app_nil_r].
    exists t. split_and!; try done; [by left|by rewrite Hnot]. }
  destruct (receive_parts id result (task_address t) (event t) (committed s) Hn Hid Hok Hcm order [] s H0 Hk)
    as (s' & E & [(t' & Ht' & Hph' & Ha' & He' & Hr' & Htr') _ _ _ Hcm'] & H1 & H2 & H3).
  exists s'. split; [exact E|]. split; [exact H3|]. change ([] ++ order.*2) with (order.*2) in Hcm', Hr'. fold count in Hcm', Hr'.
  pose proof (mask_of_all count order.*2 ltac:(lia) Hk) as Hall. split.
  - intros k Hk1 Hk2. rewrite Hcm'. unfold complete_mask. fold count. rewrite bool_decide_false; [by rewrite app_nil_r|].
    intros Hx. by apply Hk2, Hall.
  - intros Hin. assert (Hc : complete_mask result (mask_of count order.*2) = true) by by apply bool_decide_eq_true, Hall.
    unfold response_is in Hr'. rewrite Hc in Hcm', Hr'. split; [done|]. exists (response_data t').
    destruct Hr' as [[Hnew Hm]|(R1 & R2 & R3 & R4 & R5 & R6 & R7)].
    + exfalso. rewrite Hm in Hc. change (complete_mask result (mask_of count []) = true) in Hc. congruence.
    + split; [done|]. intros d st st' Hci Hcb. rewrite <-H2. eapply (pool_success id s' (length (committed s)) t' (response_data t') d st st'); try done.
      * rewrite Hcm', lookup_app_r by lia. by rewrite Nat.sub_diag.
      * rewrite (holds_all _ _ _ R5); [by rewrite H1|]. apply Hall, Hin.
      * by rewrite He'.
Qed.
End Theorems.
