(* ===== verification/TransmitterScenarios.v ===== *)
(** * The asynchronous client: concrete runs

    The theorems of the transmitter on a small one, whose calls note down what they are
    told. *)
From S2P Require Import Prelude Stream Protocol TimerTree Effects Pieces Reassembly Packets Middleware TransmitterEvent Transmitter TransmitterLaws TransmitterTheorems.

Local Instance scenario_host : Host := LittleEndian.
Local Instance scenario_pool : Pool.
Proof.
  refine {| fresh_block n := replicate (Z.to_nat n) 0 |}.
  - intros n Hn. by rewrite length_replicate, Z2Nat.id.
  - intros n. by apply Forall_replicate.
Defined.

Abbreviation notes := (list (FailureReason * bytes)).
Definition place (id : Z) : bool := true.
Definition no_place (id : Z) : bool := false.
Definition loopback (ip : bytes) : option Z := Some 2130706433.
Definition noting : TransmitterEvent notes :=
  Event (b! "127.0.0.1") 4000 (write [1; 2; 3] BinarySerializer_new).2 true true
    (fun r => modify_state (fun l => l ++ [(reason r, Pieces.data r)])).
Definition idle_transmitter : Transmitter notes :=
  with_time 1000 (with_settings 1000 900 3 true (Transmitter_new (replicate 549 0) [] 0 6)).

(** Turns of half a second. *)
Definition half_seconds : list Z := [1500; 2000; 2500; 3000; 3500; 4000; 4500; 5000].

Lemma noting_idle : resting idle_transmitter.
Proof. constructor; try done; split_and!; done. Qed.

Lemma unanswered_call_witness :
  (exists s', (send [] loopback 5 noting ;; silent_turns [] place false 7 half_seconds) idle_transmitter = Ret tt s' /\
    length (packets s') = 4%nat /\ exists s'', pool_turn [] 0 s' = Ret tt s'' /\ app s'' = [(NetworkTimeout, [])] /\ called s'' = [7]) /\
  (send [] loopback 5 noting ;; silent_turns [] no_place false 7 half_seconds) idle_transmitter = Undefined.
Proof.
  split.
  - destruct (unanswered_call [] place false loopback 5 noting 2130706433 [1; 2; 3] [] idle_transmitter half_seconds)
      as (s' & E & Ha & Hp & H); [apply noting_idle|done..|vm_compute; split; congruence|reflexivity|].
    exists s'. split; [exact E|]. split; [rewrite Hp; reflexivity|]. by apply H.
  - apply (unanswered_call [] no_place false loopback 5 noting 2130706433 [1; 2; 3] [] idle_transmitter half_seconds);
      [apply noting_idle|done..|vm_compute; split; congruence|reflexivity|done].
Defined.

(** ** Histories *)
Definition after {A} (m : M (Transmitter notes) A) (s : Transmitter notes) : Transmitter notes :=
  match m s with Ret _ s' => s' | _ => s end.
Definition at_rest : Transmitter notes := Transmitter_new (replicate 549 0) [] 1000 6.
Definition sent_call : Transmitter notes := after (send [] loopback 5 noting) at_rest.
Definition started : Transmitter notes := with_settings 1000 900 0 true sent_call.
Definition ended : Transmitter notes := after (loop_turn [] place false [7] [] 2000) started.
Definition told : Transmitter notes := after (pool_turn [] 0) ended.

(** A call that is not tried again: it is told once, and its message is deleted later. *)
Lemma answered_once_witness : NoDup (called told ++ committed told) /\ called told = [7].
Proof.
  split; [|reflexivity]. apply (answered_once [] place false loopback (replicate 549 0) [] 1000 6 told); [done|].
  eapply rtc_l; [apply (move_send _ _ _ _ _ 5 noting true sent_call); [done..|reflexivity]|].
  eapply rtc_l; [apply (move_settings _ _ _ _ sent_call 1000 900 0 true)|].
  eapply rtc_l; [apply (move_turn _ _ _ _ started [7] [] 2000 [] ended); vm_compute; reflexivity|].
  eapply rtc_l; [apply (move_pool _ _ _ _ ended 0 told); vm_compute; reflexivity|]. apply rtc_refl.
Defined.

(** ** Responses *)
Definition half_way (ph : CommunicationPhase) (ack expect : Z) : TransmitterTask notes :=
  with_activity 0 1000 (with_progress ph ack (with_expect expect (TransmitterTask_new noting 2130706433 [1; 2; 3]))).
Definition half_way_client (ph : CommunicationPhase) (ack expect : Z) : Transmitter notes :=
  with_calls {[7 := half_way ph ack expect]} idle_transmitter.
Definition early_header : ProtocolHeader := header_with 7 3 Protocol.Response RequestSend 0 3 0.

(** The only piece of the message is out, and the response of three bytes comes. *)
Lemma response_taken_for_acknowledgement_witness :
  exists s1, loop_turn [] place false [7] [(1100, encode_header early_header ++ [4; 5; 6])] 1600
      (half_way_client Protocol.Request 0 1) = Ret [] s1 /\
    forall us, exists s2, silent_turns [] place false 7 us s1 = Ret tt s2 /\ called s2 = [] /\ committed s2 = [].
Proof.
  destruct (response_taken_for_acknowledgement [] place false 7 (half_way Protocol.Request 0 1) early_header [4; 5; 6] 1100 1600
    (half_way_client Protocol.Request 0 1)) as (s1 & E & H); try done.
  - intros nd Hnd. vm_compute in Hnd. by apply elem_of_nil in Hnd.
  - by apply Forall_replicate.
  - repeat constructor; vm_compute; congruence.
  - exists s1. split; [exact E|]. intros us. destruct (H us) as (s2 & E2 & _ & H2 & H3 & _). by exists s2.
Defined.

Lemma result_noted ph ack expect r d l : reason r = OK ->
  event_callBack (event (half_way ph ack expect)) (succeeded d r) l = Ret tt (l ++ [(OK, d)]).
Proof. intros <-. reflexivity. Qed.

(** Two pieces, the second first and one of them twice. *)
Definition long_result : bytes := replicate 523 9.
Lemma response_delivered_witness :
  exists s', read_loop [] place false
      (map (fun '(now, k) => (now, part 7 long_result k)) [(1100, 1); (1101, 0); (1102, 1)])
      (half_way_client Protocol.Response 1 1) = Ret [] s' /\
    exists s'', pool_turn [] 0 s' = Ret tt s'' /\ app s'' = [(OK, long_result)].
Proof.
  destruct (response_delivered [] place false 7 long_result (half_way Protocol.Response 1 1) [(1100, 1); (1101, 0); (1102, 1)]
    (half_way_client Protocol.Response 1 1)) as (s' & E & _ & _ & H);
    [vm_compute; split; congruence|split; vm_compute; congruence|by apply Forall_replicate|reflexivity|reflexivity|reflexivity
    |reflexivity|reflexivity|by apply Forall_replicate|vm_compute; reflexivity|reflexivity|vm_compute; congruence| |].
  - intros k Hk. change (k ∈ [1; 0; 1]) in Hk. replace (pieces (Z.of_nat (length long_result))) with 2 by (vm_compute; reflexivity).
    rewrite !elem_of_cons, elem_of_nil in Hk. lia.
  - exists s'. split; [exact E|]. destruct H as [_ (r & Hr & H)].
    { intros k Hk. replace (pieces (Z.of_nat (length long_result))) with 2 in Hk by (vm_compute; reflexivity).
      change (k ∈ [1; 0; 1]). rewrite !elem_of_cons, elem_of_nil. lia. }
    destruct (H long_result [] ([] ++ [(OK, long_result)])) as (s'' & E2 & Ha & _);
      [ | | ].
    { reflexivity. }
    { exact (result_noted _ _ _ r long_result [] Hr). }
    exists s''. split; [exact E2|exact Ha].
Defined.
