(* ===== verification/LinkReactor.v ===== *)
(** * Calls of the server itself: [transmitter_link_reactor.cpp]

    A server makes calls with a transmitter that has no socket of its own: the main reactor
    hands it the datagrams that belong to the calls in its active queue.  The loop is that
    of a transmitter, except that it takes datagrams from a queue, and that it runs every
    timer that is due. *)
From S2P Require Import Prelude Stream Serializer Protocol TimerTree Effects Pieces Packets Middleware SubReactor Reactor TransmitterEvent Transmitter TransmitterLaws TransmitterScenarios.

Record TransmitterLinkReactor {St : Type} := Link {
  link : Transmitter St;
  newData : list handover;
}.
Arguments TransmitterLinkReactor St : clear implicits.
Arguments Link {St}.

Section Link.
Context {h : Host} {P : Pool} {St : Type}.
Implicit Types k : TransmitterLinkReactor St.
Variables (services : list (middleware_service St)) (commit : Z -> bool) (inet_aton : bytes -> option Z).
Abbreviation LM := (M (TransmitterLinkReactor St)).

Definition in_link {A} (m : M (Transmitter St) A) : LM A := fun k =>
  match m (link k) with
  | Ret a s => Ret a (Link s (newData k))
  | Throw e s => Throw e (Link s (newData k))
  | Undefined => Undefined
  end.
Definition with_newData l k : TransmitterLinkReactor St := Link (link k) l.

(** [acceptNewData] does not wake the loop. *)
Definition acceptNewData (d : handover) : LM unit :=
  k ← get_state;
  if Transmitter.run_state (link k) then modify_state (with_newData (newData k ++ [d])) else mret tt.

(** Reading the queue, with its mutex held; whether it has come to an end when the fuel is
    used up.  A packet without a message is left in the queue. *)
Fixpoint link_read (fuel : nat) : LM bool :=
  match fuel with
  | O => mret false
  | S fuel =>
      k ← get_state;
      match newData k with
      | [] => mret true
      | d :: l =>
          if protocolHeaderSize <=? handed_length d then
            if parses (handed_data d) (handed_length d) then
              match parsed (handed_data d) (handed_length d) with
              | Some header =>
                  if decide (is_Some (calls (link k) !! timePoint header)) then
                    in_link (handle services commit true header (handed_data d)) ;;
                    modify_state (with_newData l) ;; link_read fuel
                  else link_read fuel
              | None => modify_state (with_newData l) ;; link_read fuel
              end
            else undefined
          else modify_state (with_newData l) ;; link_read fuel
      end
  end.

(** [runTaskLoop], with the time it starts at. *)
Fixpoint link_timers (n : nat) (current : Z) : LM unit :=
  match n with
  | O => mret tt
  | S n =>
      k ← get_state;
      match nodes (timer (link k)) with
      | [] => mret tt
      | node :: _ =>
          if expire node - current <=? 0 then
            in_link (run_call services commit true (callBack node)) ;;
            in_link (modify_state (fun s => with_timers (clearTimeout (base node) (timer s)).2 s)) ;;
            link_timers n current
          else mret tt
      end
  end.

(** A turn, in which the queue is read at [now]; a callback sets nothing that is due at
    once, so that no more timers run than were set.  Without calls the thread sleeps. *)
Definition link_turn (fuel : nat) (order : list Z) (now : Z) : LM bool :=
  k ← get_state;
  let s := link k in
  if Transmitter.run_state s && negb (bool_decide (calls s = ∅ /\ new_calls s = ∅)) then
    in_link (take_new ;; for_each send_step order) ;;
    in_link (modify_state (with_time now)) ;;
    finished ← link_read fuel;
    (if finished : bool then k ← get_state; link_timers (length (nodes (timer (link k)))) now else mret tt) ;;
    mret finished
  else mret true.

(** [send]: the number comes from the main reactor. *)
Definition link_send (e : TransmitterEvent St) (msg_id : Z) : LM bool :=
  if is_set_callback e && is_set_remote_func e then in_link (send_as services inet_aton msg_id e) else mret false.

(** ** With the main reactor *)

(** What the main reactor has handed over comes into the queue. *)
Definition hand_over {Sv} (m : Reactor Sv) : M (TransmitterLinkReactor St) (Reactor Sv) :=
  for_each acceptNewData (linker_queue m) ;; mret (with_links (active_queue m) [] m).
(** The tasks of [GlobalEntry::timerTree] that [try_trigger] has set. *)
Definition forget {Sv} k (m : Reactor Sv) : Reactor Sv :=
  with_links (active_queue m ∖ list_to_set (released (link k))) (linker_queue m) m.

(** ** A packet that comes after its call was deleted *)

Lemma link_read_stuck fuel k d l header : newData k = d :: l -> (protocolHeaderSize <= handed_length d) ->
  parses (handed_data d) (handed_length d) = true -> parsed (handed_data d) (handed_length d) = Some header ->
  calls (link k) !! timePoint header = None -> link_read fuel k = Ret false k.
Proof.
  intros Hq Hl Hps Hpar Hc. induction fuel as [|fuel IH]; [done|]. cbn [link_read]. step.
  rewrite Hq, (proj2 (Z.leb_le _ _)), Hps, Hpar by done. rewrite decide_False by (rewrite Hc; by intros []). exact IH.
Qed.

(** C33: a packet of a call that the server made and that is over, taken by the main reactor
    before it has forgotten the call, stops the transmitter of the server for good: the loop
    over its queue tries the packet again and again, with the mutex that the main reactor
    needs to hand over the next. *)
Theorem late_packet_spins {Sv} (m : Reactor Sv) a hd body son order now :
  transmitter_linker m = true -> linker_queue m = [] -> servlet_of hd a ∈ active_queue m ->
  header_wf hd -> bytes_ok body -> Z.of_nat (length body) <= 522 ->
  forall k, Transmitter.run_state (link k) = true -> new_calls (link k) = ∅ -> calls (link k) !! timePoint hd = None ->
  (exists id t, calls (link k) = {[id := t]} /\ order = [id] /\ task_phase t = Protocol.Response /\ task_active t <> 0) ->
  newData k = [] ->
  exists m' k', accept_datagram (encode_header hd ++ body) a son m = Ret tt m' /\
    hand_over m' k = Ret (with_links (active_queue m') [] m') k' /\
    forall fuel, exists k'', link_turn fuel order now k' = Ret false k'' /\ newData k'' = newData k' /\
      calls (link k'') = calls (link k').
Proof.
  intros Hl Hq Hact Hw Hok Hlen k Hr Hnew Hnone (id & t & Hc & -> & Hph & Hta) Hk.
  destruct (parsed_encode hd body (fresh_block bufferSize)) as (rest & E & Hbr & _ & Hpar);
    [done|by apply encode_header_ok|done|apply fresh_block_ok|done|by apply fresh_block_length|].
  set (b := encode_header hd ++ body ++ rest) in *. set (len := 26 + Z.of_nat (length body)) in *.
  assert (Hps : parse len b = Some ((hd, true), b)).
  { apply parse_encode; [unfold len, protocolHeaderSize; lia|done|]. by apply Forall_app_2; [apply encode_header_ok|]. }
  set (d := {| handed_id := timePoint hd; handed_data := b; handed_length := len; handed_addr := a |}).
  set (k1 := with_newData [d] k). exists (with_links (active_queue m) [d] m), k1. split; [|split].
  - unfold accept_datagram. rewrite E, Hps. step. rewrite Hl, bool_decide_true by done. cbn [andb].
    unfold modify_state. by rewrite Hq.
  - unfold hand_over. cbn [linker_queue with_links for_each]. unfold acceptNewData. rewrite ?run_bind_assoc. step. rewrite Hr, Hk.
    repeat step. reflexivity.
  - intros fuel. set (k2 := with_newData [d] (Link (with_time now (link k)) (newData k))).
    assert (Ep : in_link (take_new ;; for_each send_step [id]) k1 = Ret tt k1).
    { unfold in_link. assert (Ef : (take_new ;; for_each send_step [id]) (link k1) = Ret tt (link k1)).
      { unfold take_new. step. change (link k1) with (link k). rewrite Hnew, (right_id_L ∅ (∪)). cbn [for_each].
        unfold send_step. step. cbn [calls with_calls with_new_calls].
        rewrite Hc, lookup_singleton_eq, (proj2 (Z.eqb_neq _ 0)), Hph by done. step. unfold mret, M_ret. f_equal.
        destruct (link k); cbn in *; by subst. }
      by rewrite Ef. }
    exists k2. split; [|by split].
    unfold link_turn. step. change (link k1) with (link k). rewrite Hr, Hnew, bool_decide_false.
    2: { rewrite Hc. intros [He _]. by apply (map_non_empty_singleton id t). }
    cbn [andb negb]. run Ep. unfold in_link at 1. step.
    rewrite (run_bind _ _ _ _ _ (link_read_stuck fuel k2 d [] hd eq_refl ltac:(cbn; unfold len, protocolHeaderSize; lia)
      ltac:(apply bool_decide_eq_true; eexists; exact Hps) Hpar Hnone)).
    by step.
Qed.
End Link.

(** Call 9 is over, call 7 waits for its response. *)
Definition late_header : ProtocolHeader := header_with 9 3 Protocol.Response RequestSend 0 3 0.
Definition remote : address := {| sin_port := 4000; sin_addr := 2130706433 |}.
Definition forgetting_main : Reactor unit :=
  Main [] 0 ∅ {[ servlet_of late_header remote ]} true [] [].

Lemma late_packet_spins_witness :
  let h : Host := LittleEndian in
  exists m' k', accept_datagram (P := scenario_pool) (encode_header late_header ++ [1; 2; 3]) remote None forgetting_main = Ret tt m' /\
    hand_over m' (Link (half_way_client Protocol.Response 1 1) []) = Ret (with_links (active_queue m') [] m') k' /\
    exists k'', link_turn (P := scenario_pool) [] place (Z.to_nat 1000000) [7] 1200 k' = Ret false k''.
Proof.
  intros h. destruct (late_packet_spins (St := list (FailureReason * bytes)) (P := scenario_pool) [] place forgetting_main remote late_header [1; 2; 3] None [7] 1200)
    with (k := Link (half_way_client Protocol.Response 1 1) []) as (m' & k' & E1 & E2 & H).
  - reflexivity.
  - reflexivity.
  - by apply elem_of_singleton.
  - apply header_with_wf; split; vm_compute; congruence.
  - repeat constructor; vm_compute; congruence.
  - vm_compute. congruence.
  - reflexivity.
  - reflexivity.
  - reflexivity.
  - exists 7, (half_way Protocol.Response 1 1). split_and!; [reflexivity..|]. vm_compute. congruence.
  - reflexivity.
  - exists m', k'. split; [exact E1|]. split; [exact E2|]. destruct (H (Z.to_nat 1000000)) as (k'' & E & _). by exists k''.
Defined.
