(* ===== verification/ThreadPool.v ===== *)
(** * The thread pool: [pool.cpp]

    Threads that take tasks from a queue under a mutex, a manager that adds and removes
    threads, callers that commit tasks, and one that closes the pool.  The pool is a
    machine whose threads take steps in any order: a step is what a thread does from one
    point where others can act to the next.  A worker that has found nothing to do keeps
    the mutex until it sleeps; a sleeper goes on when it is notified, or for no reason. *)
From S2P Require Import Prelude.

Inductive ThreadPoolType := Fixed | Flexible.
Inductive ThreadPoolCloseStrategy := DiscardAllTasks | WaitAllTaskFinish | ReturnTaskAndClose.
#[global] Instance strategy_eq_dec : EqDecision ThreadPoolCloseStrategy.
Proof. solve_decision. Defined.

(** What a worker's thread is doing.  A task is its number; [run] is false when it had been
    run before. *)
Inductive thread :=
| NoThread
| Idle                      (** about to take the mutex *)
| Checked                   (** has the mutex and is about to sleep *)
| Asleep
| Busy (task : Z) (run : bool)
| Gone.                     (** has returned *)

#[global] Instance thread_eq_dec : EqDecision thread.
Proof. solve_decision. Defined.

Record Worker := { isRunning : bool; workman : thread }.

(** The manager: at the head of its loop, waking up, waiting for a worker to end. *)
Inductive manager := NoManager | Head | Awake | Joining (i : nat) | Done.
(** How far [close] has come. *)
Inductive closing := Open | WaitEmpty | JoinManager | StopRun | Drain | NotifyAll | JoinWorkers | Closed.
#[global] Instance closing_eq_dec : EqDecision closing.
Proof. solve_decision. Defined.

(** A call of [commit_executor] or [commit_executors] that has seen that the pool is open. *)
Record commission := { bulk : bool; tasks : list Z }.

Record ThreadPool := Pool {
  workers : list Worker;
  queueTask : list Z;
  runState : bool;
  stopCommitState : bool;
  vacantThreadsCount : Z;
  dynamicWorkerCount : Z;
  managerThread : manager;
  closer : closing;
  in_flight : list commission;
  accepted : list Z;      (** what was put in the queue, in order *)
  refused : list Z;
  taken : list Z;         (** what was taken from it, in order *)
  finished : list Z;
  dropped : list Z;       (** what [close] has taken from it *)
}.

Section Pool.
(** What the pool was made with: [cores] is the number after the constructor. *)
Variables (cores MaxThreadCount QueueMaxSize : nat) (Type_ : ThreadPoolType) (closeStrategy : ThreadPoolCloseStrategy).
Implicit Types s : ThreadPool.

Definition with_workers w s : ThreadPool :=
  Pool w (queueTask s) (runState s) (stopCommitState s) (vacantThreadsCount s) (dynamicWorkerCount s) (managerThread s)
    (closer s) (in_flight s) (accepted s) (refused s) (taken s) (finished s) (dropped s).
Definition with_vacant n s : ThreadPool :=
  Pool (workers s) (queueTask s) (runState s) (stopCommitState s) n (dynamicWorkerCount s) (managerThread s) (closer s)
    (in_flight s) (accepted s) (refused s) (taken s) (finished s) (dropped s).
Definition with_manager n m s : ThreadPool :=
  Pool (workers s) (queueTask s) (runState s) (stopCommitState s) (vacantThreadsCount s) n m (closer s) (in_flight s)
    (accepted s) (refused s) (taken s) (finished s) (dropped s).
Definition with_closer run stop c s : ThreadPool :=
  Pool (workers s) (queueTask s) run stop (vacantThreadsCount s) (dynamicWorkerCount s) (managerThread s) c (in_flight s)
    (accepted s) (refused s) (taken s) (finished s) (dropped s).
Definition with_flight l r s : ThreadPool :=
  Pool (workers s) (queueTask s) (runState s) (stopCommitState s) (vacantThreadsCount s) (dynamicWorkerCount s)
    (managerThread s) (closer s) l (accepted s) r (taken s) (finished s) (dropped s).
Definition with_tasks q a t f d s : ThreadPool :=
  Pool (workers s) q (runState s) (stopCommitState s) (vacantThreadsCount s) (dynamicWorkerCount s) (managerThread s)
    (closer s) (in_flight s) a (refused s) t f d.

(** ** The mutex and the condition *)
Definition is_checked (w : Worker) : bool := bool_decide (workman w = Checked).
Definition locked s : bool := existsb is_checked (workers s).
Definition set_thread (t : thread) (w : Worker) : Worker := {| isRunning := isRunning w; workman := t |}.
Definition on_worker (i : nat) (t : thread) s : ThreadPool := with_workers (alter (set_thread t) i (workers s)) s.
Definition wake (w : Worker) : Worker := if decide (workman w = Asleep) then set_thread Idle w else w.
Definition notify_all s : ThreadPool := with_workers (map wake (workers s)) s.
(** The sleeper that is woken, if there is one. *)
Definition notify_one (i : nat) s : ThreadPool := with_workers (alter wake i (workers s)) s.
Definition sleeps (w : Worker) : bool := bool_decide (workman w = Asleep).

(** ** Workers: [coreRun] and [dynamicRun] *)
Definition is_core (i : nat) : bool := (i <? cores)%nat.

Definition worker_step (i : nat) s : option ThreadPool :=
  w ← workers s !! i;
  match workman w with
  | Idle =>
      if locked s then None
      else if bool_decide (queueTask s = []) && runState s && (is_core i || isRunning w) then Some (on_worker i Checked s)
      else if negb (runState s) then Some (on_worker i Gone s)
      else if negb (is_core i) && negb (isRunning w) then Some (on_worker i Gone s)
      else
        match queueTask s with
        | [] => None
        | t :: q =>
            Some (with_vacant (vacantThreadsCount s - 1)
              (with_tasks q (accepted s) (taken s ++ [t]) (finished s) (dropped s)
                (on_worker i (Busy t (bool_decide (t ∉ finished s))) s)))
        end
  | Checked => Some (on_worker i Asleep s)
  | Busy t _ =>
      Some (with_vacant (vacantThreadsCount s + 1)
        (with_tasks (queueTask s) (accepted s) (taken s) (finished s ++ [t]) (dropped s) (on_worker i Idle s)))
  | _ => None
  end.

(** ** The manager: [managerThreadTask], [addDynamicThread], [killDynamicThread] *)
Definition find_dynamic (running : bool) s : option nat :=
  List.find (fun i => match workers s !! i with Some w => eqb (isRunning w) running | None => false end)
    (seq cores (MaxThreadCount - cores)).

Definition addDynamicThread s : ThreadPool :=
  match find_dynamic false s with
  | Some i =>
      with_manager (dynamicWorkerCount s + 1) Head
        (with_workers (<[i := {| isRunning := true; workman := Idle |}]> (workers s)) s)
  | None => with_manager (dynamicWorkerCount s) Head s
  end.
Definition killDynamicThread s : ThreadPool :=
  match find_dynamic true s with
  | Some i =>
      with_manager (dynamicWorkerCount s) (Joining i) (notify_all
        (with_workers (alter (fun w => {| isRunning := false; workman := workman w |}) i (workers s)) s))
  | None => with_manager (dynamicWorkerCount s) Head s
  end.

Definition manager_step s : option ThreadPool :=
  match managerThread s with
  | Head => Some (with_manager (dynamicWorkerCount s) (if stopCommitState s then Done else Awake) s)
  | Awake =>
      let vacant := vacantThreadsCount s in
      Some (if 2 <? vacant then
              if 0 <? dynamicWorkerCount s then killDynamicThread s else with_manager (dynamicWorkerCount s) Head s
            else if vacant <=? 1 then
              if dynamicWorkerCount s <? Z.of_nat MaxThreadCount - Z.of_nat cores then addDynamicThread s
              else with_manager (dynamicWorkerCount s) Head s
            else with_manager (dynamicWorkerCount s) Head s)
  | Joining i =>
      w ← workers s !! i;
      if decide (workman w = Gone) then
        Some (with_manager (dynamicWorkerCount s - 1) Head (on_worker i NoThread s))
      else None
  | _ => None
  end.

(** ** Callers: [commit_executor], [commit_executors] *)
Definition commit_begin (c : commission) s : ThreadPool :=
  if stopCommitState s then with_flight (in_flight s) (refused s ++ tasks c) s
  else with_flight (in_flight s ++ [c]) (refused s) s.

(** Under the mutex; [i] is the sleeper that is notified.  A commission of many tasks
    takes what places are left. *)
Definition commit_end (k i : nat) s : option ThreadPool :=
  c ← in_flight s !! k;
  if locked s then None
  else
    let left := (QueueMaxSize - length (queueTask s))%nat in
    let taken_in := take left (tasks c) in
    let s := with_flight (delete k (in_flight s)) (refused s ++ drop left (tasks c)) s in
    let s := with_tasks (queueTask s ++ taken_in) (accepted s ++ taken_in) (taken s) (finished s) (dropped s) s in
    if bulk c then Some (notify_all s)
    else if bool_decide (taken_in = []) then Some s
    else if existsb sleeps (workers s) then
      w ← workers s !! i; if sleeps w then Some (notify_one i s) else None
    else Some s.

(** ** [close] *)
Definition stopped (w : Worker) : bool := bool_decide (workman w = Gone \/ workman w = NoThread).

Definition close_step s : option ThreadPool :=
  match closer s with
  | Open =>
      Some (with_closer (runState s) true (if decide (closeStrategy = WaitAllTaskFinish) then WaitEmpty else JoinManager) s)
  | WaitEmpty =>
      if negb (locked s) && bool_decide (queueTask s = []) then Some (with_closer (runState s) (stopCommitState s) JoinManager s)
      else None
  | JoinManager =>
      match managerThread s with
      | NoManager | Done => Some (with_closer (runState s) (stopCommitState s) StopRun s)
      | _ => None
      end
  | StopRun =>
      Some (with_closer false (stopCommitState s) (if decide (closeStrategy = WaitAllTaskFinish) then NotifyAll else Drain) s)
  | Drain =>
      if locked s then None
      else Some (with_closer (runState s) (stopCommitState s) NotifyAll
             (with_tasks [] (accepted s) (taken s) (finished s) (dropped s ++ queueTask s) s))
  | NotifyAll => Some (with_closer (runState s) (stopCommitState s) JoinWorkers (notify_all s))
  | JoinWorkers =>
      if forallb stopped (workers s) then Some (with_closer (runState s) (stopCommitState s) Closed s) else None
  | Closed => None
  end.

(** ** The machine *)

(** [init], when the first task is committed. *)
Definition pool_init : ThreadPool :=
  let core := {| isRunning := true; workman := Idle |} in
  let slot := {| isRunning := false; workman := NoThread |} in
  let flexible := match Type_ with Flexible => true | Fixed => false end in
  Pool (replicate cores core ++ if flexible then replicate (MaxThreadCount - cores) slot else []) [] true false
    (Z.of_nat cores) 0 (if flexible && (cores <? MaxThreadCount)%nat then Head else NoManager) Open [] [] [] [] [] [].

Inductive move :=
| Work (i : nat)
| Spurious (i : nat)
| Commit (c : commission)
| Enqueue (k i : nat)
| Manage
| Close.

Definition step (m : move) s : option ThreadPool :=
  match m with
  | Work i => worker_step i s
  | Spurious i => w ← workers s !! i; if sleeps w then Some (notify_one i s) else None
  | Commit c => if negb (bulk c) && negb (length (tasks c) =? 1)%nat then None else Some (commit_begin c s)
  | Enqueue k i => commit_end k i s
  | Manage => manager_step s
  | Close => close_step s
  end.

Fixpoint run (ms : list move) s : option ThreadPool :=
  match ms with
  | [] => Some s
  | m :: ms => s ← step m s; run ms s
  end.
End Pool.
