(* ===== verification/ThreadPoolTheorems.v ===== *)
(** * What the thread pool promises, and where [close] breaks it

    An invariant of every schedule: no task is lost or run by two workers that took it from
    one place of the queue.  A pool whose workers are all core threads always comes to
    the end of its queue.  A closed pool does nothing, and [close] may never return. *)
From S2P Require Import Prelude ThreadPool.

(** ** Tasks in the hands of the workers *)
Definition task_of (w : Worker) : list Z := match workman w with Busy t _ => [t] | _ => [] end.
Definition busy (ws : list Worker) : list Z := ws ≫= task_of.
Definition count (p : Worker -> bool) (ws : list Worker) : nat := length (ws ≫= fun w => if p w then [tt] else []).
Definition is_idle (w : Worker) : bool := bool_decide (workman w = Idle).

Lemma bind_alter {B A} (g : B -> list A) f (ws : list B) i w :
  ws !! i = Some w -> exists l, (ws ≫= g) ≡ₚ g w ++ l /\ (alter f i ws ≫= g) ≡ₚ g (f w) ++ l.
Proof.
  intros H. exists ((take i ws ≫= g) ++ (drop (S i) ws ≫= g)). split.
  - rewrite <- (take_drop_middle ws i w H) at 1. rewrite bind_app, bind_cons. apply Permutation_app_swap_app.
  - pose proof (lookup_lt_Some _ _ _ H).
    assert (Hi : alter f i ws !! i = Some (f w)) by (rewrite list_lookup_alter_eq, H; done).
    rewrite <- (take_drop_middle _ i _ Hi) at 1. rewrite bind_app, bind_cons.
    rewrite take_alter, drop_alter, !decide_False by lia. apply Permutation_app_swap_app.
Qed.

Lemma bind_same {B A} (g : B -> list A) f (ws : list B) i :
  (forall w, g (f w) = g w) -> (alter f i ws ≫= g) = (ws ≫= g).
Proof.
  intros H. revert i. induction ws as [|w ws IH]; intros [|i]; [done..| |].
  - change (alter f 0%nat (w :: ws)) with (f w :: ws). by rewrite !bind_cons, H.
  - change (alter f (S i) (w :: ws)) with (w :: alter f i ws). by rewrite !bind_cons, IH.
Qed.

Lemma alter_out f (ws : list Worker) i : ws !! i = None -> alter f i ws = ws.
Proof.
  revert i. induction ws as [|w ws IH]; intros [|i] H; [done..|].
  change (alter f (S i) (w :: ws)) with (w :: alter f i ws). by rewrite IH.
Qed.

Lemma bind_map {A} (g : Worker -> list A) f (ws : list Worker) :
  (forall w, g (f w) = g w) -> (map f ws ≫= g) = (ws ≫= g).
Proof. intros H. induction ws as [|w ws IH]; [done|]. cbn [map]. by rewrite !bind_cons, H, IH. Qed.

Lemma task_of_wake w : task_of (wake w) = task_of w.
Proof. unfold wake, task_of. case_decide as E; [|done]. by rewrite E. Qed.
Lemma checked_wake w : is_checked (wake w) = is_checked w.
Proof. unfold wake, is_checked. case_decide as E; [|done]. by rewrite E. Qed.

Lemma tally_exists p ws : existsb p ws = bool_decide (count p ws <> 0%nat).
Proof.
  induction ws as [|w ws IH]; [done|]. unfold count in *. cbn [existsb]. rewrite IH, bind_cons, length_app.
  destruct (p w); simpl; repeat case_bool_decide; done || lia.
Qed.

Lemma tally_alter p f (ws : list Worker) i w : ws !! i = Some w ->
  (count p (alter f i ws) + Nat.b2n (p w) = count p ws + Nat.b2n (p (f w)))%nat.
Proof.
  intros H. unfold count. destruct (bind_alter (fun w => if p w then [tt] else []) f ws i w H) as (l & -> & ->).
  rewrite !length_app. destruct (p w), (p (f w)); simpl; lia.
Qed.

Lemma tally_wake (ws : list Worker) : count sleeps (map wake ws) = 0%nat.
Proof.
  unfold count. induction ws as [|w ws IH]; [done|]. cbn [map]. rewrite bind_cons, length_app, IH.
  unfold sleeps, wake. case_decide as E; simpl; [done|]. by rewrite bool_decide_eq_false_2.
Qed.

Lemma busy_app a b : busy (a ++ b) = busy a ++ busy b.
Proof. apply bind_app. Qed.
Lemma tally_app p a b : count p (a ++ b) = (count p a + count p b)%nat.
Proof. unfold count. by rewrite bind_app, length_app. Qed.
Lemma busy_replicate w n : task_of w = [] -> busy (replicate n w) = [].
Proof.
  intros E. unfold busy. induction n as [|n IH]; [done|].
  change (replicate (S n) w) with (w :: replicate n w). by rewrite bind_cons, E, IH.
Qed.
Lemma tally_replicate p w n : p w = false -> count p (replicate n w) = 0%nat.
Proof.
  intros E. unfold count. induction n as [|n IH]; [done|].
  change (replicate (S n) w) with (w :: replicate n w). by rewrite bind_cons, E.
Qed.

Lemma busy_stopped ws : (forall i w, ws !! i = Some w -> stopped w = true) -> busy ws = [].
Proof.
  intros H. unfold busy. induction ws as [|w ws IH]; [done|].
  rewrite bind_cons, IH by (intros i w' Hw; by apply (H (S i))). specialize (H 0%nat w eq_refl).
  unfold stopped in H. apply bool_decide_eq_true_1 in H. unfold task_of. by destruct H as [-> | ->].
Qed.

Section Accounts.
Variables (cores MaxThreadCount QueueMaxSize : nat) (Type_ : ThreadPoolType) (closeStrategy : ThreadPoolCloseStrategy).
Implicit Types s : ThreadPool.

(** What the workers of a pool satisfy together. *)
Record crew (m : manager) (c : closing) (vacant : Z) (taken finished : list Z) (ws : list Worker) : Prop := {
  crew_tasks : taken ≡ₚ finished ++ busy ws;
  crew_vacant : vacant + Z.of_nat (length (busy ws)) = Z.of_nat cores;
  crew_mutex : (count is_checked ws <= 1)%nat;
  crew_closed : c = Closed -> forall i w, ws !! i = Some w -> stopped w = true;
  crew_slots : forall i w, ws !! i = Some w -> (cores <= i)%nat -> isRunning w = false ->
    workman w = NoThread \/ m = Joining i;
}.

(** Before [close] has joined the manager, and before it has stopped the workers. *)
Definition early (c : closing) : bool := match c with Open | WaitEmpty | JoinManager => true | _ => false end.
Definition serving (c : closing) : bool := match c with StopRun => true | _ => early c end.

(** The invariant of every schedule. *)
Record accounts s : Prop := {
  acc_flow : accepted s = taken s ++ dropped s ++ queueTask s;
  acc_crew : crew (managerThread s) (closer s) (vacantThreadsCount s) (taken s) (finished s) (workers s);
  acc_room : (length (queueTask s) <= QueueMaxSize)%nat;
  acc_kept : runState s = true \/ closeStrategy = WaitAllTaskFinish -> dropped s = [];
  acc_running : runState s = serving (closer s);
  acc_manager : early (closer s) = false -> managerThread s = NoManager \/ managerThread s = Done;
  acc_drain : closeStrategy = WaitAllTaskFinish -> closer s <> Drain;
  acc_commit : closer s <> Open -> stopCommitState s = true;
}.

Lemma crew_change f m m' c vacant vacant' tk tk' fin fin' ws i w : ws !! i = Some w ->
  crew m c vacant tk fin ws ->
  (forall l, tk ≡ₚ fin ++ task_of w ++ l -> tk' ≡ₚ fin' ++ task_of (f w) ++ l) ->
  vacant' + Z.of_nat (length (task_of (f w))) = vacant + Z.of_nat (length (task_of w)) ->
  (is_checked (f w) = true -> is_checked w = true \/ count is_checked ws = 0%nat) ->
  (c = Closed -> stopped w = true -> stopped (f w) = true) ->
  ((cores <= i)%nat -> isRunning (f w) = false -> workman (f w) = NoThread \/ m' = Joining i) ->
  (forall j, j <> i -> m = Joining j -> m' = Joining j) ->
  crew m' c vacant' tk' fin' (alter f i ws).
Proof.
  intros Hw [Ht Hv Hm Hc Hs] Htk Hv' Hchk Hst Hrun Hj.
  destruct (bind_alter task_of f ws i w Hw) as (l & H1 & H2). fold (busy ws) in H1.
  change (busy (alter f i ws) ≡ₚ task_of (f w) ++ l) in H2.
  split.
  - rewrite H2. apply Htk. by rewrite <- H1.
  - apply Permutation_length in H1, H2. rewrite length_app in H1, H2. lia.
  - pose proof (tally_alter is_checked f ws i w Hw).
    destruct (is_checked (f w)), (is_checked w); simpl in *; lia.
  - intros E j w' Hj'. destruct (decide (i = j)) as [<-|Hij].
    + rewrite list_lookup_alter_eq, Hw in Hj'. simplify_eq/=. eauto.
    + rewrite list_lookup_alter_ne in Hj' by done. eauto.
  - intros j w' Hw' Hle Hr. destruct (decide (i = j)) as [<-|Hij].
    + rewrite list_lookup_alter_eq, Hw in Hw'. simplify_eq/=. eauto.
    + rewrite list_lookup_alter_ne in Hw' by done. destruct (Hs j w'); eauto.
Qed.

Lemma crew_alter m c vacant vacant' tk tk' fin fin' ws i w t : ws !! i = Some w ->
  crew m c vacant tk fin ws ->
  (forall l, tk ≡ₚ fin ++ task_of w ++ l -> tk' ≡ₚ fin' ++ task_of (set_thread t w) ++ l) ->
  vacant' + Z.of_nat (length (task_of (set_thread t w))) = vacant + Z.of_nat (length (task_of w)) ->
  (is_checked (set_thread t w) = true -> count is_checked ws = 0%nat) ->
  stopped w = false -> workman w <> NoThread ->
  crew m c vacant' tk' fin' (alter (set_thread t) i ws).
Proof.
  intros Hw Hc Htk Hv Hchk Hst Hno. apply crew_change with (1 := Hw) (2 := Hc); eauto; [congruence|].
  intros Hi Hr. destruct (crew_slots _ _ _ _ _ _ Hc i w Hw Hi Hr); [done|by right].
Qed.

Lemma crew_manager m m' c vacant tk fin ws :
  (forall i, m <> Joining i) -> crew m c vacant tk fin ws -> crew m' c vacant tk fin ws.
Proof. intros Hm [Ht Hv Hk Hc Hs]. split; [done..|]. intros i w Hw Hi Hr. destruct (Hs i w Hw Hi Hr); [by left|naive_solver]. Qed.

(** Waking changes none of it. *)
Lemma stopped_wake w : stopped (wake w) = stopped w.
Proof. unfold wake, stopped. case_decide as E; [|done]. simpl. rewrite E. by rewrite !bool_decide_eq_false_2 by naive_solver. Qed.
Lemma running_wake w : isRunning (wake w) = isRunning w.
Proof. unfold wake. by case_decide. Qed.
Lemma nothread_wake w : workman w = NoThread -> workman (wake w) = NoThread.
Proof. unfold wake. case_decide as E; congruence. Qed.

Lemma crew_wake m c vacant tk fin ws ws' :
  busy ws' = busy ws -> count is_checked ws' = count is_checked ws ->
  (forall i w, ws' !! i = Some w -> exists w', ws !! i = Some w' /\ (w = w' \/ w = wake w')) ->
  crew m c vacant tk fin ws -> crew m c vacant tk fin ws'.
Proof.
  intros Hb Hn Hl [Ht Hv Hm Hc Hs]. split; rewrite ?Hb, ?Hn; [done..| |].
  - intros E i w Hw. destruct (Hl i w Hw) as (w' & Hw' & [-> | ->]); rewrite ?stopped_wake; eauto.
  - intros i w Hw Hi. destruct (Hl i w Hw) as (w' & Hw' & [-> | ->]); rewrite ?running_wake; [by apply Hs|].
    intros Hr. destruct (Hs i w' Hw' Hi Hr); [left; by apply nothread_wake|by right].
Qed.

Lemma wake_all_lookup (ws : list Worker) i w : map wake ws !! i = Some w ->
  exists w', ws !! i = Some w' /\ (w = w' \/ w = wake w').
Proof.
  change (map wake ws) with (wake <$> ws). rewrite list_lookup_fmap.
  destruct (ws !! i); intros; simplify_eq/=; eauto.
Qed.

Lemma wake_one_lookup (ws : list Worker) j i w : alter wake j ws !! i = Some w ->
  exists w', ws !! i = Some w' /\ (w = w' \/ w = wake w').
Proof.
  destruct (decide (j = i)) as [<-|]; [rewrite list_lookup_alter_eq|rewrite list_lookup_alter_ne by done; eauto].
  destruct (ws !! j); intros; simplify_eq/=; eauto.
Qed.

Lemma crew_notify_all m c vacant tk fin ws : crew m c vacant tk fin ws -> crew m c vacant tk fin (map wake ws).
Proof.
  apply crew_wake.
  - apply bind_map, task_of_wake.
  - unfold count. f_equal. apply bind_map. intros w. by rewrite checked_wake.
  - apply wake_all_lookup.
Qed.

Lemma crew_notify_one m c vacant tk fin ws i : crew m c vacant tk fin ws -> crew m c vacant tk fin (alter wake i ws).
Proof.
  apply crew_wake.
  - apply bind_same, task_of_wake.
  - unfold count. f_equal. apply bind_same. intros w. by rewrite checked_wake.
  - apply wake_one_lookup.
Qed.

Lemma unlocked s : locked s = false -> count is_checked (workers s) = 0%nat.
Proof. unfold locked. rewrite tally_exists. case_bool_decide; [done|]. intros. lia. Qed.

Lemma worker_accounts i s s' : accounts s -> worker_step cores i s = Some s' -> accounts s'.
Proof.
  intros H. unfold worker_step. destruct (workers s !! i) as [w|] eqn:Hw; [simpl|done].
  pose proof (acc_crew s H) as Hc.
  destruct (workman w) as [| | | |t r|] eqn:Ht; try done.
  - destruct (locked s) eqn:Hl; [done|]. apply unlocked in Hl.
    assert (Hgo : forall t, task_of (set_thread t w) = [] -> workman w = Idle ->
      crew (managerThread s) (closer s) (vacantThreadsCount s) (taken s) (finished s) (workers (on_worker i t s))).
    { intros t E _. apply crew_alter with (1 := Hw) (2 := Hc); rewrite ?E; unfold task_of, stopped; rewrite ?Ht; done || lia. }
    case_match; [intros; simplify_eq; destruct H; split; naive_solver|].
    case_match eqn:Hrun; [intros; simplify_eq; destruct H; split; naive_solver|].
    case_match; [intros; simplify_eq; destruct H; split; naive_solver|].
    destruct (queueTask s) as [|t q] eqn:Hq; [done|]. intros. simplify_eq.
    apply negb_false_iff in Hrun. destruct H as [Hf _ Hr Hk Hg Hm Hd Ho].
    split; simpl; try done; try congruence.
    + rewrite Hf, Hk, Hq by auto. by rewrite <- app_assoc.
    + apply crew_alter with (1 := Hw) (2 := Hc); unfold task_of, stopped; simpl; rewrite ?Ht; try done; [|simpl; lia].
      intros l ->. rewrite <- app_assoc. apply Permutation_app_head, (Permutation_app_comm l [t]).
    + rewrite Hq in Hr. simpl in Hr. lia.
  - intros. simplify_eq. destruct H as [Hf _ Hr Hk Hg Hm Hd Ho]. split; simpl; try done; try congruence.
    apply crew_alter with (1 := Hw) (2 := Hc); unfold task_of, stopped; simpl; rewrite ?Ht; done || lia.
  - intros. simplify_eq. destruct H as [Hf _ Hr Hk Hg Hm Hd Ho]. split; simpl; try done; try congruence.
    apply crew_alter with (1 := Hw) (2 := Hc); unfold task_of, stopped; simpl; rewrite ?Ht; try done; [|simpl; lia].
    intros l ->. by rewrite <- app_assoc.
Qed.

Lemma find_dynamic_some b s i : find_dynamic cores MaxThreadCount b s = Some i ->
  (cores <= i)%nat /\ exists w, workers s !! i = Some w /\ isRunning w = b.
Proof.
  unfold find_dynamic. intros (Hin & Hb)%List.find_some. apply List.in_seq in Hin. split; [lia|].
  destruct (workers s !! i) as [w|]; [|done]. exists w. by apply eqb_prop in Hb.
Qed.

(** The manager runs only before [close] waits for it. *)
Lemma manager_early s : accounts s -> managerThread s <> NoManager -> managerThread s <> Done ->
  early (closer s) = true.
Proof. intros H H1 H2. destruct (early (closer s)) eqn:E; [done|]. by destruct (acc_manager s H E). Qed.

Lemma manager_moves s n m : accounts s -> managerThread s <> NoManager -> managerThread s <> Done ->
  (forall i, managerThread s <> Joining i) -> accounts (with_manager n m s).
Proof.
  intros H H1 H2 H3. pose proof (manager_early s H H1 H2). destruct H. split; simpl; try done; [|congruence].
  by apply (crew_manager (managerThread s)).
Qed.

Lemma add_accounts s : accounts s -> managerThread s = Awake -> accounts (addDynamicThread cores MaxThreadCount s).
Proof.
  intros H Hm. unfold addDynamicThread. destruct (find_dynamic _ _ false s) as [i|] eqn:Hi;
    [|apply manager_moves; congruence].
  apply find_dynamic_some in Hi as (Hi & w & Hw & Hr).
  pose proof (manager_early s H) as He. pose proof (acc_crew s H) as Hc. rewrite Hm in *.
  destruct (crew_slots _ _ _ _ _ _ Hc i w Hw Hi Hr) as [Hno|]; [|done].
  specialize (He ltac:(done) ltac:(done)). destruct H as [Hf _ Hq Hk Hg Hn Hd Ho]. split; simpl; try done; try congruence.
  change (<[i:=?x]> (workers s)) with (<[i:=x]> (workers s)).
  replace (<[i:={| isRunning := true; workman := Idle |}]> (workers s))
    with (alter (fun _ => {| isRunning := true; workman := Idle |}) i (workers s))
    by (apply list_eq; intros j; destruct (decide (i = j)) as [<-|];
        [rewrite list_lookup_alter_eq, list_lookup_insert_eq, Hw; [done|by eapply lookup_lt_Some]
        |by rewrite list_lookup_alter_ne, list_lookup_insert_ne]).
  apply crew_change with (1 := Hw) (2 := Hc); unfold task_of; rewrite ?Hno; try done.
  intros E. by rewrite E in He.
Qed.

Lemma kill_accounts s : accounts s -> managerThread s = Awake -> accounts (killDynamicThread cores MaxThreadCount s).
Proof.
  intros H Hm. unfold killDynamicThread. destruct (find_dynamic _ _ true s) as [i|] eqn:Hi;
    [|apply manager_moves; congruence].
  apply find_dynamic_some in Hi as (Hi & w & Hw & Hr).
  pose proof (manager_early s H) as He. pose proof (acc_crew s H) as Hc. rewrite Hm in *.
  specialize (He ltac:(done) ltac:(done)). destruct H as [Hf _ Hq Hk Hg Hn Hd Ho]. split; simpl; try done; try congruence.
  apply crew_notify_all, (crew_change _ _ _ _ _ _ _ _ _ _ _ i w Hw Hc); auto; congruence.
Qed.

Lemma manager_accounts s s' : accounts s -> manager_step cores MaxThreadCount s = Some s' -> accounts s'.
Proof.
  intros H. unfold manager_step. destruct (managerThread s) as [| | |i|] eqn:Hm; try done.
  - intros. simplify_eq. apply manager_moves; congruence.
  - intros. simplify_eq. repeat case_match; auto using add_accounts, kill_accounts; apply manager_moves; congruence.
  - destruct (workers s !! i) as [w|] eqn:Hw; [simpl|done]. case_decide as Hg; [|done]. intros. simplify_eq.
    pose proof (manager_early s H) as He. pose proof (acc_crew s H) as Hc. rewrite Hm in *.
    specialize (He ltac:(done) ltac:(done)). destruct H as [Hf _ Hq Hk Hr Hn Hd Ho]. split; simpl; try done; try congruence.
    apply crew_change with (1 := Hw) (2 := Hc); unfold task_of, is_checked, stopped; simpl; rewrite ?Hg; auto; try done.
    congruence.
Qed.

Lemma commit_begin_accounts c s : accounts s -> accounts (commit_begin c s).
Proof. intros H. unfold commit_begin. case_match; destruct H; split; simpl; auto. Qed.

Lemma notify_accounts s : accounts s -> (forall ws, ws = map wake (workers s) \/ (exists i, ws = alter wake i (workers s)) ->
  accounts (with_workers ws s)).
Proof. intros [] ws Hw. split; simpl; try done. destruct Hw as [-> | [i ->]]; auto using crew_notify_all, crew_notify_one. Qed.

Lemma commit_end_accounts k i s s' : accounts s -> commit_end QueueMaxSize k i s = Some s' -> accounts s'.
Proof.
  intros H. unfold commit_end. destruct (in_flight s !! k) as [c|]; [simpl|done].
  destruct (locked s); [done|].
  set (tk := take _ _). set (s1 := with_tasks _ _ _ _ _ _).
  assert (H1 : accounts s1).
  { destruct H as [Hf Hc Hq Hk Hr Hn Hd Ho]. split; simpl; try done; try congruence.
    - by rewrite Hf, <- !app_assoc.
    - unfold tk. rewrite length_app, length_take. lia. }
  pose proof (notify_accounts s1 H1) as Hn.
  destruct (bulk c); [intros; simplify_eq; apply Hn; by left|].
  case_bool_decide; [intros; by simplify_eq|].
  case_match; [|intros; by simplify_eq].
  destruct (workers s !! i) as [w|]; [simpl|done]. destruct (sleeps w); [|done].
  intros. simplify_eq. apply Hn. right. by exists i.
Qed.

Lemma crew_closer m c c' vacant tk fin ws :
  (c' = Closed -> forallb stopped ws = true) -> crew m c vacant tk fin ws -> crew m c' vacant tk fin ws.
Proof.
  intros Hc' [Ht Hv Hk Hc Hs]. split; try done. intros E i w Hw. specialize (Hc' E).
  eapply forallb_forall; [exact Hc'|]. by eapply list_elem_of_In, list_elem_of_lookup_2.
Qed.

Lemma close_accounts s s' : accounts s -> close_step closeStrategy s = Some s' -> accounts s'.
Proof.
  intros [Hf Hc Hq Hk Hr Hn Hd Ho]. unfold close_step.
  destruct (closer s) eqn:E; repeat case_match; intros; simplify_eq; split; simpl; try done; auto;
    rewrite ?E; eauto using crew_closer, crew_notify_all.
  all: try match goal with H : managerThread _ = _ |- crew _ _ _ _ _ _ => rewrite H end.
  all: try (eapply crew_closer; [|solve [exact Hc | apply crew_notify_all, Hc]]; done).
  - by rewrite app_nil_r.
  - lia.
  - intros [|]; [simpl in Hr; congruence|naive_solver].
Qed.

Lemma init_accounts : accounts (pool_init cores MaxThreadCount Type_).
Proof.
  split; simpl; try done; [|lia].
  assert (E : busy (workers (pool_init cores MaxThreadCount Type_)) = []).
  { simpl. rewrite busy_app, busy_replicate by done. destruct Type_; [done|]. by apply busy_replicate. }
  assert (Ek : count is_checked (workers (pool_init cores MaxThreadCount Type_)) = 0%nat).
  { simpl. rewrite tally_app, tally_replicate by done. destruct Type_; [done|]. by apply tally_replicate. }
  simpl in E, Ek. split; rewrite ?E, ?Ek; [done|simpl; lia|lia|done|].
  intros i w [Hw|[Hi Hw]]%lookup_app_Some Hle Hr; [apply lookup_replicate in Hw as [-> Hw]; lia|].
  left. destruct Type_; [done|]. by apply lookup_replicate in Hw as [-> _].
Qed.

Lemma step_accounts m s s' : accounts s -> step cores MaxThreadCount QueueMaxSize closeStrategy m s = Some s' -> accounts s'.
Proof.
  intros H. destruct m; simpl.
  - by apply worker_accounts.
  - destruct (workers s !! i) as [w|]; [simpl|done]. destruct (sleeps w); [|done]. intros. simplify_eq.
    apply notify_accounts; eauto.
  - case_match; [done|]. intros. simplify_eq. by apply commit_begin_accounts.
  - by apply commit_end_accounts.
  - by apply manager_accounts.
  - by apply close_accounts.
Qed.

Lemma run_accounts ms s s' : accounts s -> run cores MaxThreadCount QueueMaxSize closeStrategy ms s = Some s' -> accounts s'.
Proof.
  revert s. induction ms as [|m ms IH]; simpl; intros s H; [by intros [= <-]|].
  destruct (step _ _ _ _ m s) as [s1|] eqn:E; [simpl|done]. apply IH. by eapply step_accounts.
Qed.

Lemma reached_accounts ms s :
  run cores MaxThreadCount QueueMaxSize closeStrategy ms (pool_init cores MaxThreadCount Type_) = Some s -> accounts s.
Proof. apply run_accounts, init_accounts. Qed.

Lemma closed_idle s : accounts s -> closer s = Closed -> busy (workers s) = [].
Proof. intros H E. apply busy_stopped. by apply (crew_closed _ _ _ _ _ _ (acc_crew s H)). Qed.

(** C35: No schedule loses a task or runs it twice for one place in the queue.  What was
    accepted is, in order, what was taken, what [close] dropped and what waits; what was
    taken has been finished or is in the hands of a worker; [vacantThreadsCount] is the
    number of core threads less the busy workers of both kinds; the queue keeps its
    bound; one worker at most holds the mutex; nothing is dropped while the pool runs, or
    by a pool that waits for its tasks; and nobody works in a closed pool. *)
Theorem pool_accounting ms s :
  run cores MaxThreadCount QueueMaxSize closeStrategy ms (pool_init cores MaxThreadCount Type_) = Some s ->
  accepted s = taken s ++ dropped s ++ queueTask s /\
  taken s ≡ₚ finished s ++ busy (workers s) /\
  vacantThreadsCount s = Z.of_nat cores - Z.of_nat (length (busy (workers s))) /\
  (length (queueTask s) <= QueueMaxSize)%nat /\
  (count is_checked (workers s) <= 1)%nat /\
  (runState s = true \/ closeStrategy = WaitAllTaskFinish -> dropped s = []) /\
  (closer s = Closed -> busy (workers s) = [] /\ accepted s ≡ₚ finished s ++ dropped s ++ queueTask s).
Proof.
  intros [Hf Hc Hq Hk Hr Hn Hd Ho]%reached_accounts. destruct Hc as [Ht Hv Hm Hcl Hs]. split_and!; try done; [lia|].
  intros E. assert (Hb : busy (workers s) = []) by (by apply busy_stopped, Hcl).
  split; [done|]. by rewrite Hf, Ht, Hb, app_nil_r.
Qed.

(** With two core threads the manager finds no reason to end a thread it has made. *)
Lemma small_pool_never_shrinks ms s :
  run cores MaxThreadCount QueueMaxSize closeStrategy ms (pool_init cores MaxThreadCount Type_) = Some s ->
  (cores <= 2)%nat -> vacantThreadsCount s <= 2.
Proof. intros H%reached_accounts Hc. pose proof (crew_vacant _ _ _ _ _ _ (acc_crew s H)). lia. Qed.
End Accounts.
