(* ===== verification/ThreadPoolRuns.v ===== *)
(** * Schedules of the thread pool: how a fixed pool ends its work, and how [close] hangs *)
From S2P Require Import Prelude ThreadPool ThreadPoolTheorems.

(** ** A pool without dynamic threads *)
(** The steps a worker still takes by itself: one to sleep, two to look and sleep, three to
    end its task, look and sleep; a task in the queue needs two more. *)
Definition weight (w : Worker) : nat :=
  match workman w with Busy _ _ => 3 | Idle => 2 | Checked => 1 | _ => 0 end%nat.
Definition work (s : ThreadPool) : nat := (2 * length (queueTask s) + sum_list_with weight (workers s))%nat.

Lemma sum_alter (g : Worker -> nat) f (ws : list Worker) i w : ws !! i = Some w ->
  (sum_list_with g (alter f i ws) + g w = sum_list_with g ws + g (f w))%nat.
Proof.
  revert i. induction ws as [|v ws IH]; intros [|i] H; [done..| |].
  - simplify_eq/=. lia.
  - specialize (IH i H). change (alter f (S i) (v :: ws)) with (v :: alter f i ws). simpl. lia.
Qed.

Lemma tally_zero p (ws : list Worker) : count p ws = 0%nat -> forall i w, ws !! i = Some w -> p w = false.
Proof.
  intros H i w Hw. pose proof (tally_alter p id ws i w Hw) as E. unfold id in E. destruct (p w) eqn:Hp; [|done].
  assert (existsb p ws = true) as Hx; [|rewrite tally_exists, H in Hx; done].
  apply existsb_exists. exists w. split; [|done]. by eapply list_elem_of_In, list_elem_of_lookup_2.
Qed.

Lemma tally_all p (ws : list Worker) : (forall i w, ws !! i = Some w -> p w = true) -> count p ws = length ws.
Proof.
  intros H. induction ws as [|w ws IH]; [done|]. unfold count in *. rewrite bind_cons, length_app, IH, (H 0%nat w eq_refl); [done|].
  intros i w' Hw. by apply (H (S i)).
Qed.

Section Fixed.
Variables (cores MaxThreadCount QueueMaxSize : nat) (Type_ : ThreadPoolType) (closeStrategy : ThreadPoolCloseStrategy).
Implicit Types s : ThreadPool.

(** While the pool runs: nobody has left, nobody is about to sleep with a task in the queue,
    and when somebody sleeps there is a waking worker for every task. *)
Record fair s : Prop := {
  fair_cores : length (workers s) = cores;
  fair_manager : managerThread s = NoManager;
  fair_here : runState s = true -> forall i w, workers s !! i = Some w -> stopped w = false;
  fair_checked : runState s = true -> (0 < count is_checked (workers s))%nat -> queueTask s = [];
  fair_woken : runState s = true -> (0 < count sleeps (workers s))%nat ->
    (length (queueTask s) <= count is_idle (workers s))%nat;
  fair_flight : Forall (fun c => bulk c = false -> length (tasks c) = 1%nat) (in_flight s);
}.

Lemma checked_of w : is_checked w = match workman w with Checked => true | _ => false end.
Proof. unfold is_checked. by destruct (workman w). Qed.
Lemma sleeps_of w : sleeps w = match workman w with Asleep => true | _ => false end.
Proof. unfold sleeps. by destruct (workman w). Qed.
Lemma idle_of w : is_idle w = match workman w with Idle => true | _ => false end.
Proof. unfold is_idle. by destruct (workman w). Qed.

Ltac counts f Hw Ht :=
  let H1 := fresh in let H2 := fresh in let H3 := fresh in
  pose proof (tally_alter is_checked f _ _ _ Hw) as H1; rewrite !checked_of in H1;
  pose proof (tally_alter sleeps f _ _ _ Hw) as H2; rewrite !sleeps_of in H2;
  pose proof (tally_alter is_idle f _ _ _ Hw) as H3; rewrite !idle_of in H3;
  simpl in H1, H2, H3; rewrite Ht in H1, H2, H3; simpl in H1, H2, H3.

Lemma here_alter s i w t : workers s !! i = Some w -> stopped (set_thread t w) = false ->
  (forall i w, workers s !! i = Some w -> stopped w = false) ->
  forall j w', alter (set_thread t) i (workers s) !! j = Some w' -> stopped w' = false.
Proof.
  intros Hw Ht H j w' Hj. destruct (decide (i = j)) as [<-|].
  - rewrite list_lookup_alter_eq, Hw in Hj. by simplify_eq/=.
  - rewrite list_lookup_alter_ne in Hj by done. eauto.
Qed.

Lemma worker_fair i s s' : fair s -> worker_step cores i s = Some s' -> fair s'.
Proof.
  intros [Hn Hm Hh Hc Hk Hfl]. unfold worker_step. destruct (workers s !! i) as [w|] eqn:Hw; [simpl|done].
  destruct (workman w) as [| | | |t r|] eqn:Ht; try done.
  - destruct (locked s) eqn:Hl; [done|]. apply unlocked in Hl.
    case_match eqn:Hg; [intros; simplify_eq|].
    { apply andb_true_iff in Hg as [[Hq Hr]%andb_true_iff _]. apply bool_decide_eq_true_1 in Hq.
      split; simpl; rewrite ?length_alter, ?Hq; try done; [|simpl; lia].
      intros _. eapply here_alter; [exact Hw|done|by apply Hh]. }
    case_match eqn:Hrun; [intros; simplify_eq; apply negb_true_iff in Hrun; split; simpl; rewrite ?length_alter; congruence|].
    apply negb_false_iff in Hrun.
    case_match eqn:Hcore; [exfalso|].
    { apply andb_true_iff in Hcore as [Hcore _]. unfold is_core in Hcore. apply lookup_lt_Some in Hw.
      rewrite Hn in Hw. apply Nat.ltb_lt in Hw. by rewrite Hw in Hcore. }
    destruct (queueTask s) as [|t q] eqn:Hq; [done|]. intros. simplify_eq. split; simpl; rewrite ?length_alter; try done.
    + intros _. eapply here_alter; [exact Hw|done|by apply Hh].
    + counts (set_thread (Busy t (bool_decide (t ∉ finished s)))) Hw Ht. simpl in *. lia.
    + specialize (Hk Hrun). counts (set_thread (Busy t (bool_decide (t ∉ finished s)))) Hw Ht.
      simpl in *. lia.
  - intros. simplify_eq.
    assert (Hq : runState s = true -> queueTask s = []).
    { intros Hr. apply Hc; [done|]. destruct (count is_checked (workers s)) eqn:E; [|lia].
      pose proof (tally_zero _ _ E i w Hw) as Ef. unfold is_checked in Ef. by rewrite Ht in Ef. }
    split; simpl; rewrite ?length_alter; try done; [|by auto|intros Hr; rewrite Hq by done; simpl; lia].
    intros Hr. eapply here_alter; [exact Hw|done|by apply Hh].
  - intros. simplify_eq. counts (set_thread Idle) Hw Ht.
    split; simpl; rewrite ?length_alter; try done.
    + intros Hr. eapply here_alter; [exact Hw|done|by apply Hh].
    + intros Hr ?. apply Hc; [done|]. lia.
    + intros Hr ?. specialize (Hk Hr). lia.
Qed.

(** Waking only helps. *)
Lemma woken_fair s ws :
  length ws = length (workers s) -> count is_checked ws = count is_checked (workers s) ->
  (count sleeps ws = 0%nat \/ (count sleeps ws <= count sleeps (workers s) /\ count is_idle (workers s) <= count is_idle ws)%nat) ->
  (forall i w, ws !! i = Some w -> exists w', workers s !! i = Some w' /\ (w = w' \/ w = wake w')) ->
  fair s -> fair (with_workers ws s).
Proof.
  intros Hl Hc Hk Hw [Hn Hm Hh Hq Hf Hfl]. split; simpl; rewrite ?Hl, ?Hc; try done.
  - intros Hr i w Hi. destruct (Hw i w Hi) as (w' & Hi' & [-> | ->]); rewrite ?stopped_wake; eauto.
  - intros Hr ?. destruct Hk as [|[]]; [lia|]. specialize (Hf Hr). lia.
Qed.

Lemma notify_one_fair i s : fair s -> fair (notify_one i s).
Proof.
  apply woken_fair.
  - apply length_alter.
  - unfold count. f_equal. apply bind_same. intros w. by rewrite checked_wake.
  - right. destruct (workers s !! i) as [w|] eqn:Hw.
    + pose proof (tally_alter sleeps wake _ _ _ Hw) as H1. pose proof (tally_alter is_idle wake _ _ _ Hw) as H2.
      rewrite !sleeps_of in H1. rewrite !idle_of in H2. unfold wake in *.
      destruct (workman w) eqn:Ht; simpl in *; rewrite ?Ht in *; simpl in *; lia.
    + rewrite alter_out by done. done.
  - apply wake_one_lookup.
Qed.

Lemma notify_all_fair s : fair s -> fair (notify_all s).
Proof.
  apply woken_fair.
  - apply length_map.
  - unfold count. f_equal. apply bind_map. intros w. by rewrite checked_wake.
  - left. apply tally_wake.
  - apply wake_all_lookup.
Qed.

Lemma commit_fair k i s s' : fair s -> commit_end QueueMaxSize k i s = Some s' -> fair s'.
Proof.
  intros H. unfold commit_end. destruct (in_flight s !! k) as [c|] eqn:Hk; [simpl|done].
  destruct (locked s) eqn:Hl; [done|]. apply unlocked in Hl.
  set (tk := take _ _). set (s1 := with_tasks _ _ _ _ _ _).
  (* it is enough that nobody is left asleep, or that the tasks are met by wakers *)
  assert (Hw : forall ws, fair (with_workers ws s) -> count is_checked ws = 0%nat ->
    (runState s = true -> (0 < count sleeps ws)%nat -> (length (queueTask s ++ tk) <= count is_idle ws)%nat) -> fair (with_workers ws s1)).
  { intros ws [Hn Hm Hh Hc Hf Hfl] E Hs. split; simpl in *; try done; [lia|]. apply Forall_delete, Hfl. }
  destruct (bulk c) eqn:Hb.
  { intros. simplify_eq. apply (Hw (map wake (workers s))); [by apply notify_all_fair|..].
    - unfold count in *. by rewrite bind_map by (intros; by rewrite checked_wake).
    - rewrite tally_wake. lia. }
  assert (Hs : fair s1 <-> fair (with_workers (workers s1) s1)) by done.
  case_bool_decide as Ht; [|case_match eqn:He].
  - intros. simplify_eq. apply Hs, Hw; simpl; [by destruct s|done|]. rewrite Ht, app_nil_r. apply H.
  - destruct (workers s !! i) as [w|] eqn:Hi; [simpl|done]. destruct (sleeps w) eqn:Hw'; [|done].
    intros. simplify_eq. apply (Hw (alter wake i (workers s))); [by apply notify_one_fair|..].
    + unfold count in *. by rewrite bind_same by (intros; by rewrite checked_wake).
    + intros Hr _. pose proof (fair_woken s H Hr) as Hf.
      assert (Htk : (length tk <= 1)%nat).
      { unfold tk. rewrite length_take. pose proof (Forall_lookup_1 _ _ _ _ (fair_flight s H) Hk Hb). lia. }
      pose proof (tally_alter sleeps wake _ _ _ Hi) as H1. pose proof (tally_alter is_idle wake _ _ _ Hi) as H2.
      rewrite sleeps_of in Hw'. rewrite !sleeps_of in H1. rewrite !idle_of in H2. unfold wake in *.
      rewrite length_app. destruct (workman w) eqn:Ew; simpl in *; rewrite ?Ew in *; simpl in *; lia || done.
  - intros. simplify_eq. apply Hs, Hw; simpl; [by destruct s|done|]. rewrite tally_exists in He. case_bool_decide; [done|]. lia.
Qed.

Lemma step_fair m s s' : fair s -> step cores MaxThreadCount QueueMaxSize closeStrategy m s = Some s' -> fair s'.
Proof.
  intros H. destruct m as [i|i|c|k i| |]; simpl.
  - by apply worker_fair.
  - destruct (workers s !! i) as [w|]; [simpl|done]. destruct (sleeps w); [|done]. intros. simplify_eq. by apply notify_one_fair.
  - case_match eqn:Hc; [done|]. intros. simplify_eq. unfold commit_begin. destruct H as [Hn Hm Hh Hq Hf Hfl].
    case_match; split; simpl; try done. apply Forall_app. split; [done|]. apply Forall_singleton. intros Hb.
    rewrite Hb in Hc. simpl in Hc. by apply negb_false_iff, Nat.eqb_eq in Hc.
  - by apply commit_fair.
  - unfold manager_step. rewrite (fair_manager s H). done.
  - assert (Hcl : forall c stop, fair (with_closer false stop c s) /\ fair (with_closer (runState s) stop c s))
      by (intros; split; destruct H; split; simpl; done).
    unfold close_step. destruct (closer s) eqn:E; repeat case_match; intros; simplify_eq; try (by apply Hcl).
    + destruct H as [Hn Hm Hh Hq Hf Hfl]. split; simpl; try done. lia.
    + apply notify_all_fair in H. destruct H as [Hn Hm Hh Hq Hf Hfl]. split; simpl; done.
Qed.

Lemma run_fair ms s s' : fair s -> run cores MaxThreadCount QueueMaxSize closeStrategy ms s = Some s' -> fair s'.
Proof.
  revert s. induction ms as [|m ms IH]; simpl; intros s H; [by intros [= <-]|].
  destruct (step _ _ _ _ m s) as [s1|] eqn:E; [simpl|done]. apply IH. by eapply step_fair.
Qed.

Lemma init_fair : Type_ = Fixed \/ MaxThreadCount = cores -> fair (pool_init cores MaxThreadCount Type_).
Proof.
  intros Ht.
  assert (E : workers (pool_init cores MaxThreadCount Type_) = replicate cores {| isRunning := true; workman := Idle |}).
  { simpl. destruct Ht as [-> | ->]; [by rewrite app_nil_r|]. rewrite Nat.sub_diag. by destruct Type_; rewrite app_nil_r. }
  split; rewrite ?E; [by rewrite length_replicate|..].
  - simpl. destruct Ht as [-> | ->]; [done|]. rewrite Nat.ltb_irrefl. by rewrite andb_false_r.
  - intros _ i w [-> _]%lookup_replicate. done.
  - done.
  - simpl. lia.
  - apply Forall_nil_2.
Qed.

(** Every step of a worker uses one unit of [work]. *)
Lemma worker_works i s s' : fair s -> runState s = true -> worker_step cores i s = Some s' ->
  (work s = S (work s')) /\ runState s' = true /\ accepted s' = accepted s.
Proof.
  intros H Hr. unfold worker_step. destruct (workers s !! i) as [w|] eqn:Hw; [simpl|done].
  assert (Hwt : forall t, (sum_list_with weight (alter (set_thread t) i (workers s)) + weight w =
    sum_list_with weight (workers s) + weight (set_thread t w))%nat) by (intros; by apply sum_alter).
  unfold work, weight in *. destruct (workman w) as [| | | |t r|] eqn:Ht; try done.
  - destruct (locked s); [done|].
    case_match eqn:Hg; [intros; simplify_eq; specialize (Hwt Checked); simpl in *; split_and!; done || lia|].
    rewrite Hr. simpl.
    case_match eqn:Hcore.
    { apply andb_true_iff in Hcore as [Hcore _]. unfold is_core in Hcore. apply lookup_lt_Some in Hw.
      rewrite (fair_cores s H) in Hw. apply Nat.ltb_lt in Hw. by rewrite Hw in Hcore. }
    destruct (queueTask s) as [|t q]; [done|]. intros. simplify_eq.
    specialize (Hwt (Busy t (bool_decide (t ∉ finished s)))). simpl in *. split_and!; done || lia.
  - intros. simplify_eq. specialize (Hwt Asleep). simpl in *. split_and!; done || lia.
  - intros. simplify_eq. specialize (Hwt Idle). simpl in *. split_and!; done || lia.
Qed.

(** When no worker can take a step they all sleep, and the queue is empty. *)
Lemma idle_pool s : fair s -> runState s = true -> (0 < cores)%nat -> (forall i, worker_step cores i s = None) ->
  queueTask s = [] /\ forall i w, workers s !! i = Some w -> workman w = Asleep.
Proof.
  intros H Hr Hn Hs.
  assert (Hl : locked s = false).
  { unfold locked. destruct (existsb is_checked (workers s)) eqn:E; [|done]. apply existsb_exists in E as (w & Hin & Hc).
    apply list_elem_of_In, list_elem_of_lookup_1 in Hin as [i Hi]. specialize (Hs i). unfold worker_step in Hs. rewrite Hi in Hs. simpl in Hs.
    rewrite checked_of in Hc. by destruct (workman w). }
  assert (Ha : forall i w, workers s !! i = Some w -> workman w = Asleep).
  { intros i w Hw. specialize (Hs i). pose proof (fair_here s H Hr i w Hw) as Hst. unfold stopped in Hst.
    apply bool_decide_eq_false_1 in Hst. unfold worker_step in Hs. rewrite Hw, Hl, Hr in Hs. simpl in Hs.
    assert (Hi : is_core cores i = true).
    { apply lookup_lt_Some in Hw. rewrite (fair_cores s H) in Hw. by apply Nat.ltb_lt. }
    rewrite Hi in Hs. simpl in Hs. destruct (workman w); try done; [by destruct Hst; right| |by destruct Hst; left].
    by destruct (queueTask s). }
  split; [|done]. pose proof (fair_woken s H Hr) as Hf.
  rewrite (tally_all sleeps), (fair_cores s H) in Hf by (intros i w Hw; rewrite sleeps_of; by rewrite (Ha i w Hw)).
  assert (Hz : count is_idle (workers s) = 0%nat).
  { clear -Ha. unfold count. induction (workers s) as [|w ws IH]; [done|].
    rewrite bind_cons, length_app, IH by (intros i w' Hw; by apply (Ha (S i))). rewrite idle_of, (Ha 0%nat w eq_refl). done. }
  rewrite Hz in Hf. destruct (queueTask s); [done|]. simpl in Hf. lia.
Qed.

Lemma works_run ks s s' : fair s -> runState s = true ->
  run cores MaxThreadCount QueueMaxSize closeStrategy (map Work ks) s = Some s' ->
  (length ks + work s' = work s)%nat /\ runState s' = true /\ accepted s' = accepted s /\ fair s'.
Proof.
  revert s. induction ks as [|i ks IH]; intros s H Hr; simpl; [by intros [= <-]|].
  destruct (worker_step cores i s) as [s1|] eqn:E; [simpl|done]. intros Hrun.
  destruct (worker_works i s s1 H Hr E) as (Hwk & Hr1 & Ha1).
  destruct (IH s1 (worker_fair i s s1 H E) Hr1 Hrun) as (Hl & Hr2 & Ha2 & Hf2). split_and!; [lia|done|congruence|done].
Qed.

(** C34: A running pool without dynamic threads ends its work, however its threads are
    scheduled: from any state it can reach, the workers can take [work] steps among
    themselves and no more, and when none of them can go on, every task that was accepted
    has been finished, no more often than it was accepted, and they all sleep. *)
Theorem pool_drains ms s ks s' :
  Type_ = Fixed \/ MaxThreadCount = cores -> (0 < cores)%nat ->
  run cores MaxThreadCount QueueMaxSize closeStrategy ms (pool_init cores MaxThreadCount Type_) = Some s ->
  runState s = true ->
  run cores MaxThreadCount QueueMaxSize closeStrategy (map Work ks) s = Some s' ->
  (length ks + work s' = work s)%nat /\
  ((forall i, worker_step cores i s' = None) ->
   length ks = work s /\ finished s' ≡ₚ accepted s /\ queueTask s' = [] /\
   forall i w, workers s' !! i = Some w -> workman w = Asleep).
Proof.
  intros Ht Hn Hs Hr Hk. pose proof (run_fair _ _ _ (init_fair Ht) Hs) as Hf.
  destruct (works_run ks s s' Hf Hr Hk) as (Hl & Hr' & Ha & Hf'). split; [done|]. intros Hstop.
  destruct (idle_pool s' Hf' Hr' Hn Hstop) as (Hq & Hw).
  pose proof (run_accounts _ _ _ _ _ _ _ (reached_accounts _ _ _ _ _ _ _ Hs) Hk) as Hacc.
  assert (H0 : forall ws : list Worker, (forall i w, ws !! i = Some w -> workman w = Asleep) ->
    busy ws = [] /\ sum_list_with weight ws = 0%nat).
  { clear. intros ws H. induction ws as [|w ws IH]; [done|]. destruct IH as (Hb & Hs); [intros i w' Hi; by apply (H (S i))|].
    unfold busy in *. rewrite bind_cons, Hb. simpl. rewrite Hs. unfold task_of, weight. by rewrite (H 0%nat w eq_refl). }
  destruct (H0 _ Hw) as (Hb & Hz). unfold work in Hl at 1. rewrite Hq, Hz in Hl. simpl in Hl.
  split_and!; [lia| |done..].
  rewrite <- Ha, (acc_flow _ _ _ _ Hacc), (acc_kept _ _ _ _ Hacc), Hq, !app_nil_r by auto.
  by rewrite (crew_tasks _ _ _ _ _ _ _ (acc_crew _ _ _ _ Hacc)), Hb, app_nil_r.
Qed.
End Fixed.

(** ** Closing *)
Section Closing.
Variables (cores MaxThreadCount QueueMaxSize : nat) (Type_ : ThreadPoolType) (closeStrategy : ThreadPoolCloseStrategy).
Implicit Types s : ThreadPool.
#[local] Abbreviation runs := (run cores MaxThreadCount QueueMaxSize closeStrategy).
#[local] Abbreviation steps := (step cores MaxThreadCount QueueMaxSize closeStrategy).

(** [close] waits for the first worker, which sleeps, and nobody is left to notify it. *)
Record hung s : Prop := {
  hung_closer : closer s = JoinWorkers;
  hung_stop : stopCommitState s = true;
  hung_flight : in_flight s = [];
  hung_manager : managerThread s = NoManager \/ managerThread s = Done;
  hung_worker : exists w, workers s !! 0%nat = Some w /\ workman w = Asleep;
}.

Lemma hung_step m s s' : hung s -> (forall i, m <> Spurious i) -> steps m s = Some s' -> hung s'.
Proof.
  intros [Hc Hs Hf Hm (w & Hw & Hsl)] Hsp. destruct m as [i|i|c|k i| |]; simpl.
  - unfold worker_step. destruct (decide (i = 0%nat)) as [->|Hi]; [by rewrite Hw; simpl; rewrite Hsl|].
    assert (Hk : forall t, exists w', workers (on_worker i t s) !! 0%nat = Some w' /\ workman w' = Asleep)
      by (intros; simpl; rewrite list_lookup_alter_ne by done; eauto).
    destruct (workers s !! i) as [v|]; [simpl|done].
    destruct (workman v); repeat case_match; intros; simplify_eq; split; simpl; done || apply Hk.
  - by destruct (Hsp i).
  - case_match; [done|]. intros. simplify_eq. unfold commit_begin. rewrite Hs. split; simpl; eauto.
  - unfold commit_end. by rewrite Hf.
  - unfold manager_step. by destruct Hm as [-> | ->].
  - unfold close_step. rewrite Hc. case_match eqn:E; [|done].
    assert (Hst : stopped w = true) by (eapply forallb_forall; [exact E|]; by eapply list_elem_of_In, list_elem_of_lookup_2).
    unfold stopped in Hst. apply bool_decide_eq_true_1 in Hst. rewrite Hsl in Hst. by destruct Hst.
Qed.

Lemma hung_run ms s s' : hung s -> (forall i, Spurious i ∉ ms) -> runs ms s = Some s' -> hung s'.
Proof.
  revert s. induction ms as [|m ms IH]; simpl; intros s H Hsp; [by intros [= <-]|].
  destruct (steps m s) as [s1|] eqn:E; [simpl|done]. apply IH; [|intros i Hi; apply (Hsp i); by right].
  eapply hung_step; [exact H| |exact E]. intros i ->. apply (Hsp i). by left.
Qed.

Lemma unlocked_zero s : count is_checked (workers s) = 0%nat -> locked s = false.
Proof. intros H. unfold locked. rewrite tally_exists, H. done. Qed.

Lemma init_unlocked : locked (pool_init cores MaxThreadCount Type_) = false.
Proof.
  apply unlocked_zero. simpl. rewrite tally_app, tally_replicate by done. destruct Type_; [done|]. by apply tally_replicate.
Qed.

(** The first worker looks at [runState] before [close] clears it, and goes to sleep
    after [close] has notified. *)
Definition lost_wakeup : list move :=
  [Close; Close; Close; Work 0; Close; Close; Work 0].
Definition lost_wakeup_managed : list move :=
  [Close; Close; Manage; Close; Work 0; Close; Close; Work 0].

Lemma run_cons m ms s s1 s' : steps m s = Some s1 -> runs ms s1 = Some s' -> runs (m :: ms) s = Some s'.
Proof. intros H. cbn [run]. by rewrite H. Qed.

Lemma lost_wakeup_run vacant rest : (0 < cores)%nat -> closeStrategy = WaitAllTaskFinish -> existsb is_checked rest = false ->
  forall m, m = NoManager \/ m = Head ->
  exists s, runs (match m with NoManager => lost_wakeup | _ => lost_wakeup_managed end)
    (Pool ({| isRunning := true; workman := Idle |} :: rest) [] true false vacant 0 m Open [] [] [] [] [] []) = Some s /\ hung s.
Proof.
  intros Hn He Hr m Hm.
  assert (Hc : is_core cores 0 = true) by (by apply Nat.ltb_lt).
  set (P := fun w rest run m c => Pool ({| isRunning := true; workman := w |} :: rest) [] run true vacant 0 m c [] [] [] [] [] []).
  assert (Hl : forall m c, locked (P Idle rest true m c) = false) by (intros; unfold locked; simpl; by rewrite Hr).
  assert (H1 : forall m, steps Close (Pool ({| isRunning := true; workman := Idle |} :: rest) [] true false vacant 0 m Open [] [] [] [] [] [])
    = Some (P Idle rest true m WaitEmpty)) by (intros; cbn [step]; unfold close_step; cbn [closer]; by rewrite decide_True).
  assert (H2 : forall m, steps Close (P Idle rest true m WaitEmpty) = Some (P Idle rest true m JoinManager))
    by (intros; cbn [step]; unfold close_step; cbn [closer P]; by rewrite Hl).
  assert (H3 : forall m, m = NoManager \/ m = Done -> steps Close (P Idle rest true m JoinManager) = Some (P Idle rest true m StopRun))
    by (intros ? [-> | ->]; reflexivity).
  assert (H4 : forall m, steps (Work 0) (P Idle rest true m StopRun) = Some (P Checked rest true m StopRun)).
  { intros m'. cbn [step]. unfold worker_step. cbn [workers P lookup list_lookup]. simpl. change (locked _) with (locked (P Idle rest true m' StopRun)).
    by rewrite Hl, Hc. }
  assert (H5 : forall m, steps Close (P Checked rest true m StopRun) = Some (P Checked rest false m NotifyAll))
    by (intros; cbn [step]; unfold close_step; cbn [closer P]; by rewrite decide_True).
  assert (H6 : forall m, steps Close (P Checked rest false m NotifyAll) = Some (P Checked (map wake rest) false m JoinWorkers)) by reflexivity.
  assert (H7 : forall m, steps (Work 0) (P Checked (map wake rest) false m JoinWorkers) = Some (P Asleep (map wake rest) false m JoinWorkers))
    by reflexivity.
  exists (P Asleep (map wake rest) false (match m with NoManager => NoManager | _ => Done end) JoinWorkers). split.
  - destruct Hm as [-> | ->]; unfold lost_wakeup, lost_wakeup_managed.
    + do 7 (eapply run_cons; [eauto|]). reflexivity.
    + do 2 (eapply run_cons; [eauto|]). eapply (run_cons Manage _ _ (P Idle rest true Done JoinManager)); [reflexivity|].
      do 5 (eapply run_cons; [eauto|]). reflexivity.
  - split; simpl; eauto. destruct Hm as [-> | ->]; auto.
Qed.

(** [close] clears [runState] and notifies without the mutex.  In a new pool that waits
    for its tasks, a worker that has looked at [runState] just before goes to sleep when
    everybody has been notified; then [close] never returns, whatever the threads
    do and the callers commit, unless a sleeper wakes for no reason. *)
Theorem close_can_hang : (0 < cores)%nat -> closeStrategy = WaitAllTaskFinish ->
  exists ms s, runs ms (pool_init cores MaxThreadCount Type_) = Some s /\ closer s = JoinWorkers /\
  forall ms' s', (forall i, Spurious i ∉ ms') -> runs ms' s = Some s' -> closer s' = JoinWorkers.
Proof.
  intros Hn He.
  cut (exists ms s, runs ms (pool_init cores MaxThreadCount Type_) = Some s /\ hung s).
  { intros (ms & s & Hs & Hh). exists ms, s. split_and!; [done|apply Hh|]. intros ms' s' Hsp Hr. by destruct (hung_run ms' s s' Hh Hsp Hr). }
  pose proof init_unlocked as Hl. unfold pool_init, locked in *. destruct cores as [|n] eqn:Hc; [lia|]. simpl in Hl |- *.
  set (m := if _ && _ then _ else _).
  assert (Hm : m = NoManager \/ m = Head) by (unfold m; repeat case_match; auto).
  destruct (lost_wakeup_run (Z.of_nat (S n)) _ ltac:(lia) He Hl m Hm) as (s & Hs & Hh).
  rewrite Hc in Hs. eauto.
Qed.

(** A pool that drops its queue does so under the mutex, after [runState] is cleared:
    nobody is on its way to sleep any more. *)
Definition drained (c : closing) : bool := match c with NotifyAll | JoinWorkers | Closed => true | _ => false end.
Definition joining (c : closing) : bool := match c with JoinWorkers | Closed => true | _ => false end.

Record leaving s : Prop := {
  leaving_awake : drained (closer s) = true -> count is_checked (workers s) = 0%nat;
  leaving_woken : joining (closer s) = true -> count sleeps (workers s) = 0%nat;
}.

Lemma leaving_alter s i t : accounts cores QueueMaxSize closeStrategy s -> leaving s ->
  t <> Checked \/ runState s = true -> t <> Asleep \/ count is_checked (workers s) <> 0%nat ->
  leaving (on_worker i t s).
Proof.
  intros Hacc [Ha Hw] Ht Ht'. pose proof (acc_running _ _ _ _ Hacc) as Hr.
  destruct (workers s !! i) as [w|] eqn:Hi; [|split; simpl; by rewrite alter_out].
  pose proof (tally_alter is_checked (set_thread t) _ _ _ Hi) as H1. pose proof (tally_alter sleeps (set_thread t) _ _ _ Hi) as H2.
  rewrite checked_of in H1. rewrite sleeps_of in H2. simpl in H1, H2.
  split; simpl; intros Hd.
  - specialize (Ha Hd). rewrite checked_of in H1. simpl in H1.
    destruct t; simpl in *; try lia. destruct (closer s); simpl in *; destruct Ht; congruence.
  - assert (Hd' : drained (closer s) = true) by (by destruct (closer s)). specialize (Ha Hd'). specialize (Hw Hd).
    rewrite sleeps_of in H2. simpl in H2. destruct t; simpl in *; try lia. destruct Ht'; done.
Qed.

Lemma leaving_ext s s' : workers s' = workers s -> closer s' = closer s -> leaving s -> leaving s'.
Proof. intros Hw Hc []. split; by rewrite ?Hw, ?Hc. Qed.

Lemma leaving_wake s ws : count is_checked ws = count is_checked (workers s) ->
  (count sleeps ws <= count sleeps (workers s))%nat -> leaving s -> leaving (with_workers ws s).
Proof. intros Hc Hs [Ha Hw]. split; simpl; intros Hd; [by rewrite Hc; auto|]. specialize (Hw Hd). lia. Qed.

Lemma leaving_notify s i : leaving s -> leaving (notify_all s) /\ leaving (notify_one i s).
Proof.
  intros H. split; apply leaving_wake; try done.
  - unfold count. f_equal. apply bind_map. intros w. by rewrite checked_wake.
  - rewrite tally_wake. lia.
  - unfold count. f_equal. apply bind_same. intros w. by rewrite checked_wake.
  - destruct (workers s !! i) as [w|] eqn:Hi; [|by rewrite alter_out].
    pose proof (tally_alter sleeps wake _ _ _ Hi) as H1. rewrite !sleeps_of in H1. unfold wake in *.
    destruct (workman w) eqn:Ht; simpl in *; rewrite ?Ht in *; simpl in *; lia.
Qed.

Lemma leaving_step m s s' : closeStrategy <> WaitAllTaskFinish -> accounts cores QueueMaxSize closeStrategy s ->
  leaving s -> steps m s = Some s' -> leaving s'.
Proof.
  intros Hst Hacc H. destruct m as [i|i|c|k i| |]; simpl.
  - unfold worker_step. destruct (workers s !! i) as [w|] eqn:Hw; [simpl|done].
    destruct (workman w) as [| | | |t r|] eqn:Ht; try done; repeat case_match; intros; simplify_eq;
      try (eapply (leaving_ext (on_worker i _ s)); [done|done|apply leaving_alter; [done|done|by left|by left]]).
    + apply leaving_alter; auto. right.
      match goal with E : _ && _ && _ = true |- _ => by apply andb_true_iff in E as [[_ ?]%andb_true_iff _] end.
    + apply leaving_alter; auto. right. intros E. pose proof (tally_zero _ _ E i w Hw) as Ef. rewrite checked_of in Ef. by rewrite Ht in Ef.
  - destruct (workers s !! i) as [w|]; [simpl|done]. destruct (sleeps w); [|done]. intros. simplify_eq. by apply (proj2 (leaving_notify _ i H)).
  - case_match; [done|]. intros. simplify_eq. unfold commit_begin. by case_match; apply (leaving_ext s).
  - unfold commit_end. destruct (in_flight s !! k) as [c|]; [simpl|done]. destruct (locked s); [done|].
    set (s1 := with_tasks _ _ _ _ _ _). assert (H1 : leaving s1) by by apply (leaving_ext s).
    repeat case_match; intros; simplify_eq; try done;
      [by apply (proj1 (leaving_notify _ i H1))|].
    destruct (workers s !! i) as [w|]; [simpl in *|done]. destruct (sleeps w); [|done]. simplify_eq. by apply (proj2 (leaving_notify _ i H1)).
  - assert (He : managerThread s <> NoManager -> managerThread s <> Done -> closer s' = closer s -> leaving s').
    { intros H1 H2 E. pose proof (manager_early _ _ _ _ Hacc H1 H2) as He. split; rewrite E; by destruct (closer s). }
    unfold manager_step, addDynamicThread, killDynamicThread.
    destruct (managerThread s) as [| | |i|]; try done; repeat case_match; intros; simplify_eq; try by apply He.
    destruct (workers s !! i) as [w|]; [simpl in *|done]. case_match; [|done]. simplify_eq. by apply He.
  - unfold close_step. destruct (closer s) eqn:E; repeat case_match; intros; simplify_eq; try (by split; simpl; rewrite ?E); try done.
    + split; simpl; [intros _|done]. by apply unlocked.
    + destruct (leaving_notify s 0 H) as [[Ha _] _]. split; simpl in *; rewrite ?E in *; [auto|intros _; apply tally_wake].
    + destruct H as [Ha Hw]. rewrite E in *. by split.
Qed.

Lemma leaving_run ms s s' : closeStrategy <> WaitAllTaskFinish -> accounts cores QueueMaxSize closeStrategy s ->
  leaving s -> runs ms s = Some s' -> leaving s'.
Proof.
  intros Hst. revert s. induction ms as [|m ms IH]; simpl; intros s Hacc H; [by intros [= <-]|].
  destruct (steps m s) as [s1|] eqn:E; [simpl|done]. apply IH.
  - by eapply step_accounts.
  - by eapply leaving_step.
Qed.

(** What a worker has left to do before it returns: its task and one look. *)
Definition leave (w : Worker) : nat := match workman w with Busy _ _ => 2 | Idle => 1 | _ => 0 end%nat.
Definition to_leave s : nat := sum_list_with leave (workers s).

Lemma leave_step i s s' : runState s = false -> count is_checked (workers s) = 0%nat -> worker_step cores i s = Some s' ->
  to_leave s = S (to_leave s') /\ closer s' = closer s /\ managerThread s' = managerThread s.
Proof.
  intros Hr Hc. unfold worker_step, to_leave. destruct (workers s !! i) as [w|] eqn:Hw; [simpl|done].
  assert (Hl : forall t, (sum_list_with leave (alter (set_thread t) i (workers s)) + leave w =
    sum_list_with leave (workers s) + leave (set_thread t w))%nat) by (intros; by apply sum_alter).
  pose proof (tally_zero _ _ Hc i w Hw) as Hck. rewrite checked_of in Hck. unfold leave in *.
  destruct (workman w) as [| | | |t r|] eqn:Ht; try done.
  - rewrite Hr, andb_false_r. simpl. destruct (locked s); [done|]. intros. simplify_eq. specialize (Hl Gone). simpl in *. split_and!; done || lia.
  - intros. simplify_eq. specialize (Hl Idle). simpl in *. split_and!; done || lia.
Qed.

Lemma leave_run ks s s' : closeStrategy <> WaitAllTaskFinish -> accounts cores QueueMaxSize closeStrategy s ->
  leaving s -> closer s = JoinWorkers -> runs (map Work ks) s = Some s' ->
  (length ks + to_leave s' = to_leave s)%nat /\ closer s' = JoinWorkers /\ accounts cores QueueMaxSize closeStrategy s' /\ leaving s'.
Proof.
  intros Hst. revert s. induction ks as [|k ks IH]; intros s Hacc H Hj; simpl; [by intros [= <-]|].
  destruct (worker_step cores k s) as [s1|] eqn:E; [simpl|done]. intros Hrun.
  assert (Hr : runState s = false) by (rewrite (acc_running _ _ _ _ Hacc); by rewrite Hj).
  assert (Hc : count is_checked (workers s) = 0%nat) by (apply H; by rewrite Hj).
  destruct (leave_step k s s1 Hr Hc E) as (Hl & Hcl & _).
  destruct (IH s1) as (Hl' & Hrest); [by eapply worker_accounts|by apply (leaving_step (Work k) s)|congruence|done|].
  split; [lia|done].
Qed.

(** A pool that drops or returns its queue always closes: once [close] joins the
    workers they have [to_leave] steps left, however they are scheduled, and when none of
    them can go on [close] returns. *)
Theorem close_returns ms s ks s' : closeStrategy <> WaitAllTaskFinish ->
  runs ms (pool_init cores MaxThreadCount Type_) = Some s -> closer s = JoinWorkers ->
  runs (map Work ks) s = Some s' ->
  (length ks + to_leave s' = to_leave s)%nat /\
  ((forall i, worker_step cores i s' = None) ->
   exists s'', close_step closeStrategy s' = Some s'' /\ closer s'' = Closed /\ queueTask s'' = queueTask s').
Proof.
  intros Hst Hs Hj Hk. pose proof (reached_accounts _ _ _ _ _ _ _ Hs) as Hacc.
  assert (Hl : leaving s) by (eapply leaving_run; [done|apply init_accounts|by split|exact Hs]).
  destruct (leave_run ks s s' Hst Hacc Hl Hj Hk) as (Hn & Hj' & Hacc' & Ha & Hw). split; [done|]. intros Hstop.
  rewrite Hj' in Ha, Hw. specialize (Ha eq_refl). specialize (Hw eq_refl).
  assert (Hr : runState s' = false) by (rewrite (acc_running _ _ _ _ Hacc'); by rewrite Hj').
  unfold close_step. rewrite Hj'.
  assert (E : forallb stopped (workers s') = true); [|rewrite E; by eexists].
  apply forallb_forall. intros w Hin. apply list_elem_of_In, list_elem_of_lookup_1 in Hin as [i Hi].
  specialize (Hstop i). unfold worker_step in Hstop. rewrite Hi in Hstop. simpl in Hstop.
  pose proof (tally_zero _ _ Ha i w Hi) as H1. pose proof (tally_zero _ _ Hw i w Hi) as H2. rewrite checked_of in H1. rewrite sleeps_of in H2.
  rewrite (unlocked_zero s' Ha), Hr, andb_false_r in Hstop. simpl in Hstop. unfold stopped. apply bool_decide_eq_true_2.
  destruct (workman w); auto; done.
Qed.

Lemma closed_step m s s' : accounts cores QueueMaxSize closeStrategy s -> closer s = Closed -> steps m s = Some s' ->
  closer s' = Closed /\ finished s' = finished s /\
  exists late, queueTask s' = queueTask s ++ late /\ accepted s' = accepted s ++ late.
Proof.
  intros Hacc Hc.
  assert (Hsame : forall s', queueTask s' = queueTask s -> accepted s' = accepted s ->
    exists late, queueTask s' = queueTask s ++ late /\ accepted s' = accepted s ++ late).
  { intros x -> ->. exists []. by rewrite !app_nil_r. }
  destruct m as [i|i|c|k i| |]; simpl.
  - unfold worker_step. destruct (workers s !! i) as [w|] eqn:Hw; [simpl|done].
    pose proof (crew_closed _ _ _ _ _ _ _ (acc_crew _ _ _ _ Hacc) Hc i w Hw) as Hs.
    unfold stopped in Hs. apply bool_decide_eq_true_1 in Hs. by destruct Hs as [-> | ->].
  - destruct (workers s !! i) as [w|]; [simpl|done]. destruct (sleeps w); [|done]. intros. simplify_eq. auto.
  - case_match; [done|]. intros. simplify_eq. unfold commit_begin. case_match; auto.
  - unfold commit_end. destruct (in_flight s !! k) as [c|]; [simpl|done]. destruct (locked s); [done|].
    repeat case_match; intros; simplify_eq; simpl; eauto.
    destruct (workers s !! i) as [w|]; [simpl in *|done]. destruct (sleeps w); [|done]. simplify_eq. simpl. eauto.
  - unfold manager_step. destruct (acc_manager _ _ _ _ Hacc) as [-> | ->]; [by rewrite Hc|done..].
  - unfold close_step. by rewrite Hc.
Qed.

(** A closed pool is over: whatever is done with it, nothing is finished, no worker
    starts and the task queue only grows; it takes a task that was on its way in when
    [close] began, answers that it was accepted, and keeps it for good. *)
Theorem closed_pool_final ms s ms' s' :
  runs ms (pool_init cores MaxThreadCount Type_) = Some s -> closer s = Closed -> runs ms' s = Some s' ->
  closer s' = Closed /\ finished s' = finished s /\ busy (workers s') = [] /\
  exists late, queueTask s' = queueTask s ++ late /\ accepted s' = accepted s ++ late.
Proof.
  intros Hs%reached_accounts Hc. revert s Hs Hc. induction ms' as [|m ms' IH]; simpl; intros s Hacc Hc.
  { intros [= <-]. split_and!; [done..| |exists []; by rewrite !app_nil_r]. by apply (closed_idle cores QueueMaxSize closeStrategy). }
  destruct (steps m s) as [s1|] eqn:E; [simpl|done]. intros Hrun.
  destruct (closed_step m s s1 Hacc Hc E) as (Hc1 & Hf1 & late & Hq1 & Ha1).
  destruct (IH s1) as (Hc2 & Hf2 & Hb2 & late' & Hq2 & Ha2); [by eapply step_accounts|done..|].
  split_and!; [done|congruence|done|]. exists (late ++ late'). by rewrite Hq2, Ha2, Hq1, Ha1, <- !app_assoc.
Qed.
End Closing.

(** ** Schedules *)

(** Two tasks: the first worker runs one of them while the second takes the other. *)
Definition two_tasks : list move :=
  [Commit {| bulk := true; tasks := [7; 8] |}; Enqueue 0 0; Work 0; Work 0; Work 1].
Lemma pool_accounting_witness :
  exists s, run 2 3 4 WaitAllTaskFinish two_tasks (pool_init 2 3 Flexible) = Some s /\
    finished s = [7] /\ vacantThreadsCount s = 1 /\ taken s ≡ₚ finished s ++ busy (workers s).
Proof.
  eexists. split; [vm_compute; reflexivity|]. do 2 (split; [reflexivity|]).
  exact (proj1 (proj2 (pool_accounting 2 3 4 Flexible WaitAllTaskFinish two_tasks _ ltac:(vm_compute; reflexivity)))).
Defined.

(** Three tasks for two workers: ten steps, and both sleep. *)
Definition three_tasks : list move := [Commit {| bulk := true; tasks := [7; 8; 9] |}; Enqueue 0 0].
Definition ten_steps : list nat := [0; 1; 0; 1; 0; 0; 0; 0; 1; 1]%nat.
Lemma pool_drains_witness :
  exists s s', run 2 2 4 WaitAllTaskFinish three_tasks (pool_init 2 2 Fixed) = Some s /\
    run 2 2 4 WaitAllTaskFinish (map Work ten_steps) s = Some s' /\
    length ten_steps = work s /\ finished s' ≡ₚ accepted s.
Proof.
  eexists _, _. split; [vm_compute; reflexivity|]. split; [vm_compute; reflexivity|]. split; [reflexivity|].
  refine (proj1 (proj2 (proj2 (pool_drains 2 2 4 Fixed WaitAllTaskFinish three_tasks _ ten_steps _
    (or_introl eq_refl) ltac:(lia) ltac:(vm_compute; reflexivity) eq_refl ltac:(vm_compute; reflexivity)) _))).
  intros [|[|i]]; reflexivity.
Defined.

(** A pool of the size that the client makes. *)
Lemma close_can_hang_witness :
  exists ms s, run 2 3 4 WaitAllTaskFinish ms (pool_init 2 3 Flexible) = Some s /\ closer s = JoinWorkers /\
    forall ms' s', (forall i, Spurious i ∉ ms') -> run 2 3 4 WaitAllTaskFinish ms' s = Some s' -> closer s' = JoinWorkers.
Proof. apply (close_can_hang 2 3 4 Flexible WaitAllTaskFinish); [lia|reflexivity]. Defined.

(** A pool that drops its tasks is closed while one of them runs. *)
Definition drop_two : list move :=
  [Commit {| bulk := true; tasks := [7; 8] |}; Enqueue 0 0; Work 0; Close; Manage; Close; Close; Close; Close].
Lemma close_returns_witness :
  exists s s', run 2 3 4 DiscardAllTasks drop_two (pool_init 2 3 Flexible) = Some s /\ dropped s = [8] /\
    run 2 3 4 DiscardAllTasks (map Work [0; 0; 1]%nat) s = Some s' /\
    exists s'', close_step DiscardAllTasks s' = Some s'' /\ closer s'' = Closed /\ queueTask s'' = queueTask s'.
Proof.
  eexists _, _. split; [vm_compute; reflexivity|]. split; [reflexivity|]. split; [vm_compute; reflexivity|].
  refine (proj2 (close_returns 2 3 4 Flexible DiscardAllTasks drop_two _ [0; 0; 1]%nat _
    ltac:(done) ltac:(vm_compute; reflexivity) eq_refl ltac:(vm_compute; reflexivity)) _).
  intros [|[|[|i]]]; reflexivity.
Defined.

(** A task whose commission looked at the pool before it was closed. *)
Definition too_late : list move :=
  [Commit {| bulk := false; tasks := [7] |}; Close; Close; Manage; Close; Close; Close; Work 0; Work 1; Close].
Lemma closed_pool_final_witness :
  exists s s', run 2 3 4 WaitAllTaskFinish too_late (pool_init 2 3 Flexible) = Some s /\
    run 2 3 4 WaitAllTaskFinish [Enqueue 0 0] s = Some s' /\ accepted s' = [7] /\ finished s' = finished s /\ finished s = [].
Proof.
  eexists _, _. split; [vm_compute; reflexivity|]. split; [vm_compute; reflexivity|]. split; [reflexivity|]. split; [|reflexivity].
  exact (proj1 (proj2 (closed_pool_final 2 3 4 Flexible WaitAllTaskFinish too_late _ [Enqueue 0 0] _
    ltac:(vm_compute; reflexivity) eq_refl ltac:(vm_compute; reflexivity)))).
Defined.
