(* ===== verification/ConcurrentPool.v ===== *)
(** * The second thread pool: [concurrent_pool.cpp], and the tokens of tasks

    Core threads only, over a queue without locks.  A thread that has had nothing to do for
    [leisureTimeUnit] ends, and a caller that finds that threads have ended makes one anew.
    As in [ThreadPool], a step is what a thread does between two accesses to what it
    shares; the atomics are taken to be sequentially consistent.  Making a thread does not
    fail, and the first commitment makes the pool in one step.

    The pointer [workman] and the thread behind it are not atomic, and [close] takes no
    mutex: when a caller replaces the thread of a place and [close] joins it, and the one is
    not ordered before the other, the behaviour is undefined, whichever comes first.  A call
    that has ended when [close] begins is taken to be ordered before it; one that has not is
    ordered with nothing that [close] does.  So the places that callers have touched since
    [close] began are kept, and the second of two such accesses is [Undef].  Nor is
    [finishState] of a task atomic: a task that was committed twice and is taken in two
    places is [Undef], since nothing orders the one worker's write of it before the other's
    reading; in one place the threads are ordered. *)
From S2P Require Import Prelude ThreadPool.

(** The queue of the library: what is in it, in no order.  [try_dequeue] says which of its
    elements it gives, if it gives one; it may say that the queue is empty when it is not.
    [enqueue] fails when there is no memory.  The size is exact while nobody is at work in
    the queue, as it is between two steps. *)
Class ConcurrentQueue (Q : Type) := {
  queue_new : Q;
  enqueue : Z -> Q -> option Q;
  enqueue_bulk : list Z -> Q -> option Q;
  try_dequeue : nat -> Q -> option (Z * Q);
  size_approx : Q -> Z;
}.
Class ConcurrentQueueLaws (Q : Type) `{ConcurrentQueue Q} (contents : Q -> list Z) : Prop := {
  contents_new : contents queue_new = [];
  contents_enqueue t q q' : enqueue t q = Some q' -> contents q' ≡ₚ t :: contents q;
  contents_bulk l q q' : enqueue_bulk l q = Some q' -> contents q' ≡ₚ l ++ contents q;
  contents_dequeue k t q q' : try_dequeue k q = Some (t, q') -> contents q ≡ₚ t :: contents q';
  size_contents q : size_approx q = Z.of_nat (length (contents q));
}.

(** What a worker's thread is doing, and whether it has been joined. *)
Inductive core_thread :=
| Missing                    (** [nullptr] *)
| Looking                    (** at the head of its loop *)
| Trying                     (** about to ask the queue *)
| Running (task : Z) (run : bool)
| Leaving                    (** not running any more, not yet counted *)
| Ended
| Joined.

Record ConcurrentWorker := CWorker {
  core_isRunning : bool;
  core_workman : core_thread;
  noWorkTime : Z;
  lastRunHaveTask : bool;
}.

Inductive RefuseReason := NoRefuse | CannotExecuteAgain | ThreadPoolHasStoppedRunning | TaskQueueFulled | MemoryNotEnough.
Record CommitResult := Result { isSuccess : bool; refuse_reason : RefuseReason }.

(** A caller that has seen that the pool is open: at the size of the queue, in front of
    [enqueue], with many tasks, or in [tryAddThread]. *)
Inductive caller :=
| Sizing (task : Z)
| Putting (task : Z)
| PuttingMany (tasks : list Z)
| Vacancy
| Locking
| Scanning (i : nat)
| Replacing (i : nat).

(** How far [close] has come. *)
Inductive core_closing := Unclosed | AwaitEmpty | ClearRun | TakeBack | JoinFrom (i : nat) | Terminated.

Record ConcurrentThreadPool {Q : Type} := CPool {
  core_workers : list ConcurrentWorker;
  core_queue : Q;
  core_runState : bool;
  core_stop : bool;               (** [stopCommitState] *)
  vacantSlotCount : Z;
  core_clock : Z;                 (** [GetTick] *)
  callers : list caller;
  core_closer : core_closing;
  core_accepted : list Z;
  core_results : list CommitResult;
  core_took : list (nat * Z);     (** the tasks that were taken, and in which place *)
  core_finished : list Z;
  core_returned : list Z;         (** the result of [close] *)
  core_touched : list nat;        (** places whose thread a caller has replaced since [close] began *)
}.
Arguments ConcurrentThreadPool : clear implicits.
Arguments CPool {Q}.

Definition core_taken {Q} (s : ConcurrentThreadPool Q) : list Z := (core_took s).*2.

(** What a step can come to. *)
Inductive stepped (S : Type) := Went (s : S) | Blocked | Undef.
Arguments Went {S}. Arguments Blocked {S}. Arguments Undef {S}.

Definition went {S} (o : option S) : stepped S := match o with Some s => Went s | None => Blocked end.
Definition s32 (z : Z) : Z := let w := u32 z in if w <? 2 ^ 31 then w else w - 2 ^ 32.

Section Pool.
Context {Q : Type} `{ConcurrentQueue Q}.
Variables (cores : nat) (QueueMaxSize leisureTimeUnit : Z) (closeStrategy : ThreadPoolCloseStrategy).
Abbreviation pool := (ConcurrentThreadPool Q).
Implicit Types s : pool.

Definition with_core_workers w s : pool :=
  CPool w (core_queue s) (core_runState s) (core_stop s) (vacantSlotCount s) (core_clock s) (callers s) (core_closer s)
    (core_accepted s) (core_results s) (core_took s) (core_finished s) (core_returned s) (core_touched s).
Definition with_queue q a t f r s : pool :=
  CPool (core_workers s) q (core_runState s) (core_stop s) (vacantSlotCount s) (core_clock s) (callers s) (core_closer s)
    a (core_results s) t f r (core_touched s).
Definition with_vacant_slots n s : pool :=
  CPool (core_workers s) (core_queue s) (core_runState s) (core_stop s) n (core_clock s) (callers s) (core_closer s)
    (core_accepted s) (core_results s) (core_took s) (core_finished s) (core_returned s) (core_touched s).
Definition with_clock n s : pool :=
  CPool (core_workers s) (core_queue s) (core_runState s) (core_stop s) (vacantSlotCount s) n (callers s) (core_closer s)
    (core_accepted s) (core_results s) (core_took s) (core_finished s) (core_returned s) (core_touched s).
Definition with_callers l r s : pool :=
  CPool (core_workers s) (core_queue s) (core_runState s) (core_stop s) (vacantSlotCount s) (core_clock s) l (core_closer s)
    (core_accepted s) r (core_took s) (core_finished s) (core_returned s) (core_touched s).
Definition with_core_closer run stop c s : pool :=
  CPool (core_workers s) (core_queue s) run stop (vacantSlotCount s) (core_clock s) (callers s) c
    (core_accepted s) (core_results s) (core_took s) (core_finished s) (core_returned s) (core_touched s).

Definition with_touched l s : pool :=
  CPool (core_workers s) (core_queue s) (core_runState s) (core_stop s) (vacantSlotCount s) (core_clock s) (callers s) (core_closer s)
    (core_accepted s) (core_results s) (core_took s) (core_finished s) (core_returned s) l.

Definition on_core (i : nat) (f : ConcurrentWorker -> ConcurrentWorker) s : pool :=
  with_core_workers (alter f i (core_workers s)) s.
Definition now_at (t : core_thread) (w : ConcurrentWorker) : ConcurrentWorker :=
  CWorker (core_isRunning w) t (noWorkTime w) (lastRunHaveTask w).

(** ** [coreRun]

    [pick] is the element the queue gives, or nothing. *)
(** Whether another place has taken a task before. *)
Definition run_elsewhere (i : nat) (t : Z) s : bool :=
  existsb (fun p => (p.2 =? t) && negb (p.1 =? i)%nat) (core_took s).

Definition core_step (i : nat) (pick : option nat) s : stepped pool :=
  match core_workers s !! i with
  | None => Blocked
  | Some w =>
      match core_workman w with
      | Looking => Went (on_core i (now_at (if core_runState s then Trying else Ended)) s)
      | Trying =>
          match pick with
          | Some k =>
              match try_dequeue k (core_queue s) with
              | None => Blocked
              | Some (t, q) =>
                  if run_elsewhere i t s then Undef
                  else
                    Went (with_queue q (core_accepted s) (core_took s ++ [(i, t)]) (core_finished s) (core_returned s)
                      (on_core i (fun w => CWorker (core_isRunning w) (Running t (bool_decide (t ∉ core_finished s))) (noWorkTime w) true) s))
              end
          | None =>
              if lastRunHaveTask w then Went (on_core i (fun w => CWorker (core_isRunning w) Looking (core_clock s) false) s)
              else if leisureTimeUnit <? core_clock s - noWorkTime w then
                Went (on_core i (fun w => CWorker false Leaving (noWorkTime w) (lastRunHaveTask w)) s)
              else Went (on_core i (now_at Looking) s)
          end
      | Running t _ =>
          Went (with_queue (core_queue s) (core_accepted s) (core_took s) (core_finished s ++ [t]) (core_returned s)
            (on_core i (now_at Looking) s))
      | Leaving => Went (with_vacant_slots (vacantSlotCount s + 1) (on_core i (now_at Ended) s))
      | _ => Blocked
      end
  end.

(** ** [commit_executor], [commit_executors] and [tryAddThread] *)
Definition core_commit (single : bool) (tasks : list Z) s : pool :=
  if core_stop s then with_callers (callers s) (core_results s ++ map (fun _ => Result false ThreadPoolHasStoppedRunning) tasks) s
  else with_callers (callers s ++ (if single then map Sizing tasks else [PuttingMany tasks])) (core_results s) s.

(** [workersMutex] is held from the scan to the new thread. *)
Definition holds_mutex (c : caller) : bool := match c with Scanning _ | Replacing _ => true | _ => false end.
Definition mutex_free s : bool := negb (existsb holds_mutex (callers s)).

(** The caller goes on as [c]; the caller is done. *)
Definition goes_on (k : nat) (c : caller) s : pool := with_callers (<[k := c]> (callers s)) (core_results s) s.
Definition goes_home (k : nat) (r : list CommitResult) s : pool :=
  with_callers (delete k (callers s)) (core_results s ++ r) s.
Definition succeeds (tasks : list Z) : list CommitResult := map (fun _ => Result true NoRefuse) tasks.
Definition accepts (q : Q) (tasks : list Z) s : pool :=
  with_queue q (core_accepted s ++ tasks) (core_took s) (core_finished s) (core_returned s) s.

Definition fresh_worker (w : ConcurrentWorker) : ConcurrentWorker := CWorker true Looking (noWorkTime w) true.

(** Whether [close] has been at a place, and a place that a caller has been at. *)
Definition close_passed (i : nat) s : bool :=
  match core_closer s with JoinFrom j => (i <? j)%nat | Terminated => true | _ => false end.
Definition touches (i : nat) s : pool :=
  match core_closer s with Unclosed => s | _ => with_touched (i :: core_touched s) s end.

(** The number of elements [enqueue_bulk] is told to copy from the beginning of the tasks. *)
Definition leftSlot s : Z := u64 (s32 (QueueMaxSize - size_approx (core_queue s))).

Definition caller_step (k : nat) s : stepped pool :=
  match callers s !! k with
  | None => Blocked
  | Some (Sizing t) =>
      Went (if size_approx (core_queue s) <? QueueMaxSize then goes_on k (Putting t) s
            else goes_home k [Result false TaskQueueFulled] s)
  | Some (Putting t) =>
      Went match enqueue t (core_queue s) with
           | Some q => with_callers (<[k := Vacancy]> (callers s)) (core_results s ++ succeeds [t]) (accepts q [t] s)
           | None => goes_home k [Result false MemoryNotEnough] s
           end
  | Some (PuttingMany tasks) =>
      if Z.of_nat (length tasks) <? leftSlot s then Undef
      else
        let copied := take (Z.to_nat (leftSlot s)) tasks in
        Went match enqueue_bulk copied (core_queue s) with
             | Some q => with_callers (<[k := Vacancy]> (callers s)) (core_results s ++ succeeds tasks) (accepts q copied s)
             | None => goes_home k (map (fun _ => Result false MemoryNotEnough) tasks) s
             end
  | Some Vacancy => Went (if 0 <? vacantSlotCount s then goes_on k Locking s else goes_home k [] s)
  | Some Locking => if mutex_free s then Went (goes_on k (Scanning 0) s) else Blocked
  | Some (Scanning i) =>
      match core_workers s !! i with
      | Some w => Went (goes_on k (if core_isRunning w then Scanning (S i) else Replacing i) s)
      | None => Went (goes_home k [] s)
      end
  | Some (Replacing i) =>
      match core_workers s !! i with
      | Some w =>
          if close_passed i s then Undef
          else
            match core_workman w with
            | Ended | Joined | Missing => Went (goes_home k [] (touches i (on_core i fresh_worker s)))
            | _ => Blocked
            end
      | None => Blocked
      end
  end.

(** ** [close] *)
Definition core_close_step (pick : option nat) s : stepped pool :=
  match core_closer s with
  | Unclosed =>
      Went (with_core_closer (core_runState s) true
        (if decide (closeStrategy = WaitAllTaskFinish) then AwaitEmpty else ClearRun) s)
  | AwaitEmpty =>
      Went (if size_approx (core_queue s) =? 0 then with_core_closer (core_runState s) (core_stop s) ClearRun s else s)
  | ClearRun =>
      Went (with_core_closer false (core_stop s) (if decide (closeStrategy = WaitAllTaskFinish) then JoinFrom 0 else TakeBack) s)
  | TakeBack =>
      match pick with
      | Some k =>
          went ('(t, q) ← try_dequeue k (core_queue s);
                Some (with_queue q (core_accepted s) (core_took s) (core_finished s) (core_returned s ++ [t]) s))
      | None => Went (with_core_closer (core_runState s) (core_stop s) (JoinFrom 0) s)
      end
  | JoinFrom i =>
      match core_workers s !! i with
      | None => Went (with_core_closer (core_runState s) (core_stop s) Terminated s)
      | Some w =>
          if decide (i ∈ core_touched s) then Undef
          else
            match core_workman w with
            | Ended => Went (with_core_closer (core_runState s) (core_stop s) (JoinFrom (S i)) (on_core i (now_at Joined) s))
            | Joined | Missing => Went (with_core_closer (core_runState s) (core_stop s) (JoinFrom (S i)) s)
            | _ => Blocked
            end
      end
  | Terminated => Blocked
  end.

(** ** The machine *)
Definition core_init (now : Z) : pool :=
  CPool (replicate cores (CWorker true Looking 0 true)) queue_new true false 0 now [] Unclosed [] [] [] [] [] [].

Inductive core_move :=
| CWork (i : nat) (pick : option nat)
| CCommit (single : bool) (tasks : list Z)
| CCall (k : nat)
| CClose (pick : option nat)
| CTick (d : nat).

Definition core_machine (m : core_move) s : stepped pool :=
  match m with
  | CWork i pick => core_step i pick s
  | CCommit single tasks => if single && negb (length tasks =? 1)%nat then Blocked else Went (core_commit single tasks s)
  | CCall k => caller_step k s
  | CClose pick => core_close_step pick s
  | CTick d => Went (with_clock (core_clock s + Z.of_nat d) s)
  end.

Fixpoint core_run (ms : list core_move) s : stepped pool :=
  match ms with
  | [] => Went s
  | m :: ms => match core_machine m s with Went s => core_run ms s | r => r end
  end.
End Pool.

(** ** Tasks and their results: [executor.h], [executor_token.h]

    A token is a task of a pool together with the future of its result.  The task is a
    packaged task: running it stores its result or its exception and throws nothing, but
    running it again throws.  The future waits for the result and gives it once. *)

(** What the task and the future share. *)
Inductive shared_state {R : Type} := Pending | Ready (v : R) | Failed.
Arguments shared_state : clear implicits.
Arguments Pending {R}.  Arguments Ready {R}.  Arguments Failed {R}.

(** Neither [haveException] nor [token_value] is initialised. *)
Record ExecutorToken {R : Type} := Token {
  finishState : bool;
  discardState : bool;
  haveException : bool;
  result_state : shared_state R;
  got : bool;                  (** the future has been asked *)
  token_value : R;
  isGetValue : bool;
}.
Arguments ExecutorToken : clear implicits.
Arguments Token {R}.

(** A call that waits for ever is [None]. *)
Section Tokens.
Context {R : Type}.
Implicit Types t : ExecutorToken R.

Definition make_executor (e : bool) (uninitialised : R) : ExecutorToken R := Token false false e Pending false uninitialised false.

(** A worker with the task in its hands; [outcome] is what the function does, nothing when
    it throws. *)
Definition run_task (outcome : option R) t : ExecutorToken R :=
  if finishState t then t
  else
    match result_state t with
    | Pending => Token true (discardState t) (haveException t) (match outcome with Some v => Ready v | None => Failed end)
                   (got t) (token_value t) (isGetValue t)
    | _ => Token true (discardState t) true (result_state t) (got t) (token_value t) (isGetValue t)
    end.

(** [close] of a pool that drops its tasks. *)
Definition discard_task t : ExecutorToken R :=
  Token (finishState t) true (haveException t) (result_state t) (got t) (token_value t) (isGetValue t).

Definition isFinish t : bool := finishState t.
Definition isDiscard t : bool := discardState t.

Definition isError t : option (bool * ExecutorToken R) :=
  if isGetValue t then Some (haveException t, t)
  else
    let with_result v e := Token (finishState t) (discardState t) e (result_state t) true v true in
    if got t then Some (true, with_result (token_value t) true)
    else
      match result_state t with
      | Pending => None
      | Ready v => Some (haveException t, with_result v (haveException t))
      | Failed => Some (true, with_result (token_value t) true)
      end.

Definition get t : option (R * ExecutorToken R) :=
  '(_, t) ← isError t; Some (token_value t, t).

(** ** What a token tells *)

(** The calls of a token after its task. *)
Inductive token_call := AskError | AskValue | Discard | RunAgain (outcome : option R).
Definition call_token (c : token_call) t : option (ExecutorToken R) :=
  match c with
  | AskError => snd <$> isError t
  | AskValue => snd <$> get t
  | Discard => Some (discard_task t)
  | RunAgain outcome => Some (run_task outcome t)
  end.
Fixpoint call_tokens (cs : list token_call) t : option (ExecutorToken R) :=
  match cs with
  | [] => Some t
  | c :: cs => t ← call_token c t; call_tokens cs t
  end.

(** What [isError] says of a task that has come to [outcome]. *)
Definition says (e : bool) (outcome : option R) : bool := match outcome with Some _ => e | None => true end.

(** A token whose task has come to [outcome], whether it has been asked yet or not; [e] and
    [u] are what its members were when it was made. *)
Record tells (outcome : option R) (e : bool) (u : R) t : Prop := {
  tells_finish : finishState t = true;
  tells_state : result_state t = match outcome with Some v => Ready v | None => Failed end;
  tells_asked : if isGetValue t then haveException t = says e outcome /\ token_value t = default u outcome
                else haveException t = e /\ got t = false /\ token_value t = u;
}.

Lemma tells_error outcome e u t : tells outcome e u t ->
  exists t', isError t = Some (says e outcome, t') /\ tells outcome e u t' /\ token_value t' = default u outcome.
Proof.
  intros [Hf Hs Ha]. unfold isError. destruct (isGetValue t) eqn:Eg.
  - destruct Ha as [He Hv]. exists t. rewrite He. split; [done|]. split; [|done]. constructor; [done..|]. by rewrite Eg.
  - destruct Ha as (He & Hg & Hv). rewrite Hg, Hs. destruct outcome as [v|]; rewrite ?He; eexists;
      (split; [reflexivity|]); (split; [|done]); by constructor.
Qed.

Lemma tells_call outcome e u c t : tells outcome e u t -> exists t', call_token c t = Some t' /\ tells outcome e u t'.
Proof.
  intros Ht. destruct c; cbn [call_token].
  - destruct (tells_error outcome e u t Ht) as (t' & -> & Ht' & _). by exists t'.
  - unfold get. destruct (tells_error outcome e u t Ht) as (t' & -> & Ht' & _). by exists t'.
  - eexists. split; [reflexivity|]. destruct Ht. by constructor.
  - eexists. split; [reflexivity|]. unfold run_task. by rewrite (tells_finish _ _ _ _ Ht).
Qed.

(** Once the task has been run, a token gives its result whatever it is asked, as often as
    it is asked, and even if the task is run or dropped again.  After an exception
    [isError] is true, and [get] throws nothing and gives a value that was never set;
    without one [isError] is what was in the memory of the token when it was made. *)
Theorem token_tells outcome e u cs : exists t, call_tokens cs (run_task outcome (make_executor e u)) = Some t /\
  isFinish t = true /\ (fst <$> isError t) = Some (says e outcome) /\ (fst <$> get t) = Some (default u outcome).
Proof.
  assert (H : forall t, tells outcome e u t -> exists t', call_tokens cs t = Some t' /\ tells outcome e u t').
  { induction cs as [|c cs IH]; intros t Ht; [by exists t|]. cbn [call_tokens].
    destruct (tells_call outcome e u c t Ht) as (t1 & -> & Ht1). exact (IH t1 Ht1). }
  destruct (H (run_task outcome (make_executor e u))) as (t & E & Ht); [by constructor|]. exists t. split; [exact E|].
  split; [by destruct Ht|]. unfold get. destruct (tells_error outcome e u t Ht) as (t' & -> & _ & Hv). cbn. by rewrite Hv.
Qed.

(** The token keeps the packaged task alive, so that the promise of a task that was dropped
    is never broken: whoever asks for its result waits for ever. *)
Theorem discarded_token_waits e u : let t := discard_task (make_executor e u) in
  isDiscard t = true /\ isError t = None /\ get t = None.
Proof. done. Qed.
End Tokens.
