(* ===== verification/ConcurrentPoolTheorems.v ===== *)
(** * What the second thread pool keeps, and what it does not

    No task that was accepted is lost or taken twice, and as long as tasks are committed
    one by one and once, and [close] waits for the calls that are under way, nothing
    undefined happens.  A commitment of many tasks is right only when it fills the queue exactly.  A
    task can be accepted that nobody will ever run, and [close] then waits for ever; and
    [close] races with a caller that makes a thread. *)
From S2P Require Import Prelude ThreadPool ThreadPoolTheorems ConcurrentPool.

Definition core_task (w : ConcurrentWorker) : list Z := match core_workman w with Running t _ => [t] | _ => [] end.
Definition at_work (ws : list ConcurrentWorker) : list Z := ws ≫= core_task.

Section Theorems.
Context {Q : Type} {contents : Q -> list Z} `{QL : ConcurrentQueueLaws Q contents}.
Variables (cores : nat) (QueueMaxSize leisureTimeUnit : Z) (closeStrategy : ThreadPoolCloseStrategy).
Abbreviation pool := (ConcurrentThreadPool Q).
Implicit Types s : pool.
Abbreviation runs := (core_run QueueMaxSize leisureTimeUnit closeStrategy).
Abbreviation machine := (core_machine QueueMaxSize leisureTimeUnit closeStrategy).

(** ** Tasks *)
Record conserved s : Prop := {
  conserved_accepted : core_accepted s ≡ₚ core_taken s ++ contents (core_queue s) ++ core_returned s;
  conserved_taken : core_taken s ≡ₚ core_finished s ++ at_work (core_workers s);
  conserved_vacant : 0 <= vacantSlotCount s;
}.

Lemma at_work_alter f (ws : list ConcurrentWorker) i w : ws !! i = Some w ->
  exists l, at_work ws ≡ₚ core_task w ++ l /\ at_work (alter f i ws) ≡ₚ core_task (f w) ++ l.
Proof. apply bind_alter. Qed.

(** A worker that neither takes nor finishes anything. *)
Lemma conserved_on_core i f s w : core_workers s !! i = Some w -> core_task (f w) = core_task w -> conserved s -> conserved (on_core i f s).
Proof.
  intros Hw Hf [Ha Ht Hv]. constructor; [exact Ha| |exact Hv]. cbn.
  destruct (at_work_alter f _ i w Hw) as (l & E1 & E2). by rewrite E2, Hf, <-E1.
Qed.

Lemma core_taken_snoc q a i t f r s s0 :
  core_taken (with_queue q a (core_took s ++ [(i, t)]) f r s0) = core_taken s ++ [t].
Proof. unfold core_taken. cbn. by rewrite fmap_app. Qed.

Lemma core_step_conserved i pick s s' : conserved s -> core_step leisureTimeUnit i pick s = Went s' -> conserved s'.
Proof.
  intros Hc E. unfold core_step in E. destruct (core_workers s !! i) as [w|] eqn:Hw; [|done].
  destruct (core_workman w) eqn:Ht; try done.
  - injection E as <-. eapply conserved_on_core; [exact Hw| |done]. unfold core_task, now_at. rewrite Ht. by destruct (core_runState s).
  - destruct pick as [k|].
    + destruct (try_dequeue k (core_queue s)) as [[t q]|] eqn:Ed; [|done]. destruct (run_elsewhere i t s); [done|]. injection E as <-.
      destruct Hc as [Ha Htk Hv]. apply contents_dequeue in Ed.
      match goal with |- context [on_core i ?f s] => destruct (at_work_alter f _ i w Hw) as (l & E1 & E2) end.
      constructor; rewrite ?core_taken_snoc; cbn; [| |exact Hv].
      * by rewrite Ha, Ed, <-!app_assoc.
      * rewrite Htk, E2, E1. unfold core_task at 1. rewrite Ht. cbn. rewrite <-app_assoc. f_equiv. by rewrite Permutation_app_comm.
    + destruct (lastRunHaveTask w); [|destruct (_ <? _)]; injection E as <-;
        (eapply conserved_on_core; [exact Hw| |done]); unfold core_task; by rewrite Ht.
  - injection E as <-. destruct Hc as [Ha Htk Hv]. destruct (at_work_alter (now_at Looking) _ i w Hw) as (l & E1 & E2).
    constructor; [exact Ha| |exact Hv]. change (core_taken (with_queue _ _ _ _ _ _)) with (core_taken s).
    cbn. rewrite Htk, E2, E1. unfold core_task at 1. rewrite Ht. cbn. by rewrite <-app_assoc.
  - injection E as <-. destruct Hc as [Ha Htk Hv]. destruct (at_work_alter (now_at Ended) _ i w Hw) as (l & E1 & E2).
    constructor; cbn; [exact Ha| |lia]. change (core_taken (with_vacant_slots _ _)) with (core_taken s).
    rewrite Htk, E2, E1. unfold core_task at 1. by rewrite Ht.
Qed.

Lemma conserved_callers l r s : conserved s -> conserved (with_callers l r s).
Proof. intros [Ha Ht Hv]. by constructor. Qed.

Lemma conserved_touches i s : conserved s -> conserved (touches i s).
Proof. intros [Ha Ht Hv]. unfold touches. by destruct (core_closer s). Qed.

Lemma accepts_conserved l q s : contents q ≡ₚ l ++ contents (core_queue s) -> conserved s -> conserved (accepts q l s).
Proof.
  intros Hq [Ha Ht Hv]. constructor; cbn; [|exact Ht|exact Hv]. change (core_took s).*2 with (core_taken s).
  rewrite Hq, Ha, <-(app_assoc (core_taken s)). f_equiv. by rewrite Permutation_app_comm, app_assoc.
Qed.

Lemma caller_conserved k s s' : conserved s -> caller_step QueueMaxSize k s = Went s' -> conserved s'.
Proof.
  intros Hc E. unfold caller_step in E. destruct (callers s !! k) as [[t|t|ts| | |i|i]|]; [..|done].
  - injection E as <-. destruct (_ <? _); by apply conserved_callers.
  - injection E as <-. destruct (enqueue t (core_queue s)) as [q|] eqn:Eq; apply conserved_callers; [|done].
    apply accepts_conserved; [by apply contents_enqueue in Eq|done].
  - destruct (_ <? leftSlot _ _); [done|]. injection E as <-.
    destruct (enqueue_bulk _ _) as [q|] eqn:Eq; apply conserved_callers; [|done].
    apply accepts_conserved; [by apply contents_bulk in Eq|done].
  - injection E as <-. destruct (_ <? _); by apply conserved_callers.
  - destruct (mutex_free s); [|done]. injection E as <-. by apply conserved_callers.
  - destruct (core_workers s !! i) as [w|]; injection E as <-; by apply conserved_callers.
  - destruct (core_workers s !! i) as [w|] eqn:Hw; [|done].
    assert (Hf : core_task w = [] -> conserved (goes_home k [] (touches i (on_core i fresh_worker s)))).
    { intros Ht. apply conserved_callers, conserved_touches. eapply conserved_on_core; [exact Hw|by rewrite Ht|done]. }
    destruct (close_passed i s); [done|]. unfold core_task in Hf. destruct (core_workman w); try done; injection E as <-; by apply Hf.
Qed.

Lemma close_conserved pick s s' : conserved s -> core_close_step closeStrategy pick s = Went s' -> conserved s'.
Proof.
  intros Hc E. pose proof Hc as [Ha Ht Hv]. unfold core_close_step in E. destruct (core_closer s) as [| | | |i|]; [..|done].
  - injection E as <-. by constructor.
  - injection E as <-. destruct (_ =? 0); [by constructor|done].
  - injection E as <-. by constructor.
  - destruct pick as [k|]; [|injection E as <-; by constructor].
    destruct (try_dequeue k (core_queue s)) as [[t q]|] eqn:Ed; [|done]. injection E as <-. apply contents_dequeue in Ed.
    constructor; cbn; [|exact Ht|exact Hv]. change (core_took s).*2 with (core_taken s). rewrite Ha, Ed, <-app_comm_cons. f_equiv.
    rewrite app_assoc. by rewrite <-Permutation_cons_append.
  - destruct (core_workers s !! i) as [w|] eqn:Hw; [|injection E as <-; by constructor].
    assert (Hj : core_task w = [] -> conserved (on_core i (now_at Joined) s)).
    { intros Hn. eapply conserved_on_core; [exact Hw|by rewrite Hn|done]. }
    destruct (decide (i ∈ core_touched s)); [done|].
    unfold core_task in Hj. destruct (core_workman w); try done; injection E as <-; [by constructor| |by constructor].
    destruct (Hj eq_refl). by constructor.
Qed.

Lemma machine_conserved m s s' : conserved s -> machine m s = Went s' -> conserved s'.
Proof.
  intros Hc E. destruct m as [i pick|single ts|k|pick|d]; cbn [core_machine] in E.
  - by eapply core_step_conserved.
  - destruct (single && _); [done|]. injection E as <-. unfold core_commit. destruct (core_stop s); by apply conserved_callers.
  - by eapply caller_conserved.
  - by eapply close_conserved.
  - injection E as <-. destruct Hc. by constructor.
Qed.

Lemma init_conserved now : conserved (core_init cores now).
Proof.
  constructor; cbn; [by rewrite contents_new| |done].
  unfold at_work. induction cores as [|n IH]; [done|]. cbn [replicate]. by rewrite bind_cons.
Qed.

Lemma runs_conserved ms s s' : conserved s -> runs ms s = Went s' -> conserved s'.
Proof.
  revert s. induction ms as [|m ms IH]; intros s Hc E; cbn in E; [by injection E as <-|].
  destruct (machine m s) as [s1| |] eqn:Em; [|done..]. eapply IH; [|exact E]. by eapply machine_conserved.
Qed.

(** ** Tasks one by one *)

(** Nobody commits many tasks. *)
Definition one_by_one (l : list caller) : Prop := forall ts, PuttingMany ts ∉ l.
Definition single_move (m : core_move) : Prop := match m with CCommit single _ => single = true | _ => True end.

Lemma one_by_one_insert k c l : one_by_one l -> (forall ts, c <> PuttingMany ts) -> one_by_one (<[k := c]> l).
Proof.
  intros Hl Hc ts Hin. apply list_elem_of_lookup_1 in Hin as [j Hj]. apply list_lookup_insert_Some in Hj as [(_ & E & _)|[_ Hj]].
  - by apply (Hc ts).
  - eapply Hl, list_elem_of_lookup_2, Hj.
Qed.
Lemma one_by_one_delete k l : one_by_one l -> one_by_one (delete k l).
Proof.
  intros Hl ts Hin. apply (Hl ts). rewrite delete_take_drop, elem_of_app in Hin.
  destruct Hin as [Hin|Hin]; [eapply elem_of_take in Hin as (i & Hi & _)|apply list_elem_of_lookup_1 in Hin as [i Hi]; rewrite lookup_drop in Hi];
    eapply list_elem_of_lookup_2, Hi.
Qed.

(** ** Every task once *)
Definition caller_tasks (c : caller) : list Z :=
  match c with Sizing t | Putting t => [t] | PuttingMany ts => ts | _ => [] end.
Definition under_way (l : list caller) : list Z := l ≫= caller_tasks.
Definition move_tasks (m : core_move) : list Z := match m with CCommit _ ts => ts | _ => [] end.
Definition committed (ms : list core_move) : list Z := ms ≫= move_tasks.

(** No task is in the hands of a caller, accepted or still to come more than once. *)
Definition distinct (future : list Z) s : Prop := NoDup (under_way (callers s) ++ core_accepted s ++ future).

Lemma under_way_at l k c : l !! k = Some c -> exists rest, under_way l ≡ₚ caller_tasks c ++ rest /\
  (forall c', under_way (<[k := c']> l) ≡ₚ caller_tasks c' ++ rest) /\ under_way (delete k l) ≡ₚ rest.
Proof.
  intros Hk. assert (Hlt : (k < length l)%nat) by by eapply lookup_lt_Some.
  exists (under_way (take k l) ++ under_way (drop (S k) l)). unfold under_way. split; [|split].
  - rewrite <-(take_drop_middle l k c Hk) at 1. rewrite bind_app, bind_cons, !app_assoc. f_equiv. by rewrite Permutation_app_comm.
  - intros c'. rewrite insert_take_drop by done. rewrite bind_app, bind_cons, !app_assoc. f_equiv. by rewrite Permutation_app_comm.
  - by rewrite delete_take_drop, bind_app.
Qed.

(** A caller that goes on, with tasks that it had, some of which may now be accepted. *)
Lemma distinct_step future l l' a a' :
  (exists dropped, under_way l ++ a ≡ₚ dropped ++ under_way l' ++ a') ->
  NoDup (under_way l ++ a ++ future) -> NoDup (under_way l' ++ a' ++ future).
Proof.
  intros [dropped Hp]. rewrite !app_assoc, Hp. rewrite <-!app_assoc. intros Hn.
  by apply NoDup_app in Hn as (_ & _ & Hn).
Qed.

Lemma distinct_caller future k s s' : distinct future s -> caller_step QueueMaxSize k s = Went s' -> distinct future s'.
Proof.
  unfold distinct. intros Hd E. unfold caller_step in E. destruct (callers s !! k) as [c|] eqn:Hk; [|done].
  destruct (under_way_at _ _ _ Hk) as (rest & E1 & E2 & E3).
  assert (Hgo : forall c' s1, callers s1 = callers s -> core_accepted s1 = core_accepted s ->
    (exists dropped, caller_tasks c ≡ₚ dropped ++ caller_tasks c') ->
    NoDup (under_way (callers (goes_on k c' s1)) ++ core_accepted (goes_on k c' s1) ++ future)).
  { intros c' s1 El Ea [dropped Hp]. eapply distinct_step; [|exact Hd]. exists dropped. cbn. rewrite El, Ea, E1, E2, Hp.
    by rewrite <-!app_assoc. }
  assert (Hhome : forall r s1, callers s1 = callers s -> core_accepted s1 = core_accepted s ->
    NoDup (under_way (callers (goes_home k r s1)) ++ core_accepted (goes_home k r s1) ++ future)).
  { intros r s1 El Ea. eapply distinct_step; [|exact Hd]. exists (caller_tasks c). cbn. by rewrite El, Ea, E1, E3, <-app_assoc. }
  assert (Hput : forall ts q r, (exists dropped, caller_tasks c ≡ₚ dropped ++ ts) ->
    NoDup (under_way (callers (with_callers (<[k := Vacancy]> (callers s)) r (accepts q ts s))) ++ (core_accepted s ++ ts) ++ future)).
  { intros ts q r [dropped Hp]. eapply distinct_step; [|exact Hd]. exists dropped. cbn. rewrite E1, E2, Hp. cbn. solve_Permutation. }
  destruct c as [t|t|ts| | |i|i].
  - injection E as <-. destruct (_ <? _); [apply Hgo; try done; by exists []|by apply Hhome].
  - injection E as <-. destruct (enqueue t _) as [q|]; [|by apply Hhome]. apply Hput. by exists [].
  - destruct (_ <? leftSlot _ _); [done|]. injection E as <-. destruct (enqueue_bulk _ _) as [q|]; [|by apply Hhome].
    apply Hput. exists (drop (Z.to_nat (leftSlot QueueMaxSize s)) ts). cbn. by rewrite Permutation_app_comm, take_drop.
  - injection E as <-. destruct (_ <? _); [apply Hgo; try done; by exists []|by apply Hhome].
  - destruct (mutex_free s); [|done]. injection E as <-. apply Hgo; try done. by exists [].
  - destruct (core_workers s !! i) as [w|]; injection E as <-; [|by apply Hhome]. apply Hgo; try done. exists [].
    by destruct (core_isRunning w).
  - destruct (core_workers s !! i) as [w|]; [|done]. destruct (close_passed i s); [done|].
    assert (callers (touches i (on_core i fresh_worker s)) = callers s /\
      core_accepted (touches i (on_core i fresh_worker s)) = core_accepted s) as [Hc Ha].
    { unfold touches. by destruct (core_closer (on_core i fresh_worker s)). }
    destruct (core_workman w); try done; injection E as <-; by apply Hhome.
Qed.

Lemma distinct_machine m future s s' : distinct (move_tasks m ++ future) s -> machine m s = Went s' -> distinct future s'.
Proof.
  intros Hd E. destruct m as [i pick|single ts|k|pick|d]; cbn [core_machine move_tasks app] in *.
  - unfold core_step in E. destruct (core_workers s !! i) as [w|]; [|done]. unfold distinct in *.
    destruct (core_workman w); try done; [by injection E as <-| |by injection E as <-..].
    destruct pick as [k|]; [destruct (try_dequeue _ _) as [[t q]|]; [|done]; destruct (run_elsewhere i t s); [done|]; by injection E as <-|].
    destruct (lastRunHaveTask w); [by injection E as <-|]. destruct (_ <? _); by injection E as <-.
  - destruct (single && _); [done|]. injection E as <-. unfold core_commit, distinct in *.
    assert (Hdrop : NoDup (under_way (callers s) ++ core_accepted s ++ future)).
    { rewrite app_assoc in Hd |- *. apply NoDup_app in Hd as (H1 & H2 & H3). apply NoDup_app in H3 as (_ & _ & H3).
      apply NoDup_app. split; [done|]. split; [|done]. intros x Hx Hf. apply (H2 x Hx), elem_of_app. by right. }
    destruct (core_stop s); [exact Hdrop|].
    assert (El : under_way (callers (with_callers (callers s ++ (if single then map Sizing ts else [PuttingMany ts])) (core_results s) s))
      = under_way (callers s) ++ ts).
    { cbn. unfold under_way. rewrite bind_app. f_equal. destruct single; [|cbn; by rewrite app_nil_r].
      clear. induction ts as [|t ts IH]; [done|]. cbn [map]. rewrite bind_cons, IH. done. }
    rewrite El. cbn [core_accepted with_callers]. rewrite <-app_assoc. rewrite (app_assoc ts), (Permutation_app_comm ts).
    by rewrite <-app_assoc.
  - by eapply distinct_caller.
  - unfold distinct, core_close_step in *. destruct (core_closer s) as [| | | |i|]; [..|done]; [by injection E as <-| |by injection E as <-| |].
    + injection E as <-. by destruct (_ =? 0).
    + destruct pick as [k|]; [|by injection E as <-]. destruct (try_dequeue _ _) as [[t q]|]; [|done]. by injection E as <-.
    + destruct (core_workers s !! i) as [w|]; [|by injection E as <-]. destruct (decide _); [done|].
      destruct (core_workman w); try done; by injection E as <-.
  - by injection E as <-.
Qed.

(** Then what a worker takes nobody has taken before. *)
Lemma taken_once k t q s i future : conserved s -> distinct future s -> try_dequeue k (core_queue s) = Some (t, q) ->
  run_elsewhere i t s = false.
Proof.
  intros [Ha _ _] Hd Ed%contents_dequeue. unfold distinct in Hd.
  apply NoDup_app in Hd as (_ & _ & Hd). apply NoDup_app in Hd as (Hd & _ & _).
  rewrite Ha in Hd. apply NoDup_app in Hd as (_ & Hd & _).
  apply not_true_is_false. intros Hr. unfold run_elsewhere in Hr.
  apply existsb_exists in Hr as ([j t'] & Hin%list_elem_of_In & [E%Z.eqb_eq _]%andb_true_iff). cbn in E. subst t'.
  apply (Hd t); [by apply (list_elem_of_fmap_2 snd) in Hin|]. apply elem_of_app. left. rewrite Ed. by left.
Qed.

(** ** No call under way when [close] begins *)
Definition may_close (m : core_move) s : bool :=
  match m, core_closer s, callers s with CClose _, Unclosed, _ :: _ => false | _, _, _ => true end.
Fixpoint closes_in_order (ms : list core_move) s : bool :=
  match ms with
  | [] => true
  | m :: ms => may_close m s && match machine m s with Went s' => closes_in_order ms s' | _ => true end
  end.

(** Then no place is touched by a caller and by [close]. *)
Record orderly s : Prop := {
  orderly_single : one_by_one (callers s);
  orderly_touched : core_touched s = [];
  orderly_closing : core_closer s = Unclosed \/ callers s = [] /\ core_stop s = true;
}.

Lemma orderly_caller k s : orderly s -> caller_step QueueMaxSize k s <> Undef /\
  forall s', caller_step QueueMaxSize k s = Went s' -> orderly s'.
Proof.
  intros [Hl Ht [Hc|[Hc _]]]; unfold caller_step; [|by rewrite Hc].
  destruct (callers s !! k) as [c|] eqn:Hk; [|done].
  assert (Hgo : forall c' s1, core_touched s1 = [] -> core_closer s1 = Unclosed -> callers s1 = callers s ->
    (forall ts, c' <> PuttingMany ts) -> orderly (goes_on k c' s1))
    by (intros c' s1 Ht1 Hc1 E Hn; constructor; [cbn; rewrite E; by apply one_by_one_insert|done|by left]).
  assert (Hhome : forall r s1, core_touched s1 = [] -> core_closer s1 = Unclosed -> callers s1 = callers s ->
    orderly (goes_home k r s1))
    by (intros r s1 Ht1 Hc1 E; constructor; [cbn; rewrite E; by apply one_by_one_delete|done|by left]).
  destruct c as [t|t|ts| | |i|i].
  - split; [done|]. intros s' [= <-]. destruct (_ <? _); [by apply Hgo|by apply Hhome].
  - split; [done|]. intros s' [= <-]. destruct (enqueue t _) as [q|]; [|by apply Hhome].
    constructor; [by apply one_by_one_insert|done|by left].
  - exfalso. eapply Hl, list_elem_of_lookup_2, Hk.
  - split; [done|]. intros s' [= <-]. destruct (_ <? _); [by apply Hgo|by apply Hhome].
  - destruct (mutex_free s); [|done]. split; [done|]. intros s' [= <-]. by apply Hgo.
  - destruct (core_workers s !! i) as [w|]; (split; [done|]); intros s' [= <-]; [|by apply Hhome].
    apply Hgo; [done..|]. by destruct (core_isRunning w).
  - destruct (core_workers s !! i) as [w|]; [|done]. unfold close_passed, touches.
    change (core_closer (on_core i fresh_worker s)) with (core_closer s). rewrite Hc.
    destruct (core_workman w); (split; [done|]); intros s' E; try done; injection E as <-; by apply Hhome.
Qed.

Lemma orderly_work future i pick s : conserved s -> distinct future s -> orderly s ->
  core_step leisureTimeUnit i pick s <> Undef /\
  forall s', core_step leisureTimeUnit i pick s = Went s' -> orderly s'.
Proof.
  intros Hcs Hd [Hl Ht Hc]. unfold core_step. destruct (core_workers s !! i) as [w|]; [|done].
  assert (Hall : forall s1, callers s1 = callers s -> core_touched s1 = core_touched s -> core_closer s1 = core_closer s ->
    core_stop s1 = core_stop s -> @Went pool s1 <> Undef /\ forall s', Went s1 = Went s' -> orderly s').
  { intros s1 E1 E2 E3 E4. split; [done|]. intros s' [= <-]. constructor; rewrite ?E1, ?E2, ?E3, ?E4; done. }
  destruct (core_workman w); try done; try by apply Hall.
  destruct pick as [k|].
  - destruct (try_dequeue _ _) as [[t q]|] eqn:Ed; [|done]. rewrite (taken_once _ _ _ _ _ _ Hcs Hd Ed). by apply Hall.
  - destruct (lastRunHaveTask w); [by apply Hall|]. destruct (_ <? _); by apply Hall.
Qed.

Lemma orderly_close pick s : may_close (CClose pick) s = true -> orderly s ->
  core_close_step closeStrategy pick s <> Undef /\
  forall s', core_close_step closeStrategy pick s = Went s' -> orderly s'.
Proof.
  intros Hm [Hl Ht Hc]. unfold core_close_step, may_close in *. destruct (core_closer s) as [| | | |i|] eqn:Ec.
  - split; [done|]. intros s' [= <-]. constructor; [done..|]. right. cbn. by destruct (callers s).
  - destruct Hc as [|[Hc Hst]]; [done|]. split; [done|]. intros s' [= <-].
    destruct (_ =? 0); constructor; try done; by right.
  - destruct Hc as [|[Hc Hst]]; [done|]. split; [done|]. intros s' [= <-]. constructor; try done; by right.
  - destruct Hc as [|[Hc Hst]]; [done|]. destruct pick as [k|].
    + destruct (try_dequeue _ _) as [[t q]|]; cbn [mbind option_bind went]; [|done]. split; [done|]. intros s' [= <-].
      constructor; try done; by right.
    + split; [done|]. intros s' [= <-]. constructor; try done; by right.
  - destruct Hc as [|[Hc Hst]]; [done|].
    destruct (core_workers s !! i) as [w|]; [|split; [done|]; intros s' [= <-]; constructor; try done; by right].
    rewrite decide_False by (rewrite Ht; apply not_elem_of_nil).
    destruct (core_workman w); (split; [done|]); intros s' E; try done; injection E as <-; constructor; try done; by right.
  - done.
Qed.

Lemma orderly_machine future m s : single_move m -> may_close m s = true -> conserved s -> distinct future s -> orderly s ->
  machine m s <> Undef /\ forall s', machine m s = Went s' -> orderly s'.
Proof.
  intros Hm Hmay Hcs Hd Ho. destruct m as [i pick|single ts|k|pick|d]; cbn [core_machine].
  - by eapply orderly_work.
  - simpl in Hm. subst single. destruct (_ && _); [done|]. split; [done|]. intros s' [= <-]. unfold core_commit.
    destruct Ho as [Hl Ht Hc]. destruct (core_stop s) eqn:Est; constructor; try done; cbn.
    + destruct Hc as [Hc|[Hc _]]; [by left|by right].
    + intros ts'. rewrite elem_of_app. intros [Hin|Hin]; [by apply (Hl ts')|].
      by apply list_elem_of_fmap in Hin as (t & ? & _).
    + destruct Hc as [Hc|[_ ?]]; [by left|congruence].
  - by apply orderly_caller.
  - by eapply orderly_close.
  - split; [done|]. intros s' [= <-]. by destruct Ho.
Qed.

Lemma orderly_run ms s : Forall single_move ms -> closes_in_order ms s = true -> conserved s -> distinct (committed ms) s ->
  orderly s -> runs ms s <> Undef.
Proof.
  revert s. induction ms as [|m ms IH]; intros s Hm Hc Hcs Hd Ho; cbn [core_run]; [done|].
  apply Forall_cons in Hm as [Hm Hms]. cbn [closes_in_order] in Hc. apply andb_true_iff in Hc as [Hmay Hc].
  destruct (orderly_machine _ m s Hm Hmay Hcs Hd Ho) as [Hu Hw].
  destruct (machine m s) as [s1| |] eqn:Em; [|done..].
  apply IH; [done..|by eapply machine_conserved|by eapply distinct_machine|by apply Hw].
Qed.

(** C36: in every schedule, what was accepted is what was taken, what waits and what [close]
    has given back, and what was taken has been finished or is being run.  When tasks are
    committed one by one, none of them twice, and no call is under way when [close] begins,
    no schedule is undefined; without the first condition a commitment may read behind its
    tasks ([many_tasks_outcome]), without the second two workers may race for the state of
    a task ([same_task_races]), without the third a caller may race with [close]
    ([close_races]). *)
Theorem core_accounting now ms : let r := runs ms (core_init cores now) in
  (forall s, r = Went s -> core_accepted s ≡ₚ core_taken s ++ contents (core_queue s) ++ core_returned s /\
     core_taken s ≡ₚ core_finished s ++ at_work (core_workers s)) /\
  (Forall single_move ms -> NoDup (committed ms) -> closes_in_order ms (core_init cores now) = true -> r <> Undef).
Proof.
  intros r. pose proof (init_conserved now) as Hi. split.
  - intros s E. by destruct (runs_conserved ms _ s Hi E).
  - intros Hm Hd Hc. apply orderly_run; [exact Hm|exact Hc|exact Hi|exact Hd|].
    constructor; [intros ts; apply not_elem_of_nil|done|by left].
Qed.

(** ** Many tasks at once *)
Lemma left_slots s : 0 <= QueueMaxSize - size_approx (core_queue s) < 2 ^ 31 ->
  leftSlot QueueMaxSize s = QueueMaxSize - size_approx (core_queue s).
Proof.
  intros Hl. unfold leftSlot, s32. cbv zeta. rewrite (wrap_small 32) by (unfold is_uint; lia).
  rewrite (proj2 (Z.ltb_lt _ _)) by lia. apply wrap_small. unfold is_uint. lia.
Qed.

(** A commitment of many tasks copies as many as the queue has places, whatever their
    number: with fewer tasks it reads behind the last, with more it forgets the rest and
    reports that all were accepted. *)
Theorem many_tasks_outcome k ts s : callers s !! k = Some (PuttingMany ts) ->
  let room := QueueMaxSize - Z.of_nat (length (contents (core_queue s))) in
  0 <= room < 2 ^ 31 ->
  (Z.of_nat (length ts) < room -> caller_step QueueMaxSize k s = Undef) /\
  (room <= Z.of_nat (length ts) -> exists s', caller_step QueueMaxSize k s = Went s' /\
     match enqueue_bulk (take (Z.to_nat room) ts) (core_queue s) with
     | Some _ => contents (core_queue s') ≡ₚ take (Z.to_nat room) ts ++ contents (core_queue s) /\
         core_accepted s' = core_accepted s ++ take (Z.to_nat room) ts /\ core_results s' = core_results s ++ succeeds ts
     | None => core_queue s' = core_queue s /\ core_accepted s' = core_accepted s /\
         core_results s' = core_results s ++ map (fun _ => Result false MemoryNotEnough) ts
     end).
Proof.
  intros Hk room Hr. unfold caller_step. rewrite Hk.
  assert (El : leftSlot QueueMaxSize s = room) by (rewrite left_slots; rewrite ?size_contents; done).
  rewrite El. split; [intros Hlt; by rewrite (proj2 (Z.ltb_lt _ _))|]. intros Hle.
  rewrite (proj2 (Z.ltb_ge _ _)) by done. eexists. split; [reflexivity|].
  destruct (enqueue_bulk _ _) as [q|] eqn:Eq; [|done]. cbn. split; [|done]. by apply contents_bulk in Eq.
Qed.

(** ** A pool whose threads have all gone *)
Record stranded s : Prop := {
  stranded_threads : forall i w, core_workers s !! i = Some w -> core_workman w = Ended;
  stranded_callers : callers s = [];
  stranded_queue : contents (core_queue s) <> [];
  stranded_close : core_closer s = AwaitEmpty /\ core_stop s = true;
}.

Lemma stranded_step m s : stranded s ->
  machine m s = Blocked \/ exists s', machine m s = Went s' /\ stranded s' /\ core_finished s' = core_finished s.
Proof.
  intros [Hw Hc Hq [Hcl Hst]]. destruct m as [i pick|single ts|k|pick|d]; cbn [core_machine].
  - left. unfold core_step. destruct (core_workers s !! i) as [w|] eqn:E; [|done]. cbn. by rewrite (Hw i w E).
  - destruct (_ && _); [by left|]. right. eexists. split; [reflexivity|]. unfold core_commit. rewrite Hst. split; [|done]. by constructor.
  - left. unfold caller_step. by rewrite Hc.
  - right. exists s. split; [|done]. unfold core_close_step. rewrite Hcl. rewrite (proj2 (Z.eqb_neq _ _)); [done|].
    rewrite size_contents. by destruct (contents (core_queue s)).
  - right. eexists. split; [reflexivity|]. split; [|done]. by constructor.
Qed.

Lemma stranded_run ms s s' : stranded s -> runs ms s = Went s' -> stranded s' /\ core_finished s' = core_finished s.
Proof.
  revert s. induction ms as [|m ms IH]; intros s Hs E; cbn [core_run] in E; [by injection E as <-|].
  destruct (stranded_step m s Hs) as [Eb|(s1 & Em & Hs1 & Hf)]; [by rewrite Eb in E|].
  rewrite Em in E. destruct (IH s1 Hs1 E) as [H1 H2]. split; [done|]. by rewrite H2.
Qed.

(** One step of every worker in turn. *)
Definition sweep (n : nat) : list core_move := map (fun i => CWork i None) (seq 0 n).

Section Sweep.
(** All workers are the same; a step of one of them changes it, and adds [d] to the count
    of vacant places. *)
Variables (w w' : ConcurrentWorker) (d : Z) (state : list ConcurrentWorker -> Z -> pool).
Hypothesis one_step : forall i ws v, ws !! i = Some w ->
  core_step leisureTimeUnit i None (state ws v) = Went (state (<[i := w']> ws) (v + d)).

Lemma sweep_run n v : runs (sweep n) (state (replicate n w) v) = Went (state (replicate n w') (v + d * Z.of_nat n)).
Proof.
  unfold sweep. assert (H1 : forall b a v, runs (map (fun i => CWork i None) (seq a b)) (state (replicate a w' ++ replicate b w) v) =
    Went (state (replicate (a + b) w') (v + d * Z.of_nat b))); [|apply (H1 n 0%nat v)].
  clear n v. induction b as [|b IH]; intros a v.
  - cbn. rewrite app_nil_r, Nat.add_0_r. do 2 f_equal. lia.
  - cbn [seq map core_run core_machine].
    rewrite one_step by (by rewrite lookup_app_r, length_replicate, Nat.sub_diag by (rewrite length_replicate; lia)).
    rewrite insert_app_r_alt by (rewrite length_replicate; lia). rewrite length_replicate, Nat.sub_diag.
    cbn [replicate went]. change (<[0%nat:=w']> (w :: replicate b w)) with (w' :: replicate b w).
    rewrite cons_middle, app_assoc, <-replicate_S_end, IH, Nat.add_succ_r. do 2 f_equal. lia.
Qed.
End Sweep.

Lemma runs_app l k s s1 : runs l s = Went s1 -> runs (l ++ k) s = runs k s1.
Proof.
  revert s. induction l as [|m l IH]; intros s E; cbn [core_run app] in *; [by injection E as <-|].
  destruct (machine m s); [by apply IH|done..].
Qed.

Lemma runs_cons m ms s s1 : machine m s = Went s1 -> runs (m :: ms) s = runs ms s1.
Proof. intros E. cbn [core_run]. by rewrite E. Qed.

Lemma alter_known f (ws : list ConcurrentWorker) i w : ws !! i = Some w -> alter f i ws = <[i := f w]> ws.
Proof.
  revert i. induction ws as [|x ws IH]; intros [|i] E; [done..|by injection E as <-|].
  change (alter f (S i) (x :: ws)) with (x :: alter f i ws). by rewrite (IH i E).
Qed.

(** Every worker finds nothing, and finds after a while that it has found nothing for long
    enough: it is not running any more, and not yet counted. *)
Definition all_leave : list core_move :=
  sweep cores ++ sweep cores ++ [CTick (S (Z.to_nat leisureTimeUnit))] ++ sweep cores ++ sweep cores.
Definition gone_worker (now : Z) (t : core_thread) : ConcurrentWorker := CWorker false t now false.

Lemma all_leave_run now : 0 <= leisureTimeUnit -> runs all_leave (core_init cores now) =
  Went (CPool (replicate cores (gone_worker now Leaving)) queue_new true false 0 (now + (leisureTimeUnit + 1)) [] Unclosed [] [] [] [] [] []).
Proof.
  intros Hl. set (state c := fun ws v => CPool ws (queue_new (Q := Q)) true false v c [] Unclosed [] [] [] [] [] []).
  assert (Hstep : forall c w f, (forall i ws v, ws !! i = Some w -> core_step leisureTimeUnit i None (state c ws v) = Went (on_core i f (state c ws v))) ->
    forall v, runs (sweep cores) (state c (replicate cores w) v) = Went (state c (replicate cores (f w)) v)).
  { intros c w f Hs v. rewrite (sweep_run w (f w) 0 (state c)); [by rewrite Z.mul_0_l, Z.add_0_r|].
    intros i ws v' Hw. rewrite Hs by done. unfold on_core, with_core_workers. cbn. by rewrite (alter_known f ws i w Hw), Z.add_0_r. }
  unfold all_leave. change (core_init cores now) with (state now (replicate cores (CWorker true Looking 0 true)) 0).
  erewrite runs_app by (apply (Hstep now _ (now_at Trying)); intros i ws v Hw; unfold core_step, state; cbn [core_workers]; rewrite Hw; reflexivity).
  cbn [now_at core_isRunning noWorkTime lastRunHaveTask].
  erewrite runs_app by (apply (Hstep now _ (fun w => CWorker (core_isRunning w) Looking now false)); intros i ws v Hw; unfold core_step, state; cbn [core_workers]; rewrite Hw; reflexivity).
  cbn [core_isRunning app]. set (c := now + (leisureTimeUnit + 1)).
  erewrite (runs_cons _ _ _ (state c (replicate cores (CWorker true Looking now false)) 0)).
  2: { cbn [core_machine]. unfold with_clock, state, c. cbn -[Z.of_nat]. do 2 f_equal. lia. }
  erewrite runs_app by (apply (Hstep c _ (now_at Trying)); intros i ws v Hw; unfold core_step, state; cbn [core_workers]; rewrite Hw; reflexivity).
  cbn [now_at core_isRunning noWorkTime lastRunHaveTask].
  rewrite (Hstep c _ (fun w => CWorker false Leaving (noWorkTime w) (lastRunHaveTask w))); [done|].
  intros i ws v Hw. unfold core_step, state. cbn [core_workers]. rewrite Hw. cbn. rewrite (proj2 (Z.ltb_lt _ _)) by (unfold c; lia). done.
Qed.

(** All have left, and the count is [cores]. *)
Lemma counted_run q c run stop cs cl acc res now v :
  runs (sweep cores) (CPool (replicate cores (gone_worker now Leaving)) q run stop v c cs cl acc res [] [] [] []) =
  Went (CPool (replicate cores (gone_worker now Ended)) q run stop (v + Z.of_nat cores) c cs cl acc res [] [] [] []).
Proof.
  rewrite (sweep_run (gone_worker now Leaving) (gone_worker now Ended) 1 (fun ws v => CPool ws q run stop v c cs cl acc res [] [] [] []));
    [by rewrite Z.mul_1_l|].
  intros i ws v' Hw. unfold core_step. cbn [core_workers]. rewrite Hw. cbn. unfold with_vacant_slots, on_core, with_core_workers. cbn.
  by rewrite (alter_known _ ws i _ Hw).
Qed.

(** A caller that looks at [vacantSlotCount] after the last thread has seen an empty
    queue, and before it is counted, puts a task in the queue of a pool without threads.
    The caller is told that the task was accepted; nobody ever runs it, nothing but another
    commitment would make a thread, and when the pool is to wait for its tasks [close]
    waits for ever, whatever is done with the pool. *)
Theorem accepted_task_stranded now t q : closeStrategy = WaitAllTaskFinish -> 0 < QueueMaxSize -> 0 <= leisureTimeUnit ->
  enqueue t queue_new = Some q ->
  exists ms s, runs ms (core_init cores now) = Went s /\ core_results s = [Result true NoRefuse] /\ core_accepted s = [t] /\
    forall ms' s', runs ms' s = Went s' -> core_finished s' = [] /\ core_closer s' = AwaitEmpty.
Proof.
  intros Hs Hm Hl Hq.
  exists (all_leave ++ [CCommit true [t]; CCall 0; CCall 0; CCall 0] ++ sweep cores ++ [CClose None]). eexists. split.
  - erewrite runs_app by (by apply all_leave_run). cbn [app].
    erewrite runs_cons by reflexivity. cbn [core_stop callers core_results map app].
    erewrite runs_cons. 2: { cbn [core_machine]. unfold caller_step. cbn -[Z.ltb]. rewrite size_contents, contents_new. cbn [length Z.of_nat].
      rewrite (proj2 (Z.ltb_lt _ _)) by done. reflexivity. }
    erewrite runs_cons. 2: { cbn [core_machine]. unfold caller_step. cbn. rewrite Hq. reflexivity. }
    erewrite runs_cons by reflexivity. cbn.
    erewrite runs_app by apply counted_run. cbn. unfold core_close_step. cbn. rewrite decide_True by done. reflexivity.
  - split; [done|]. split; [done|]. intros ms' s' E. eapply stranded_run in E as [Hst Hf].
    + split; [exact Hf|]. by destruct Hst as [_ _ _ [? _]].
    + constructor; [|done| |done]; cbn.
      * intros i w Hw. by apply lookup_replicate in Hw as [-> _].
      * apply contents_enqueue in Hq. rewrite contents_new in Hq. apply Permutation_length in Hq. by destruct (contents q).
Qed.

(** ** [close] against a caller *)

(** A caller that finds the places counted gets as far as the first of them. *)
Lemma caller_waits_run t q c now v : (0 < cores)%nat -> 0 < v -> 0 < QueueMaxSize -> enqueue t queue_new = Some q ->
  runs [CCommit true [t]; CCall 0; CCall 0; CCall 0; CCall 0; CCall 0]
    (CPool (replicate cores (gone_worker now Ended)) queue_new true false v c [] Unclosed [] [] [] [] [] []) =
  Went (CPool (replicate cores (gone_worker now Ended)) q true false v c [Replacing 0] Unclosed [t] [Result true NoRefuse] [] [] [] []).
Proof.
  intros Hn Hv Hm Hq. destruct cores as [|n]; [lia|]. cbn [replicate]. set (ws := _ :: replicate n _).
  assert (H1 : machine (CCall 0) (CPool ws queue_new true false v c [Sizing t] Unclosed [] [] [] [] [] []) =
    Went (CPool ws queue_new true false v c [Putting t] Unclosed [] [] [] [] [] [])).
  { cbn [core_machine]. unfold caller_step. cbn -[Z.ltb]. rewrite size_contents, contents_new. cbn [length Z.of_nat].
    by rewrite (proj2 (Z.ltb_lt _ _)). }
  assert (H2 : machine (CCall 0) (CPool ws queue_new true false v c [Putting t] Unclosed [] [] [] [] [] []) =
    Went (CPool ws q true false v c [Vacancy] Unclosed [t] [Result true NoRefuse] [] [] [] [])).
  { cbn [core_machine]. unfold caller_step. cbn. by rewrite Hq. }
  assert (H3 : machine (CCall 0) (CPool ws q true false v c [Vacancy] Unclosed [t] [Result true NoRefuse] [] [] [] []) =
    Went (CPool ws q true false v c [Locking] Unclosed [t] [Result true NoRefuse] [] [] [] [])).
  { cbn [core_machine]. unfold caller_step. cbn -[Z.ltb]. by rewrite (proj2 (Z.ltb_lt _ _)). }
  erewrite runs_cons by reflexivity. erewrite runs_cons by exact H1. erewrite runs_cons by exact H2. erewrite runs_cons by exact H3.
  reflexivity.
Qed.

(** [close] comes to the first place. *)
Lemma close_run ws q c cs acc res v : closeStrategy <> WaitAllTaskFinish ->
  runs [CClose None; CClose None; CClose None] (CPool ws q true false v c cs Unclosed acc res [] [] [] []) =
  Went (CPool ws q false true v c cs (JoinFrom 0) acc res [] [] [] []).
Proof.
  intros Hs.
  assert (H1 : machine (CClose None) (CPool ws q true false v c cs Unclosed acc res [] [] [] []) =
    Went (CPool ws q true true v c cs ClearRun acc res [] [] [] [])).
  { cbn [core_machine]. unfold core_close_step. cbn. by rewrite decide_False. }
  assert (H2 : machine (CClose None) (CPool ws q true true v c cs ClearRun acc res [] [] [] []) =
    Went (CPool ws q false true v c cs TakeBack acc res [] [] [] [])).
  { cbn [core_machine]. unfold core_close_step. cbn. by rewrite decide_False. }
  erewrite runs_cons by exact H1. erewrite runs_cons by exact H2. by erewrite runs_cons by reflexivity.
Qed.

(** A caller that was let in before [close], and has found that the thread of the first
    place has ended, is about to join and replace it when [close] is about to join it:
    neither waits for the other, and whichever comes first, the other is undefined. *)
Theorem close_races now t q : (0 < cores)%nat -> closeStrategy <> WaitAllTaskFinish -> 0 < QueueMaxSize -> 0 <= leisureTimeUnit ->
  enqueue t queue_new = Some q ->
  exists ms s, Forall single_move ms /\ runs ms (core_init cores now) = Went s /\
    (exists s1, machine (CCall 0) s = Went s1 /\ machine (CClose None) s1 = Undef) /\
    (exists s1, machine (CClose None) s = Went s1 /\ machine (CCall 0) s1 = Undef).
Proof.
  intros Hn Hs Hm Hl Hq. set (ws := replicate cores (gone_worker now Ended)).
  set (s := CPool ws q false true (0 + Z.of_nat cores) (now + (leisureTimeUnit + 1)) [Replacing 0] (JoinFrom 0)
    [t] [Result true NoRefuse] [] [] [] []).
  exists (all_leave ++ sweep cores ++ [CCommit true [t]; CCall 0; CCall 0; CCall 0; CCall 0; CCall 0] ++
    [CClose None; CClose None; CClose None]), s.
  assert (H0 : ws !! 0%nat = Some (gone_worker now Ended)) by (by apply lookup_replicate).
  split; [|split; [|split]].
  - assert (Hsw : Forall single_move (sweep cores)) by (apply Forall_fmap, Forall_true; done).
    unfold all_leave. rewrite !Forall_app. repeat constructor; exact Hsw.
  - erewrite runs_app by (by apply all_leave_run). erewrite runs_app by apply counted_run.
    erewrite runs_app by (apply caller_waits_run; [exact Hn|lia|done..]). by apply close_run.
  - eexists. split.
    + cbn [core_machine]. unfold caller_step. cbn [callers s lookup list_lookup core_workers]. rewrite H0.
      cbn [core_workman gone_worker]. reflexivity.
    + cbn [core_machine]. unfold core_close_step. cbn. by rewrite (alter_known _ _ _ _ H0), list_lookup_insert_eq by (by eapply lookup_lt_Some).
  - eexists. split.
    + cbn [core_machine]. unfold core_close_step. cbn [core_closer s core_workers core_touched]. rewrite H0.
      rewrite decide_False by apply not_elem_of_nil. cbn [core_workman gone_worker]. reflexivity.
    + cbn [core_machine]. unfold caller_step. cbn. by rewrite (alter_known _ _ _ _ H0), list_lookup_insert_eq by (by eapply lookup_lt_Some).
Qed.
End Theorems.

(** ** A queue of at most three elements *)
Section Scenario.
Definition short_queue (q : list Z) : option (list Z) := if decide (length q <= 3)%nat then Some q else None.
Local Instance list_queue : ConcurrentQueue (list Z) := {
  queue_new := [];
  enqueue t q := short_queue (q ++ [t]);
  enqueue_bulk l q := short_queue (q ++ l);
  try_dequeue k q := match q with t :: q => Some (t, q) | [] => None end;
  size_approx q := Z.of_nat (length q);
}.
Local Instance list_queue_laws : ConcurrentQueueLaws (list Z) id.
Proof.
  constructor; cbn; [done| | | |done]; unfold short_queue, id.
  - intros t q q'. case_decide; [|done]. intros [= <-]. by rewrite <-Permutation_cons_append.
  - intros l q q'. case_decide; [|done]. intros [= <-]. apply Permutation_app_comm.
  - intros k t [|x q] q'; [done|]. by intros [= <- <-].
Qed.

(** Two workers, places for two tasks, a second of leisure: one task, and [close]. *)
Definition one_task : list core_move :=
  [CCommit true [7]; CCall 0; CCall 0; CCall 0; CWork 1 None; CWork 1 (Some 0%nat); CWork 1 None;
   CClose None; CClose None; CClose None; CWork 0 None; CWork 1 None; CClose None; CClose None; CClose None].
Lemma core_accounting_witness : exists s,
  core_run 2 1000 ReturnTaskAndClose one_task (core_init 2 0) = Went s /\ core_closer s = Terminated /\
  core_finished s = [7] /\ core_accepted s ≡ₚ core_taken s ++ core_queue s ++ core_returned s /\
  core_run 2 1000 ReturnTaskAndClose one_task (core_init 2 0) <> Undef.
Proof.
  destruct (core_accounting 2 2 1000 ReturnTaskAndClose 0 one_task) as [H Hu].
  eexists. split; [vm_compute; reflexivity|]. split; [reflexivity|]. split; [reflexivity|]. split.
  - eapply H. vm_compute. reflexivity.
  - apply Hu; [repeat constructor|apply NoDup_singleton|vm_compute; reflexivity].
Defined.

(** A task that is committed twice is taken by both workers, and nothing orders the one's
    write of its state before the other's reading. *)
Theorem same_task_races : core_run 2 1000 ReturnTaskAndClose
  [CCommit true [7]; CCall 0; CCall 0; CCall 0; CCommit true [7]; CCall 0; CCall 0; CCall 0;
   CWork 0 None; CWork 0 (Some 0%nat); CWork 1 None; CWork 1 (Some 0%nat)] (core_init 2 0) = Undef.
Proof. vm_compute. reflexivity. Qed.

Lemma accepted_task_stranded_witness : exists ms s,
  core_run 2 1000 WaitAllTaskFinish ms (core_init 2 0) = Went s /\ core_results s = [Result true NoRefuse] /\
  forall ms' s', core_run 2 1000 WaitAllTaskFinish ms' s = Went s' -> core_finished s' = [].
Proof.
  destruct (accepted_task_stranded (contents := id) 2 2 1000 WaitAllTaskFinish 0 7 [7]) as (ms & s & E & Hr & _ & H);
    [reflexivity|reflexivity|discriminate|vm_compute; reflexivity|].
  exists ms, s. split; [exact E|]. split; [exact Hr|]. intros ms' s' E'. exact (proj1 (H ms' s' E')).
Defined.

(** Places for two tasks: one task is too few, and of three the last is forgotten. *)
Definition with_tasks_of (ts : list Z) : ConcurrentThreadPool (list Z) := with_callers [PuttingMany ts] [] (core_init 2 0).
Lemma many_tasks_outcome_witness :
  caller_step 2 0 (with_tasks_of [1]) = Undef /\
  exists s, caller_step 2 0 (with_tasks_of [1; 2; 3]) = Went s /\ core_accepted s = [1; 2] /\ core_results s = succeeds [1; 2; 3].
Proof.
  split.
  - destruct (many_tasks_outcome 2 0 [1] (with_tasks_of [1])) as [H _]; [reflexivity|by split|]. by apply H.
  - destruct (many_tasks_outcome 2 0 [1; 2; 3] (with_tasks_of [1; 2; 3])) as [_ H]; [reflexivity|by split|].
    destruct (H ltac:(vm_compute; discriminate)) as (s & E & Hs). exists s. split; [exact E|].
    match type of Hs with match ?e with _ => _ end => change e with (Some [1; 2]) in Hs end.
    destruct Hs as (_ & -> & ->). split; reflexivity.
Defined.

Lemma close_races_witness : exists ms s, core_run 2 1000 ReturnTaskAndClose ms (core_init 2 0) = Went s /\
  exists s1, core_machine 2 1000 ReturnTaskAndClose (CCall 0) s = Went s1 /\
    core_machine 2 1000 ReturnTaskAndClose (CClose None) s1 = Undef.
Proof.
  destruct (close_races (contents := id) 2 2 1000 ReturnTaskAndClose 0 7 [7]) as (ms & s & _ & E & H & _);
    [lia|discriminate|reflexivity|discriminate|vm_compute; reflexivity|].
  exists ms, s. split; [exact E|exact H].
Defined.
End Scenario.
